(* ===== verification/_CoqProject ===== *)
-Q . S2P
Prelude.v
OsmoFsm.v
Slotmap.v
RsproPdu.v
BerTlv.v
AsnTypes.v
RsproTables.v
X690.v
DerEncoder.v
DerProps.v
BerDecoder.v
BerRoundtrip.v
BerSafe.v
BerTotal.v
RsproDer.v
RsproUtil.v
Ipa.v
RsproServer.v
RestApi.v
ServerInv.v
ServerSystem.v
ServerProps.v
ClientConn.v
Examples.v
ConnInv.v
ConnProps.v
BankdPcsc.v
BankdMain.v
BankdStart.v
BankdInv.v
BankdThread.v
BankdSystem.v
BankdProps.v
RemsimClient.v
ClientInv.v
ClientProps.v
IfdHandler.v
IfdInv.v
IfdProps.v
EndToEnd.v
CString.v
ClientMain.v
ClientMainProps.v
ClientShell.v
IonMesh.v
ClientLog.v
OpenWrt.v
OpenWrtProps.v
SimTrace2.v
SimTrace2Props.v
ModemToCard.v
MapLink.v
MapServer.v
RsproFits.v
AsnConstraints.v
MapAgreement.v
ServerMain.v
PcscTest.v
