(* ===== verification/Prelude.v ===== *)
(** * osmo-remsim: a verification development

    osmo-remsim connects modems to SIM cards in remote readers.  Three programs
    speak the protocol RSPRO (ASN.1, in messages of the IPA multiplex):
    - remsim-bankd runs next to a bank of card readers, one worker thread per
      slot of the bank;
    - remsim-client runs next to a modem;
    - remsim-server knows all of them; over its REST interface an operator maps
      slots of clients to slots of banks.
    The server tells a bankd its mappings and a client the address of the bankd
    and its slot; the client then connects to the bankd and the TPDUs of the
    modem and of the card are exchanged between these two.

    ** Parts and files (names under [src/src/] unless they start with [src/])

    - [Prelude]: outcomes of C code, the state monad [M], its weakest
      preconditions [wpe]/[wp] with their rules and automation, machine
      integers, lists.
    - [OsmoFsm], [Ipa]: what the programs use of libosmocore and libosmo-netif:
      state machines and server sockets (class [OsmoLib] with its laws),
      messages and constants of the IPA multiplex.
    - [Slotmap]: [slotmap.c], [slotmap.h].  [slotmaps] is the heap of mappings
      with the global list and the lists of the connected bankds; [pinj] is
      the abstract partial injection it implements ([run_ops_refines]).
    - [RsproPdu], [RsproUtil]: [src/include/osmocom/rspro/*.h],
      [rspro_util.c], [asn1c_helpers.c].
    - The octets of a PDU, by the ASN.1 run-time under [rspro/]: [BerTlv] (tags
      and lengths: [ber_tlv_tag.c], [ber_tlv_length.c]), [AsnTypes] (descriptors
      of types and their values), [RsproTables] (the generated descriptors of
      RSPRO), [DerEncoder] ([der_encoder.c] and the encoders of the types),
      [BerDecoder] ([ber_decoder.c] and the decoders of the types), [X690] (the
      encoding as the standard defines it, without the run-time), [DerProps],
      [BerRoundtrip], [BerSafe], [BerTotal].  [AsnConstraints] is the check of
      constraints, which the programs do not call.  [RsproDer] puts them together to
      [rspro_enc_msg] and [rspro_dec_msg]; the programs are modelled for any
      codec (class [RsproCodec]) and run with this one.
    - Server: [RsproServer] ([server/rspro_server.c]: connections, the machine
      [SERVER_CONN], reception, the event from the REST threads), [RestApi]
      ([server/rest_api.c]), [ServerInv] (invariant and rules), [ServerSystem]
      (rules of the events), [ServerProps] (step relation and properties),
      [ServerMain] ([server/remsim_server.c]: options, start and its unwinding).
    - Client side of a connection: [ClientConn] ([rspro_client_fsm.c]), for any
      program state, [ConnInv] (invariant and rules), [ConnProps].
    - Client: [RemsimClient] ([client/main_fsm.c], [client/remsim_client.c]),
      [ClientInv], [ClientProps].
    - Bankd: [BankdPcsc] (state, [bankd/bankd_pcsc.c]), [BankdMain]
      ([bankd/bankd_main.c]: main thread, signals, workers; [bankd/gsmtap.c]),
      [BankdStart] (options, [main]), [BankdInv] (specification of the server's
      requests), [BankdThread] (rules of a worker thread), [BankdSystem]
      (invariant, reachable states), [BankdProps]; [PcscTest], the test program
      ([bankd/main.c], [bankd/driver_core.c], [bankd/driver_pcsc.c]).
    - Reader driver for PC/SC, with clients in threads: [IfdHandler]
      ([client/user_ifdhandler.c]), [IfdInv], [IfdProps].
    - Start of the client: [CString] (the string functions of the C library),
      [ClientMain] ([client/remsim_client_main.c]: options, the configuration
      file of a router), [ClientMainProps].
    - Front ends of the client, which run with it as one program: [ClientShell]
      ([client/user_shell.c]); [OpenWrt] ([client/user_openwrt.c]), [OpenWrtProps]
      and [IonMesh] ([client/ionmesh_integration.c]: registration over HTTP);
      [SimTrace2] ([client/user_simtrace2.c]), [SimTrace2Props].
      [ClientLog]: a front end only appends to what it is told.
    - [EndToEnd]: server, bankd and reader driver in one state, with the messages
      that are delivered between them, for runs of the whole system;
      [ModemToCard]: the SIMtrace2 front end and a worker of a bankd.
    - The mappings of a bank at the server and at its bankd: [MapLink] is the
      protocol of the two, on lists of pairs of slots; [MapServer] shows that the
      server follows it on each connection, [MapAgreement] that the bankd does,
      and what they agree on.  [RsproFits]: the messages that fit the buffer of
      the encoder, so that every request and response is sent (class
      [RsproFits], with the codec of [RsproDer] as instance).
    - [Examples]: environments and messages shared by concrete runs.

    A handler of the code is a definition of the same name that runs in [M]
    over the state of its program; where the code calls through a pointer
    (parent machines, frontends) the callee is a parameter.  Sockets, queues
    and timers that the program only writes are logs in the state ([srvc_sent],
    [w_sent], [frontend_log], ...).  What the environment decides (times,
    results of system calls, received messages, the interleaving of threads) is
    an argument of the events, and a program runs by any sequence of events
    that can happen in its state ([srv_step], [client_reachable],
    [bankd_run], [ifd_run]).  A step is what one thread does without giving up the
    processor to what the model lets interleave with it: on the server an event of
    the main loop, a REST call, or one of the three critical sections of the POST
    that adds a mapping ([EvPost], [EvPostReset], [EvPostLink]; the calls that are
    under way are part of the state, [srv_sys], and the three in sequence are the
    function of the code, [post_sections]); in the bankd an event of the main thread
    or what a worker does between two blocking calls.  A worker uses a mapping after it
    has given up the lock of the look-up: whether the main thread has removed it
    meanwhile is an argument of its step ([removed_meanwhile]).

    ** What the theorems show

    - The purpose of the system: a C-APDU given to the reader driver is executed
      by the card of the mapped slot and its response comes back
      ([apdu_end_to_end]); so is a command of a modem behind a SIMtrace2 board
      ([modem_command_executed]); a whole run of the three programs is
      [system_life_cycle].
    - Safety: in every reachable state of each program every event is processed
      to the end, but for the failures that each theorem lists
      ([reachable_events_defined], [benign_events_complete],
      [client_events_defined], [bankd_events_defined], [ifd_events_defined]).
      Runs in which they occur: a connection or a DELETE during a POST
      ([rest_post_race], [rest_delete_race]), an unawaited response
      ([unawaited_response_undefined]), a time-out ([reconnect_after_timeout_undefined]),
      a mapping removed while a worker uses it ([lookup_race], [lookup_interleaved]),
      the freed request of the reader driver ([freed_request_faults]), a modem that
      blocks ([blocked_modem_spins]).
    - Invariants of the reachable states ([reachable_mappings],
      [reachable_connections], [client_reachable_inv], [bankd_reachable_inv]).
    - Refinement: slot maps are partial injections ([run_ops_refines]), and
      the requests of the server to a bankd are operations on one
      ([server_requests_refine]); the calls of the reader driver that need no
      card are a function of the client's state ([calls_answered]).
    - Requests and replies between the threads of the reader driver
      ([replies_match]), with the runs in which they get out of step
      ([stray_response_shifts_replies]) or a call never returns
      ([lost_apdu_blocks]).
    - Server and bankd agree on the mappings of the bank, on one connection and
      under the conditions listed below: what is ACTIVE at the
      server is in force at the bankd, and when no message is under way nothing
      else is but what is about to be deleted ([mappings_agree]); no request and
      no response finds the other side unprepared ([link_never_stuck]).  They do
      not agree on a mapping deleted before the bankd has answered
      ([deleted_while_pending]) or while the bankd is away ([deleted_while_away]), nor
      need they if the bankd connects during a POST ([rest_post_race]).
    - Isolation of cards: a TPDU reaches a card only through the mapping that
      the worker holds, or that of the pool slot the Ki proxy selects
      ([tpdu_relayed_or_refused]), and a removed mapping is
      revoked ([revocation]), with the interleavings in which it is not
      ([stale_slot_misdirects_signal], [lookup_race]).
    - Connections come back: delays, attempts and time-outs
      ([lost_connection_delay], [attempts_continue], [failed_attempt_period]).
    - The front ends: the router switches its SIM with the sessions
      ([sim_follows_session]), relays TPDUs by AT commands ([openwrt_relay],
      [hex_roundtrip]) and survives what the system answers
      ([openwrt_events_defined]), but not a modem that blocks nor an assignment by IonMesh
      ([ionmesh_breaks_connection]); the shell reads commands and prints
      responses ([shell_reads], [shell_exchange], [shell_resets_once]); a SIMtrace2
      board follows the sessions ([board_follows_session]), exchanges commands and
      responses ([simtrace2_exchange], [irq_status_relayed]) and survives all but
      some messages ([simtrace2_events_defined], [stale_message_repeated],
      [short_response_undefined]).
    - The start of the server and how it is undone, but for a lock
      ([server_main_outcome]), of the
      SIMtrace2 front end ([simtrace2_start]), of the client: its configuration
      file ([uci_roundtrip], [uci_ranges], [uci_pitfalls]), its first state
      ([client_main_reachable]); answers of IonMesh ([ionmesh_bounds],
      [ionmesh_roundtrip], [ionmesh_pitfalls]); the list of readers of the test
      program ([reader_list_endless]).
    - Messages on the wire: the encoder is the distinguished encoding of X.690
      ([der_encode_equiv]), what is encoded is decoded to the same PDU, true BOOLEANs
      as 255 ([ber_decode_der], [rspro_wire_roundtrip]), messages without long strings
      can be encoded ([small_pdus_encode]), whatever is decoded has its type
      ([ber_decode_typed], [rspro_received_typed]), and the decoder ends
      ([ber_decode_total]) but for messages of one kind
      ([endless_pdu_never_decoded]).
    - Constraints of the types: the check is that of the ASN.1 module only until
      the first value is encoded or decoded ([constraints_checked],
      [constraints_lost], [constraints_kept]).
    - Round trips of identities, slots and JSON; bounds of buffers, arrays and
      indices; error behaviour; whole runs ([mapping_life_cycle],
      [client_life_cycle], [bankd_life_cycle]).

    ** Budgets

    Actions of state machines dispatch events to machines, so each program ties
    its machines with a nesting budget: [FSM_DEPTH] = 4 on the server (a
    connection closes another one, which unlinks and is freed), [CONN_DEPTH] = 4
    for a connection without parent (the socket's call-back, its delay, the next
    attempt), [CLIENT_DEPTH] = 10 for the client (the main machine between its
    two connections).  Every safety theorem excludes [NoFuel], so they are
    enough; the one exception is the loop of the router that repeats a write to a
    modem, which has no budget: [NoFuel] stands there for the loop that never ends.  The loops of the BER decoder take 2 n + 2 rounds at most for a message
    of n octets; more make no difference ([ber_decode_total]).  Its second budget,
    [d], is the number of nested calls that the limit of 30000 octets of C stack
    allows, which depends on the compiler; 6 are enough for a PDU.  Other loops
    are structural or over lists.

    ** Not modelled

    - Libraries (libosmocore, libosmo-netif, talloc, jansson, ulfius, PC/SC,
      libcsv, libcurl, libusb, libosmo-simtrace2): they are classes with the behaviour the code relies on,
      and each has a concrete instance, with which the examples and witnesses are
      evaluated.
    - Of the ASN.1 run-time what the programs do not use: XER, PER, printing,
      resuming a decoding; and freeing.  A program that
      receives a message which is never decoded stops; in the models of the
      programs it goes on as after a message that cannot be decoded.
    - Locks as state, and logging.  An operation under a lock is one step.  Besides
      the sections of a POST and the use of a mapping by a worker, other data races
      between two critical sections of one event are not modelled: the steps of
      a thread named above are atomic.
    - Exhausted memory where the code does not test for it (the generators of
      PDUs, [talloc] in the client).
    - The agreement of server and bankd is about one connection while it lasts:
      a bankd that starts without mappings, requests and responses in order,
      slots of the bank that the bankd has, no mapping deleted while its creation
      is not answered, and nothing that interferes with a POST.  A lost connection, keep-alive messages and time-outs at
      the bankd's end of it are in the models of the programs, but of what a bankd
      keeps from an earlier connection only [deleted_while_away] speaks.
    - The scripts and tests, and the sample programs of the ASN.1 compilers.

    ** Plan

    Every component that the programs run is modelled; what is left out is listed
    above. *)

From stdpp Require Export base tactics numbers strings pretty option gmap list.

#[global] Open Scope Z_scope.

(** ** Outcomes of C code

    A C function either completes ([Done]), stops the process through
    [OSMO_ASSERT] or [exit] ([Panic]), performs an access the C standard
    leaves undefined, such as dereferencing a NULL or an already freed
    pointer ([Undef]), or has exhausted the recursion budget of the model
    ([NoFuel]; every use of a budget comes with a theorem that it is not
    exhausted). *)

Inductive outcome (A : Type) : Type :=
| Done (a : A)
| Panic
| Undef
| NoFuel.
Arguments Done {A} a.
Arguments Panic {A}.
Arguments Undef {A}.
Arguments NoFuel {A}.

(** ** The state monad over outcomes *)

Definition M (S A : Type) : Type := S → outcome (A * S).

#[global] Instance M_ret S : MRet (M S) := λ A a s, Done (a, s).
#[global] Instance M_bind S : MBind (M S) := λ A B f m s,
  match m s with
  | Done (a, s') => f a s'
  | Panic => Panic
  | Undef => Undef
  | NoFuel => NoFuel
  end.

Definition gets {S A} (f : S → A) : M S A := λ s, Done (f s, s).
Definition modify {S} (f : S → S) : M S () := λ s, Done ((), f s).
Definition panic {S A} : M S A := λ _, Panic.
Definition undef {S A} : M S A := λ _, Undef.
Definition nofuel {S A} : M S A := λ _, NoFuel.
Definition when {S} (b : bool) (m : M S ()) : M S () := if b then m else mret ().

(** [OSMO_ASSERT(b)] *)
Definition osmo_assert {S} (b : bool) : M S () := if b then mret () else panic.

(** A pointer the code dereferences without a check. *)
Definition deref {S A} (o : option A) : M S A :=
  match o with Some a => mret a | None => undef end.

(** A computation on a part of the state. *)
Definition zoom {S T A} (get : S → T) (set : T → S → S) (m : M T A) : M S A := λ s,
  match m (get s) with
  | Done (a, t) => Done (a, set t s)
  | Panic => Panic
  | Undef => Undef
  | NoFuel => NoFuel
  end.

(** A loop over a list whose body runs for its effects
    ([llist_for_each_entry_safe]). *)
Fixpoint for_each {S A} (f : A → M S ()) (l : list A) : M S () :=
  match l with
  | [] => mret ()
  | x :: l => f x ;; for_each f l
  end.

(** ** Reasoning about outcomes

    [wpe E m s Q]: from [s] the computation [m] either completes with a result
    and a final state that satisfy [Q], or ends in one of the abnormal ways
    that [E] admits.  [wp] admits none, [wlp] all of them, and [wpu] only an
    undefined access. *)

Variant abort := APanic | AUndef | ANoFuel.

Definition wpe (E : abort → Prop) {S A} (m : M S A) (s : S) (Q : A → S → Prop) : Prop :=
  match m s with
  | Done (a, s') => Q a s'
  | Panic => E APanic
  | Undef => E AUndef
  | NoFuel => E ANoFuel
  end.

Definition no_abort (e : abort) : Prop := False.
Definition any_abort (e : abort) : Prop := True.
Definition undef_only (e : abort) : Prop := e = AUndef.
Abbreviation wp := (wpe no_abort).
Abbreviation wlp := (wpe any_abort).
Abbreviation wpu := (wpe undef_only).

Section wp_rules.
Context {S A B : Type} {E : abort → Prop}.
Implicit Types (s : S).

Lemma wp_ret (a : A) s (Q : A → S → Prop) : Q a s → wpe E (mret a) s Q.
Proof. done. Qed.

Lemma wp_bind (m : M S A) (f : A → M S B) s Q :
  wpe E m s (λ a s', wpe E (f a) s' Q) → wpe E (m ≫= f) s Q.
Proof. unfold wpe, mbind, M_bind. by destruct (m s) as [[a s']| | |]. Qed.

Lemma wp_gets (f : S → A) s (Q : A → S → Prop) : Q (f s) s → wpe E (gets f) s Q.
Proof. done. Qed.

Lemma wp_modify (f : S → S) s (Q : () → S → Prop) : Q () (f s) → wpe E (modify f) s Q.
Proof. done. Qed.

Lemma wp_panic s (Q : A → S → Prop) : E APanic → wpe E panic s Q.
Proof. done. Qed.

Lemma wp_undef s (Q : A → S → Prop) : E AUndef → wpe E undef s Q.
Proof. done. Qed.

Lemma wp_nofuel s (Q : A → S → Prop) : E ANoFuel → wpe E nofuel s Q.
Proof. done. Qed.

Lemma wp_deref (o : option A) s Q :
  (o = None → E AUndef) → (∀ a, o = Some a → Q a s) → wpe E (deref o) s Q.
Proof. destruct o; intros H1 H2; [by apply H2|by apply H1]. Qed.

Lemma wp_assert (b : bool) s (Q : () → S → Prop) :
  (b = false → E APanic) → (b = true → Q () s) → wpe E (osmo_assert b) s Q.
Proof. destruct b; intros H1 H2; [by apply H2|by apply H1]. Qed.

Lemma wp_when (b : bool) (m : M S ()) s Q :
  (b = true → wpe E m s Q) → (b = false → Q () s) → wpe E (when b m) s Q.
Proof. destruct b; intros H1 H2; [by apply H1|by apply H2]. Qed.

Lemma wp_mono (m : M S A) s (Q Q' : A → S → Prop) :
  wpe E m s Q → (∀ a s', Q a s' → Q' a s') → wpe E m s Q'.
Proof. unfold wpe. destruct (m s) as [[a s']| | |]; auto. Qed.

Lemma wp_weaken (E' : abort → Prop) (m : M S A) s (Q : A → S → Prop) :
  wpe E m s Q → (∀ e, E e → E' e) → wpe E' m s Q.
Proof. unfold wpe. destruct (m s) as [[a s']| | |]; auto. Qed.

Lemma wp_zoom {T} (get : S → T) (set : T → S → S) (m : M T A) s (Q : A → S → Prop) :
  wpe E m (get s) (λ a t, Q a (set t s)) → wpe E (zoom get set m) s Q.
Proof. unfold wpe, zoom. by destruct (m (get s)) as [[a t]| | |]. Qed.

(** Equal computations. *)
Lemma wp_eq (m m' : M S A) s (Q : A → S → Prop) : m s = m' s → wpe E m' s Q → wpe E m s Q.
Proof. unfold wpe. by intros ->. Qed.

(** A computation whose result is known. *)
Lemma wp_run (m : M S A) s a s' (Q : A → S → Prop) : m s = Done (a, s') → Q a s' → wpe E m s Q.
Proof. unfold wpe. by intros ->. Qed.

Lemma wp_done_inv (m : M S A) s Q a s' : wpe E m s Q → m s = Done (a, s') → Q a s'.
Proof. unfold wpe. by intros H E'; rewrite E' in H. Qed.

Lemma wp_and (m : M S A) s (Q Q' : A → S → Prop) :
  wpe E m s Q → wpe E m s Q' → wpe E m s (λ a s', Q a s' ∧ Q' a s').
Proof. unfold wpe. destruct (m s) as [[a s']| | |]; auto. Qed.
End wp_rules.

Lemma wp_done {S A} (m : M S A) s Q :
  wp m s Q ↔ ∃ a s', m s = Done (a, s') ∧ Q a s'.
Proof.
  unfold wpe. destruct (m s) as [[a s']| | |]; split; try done; try (by intros (?&?&?&?)).
  - eauto.
  - by intros (?&?&[= <- <-]&?).
Qed.

(** A loop preserves what its body preserves. *)
Lemma wp_for_each {S A E} (f : A → M S ()) (I : S → Prop) l s :
  I s → (∀ x s, x ∈ l → I s → wpe E (f x) s (λ _, I)) → wpe E (for_each f l) s (λ _, I).
Proof.
  revert s. induction l as [|x l IH]; intros s HI Hf; [done|].
  cbn [for_each]. apply wp_bind. eapply wp_mono; [apply Hf; [left|done]|].
  intros [] s' HI'. apply IH; [done|]. intros; apply Hf; [by right|done].
Qed.

(** The outcome, seen from outside. *)
Lemma wpe_outcome {S A} (E : abort → Prop) (m : M S A) s Q :
  wpe E m s Q ↔ match m s with
                | Done (a, s') => Q a s'
                | Panic => E APanic
                | Undef => E AUndef
                | NoFuel => E ANoFuel
                end.
Proof. done. Qed.

#[global] Opaque wpe.

Lemma mbind_done {S A B} (m : M S A) (f : A → M S B) s a s' :
  m s = Done (a, s') → (m ≫= f) s = f a s'.
Proof. intros H. unfold mbind, M_bind. by rewrite H. Qed.

Lemma mbind_Done_inv {S A B} (m : M S A) (f : A → M S B) s r :
  (m ≫= f) s = Done r → ∃ a s', m s = Done (a, s') ∧ f a s' = Done r.
Proof. unfold mbind, M_bind. destruct (m s) as [[a s']| | |]; [eauto|done..]. Qed.

(** [wp_step] applies the rule for the head of a computation; what it cannot
    decide is left as a goal. *)
Ltac wp_step :=
  match goal with
  | |- wpe _ (mbind _ _) _ _ => apply wp_bind
  | |- wpe _ (mret _) _ _ => apply wp_ret
  | |- wpe _ (gets _) _ _ => apply wp_gets
  | |- wpe _ (modify _) _ _ => apply wp_modify
  | |- wpe _ panic _ _ => apply wp_panic
  | |- wpe _ undef _ _ => apply wp_undef
  | |- wpe _ nofuel _ _ => apply wp_nofuel
  | |- wpe _ (zoom _ _ _) _ _ => apply wp_zoom
  | |- wpe _ (deref _) _ _ => apply wp_deref; [intros ?|intros ? ?]
  | |- wpe _ (osmo_assert _) _ _ => apply wp_assert; intros ?
  | |- wpe _ (when _ _) _ _ => apply wp_when; intros ?
  end.
Ltac wp_steps := repeat (wp_step; cbn beta).

(** ** Machine integers

    A [w]-bit unsigned C integer is the [Z] it denotes; a store into one
    keeps the value modulo [2^w]. *)

Definition wrap (w : Z) (z : Z) : Z := z `mod` 2 ^ w.
Abbreviation u8 := (wrap 8).
Abbreviation u16 := (wrap 16).
Abbreviation u32 := (wrap 32).

(** A store into a signed [w]-bit integer (two's complement). *)
Definition swrap (w : Z) (z : Z) : Z := wrap w (z + 2 ^ (w - 1)) - 2 ^ (w - 1).

Lemma wrap_range w z : 0 ≤ w → 0 ≤ wrap w z < 2 ^ w.
Proof. intros. apply Z.mod_pos_bound. lia. Qed.

Lemma wrap_small w z : 0 ≤ z < 2 ^ w → wrap w z = z.
Proof. intros. by apply Z.mod_small. Qed.

Lemma wrap_wrap w z : 0 ≤ w → wrap w (wrap w z) = wrap w z.
Proof. intros. apply wrap_small, wrap_range; lia. Qed.

Lemma swrap_small w z : 0 < w → - 2 ^ (w - 1) ≤ z < 2 ^ (w - 1) → swrap w z = z.
Proof.
  intros Hw Hz. unfold swrap. rewrite wrap_small; [lia|].
  replace (2 ^ w) with (2 * 2 ^ (w - 1)); [lia|].
  rewrite <-Z.pow_succ_r by lia. f_equal. lia.
Qed.

Definition is_byte (b : Z) : Prop := 0 ≤ b < 256.

Lemma u8_is_byte z : is_byte (u8 z).
Proof. unfold is_byte. pose proof (wrap_range 8 z ltac:(lia)). lia. Qed.

(** A number shifted to the left, with a smaller one in the bits that became
    free. *)
Lemma lor_shiftl_add a b k : 0 ≤ k → 0 ≤ b < 2 ^ k → Z.lor (Z.shiftl a k) b = a * 2 ^ k + b.
Proof.
  intros Hk Hb. rewrite <-Z.add_lor_land, Z.shiftl_mul_pow2 by lia.
  enough (Z.land (a * 2 ^ k) b = 0) as -> by lia.
  destruct (decide (b = 0)) as [->|Hne]; [apply Z.land_0_r|].
  apply Z.bits_inj'. intros n Hn. rewrite Z.land_spec, Z.bits_0.
  destruct (Z.ltb_spec n k).
  - by rewrite Z.mul_pow2_bits_low by lia.
  - rewrite (Z.bits_above_log2 b n), andb_false_r; [done|lia|].
    apply Z.log2_lt_pow2; [lia|]. apply Z.lt_le_trans with (2 ^ k); [lia|].
    apply Z.pow_le_mono_r; lia.
Qed.

(** Packing two 16-bit halves. *)
Lemma lor_shiftl_16 a b : 0 ≤ b < 65536 → Z.lor (Z.shiftl a 16) b = a * 65536 + b.
Proof. intros Hb. by rewrite lor_shiftl_add. Qed.

(** Splitting a number into its high and low bits, and the reverse. *)
Lemma lor_hi_lo n k : 0 ≤ k → Z.lor (Z.shiftl (Z.shiftr n k) k) (Z.land n (Z.ones k)) = n.
Proof.
  intros Hk. apply Z.bits_inj'. intros i Hi.
  rewrite Z.lor_spec, Z.land_spec, Z.shiftl_spec by lia.
  destruct (Z.ltb_spec i k).
  - rewrite Z.testbit_neg_r, Z.ones_spec_low by lia. by rewrite andb_true_r.
  - rewrite Z.shiftr_spec, Z.ones_spec_high by lia. rewrite andb_false_r, orb_false_r. f_equal. lia.
Qed.

(** ** Numbers in C strings

    [strtoul(.., NULL, 10)] on 64-bit [unsigned long], and [atoi] (a value outside
    of [int] is undefined by the standard and truncated by the C library). *)

Definition ULONG_MAX : Z := 2 ^ 64 - 1.
Definition ERANGE : Z := 34.

Fixpoint skip_space (s : list Z) : list Z :=
  match s with
  | c :: s' => if (c =? 32) || ((9 <=? c) && (c <=? 13)) then skip_space s' else s
  | [] => []
  end.

Fixpoint digits (s : list Z) (acc : Z) : Z :=
  match s with
  | c :: s' => if (48 <=? c) && (c <=? 57) then digits s' (10 * acc + (c - 48)) else acc
  | [] => acc
  end.

(** The value and the new [errno]. *)
Definition strtoul10 (errno : Z) (str : list Z) : Z * Z :=
  let s := skip_space str in
  let '(neg, s) := match s with
                   | 45 :: s' => (true, s')
                   | 43 :: s' => (false, s')
                   | _ => (false, s)
                   end in
  let v := digits s 0 in
  if ULONG_MAX <? v then (ULONG_MAX, ERANGE)
  else (wrap 64 (if neg : bool then - v else v), errno).

Definition atoi (str : list Z) : Z :=
  let s := skip_space str in
  let '(neg, s) := match s with
                   | 45 :: s' => (true, s')
                   | 43 :: s' => (false, s')
                   | _ => (false, s)
                   end in
  let v := digits s 0 in
  swrap 32 (if neg : bool then Z.max (- v) (- 2 ^ 63) else Z.min v (2 ^ 63 - 1)).

(** [strchr(s, c)]: what is before and behind the first [c]. *)
Fixpoint str_split (c : Z) (s : list Z) : option (list Z * list Z) :=
  match s with
  | [] => None
  | x :: s =>
      if x =? c then Some ([], s)
      else match str_split c s with Some (a, b) => Some (x :: a, b) | None => None end
  end.

(** The tokens of [strtok_r], which skips empty ones; [cur] is the present
    token. *)
Fixpoint strtok (c : Z) (s cur : list Z) : list (list Z) :=
  let out := if bool_decide (cur = []) then [] else [cur] in
  match s with
  | [] => out
  | x :: s => if x =? c then out ++ strtok c s [] else strtok c s (cur ++ [x])
  end.

(** The bytes of a string, and the string of some bytes. *)
Definition str_octets (s : string) : list Z :=
  (λ a, Z.of_N (Ascii.N_of_ascii a)) <$> String.list_ascii_of_string s.

Definition octets_str (b : list Z) : string :=
  String.string_of_list_ascii ((λ z, Ascii.ascii_of_N (Z.to_N z)) <$> b).

(** [memcpy] to the start of an array. *)
Definition overwrite {A} (new old : list A) : list A := new ++ drop (length new) old.

(** ** Lists as intrusive linked lists *)

(** [llist_del]: unlink an element from a list. *)
Definition unlink {A} `{EqDecision A} (x : A) (l : list A) : list A :=
  filter (λ y, y ≠ x) l.

Section unlink.
Context {A : Type} `{EqDecision A}.
Implicit Types (x y : A) (l : list A).

Lemma elem_of_unlink x y l : y ∈ unlink x l ↔ y ≠ x ∧ y ∈ l.
Proof. unfold unlink. by rewrite list_elem_of_filter. Qed.

Lemma NoDup_unlink x l : NoDup l → NoDup (unlink x l).
Proof. apply NoDup_filter. Qed.

Lemma unlink_not_in x l : x ∉ l → unlink x l = l.
Proof.
  induction l as [|y l IH]; intros Hx; [done|].
  unfold unlink in *. rewrite filter_cons_True by set_solver.
  by rewrite IH by set_solver.
Qed.

Lemma unlink_head x l : NoDup (x :: l) → unlink x (x :: l) = l.
Proof.
  intros [Hx _]%NoDup_cons. unfold unlink. rewrite filter_cons_False by naive_solver.
  by apply unlink_not_in.
Qed.

Lemma unlink_sublist x l : unlink x l `sublist_of` l.
Proof. apply sublist_filter. Qed.
End unlink.

(** A store just behind a prefix. *)
Lemma insert_at_length {A} (b t : list A) (x y : A) n :
  n = length b → <[n := y]> (b ++ x :: t) = b ++ y :: t.
Proof. intros ->. induction b as [|z b IH]; cbn; [done|by f_equal]. Qed.

(** A change that does not change the element. *)
Lemma list_alter_same {A} (f : A → A) (l : list A) i x :
  l !! i = Some x → f x = x → alter f i l = l.
Proof.
  intros Hx Hf. apply list_eq. intros j. destruct (decide (i = j)) as [<-|Hj].
  - rewrite list_lookup_alter_eq, Hx. cbn. by rewrite Hf.
  - by rewrite list_lookup_alter_ne.
Qed.

(** Injectivity on the elements of a list, as duplicate-freeness of the image. *)
Lemma NoDup_fmap_inj_on {A B} (f : A → B) (l : list A) x y :
  NoDup (f <$> l) → x ∈ l → y ∈ l → f x = f y → x = y.
Proof.
  induction l as [|z l IH]; [set_solver|].
  cbn. intros [Hz Hl]%NoDup_cons Hx Hy Hf.
  apply elem_of_cons in Hx, Hy. destruct Hx as [->|Hx], Hy as [->|Hy]; auto.
  - rewrite Hf in Hz. destruct Hz. by apply list_elem_of_fmap_2.
  - rewrite <-Hf in Hz. destruct Hz. by apply list_elem_of_fmap_2.
Qed.

Lemma NoDup_fmap_sublist {A B} (f : A → B) (l k : list A) :
  l `sublist_of` k → NoDup (f <$> k) → NoDup (f <$> l).
Proof. intros Hs Hk. eapply sublist_NoDup; [exact Hk|by apply fmap_sublist]. Qed.

Create HintDb remsim discriminated.
Create Rewrite HintDb remsim_rw.
#[export] Hint Resolve NoDup_unlink wrap_range : remsim.
