(* ===== verification/OsmoFsm.v ===== *)
(** * The FSM and stream-server services of the Osmocom libraries

    The programs are written as event handlers of [osmo_fsm] state machines
    (libosmocore) and as call-backs of [osmo_stream_srv] sockets
    (libosmo-netif).  Neither library is part of this repository, so both are
    interfaces here: a class with the operations the programs call and, as its
    laws, their documented behaviour.  The state machines of the programs
    (their tables, masks, actions and call-backs) are data passed to these
    operations; they are translated in the files of the components.

    [osmo_ref] at the end is a concrete instance that satisfies the laws. *)

From S2P Require Import Prelude.

(** An enumeration of the C code, with the integer each constructor stands for. *)
Class Enum (A : Type) := enum : A → Z.

(** [#define S(x) (1 << (x))] *)
Definition S_ {A} `{Enum A} (x : A) : Z := Z.shiftl 1 (enum x).

(** ** Instances and tables *)

(** What [struct osmo_fsm_inst] holds: the current state, the number of the
    timer set by the last state change, and the timer (in milliseconds) while
    it is pending. *)
Record fsm_inst (St : Type) := FsmInst {
  fi_state : St;
  fi_T : Z;
  fi_timer : option Z;
}.
Arguments FsmInst {St}.
Arguments fi_state {St}.
Arguments fi_T {St}.
Arguments fi_timer {St}.

(** Where a program state of type [W] keeps an instance. *)
Record fi_ref (W St : Type) := FiRef {
  fi_get : W → option (fsm_inst St);
  fi_set : fsm_inst St → W → W;
  fi_free : W → W;
}.
Arguments FiRef {W St}.
Arguments fi_get {W St}.
Arguments fi_set {W St}.
Arguments fi_free {W St}.

(** [struct osmo_fsm_state] *)
Record osmo_fsm_state (W St Ev D : Type) := FsmState {
  in_event_mask : Z;
  out_state_mask : Z;
  action : Ev → D → M W ();
  onenter : St → M W ();
  onleave : St → M W ();
}.
Arguments FsmState {W St Ev D}.
Arguments in_event_mask {W St Ev D}.
Arguments out_state_mask {W St Ev D}.
Arguments action {W St Ev D}.
Arguments onenter {W St Ev D}.
Arguments onleave {W St Ev D}.

(** [struct osmo_fsm] *)
Record osmo_fsm (W St Ev D : Type) := Fsm {
  states : St → osmo_fsm_state W St Ev D;
  allstate_event_mask : Z;
  allstate_action : Ev → D → M W ();
  cleanup : M W ();
  timer_cb : Z → M W Z;
}.
Arguments Fsm {W St Ev D}.
Arguments states {W St Ev D}.
Arguments allstate_event_mask {W St Ev D}.
Arguments allstate_action {W St Ev D}.
Arguments cleanup {W St Ev D}.
Arguments timer_cb {W St Ev D}.

Definition ENODEV : Z := 19.
Definition EPERM : Z := 1.

(** An access to the fields of the instance. *)
Definition fi_update {W St} (r : fi_ref W St) (f : fsm_inst St → fsm_inst St) : M W () :=
  fi ← gets (fi_get r);
  fi ← deref fi;
  modify (fi_set r (f fi)).

Definition fi_stop_timer {St} (fi : fsm_inst St) : fsm_inst St :=
  FsmInst (fi_state fi) (fi_T fi) None.

Definition fi_enter {St} (st : St) (ms T : Z) (_ : fsm_inst St) : fsm_inst St :=
  FsmInst st T (if decide (ms = 0) then None else Some ms).

(** ** The interface *)

Class OsmoLib := {
  (** libosmocore, [fsm.c] *)
  osmo_fsm_inst_state_chg_ms {W St Ev D} `{Enum St, Enum Ev} :
    osmo_fsm W St Ev D → fi_ref W St → St → Z → Z → M W Z;
  osmo_fsm_inst_dispatch {W St Ev D} `{Enum St, Enum Ev} :
    osmo_fsm W St Ev D → fi_ref W St → Ev → D → M W Z;
  osmo_fsm_inst_term {W St Ev D} :
    osmo_fsm W St Ev D → fi_ref W St → M W ();
  fsm_tmr_cb {W St Ev D} :
    osmo_fsm W St Ev D → fi_ref W St → M W ();
  (** libosmo-netif, [stream_srv.c]: the argument is the [closed_cb] set for
      the socket *)
  osmo_stream_srv_destroy {W} : M W Z → M W ();

  (** A state change outside [out_state_mask] is refused. *)
  state_chg_refused {W St Ev D} `{Enum St, Enum Ev}
      (f : osmo_fsm W St Ev D) r new ms T w fi :
    fi_get r w = Some fi →
    Z.testbit (out_state_mask (states f (fi_state fi))) (enum new) = false →
    osmo_fsm_inst_state_chg_ms f r new ms T w = Done (- EPERM, w);
  (** A permitted one stops the timer, runs [onleave] of the old state, sets
      the state and the timer, and runs [onenter] of the new state. *)
  state_chg_permitted {W St Ev D} `{Enum St, Enum Ev}
      (f : osmo_fsm W St Ev D) r new ms T w fi :
    fi_get r w = Some fi →
    Z.testbit (out_state_mask (states f (fi_state fi))) (enum new) = true →
    osmo_fsm_inst_state_chg_ms f r new ms T w =
      (fi_update r fi_stop_timer ;;
       onleave (states f (fi_state fi)) new ;;
       fi_update r (fi_enter new ms T) ;;
       onenter (states f new) (fi_state fi) ;;
       mret 0) w;
  state_chg_null {W St Ev D} `{Enum St, Enum Ev}
      (f : osmo_fsm W St Ev D) r new ms T w :
    fi_get r w = None →
    osmo_fsm_inst_state_chg_ms f r new ms T w = Undef;

  (** Dispatching to a NULL instance is an error. *)
  dispatch_null {W St Ev D} `{Enum St, Enum Ev} (f : osmo_fsm W St Ev D) r ev d w :
    fi_get r w = None →
    osmo_fsm_inst_dispatch f r ev d w = Done (- ENODEV, w);
  dispatch_allstate {W St Ev D} `{Enum St, Enum Ev} (f : osmo_fsm W St Ev D) r ev d w fi :
    fi_get r w = Some fi →
    Z.testbit (allstate_event_mask f) (enum ev) = true →
    osmo_fsm_inst_dispatch f r ev d w = (allstate_action f ev d ;; mret 0) w;
  (** An event outside [in_event_mask] is refused. *)
  dispatch_refused {W St Ev D} `{Enum St, Enum Ev} (f : osmo_fsm W St Ev D) r ev d w fi :
    fi_get r w = Some fi →
    Z.testbit (allstate_event_mask f) (enum ev) = false →
    Z.testbit (in_event_mask (states f (fi_state fi))) (enum ev) = false →
    osmo_fsm_inst_dispatch f r ev d w = Done (- 1, w);
  dispatch_action {W St Ev D} `{Enum St, Enum Ev} (f : osmo_fsm W St Ev D) r ev d w fi :
    fi_get r w = Some fi →
    Z.testbit (allstate_event_mask f) (enum ev) = false →
    Z.testbit (in_event_mask (states f (fi_state fi))) (enum ev) = true →
    osmo_fsm_inst_dispatch f r ev d w =
      (action (states f (fi_state fi)) ev d ;; mret 0) w;

  (** Termination runs [cleanup] and frees the instance. *)
  term_runs_cleanup {W St Ev D} (f : osmo_fsm W St Ev D) r w :
    osmo_fsm_inst_term f r w = (cleanup f ;; modify (fi_free r)) w;
  (** A timer that fires runs [timer_cb]; the result 1 asks for termination. *)
  timer_fires {W St Ev D} (f : osmo_fsm W St Ev D) r w fi :
    fi_get r w = Some fi →
    fsm_tmr_cb f r w =
      (fi_update r fi_stop_timer ;;
       rc ← timer_cb f (fi_T fi);
       when (bool_decide (rc = 1)) (osmo_fsm_inst_term f r)) w;
  timer_null {W St Ev D} (f : osmo_fsm W St Ev D) r w :
    fi_get r w = None → fsm_tmr_cb f r w = Undef;

  (** Destroying a stream server socket closes it and runs [closed_cb]. *)
  stream_srv_destroy_closes {W} (closed_cb : M W Z) w :
    osmo_stream_srv_destroy closed_cb w = (closed_cb ;; mret ()) w;
}.

(** [osmo_fsm_inst_state_chg] takes the timeout in seconds. *)
Definition osmo_fsm_inst_state_chg `{OsmoLib} {W St Ev D} `{Enum St, Enum Ev}
    (f : osmo_fsm W St Ev D) (r : fi_ref W St) (new : St) (secs T : Z) : M W Z :=
  osmo_fsm_inst_state_chg_ms f r new (1000 * secs) T.

(** ** A concrete instance *)

Definition ref_state_chg {W St Ev D} `{Enum St, Enum Ev}
    (f : osmo_fsm W St Ev D) (r : fi_ref W St) (new : St) (ms T : Z) : M W Z :=
  fi ← gets (fi_get r);
  fi ← deref fi;
  if Z.testbit (out_state_mask (states f (fi_state fi))) (enum new) then
    fi_update r fi_stop_timer ;;
    onleave (states f (fi_state fi)) new ;;
    fi_update r (fi_enter new ms T) ;;
    onenter (states f new) (fi_state fi) ;;
    mret 0
  else mret (- EPERM).

Definition ref_dispatch {W St Ev D} `{Enum St, Enum Ev}
    (f : osmo_fsm W St Ev D) (r : fi_ref W St) (ev : Ev) (d : D) : M W Z :=
  fi ← gets (fi_get r);
  match fi with
  | None => mret (- ENODEV)
  | Some fi =>
      if Z.testbit (allstate_event_mask f) (enum ev) then
        allstate_action f ev d ;; mret 0
      else if Z.testbit (in_event_mask (states f (fi_state fi))) (enum ev) then
        action (states f (fi_state fi)) ev d ;; mret 0
      else mret (- 1)
  end.

Definition ref_term {W St Ev D} (f : osmo_fsm W St Ev D) (r : fi_ref W St) : M W () :=
  cleanup f ;; modify (fi_free r).

Definition ref_tmr_cb {W St Ev D} (f : osmo_fsm W St Ev D) (r : fi_ref W St) : M W () :=
  fi ← gets (fi_get r);
  fi ← deref fi;
  fi_update r fi_stop_timer ;;
  rc ← timer_cb f (fi_T fi);
  when (bool_decide (rc = 1)) (ref_term f r).

#[refine] #[global] Instance osmo_ref : OsmoLib := {
  osmo_fsm_inst_state_chg_ms := @ref_state_chg;
  osmo_fsm_inst_dispatch := @ref_dispatch;
  osmo_fsm_inst_term := @ref_term;
  fsm_tmr_cb := @ref_tmr_cb;
  osmo_stream_srv_destroy := λ W closed_cb, closed_cb ;; mret ();
}.
Proof.
  all: intros; unfold ref_state_chg, ref_dispatch, ref_tmr_cb, ref_term,
    mbind, M_bind, gets, deref, mret, M_ret;
    repeat match goal with H : _ = _ |- _ => rewrite H; clear H end; done.
Defined.

(** ** Consequences of the laws

    Every instance computes what [osmo_ref] computes. *)

Section laws.
Context `{OsmoLib}.
Context {W St Ev D : Type} `{Enum St, Enum Ev}.
Implicit Types (f : osmo_fsm W St Ev D) (r : fi_ref W St).

Lemma dispatch_eq f r ev d w :
  osmo_fsm_inst_dispatch f r ev d w = ref_dispatch f r ev d w.
Proof.
  unfold ref_dispatch. rewrite (mbind_done _ _ _ (fi_get r w) w) by done.
  destruct (fi_get r w) as [fi|] eqn:Hfi; [|by rewrite dispatch_null].
  destruct (Z.testbit (allstate_event_mask f) _) eqn:?;
    [by erewrite dispatch_allstate|].
  destruct (Z.testbit (in_event_mask _) _) eqn:?;
    [by erewrite dispatch_action|by erewrite dispatch_refused].
Qed.

Lemma state_chg_eq f r new ms T w :
  osmo_fsm_inst_state_chg_ms f r new ms T w = ref_state_chg f r new ms T w.
Proof.
  unfold ref_state_chg. rewrite (mbind_done _ _ _ (fi_get r w) w) by done.
  destruct (fi_get r w) as [fi|] eqn:Hfi; [|by rewrite state_chg_null].
  rewrite (mbind_done _ _ _ fi w) by done.
  destruct (Z.testbit (out_state_mask _) _) eqn:?;
    [by erewrite state_chg_permitted|by erewrite state_chg_refused].
Qed.

Lemma tmr_cb_eq f r w : fsm_tmr_cb f r w =
  (fi ← gets (fi_get r);
   fi ← deref fi;
   fi_update r fi_stop_timer ;;
   rc ← timer_cb f (fi_T fi);
   when (bool_decide (rc = 1)) (osmo_fsm_inst_term f r)) w.
Proof.
  rewrite (mbind_done _ _ _ (fi_get r w) w) by done.
  destruct (fi_get r w) as [fi|] eqn:Hfi; [|by rewrite timer_null].
  rewrite (mbind_done _ _ _ fi w) by done. by erewrite timer_fires.
Qed.
End laws.
