(* ===== verification/Slotmap.v ===== *)
(** * Slot mappings ([src/slotmap.c], [src/slotmap.h])

    The collection of bank-slot <-> client-slot mappings kept by the server
    and by the bank daemon.

    A [struct slot_mapping] is allocated once and then linked into two
    intrusive lists at a time: the global list of the collection and, on the
    server, one of the five [maps_*] lists of a bankd connection.  The model
    keeps that sharing: [heap] holds the allocated mappings by address and the
    lists are sequences of addresses, so a mapping unlinked from the global
    list stays allocated and stays in its bank list, as in the C code.  A list
    head embedded in a connection is named by the connection's address and the
    field ([list_head]).  The read/write lock is not part of the state: every
    operation is one atomic step. *)

From S2P Require Import Prelude.

(** Addresses of allocated objects. *)
Abbreviation loc := positive.

(** [talloc_zero] of libtalloc: given the addresses in use, a fresh one, or
    NULL when memory is exhausted. *)
Class Talloc := {
  talloc_zero : gset loc → option loc;
  talloc_fresh : ∀ X l, talloc_zero X = Some l → l ∉ X;
}.

#[refine] #[global] Instance talloc_ref : Talloc :=
  { talloc_zero := λ X, Some (fresh X) }.
Proof. intros X l [= <-]. apply is_fresh. Defined.

(** ** Data *)

Record bank_slot := BankSlot { bank_id : Z; bslot_nr : Z }.
Record client_slot := ClientSlot { client_id : Z; cslot_nr : Z }.

#[global] Instance bank_slot_eq_dec : EqDecision bank_slot.
Proof. solve_decision. Defined.
#[global] Instance client_slot_eq_dec : EqDecision client_slot.
Proof. solve_decision. Defined.
#[global] Instance bank_slot_countable : Countable bank_slot.
Proof.
  refine (inj_countable' (λ b, (bank_id b, bslot_nr b))
            (λ p, BankSlot p.1 p.2) _).
  by intros [].
Defined.
#[global] Instance client_slot_countable : Countable client_slot.
Proof.
  refine (inj_countable' (λ c, (client_id c, cslot_nr c))
            (λ p, ClientSlot p.1 p.2) _).
  by intros [].
Defined.

Definition bank_slot_equals (a b : bank_slot) : bool :=
  (bank_id a =? bank_id b) && (bslot_nr a =? bslot_nr b).

Definition client_slot_equals (a b : client_slot) : bool :=
  (client_id a =? client_id b) && (cslot_nr a =? cslot_nr b).

Inductive slot_mapping_state :=
| SLMAP_S_NEW
| SLMAP_S_UNACKNOWLEDGED
| SLMAP_S_ACTIVE
| SLMAP_S_DELETE_REQ
| SLMAP_S_DELETING.

#[global] Instance slot_mapping_state_eq_dec : EqDecision slot_mapping_state.
Proof. solve_decision. Defined.

Definition slot_map_state_name (st : slot_mapping_state) : string :=
  match st with
  | SLMAP_S_NEW => "NEW"
  | SLMAP_S_UNACKNOWLEDGED => "UNACKNOWLEDGED"
  | SLMAP_S_ACTIVE => "ACTIVE"
  | SLMAP_S_DELETE_REQ => "DELETE_REQ"
  | SLMAP_S_DELETING => "DELETING"
  end.

Record slot_mapping := SlotMapping {
  sm_bank : bank_slot;
  sm_client : client_slot;
  sm_state : slot_mapping_state;
}.

Definition set_sm_state (st : slot_mapping_state) (m : slot_mapping) : slot_mapping :=
  SlotMapping (sm_bank m) (sm_client m) st.

(** The five [maps_*] list heads of [struct rspro_client_conn]. *)
Inductive maps_field := maps_new | maps_unack | maps_active | maps_delreq | maps_deleting.

#[global] Instance maps_field_eq_dec : EqDecision maps_field.
Proof. solve_decision. Defined.
#[global] Instance maps_field_countable : Countable maps_field.
Proof.
  refine (inj_countable'
    (λ f, match f with maps_new => 0 | maps_unack => 1 | maps_active => 2
                     | maps_delreq => 3 | maps_deleting => 4 end)
    (λ z, match z with 0 => maps_new | 1 => maps_unack | 2 => maps_active
                     | 3 => maps_delreq | _ => maps_deleting end) _).
  by intros [].
Defined.

Abbreviation list_head := (loc * maps_field)%type.

Record slotmaps := Slotmaps {
  heap : gmap loc slot_mapping;
  mappings : list loc;
  bank_lists : gmap list_head (list loc);
}.

(** The elements linked to a list head; an empty head has no entry. *)
Definition bank_list (s : slotmaps) (h : list_head) : list loc :=
  default [] (bank_lists s !! h).

(** The mappings of the global list. *)
Definition entries (s : slotmaps) : list slot_mapping :=
  omap (λ l, heap s !! l) (mappings s).

(** ** Operations *)

Definition slotmap_init : slotmaps := Slotmaps ∅ [] ∅.

(** [(bank_id << 16) | slot_nr] as [uint32_t] *)
Definition slotmap_get_id (m : slot_mapping) : Z :=
  u32 (Z.lor (Z.shiftl (bank_id (sm_bank m)) 16) (bslot_nr (sm_bank m))).

(** [map->field] through a pointer *)
Definition map_at (l : loc) : M slotmaps slot_mapping :=
  m ← gets (λ s, heap s !! l); deref m.

(** [llist_for_each_entry(map, &maps->mappings, list)] with an early return *)
Fixpoint find_map (P : slot_mapping → bool) (l : list loc) : M slotmaps (option loc) :=
  match l with
  | [] => mret None
  | x :: l =>
      m ← map_at x;
      if P m then mret (Some x) else find_map P l
  end.

Definition slotmap_by_client (c : client_slot) : M slotmaps (option loc) :=
  l ← gets mappings; find_map (λ m, client_slot_equals (sm_client m) c) l.

Definition slotmap_by_bank (b : bank_slot) : M slotmaps (option loc) :=
  l ← gets mappings; find_map (λ m, bank_slot_equals (sm_bank m) b) l.

(** Linking a fresh mapping to the tail of the global list; its [bank_list]
    is initialized to be in no list. *)
Definition link_new (l : loc) (b : bank_slot) (c : client_slot) (s : slotmaps) : slotmaps :=
  Slotmaps (<[l := SlotMapping b c SLMAP_S_NEW]> (heap s)) (mappings s ++ [l]) (bank_lists s).

Definition slotmap_add `{Talloc} (b : bank_slot) (c : client_slot) : M slotmaps (option loc) :=
  map ← slotmap_by_bank b;
  match map with
  | Some _ => mret None
  | None =>
      map ← slotmap_by_client c;
      match map with
      | Some _ => mret None
      | None =>
          h ← gets heap;
          match talloc_zero (dom h) with
          | None => mret None
          | Some l => modify (link_new l b c) ;; mret (Some l)
          end
      end
  end.

(** Unlinking a mapping from both its lists and freeing it. *)
Definition free_map (l : loc) (s : slotmaps) : slotmaps :=
  Slotmaps (delete l (heap s)) (unlink l (mappings s)) (unlink l <$> bank_lists s).

Definition _slotmap_del (l : loc) : M slotmaps () :=
  map_at l ;; modify (free_map l).

Definition slotmap_del (l : loc) : M slotmaps () := _slotmap_del l.

Definition slotmap_del_all : M slotmaps () :=
  l ← gets mappings; for_each _slotmap_del l.

(** [llist_add_tail] to an optional list head *)
Definition add_tail (l : loc) (h : option list_head)
    (bl : gmap list_head (list loc)) : gmap list_head (list loc) :=
  match h with
  | Some h => <[h := default [] (bl !! h) ++ [l]]> bl
  | None => bl
  end.

Definition relink (l : loc) (st : slot_mapping_state) (h : option list_head)
    (s : slotmaps) : slotmaps :=
  Slotmaps (alter (set_sm_state st) l (heap s)) (mappings s)
           (add_tail l h (unlink l <$> bank_lists s)).

Definition _Slotmap_state_change (l : loc) (st : slot_mapping_state)
    (h : option list_head) : M slotmaps () :=
  map_at l ;; modify (relink l st h).

Definition Slotmap_state_change (l : loc) (st : slot_mapping_state)
    (h : option list_head) : M slotmaps () :=
  _Slotmap_state_change l st h.

(** ** Well-formed collections *)

(** The state a mapping has while it is in a given [maps_*] list. *)
Definition field_state (f : maps_field) : slot_mapping_state :=
  match f with
  | maps_new => SLMAP_S_NEW
  | maps_unack => SLMAP_S_UNACKNOWLEDGED
  | maps_active => SLMAP_S_ACTIVE
  | maps_delreq => SLMAP_S_DELETE_REQ
  | maps_deleting => SLMAP_S_DELETING
  end.

Record slotmaps_wf (s : slotmaps) : Prop := {
  wf_alloc : ∀ l, l ∈ mappings s → is_Some (heap s !! l);
  wf_nodup : NoDup (mappings s);
  wf_bank_unique : NoDup (sm_bank <$> entries s);
  wf_client_unique : NoDup (sm_client <$> entries s);
  wf_list_nodup : ∀ h, NoDup (bank_list s h);
  wf_list_state : ∀ h l, l ∈ bank_list s h →
    ∃ m, heap s !! l = Some m ∧ sm_state m = field_state h.2;
  wf_list_disjoint : ∀ h h' l, l ∈ bank_list s h → l ∈ bank_list s h' → h = h';
}.

(** ** The slots as C compares them *)

Lemma bank_slot_equals_eq a b : bank_slot_equals a b = true ↔ a = b.
Proof.
  unfold bank_slot_equals. rewrite andb_true_iff, !Z.eqb_eq.
  destruct a, b; cbn. split; [by intros [-> ->]|by intros [= -> ->]].
Qed.

Lemma client_slot_equals_eq a b : client_slot_equals a b = true ↔ a = b.
Proof.
  unfold client_slot_equals. rewrite andb_true_iff, !Z.eqb_eq.
  destruct a, b; cbn. split; [by intros [-> ->]|by intros [= -> ->]].
Qed.

Lemma bank_slot_equals_dec a b : bank_slot_equals a b = bool_decide (a = b).
Proof. apply eq_true_iff_eq. by rewrite bank_slot_equals_eq, bool_decide_eq_true. Qed.

Lemma client_slot_equals_dec a b : client_slot_equals a b = bool_decide (a = b).
Proof. apply eq_true_iff_eq. by rewrite client_slot_equals_eq, bool_decide_eq_true. Qed.

(** ** Lookups *)

Lemma wp_map_at {E} l s m (Q : slot_mapping → slotmaps → Prop) :
  heap s !! l = Some m → Q m s → wpe E (map_at l) s Q.
Proof. intros H HQ. unfold map_at. apply wp_bind, wp_gets. by rewrite H. Qed.

(** What a search of the list finds. *)
Definition found (P : slot_mapping → bool) (k : list loc) (s : slotmaps) (r : option loc) : Prop :=
  match r with
  | Some x => x ∈ k ∧ ∃ m, heap s !! x = Some m ∧ P m = true
  | None => ∀ x m, x ∈ k → heap s !! x = Some m → P m = false
  end.

Lemma wp_find_map {E} P k s :
  (∀ l, l ∈ k → is_Some (heap s !! l)) →
  wpe E (find_map P k) s (λ r s', s' = s ∧ found P k s r).
Proof.
  induction k as [|x k IH]; intros Hk; cbn [find_map].
  { apply wp_ret. split; [done|]. intros x m Hx. by apply elem_of_nil in Hx. }
  destruct (Hk x) as [m Hm]; [left|]. apply wp_bind, (wp_map_at _ _ m); [done|].
  destruct (P m) eqn:HP.
  { apply wp_ret. split; [done|]. split; [left|by exists m]. }
  eapply wp_mono; [apply IH; intros; apply Hk; by right|].
  intros r s' [-> Hr]. split; [done|]. destruct r as [y|]; cbn in *.
  - destruct Hr as [? ?]. split; [by right|done].
  - intros y m' [->|Hy]%elem_of_cons ?; [congruence|eauto].
Qed.

Lemma elem_of_entries s m :
  m ∈ entries s ↔ ∃ l, l ∈ mappings s ∧ heap s !! l = Some m.
Proof. apply list_elem_of_omap. Qed.

Section wf.
Context (s : slotmaps) (Hwf : slotmaps_wf s).

Lemma found_bank b r :
  found (λ m, bank_slot_equals (sm_bank m) b) (mappings s) s r →
  match r with
  | Some l => ∃ m, l ∈ mappings s ∧ heap s !! l = Some m ∧ sm_bank m = b
  | None => b ∉ (sm_bank <$> entries s)
  end.
Proof.
  destruct r as [l|]; cbn.
  - intros (Hl & m & Hm & Hb%bank_slot_equals_eq). eauto.
  - intros H (m & -> & (l & Hl & Hm)%elem_of_entries)%list_elem_of_fmap.
    specialize (H l m Hl Hm). by rewrite bank_slot_equals_dec, bool_decide_eq_false in H.
Qed.

Lemma found_client c r :
  found (λ m, client_slot_equals (sm_client m) c) (mappings s) s r →
  match r with
  | Some l => ∃ m, l ∈ mappings s ∧ heap s !! l = Some m ∧ sm_client m = c
  | None => c ∉ (sm_client <$> entries s)
  end.
Proof.
  destruct r as [l|]; cbn.
  - intros (Hl & m & Hm & Hb%client_slot_equals_eq). eauto.
  - intros H (m & -> & (l & Hl & Hm)%elem_of_entries)%list_elem_of_fmap.
    specialize (H l m Hl Hm). by rewrite client_slot_equals_dec, bool_decide_eq_false in H.
Qed.

Lemma wp_slotmap_by_bank {E} b :
  wpe E (slotmap_by_bank b) s (λ r s', s' = s ∧
    match r with
    | Some l => ∃ m, l ∈ mappings s ∧ heap s !! l = Some m ∧ sm_bank m = b
    | None => b ∉ (sm_bank <$> entries s)
    end).
Proof.
  apply wp_bind, wp_gets. eapply wp_mono; [apply wp_find_map, Hwf|].
  intros r s' [-> Hr]. split; [done|]. by apply found_bank.
Qed.

Lemma wp_slotmap_by_client {E} c :
  wpe E (slotmap_by_client c) s (λ r s', s' = s ∧
    match r with
    | Some l => ∃ m, l ∈ mappings s ∧ heap s !! l = Some m ∧ sm_client m = c
    | None => c ∉ (sm_client <$> entries s)
    end).
Proof.
  apply wp_bind, wp_gets. eapply wp_mono; [apply wp_find_map, Hwf|].
  intros r s' [-> Hr]. split; [done|]. by apply found_client.
Qed.

(** A location of the global list is determined by its bank slot. *)
Lemma mapping_bank_inj l l' m m' :
  l ∈ mappings s → l' ∈ mappings s → heap s !! l = Some m → heap s !! l' = Some m' →
  sm_bank m = sm_bank m' → l = l'.
Proof.
  destruct Hwf as [Hal Hnd Hb _ _ _ _]. revert Hal Hnd Hb. unfold entries.
  induction (mappings s) as [|x k IH]; [intros _ _ _ []%elem_of_nil|].
  intros Hal [Hx Hk]%NoDup_cons Hb Hl Hl' Hm Hm' Heq.
  destruct (Hal x) as [mx Hmx]; [left|]. cbn in Hb. rewrite Hmx in Hb. cbn in Hb.
  apply NoDup_cons in Hb as [Hbx Hbk].
  assert (∀ y my, y ∈ k → heap s !! y = Some my → sm_bank my ≠ sm_bank mx) as Hother.
  { intros y my Hy Hmy E. apply Hbx. rewrite <-E. apply list_elem_of_fmap_2, list_elem_of_omap. eauto. }
  apply elem_of_cons in Hl, Hl'. destruct Hl as [->|Hl], Hl' as [->|Hl']; [done| | |].
  - rewrite Hmx in Hm; simplify_eq. by destruct (Hother l' m').
  - rewrite Hmx in Hm'; simplify_eq. by destruct (Hother l m).
  - apply IH; [intros; apply Hal; by right|done..].
Qed.
End wf.

(** ** The elementary updates *)

Lemma bank_list_fmap_unlink l s (bl := unlink l <$> bank_lists s) h :
  default [] (bl !! h) = unlink l (bank_list s h).
Proof. unfold bl, bank_list. rewrite lookup_fmap. by destruct (bank_lists s !! h). Qed.

Lemma bank_list_link_new l b c s h : bank_list (link_new l b c s) h = bank_list s h.
Proof. done. Qed.

Lemma bank_list_free_map l s h : bank_list (free_map l s) h = unlink l (bank_list s h).
Proof. apply bank_list_fmap_unlink. Qed.

Lemma bank_list_relink l st ho s h :
  bank_list (relink l st ho s) h =
    if decide (ho = Some h) then unlink l (bank_list s h) ++ [l] else unlink l (bank_list s h).
Proof.
  unfold bank_list at 1. cbn. destruct ho as [h'|]; cbn; [|by rewrite bank_list_fmap_unlink].
  rewrite bank_list_fmap_unlink. destruct (decide (h' = h)) as [->|Hne].
  - by rewrite lookup_insert_eq, decide_True by done.
  - rewrite lookup_insert_ne by done. rewrite decide_False by congruence.
    apply bank_list_fmap_unlink.
Qed.

Lemma entries_link_new l b c s :
  l ∉ mappings s →
  entries (link_new l b c s) = entries s ++ [SlotMapping b c SLMAP_S_NEW].
Proof.
  intros Hl. unfold entries. cbn. rewrite omap_app. cbn. rewrite lookup_insert_eq. f_equal.
  apply list_omap_ext, Forall_Forall2_diag, Forall_forall. intros x Hx.
  apply lookup_insert_ne. by intros ->.
Qed.

Lemma entries_free_map l s :
  entries (free_map l s) = omap (λ x, heap s !! x) (unlink l (mappings s)).
Proof.
  unfold entries. cbn. apply list_omap_ext, Forall_Forall2_diag, Forall_forall.
  intros x [Hx _]%elem_of_unlink. by apply lookup_delete_ne.
Qed.

Lemma omap_sublist {A B} (f : A → option B) k k' :
  k `sublist_of` k' → omap f k `sublist_of` omap f k'.
Proof.
  induction 1; cbn; [done| |].
  - destruct (f x); [by constructor|done].
  - destruct (f x); [by constructor|done].
Qed.

Lemma entries_free_sublist l s : entries (free_map l s) `sublist_of` entries s.
Proof. rewrite entries_free_map. apply omap_sublist, unlink_sublist. Qed.

Lemma elem_of_entries_relink l st ho s m :
  m ∈ entries (relink l st ho s) ↔
  ∃ x, x ∈ mappings s ∧ alter (set_sm_state st) l (heap s) !! x = Some m.
Proof. apply elem_of_entries. Qed.

(** A projection that ignores the state is not affected by a state change. *)
Lemma fmap_entries_relink {A} (f : slot_mapping → A) l st ho s :
  (∀ m, f (set_sm_state st m) = f m) →
  f <$> entries (relink l st ho s) = f <$> entries s.
Proof.
  intros Hf. unfold entries; cbn. induction (mappings s) as [|x k IH]; [done|]. cbn.
  rewrite lookup_alter. case_decide as Hx.
  - subst. destruct (heap s !! x); cbn; [|done]. by rewrite IH, Hf.
  - destruct (heap s !! x); cbn; [|done]. by rewrite IH.
Qed.

Lemma sm_bank_entries_relink l st ho s :
  sm_bank <$> entries (relink l st ho s) = sm_bank <$> entries s.
Proof. by apply fmap_entries_relink. Qed.

Lemma sm_client_entries_relink l st ho s :
  sm_client <$> entries (relink l st ho s) = sm_client <$> entries s.
Proof. by apply fmap_entries_relink. Qed.

(** ** Preservation of well-formedness *)

Lemma wf_init : slotmaps_wf slotmap_init.
Proof.
  split; cbn; unfold bank_list; cbn; try (by apply NoDup_nil).
  - by intros l ?%elem_of_nil.
  - intros h. rewrite lookup_empty. by apply NoDup_nil.
  - intros h l. rewrite lookup_empty. by intros ?%elem_of_nil.
  - intros h h' l. rewrite lookup_empty. by intros ?%elem_of_nil.
Qed.

Lemma wf_link_new l b c s :
  slotmaps_wf s → heap s !! l = None →
  b ∉ (sm_bank <$> entries s) → c ∉ (sm_client <$> entries s) →
  slotmaps_wf (link_new l b c s).
Proof.
  intros [Hal Hnd Hb Hc Hlnd Hls Hld] Hl Hb' Hc'.
  assert (l ∉ mappings s) as Hlm.
  { intros Hin. destruct (Hal l Hin) as [m Hm]. congruence. }
  split.
  - cbn. intros x [Hx| ->%list_elem_of_singleton]%elem_of_app.
    + rewrite lookup_insert_is_Some'. right. by apply Hal.
    + rewrite lookup_insert_eq. by eexists.
  - apply NoDup_app. repeat split; [done| |apply NoDup_singleton].
    by intros x Hx ->%list_elem_of_singleton.
  - rewrite entries_link_new, fmap_app by done. apply NoDup_app.
    repeat split; [done| |apply NoDup_singleton].
    by intros x Hx ->%list_elem_of_singleton.
  - rewrite entries_link_new, fmap_app by done. apply NoDup_app.
    repeat split; [done| |apply NoDup_singleton].
    by intros x Hx ->%list_elem_of_singleton.
  - done.
  - intros h x Hx. destruct (Hls h x Hx) as (m & Hm & Hst). exists m. cbn.
    rewrite lookup_insert_ne; [done|congruence].
  - done.
Qed.

Lemma wf_free_map l s : slotmaps_wf s → slotmaps_wf (free_map l s).
Proof.
  intros [Hal Hnd Hb Hc Hlnd Hls Hld]. split.
  - cbn. intros x [Hne Hx]%elem_of_unlink. rewrite lookup_delete_ne by done. by apply Hal.
  - by apply NoDup_unlink.
  - eapply NoDup_fmap_sublist; [apply entries_free_sublist|done].
  - eapply NoDup_fmap_sublist; [apply entries_free_sublist|done].
  - intros h. rewrite bank_list_free_map. by apply NoDup_unlink.
  - intros h x. rewrite bank_list_free_map. intros [Hne Hx]%elem_of_unlink.
    destruct (Hls h x Hx) as (m & Hm & Hst). exists m. cbn. by rewrite lookup_delete_ne.
  - intros h h' x. rewrite !bank_list_free_map.
    intros [_ Hx]%elem_of_unlink [_ Hx']%elem_of_unlink. by eapply Hld.
Qed.

Lemma elem_of_bank_list_relink l st ho s h x :
  x ∈ bank_list (relink l st ho s) h ↔
  (x ≠ l ∧ x ∈ bank_list s h) ∨ (x = l ∧ ho = Some h).
Proof.
  rewrite bank_list_relink. case_decide.
  - rewrite elem_of_app, elem_of_unlink, list_elem_of_singleton. tauto.
  - rewrite elem_of_unlink. tauto.
Qed.

(** A state change keeps the collection well-formed when the new list, if any,
    is one for the new state. *)
Lemma wf_relink l st ho s :
  slotmaps_wf s → is_Some (heap s !! l) →
  (∀ h, ho = Some h → st = field_state h.2) →
  slotmaps_wf (relink l st ho s).
Proof.
  intros [Hal Hnd Hb Hc Hlnd Hls Hld] [m Hm] Hho. split.
  - cbn. intros x Hx. rewrite lookup_alter. case_decide; subst; [by rewrite Hm|by apply Hal].
  - done.
  - by rewrite sm_bank_entries_relink.
  - by rewrite sm_client_entries_relink.
  - intros h. rewrite bank_list_relink. case_decide; [|by apply NoDup_unlink].
    apply NoDup_app. split; [by apply NoDup_unlink|]. split; [|apply NoDup_singleton].
    by intros x [Hne _]%elem_of_unlink ->%list_elem_of_singleton.
  - intros h x [[Hne Hx]|[-> Hh]]%elem_of_bank_list_relink; cbn.
    + destruct (Hls h x Hx) as (m' & Hm' & Hst). exists m'. by rewrite lookup_alter_ne.
    + exists (set_sm_state st m). rewrite lookup_alter_eq, Hm. cbn. split; [done|].
      by apply Hho.
  - intros h h' x [[? Hx]|[-> Hh]]%elem_of_bank_list_relink
      [[? Hx']|[? Hh']]%elem_of_bank_list_relink; [by eapply Hld|done|done|congruence].
Qed.

#[export] Hint Resolve wf_init wf_free_map : remsim.

(** ** What the operations do *)

Lemma wp_slotmap_add `{Talloc} {E} b c s :
  slotmaps_wf s →
  wpe E (slotmap_add b c) s (λ r s', slotmaps_wf s' ∧
    match r with
    | Some l => (l ∉ dom (heap s)) ∧ s' = link_new l b c s ∧
                (b ∉ (sm_bank <$> entries s)) ∧ (c ∉ (sm_client <$> entries s))
    | None => s' = s ∧
        (b ∈ (sm_bank <$> entries s) ∨ c ∈ (sm_client <$> entries s) ∨ talloc_zero (dom (heap s)) = None)
    end).
Proof.
  intros Hwf. apply wp_bind. eapply wp_mono; [by apply wp_slotmap_by_bank|].
  intros r s' [-> Hb]. destruct r as [l|].
  { destruct Hb as (m & Hl & Hm & <-). apply wp_ret. split; [done|]. split; [done|]. left.
    apply list_elem_of_fmap_2, elem_of_entries; eauto. }
  apply wp_bind. eapply wp_mono; [by apply wp_slotmap_by_client|].
  intros r s' [-> Hc]. destruct r as [l|].
  { destruct Hc as (m & Hl & Hm & <-). apply wp_ret. split; [done|]. split; [done|]. right; left.
    apply list_elem_of_fmap_2, elem_of_entries; eauto. }
  apply wp_bind, wp_gets. destruct (talloc_zero _) as [l|] eqn:Ht; [|by apply wp_ret; auto].
  apply talloc_fresh in Ht as Hl. apply wp_bind, wp_modify, wp_ret.
  split; [|done]. apply wf_link_new; [done|by apply not_elem_of_dom|done..].
Qed.

Lemma wp_slotmap_del {E} l s m (Q : () → slotmaps → Prop) :
  heap s !! l = Some m → Q () (free_map l s) → wpe E (slotmap_del l) s Q.
Proof.
  intros Hm HQ. unfold slotmap_del, _slotmap_del.
  by apply wp_bind, (wp_map_at _ _ m), wp_modify.
Qed.

Lemma wp_state_change {E} l st ho s m (Q : () → slotmaps → Prop) :
  heap s !! l = Some m → Q () (relink l st ho s) → wpe E (_Slotmap_state_change l st ho) s Q.
Proof.
  intros Hm HQ. unfold _Slotmap_state_change. by apply wp_bind, (wp_map_at _ _ m), wp_modify.
Qed.

(** ** Abstract specification: a partial injection of bank slots into client slots *)

Inductive slotmap_op :=
| OpAdd (b : bank_slot) (c : client_slot)
| OpDel (b : bank_slot)
| OpDelAll
| OpByBank (b : bank_slot)
| OpByClient (c : client_slot).

Inductive slotmap_result :=
| ResBool (ok : bool)
| ResClient (c : option client_slot)
| ResBank (b : option bank_slot).

(** A use of the collection through its API, as its clients make it: lookups
    yield the other side of the mapping, deletion goes through a lookup. *)
Definition run_op `{Talloc} (op : slotmap_op) : M slotmaps slotmap_result :=
  match op with
  | OpAdd b c => r ← slotmap_add b c; mret (ResBool (bool_decide (is_Some r)))
  | OpDel b =>
      r ← slotmap_by_bank b;
      match r with
      | None => mret (ResBool false)
      | Some l => slotmap_del l ;; mret (ResBool true)
      end
  | OpDelAll => slotmap_del_all ;; mret (ResBool true)
  | OpByBank b =>
      r ← slotmap_by_bank b;
      match r with
      | None => mret (ResClient None)
      | Some l => m ← map_at l; mret (ResClient (Some (sm_client m)))
      end
  | OpByClient c =>
      r ← slotmap_by_client c;
      match r with
      | None => mret (ResBank None)
      | Some l => m ← map_at l; mret (ResBank (Some (sm_bank m)))
      end
  end.

Fixpoint run_ops `{Talloc} (ops : list slotmap_op) : M slotmaps (list slotmap_result) :=
  match ops with
  | [] => mret []
  | op :: ops => r ← run_op op; rs ← run_ops ops; mret (r :: rs)
  end.

Abbreviation pinj := (gmap bank_slot client_slot).

Definition client_of (a : pinj) (c : client_slot) : option bank_slot :=
  fst <$> head (filter (λ p, p.2 = c) (map_to_list a)).

Definition spec_op (op : slotmap_op) (a : pinj) : slotmap_result * pinj :=
  match op with
  | OpAdd b c =>
      if bool_decide (a !! b = None) && bool_decide (client_of a c = None)
      then (ResBool true, <[b := c]> a) else (ResBool false, a)
  | OpDel b => (ResBool (bool_decide (is_Some (a !! b))), delete b a)
  | OpDelAll => (ResBool true, ∅)
  | OpByBank b => (ResClient (a !! b), a)
  | OpByClient c => (ResBank (client_of a c), a)
  end.

Fixpoint spec_ops (ops : list slotmap_op) (a : pinj) : list slotmap_result * pinj :=
  match ops with
  | [] => ([], a)
  | op :: ops =>
      let '(r, a) := spec_op op a in
      let '(rs, a) := spec_ops ops a in (r :: rs, a)
  end.

(** The partial injection a collection represents. *)
Definition abs (s : slotmaps) : pinj :=
  list_to_map ((λ m, (sm_bank m, sm_client m)) <$> entries s).

Lemma abs_lookup s b c :
  slotmaps_wf s →
  abs s !! b = Some c ↔ ∃ m, m ∈ entries s ∧ sm_bank m = b ∧ sm_client m = c.
Proof.
  intros Hwf. unfold abs. rewrite <-elem_of_list_to_map.
  - rewrite list_elem_of_fmap. split; intros (m & H1 & H2); [|destruct H2 as [<- <-]; eauto].
    exists m. by injection H1 as -> ->.
  - rewrite <-list_fmap_compose. apply Hwf.
Qed.

Lemma abs_lookup_None s b :
  slotmaps_wf s → abs s !! b = None ↔ b ∉ (sm_bank <$> entries s).
Proof.
  intros Hwf. split.
  - intros Hb (m & -> & Hm)%list_elem_of_fmap.
    assert (abs s !! sm_bank m = Some (sm_client m)) by (apply abs_lookup; eauto). congruence.
  - intros Hb. destruct (abs s !! b) as [c|] eqn:E; [|done].
    apply abs_lookup in E as (m & Hm & <- & _); [|done].
    destruct Hb. by apply list_elem_of_fmap_2.
Qed.

Lemma entries_client_inj s m m' :
  slotmaps_wf s → m ∈ entries s → m' ∈ entries s → sm_client m = sm_client m' → m = m'.
Proof. intros Hwf. apply NoDup_fmap_inj_on, Hwf. Qed.

Lemma client_of_abs s c b :
  slotmaps_wf s →
  client_of (abs s) c = Some b ↔ ∃ m, m ∈ entries s ∧ sm_bank m = b ∧ sm_client m = c.
Proof.
  intros Hwf. unfold client_of. split.
  - destruct (filter _ _) as [|p k] eqn:E; [done|]. cbn. intros [= <-].
    assert (p ∈ filter (λ p, p.2 = c) (map_to_list (abs s))) as Hp by (rewrite E; left).
    apply list_elem_of_filter in Hp as [<- Hp]. destruct p as [b c'].
    apply elem_of_map_to_list, abs_lookup in Hp; done.
  - intros (m & Hm & <- & <-).
    assert ((sm_bank m, sm_client m) ∈
      filter (λ p, p.2 = sm_client m) (map_to_list (abs s))) as Hp.
    { apply list_elem_of_filter. split; [done|].
      apply elem_of_map_to_list, abs_lookup; eauto. }
    destruct (filter _ _) as [|[b c] k] eqn:E; [by apply elem_of_nil in Hp|]. cbn. f_equal.
    assert ((b, c) ∈ filter (λ p, p.2 = sm_client m) (map_to_list (abs s))) as Hq
      by (rewrite E; left).
    apply list_elem_of_filter in Hq as [Hc Hq].
    apply elem_of_map_to_list, abs_lookup in Hq as (m' & Hm' & <- & <-); [|done].
    cbn in Hc. by rewrite (entries_client_inj s m' m).
Qed.

Lemma client_of_abs_None s c :
  slotmaps_wf s → client_of (abs s) c = None ↔ c ∉ (sm_client <$> entries s).
Proof.
  intros Hwf. split.
  - intros Hc (m & -> & Hm)%list_elem_of_fmap.
    assert (client_of (abs s) (sm_client m) = Some (sm_bank m)) by (apply client_of_abs; eauto).
    congruence.
  - intros Hc. destruct (client_of _ _) as [b|] eqn:E; [|done].
    apply client_of_abs in E as (m & Hm & _ & <-); [|done].
    destruct Hc. by apply list_elem_of_fmap_2.
Qed.

Lemma abs_link_new l b c s :
  slotmaps_wf s → l ∉ dom (heap s) → b ∉ (sm_bank <$> entries s) →
  abs (link_new l b c s) = <[b := c]> (abs s).
Proof.
  intros Hwf Hl Hb. unfold abs. rewrite entries_link_new.
  - rewrite fmap_app. cbn. apply list_to_map_snoc. by rewrite <-list_fmap_compose.
  - intros Hlm. apply Hl, elem_of_dom. by apply Hwf.
Qed.

Lemma elem_of_entries_free l s m' :
  m' ∈ entries (free_map l s) ↔
  ∃ x, x ≠ l ∧ x ∈ mappings s ∧ heap s !! x = Some m'.
Proof.
  rewrite entries_free_map, list_elem_of_omap. setoid_rewrite elem_of_unlink.
  split; intros (x & Hx & Hm).
  - destruct Hx. eauto.
  - destruct Hm. eauto.
Qed.

Lemma abs_free_map l s m :
  slotmaps_wf s → l ∈ mappings s → heap s !! l = Some m →
  abs (free_map l s) = delete (sm_bank m) (abs s).
Proof.
  intros Hwf Hl Hm. apply map_eq. intros b. apply option_eq. intros c.
  rewrite abs_lookup by auto with remsim. setoid_rewrite elem_of_entries_free.
  rewrite lookup_delete_Some, abs_lookup by done. setoid_rewrite elem_of_entries.
  split.
  - intros (m' & (x & Hne & Hx & Hm') & <- & <-). split; [|by eauto 10].
    intros E. by apply Hne, (mapping_bank_inj s Hwf x l m' m).
  - intros (Hne & m' & (x & Hx & Hm') & <- & <-). exists m'. split; [|done].
    exists x. split; [congruence|done].
Qed.

(** Deleting every element of the list empties the collection. *)
Lemma wp_del_list {E} k s :
  slotmaps_wf s → mappings s = k →
  wpe E (for_each _slotmap_del k) s (λ _ s', slotmaps_wf s' ∧ mappings s' = [] ∧
    ∀ h x, x ∈ bank_list s' h → x ∈ bank_list s h ∧ x ∉ k).
Proof.
  revert s. induction k as [|x k IH]; intros s Hwf Hk; cbn [for_each].
  { apply wp_ret. split; [done|]. split; [done|].
    intros h x Hx. split; [done|]. by intros ?%elem_of_nil. }
  destruct (wf_alloc s Hwf x) as [m Hm]; [rewrite Hk; left|].
  apply wp_bind, (wp_slotmap_del _ _ m); [done|].
  eapply wp_mono; [apply IH; [by apply wf_free_map|]|].
  - cbn. rewrite Hk. apply unlink_head. rewrite <-Hk. apply Hwf.
  - intros _ s' (Hwf' & He & Hl). split; [done|]. split; [done|].
    intros h y [Hy Hyk]%Hl. rewrite bank_list_free_map in Hy.
    apply elem_of_unlink in Hy as [? ?]. split; [done|]. by apply not_elem_of_cons.
Qed.

Lemma abs_relink l st ho s : abs (relink l st ho s) = abs s.
Proof.
  unfold abs, entries. f_equal. cbn.
  induction (mappings s) as [|x k IH]; cbn; [done|].
  rewrite lookup_alter. case_decide; subst.
  - destruct (heap s !! x); cbn; [by rewrite IH|done].
  - destruct (heap s !! x); cbn; [by rewrite IH|done].
Qed.

(** ** Identifiers *)

Definition bank_slot_u16 (b : bank_slot) : Prop :=
  0 ≤ bank_id b < 65536 ∧ 0 ≤ bslot_nr b < 65536.
Definition client_slot_u16 (c : client_slot) : Prop :=
  0 ≤ client_id c < 65536 ∧ 0 ≤ cslot_nr c < 65536.

Lemma slotmap_get_id_val m :
  bank_slot_u16 (sm_bank m) →
  slotmap_get_id m = bank_id (sm_bank m) * 65536 + bslot_nr (sm_bank m).
Proof.
  intros [? ?]. unfold slotmap_get_id. rewrite lor_shiftl_16 by lia.
  rewrite wrap_small; lia.
Qed.

Lemma get_id_bank_inj m m' :
  bank_slot_u16 (sm_bank m) → bank_slot_u16 (sm_bank m') →
  slotmap_get_id m = slotmap_get_id m' → sm_bank m = sm_bank m'.
Proof.
  intros Hm Hm'. rewrite !slotmap_get_id_val by done.
  destruct Hm, Hm', (sm_bank m), (sm_bank m'); cbn in *. intros. f_equal; lia.
Qed.

Section refinement.
Context `{Talloc}.
(** The C code checks for exhausted memory; the specification has none. *)
Hypothesis talloc_total : ∀ X, is_Some (talloc_zero X).

(** One operation refines its specification. *)
Lemma run_op_refines op s :
  slotmaps_wf s →
  wp (run_op op) s (λ r s', slotmaps_wf s' ∧ (r, abs s') = spec_op op (abs s)).
Proof.
  intros Hwf. destruct op as [b c|b| |b|c]; cbn [run_op spec_op].
  - apply wp_bind. eapply wp_mono; [by apply wp_slotmap_add|].
    intros r s' [Hwf' Hr]. apply wp_ret. split; [done|]. destruct r as [l|].
    + destruct Hr as (Hl & -> & Hb & Hc). rewrite abs_link_new by done.
      apply abs_lookup_None in Hb; [|done]. apply client_of_abs_None in Hc; [|done].
      by rewrite Hb, Hc.
    + destruct Hr as (-> & Hr). destruct (_ && _) eqn:E; [|done]. exfalso.
      apply andb_true_iff in E as [Hb%bool_decide_eq_true Hc%bool_decide_eq_true].
      apply abs_lookup_None in Hb; [|done]. apply client_of_abs_None in Hc; [|done].
      destruct Hr as [?|[?|Ht]]; [done..|]. destruct (talloc_total (dom (heap s))). congruence.
  - apply wp_bind. eapply wp_mono; [by apply wp_slotmap_by_bank|].
    intros r s' [-> Hr]. destruct r as [l|].
    + destruct Hr as (m & Hl & Hm & <-). apply wp_bind, (wp_slotmap_del _ _ m), wp_ret; [done|].
      split; [by apply wf_free_map|]. rewrite (abs_free_map _ _ m) by done. f_equal. f_equal.
      symmetry. apply bool_decide_eq_true_2. exists (sm_client m).
      apply abs_lookup; [done|]. exists m. split; [apply elem_of_entries; eauto|done].
    + apply wp_ret. split; [done|]. apply abs_lookup_None in Hr; [|done].
      rewrite Hr, delete_id by done. done.
  - apply wp_bind, wp_bind, wp_gets. eapply wp_mono; [by apply wp_del_list|].
    intros _ s' (Hwf' & He & _). apply wp_ret. split; [done|]. f_equal.
    unfold abs, entries. by rewrite He.
  - apply wp_bind. eapply wp_mono; [by apply wp_slotmap_by_bank|].
    intros r s' [-> Hr]. destruct r as [l|].
    + destruct Hr as (m & Hl & Hm & <-). apply wp_bind, (wp_map_at _ _ m), wp_ret; [done|].
      split; [done|]. f_equal. f_equal. symmetry. apply abs_lookup; [done|].
      exists m. split; [apply elem_of_entries; eauto|done].
    + apply wp_ret. split; [done|]. apply abs_lookup_None in Hr; [|done]. by rewrite Hr.
  - apply wp_bind. eapply wp_mono; [by apply wp_slotmap_by_client|].
    intros r s' [-> Hr]. destruct r as [l|].
    + destruct Hr as (m & Hl & Hm & <-). apply wp_bind, (wp_map_at _ _ m), wp_ret; [done|].
      split; [done|]. f_equal. f_equal. symmetry. apply client_of_abs; [done|].
      exists m. split; [apply elem_of_entries; eauto|done].
    + apply wp_ret. split; [done|]. apply client_of_abs_None in Hr; [|done]. by rewrite Hr.
Qed.

End refinement.

(** ** Properties *)

(** C20. The slot map implements a partial injection of bank slots into client
    slots: any sequence of additions, deletions and lookups through the API,
    started in a well-formed collection, completes without an undefined access,
    returns what the same sequence returns on the abstract partial injection,
    and ends in a well-formed collection that represents the abstract result. *)
Theorem run_ops_refines `{Talloc} ops s
    (Halloc : ∀ X, is_Some (talloc_zero X)) (Hwf : slotmaps_wf s) :
  wp (run_ops ops) s (λ rs s', slotmaps_wf s' ∧ (rs, abs s') = spec_ops ops (abs s)).
Proof.
  revert s Hwf.
  induction ops as [|op ops IH]; intros s Hwf; cbn [run_ops spec_ops]; [by apply wp_ret|].
  apply wp_bind. eapply wp_mono; [by apply run_op_refines|].
  intros r s' [Hwf' ->%eq_sym]. apply wp_bind. eapply wp_mono; [by apply IH|].
  intros rs s'' [Hwf'' E]. apply wp_ret. split; [done|]. by rewrite <-E.
Qed.

Lemma run_ops_refines_witness :
  let b := BankSlot 1 0 in let c := ClientSlot 7 3 in
  let ops := [OpAdd b c; OpAdd (BankSlot 2 0) c; OpByBank b; OpDel b; OpByClient c] in
  (spec_ops ops ∅).1 =
    [ResBool true; ResBool false; ResClient (Some c); ResBool true; ResBank None] ∧
  wp (run_ops ops) slotmap_init
    (λ rs s', slotmaps_wf s' ∧ (rs, abs s') = spec_ops ops (abs slotmap_init)).
Proof.
  intros b c ops. split; [vm_compute; reflexivity|].
  apply (run_ops_refines ops slotmap_init); [by intros X; eexists|exact wf_init].
Defined.

(** A state change never touches an undefined pointer; it gives the mapping
    the new state, unlinks it from whatever bank list it was in, appends it to
    the requested list (or to none), leaves the order of all lists and the
    bank-client relation as they were, and keeps the collection well-formed. *)
Theorem state_change_moves l m st ho s
    (Hwf : slotmaps_wf s) (Hm : heap s !! l = Some m)
    (Hst : ∀ h, ho = Some h → st = field_state h.2) :
  wp (Slotmap_state_change l st ho) s (λ _ s', slotmaps_wf s' ∧ abs s' = abs s ∧
    mappings s' = mappings s ∧ heap s' = <[l := set_sm_state st m]> (heap s) ∧
    ∀ h, bank_list s' h =
      unlink l (bank_list s h) ++ if decide (ho = Some h) then [l] else []).
Proof.
  apply (wp_state_change _ _ _ _ m); [done|].
  split; [by apply wf_relink|]. split; [by apply abs_relink|]. split; [done|]. split.
  - cbn. apply map_eq. intros x. destruct (decide (l = x)) as [->|].
    + by rewrite lookup_alter_eq, lookup_insert_eq, Hm.
    + by rewrite lookup_alter_ne, lookup_insert_ne.
  - intros h. rewrite bank_list_relink. case_decide; [done|by rewrite app_nil_r].
Qed.

Lemma state_change_moves_witness :
  let s := link_new 1 (BankSlot 1 0) (ClientSlot 7 3) slotmap_init in
  wp (Slotmap_state_change 1 SLMAP_S_UNACKNOWLEDGED (Some (9%positive, maps_unack))) s (λ _ s',
    slotmaps_wf s' ∧ abs s' = abs s ∧ mappings s' = mappings s ∧
    heap s' = <[1%positive := set_sm_state SLMAP_S_UNACKNOWLEDGED
                 (SlotMapping (BankSlot 1 0) (ClientSlot 7 3) SLMAP_S_NEW)]> (heap s) ∧
    ∀ h, bank_list s' h = unlink 1%positive (bank_list s h) ++
      if decide (Some (9%positive, maps_unack) = Some h) then [1%positive] else []).
Proof.
  intros s. apply (state_change_moves 1).
  - apply wf_link_new; [exact wf_init|reflexivity|by vm_compute; inversion 1..].
  - reflexivity.
  - by intros h [= <-].
Defined.

(** The identifier by which the REST API names a mapping determines the
    mapping: in a well-formed collection of 16-bit slots no two mappings of the
    list share an identifier, and every identifier is a 32-bit value. *)
Theorem slotmap_get_id_inj s l l' m m'
    (Hwf : slotmaps_wf s) (Hu : Forall (λ m, bank_slot_u16 (sm_bank m)) (entries s))
    (Hl : l ∈ mappings s) (Hl' : l' ∈ mappings s)
    (Hm : heap s !! l = Some m) (Hm' : heap s !! l' = Some m') :
  0 ≤ slotmap_get_id m < 2 ^ 32 ∧ (slotmap_get_id m = slotmap_get_id m' → l = l').
Proof.
  split; [apply wrap_range; lia|]. rewrite Forall_forall in Hu. intros E.
  apply (mapping_bank_inj s Hwf l l' m m'); [done..|].
  apply get_id_bank_inj; [..|done]; apply Hu, elem_of_entries; eauto.
Qed.

Lemma slotmap_get_id_inj_witness :
  let s := link_new 2 (BankSlot 1 1) (ClientSlot 7 4)
             (link_new 1 (BankSlot 1 0) (ClientSlot 7 3) slotmap_init) in
  0 ≤ slotmap_get_id (SlotMapping (BankSlot 1 0) (ClientSlot 7 3) SLMAP_S_NEW) < 2 ^ 32 ∧
  (slotmap_get_id (SlotMapping (BankSlot 1 0) (ClientSlot 7 3) SLMAP_S_NEW) =
   slotmap_get_id (SlotMapping (BankSlot 1 1) (ClientSlot 7 4) SLMAP_S_NEW) → 1%positive = 2%positive).
Proof.
  intros s. apply (slotmap_get_id_inj s 1 2).
  - apply wf_link_new; [apply wf_link_new; [exact wf_init|reflexivity|by vm_compute; inversion 1..]
      |reflexivity|by vm_compute; intros H; repeat (inversion H as [|??? H']; subst; clear H; rename H' into H)..].
  - by repeat constructor; vm_compute.
  - vm_compute; left.
  - vm_compute; right; left.
  - reflexivity.
  - reflexivity.
Defined.
