(* ===== verification/RsproPdu.v ===== *)
(** * RSPRO protocol data units ([include/osmocom/rspro/*.h])

    The C structures asn1c generates from [asn1/RSPRO.asn]: one record or
    constructor per type, with its fields in order.  A C [long] is a [Z], an
    [OCTET_STRING_t] the list of its bytes, an OPTIONAL member an [option],
    a CHOICE an inductive type with one constructor per alternative.

    [RsproCodec] is what [rspro_enc_msg] and [rspro_dec_msg] provide; the programs
    are modelled for any codec.  [RsproDer] defines the one they use, on the
    encoder, the decoder and the tables of the run-time, and proves the law
    [RsproRoundtrip] of it, which is assumed only by the theorems that name it. *)

From S2P Require Import Prelude.

Abbreviation octets := (list Z).

(** [e_ComponentType]; the struct members have type [long]. *)
Definition ComponentType_remsimClient : Z := 0.
Definition ComponentType_remsimServer : Z := 1.
Definition ComponentType_remsimBankd : Z := 2.

(** [e_ResultCode] *)
Definition ResultCode_ok : Z := 0.
Definition ResultCode_illegalClientId : Z := 1.
Definition ResultCode_illegalBankId : Z := 2.
Definition ResultCode_illegalSlotId : Z := 3.
Definition ResultCode_unsupportedProtocolVersion : Z := 4.
Definition ResultCode_unknownSlotmap : Z := 5.
Definition ResultCode_identityInUse : Z := 6.
Definition ResultCode_cardNotPresent : Z := 100.
Definition ResultCode_cardUnresponsive : Z := 101.
Definition ResultCode_cardTransmissionError : Z := 102.

Record ComponentIdentity_t := ComponentIdentity {
  ci_type : Z;
  ci_name : octets;
  ci_software : octets;
  ci_swVersion : octets;
  ci_hwManufacturer : option octets;
  ci_hwModel : option octets;
  ci_hwSerialNr : option octets;
  ci_hwVersion : option octets;
  ci_fwVersion : option octets;
}.

Record ClientSlot_t := MkClientSlot { clientId : Z; cl_slotNr : Z }.
Record BankSlot_t := MkBankSlot { bankId : Z; bk_slotNr : Z }.

Inductive IpAddress_t :=
| IpAddress_PR_NOTHING
| IpAddress_PR_ipv4 (ipv4 : octets)
| IpAddress_PR_ipv6 (ipv6 : octets).

Record IpPort_t := IpPort { ip : IpAddress_t; port : Z }.

Record TpduFlags_t := TpduFlags {
  tpduHeaderPresent : Z;
  finalPart : Z;
  procByteContinueTx : Z;
  procByteContinueRx : Z;
}.

Record SlotPhysStatus_t := SlotPhysStatus {
  resetActive : Z;
  vccPresent : option Z;
  clkActive : option Z;
  cardPresent : option Z;
}.

(** [RsproPDUchoice_t]: the tag [present] and the member of the union. *)
Inductive RsproPDUchoice :=
| PR_NOTHING
| PR_connectBankReq (identity : ComponentIdentity_t) (bankId numberOfSlots : Z)
| PR_connectBankRes (identity : ComponentIdentity_t) (result : Z)
| PR_connectClientReq (identity : ComponentIdentity_t) (clientSlot : option ClientSlot_t)
| PR_connectClientRes (identity : ComponentIdentity_t) (result : Z)
| PR_createMappingReq (client : ClientSlot_t) (bank : BankSlot_t)
| PR_createMappingRes (result : Z)
| PR_removeMappingReq (client : ClientSlot_t) (bank : BankSlot_t)
| PR_removeMappingRes (result : Z)
| PR_configClientIdReq (clientSlot : ClientSlot_t)
| PR_configClientIdRes (result : Z)
| PR_configClientBankReq (bankSlot : BankSlot_t) (bankd : IpPort_t)
| PR_configClientBankRes (result : Z)
| PR_errorInd (sender severity code : Z) (bankSlot : option BankSlot_t)
    (clientSlot : option ClientSlot_t) (errorString : option octets)
| PR_resetStateReq
| PR_resetStateRes (result : Z)
| PR_setAtrReq (slot : ClientSlot_t) (atr : octets)
| PR_setAtrRes (result : Z)
| PR_tpduModemToCard (fromClientSlot : ClientSlot_t) (toBankSlot : BankSlot_t)
    (flags : TpduFlags_t) (data : octets)
| PR_tpduCardToModem (fromBankSlot : BankSlot_t) (toClientSlot : ClientSlot_t)
    (flags : TpduFlags_t) (data : octets)
| PR_clientSlotStatusInd (fromClientSlot : ClientSlot_t) (toBankSlot : BankSlot_t)
    (slotPhysStatus : SlotPhysStatus_t)
| PR_bankSlotStatusInd (fromBankSlot : BankSlot_t) (toClientSlot : ClientSlot_t)
    (slotPhysStatus : SlotPhysStatus_t).

Record RsproPDU := MkRsproPDU { version : Z; tag : Z; msg : RsproPDUchoice }.

(** The value of [present]. *)
Definition RsproPDUchoice_PR (m : RsproPDUchoice) : Z :=
  match m with
  | PR_NOTHING => 0
  | PR_connectBankReq _ _ _ => 1
  | PR_connectBankRes _ _ => 2
  | PR_connectClientReq _ _ => 3
  | PR_connectClientRes _ _ => 4
  | PR_createMappingReq _ _ => 5
  | PR_createMappingRes _ => 6
  | PR_removeMappingReq _ _ => 7
  | PR_removeMappingRes _ => 8
  | PR_configClientIdReq _ => 9
  | PR_configClientIdRes _ => 10
  | PR_configClientBankReq _ _ => 11
  | PR_configClientBankRes _ => 12
  | PR_errorInd _ _ _ _ _ _ => 13
  | PR_resetStateReq => 14
  | PR_resetStateRes _ => 15
  | PR_setAtrReq _ _ => 16
  | PR_setAtrRes _ => 17
  | PR_tpduModemToCard _ _ _ _ => 18
  | PR_tpduCardToModem _ _ _ _ => 19
  | PR_clientSlotStatusInd _ _ _ => 20
  | PR_bankSlotStatusInd _ _ _ => 21
  end.

(** The names in [asn_MBR_RsproPDUchoice_1]. *)
Definition asn_MBR_RsproPDUchoice_1 : list string :=
  ["connectBankReq"; "connectBankRes"; "connectClientReq"; "connectClientRes";
   "createMappingReq"; "createMappingRes"; "removeMappingReq"; "removeMappingRes";
   "configClientIdReq"; "configClientIdRes"; "configClientBankReq";
   "configClientBankRes"; "errorInd"; "resetStateReq"; "resetStateRes";
   "setAtrReq"; "setAtrRes"; "tpduModemToCard"; "tpduCardToModem";
   "clientSlotStatusInd"; "bankSlotStatusInd"].

(** [value2enum] of [asn_DEF_ResultCode]: values with their names, sorted. *)
Definition asn_MAP_ResultCode_value2enum_1 : list (Z * string) :=
  [(0, "ok"); (1, "illegalClientId"); (2, "illegalBankId"); (3, "illegalSlotId");
   (4, "unsupportedProtocolVersion"); (5, "unknownSlotmap"); (6, "identityInUse");
   (100, "cardNotPresent"); (101, "cardUnresponsive"); (102, "cardTransmissionError")].

(** ** The codec interface *)

Class RsproCodec := {
  rspro_enc_msg : RsproPDU → option octets;
  rspro_dec_msg : octets → option RsproPDU;
}.
