(* ===== verification/BerTlv.v ===== *)
(** * Tags and lengths of BER ([rspro/ber_tlv_tag.c], [rspro/ber_tlv_length.c])

    A buffer is the list of its octets, so its size is the length of the list.
    A function that returns a positive number of octets, 0 for "want more" or
    -1 returns [RC_OK], [RC_WMORE] or [RC_FAIL], as the decoders do.  What a
    failed call has consumed is not kept: no program of the repository resumes
    a failed decoding.

    Two budgets replace what is not part of a function's value.  [fuel] bounds
    the rounds of loops ([RC_LOOP] when it is exhausted), and [d] counts the
    nested calls for which [_ASN_STACK_OVERFLOW_CHECK] finds that the stack
    has room; how much stack a call takes is up to the compiler. *)

From S2P Require Import Prelude.
From S2P Require Import RsproPdu.

Inductive dec_rval (A : Type) : Type :=
| RC_OK (v : A) (consumed : nat)
| RC_WMORE
| RC_FAIL
| RC_ABORT
| RC_LOOP.
Arguments RC_OK {A} v consumed.
Arguments RC_WMORE {A}.
Arguments RC_FAIL {A}.
Arguments RC_ABORT {A}.
Arguments RC_LOOP {A}.

(** Passing on a result that is not [RC_OK] ([switch(tl) { case 0: ... case -1: ... }]). *)
Definition dec_bind {A B} (r : dec_rval A) (f : A → nat → dec_rval B) : dec_rval B :=
  match r with
  | RC_OK v n => f v n
  | RC_WMORE => RC_WMORE
  | RC_FAIL => RC_FAIL
  | RC_ABORT => RC_ABORT
  | RC_LOOP => RC_LOOP
  end.

(** The same inside of a value whose size is known: wanting more is an error
    if the size is violated. *)
Definition dec_bind_in {A B} (size_violation : bool) (r : dec_rval A) (f : A → nat → dec_rval B)
    : dec_rval B :=
  match r with
  | RC_WMORE => if size_violation then RC_FAIL else RC_WMORE
  | _ => dec_bind r f
  end.

(** [BER_TLV_CONSTRUCTED(ptr)] of a buffer that is not empty *)
Definition BER_TLV_CONSTRUCTED (ptr : octets) : bool :=
  match ptr with o :: _ => Z.testbit o 5 | [] => false end.

(** A tag ([ber_tlv_tag_t]): class in the two low bits. *)
Definition BER_TAG_CLASS (tag : Z) : Z := Z.land tag 3.
Definition BER_TAG_VALUE (tag : Z) : Z := Z.shiftr tag 2.

(** The octets behind the first one, [val] being what was read so far. *)
Fixpoint fetch_tag_octets (tclass val : Z) (skipped : nat) (ptr : octets) : dec_rval Z :=
  match ptr with
  | [] => RC_WMORE
  | oct :: ptr =>
      let val := u32 (Z.lor (Z.shiftl val 7) (Z.land oct 127)) in
      if Z.testbit oct 7 then
        if Z.shiftr val (8 * 4 - 9) =? 0 then fetch_tag_octets tclass val (S skipped) ptr
        else RC_FAIL
      else RC_OK (u32 (Z.lor (Z.shiftl val 2) tclass)) skipped
  end.

Definition ber_fetch_tag (ptr : octets) : dec_rval Z :=
  match ptr with
  | [] => RC_WMORE
  | o :: ptr =>
      let tclass := Z.shiftr o 6 in
      let val := Z.land o 31 in
      if negb (val =? 31) then RC_OK (Z.lor (Z.shiftl val 2) tclass) 1
      else fetch_tag_octets tclass 0 2 ptr
  end.

(** The [oct] octets of a long length. *)
Fixpoint fetch_length_octets (oct : nat) (len : Z) (skipped : nat) (buf : octets) : dec_rval Z :=
  match oct with
  | O => if 2 ^ 63 <=? len + 1024 then RC_FAIL else RC_OK len skipped
  | S more =>
      match buf with
      | [] => RC_WMORE
      | b :: buf =>
          let len := swrap 64 (Z.lor (Z.shiftl len 8) b) in
          if (len <? 0) || (negb (Z.shiftr len (8 * 8 - 8) =? 0) && (1 <? oct)%nat) then RC_FAIL
          else fetch_length_octets more len (S skipped) buf
      end
  end.

(** The length of a value, -1 for the indefinite form. *)
Definition ber_fetch_length (is_constructed : bool) (buf : octets) : dec_rval Z :=
  match buf with
  | [] => RC_WMORE
  | oct :: buf =>
      if negb (Z.testbit oct 7) then RC_OK oct 1
      else if is_constructed && (oct =? 128) then RC_OK (- 1) 1
      else if oct =? 255 then RC_FAIL
      else fetch_length_octets (Z.to_nat (Z.land oct 127)) 0 1 buf
  end.

(** Two octets 0, the end of a value of indefinite length. *)
Definition is_eoc (ptr : octets) : bool :=
  match ptr with 0 :: 0 :: _ => true | _ => false end.

(** Skipping length and value; [skip_elements] is the loop for the indefinite
    form. *)
Fixpoint ber_skip_length (fuel d : nat) (is_constructed : bool) (ptr : octets) : dec_rval () :=
  match fuel with
  | O => RC_LOOP
  | S fuel =>
      match d with
      | O => RC_FAIL
      | S d =>
          dec_bind (ber_fetch_length is_constructed ptr) (λ vlen ll,
            if 0 <=? vlen then
              if Z.of_nat (length ptr) <? Z.of_nat ll + vlen then RC_WMORE
              else RC_OK () (ll + Z.to_nat vlen)
            else skip_elements fuel d ll (drop ll ptr))
      end
  end
with skip_elements (fuel d : nat) (skip : nat) (ptr : octets) : dec_rval () :=
  match fuel with
  | O => RC_LOOP
  | S fuel =>
      dec_bind (ber_fetch_tag ptr) (λ _ tl,
        dec_bind (ber_skip_length fuel d (BER_TLV_CONSTRUCTED ptr) (drop tl ptr)) (λ _ ll,
          if is_eoc ptr then RC_OK () (skip + tl + ll)
          else skip_elements fuel d (skip + tl + ll) (drop (tl + ll) ptr)))
  end.

(** ** Writing

    A buffer of [size] octets is given; the result is the number of octets
    that are needed and what was written. *)

(** [required_size] and the shift behind the first group of [w] bits, in at
    most [rounds] rounds. *)
Fixpoint required_octets (w bits : Z) (rounds : nat) (v i : Z) (required : nat) : nat * Z :=
  match rounds with
  | O => (required, i)
  | S rounds =>
      if (i <? bits) && negb (Z.shiftr v i =? 0) then required_octets w bits rounds v (i + w) (S required)
      else (required, i)
  end.

(** The groups of 7 bits from bit [i] down, each with its high bit set. *)
Fixpoint tag_groups (n : nat) (tval i : Z) : octets :=
  match n with
  | O => []
  | S n => Z.lor 128 (Z.land (Z.shiftr tval i) 127) :: tag_groups n tval (i - 7)
  end.

Definition ber_tlv_tag_serialize (tag : Z) (size : nat) : nat * octets :=
  let tclass := BER_TAG_CLASS tag in
  let tval := BER_TAG_VALUE tag in
  if tval <=? 30 then
    (1%nat, if (0 <? size)%nat then [u8 (Z.lor (Z.shiftl tclass 6) tval)] else [])
  else
    let first := if (0 <? size)%nat then [u8 (Z.lor (Z.shiftl tclass 6) 31)] else [] in
    let size := (size - 1)%nat in
    let '(required_size, i) := required_octets 7 (8 * 4) 4 tval 7 1 in
    if (size <? required_size)%nat then (S required_size, first)
    else (S required_size,
          first ++ tag_groups (required_size - 1) tval (i - 7) ++ [Z.land tval 127]).

(** The octets of the length from bit [i] down. *)
Fixpoint length_octets (n : nat) (len i : Z) : octets :=
  match n with
  | O => []
  | S n => u8 (Z.shiftr len i) :: length_octets n len (i - 8)
  end.

Definition der_tlv_length_serialize (len : Z) (size : nat) : nat * octets :=
  if len <=? 127 then (1%nat, if (0 <? size)%nat then [u8 len] else [])
  else
    let '(required_size, i) := required_octets 8 (8 * 8) 7 len 8 1 in
    if (size <=? required_size)%nat then (S required_size, [])
    else (S required_size,
          u8 (Z.lor 128 (Z.of_nat required_size)) :: length_octets required_size len (i - 8)).

(** ** What is written is read back *)

(** The octets of a tag and of a length, with enough room for them. *)
Definition tag_octets (tag : Z) : octets := (ber_tlv_tag_serialize tag 32).2.
Definition len_octets (len : Z) : octets := (der_tlv_length_serialize len 32).2.

Lemma required_octets_spec w bits rounds v i req :
  0 < w → 0 ≤ i → bits ≤ i + w * Z.of_nat rounds → 0 ≤ v < 2 ^ bits → 0 ≤ bits →
  let '(req', j) := required_octets w bits rounds v i req in
  (req ≤ req' ≤ req + rounds)%nat ∧ j = i + w * Z.of_nat (req' - req) ∧ Z.shiftr v j = 0.
Proof.
  intros Hw Hi Hb Hv Hbits. revert i req Hi Hb.
  assert (∀ j, bits ≤ j → Z.shiftr v j = 0) as Hz.
  { intros j Hj. destruct (decide (v = 0)) as [->|Hne]; [apply Z.shiftr_0_l|].
    apply Z.shiftr_eq_0; [lia|]. apply Z.log2_lt_pow2; [lia|]. apply Z.lt_le_trans with (2 ^ bits); [lia|].
    apply Z.pow_le_mono_r; lia. }
  induction rounds as [|rounds IH]; intros i req Hi Hb; cbn [required_octets].
  - rewrite Nat.sub_diag, Z.mul_0_r. repeat split; [lia..|]. apply Hz. lia.
  - destruct (Z.ltb_spec i bits); cbn [andb].
    2:{ rewrite Nat.sub_diag. repeat split; [lia..|]. by apply Hz. }
    destruct (Z.eqb_spec (Z.shiftr v i) 0); cbn [negb].
    { rewrite Nat.sub_diag. repeat split; [lia..|done]. }
    specialize (IH (i + w) (S req) ltac:(lia) ltac:(lia)).
    destruct (required_octets w bits rounds v (i + w) (S req)) as [req' j].
    destruct IH as (?&->&?).
    replace (Z.of_nat (req' - req)) with (1 + Z.of_nat (req' - S req)) by lia.
    repeat split; [lia..|done].
Qed.

Lemma land_ones_7 z : Z.land z 127 = z `mod` 128.
Proof. change 127 with (Z.ones 7). by rewrite Z.land_ones. Qed.

Lemma shiftr_range v i k : 0 ≤ i → 0 ≤ k → 0 ≤ v < 2 ^ (i + k) → 0 ≤ Z.shiftr v i < 2 ^ k.
Proof.
  intros Hi Hk Hv. rewrite Z.shiftr_div_pow2 by lia. split; [apply Z.div_pos; lia|].
  apply Z.div_lt_upper_bound; [lia|]. rewrite <-Z.pow_add_r by lia. lia.
Qed.

(** One more group of [w] bits. *)
Lemma lor_group v i w : 0 ≤ i → 0 < w →
  Z.lor (Z.shiftl (Z.shiftr v (i + w)) w) (Z.land (Z.shiftr v i) (Z.ones w)) = Z.shiftr v i.
Proof. intros Hi Hw. rewrite <-Z.shiftr_shiftr by lia. apply lor_hi_lo. lia. Qed.

Lemma fetch_tag_groups tval tclass n skipped rest :
  0 ≤ tval < 2 ^ 30 → 0 ≤ tclass < 4 →
  fetch_tag_octets tclass (Z.shiftr tval (7 * Z.of_nat (S n))) skipped
    (tag_groups n tval (7 * Z.of_nat n) ++ [Z.land tval 127] ++ rest) =
  RC_OK (Z.lor (Z.shiftl tval 2) tclass) (skipped + n).
Proof.
  intros Ht Hc. revert skipped.
  assert (∀ w, 0 ≤ w < 2 ^ 30 → u32 (Z.lor (Z.shiftl w 2) tclass) = Z.lor (Z.shiftl w 2) tclass) as Hu.
  { intros w Hw. apply wrap_small. rewrite lor_shiftl_add by lia. lia. }
  induction n as [|n IH]; intros skipped; cbn [tag_groups app fetch_tag_octets].
  - assert (Z.land (Z.land tval 127) 127 = Z.land tval (Z.ones 7)) as -> by by rewrite <-Z.land_assoc.
    pose proof (lor_group tval 0 7 ltac:(lia) ltac:(lia)) as Hg. rewrite Z.shiftr_0_r in Hg.
    change (7 * Z.of_nat 1) with (0 + 7). rewrite Hg, (wrap_small 32 tval) by lia.
    rewrite Hu, Z.land_spec by lia. change (Z.testbit 127 7) with false.
    rewrite andb_false_r. f_equal. lia.
  - set (i := 7 * Z.of_nat (S n)).
    assert (Z.testbit (Z.lor 128 (Z.land (Z.shiftr tval i) 127)) 7 = true) as ->.
    { by rewrite Z.lor_spec. }
    assert (Z.land (Z.lor 128 (Z.land (Z.shiftr tval i) 127)) 127 = Z.land (Z.shiftr tval i) (Z.ones 7)) as ->.
    { rewrite Z.land_lor_distr_l. change (Z.land 128 127) with 0. rewrite Z.lor_0_l.
      change (Z.ones 7) with 127. by rewrite <-Z.land_assoc. }
    replace (7 * Z.of_nat (S (S n))) with (i + 7) by lia.
    rewrite lor_group by lia.
    assert (0 ≤ Z.shiftr tval i < 2 ^ 23) as Hs.
    { apply shiftr_range; [lia..|]. split; [lia|]. apply Z.lt_le_trans with (2 ^ 30); [lia|].
      apply Z.pow_le_mono_r; lia. }
    rewrite (wrap_small 32) by lia.
    rewrite (Z.shiftr_eq_0 (Z.shiftr tval i) (8 * 4 - 9)), Z.eqb_refl.
    + replace (i - 7) with (7 * Z.of_nat n) by lia. unfold i. rewrite IH. f_equal. lia.
    + lia.
    + destruct (decide (Z.shiftr tval i = 0)) as [->|Hne]; [cbn; lia|].
      apply Z.log2_lt_pow2; lia.
Qed.

Lemma tag_class_value tag : 0 ≤ tag < 2 ^ 32 →
  0 ≤ BER_TAG_CLASS tag < 4 ∧ 0 ≤ BER_TAG_VALUE tag < 2 ^ 30 ∧
  Z.lor (Z.shiftl (BER_TAG_VALUE tag) 2) (BER_TAG_CLASS tag) = tag.
Proof.
  intros Ht. unfold BER_TAG_CLASS, BER_TAG_VALUE. repeat split.
  - apply Z.land_nonneg. lia.
  - change 3 with (Z.ones 2). rewrite Z.land_ones by lia. apply Z.mod_pos_bound. lia.
  - apply Z.shiftr_nonneg. lia.
  - apply shiftr_range; lia.
  - by apply (lor_hi_lo tag 2).
Qed.

(** The first octet of a tag, [low] being its low bits, with the bit of the
    constructed form. *)
Definition set_constructed (constructed : bool) (ptr : octets) : octets :=
  match ptr with
  | o :: ptr => (if constructed then Z.lor o 32 else o) :: ptr
  | [] => []
  end.

Lemma first_octet tclass low (c : bool) : 0 ≤ tclass < 4 → 0 ≤ low < 32 →
  let o := u8 (Z.lor (Z.shiftl tclass 6) low) in
  let o' := if c then Z.lor o 32 else o in
  Z.shiftr o' 6 = tclass ∧ Z.land o' 31 = low ∧ Z.testbit o' 5 = c ∧ is_byte o'.
Proof.
  intros Hc Hl.
  assert (tclass ∈ [0; 1; 2; 3] ∧ low ∈ seqZ 0 32) as [Hc' Hl'].
  { split; [|apply elem_of_seqZ; lia]. set_unfold. lia. }
  cbn zeta. unfold is_byte.
  pose (ok tclass low c :=
    let o := u8 (Z.lor (Z.shiftl tclass 6) low) in
    let o' := if c : bool then Z.lor o 32 else o in
    (Z.shiftr o' 6 =? tclass) && (Z.land o' 31 =? low) && eqb (Z.testbit o' 5) c &&
      (0 <=? o') && (o' <? 256)).
  assert (ok tclass low c = true) as Hok.
  { assert (forallb (λ tclass, forallb (λ low, ok tclass low true && ok tclass low false)
      (seqZ 0 32)) [0; 1; 2; 3] = true) as Hall by by vm_compute.
    rewrite forallb_forall in Hall. apply list_elem_of_In in Hc', Hl'.
    specialize (Hall _ Hc'). rewrite forallb_forall in Hall. specialize (Hall _ Hl').
    apply andb_true_iff in Hall as [? ?]. by destruct c. }
  unfold ok in Hok. rewrite !andb_true_iff in Hok. destruct Hok as [[[[H1 H2] H3] H4] H5].
  apply Z.eqb_eq in H1. apply Z.eqb_eq in H2. apply eqb_prop in H3.
  split_and!; [done..|lia|lia].
Qed.

(** Any tag is read back, whichever form its value has. *)
Lemma fetch_tag_octets_of tag c rest :
  0 ≤ tag < 2 ^ 32 →
  ber_fetch_tag (set_constructed c (tag_octets tag) ++ rest) = RC_OK tag (length (tag_octets tag)) ∧
  BER_TLV_CONSTRUCTED (set_constructed c (tag_octets tag) ++ rest) = c.
Proof.
  intros Ht. destruct (tag_class_value tag Ht) as (Hc&Hv&Hcv).
  unfold tag_octets, ber_tlv_tag_serialize.
  destruct (Z.leb_spec (BER_TAG_VALUE tag) 30).
  - cbn -[Z.testbit Z.shiftr Z.shiftl Z.land Z.lor Z.mul].
    destruct (first_octet (BER_TAG_CLASS tag) (BER_TAG_VALUE tag) c Hc ltac:(lia))
      as (H1&H2&H3&_).
    rewrite H1, H2, H3. destruct (Z.eqb_spec (BER_TAG_VALUE tag) 31); [lia|]. by rewrite Hcv.
  - pose proof (required_octets_spec 7 (8 * 4) 4 (BER_TAG_VALUE tag) 7 1 ltac:(lia) ltac:(lia)
      ltac:(lia) ltac:(lia) ltac:(lia)) as Hreq.
    destruct (required_octets _ _ _ _ _ _) as [r i]. destruct Hreq as (Hr&->&Hz).
    destruct (first_octet (BER_TAG_CLASS tag) 31 c Hc ltac:(lia)) as (H1&H2&H3&_).
    destruct (Nat.ltb_spec (32 - 1) r); [lia|]. cbn [snd Nat.ltb Nat.leb].
    cbn -[Z.testbit Z.shiftr Z.shiftl Z.land Z.lor Z.mul tag_groups].
    rewrite H1, H2, H3. cbn [Z.eqb negb Pos.eqb]. split; [|done].
    destruct r as [|n]; [lia|]. replace (S n - 1)%nat with n in * by lia.
    replace (7 + 7 * Z.of_nat n - 7) with (7 * Z.of_nat n) by lia.
    replace (7 + 7 * Z.of_nat n) with (7 * Z.of_nat (S n)) in Hz by lia.
    rewrite <-Hz, <-app_assoc, fetch_tag_groups, Hcv by lia.
    f_equal. rewrite length_app. cbn. enough (∀ m v j, length (tag_groups m v j) = m) as ->; [lia|].
    clear. induction m; cbn; [done|]. intros. by f_equal.
Qed.

Lemma tag_octets_length tag : 0 ≤ tag < 2 ^ 32 →
  (1 ≤ length (tag_octets tag) ≤ 6)%nat ∧ (ber_tlv_tag_serialize tag 0).1 = length (tag_octets tag) ∧
  ∀ size, (6 ≤ size)%nat → ber_tlv_tag_serialize tag size = (length (tag_octets tag), tag_octets tag).
Proof.
  intros Ht. destruct (tag_class_value tag Ht) as (_&Hv&_).
  unfold tag_octets, ber_tlv_tag_serialize.
  destruct (Z.leb_spec (BER_TAG_VALUE tag) 30).
  { cbn. split_and!; [lia..|done|]. by intros [|size] ?; [lia|]. }
  pose proof (required_octets_spec 7 (8 * 4) 4 (BER_TAG_VALUE tag) 7 1 ltac:(lia) ltac:(lia)
      ltac:(lia) ltac:(lia) ltac:(lia)) as Hreq.
  destruct (required_octets _ _ _ _ _ _) as [r i]. destruct Hreq as (Hr&->&Hz).
  destruct (Nat.ltb_spec (32 - 1) r) as [|_]; [lia|].
  assert (∀ m v j, length (tag_groups m v j) = m) as Hg.
  { induction m; cbn; [done|]. intros. by f_equal. }
  change (0 <? 32)%nat with true. cbn [snd app length]. rewrite length_app, Hg. cbn [length].
  split_and!; [lia..| |].
  { destruct (0 - 1 <? r)%nat; cbn [fst]; lia. }
  intros [|size] Hs; [lia|]. change (0 <? S size)%nat with true.
  destruct (Nat.ltb_spec (S size - 1) r); [lia|]. cbn [app]. f_equal. lia.
Qed.

Lemma fetch_length_groups len n skipped rest :
  0 ≤ len → len + 1024 < 2 ^ 63 →
  fetch_length_octets n (Z.shiftr len (8 * Z.of_nat n)) skipped
    (length_octets n len (8 * (Z.of_nat n - 1)) ++ rest) = RC_OK len (skipped + n).
Proof.
  intros Hl Hm. revert skipped. induction n as [|n IH]; intros skipped.
  - cbn. rewrite Z.shiftr_0_r. destruct (Z.leb_spec (2 ^ 63) (len + 1024)) as [|_]; [lia|].
    by rewrite Nat.add_0_r.
  - cbn [length_octets app fetch_length_octets]. set (i := 8 * (Z.of_nat (S n) - 1)).
    assert (u8 (Z.shiftr len i) = Z.land (Z.shiftr len i) (Z.ones 8)) as ->.
    { by rewrite Z.land_ones by lia. }
    replace (8 * Z.of_nat (S n)) with (i + 8) by lia. rewrite lor_group by lia.
    assert (0 ≤ Z.shiftr len i < 2 ^ 63) as Hs.
    { split; [apply Z.shiftr_nonneg; lia|]. rewrite Z.shiftr_div_pow2 by lia.
      apply Z.div_lt_upper_bound; [lia|]. assert (1 ≤ 2 ^ i) by (apply (Z.pow_le_mono_r 2 0); lia). nia. }
    rewrite swrap_small by lia. destruct (Z.ltb_spec (Z.shiftr len i) 0) as [|_]; [lia|]. cbn [orb].
    assert (negb (Z.shiftr (Z.shiftr len i) (8 * 8 - 8) =? 0) && (1 <? S n)%nat = false) as ->.
    { destruct n as [|n]; [by rewrite andb_false_r|].
      rewrite Z.shiftr_shiftr by lia. rewrite Z.shiftr_eq_0; [done|lia|].
      destruct (decide (len = 0)) as [->|Hne]; [cbn; lia|].
      apply Z.log2_lt_pow2; [lia|]. apply Z.lt_le_trans with (2 ^ 63); [lia|].
      apply Z.pow_le_mono_r; lia. }
    replace (i - 8) with (8 * (Z.of_nat n - 1)) by lia.
    replace i with (8 * Z.of_nat n) by lia. rewrite IH. f_equal. lia.
Qed.

(** Any length that is small enough is read back, in the definite form. *)
Lemma fetch_length_octets_of len c rest :
  0 ≤ len → len + 1024 < 2 ^ 63 →
  ber_fetch_length c (len_octets len ++ rest) = RC_OK len (length (len_octets len)).
Proof.
  intros Hl Hm. unfold len_octets, der_tlv_length_serialize.
  destruct (Z.leb_spec len 127).
  - cbn [snd fst Nat.ltb Nat.leb app length ber_fetch_length]. rewrite (wrap_small 8) by lia.
    rewrite Z.bits_above_log2; [done|lia|]. destruct (decide (len = 0)) as [->|Hne]; [cbn; lia|].
    apply Z.log2_lt_pow2; lia.
  - pose proof (required_octets_spec 8 (8 * 8) 7 len 8 1 ltac:(lia) ltac:(lia)
      ltac:(lia) ltac:(lia) ltac:(lia)) as Hreq.
    destruct (required_octets _ _ _ _ _ _) as [r i]. destruct Hreq as (Hr&->&Hz).
    destruct (Nat.leb_spec 32 r) as [|_]; [lia|]. cbn [snd app].
    assert (u8 (Z.lor 128 (Z.of_nat r)) = 128 + Z.of_nat r ∧
            Z.testbit (128 + Z.of_nat r) 7 = true ∧ Z.land (128 + Z.of_nat r) 127 = Z.of_nat r)
      as (->&H7&Hland).
    { destruct (le_lt_dec r 0); [lia|]. do 9 (destruct r as [|r]; [by vm_compute|]). lia. }
    unfold ber_fetch_length. rewrite H7, Hland. cbn [negb].
    destruct (Z.eqb_spec (128 + Z.of_nat r) 128); [lia|]. rewrite andb_false_r.
    destruct (Z.eqb_spec (128 + Z.of_nat r) 255); [lia|]. rewrite Nat2Z.id.
    replace (8 + 8 * Z.of_nat (r - 1)) with (8 * Z.of_nat r) in * by lia.
    replace (8 * Z.of_nat r - 8) with (8 * (Z.of_nat r - 1)) by lia.
    rewrite <-Hz, fetch_length_groups by done. f_equal. cbn [length Nat.add]. f_equal.
    enough (∀ m v j, length (length_octets m v j) = m) as -> by done.
    clear. induction m; cbn; [done|]. intros. by f_equal.
Qed.

Lemma len_octets_length len : 0 ≤ len < 2 ^ 63 →
  (1 ≤ length (len_octets len) ≤ 9)%nat ∧ (der_tlv_length_serialize len 0).1 = length (len_octets len) ∧
  ∀ size, (9 ≤ size)%nat → der_tlv_length_serialize len size = (length (len_octets len), len_octets len).
Proof.
  intros Hl. unfold len_octets, der_tlv_length_serialize.
  destruct (Z.leb_spec len 127).
  { cbn. split_and!; [lia..|done|]. by intros [|size] ?; [lia|]. }
  pose proof (required_octets_spec 8 (8 * 8) 7 len 8 1 ltac:(lia) ltac:(lia)
      ltac:(lia) ltac:(lia) ltac:(lia)) as Hreq.
  destruct (required_octets _ _ _ _ _ _) as [r i]. destruct Hreq as (Hr&->&Hz).
  destruct (Nat.leb_spec 32 r) as [|_]; [lia|].
  assert (∀ m v j, length (length_octets m v j) = m) as Hg.
  { induction m; cbn; [done|]. intros. by f_equal. }
  cbn [snd length]. rewrite Hg. split_and!; [lia..| |].
  { by destruct (0 <=? r)%nat. }
  intros size Hs. by destruct (Nat.leb_spec size r); [lia|].
Qed.
