(* ===== verification/AsnTypes.v ===== *)
(** * Type descriptors and values of the ASN.1 run-time

    [rspro/constr_TYPE.h], [constr_SEQUENCE.h] and [constr_CHOICE.h] under
    [src/include/osmocom].  A descriptor holds pointers to the functions of
    its type; here it is an inductive type with one constructor for each group
    of functions that the types of RSPRO use.  [all_tags] and [tags] are the same
    list in every one of them.  What only the encodings XER and PER, printing
    and freeing use is left out, as are the names of types and members.

    A value is what the structure of a type holds: a [long], a [BOOLEAN_t], the
    octets of a string, the members of a SEQUENCE (NULL if the member is a
    pointer to nothing) or the present member of a CHOICE. *)

From S2P Require Import Prelude.
From S2P Require Import RsproPdu.
From S2P Require Import BerTlv.

Definition ASN_TAG_CLASS_UNIVERSAL : Z := 0.
Definition ASN_TAG_CLASS_CONTEXT : Z := 2.

(** [(ASN_TAG_CLASS_... | (n << 2))] *)
Definition asn_tag (tclass n : Z) : Z := Z.lor tclass (Z.shiftl n 2).

(** [enum asn_TYPE_flags_e] *)
Definition ATF_NOFLAGS : Z := 0.
Definition ATF_POINTER : Z := 1.
Definition ATF_OPEN_TYPE : Z := 2.

Record asn_TYPE_member (T : Type) := MkMember {
  flags : Z;
  optional : nat;
  m_tag : Z;
  tag_mode : Z;
  m_type : T;
}.
Arguments MkMember {T} flags optional m_tag tag_mode m_type.
Arguments flags {T} a.
Arguments optional {T} a.
Arguments m_tag {T} a.
Arguments tag_mode {T} a.
Arguments m_type {T} a.

Definition is_pointer {T} (e : asn_TYPE_member T) : bool := Z.testbit (flags e) 0.
Definition is_open_type {T} (e : asn_TYPE_member T) : bool := Z.testbit (flags e) 1.

Record asn_TYPE_tag2member := MkTag2member {
  el_tag : Z;
  el_no : nat;
  toff_first : Z;
  toff_last : Z;
}.

Record asn_SEQUENCE_specifics := MkSeqSpecs {
  s_tag2el : list asn_TYPE_tag2member;
  ext_after : Z;
  ext_before : Z;
}.

Record asn_CHOICE_specifics := MkChoiceSpecs {
  c_tag2el : list asn_TYPE_tag2member;
  ext_start : Z;
}.

#[warnings="-register-all"]
Inductive asn_TYPE_descriptor :=
| TD_NativeInteger (tags : list Z)
| TD_BOOLEAN (tags : list Z)
| TD_OCTET_STRING (tags : list Z)
| TD_SEQUENCE (tags : list Z) (elements : list (asn_TYPE_member asn_TYPE_descriptor))
    (specs : asn_SEQUENCE_specifics)
| TD_CHOICE (tags : list Z) (elements : list (asn_TYPE_member asn_TYPE_descriptor))
    (specs : asn_CHOICE_specifics).

Definition td_tags (td : asn_TYPE_descriptor) : list Z :=
  match td with
  | TD_NativeInteger tags | TD_BOOLEAN tags | TD_OCTET_STRING tags
  | TD_SEQUENCE tags _ _ | TD_CHOICE tags _ _ => tags
  end.

#[warnings="-register-all"]
Inductive asn_value :=
| VLong (native : Z)
| VBool (b : Z)
| VString (buf : octets)
| VSeq (members : list (option asn_value))
| VChoice (present : Z) (memb : option asn_value).

(** The structure of the type after [CALLOC]: no member has been set. *)
Definition zero_members {T} (elements : list (asn_TYPE_member T)) : list (option asn_value) :=
  map (λ _, None) elements.

Section asn_TYPE_descriptor_ind.
Context (P : asn_TYPE_descriptor → Prop).
Context (Hint : ∀ tags, P (TD_NativeInteger tags)).
Context (Hbool : ∀ tags, P (TD_BOOLEAN tags)).
Context (Hstr : ∀ tags, P (TD_OCTET_STRING tags)).
Context (Hseq : ∀ tags els specs, Forall (λ e, P (m_type e)) els → P (TD_SEQUENCE tags els specs)).
Context (Hch : ∀ tags els specs, Forall (λ e, P (m_type e)) els → P (TD_CHOICE tags els specs)).

(** Induction on a descriptor with its members. *)
Lemma asn_TYPE_descriptor_ind' : ∀ td, P td.
Proof.
  fix IH 1. intros [tags|tags|tags|tags els specs|tags els specs].
  - apply Hint.
  - apply Hbool.
  - apply Hstr.
  - apply Hseq. induction els as [|e els IHels]; constructor; [apply IH|exact IHels].
  - apply Hch. induction els as [|e els IHels]; constructor; [apply IH|exact IHels].
Qed.
End asn_TYPE_descriptor_ind.

(** ** Values of a type

    What the C types can hold: a [long] of 64 bits, a [BOOLEAN_t] (an [int]),
    octets, and a member for every one that is not a pointer or not optional.
    [present] of a CHOICE counts from 1, and 0 says that nothing is present. *)
Definition member_ok {T} (typed : T → asn_value → Prop) (e : asn_TYPE_member T) (v : option asn_value) : Prop :=
  match v with
  | Some v => typed (m_type e) v
  | None => is_pointer e = true ∧ optional e ≠ 0%nat
  end.

Fixpoint has_type (td : asn_TYPE_descriptor) (v : asn_value) : Prop :=
  match td, v with
  | TD_NativeInteger _, VLong z => - 2 ^ 63 ≤ z < 2 ^ 63
  | TD_BOOLEAN _, VBool b => - 2 ^ 31 ≤ b < 2 ^ 31
  | TD_OCTET_STRING _, VString s => Forall is_byte s ∧ Z.of_nat (length s) < 2 ^ 30
  | TD_SEQUENCE _ els _, VSeq vs =>
      (fix members els vs :=
         match els, vs with
         | [], [] => True
         | e :: els, v :: vs =>
             match v with
             | Some v => has_type (m_type e) v
             | None => is_pointer e = true ∧ optional e ≠ 0%nat
             end ∧ members els vs
         | _, _ => False
         end) els vs
  | TD_CHOICE _ els _, VChoice present memb =>
      match memb with
      | None => present = 0
      | Some v => 1 ≤ present ∧
          (fix member els n :=
             match els, n with
             | e :: _, O => has_type (m_type e) v
             | _ :: els, S n => member els n
             | [], _ => False
             end) els (Z.to_nat (present - 1))
      end
  | _, _ => False
  end.

Lemma has_type_SEQUENCE tags els specs vs :
  has_type (TD_SEQUENCE tags els specs) (VSeq vs) ↔ Forall2 (member_ok has_type) els vs.
Proof.
  cbn. revert vs. induction els as [|e els IH]; intros [|v vs]; cbn.
  - split; [constructor|done].
  - split; [done|]. intros H. by inversion H.
  - split; [done|]. intros H. by inversion H.
  - rewrite Forall2_cons, IH. done.
Qed.

Lemma has_type_CHOICE tags els specs present v :
  has_type (TD_CHOICE tags els specs) (VChoice present (Some v)) ↔
  1 ≤ present ∧ ∃ e, els !! Z.to_nat (present - 1) = Some e ∧ has_type (m_type e) v.
Proof.
  cbn. generalize (Z.to_nat (present - 1)) as n. intros n.
  apply and_iff_compat_l. revert n. induction els as [|e els IH]; intros n; cbn.
  - split; [by destruct n|]. by intros (?&?&?).
  - destruct n as [|n]; cbn; [|apply IH]. split; [eauto|]. by intros (?&[= <-]&?).
Qed.
