(* ===== verification/RsproTables.v ===== *)
(** * The tables of the types of RSPRO ([src/src/rspro/*.c])

    One descriptor per type, with the members, the map from tags to members and
    the bounds of the extensions as asn1c generated them from
    [asn1/RSPRO.asn].  A type that is made from another one
    ([X_inherit_TYPE_descriptor]) has the functions of that type and its own
    tags. *)

From S2P Require Import Prelude.
From S2P Require Import BerTlv.
From S2P Require Import AsnTypes.

Definition asn_DEF_NativeInteger : asn_TYPE_descriptor :=
  TD_NativeInteger [asn_tag ASN_TAG_CLASS_UNIVERSAL 2].

Definition asn_DEF_OperationTag : asn_TYPE_descriptor :=
  TD_NativeInteger [asn_tag ASN_TAG_CLASS_UNIVERSAL 2].

Definition asn_DEF_ComponentType : asn_TYPE_descriptor :=
  TD_NativeInteger [asn_tag ASN_TAG_CLASS_UNIVERSAL 10].

Definition asn_DEF_ComponentName : asn_TYPE_descriptor :=
  TD_OCTET_STRING [asn_tag ASN_TAG_CLASS_UNIVERSAL 22].

Definition asn_DEF_ComponentIdentity : asn_TYPE_descriptor :=
  TD_SEQUENCE [asn_tag ASN_TAG_CLASS_UNIVERSAL 16]
    [MkMember ATF_NOFLAGS 0 (asn_tag ASN_TAG_CLASS_UNIVERSAL 10) 0 asn_DEF_ComponentType;
     MkMember ATF_NOFLAGS 0 (asn_tag ASN_TAG_CLASS_UNIVERSAL 22) 0 asn_DEF_ComponentName;
     MkMember ATF_NOFLAGS 0 (asn_tag ASN_TAG_CLASS_CONTEXT 0) (- 1) asn_DEF_ComponentName;
     MkMember ATF_NOFLAGS 0 (asn_tag ASN_TAG_CLASS_CONTEXT 1) (- 1) asn_DEF_ComponentName;
     MkMember ATF_POINTER 5 (asn_tag ASN_TAG_CLASS_CONTEXT 2) (- 1) asn_DEF_ComponentName;
     MkMember ATF_POINTER 4 (asn_tag ASN_TAG_CLASS_CONTEXT 3) (- 1) asn_DEF_ComponentName;
     MkMember ATF_POINTER 3 (asn_tag ASN_TAG_CLASS_CONTEXT 4) (- 1) asn_DEF_ComponentName;
     MkMember ATF_POINTER 2 (asn_tag ASN_TAG_CLASS_CONTEXT 5) (- 1) asn_DEF_ComponentName;
     MkMember ATF_POINTER 1 (asn_tag ASN_TAG_CLASS_CONTEXT 6) (- 1) asn_DEF_ComponentName]
    (MkSeqSpecs
      [MkTag2member (asn_tag ASN_TAG_CLASS_UNIVERSAL 10) 0 0 0;
      MkTag2member (asn_tag ASN_TAG_CLASS_UNIVERSAL 22) 1 0 0;
      MkTag2member (asn_tag ASN_TAG_CLASS_CONTEXT 0) 2 0 0;
      MkTag2member (asn_tag ASN_TAG_CLASS_CONTEXT 1) 3 0 0;
      MkTag2member (asn_tag ASN_TAG_CLASS_CONTEXT 2) 4 0 0;
      MkTag2member (asn_tag ASN_TAG_CLASS_CONTEXT 3) 5 0 0;
      MkTag2member (asn_tag ASN_TAG_CLASS_CONTEXT 4) 6 0 0;
      MkTag2member (asn_tag ASN_TAG_CLASS_CONTEXT 5) 7 0 0;
      MkTag2member (asn_tag ASN_TAG_CLASS_CONTEXT 6) 8 0 0] 8 10).

Definition asn_DEF_BankId : asn_TYPE_descriptor :=
  TD_NativeInteger [asn_tag ASN_TAG_CLASS_UNIVERSAL 2].

Definition asn_DEF_SlotNumber : asn_TYPE_descriptor :=
  TD_NativeInteger [asn_tag ASN_TAG_CLASS_UNIVERSAL 2].

Definition asn_DEF_ConnectBankReq : asn_TYPE_descriptor :=
  TD_SEQUENCE [asn_tag ASN_TAG_CLASS_UNIVERSAL 16]
    [MkMember ATF_NOFLAGS 0 (asn_tag ASN_TAG_CLASS_UNIVERSAL 16) 0 asn_DEF_ComponentIdentity;
     MkMember ATF_NOFLAGS 0 (asn_tag ASN_TAG_CLASS_UNIVERSAL 2) 0 asn_DEF_BankId;
     MkMember ATF_NOFLAGS 0 (asn_tag ASN_TAG_CLASS_UNIVERSAL 2) 0 asn_DEF_SlotNumber]
    (MkSeqSpecs
      [MkTag2member (asn_tag ASN_TAG_CLASS_UNIVERSAL 2) 1 0 1;
      MkTag2member (asn_tag ASN_TAG_CLASS_UNIVERSAL 2) 2 (- 1) 0;
      MkTag2member (asn_tag ASN_TAG_CLASS_UNIVERSAL 16) 0 0 0] 2 4).

Definition asn_DEF_ResultCode : asn_TYPE_descriptor :=
  TD_NativeInteger [asn_tag ASN_TAG_CLASS_UNIVERSAL 10].

Definition asn_DEF_ConnectBankRes : asn_TYPE_descriptor :=
  TD_SEQUENCE [asn_tag ASN_TAG_CLASS_UNIVERSAL 16]
    [MkMember ATF_NOFLAGS 0 (asn_tag ASN_TAG_CLASS_UNIVERSAL 16) 0 asn_DEF_ComponentIdentity;
     MkMember ATF_NOFLAGS 0 (asn_tag ASN_TAG_CLASS_UNIVERSAL 10) 0 asn_DEF_ResultCode]
    (MkSeqSpecs
      [MkTag2member (asn_tag ASN_TAG_CLASS_UNIVERSAL 10) 1 0 0;
      MkTag2member (asn_tag ASN_TAG_CLASS_UNIVERSAL 16) 0 0 0] 1 3).

Definition asn_DEF_ClientId : asn_TYPE_descriptor :=
  TD_NativeInteger [asn_tag ASN_TAG_CLASS_UNIVERSAL 2].

Definition asn_DEF_ClientSlot : asn_TYPE_descriptor :=
  TD_SEQUENCE [asn_tag ASN_TAG_CLASS_UNIVERSAL 16]
    [MkMember ATF_NOFLAGS 0 (asn_tag ASN_TAG_CLASS_UNIVERSAL 2) 0 asn_DEF_ClientId;
     MkMember ATF_NOFLAGS 0 (asn_tag ASN_TAG_CLASS_UNIVERSAL 2) 0 asn_DEF_SlotNumber]
    (MkSeqSpecs
      [MkTag2member (asn_tag ASN_TAG_CLASS_UNIVERSAL 2) 0 0 1;
      MkTag2member (asn_tag ASN_TAG_CLASS_UNIVERSAL 2) 1 (- 1) 0] 1 3).

Definition asn_DEF_ConnectClientReq : asn_TYPE_descriptor :=
  TD_SEQUENCE [asn_tag ASN_TAG_CLASS_UNIVERSAL 16]
    [MkMember ATF_NOFLAGS 0 (asn_tag ASN_TAG_CLASS_UNIVERSAL 16) 0 asn_DEF_ComponentIdentity;
     MkMember ATF_POINTER 1 (asn_tag ASN_TAG_CLASS_UNIVERSAL 16) 0 asn_DEF_ClientSlot]
    (MkSeqSpecs
      [MkTag2member (asn_tag ASN_TAG_CLASS_UNIVERSAL 16) 0 0 1;
      MkTag2member (asn_tag ASN_TAG_CLASS_UNIVERSAL 16) 1 (- 1) 0] 1 3).

Definition asn_DEF_ConnectClientRes : asn_TYPE_descriptor :=
  TD_SEQUENCE [asn_tag ASN_TAG_CLASS_UNIVERSAL 16]
    [MkMember ATF_NOFLAGS 0 (asn_tag ASN_TAG_CLASS_UNIVERSAL 16) 0 asn_DEF_ComponentIdentity;
     MkMember ATF_NOFLAGS 0 (asn_tag ASN_TAG_CLASS_UNIVERSAL 10) 0 asn_DEF_ResultCode]
    (MkSeqSpecs
      [MkTag2member (asn_tag ASN_TAG_CLASS_UNIVERSAL 10) 1 0 0;
      MkTag2member (asn_tag ASN_TAG_CLASS_UNIVERSAL 16) 0 0 0] 1 3).

Definition asn_DEF_BankSlot : asn_TYPE_descriptor :=
  TD_SEQUENCE [asn_tag ASN_TAG_CLASS_UNIVERSAL 16]
    [MkMember ATF_NOFLAGS 0 (asn_tag ASN_TAG_CLASS_UNIVERSAL 2) 0 asn_DEF_BankId;
     MkMember ATF_NOFLAGS 0 (asn_tag ASN_TAG_CLASS_UNIVERSAL 2) 0 asn_DEF_SlotNumber]
    (MkSeqSpecs
      [MkTag2member (asn_tag ASN_TAG_CLASS_UNIVERSAL 2) 0 0 1;
      MkTag2member (asn_tag ASN_TAG_CLASS_UNIVERSAL 2) 1 (- 1) 0] 1 3).

Definition asn_DEF_CreateMappingReq : asn_TYPE_descriptor :=
  TD_SEQUENCE [asn_tag ASN_TAG_CLASS_UNIVERSAL 16]
    [MkMember ATF_NOFLAGS 0 (asn_tag ASN_TAG_CLASS_UNIVERSAL 16) 0 asn_DEF_ClientSlot;
     MkMember ATF_NOFLAGS 0 (asn_tag ASN_TAG_CLASS_UNIVERSAL 16) 0 asn_DEF_BankSlot]
    (MkSeqSpecs
      [MkTag2member (asn_tag ASN_TAG_CLASS_UNIVERSAL 16) 0 0 1;
      MkTag2member (asn_tag ASN_TAG_CLASS_UNIVERSAL 16) 1 (- 1) 0] 1 3).

Definition asn_DEF_CreateMappingRes : asn_TYPE_descriptor :=
  TD_SEQUENCE [asn_tag ASN_TAG_CLASS_UNIVERSAL 16]
    [MkMember ATF_NOFLAGS 0 (asn_tag ASN_TAG_CLASS_UNIVERSAL 10) 0 asn_DEF_ResultCode]
    (MkSeqSpecs
      [MkTag2member (asn_tag ASN_TAG_CLASS_UNIVERSAL 10) 0 0 0] 0 2).

Definition asn_DEF_RemoveMappingReq : asn_TYPE_descriptor :=
  TD_SEQUENCE [asn_tag ASN_TAG_CLASS_UNIVERSAL 16]
    [MkMember ATF_NOFLAGS 0 (asn_tag ASN_TAG_CLASS_UNIVERSAL 16) 0 asn_DEF_ClientSlot;
     MkMember ATF_NOFLAGS 0 (asn_tag ASN_TAG_CLASS_UNIVERSAL 16) 0 asn_DEF_BankSlot]
    (MkSeqSpecs
      [MkTag2member (asn_tag ASN_TAG_CLASS_UNIVERSAL 16) 0 0 1;
      MkTag2member (asn_tag ASN_TAG_CLASS_UNIVERSAL 16) 1 (- 1) 0] 1 3).

Definition asn_DEF_RemoveMappingRes : asn_TYPE_descriptor :=
  TD_SEQUENCE [asn_tag ASN_TAG_CLASS_UNIVERSAL 16]
    [MkMember ATF_NOFLAGS 0 (asn_tag ASN_TAG_CLASS_UNIVERSAL 10) 0 asn_DEF_ResultCode]
    (MkSeqSpecs
      [MkTag2member (asn_tag ASN_TAG_CLASS_UNIVERSAL 10) 0 0 0] 0 2).

Definition asn_DEF_ConfigClientIdReq : asn_TYPE_descriptor :=
  TD_SEQUENCE [asn_tag ASN_TAG_CLASS_UNIVERSAL 16]
    [MkMember ATF_NOFLAGS 0 (asn_tag ASN_TAG_CLASS_UNIVERSAL 16) 0 asn_DEF_ClientSlot]
    (MkSeqSpecs
      [MkTag2member (asn_tag ASN_TAG_CLASS_UNIVERSAL 16) 0 0 0] 0 2).

Definition asn_DEF_ConfigClientIdRes : asn_TYPE_descriptor :=
  TD_SEQUENCE [asn_tag ASN_TAG_CLASS_UNIVERSAL 16]
    [MkMember ATF_NOFLAGS 0 (asn_tag ASN_TAG_CLASS_UNIVERSAL 10) 0 asn_DEF_ResultCode]
    (MkSeqSpecs
      [MkTag2member (asn_tag ASN_TAG_CLASS_UNIVERSAL 10) 0 0 0] 0 2).

Definition asn_DEF_Ipv4Address : asn_TYPE_descriptor :=
  TD_OCTET_STRING [asn_tag ASN_TAG_CLASS_UNIVERSAL 4].

Definition asn_DEF_Ipv6Address : asn_TYPE_descriptor :=
  TD_OCTET_STRING [asn_tag ASN_TAG_CLASS_UNIVERSAL 4].

Definition asn_DEF_IpAddress : asn_TYPE_descriptor :=
  TD_CHOICE []
    [MkMember ATF_NOFLAGS 0 (asn_tag ASN_TAG_CLASS_CONTEXT 0) (- 1) asn_DEF_Ipv4Address;
     MkMember ATF_NOFLAGS 0 (asn_tag ASN_TAG_CLASS_CONTEXT 1) (- 1) asn_DEF_Ipv6Address]
    (MkChoiceSpecs
      [MkTag2member (asn_tag ASN_TAG_CLASS_CONTEXT 0) 0 0 0;
      MkTag2member (asn_tag ASN_TAG_CLASS_CONTEXT 1) 1 0 0] (- 1)).

Definition asn_DEF_PortNumber : asn_TYPE_descriptor :=
  TD_NativeInteger [asn_tag ASN_TAG_CLASS_UNIVERSAL 2].

Definition asn_DEF_IpPort : asn_TYPE_descriptor :=
  TD_SEQUENCE [asn_tag ASN_TAG_CLASS_UNIVERSAL 16]
    [MkMember ATF_NOFLAGS 0 (2 ^ 32 - 1) 0 asn_DEF_IpAddress;
     MkMember ATF_NOFLAGS 0 (asn_tag ASN_TAG_CLASS_UNIVERSAL 2) 0 asn_DEF_PortNumber]
    (MkSeqSpecs
      [MkTag2member (asn_tag ASN_TAG_CLASS_UNIVERSAL 2) 1 0 0;
      MkTag2member (asn_tag ASN_TAG_CLASS_CONTEXT 0) 0 0 0;
      MkTag2member (asn_tag ASN_TAG_CLASS_CONTEXT 1) 0 0 0] (- 1) (- 1)).

Definition asn_DEF_ConfigClientBankReq : asn_TYPE_descriptor :=
  TD_SEQUENCE [asn_tag ASN_TAG_CLASS_UNIVERSAL 16]
    [MkMember ATF_NOFLAGS 0 (asn_tag ASN_TAG_CLASS_UNIVERSAL 16) 0 asn_DEF_BankSlot;
     MkMember ATF_NOFLAGS 0 (asn_tag ASN_TAG_CLASS_UNIVERSAL 16) 0 asn_DEF_IpPort]
    (MkSeqSpecs
      [MkTag2member (asn_tag ASN_TAG_CLASS_UNIVERSAL 16) 0 0 1;
      MkTag2member (asn_tag ASN_TAG_CLASS_UNIVERSAL 16) 1 (- 1) 0] 1 3).

Definition asn_DEF_ConfigClientBankRes : asn_TYPE_descriptor :=
  TD_SEQUENCE [asn_tag ASN_TAG_CLASS_UNIVERSAL 16]
    [MkMember ATF_NOFLAGS 0 (asn_tag ASN_TAG_CLASS_UNIVERSAL 10) 0 asn_DEF_ResultCode]
    (MkSeqSpecs
      [MkTag2member (asn_tag ASN_TAG_CLASS_UNIVERSAL 10) 0 0 0] 0 2).

Definition asn_DEF_ErrorSeverity : asn_TYPE_descriptor :=
  TD_NativeInteger [asn_tag ASN_TAG_CLASS_UNIVERSAL 10].

Definition asn_DEF_ErrorCode : asn_TYPE_descriptor :=
  TD_NativeInteger [asn_tag ASN_TAG_CLASS_UNIVERSAL 10].

Definition asn_DEF_ErrorString : asn_TYPE_descriptor :=
  TD_OCTET_STRING [asn_tag ASN_TAG_CLASS_UNIVERSAL 22].

Definition asn_DEF_ErrorInd : asn_TYPE_descriptor :=
  TD_SEQUENCE [asn_tag ASN_TAG_CLASS_UNIVERSAL 16]
    [MkMember ATF_NOFLAGS 0 (asn_tag ASN_TAG_CLASS_UNIVERSAL 10) 0 asn_DEF_ComponentType;
     MkMember ATF_NOFLAGS 0 (asn_tag ASN_TAG_CLASS_UNIVERSAL 10) 0 asn_DEF_ErrorSeverity;
     MkMember ATF_NOFLAGS 0 (asn_tag ASN_TAG_CLASS_UNIVERSAL 10) 0 asn_DEF_ErrorCode;
     MkMember ATF_POINTER 3 (asn_tag ASN_TAG_CLASS_CONTEXT 0) (- 1) asn_DEF_BankSlot;
     MkMember ATF_POINTER 2 (asn_tag ASN_TAG_CLASS_CONTEXT 1) (- 1) asn_DEF_ClientSlot;
     MkMember ATF_POINTER 1 (asn_tag ASN_TAG_CLASS_CONTEXT 2) (- 1) asn_DEF_ErrorString]
    (MkSeqSpecs
      [MkTag2member (asn_tag ASN_TAG_CLASS_UNIVERSAL 10) 0 0 2;
      MkTag2member (asn_tag ASN_TAG_CLASS_UNIVERSAL 10) 1 (- 1) 1;
      MkTag2member (asn_tag ASN_TAG_CLASS_UNIVERSAL 10) 2 (- 2) 0;
      MkTag2member (asn_tag ASN_TAG_CLASS_CONTEXT 0) 3 0 0;
      MkTag2member (asn_tag ASN_TAG_CLASS_CONTEXT 1) 4 0 0;
      MkTag2member (asn_tag ASN_TAG_CLASS_CONTEXT 2) 5 0 0] 5 7).

Definition asn_DEF_ResetStateReq : asn_TYPE_descriptor :=
  TD_SEQUENCE [asn_tag ASN_TAG_CLASS_UNIVERSAL 16] []
    (MkSeqSpecs [] (- 1) (- 1)).

Definition asn_DEF_ResetStateRes : asn_TYPE_descriptor :=
  TD_SEQUENCE [asn_tag ASN_TAG_CLASS_UNIVERSAL 16]
    [MkMember ATF_NOFLAGS 0 (asn_tag ASN_TAG_CLASS_UNIVERSAL 10) 0 asn_DEF_ResultCode]
    (MkSeqSpecs
      [MkTag2member (asn_tag ASN_TAG_CLASS_UNIVERSAL 10) 0 0 0] 0 2).

Definition asn_DEF_ATR : asn_TYPE_descriptor :=
  TD_OCTET_STRING [asn_tag ASN_TAG_CLASS_UNIVERSAL 4].

Definition asn_DEF_SetAtrReq : asn_TYPE_descriptor :=
  TD_SEQUENCE [asn_tag ASN_TAG_CLASS_UNIVERSAL 16]
    [MkMember ATF_NOFLAGS 0 (asn_tag ASN_TAG_CLASS_UNIVERSAL 16) 0 asn_DEF_ClientSlot;
     MkMember ATF_NOFLAGS 0 (asn_tag ASN_TAG_CLASS_UNIVERSAL 4) 0 asn_DEF_ATR]
    (MkSeqSpecs
      [MkTag2member (asn_tag ASN_TAG_CLASS_UNIVERSAL 4) 1 0 0;
      MkTag2member (asn_tag ASN_TAG_CLASS_UNIVERSAL 16) 0 0 0] 1 3).

Definition asn_DEF_SetAtrRes : asn_TYPE_descriptor :=
  TD_SEQUENCE [asn_tag ASN_TAG_CLASS_UNIVERSAL 16]
    [MkMember ATF_NOFLAGS 0 (asn_tag ASN_TAG_CLASS_UNIVERSAL 10) 0 asn_DEF_ResultCode]
    (MkSeqSpecs
      [MkTag2member (asn_tag ASN_TAG_CLASS_UNIVERSAL 10) 0 0 0] 0 2).

Definition asn_DEF_BOOLEAN : asn_TYPE_descriptor :=
  TD_BOOLEAN [asn_tag ASN_TAG_CLASS_UNIVERSAL 1].

Definition asn_DEF_TpduFlags : asn_TYPE_descriptor :=
  TD_SEQUENCE [asn_tag ASN_TAG_CLASS_UNIVERSAL 16]
    [MkMember ATF_NOFLAGS 0 (asn_tag ASN_TAG_CLASS_UNIVERSAL 1) 0 asn_DEF_BOOLEAN;
     MkMember ATF_NOFLAGS 0 (asn_tag ASN_TAG_CLASS_UNIVERSAL 1) 0 asn_DEF_BOOLEAN;
     MkMember ATF_NOFLAGS 0 (asn_tag ASN_TAG_CLASS_UNIVERSAL 1) 0 asn_DEF_BOOLEAN;
     MkMember ATF_NOFLAGS 0 (asn_tag ASN_TAG_CLASS_UNIVERSAL 1) 0 asn_DEF_BOOLEAN]
    (MkSeqSpecs
      [MkTag2member (asn_tag ASN_TAG_CLASS_UNIVERSAL 1) 0 0 3;
      MkTag2member (asn_tag ASN_TAG_CLASS_UNIVERSAL 1) 1 (- 1) 2;
      MkTag2member (asn_tag ASN_TAG_CLASS_UNIVERSAL 1) 2 (- 2) 1;
      MkTag2member (asn_tag ASN_TAG_CLASS_UNIVERSAL 1) 3 (- 3) 0] 3 5).

Definition asn_DEF_OCTET_STRING : asn_TYPE_descriptor :=
  TD_OCTET_STRING [asn_tag ASN_TAG_CLASS_UNIVERSAL 4].

Definition asn_DEF_TpduModemToCard : asn_TYPE_descriptor :=
  TD_SEQUENCE [asn_tag ASN_TAG_CLASS_UNIVERSAL 16]
    [MkMember ATF_NOFLAGS 0 (asn_tag ASN_TAG_CLASS_UNIVERSAL 16) 0 asn_DEF_ClientSlot;
     MkMember ATF_NOFLAGS 0 (asn_tag ASN_TAG_CLASS_UNIVERSAL 16) 0 asn_DEF_BankSlot;
     MkMember ATF_NOFLAGS 0 (asn_tag ASN_TAG_CLASS_UNIVERSAL 16) 0 asn_DEF_TpduFlags;
     MkMember ATF_NOFLAGS 0 (asn_tag ASN_TAG_CLASS_UNIVERSAL 4) 0 asn_DEF_OCTET_STRING]
    (MkSeqSpecs
      [MkTag2member (asn_tag ASN_TAG_CLASS_UNIVERSAL 4) 3 0 0;
      MkTag2member (asn_tag ASN_TAG_CLASS_UNIVERSAL 16) 0 0 2;
      MkTag2member (asn_tag ASN_TAG_CLASS_UNIVERSAL 16) 1 (- 1) 1;
      MkTag2member (asn_tag ASN_TAG_CLASS_UNIVERSAL 16) 2 (- 2) 0] 3 5).

Definition asn_DEF_TpduCardToModem : asn_TYPE_descriptor :=
  TD_SEQUENCE [asn_tag ASN_TAG_CLASS_UNIVERSAL 16]
    [MkMember ATF_NOFLAGS 0 (asn_tag ASN_TAG_CLASS_UNIVERSAL 16) 0 asn_DEF_BankSlot;
     MkMember ATF_NOFLAGS 0 (asn_tag ASN_TAG_CLASS_UNIVERSAL 16) 0 asn_DEF_ClientSlot;
     MkMember ATF_NOFLAGS 0 (asn_tag ASN_TAG_CLASS_UNIVERSAL 16) 0 asn_DEF_TpduFlags;
     MkMember ATF_NOFLAGS 0 (asn_tag ASN_TAG_CLASS_UNIVERSAL 4) 0 asn_DEF_OCTET_STRING]
    (MkSeqSpecs
      [MkTag2member (asn_tag ASN_TAG_CLASS_UNIVERSAL 4) 3 0 0;
      MkTag2member (asn_tag ASN_TAG_CLASS_UNIVERSAL 16) 0 0 2;
      MkTag2member (asn_tag ASN_TAG_CLASS_UNIVERSAL 16) 1 (- 1) 1;
      MkTag2member (asn_tag ASN_TAG_CLASS_UNIVERSAL 16) 2 (- 2) 0] 3 5).

Definition asn_DEF_SlotPhysStatus : asn_TYPE_descriptor :=
  TD_SEQUENCE [asn_tag ASN_TAG_CLASS_UNIVERSAL 16]
    [MkMember ATF_NOFLAGS 0 (asn_tag ASN_TAG_CLASS_CONTEXT 0) (- 1) asn_DEF_BOOLEAN;
     MkMember ATF_POINTER 3 (asn_tag ASN_TAG_CLASS_CONTEXT 1) (- 1) asn_DEF_BOOLEAN;
     MkMember ATF_POINTER 2 (asn_tag ASN_TAG_CLASS_CONTEXT 2) (- 1) asn_DEF_BOOLEAN;
     MkMember ATF_POINTER 1 (asn_tag ASN_TAG_CLASS_CONTEXT 3) (- 1) asn_DEF_BOOLEAN]
    (MkSeqSpecs
      [MkTag2member (asn_tag ASN_TAG_CLASS_CONTEXT 0) 0 0 0;
      MkTag2member (asn_tag ASN_TAG_CLASS_CONTEXT 1) 1 0 0;
      MkTag2member (asn_tag ASN_TAG_CLASS_CONTEXT 2) 2 0 0;
      MkTag2member (asn_tag ASN_TAG_CLASS_CONTEXT 3) 3 0 0] 3 5).

Definition asn_DEF_ClientSlotStatusInd : asn_TYPE_descriptor :=
  TD_SEQUENCE [asn_tag ASN_TAG_CLASS_UNIVERSAL 16]
    [MkMember ATF_NOFLAGS 0 (asn_tag ASN_TAG_CLASS_UNIVERSAL 16) 0 asn_DEF_ClientSlot;
     MkMember ATF_NOFLAGS 0 (asn_tag ASN_TAG_CLASS_UNIVERSAL 16) 0 asn_DEF_BankSlot;
     MkMember ATF_NOFLAGS 0 (asn_tag ASN_TAG_CLASS_UNIVERSAL 16) 0 asn_DEF_SlotPhysStatus]
    (MkSeqSpecs
      [MkTag2member (asn_tag ASN_TAG_CLASS_UNIVERSAL 16) 0 0 2;
      MkTag2member (asn_tag ASN_TAG_CLASS_UNIVERSAL 16) 1 (- 1) 1;
      MkTag2member (asn_tag ASN_TAG_CLASS_UNIVERSAL 16) 2 (- 2) 0] 2 4).

Definition asn_DEF_BankSlotStatusInd : asn_TYPE_descriptor :=
  TD_SEQUENCE [asn_tag ASN_TAG_CLASS_UNIVERSAL 16]
    [MkMember ATF_NOFLAGS 0 (asn_tag ASN_TAG_CLASS_UNIVERSAL 16) 0 asn_DEF_BankSlot;
     MkMember ATF_NOFLAGS 0 (asn_tag ASN_TAG_CLASS_UNIVERSAL 16) 0 asn_DEF_ClientSlot;
     MkMember ATF_NOFLAGS 0 (asn_tag ASN_TAG_CLASS_UNIVERSAL 16) 0 asn_DEF_SlotPhysStatus]
    (MkSeqSpecs
      [MkTag2member (asn_tag ASN_TAG_CLASS_UNIVERSAL 16) 0 0 2;
      MkTag2member (asn_tag ASN_TAG_CLASS_UNIVERSAL 16) 1 (- 1) 1;
      MkTag2member (asn_tag ASN_TAG_CLASS_UNIVERSAL 16) 2 (- 2) 0] 2 4).

Definition asn_DEF_RsproPDUchoice : asn_TYPE_descriptor :=
  TD_CHOICE []
    [MkMember ATF_NOFLAGS 0 (asn_tag ASN_TAG_CLASS_CONTEXT 0) (- 1) asn_DEF_ConnectBankReq;
     MkMember ATF_NOFLAGS 0 (asn_tag ASN_TAG_CLASS_CONTEXT 1) (- 1) asn_DEF_ConnectBankRes;
     MkMember ATF_NOFLAGS 0 (asn_tag ASN_TAG_CLASS_CONTEXT 2) (- 1) asn_DEF_ConnectClientReq;
     MkMember ATF_NOFLAGS 0 (asn_tag ASN_TAG_CLASS_CONTEXT 3) (- 1) asn_DEF_ConnectClientRes;
     MkMember ATF_NOFLAGS 0 (asn_tag ASN_TAG_CLASS_CONTEXT 4) (- 1) asn_DEF_CreateMappingReq;
     MkMember ATF_NOFLAGS 0 (asn_tag ASN_TAG_CLASS_CONTEXT 5) (- 1) asn_DEF_CreateMappingRes;
     MkMember ATF_NOFLAGS 0 (asn_tag ASN_TAG_CLASS_CONTEXT 6) (- 1) asn_DEF_RemoveMappingReq;
     MkMember ATF_NOFLAGS 0 (asn_tag ASN_TAG_CLASS_CONTEXT 7) (- 1) asn_DEF_RemoveMappingRes;
     MkMember ATF_NOFLAGS 0 (asn_tag ASN_TAG_CLASS_CONTEXT 8) (- 1) asn_DEF_ConfigClientIdReq;
     MkMember ATF_NOFLAGS 0 (asn_tag ASN_TAG_CLASS_CONTEXT 9) (- 1) asn_DEF_ConfigClientIdRes;
     MkMember ATF_NOFLAGS 0 (asn_tag ASN_TAG_CLASS_CONTEXT 17) (- 1) asn_DEF_ConfigClientBankReq;
     MkMember ATF_NOFLAGS 0 (asn_tag ASN_TAG_CLASS_CONTEXT 18) (- 1) asn_DEF_ConfigClientBankRes;
     MkMember ATF_NOFLAGS 0 (asn_tag ASN_TAG_CLASS_CONTEXT 16) (- 1) asn_DEF_ErrorInd;
     MkMember ATF_NOFLAGS 0 (asn_tag ASN_TAG_CLASS_CONTEXT 19) (- 1) asn_DEF_ResetStateReq;
     MkMember ATF_NOFLAGS 0 (asn_tag ASN_TAG_CLASS_CONTEXT 20) (- 1) asn_DEF_ResetStateRes;
     MkMember ATF_NOFLAGS 0 (asn_tag ASN_TAG_CLASS_CONTEXT 10) (- 1) asn_DEF_SetAtrReq;
     MkMember ATF_NOFLAGS 0 (asn_tag ASN_TAG_CLASS_CONTEXT 11) (- 1) asn_DEF_SetAtrRes;
     MkMember ATF_NOFLAGS 0 (asn_tag ASN_TAG_CLASS_CONTEXT 12) (- 1) asn_DEF_TpduModemToCard;
     MkMember ATF_NOFLAGS 0 (asn_tag ASN_TAG_CLASS_CONTEXT 13) (- 1) asn_DEF_TpduCardToModem;
     MkMember ATF_NOFLAGS 0 (asn_tag ASN_TAG_CLASS_CONTEXT 14) (- 1) asn_DEF_ClientSlotStatusInd;
     MkMember ATF_NOFLAGS 0 (asn_tag ASN_TAG_CLASS_CONTEXT 15) (- 1) asn_DEF_BankSlotStatusInd]
    (MkChoiceSpecs
      [MkTag2member (asn_tag ASN_TAG_CLASS_CONTEXT 0) 0 0 0;
      MkTag2member (asn_tag ASN_TAG_CLASS_CONTEXT 1) 1 0 0;
      MkTag2member (asn_tag ASN_TAG_CLASS_CONTEXT 2) 2 0 0;
      MkTag2member (asn_tag ASN_TAG_CLASS_CONTEXT 3) 3 0 0;
      MkTag2member (asn_tag ASN_TAG_CLASS_CONTEXT 4) 4 0 0;
      MkTag2member (asn_tag ASN_TAG_CLASS_CONTEXT 5) 5 0 0;
      MkTag2member (asn_tag ASN_TAG_CLASS_CONTEXT 6) 6 0 0;
      MkTag2member (asn_tag ASN_TAG_CLASS_CONTEXT 7) 7 0 0;
      MkTag2member (asn_tag ASN_TAG_CLASS_CONTEXT 8) 8 0 0;
      MkTag2member (asn_tag ASN_TAG_CLASS_CONTEXT 9) 9 0 0;
      MkTag2member (asn_tag ASN_TAG_CLASS_CONTEXT 10) 15 0 0;
      MkTag2member (asn_tag ASN_TAG_CLASS_CONTEXT 11) 16 0 0;
      MkTag2member (asn_tag ASN_TAG_CLASS_CONTEXT 12) 17 0 0;
      MkTag2member (asn_tag ASN_TAG_CLASS_CONTEXT 13) 18 0 0;
      MkTag2member (asn_tag ASN_TAG_CLASS_CONTEXT 14) 19 0 0;
      MkTag2member (asn_tag ASN_TAG_CLASS_CONTEXT 15) 20 0 0;
      MkTag2member (asn_tag ASN_TAG_CLASS_CONTEXT 16) 12 0 0;
      MkTag2member (asn_tag ASN_TAG_CLASS_CONTEXT 17) 10 0 0;
      MkTag2member (asn_tag ASN_TAG_CLASS_CONTEXT 18) 11 0 0;
      MkTag2member (asn_tag ASN_TAG_CLASS_CONTEXT 19) 13 0 0;
      MkTag2member (asn_tag ASN_TAG_CLASS_CONTEXT 20) 14 0 0] 21).

Definition asn_DEF_RsproPDU : asn_TYPE_descriptor :=
  TD_SEQUENCE [asn_tag ASN_TAG_CLASS_UNIVERSAL 16]
    [MkMember ATF_NOFLAGS 0 (asn_tag ASN_TAG_CLASS_CONTEXT 0) (- 1) asn_DEF_NativeInteger;
     MkMember ATF_NOFLAGS 0 (asn_tag ASN_TAG_CLASS_CONTEXT 1) (- 1) asn_DEF_OperationTag;
     MkMember ATF_NOFLAGS 0 (asn_tag ASN_TAG_CLASS_CONTEXT 2) 1 asn_DEF_RsproPDUchoice]
    (MkSeqSpecs
      [MkTag2member (asn_tag ASN_TAG_CLASS_CONTEXT 0) 0 0 0;
      MkTag2member (asn_tag ASN_TAG_CLASS_CONTEXT 1) 1 0 0;
      MkTag2member (asn_tag ASN_TAG_CLASS_CONTEXT 2) 2 0 0] (- 1) (- 1)).
