(* ===== verification/X690.v ===== *)
(** * The distinguished encoding of X.690

    The encoding of a value as the standard defines it, by arithmetic on numbers
    and without reference to the run-time: identifier octets (8.1.2), the definite
    form of the length in the fewest octets (8.1.3, 10.1), the INTEGER in the
    fewest octets of two's complement (8.3), the true BOOLEAN of 255 (8.2, 11.1),
    strings, SEQUENCE and CHOICE, implicit and explicit tags (8.14).
    [DerProps.der_encode_equiv] shows that the encoder of the run-time computes
    it. *)

From S2P Require Import Prelude.
From S2P Require Import RsproPdu.
From S2P Require Import AsnTypes.

(** The [n] digits of [v] to the base [b], the most significant one first; of a
    negative number in the complement. *)
Fixpoint digits (b : Z) (n : nat) (v : Z) : octets :=
  match n with
  | O => []
  | S n => (v / b ^ Z.of_nat n) `mod` b :: digits b n v
  end.

(** How many digits to the base [2 ^ w] a number has. *)
Definition digit_count (w v : Z) : nat := S (Z.to_nat (Z.log2 v / w)).

(** ** Identifier and length *)

(** The number of a tag in base 128, bit 8 set in all octets but the last. *)
Fixpoint tag_digits (n : nat) (v : Z) : octets :=
  match n with
  | O => [v `mod` 128]
  | S n' => 128 + (v / 128 ^ Z.of_nat n) `mod` 128 :: tag_digits n' v
  end.

(** The tables hold a tag as its number, times 4, plus its class. *)
Definition identifier (tag : Z) (constructed : bool) : octets :=
  let first := 64 * (tag `mod` 4) + (if constructed then 32 else 0) in
  let number := tag / 4 in
  if number <=? 30 then [first + number]
  else first + 31 :: tag_digits (pred (digit_count 7 number)) number.

Definition definite_length (len : Z) : octets :=
  if len <=? 127 then [len]
  else 128 + Z.of_nat (digit_count 8 len) :: digits 256 (digit_count 8 len) len.

(** ** Contents of an INTEGER *)

(** [n] octets of two's complement hold [z]. *)
Definition holds_integer (n : nat) (z : Z) : Prop :=
  - 2 ^ (8 * Z.of_nat n - 1) ≤ z < 2 ^ (8 * Z.of_nat n - 1).

Definition integer_size (z : Z) : nat :=
  S (Z.to_nat ((Z.log2 (if z <? 0 then - z - 1 else z) + 1) / 8)).

Definition integer_contents (z : Z) : octets := digits 256 (integer_size z) z.

(** The size is the smallest one. *)
Lemma integer_size_least n z : (1 ≤ n)%nat → holds_integer n z ↔ (integer_size z ≤ n)%nat.
Proof.
  intros Hn. set (m := if z <? 0 then - z - 1 else z).
  assert (0 ≤ m) as Hm by (unfold m; destruct (Z.ltb_spec z 0); lia).
  assert (holds_integer n z ↔ m < 2 ^ (8 * Z.of_nat n - 1)) as ->.
  { unfold holds_integer, m. destruct (Z.ltb_spec z 0); lia. }
  unfold integer_size. fold m.
  assert (0 ≤ Z.log2 m) as Hl by apply Z.log2_nonneg.
  assert (m < 2 ^ (8 * Z.of_nat n - 1) ↔ Z.log2 m < 8 * Z.of_nat n - 1) as ->.
  { destruct (decide (m = 0)) as [->|Hne].
    - split; intros _; [cbn; lia|]. apply Z.pow_pos_nonneg; lia.
    - apply Z.log2_lt_pow2. lia. }
  pose proof (Z.div_pos (Z.log2 m + 1) 8 ltac:(lia) ltac:(lia)).
  pose proof (Z.div_mod (Z.log2 m + 1) 8 ltac:(lia)).
  pose proof (Z.mod_pos_bound (Z.log2 m + 1) 8 ltac:(lia)). lia.
Qed.

(** ** Values *)

Definition tagged (tag : Z) (constructed : bool) (contents : octets) : octets :=
  identifier tag constructed ++ definite_length (Z.of_nat (length contents)) ++ contents.

(** Several tags: each one encloses the next, and only the last may be primitive. *)
Fixpoint enclosed (tags : list Z) (constructed : bool) (contents : octets) : octets :=
  match tags with
  | [] => contents
  | [tag] => tagged tag constructed contents
  | tag :: tags => tagged tag true (enclosed tags constructed contents)
  end.

(** The tags of a member: an implicit one (-1) replaces the first of its type, an
    explicit one (1) encloses it. *)
Definition member_tags (mode tag : Z) (tags : list Z) : list Z :=
  if mode =? 0 then tags else if mode =? - 1 then tag :: tail tags else tag :: tags.

Fixpoint x690_members {T} (els : list (asn_TYPE_member T)) (encs : list (asn_value → Z → Z → option octets))
    (vs : list (option asn_value)) : option octets :=
  match els, encs, vs with
  | elm :: els, enc :: encs, v :: vs =>
      b ← match v with Some v => enc v (tag_mode elm) (m_tag elm) | None => Some [] end;
      rest ← x690_members els encs vs;
      Some (b ++ rest)
  | [], _, _ => Some []
  | _, _, _ => None
  end.

(** A CHOICE has no tag of its own, unless it is given one: it is the encoding of
    the chosen alternative. *)
Fixpoint x690 (td : asn_TYPE_descriptor) (v : asn_value) (mode tag : Z) {struct td} : option octets :=
  match td, v with
  | TD_NativeInteger tags, VLong z => Some (enclosed (member_tags mode tag tags) false (integer_contents z))
  | TD_BOOLEAN tags, VBool b => Some (enclosed (member_tags mode tag tags) false [if b =? 0 then 0 else 255])
  | TD_OCTET_STRING tags, VString s => Some (enclosed (member_tags mode tag tags) false s)
  | TD_SEQUENCE tags els _, VSeq vs =>
      enclosed (member_tags mode tag tags) true <$> x690_members els (map (λ e, x690 (m_type e)) els) vs
  | TD_CHOICE tags els _, VChoice present (Some v) =>
      elm ← els !! Z.to_nat (present - 1);
      enc ← map (λ e, x690 (m_type e)) els !! Z.to_nat (present - 1);
      b ← enc v (tag_mode elm) (m_tag elm);
      Some (match tags with
            | [] => if mode =? 1 then tagged tag true b else b
            | _ => enclosed (member_tags mode tag tags) true b
            end)
  | TD_CHOICE _ els _, VChoice _ None => match els with [] => Some [] | _ => None end
  | _, _ => None
  end.

Example x690_status :
  x690 (TD_SEQUENCE [asn_tag ASN_TAG_CLASS_UNIVERSAL 16]
          [MkMember ATF_NOFLAGS 0 (asn_tag ASN_TAG_CLASS_CONTEXT 0) (- 1)
             (TD_BOOLEAN [asn_tag ASN_TAG_CLASS_UNIVERSAL 1]);
           MkMember ATF_NOFLAGS 0 (asn_tag ASN_TAG_CLASS_CONTEXT 40) (- 1)
             (TD_NativeInteger [asn_tag ASN_TAG_CLASS_UNIVERSAL 2])]
          (MkSeqSpecs [] (- 1) (- 1))) (VSeq [Some (VBool 1); Some (VLong (- 129))]) 0 0 =
  Some [48; 8; 128; 1; 255; 159; 40; 2; 255; 127].
Proof. reflexivity. Qed.
