(* ===== verification/DerEncoder.v ===== *)
(** * The DER encoder of the run-time

    [rspro/der_encoder.c] and the encoders of the types: [NativeInteger.c],
    [INTEGER.c], [asn_codecs_prim.c], [BOOLEAN.c], [OCTET_STRING.c],
    [constr_SEQUENCE.c], [constr_CHOICE.c].

    An encoder runs in two modes: without call-back it only estimates the number
    of octets, with one it also emits them.  [cb] says which; the result is the
    member [encoded] with everything that was given to the call-back, or [None]
    for -1.  The call-back of [der_encode_to_buffer] fails for the first piece
    that no longer fits, and every encoder passes this failure on, so the
    bound is tested once, on all that was emitted. *)

From S2P Require Import Prelude.
From S2P Require Import RsproPdu.
From S2P Require Import BerTlv.
From S2P Require Import AsnTypes.

Abbreviation enc_rval := (option (Z * octets)).

(** What the call-back gets. *)
Definition emit (cb : bool) (b : octets) : octets := if cb then b else [].

(** [buf] has 32 octets, none of which is used to estimate. *)
Definition der_write_TL (tag len : Z) (cb constructed : bool) : enc_rval :=
  let buf_size := if cb then 32%nat else 0%nat in
  let '(tl, t) := ber_tlv_tag_serialize tag buf_size in
  if (32 <? tl)%nat then None
  else
    let '(ll, l) := der_tlv_length_serialize len (buf_size - tl) in
    if (32 <? tl + ll)%nat then None
    else Some (Z.of_nat (tl + ll), emit cb (set_constructed constructed (t ++ l))).

(** The lengths in [lens], from right to left, with the overall length. *)
Fixpoint tag_lens (tags : list Z) (struct_length : Z) : option (list Z * Z) :=
  match tags with
  | [] => Some ([], struct_length)
  | tag :: tags =>
      '(lens, overall) ← tag_lens tags struct_length;
      '(n, _) ← der_write_TL tag overall false false;
      Some (overall :: lens, overall + n)
  end.

(** Writing the sequence of tags and lengths. *)
Fixpoint write_TLs (tags lens : list Z) (last_tag_form : bool) : option octets :=
  match tags, lens with
  | tag :: tags, len :: lens =>
      let constr := last_tag_form || negb (bool_decide (tags = [])) in
      '(_, b) ← der_write_TL tag len true constr;
      rest ← write_TLs tags lens last_tag_form;
      Some (b ++ rest)
  | _, _ => Some []
  end.

(** The tags of a type whose context asks for the tag [tag]: before its own
    ones ([tag_mode] is 1), instead of the first one (-1) or not at all (0). *)
Definition effective_tags (tags : list Z) (tag_mode tag : Z) : list Z :=
  if tag_mode =? 0 then tags
  else tag :: (if (tag_mode =? - 1) && negb (bool_decide (tags = [])) then tail tags else tags).

Definition der_write_tags (tags : list Z) (struct_length tag_mode : Z) (last_tag_form : bool)
    (tag : Z) (cb : bool) : enc_rval :=
  let tags := effective_tags tags tag_mode tag in
  '(lens, overall) ← tag_lens tags struct_length;
  if negb cb then Some (overall - struct_length, [])
  else b ← write_TLs tags lens last_tag_form; Some (overall - struct_length, b).

Definition der_encode_primitive (tags : list Z) (buf : octets) (tag_mode tag : Z) (cb : bool) : enc_rval :=
  '(n, b) ← der_write_tags tags (Z.of_nat (length buf)) tag_mode false tag cb;
  Some (n + Z.of_nat (length buf), b ++ emit cb buf).

(** The leading octets that only extend the sign are dropped, but for the last
    one. *)
Fixpoint drop_sign_extension (buf : octets) : octets :=
  match buf with
  | b :: ((b1 :: _) as rest) =>
      if ((b =? 0) && negb (Z.testbit b1 7)) || ((b =? 255) && Z.testbit b1 7)
      then drop_sign_extension rest else buf
  | _ => buf
  end.

Definition INTEGER_encode_der (tags : list Z) (buf : octets) (tag_mode tag : Z) (cb : bool) : enc_rval :=
  der_encode_primitive tags (drop_sign_extension buf) tag_mode tag cb.

(** The octets of an [unsigned long], most significant first. *)
Fixpoint big_endian (n : nat) (native : Z) : octets :=
  match n with
  | O => []
  | S n => big_endian n (Z.shiftr native 8) ++ [u8 native]
  end.

Definition NativeInteger_encode_der (tags : list Z) (native tag_mode tag : Z) (cb : bool) : enc_rval :=
  INTEGER_encode_der tags (big_endian 8 (wrap 64 native)) tag_mode tag cb.

Definition BOOLEAN_encode_der (tags : list Z) (st tag_mode tag : Z) (cb : bool) : enc_rval :=
  '(n, b) ← der_write_tags tags 1 tag_mode false tag cb;
  Some (n + 1, b ++ emit cb [if st =? 0 then 0 else 255]).

(** The variants for BIT STRING and ANY are not used. *)
Definition OCTET_STRING_encode_der (tags : list Z) (buf : octets) (tag_mode tag : Z) (cb : bool) : enc_rval :=
  '(n, b) ← der_write_tags tags (Z.of_nat (length buf)) tag_mode false tag cb;
  Some (n + Z.of_nat (length buf), b ++ emit cb buf).

(** The encoders of the members, which get their tag mode and tag. *)
Abbreviation member_encoder := (asn_value → Z → Z → bool → enc_rval).

(** The loop over the members.  A NULL pointer is skipped if the member is
    optional, and while encoding in any case. *)
Fixpoint SEQUENCE_members {T} (els : list (asn_TYPE_member T)) (encs : list member_encoder)
    (vs : list (option asn_value)) (cb : bool) : enc_rval :=
  match els, encs, vs with
  | elm :: els, enc :: encs, v :: vs =>
      '(n, b) ← match v with
                | None => if is_pointer elm && (cb || negb (optional elm =? 0)%nat)
                          then Some (0, []) else None
                | Some v => enc v (tag_mode elm) (m_tag elm) cb
                end;
      '(n', b') ← SEQUENCE_members els encs vs cb;
      Some (n + n', b ++ b')
  | [], _, _ => Some (0, [])
  | _, _, _ => None
  end.

Definition SEQUENCE_encode_der {T} (tags : list Z) (els : list (asn_TYPE_member T))
    (encs : list member_encoder) (vs : list (option asn_value)) (tag_mode tag : Z) (cb : bool) : enc_rval :=
  '(computed_size, _) ← SEQUENCE_members els encs vs false;
  '(ret, b) ← der_write_tags tags computed_size tag_mode true tag cb;
  if negb cb then Some (computed_size + ret, [])
  else
    '(n, b') ← SEQUENCE_members els encs vs true;
    if computed_size - n =? 0 then Some (computed_size + ret, b ++ b') else None.

Definition CHOICE_encode_der {T} (tags : list Z) (els : list (asn_TYPE_member T))
    (encs : list member_encoder) (present : Z) (memb : option asn_value) (tag_mode tag : Z) (cb : bool) : enc_rval :=
  if (present <=? 0) || (Z.of_nat (length els) <? present) then
    if (present =? 0) && bool_decide (length els = 0%nat) then Some (0, []) else None
  else
    elm ← els !! Z.to_nat (present - 1);
    enc ← encs !! Z.to_nat (present - 1);
    match memb with
    | None => if is_pointer elm && negb (optional elm =? 0)%nat then Some (0, []) else None
    | Some v =>
        '(computed_size, b) ←
          (if (tag_mode =? 1) || negb (bool_decide (tags = [])) then
             '(n, _) ← enc v (AsnTypes.tag_mode elm) (m_tag elm) false;
             der_write_tags tags n tag_mode true tag cb
           else Some (0, []));
        '(n, b') ← enc v (AsnTypes.tag_mode elm) (m_tag elm) cb;
        Some (n + computed_size, b ++ b')
    end.

(** [td->der_encoder] *)
Fixpoint der_encoder (td : asn_TYPE_descriptor) (v : asn_value) (tag_mode tag : Z) (cb : bool) {struct td} : enc_rval :=
  match td, v with
  | TD_NativeInteger tags, VLong native => NativeInteger_encode_der tags native tag_mode tag cb
  | TD_BOOLEAN tags, VBool st => BOOLEAN_encode_der tags st tag_mode tag cb
  | TD_OCTET_STRING tags, VString buf => OCTET_STRING_encode_der tags buf tag_mode tag cb
  | TD_SEQUENCE tags els _, VSeq vs =>
      SEQUENCE_encode_der tags els (map (λ e, der_encoder (m_type e)) els) vs tag_mode tag cb
  | TD_CHOICE tags els _, VChoice present memb =>
      CHOICE_encode_der tags els (map (λ e, der_encoder (m_type e)) els) present memb tag_mode tag cb
  | _, _ => None
  end.

Definition der_encode (td : asn_TYPE_descriptor) (v : asn_value) : enc_rval := der_encoder td v 0 0 true.

(** [assert(ec.encoded == buffer_size - arg.left)] *)
Definition der_encode_to_buffer (td : asn_TYPE_descriptor) (v : asn_value) (buffer_size : Z)
    : outcome (option octets) :=
  match der_encode td v with
  | None => Done None
  | Some (encoded, b) =>
      if buffer_size <? Z.of_nat (length b) then Done None
      else if encoded =? Z.of_nat (length b) then Done (Some b) else Panic
  end.
