(* ===== verification/DerProps.v ===== *)
(** * The encoder writes the distinguished encoding

    [der] puts the octets of the encoder together without its estimates and its
    buffer; [der_encoder_encodes] shows that the encoder writes them, and [der_x690]
    that they are what the standard says ([X690.x690], which shares no definition
    with the encoder).  [der_encode_equiv] is the two together. *)

From S2P Require Import Prelude.
From S2P Require Import RsproPdu.
From S2P Require Import BerTlv.
From S2P Require Import AsnTypes.
From S2P Require Import RsproTables.
From S2P Require Import X690.
From S2P Require Import DerEncoder.

(** ** The octets without estimates *)

Definition tlv (tag : Z) (constructed : bool) (contents : octets) : octets :=
  set_constructed constructed (tag_octets tag) ++ len_octets (Z.of_nat (length contents)) ++ contents.

(** Several tags around the contents, all but the last one constructed. *)
Fixpoint tlvs (tags : list Z) (last_form : bool) (contents : octets) : octets :=
  match tags with
  | [] => contents
  | [tag] => tlv tag last_form contents
  | tag :: tags => tlv tag true (tlvs tags last_form contents)
  end.

(** The shortest two's complement of a [long]. *)
Definition int_octets (z : Z) : octets := drop_sign_extension (big_endian 8 (wrap 64 z)).

(** The members of a SEQUENCE one after the other, without the absent ones. *)
Fixpoint der_members {T} (els : list (asn_TYPE_member T)) (ders : list (asn_value → Z → Z → option octets))
    (vs : list (option asn_value)) : option octets :=
  match els, ders, vs with
  | elm :: els, der :: ders, v :: vs =>
      b ← match v with Some v => der v (tag_mode elm) (m_tag elm) | None => Some [] end;
      rest ← der_members els ders vs;
      Some (b ++ rest)
  | [], _, _ => Some []
  | _, _, _ => None
  end.

Fixpoint der (td : asn_TYPE_descriptor) (v : asn_value) (tag_mode tag : Z) {struct td} : option octets :=
  let tags := effective_tags (td_tags td) tag_mode tag in
  match td, v with
  | TD_NativeInteger _, VLong z => Some (tlvs tags false (int_octets z))
  | TD_BOOLEAN _, VBool b => Some (tlvs tags false [if b =? 0 then 0 else 255])
  | TD_OCTET_STRING _, VString s => Some (tlvs tags false s)
  | TD_SEQUENCE _ els _, VSeq vs => tlvs tags true <$> der_members els (map (λ e, der (m_type e)) els) vs
  | TD_CHOICE own els _, VChoice present (Some v) =>
      elm ← els !! Z.to_nat (present - 1);
      der ← map (λ e, der (m_type e)) els !! Z.to_nat (present - 1);
      b ← der v (AsnTypes.tag_mode elm) (m_tag elm);
      Some (if (tag_mode =? 1) || negb (bool_decide (own = [])) then tlvs tags true b else b)
  | TD_CHOICE _ els _, VChoice present None => if (present =? 0) && bool_decide (length els = 0%nat) then Some [] else None
  | _, _ => None
  end.

(** ** Tags of the tables *)

Definition tag_ok (t : Z) : bool := (0 <=? t) && (t <? 2 ^ 32).

Fixpoint tags_ok (td : asn_TYPE_descriptor) : bool :=
  forallb tag_ok (td_tags td) &&
  match td with
  | TD_SEQUENCE _ els _ | TD_CHOICE _ els _ => forallb (λ e, tag_ok (m_tag e) && tags_ok (m_type e)) els
  | _ => true
  end.

Lemma tag_ok_range t : tag_ok t = true → 0 ≤ t < 2 ^ 32.
Proof. unfold tag_ok. lia. Qed.

Lemma effective_tags_ok tags tm tag :
  forallb tag_ok tags = true → tag_ok tag = true → forallb tag_ok (effective_tags tags tm tag) = true.
Proof.
  intros Ht Htag. unfold effective_tags. destruct (tm =? 0); [done|]. cbn. rewrite Htag. cbn.
  destruct ((tm =? - 1) && negb (bool_decide (tags = []))); [|done]. destruct tags as [|t tags]; [done|].
  by apply andb_true_iff in Ht as [_ ?].
Qed.

(** ** Writing tags and lengths *)

Lemma set_constructed_length c b : length (set_constructed c b) = length b.
Proof. by destruct b. Qed.

Lemma set_constructed_app c a b : a ≠ [] → set_constructed c (a ++ b) = set_constructed c a ++ b.
Proof. by destruct a. Qed.

Lemma tlv_length tag c contents : length (tlv tag c contents) =
  (length (tag_octets tag) + length (len_octets (Z.of_nat (length contents))) + length contents)%nat.
Proof. unfold tlv. rewrite !length_app, set_constructed_length. lia. Qed.

Lemma write_TL tag len c cb : tag_ok tag = true → 0 ≤ len < 2 ^ 63 →
  der_write_TL tag len cb c =
    Some (Z.of_nat (length (tag_octets tag) + length (len_octets len)),
          emit cb (set_constructed c (tag_octets tag) ++ len_octets len)).
Proof.
  intros Ht Hl. destruct (tag_octets_length tag (tag_ok_range _ Ht)) as (Hn&Ht0&Ht1).
  destruct (len_octets_length len Hl) as (Hm&Hl0&Hl1). unfold der_write_TL. destruct cb.
  - rewrite Ht1 by lia. destruct (Nat.ltb_spec 32 (length (tag_octets tag))); [lia|].
    rewrite Hl1 by lia.
    destruct (Nat.ltb_spec 32 (length (tag_octets tag) + length (len_octets len))); [lia|].
    rewrite set_constructed_app; [done|]. intros E. rewrite E in Hn. cbn in Hn. lia.
  - destruct (ber_tlv_tag_serialize tag 0) as [n b]. cbn in Ht0. subst n.
    destruct (Nat.ltb_spec 32 (length (tag_octets tag))); [lia|].
    change (0 - length (tag_octets tag))%nat with 0%nat.
    destruct (der_tlv_length_serialize len 0) as [n b']. cbn in Hl0. subst n.
    destruct (Nat.ltb_spec 32 (length (tag_octets tag) + length (len_octets len))); [lia|done].
Qed.

Lemma tlvs_length_ge tags form contents : (length contents ≤ length (tlvs tags form contents))%nat.
Proof.
  induction tags as [|t [|t' tags] IH]; [done|..].
  - cbn [tlvs]. rewrite tlv_length. lia.
  - change (tlvs (t :: t' :: tags) form contents) with (tlv t true (tlvs (t' :: tags) form contents)).
    rewrite tlv_length. lia.
Qed.

Lemma write_tags_spec tags form contents :
  forallb tag_ok tags = true → Z.of_nat (length (tlvs tags form contents)) < 2 ^ 63 →
  ∃ lens b, tag_lens tags (Z.of_nat (length contents)) =
      Some (lens, Z.of_nat (length (tlvs tags form contents))) ∧
    write_TLs tags lens form = Some b ∧ b ++ contents = tlvs tags form contents.
Proof.
  induction tags as [|t tags IH]; intros Ht Hlen; [by eexists [], []|].
  cbn [forallb] in Ht. apply andb_true_iff in Ht as [Ht Hts].
  set (inner := tlvs tags form contents).
  assert (tlvs (t :: tags) form contents = tlv t (form || negb (bool_decide (tags = []))) inner) as Heq.
  { unfold inner. destruct tags; [by rewrite orb_false_r|by rewrite orb_true_r]. }
  rewrite Heq in *. rewrite tlv_length in Hlen.
  destruct (IH Hts) as (lens&b&Hlens&Hw&Hb); [fold inner; lia|].
  cbn [tag_lens write_TLs]. rewrite Hlens. fold inner. cbn [mbind option_bind].
  rewrite write_TL by (done || lia). cbn [mbind option_bind].
  eexists (_ :: lens), _. split; [f_equal; f_equal; rewrite tlv_length; lia|].
  rewrite write_TL by (done || lia). cbn [mbind option_bind emit]. rewrite Hw. cbn [mbind option_bind].
  split; [done|]. unfold tlv. rewrite <-!app_assoc, Hb. done.
Qed.

Lemma der_write_tags_spec tags form contents tm tag cb :
  let eff := effective_tags tags tm tag in
  forallb tag_ok tags = true → tag_ok tag = true →
  Z.of_nat (length (tlvs eff form contents)) < 2 ^ 63 →
  ∃ b, der_write_tags tags (Z.of_nat (length contents)) tm form tag cb =
      Some (Z.of_nat (length (tlvs eff form contents)) - Z.of_nat (length contents), emit cb b) ∧
    b ++ contents = tlvs eff form contents.
Proof.
  intros eff Ht Htag Hlen.
  destruct (write_tags_spec eff form contents (effective_tags_ok _ _ _ Ht Htag) Hlen) as (lens&b&Hl&Hw&Hb).
  exists b. split; [|done]. unfold der_write_tags. fold eff. rewrite Hl. cbn [mbind option_bind].
  destruct cb; [|done]. cbn [negb]. by rewrite Hw.
Qed.

(** ** The encoder *)

(** [enc] writes what [der] says, and fails where there is nothing to write. *)
Definition encodes (enc : bool → enc_rval) (spec : option octets) : Prop :=
  match spec with
  | Some out => Z.of_nat (length out) < 2 ^ 63 → ∀ cb, enc cb = Some (Z.of_nat (length out), emit cb out)
  | None => ∀ cb, enc cb = None
  end.

Lemma emit_app cb a b : emit cb a ++ emit cb b = emit cb (a ++ b).
Proof. by destruct cb. Qed.

Lemma primitive_encodes tags contents tm tag enc :
  forallb tag_ok tags = true → tag_ok tag = true →
  (∀ cb, enc cb = '(n, b) ← der_write_tags tags (Z.of_nat (length contents)) tm false tag cb;
                  Some (n + Z.of_nat (length contents), b ++ emit cb contents)) →
  encodes enc (Some (tlvs (effective_tags tags tm tag) false contents)).
Proof.
  intros Ht Htag Henc Hlen cb. rewrite Henc.
  destruct (der_write_tags_spec tags false contents tm tag cb Ht Htag Hlen) as (b&->&Hb).
  cbn [mbind option_bind]. rewrite emit_app, Hb. f_equal. f_equal. lia.
Qed.

Lemma members_encode els :
  Forall (λ e, ∀ v, has_type (m_type e) v →
    encodes (der_encoder (m_type e) v (tag_mode e) (m_tag e)) (der (m_type e) v (tag_mode e) (m_tag e))) els →
  ∀ vs, Forall2 (member_ok has_type) els vs →
  encodes (SEQUENCE_members els (map (λ e, der_encoder (m_type e)) els) vs)
    (der_members els (map (λ e, der (m_type e)) els) vs).
Proof.
  induction 1 as [|e els He _ IH]; intros vs Hvs; inversion Hvs as [|? v ? vs' Hv Hvs']; subst.
  { by intros _ []. }
  specialize (IH vs' Hvs'). cbn [SEQUENCE_members der_members map].
  destruct v as [v|]; cbn [member_ok] in Hv.
  - specialize (He v Hv). unfold encodes in He |- *.
    destruct (der (m_type e) v (tag_mode e) (m_tag e)) as [b|]; cbn [mbind option_bind].
    + destruct (der_members _ _ vs') as [rest|]; cbn [mbind option_bind].
      * rewrite length_app. intros Hlen cb. rewrite He by lia. cbn [mbind option_bind].
        rewrite IH by lia. cbn [mbind option_bind]. rewrite emit_app. f_equal. f_equal. lia.
      * intros cb. destruct (der_encoder _ _ _ _ _) as [[]|]; [|done]. cbn [mbind option_bind]. by rewrite IH.
    + intros cb. by rewrite He.
  - destruct Hv as [Hp Ho]. rewrite Hp. cbn [mbind option_bind andb].
    assert (∀ cb, (cb || negb (optional e =? 0)%nat) = true) as Hcb.
    { intros cb. destruct (Nat.eqb_spec (optional e) 0); [done|]. by rewrite orb_true_r. }
    unfold encodes in *. destruct (der_members _ _ vs') as [rest|]; cbn [mbind option_bind app].
    + intros Hlen cb. rewrite Hcb. cbn [mbind option_bind]. by rewrite IH.
    + intros cb. rewrite Hcb. cbn [mbind option_bind]. by rewrite IH.
Qed.

Lemma der_encoder_encodes td : tags_ok td = true → ∀ v tm tag, has_type td v → tag_ok tag = true →
  encodes (der_encoder td v tm tag) (der td v tm tag).
Proof.
  induction td as [tags|tags|tags|tags els specs IH|tags els specs IH] using asn_TYPE_descriptor_ind';
    intros Hok v tm tag Hv Htag; cbn [tags_ok td_tags] in Hok; apply andb_true_iff in Hok as [Ht Hels];
    destruct v as [z|z|s|vs|present memb]; try done.
  - by apply primitive_encodes.
  - by apply primitive_encodes.
  - by apply primitive_encodes.
  - cbn [der der_encoder td_tags]. apply has_type_SEQUENCE in Hv.
    pose proof (members_encode els) as Hm.
    assert (Forall (λ e, ∀ v, has_type (m_type e) v →
      encodes (der_encoder (m_type e) v (tag_mode e) (m_tag e))
        (der (m_type e) v (tag_mode e) (m_tag e))) els) as Hspec.
    { rewrite forallb_forall in Hels. rewrite Forall_forall in IH |- *. intros e He v Hve.
      specialize (Hels e ltac:(by apply list_elem_of_In)). apply andb_true_iff in Hels as [? ?]. by apply IH. }
    specialize (Hm Hspec vs Hv). unfold encodes in Hm |- *.
    destruct (der_members _ _ vs) as [contents|]; cbn [fmap option_fmap option_map].
    + intros Hlen cb. unfold SEQUENCE_encode_der.
      pose proof (tlvs_length_ge (effective_tags tags tm tag) true contents) as Hge.
      rewrite (Hm ltac:(lia) false). cbn [mbind option_bind].
      destruct (der_write_tags_spec tags true contents tm tag cb Ht Htag Hlen) as (b&->&Hb).
      cbn [mbind option_bind]. destruct cb; cbn [negb emit]; [|f_equal; f_equal; lia].
      rewrite (Hm ltac:(lia) true). cbn [mbind option_bind emit]. rewrite Z.sub_diag, Hb. cbn [Z.eqb].
      f_equal. f_equal. lia.
    + intros cb. unfold SEQUENCE_encode_der. by rewrite (Hm false).
  - cbn [der der_encoder td_tags]. destruct memb as [v|].
    2:{ cbn in Hv. subst present. destruct els as [|e els]; [by intros _ []|done]. }
    apply has_type_CHOICE in Hv as (Hpos&e&He&Hv).
    rewrite list_lookup_fmap, He. cbn [fmap option_fmap option_map mbind option_bind].
    rewrite Forall_forall in IH. rewrite forallb_forall in Hels.
    apply list_elem_of_lookup_2 in He as Hin.
    specialize (Hels e ltac:(by apply list_elem_of_In)). apply andb_true_iff in Hels as [Hmt Hmok].
    specialize (IH e Hin Hmok v (AsnTypes.tag_mode e) (m_tag e) Hv Hmt).
    unfold encodes in IH |- *. unfold CHOICE_encode_der.
    apply lookup_lt_Some in He as Hlt.
    destruct (Z.leb_spec present 0) as [|_]; [lia|].
    destruct (Z.ltb_spec (Z.of_nat (length els)) present) as [|_]; [lia|]. cbn [orb].
    rewrite He, list_lookup_fmap, He. cbn [fmap option_fmap option_map mbind option_bind].
    destruct (der (m_type e) v (AsnTypes.tag_mode e) (m_tag e)) as [b|]; cbn [mbind option_bind].
    + destruct ((tm =? 1) || negb (bool_decide (tags = []))) eqn:Hwrap.
      * intros Hlen cb.
        pose proof (tlvs_length_ge (effective_tags tags tm tag) true b) as Hge.
        rewrite !(IH ltac:(lia)). cbn [mbind option_bind].
        destruct (der_write_tags_spec tags true b tm tag cb Ht Htag Hlen) as (b'&->&Hb).
        cbn [mbind option_bind]. rewrite emit_app, Hb. f_equal. f_equal. lia.
      * intros Hlen cb. cbn [mbind option_bind]. rewrite IH by lia. cbn [mbind option_bind app].
        f_equal. f_equal. lia.
    + intros cb. rewrite (IH false), (IH cb). by destruct ((tm =? 1) || negb (bool_decide (tags = []))).
Qed.

(** ** How long an encoding can be *)

(** Tags and lengths take at most 15 octets each time, a [long] 8 and a string
    less than [2 ^ 30]. *)
Definition header_bound (tags : list Z) : Z := 15 * (1 + Z.of_nat (length tags)).

Fixpoint der_bound (td : asn_TYPE_descriptor) : Z :=
  header_bound (td_tags td) +
  match td with
  | TD_NativeInteger _ => 8
  | TD_BOOLEAN _ => 1
  | TD_OCTET_STRING _ => 2 ^ 30
  | TD_SEQUENCE _ els _ | TD_CHOICE _ els _ => foldr Z.add 0 (map (λ e, der_bound (m_type e)) els)
  end.

Lemma required_octets_le w bits rounds v i req : ((required_octets w bits rounds v i req).1 ≤ req + rounds)%nat.
Proof.
  revert i req. induction rounds as [|rounds IH]; intros i req; cbn [required_octets]; [cbn; lia|].
  destruct (_ && _); [|cbn; lia]. specialize (IH (i + w) (S req)). lia.
Qed.

Lemma length_octets_length n len i : length (length_octets n len i) = n.
Proof. revert i. induction n as [|n IH]; intros i; cbn [length_octets length]; [done|]. by rewrite IH. Qed.

Lemma tag_groups_length n tval i : length (tag_groups n tval i) = n.
Proof. revert i. induction n as [|n IH]; intros i; cbn [tag_groups length]; [done|]. by rewrite IH. Qed.

Lemma tag_octets_le tag : (length (tag_octets tag) ≤ 6)%nat.
Proof.
  unfold tag_octets, ber_tlv_tag_serialize. destruct (BER_TAG_VALUE tag <=? 30); [cbn; lia|].
  pose proof (required_octets_le 7 (8 * 4) 4 (BER_TAG_VALUE tag) 7 1) as Hr.
  destruct (required_octets _ _ _ _ _ _) as [r i]. cbn [fst] in Hr. destruct (_ <? _)%nat; cbn [snd Nat.ltb Nat.leb length]; [lia|].
  rewrite !length_app, tag_groups_length. cbn [length]. lia.
Qed.

Lemma len_octets_le len : (length (len_octets len) ≤ 9)%nat.
Proof.
  unfold len_octets, der_tlv_length_serialize. destruct (len <=? 127); [cbn; lia|].
  pose proof (required_octets_le 8 (8 * 8) 7 len 8 1) as Hr.
  destruct (required_octets _ _ _ _ _ _) as [r i]. cbn [fst] in Hr. destruct (_ <=? _)%nat; cbn [snd length]; [lia|].
  rewrite length_octets_length. lia.
Qed.

Lemma tlvs_length_le tags form contents :
  Z.of_nat (length (tlvs tags form contents)) ≤ 15 * Z.of_nat (length tags) + Z.of_nat (length contents).
Proof.
  induction tags as [|t tags IH]; [cbn [tlvs length]; lia|].
  assert (∀ c inner, Z.of_nat (length (tlv t c inner)) ≤ 15 + Z.of_nat (length inner)) as Ht.
  { intros c inner. rewrite tlv_length. pose proof (tag_octets_le t). pose proof (len_octets_le (Z.of_nat (length inner))). lia. }
  destruct tags as [|t' tags]; cbn [tlvs].
  - specialize (Ht form contents). cbn [length]. lia.
  - specialize (Ht true (tlvs (t' :: tags) form contents)). cbn [tlvs] in *. cbn [length] in *. lia.
Qed.

Lemma header_le tags tm tag form contents :
  Z.of_nat (length (tlvs (effective_tags tags tm tag) form contents)) ≤ header_bound tags + Z.of_nat (length contents).
Proof.
  pose proof (tlvs_length_le (effective_tags tags tm tag) form contents). unfold header_bound.
  enough (length (effective_tags tags tm tag) ≤ 1 + length tags)%nat by lia.
  unfold effective_tags. destruct (tm =? 0); [lia|]. cbn [length]. destruct (_ && _); [|lia].
  destruct tags; cbn; lia.
Qed.

Lemma drop_sign_extension_le b : (length (drop_sign_extension b) ≤ length b)%nat.
Proof.
  induction b as [|x [|x1 b] IH]; [done..|]. cbn [drop_sign_extension]. destruct (_ || _); [|done].
  transitivity (length (x1 :: b)); [exact IH|cbn; lia].
Qed.

Lemma big_endian_length n z : length (big_endian n z) = n.
Proof. revert z. induction n as [|n IH]; intros z; cbn [big_endian]; [done|]. rewrite length_app, IH. cbn. lia. Qed.

Lemma members_length_le els :
  Forall (λ e, ∀ v tm tag out, has_type (m_type e) v → der (m_type e) v tm tag = Some out →
    Z.of_nat (length out) ≤ der_bound (m_type e)) els →
  Forall (λ e, 0 ≤ der_bound (m_type e)) els →
  ∀ vs contents, Forall2 (member_ok has_type) els vs → der_members els (map (λ e, der (m_type e)) els) vs = Some contents →
  Z.of_nat (length contents) ≤ foldr Z.add 0 (map (λ e, der_bound (m_type e)) els).
Proof.
  induction 1 as [|e els He _ IH]; intros Hpos vs contents Hvs Hc; inversion Hvs as [|? v ? vs' Hv Hvs']; subst.
  { by injection Hc as <-. }
  apply Forall_cons in Hpos as [Hpe Hpos]. cbn [der_members map] in Hc.
  apply bind_Some in Hc as (b&Hb&Hc). apply bind_Some in Hc as (rest&Hrest&Hc). injection Hc as <-.
  specialize (IH Hpos vs' rest Hvs' Hrest). cbn [map foldr]. rewrite length_app.
  enough (Z.of_nat (length b) ≤ der_bound (m_type e)) by lia.
  destruct v as [v|]; [by eapply He|]. injection Hb as <-. cbn. lia.
Qed.

Lemma der_bound_pos td : 0 ≤ der_bound td.
Proof.
  assert (∀ tags, 0 ≤ header_bound tags) as Hh by (unfold header_bound; lia).
  induction td as [tags|tags|tags|tags els specs IH|tags els specs IH] using asn_TYPE_descriptor_ind';
    cbn [der_bound td_tags]; specialize (Hh tags); try lia.
  all: enough (0 ≤ foldr Z.add 0 (map (λ e, der_bound (m_type e)) els)) by lia;
    clear Hh; induction IH as [|e els He _ IHels]; cbn [map foldr]; lia.
Qed.

Lemma foldr_add_lookup {A} (f : A → Z) l i x :
  Forall (λ y, 0 ≤ f y) l → l !! i = Some x → f x ≤ foldr Z.add 0 (map f l).
Proof.
  intros Hl. revert i. induction Hl as [|y l Hy Hl IH]; intros [|i] Hi; try done; cbn [map foldr].
  - injection Hi as ->. enough (0 ≤ foldr Z.add 0 (map f l)) by lia. clear IH. induction Hl; cbn [map foldr]; lia.
  - specialize (IH i Hi). lia.
Qed.

Lemma der_length td : ∀ v tm tag out, has_type td v → der td v tm tag = Some out →
  Z.of_nat (length out) ≤ der_bound td.
Proof.
  induction td as [tags|tags|tags|tags els specs IH|tags els specs IH] using asn_TYPE_descriptor_ind';
    intros v tm tag out Hv Hout; destruct v as [z|z|s|vs|present memb]; try done;
    cbn [der der_bound td_tags] in *.
  - injection Hout as <-. pose proof (header_le tags tm tag false (int_octets z)).
    pose proof (drop_sign_extension_le (big_endian 8 (wrap 64 z))) as Hs. rewrite big_endian_length in Hs.
    unfold int_octets in *. lia.
  - injection Hout as <-. pose proof (header_le tags tm tag false [if z =? 0 then 0 else 255]) as Hh. cbn [length] in Hh. lia.
  - injection Hout as <-. pose proof (header_le tags tm tag false s). destruct Hv. lia.
  - apply has_type_SEQUENCE in Hv. apply fmap_Some in Hout as (contents&Hc&->).
    pose proof (header_le tags tm tag true contents).
    assert (Forall (λ e, 0 ≤ der_bound (m_type e)) els) as Hpos.
    { apply Forall_forall. intros e _. apply der_bound_pos. }
    pose proof (members_length_le els IH Hpos vs contents Hv Hc). lia.
  - assert (Forall (λ e, 0 ≤ der_bound (m_type e)) els) as Hpos.
    { apply Forall_forall. intros e _. apply der_bound_pos. }
    assert (0 ≤ header_bound tags) by (unfold header_bound; lia).
    destruct memb as [v|].
    2:{ destruct (_ && _); [|done]. injection Hout as <-. pose proof (der_bound_pos (TD_CHOICE tags els specs)) as Hb.
        cbn [der_bound td_tags] in Hb. cbn [length]. lia. }
    apply has_type_CHOICE in Hv as (_&e&He&Hv). rewrite list_lookup_fmap, He in Hout.
    cbn [fmap option_fmap option_map mbind option_bind] in Hout. apply bind_Some in Hout as (b&Hb&Hout).
    pose proof (Forall_lookup_1 _ _ _ _ IH He v _ _ b Hv Hb) as Hlb.
    pose proof (foldr_add_lookup (λ e, der_bound (m_type e)) els _ e Hpos He) as Hle. cbn beta in Hle.
    pose proof (header_le tags tm tag true b). injection Hout as <-. destruct (_ || _); lia.
Qed.

(** ** The reference is the encoding of the standard

    Tags, lengths and integers first, then the values. *)

(** Groups of [w] bits are counted as digits. *)
Lemma digit_count_le w v k : 0 < w → 0 < v →
  (digit_count w v ≤ k)%nat ↔ v < 2 ^ (w * Z.of_nat k).
Proof.
  intros Hw Hv. rewrite Z.log2_lt_pow2 by lia. unfold digit_count.
  pose proof (Z.log2_nonneg v). pose proof (Z.div_pos (Z.log2 v) w ltac:(lia) Hw).
  pose proof (Z.div_mod (Z.log2 v) w ltac:(lia)). pose proof (Z.mod_pos_bound (Z.log2 v) w Hw). nia.
Qed.

Lemma required_octets_digits w bits rounds v k :
  0 < w → 0 < v < 2 ^ bits → (k ≤ digit_count w v ≤ k + rounds)%nat →
  required_octets w bits rounds v (w * Z.of_nat k) k = (digit_count w v, w * Z.of_nat (digit_count w v)).
Proof.
  intros Hw Hv. revert k. induction rounds as [|rounds IH]; intros k Hk; cbn [required_octets].
  { by replace k with (digit_count w v) by lia. }
  pose proof (digit_count_le w v k Hw ltac:(lia)) as Hd.
  assert ((w * Z.of_nat k <? bits) && negb (Z.shiftr v (w * Z.of_nat k) =? 0) =
    negb (v <? 2 ^ (w * Z.of_nat k))) as ->.
  { rewrite Z.shiftr_div_pow2 by lia. pose proof (Z.pow_pos_nonneg 2 (w * Z.of_nat k) ltac:(lia) ltac:(lia)).
    destruct (Z.ltb_spec v (2 ^ (w * Z.of_nat k))) as [Hlt|Hge].
    - rewrite Z.div_small by lia. by rewrite andb_false_r.
    - pose proof (Z.div_le_lower_bound v (2 ^ (w * Z.of_nat k)) 1 ltac:(lia) ltac:(lia)).
      destruct (Z.eqb_spec (v / 2 ^ (w * Z.of_nat k)) 0); [lia|]. rewrite andb_true_r.
      assert (0 ≤ bits) by (destruct (Z.lt_ge_cases bits 0) as [Hb|]; [rewrite (Z.pow_neg_r 2 bits Hb) in Hv; lia|done]).
      apply Z.ltb_lt. apply (Z.pow_lt_mono_r_iff 2); lia. }
  destruct (Z.ltb_spec v (2 ^ (w * Z.of_nat k))); cbn [negb].
  - by replace k with (digit_count w v) by lia.
  - replace (w * Z.of_nat k + w) with (w * Z.of_nat (S k)) by lia. apply IH. lia.
Qed.

Lemma tag_groups_digits n v : 0 ≤ v → tag_groups n v (7 * Z.of_nat n) ++ [Z.land v 127] = tag_digits n v.
Proof.
  intros Hv. induction n as [|n IH]; cbn [tag_groups tag_digits app]; [by rewrite land_ones_7|].
  replace (7 * Z.of_nat (S n) - 7) with (7 * Z.of_nat n) by lia. rewrite IH. f_equal.
  rewrite land_ones_7, Z.shiftr_div_pow2 by lia. rewrite Z.pow_mul_r by lia. change (2 ^ 7) with 128.
  change 128 with (Z.shiftl 1 7) at 1. rewrite lor_shiftl_add; [lia..|]. apply Z.mod_pos_bound. lia.
Qed.

Lemma identifier_first tclass low (c : bool) : 0 ≤ tclass < 4 → 0 ≤ low < 32 →
  set_constructed c [u8 (Z.lor (Z.shiftl tclass 6) low)] = [64 * tclass + (if c then 32 else 0) + low].
Proof.
  intros Hc Hl. rewrite lor_shiftl_add, wrap_small by lia. cbn [set_constructed]. f_equal. destruct c; [|lia].
  assert (Z.lor (tclass * 2 ^ 6 + low) 32 = Z.lor (Z.shiftl tclass 6) (Z.lor (Z.shiftl 1 5) low)) as ->.
  { rewrite <-lor_shiftl_add by lia. rewrite <-Z.lor_assoc. f_equal. apply Z.lor_comm. }
  rewrite (lor_shiftl_add 1 low 5), lor_shiftl_add by lia. lia.
Qed.

Lemma tag_octets_identifier tag c : tag_ok tag = true → set_constructed c (tag_octets tag) = identifier tag c.
Proof.
  intros Ht. apply tag_ok_range in Ht. destruct (tag_class_value tag Ht) as (Hc&Hv&_).
  unfold tag_octets, ber_tlv_tag_serialize, identifier.
  replace (tag `mod` 4) with (BER_TAG_CLASS tag) by (unfold BER_TAG_CLASS; change 3 with (Z.ones 2); by rewrite Z.land_ones).
  replace (tag / 4) with (BER_TAG_VALUE tag) by (unfold BER_TAG_VALUE; by rewrite Z.shiftr_div_pow2).
  set (v := BER_TAG_VALUE tag) in *. destruct (Z.leb_spec v 30) as [Hs|Hl].
  - apply identifier_first; lia.
  - pose proof (digit_count_le 7 v 5 ltac:(lia) ltac:(lia)) as [_ Hd].
    specialize (Hd ltac:(cbn; lia)).
    pose proof (required_octets_digits 7 (8 * 4) 4 v 1 ltac:(lia) ltac:(cbn; lia)) as Hr.
    change (7 * Z.of_nat 1) with 7 in Hr. rewrite Hr by (unfold digit_count in *; lia).
    destruct (Nat.ltb_spec (32 - 1) (digit_count 7 v)); [lia|]. cbn [Nat.ltb Nat.leb snd].
    rewrite set_constructed_app by done. rewrite identifier_first by lia. cbn [app]. f_equal.
    rewrite <-(tag_groups_digits _ v) by lia. f_equal.
    replace (digit_count 7 v - 1)%nat with (pred (digit_count 7 v)) by lia. f_equal.
    unfold digit_count. cbn [pred]. lia.
Qed.

Lemma length_octets_digits n v : length_octets n v (8 * (Z.of_nat n - 1)) = digits 256 n v.
Proof.
  induction n as [|n IH]; cbn [length_octets digits]; [done|].
  replace (8 * (Z.of_nat (S n) - 1) - 8) with (8 * (Z.of_nat n - 1)) by lia. rewrite IH. f_equal.
  replace (8 * (Z.of_nat (S n) - 1)) with (8 * Z.of_nat n) by lia.
  rewrite Z.shiftr_div_pow2 by lia. by rewrite Z.pow_mul_r by lia.
Qed.

Lemma len_octets_definite len : 0 ≤ len < 2 ^ 63 → len_octets len = definite_length len.
Proof.
  intros Hl. unfold len_octets, der_tlv_length_serialize, definite_length. destruct (Z.leb_spec len 127) as [Hs|Hb].
  { cbn [snd]. change (0 <? 32)%nat with true. cbv iota. by rewrite wrap_small by lia. }
  pose proof (digit_count_le 8 len 8 ltac:(lia) ltac:(lia)) as [_ Hd]. specialize (Hd ltac:(cbn; lia)).
  pose proof (required_octets_digits 8 (8 * 8) 7 len 1 ltac:(lia) ltac:(cbn; lia)) as Hr.
  change (8 * Z.of_nat 1) with 8 in Hr. rewrite Hr by (unfold digit_count in *; lia).
  destruct (Nat.leb_spec 32 (digit_count 8 len)); [lia|]. cbn [snd].
  replace (8 * Z.of_nat (digit_count 8 len) - 8) with (8 * (Z.of_nat (digit_count 8 len) - 1)) by lia.
  rewrite length_octets_digits. f_equal.
  change 128 with (Z.shiftl 1 7) at 1. rewrite lor_shiftl_add by lia. rewrite wrap_small; lia.
Qed.

(** *** Integers *)

Lemma is_byte_bit7 x : is_byte x → Z.testbit x 7 = (128 <=? x).
Proof.
  intros Hx. unfold is_byte in Hx. rewrite Z.testbit_eqb by lia. change (2 ^ 7) with 128.
  destruct (Z.leb_spec 128 x).
  - rewrite <-(Z.div_unique x 128 1 (x - 128)) by lia. done.
  - rewrite Z.div_small by lia. done.
Qed.

Lemma digits_snoc b n v : 0 < b → digits b (S n) v = digits b n (v / b) ++ [v `mod` b].
Proof.
  intros Hb. induction n as [|n IH]; [cbn; by rewrite Z.div_1_r|].
  change (digits b (S (S n)) v) with ((v / b ^ Z.of_nat (S n)) `mod` b :: digits b (S n) v).
  rewrite IH. cbn [digits app]. f_equal. rewrite Z.div_div by lia. do 2 f_equal.
  by rewrite Nat2Z.inj_succ, Z.pow_succ_r by lia.
Qed.

Lemma digits_complement b n v m q : 0 < b → Z.of_nat n ≤ m → digits b n (v + q * b ^ m) = digits b n v.
Proof.
  intros Hb. induction n as [|n IH]; intros Hm; cbn [digits]; [done|]. rewrite IH by lia. f_equal.
  replace (q * b ^ m) with (q * b ^ (m - Z.of_nat n - 1) * b * b ^ Z.of_nat n).
  - rewrite Z.div_add by lia. by rewrite Z.mod_add by lia.
  - rewrite <-!Z.mul_assoc. f_equal. rewrite <-(Z.pow_1_r b) at 2. rewrite <-!Z.pow_add_r by lia. f_equal. lia.
Qed.

Lemma big_endian_digits n v : big_endian n v = digits 256 n v.
Proof.
  revert v. induction n as [|n IH]; intros v; [done|]. rewrite digits_snoc by lia. cbn [big_endian].
  rewrite IH. by rewrite Z.shiftr_div_pow2 by lia.
Qed.

Lemma holds_integer_high n z : holds_integer (S n) z ↔ - 128 ≤ z / 256 ^ Z.of_nat n < 128.
Proof.
  unfold holds_integer. replace (2 ^ (8 * Z.of_nat (S n) - 1)) with (128 * 256 ^ Z.of_nat n).
  - set (p := 256 ^ Z.of_nat n). assert (0 < p) by (apply Z.pow_pos_nonneg; lia).
    pose proof (Z.div_mod z p ltac:(lia)). pose proof (Z.mod_pos_bound z p ltac:(lia)). nia.
  - change 256 with (2 ^ 8). rewrite <-Z.pow_mul_r by lia. change 128 with (2 ^ 7).
    rewrite <-Z.pow_add_r by lia. f_equal. lia.
Qed.

(** Dropping the octets that only extend the sign leaves the fewest octets. *)
Lemma drop_sign_extension_digits n z : holds_integer (S n) z →
  drop_sign_extension (digits 256 (S n) z) = integer_contents z.
Proof.
  unfold integer_contents. induction n as [|n IH]; intros Hz; apply integer_size_least in Hz as Hs; try lia.
  { assert (integer_size z = 1%nat) as ->; [|done]. unfold integer_size in *. lia. }
  assert (digits 256 (S (S n)) z = (z / 256 ^ Z.of_nat (S n)) `mod` 256 :: digits 256 (S n) z) as Heq by done.
  rewrite Heq. cbn [digits drop_sign_extension]. cbn [digits] in IH, Heq.
  apply holds_integer_high in Hz. set (p := z / 256 ^ Z.of_nat n) in *.
  assert (z / 256 ^ Z.of_nat (S n) = p / 256) as Hq.
  { unfold p. rewrite Z.div_div by (try apply Z.pow_pos_nonneg; lia). f_equal.
    rewrite Nat2Z.inj_succ, Z.pow_succ_r by lia. lia. }
  rewrite Hq in *. rewrite is_byte_bit7 by (unfold is_byte; apply Z.mod_pos_bound; lia).
  pose proof (Z.div_mod p 256 ltac:(lia)) as Hp. pose proof (Z.mod_pos_bound p 256 ltac:(lia)) as Hb.
  assert ((p / 256) `mod` 256 = if p / 256 <? 0 then p / 256 + 256 else p / 256) as Hm.
  { destruct (Z.ltb_spec (p / 256) 0); [symmetry; apply (Z.mod_unique_pos _ 256 (- 1)); lia|apply Z.mod_small; lia]. }
  destruct (decide (holds_integer (S n) z)) as [Hh|Hh].
  - specialize (IH Hh). apply holds_integer_high in Hh. fold p in Hh.
    replace (_ || _) with true; [exact IH|]. symmetry.
    destruct (Z.ltb_spec (p / 256) 0), (Z.leb_spec 128 (p `mod` 256)); cbv iota in Hm; rewrite Hm; cbn [negb]; lia.
  - assert (integer_size z = S (S n)) as ->.
    { rewrite integer_size_least in Hh by lia. lia. }
    rewrite holds_integer_high in Hh. fold p in Hh.
    replace (_ || _) with false; [cbn [digits]; by rewrite Hq|]. symmetry.
    destruct (Z.ltb_spec (p / 256) 0), (Z.leb_spec 128 (p `mod` 256)); cbv iota in Hm; rewrite Hm; cbn [negb]; lia.
Qed.

Lemma int_octets_contents z : - 2 ^ 63 ≤ z < 2 ^ 63 → int_octets z = integer_contents z.
Proof.
  intros Hz. unfold int_octets. rewrite big_endian_digits.
  assert (digits 256 8 (wrap 64 z) = digits 256 8 z) as ->.
  { unfold wrap. rewrite (Z.mod_eq z) by lia. change (2 ^ 64) with (256 ^ 8).
    replace (z - 256 ^ 8 * (z / 256 ^ 8)) with (z + - (z / 256 ^ 8) * 256 ^ 8) by lia.
    apply digits_complement; lia. }
  apply drop_sign_extension_digits. unfold holds_integer. cbn. lia.
Qed.

(** *** Values *)

Lemma effective_tags_member tags tm tag : effective_tags tags tm tag = member_tags tm tag tags.
Proof.
  unfold effective_tags, member_tags. destruct (tm =? 0); [done|]. destruct (tm =? - 1); [|done].
  by destruct tags.
Qed.

Lemma tlvs_enclosed tags form contents :
  forallb tag_ok tags = true → Z.of_nat (length (tlvs tags form contents)) < 2 ^ 63 →
  tlvs tags form contents = enclosed tags form contents.
Proof.
  assert (∀ t c b, tag_ok t = true → Z.of_nat (length (tlv t c b)) < 2 ^ 63 → tlv t c b = tagged t c b) as Ht.
  { intros t c b Hok Hl. rewrite tlv_length in Hl. unfold tlv, tagged.
    by rewrite tag_octets_identifier, len_octets_definite by (done || lia). }
  induction tags as [|t [|t' tags] IH]; intros Hok Hl; [done|..];
    cbn [forallb] in Hok; apply andb_true_iff in Hok as [Ht1 Hts].
  - by apply Ht.
  - change (tlvs (t :: t' :: tags) form contents) with (tlv t true (tlvs (t' :: tags) form contents)) in *.
    rewrite Ht by done. rewrite tlv_length in Hl.
    change (enclosed (t :: t' :: tags) form contents) with (tagged t true (enclosed (t' :: tags) form contents)).
    by rewrite IH by (done || lia).
Qed.

(** The standard says [out], unless it is too long for a length, or nothing. *)
Definition standard (der x690 : option octets) : Prop :=
  match der with
  | Some out => Z.of_nat (length out) < 2 ^ 63 → x690 = Some out
  | None => x690 = None
  end.

Lemma standard_tags tags tm tag form contents :
  forallb tag_ok tags = true → tag_ok tag = true →
  standard (Some (tlvs (effective_tags tags tm tag) form contents))
    (Some (enclosed (member_tags tm tag tags) form contents)).
Proof.
  intros Ht Htag Hl. rewrite <-effective_tags_member. f_equal. symmetry.
  apply tlvs_enclosed; [by apply effective_tags_ok|done].
Qed.

Lemma standard_members els :
  Forall (λ e, ∀ v, has_type (m_type e) v →
    standard (der (m_type e) v (tag_mode e) (m_tag e)) (x690 (m_type e) v (tag_mode e) (m_tag e))) els →
  ∀ vs, Forall2 (member_ok has_type) els vs →
  standard (der_members els (map (λ e, der (m_type e)) els) vs)
    (x690_members els (map (λ e, x690 (m_type e)) els) vs).
Proof.
  induction 1 as [|e els He _ IH]; intros vs Hvs; inversion Hvs as [|? v ? vs' Hv Hvs']; subst; [done|].
  specialize (IH vs' Hvs'). cbn [der_members x690_members map].
  assert (standard (match v with Some v => der (m_type e) v (tag_mode e) (m_tag e) | None => Some [] end)
    (match v with Some v => x690 (m_type e) v (tag_mode e) (m_tag e) | None => Some [] end)) as Hs.
  { destruct v as [v|]; [by apply He|done]. }
  destruct (match v with Some v => der _ _ _ _ | None => _ end) as [b|]; unfold standard in Hs, IH |- *;
    cbn [mbind option_bind]; [|by rewrite Hs].
  destruct (der_members _ _ vs') as [rest|]; cbn [mbind option_bind].
  - rewrite length_app. intros Hl. rewrite Hs, IH by lia. done.
  - rewrite IH. by destruct (match v with Some v => x690 _ _ _ _ | None => _ end).
Qed.

Lemma der_x690 td : tags_ok td = true → ∀ v tm tag, has_type td v → tag_ok tag = true →
  standard (der td v tm tag) (x690 td v tm tag).
Proof.
  induction td as [tags|tags|tags|tags els specs IH|tags els specs IH] using asn_TYPE_descriptor_ind';
    intros Hok v tm tag Hv Htag; cbn [tags_ok td_tags] in Hok; apply andb_true_iff in Hok as [Ht Hels];
    destruct v as [z|z|s|vs|present memb]; try done.
  - cbn [der x690 td_tags]. rewrite <-(int_octets_contents z) by exact Hv. by apply standard_tags.
  - by apply standard_tags.
  - by apply standard_tags.
  - cbn [der x690 td_tags]. apply has_type_SEQUENCE in Hv.
    assert (Forall (λ e, ∀ v, has_type (m_type e) v →
      standard (der (m_type e) v (tag_mode e) (m_tag e)) (x690 (m_type e) v (tag_mode e) (m_tag e))) els) as Hspec.
    { rewrite forallb_forall in Hels. rewrite Forall_forall in IH |- *. intros e He v Hve.
      specialize (Hels e ltac:(by apply list_elem_of_In)). apply andb_true_iff in Hels as [? ?]. by apply IH. }
    pose proof (standard_members els Hspec vs Hv) as Hm. unfold standard in Hm.
    destruct (der_members _ _ vs) as [contents|]; cbn [fmap option_fmap option_map]; [|by rewrite Hm].
    intros Hl. pose proof (tlvs_length_ge (effective_tags tags tm tag) true contents).
    rewrite Hm by lia. by apply (standard_tags tags tm tag true contents).
  - cbn [der x690 td_tags]. destruct memb as [v|].
    2:{ cbn in Hv. subst present. by destruct els. }
    apply has_type_CHOICE in Hv as (Hpos&e&He&Hv).
    rewrite !list_lookup_fmap, He. cbn [fmap option_fmap option_map mbind option_bind].
    rewrite Forall_forall in IH. rewrite forallb_forall in Hels.
    apply list_elem_of_lookup_2 in He as Hin.
    specialize (Hels e ltac:(by apply list_elem_of_In)). apply andb_true_iff in Hels as [Hmt Hmok].
    specialize (IH e Hin Hmok v (AsnTypes.tag_mode e) (m_tag e) Hv Hmt). unfold standard in IH |- *.
    destruct (der (m_type e) v _ _) as [b|]; cbn [mbind option_bind]; [|by rewrite IH].
    destruct tags as [|t tags].
    + rewrite bool_decide_true, orb_false_r by done. cbn [negb].
      destruct (Z.eqb_spec tm 1) as [->|_]; intros Hl.
      * pose proof (tlvs_length_ge (effective_tags [] 1 tag) true b). rewrite IH by lia. cbn [mbind option_bind].
        exact (standard_tags [] 1 tag true b Ht Htag Hl).
      * by rewrite IH.
    + rewrite bool_decide_false, orb_true_r by done. intros Hl.
      pose proof (tlvs_length_ge (effective_tags (t :: tags) tm tag) true b). rewrite IH by lia.
      cbn [mbind option_bind]. exact (standard_tags (t :: tags) tm tag true b Ht Htag Hl).
Qed.

(** ** Encoding into a buffer *)

Lemma der_encode_to_buffer_spec td v size : tags_ok td = true → has_type td v → der_bound td < 2 ^ 63 →
  der_encode_to_buffer td v size =
    Done (out ← der td v 0 0; if size <? Z.of_nat (length out) then None else Some out).
Proof.
  intros Hok Hv Hbound. pose proof (der_encoder_encodes td Hok v 0 0 Hv eq_refl) as He.
  unfold encodes in He. unfold der_encode_to_buffer, der_encode.
  destruct (der td v 0 0) as [out|] eqn:Hout; cbn [mbind option_bind].
  - rewrite (He ltac:(pose proof (der_length td v 0 0 out Hv Hout); lia)). cbn [emit]. rewrite Z.eqb_refl.
    by destruct (size <? Z.of_nat (length out)).
  - by rewrite He.
Qed.

(** C7. The encoder is the distinguished encoding: for every value of a type whose
    tags fit into 32 bits and whose encodings cannot exceed 63 bits of length,
    [der_encode_to_buffer] yields exactly the octets that X.690 prescribes ([x690]:
    shortest identifiers, lengths and integers included) if they fit into the
    buffer, and fails if they do not or if there is nothing to encode; the length
    it has estimated is the one it writes, so its assertion holds. *)
Theorem der_encode_equiv td v size :
  tags_ok td = true → has_type td v → der_bound td < 2 ^ 63 →
  der_encode_to_buffer td v size =
    Done (out ← x690 td v 0 0; if size <? Z.of_nat (length out) then None else Some out).
Proof.
  intros Hok Hv Hbound. rewrite der_encode_to_buffer_spec by done.
  pose proof (der_x690 td Hok v 0 0 Hv eq_refl) as Hs. unfold standard in Hs.
  destruct (der td v 0 0) as [out|] eqn:Hout; [|by rewrite Hs].
  rewrite Hs; [done|]. pose proof (der_length td v 0 0 out Hv Hout). lia.
Qed.

(** A status of a slot: reset is asserted, the clock is off, the rest not known. *)
Definition example_status : asn_value := VSeq [Some (VBool 1); None; Some (VBool 0); None].

Lemma example_status_typed : has_type asn_DEF_SlotPhysStatus example_status.
Proof. cbn. split_and!; done || lia. Qed.

Lemma der_encode_equiv_witness :
  der_encode_to_buffer asn_DEF_SlotPhysStatus example_status 1016 = Done (Some [48; 6; 128; 1; 255; 130; 1; 0]).
Proof.
  pose proof (der_encode_equiv asn_DEF_SlotPhysStatus example_status 1016 eq_refl example_status_typed eq_refl) as H.
  rewrite H. vm_compute. reflexivity.
Defined.
