(* ===== verification/BerDecoder.v ===== *)
(** * The BER decoder of the run-time

    [rspro/ber_decoder.c] and the decoders of the types: [NativeInteger.c],
    [INTEGER.c], [BOOLEAN.c], [OCTET_STRING.c], [constr_SEQUENCE.c],
    [constr_CHOICE.c].

    The decoders can continue where they left off when more data arrives; the
    programs call them once, with the whole message, on a structure that does
    not exist yet, so [ctx] starts at phase 0 and step 0 and the phases follow
    one another.  [ptr] is what is left of the buffer, [ctx_left] is [ctx->left]
    (the octets left of the value, or minus the number of expected ends of
    contents), [consumed] is [consumed_myself].  Allocations succeed. *)

From S2P Require Import Prelude.
From S2P Require Import RsproPdu.
From S2P Require Import BerTlv.
From S2P Require Import AsnTypes.

(** ** Tags *)

(** The loop over the expected tags ([None] for one that the context has
    checked): [limit_len] is what an outer length leaves, [nulls] counts
    indefinite lengths.  The sums cannot overflow, because [ber_fetch_length]
    leaves room. *)
Fixpoint check_tags_loop (expected : list (option Z)) (last_tag_form : option bool) (ptr : octets)
    (limit_len nulls tlv_len : Z) (tlv_constr : bool) (consumed : nat) : dec_rval (Z * bool) :=
  match expected with
  | [] => RC_OK (if nulls =? 0 then tlv_len else - nulls, tlv_constr) consumed
  | t :: expected =>
      dec_bind (ber_fetch_tag ptr) (λ tlv_tag tag_len,
        let tlv_constr := BER_TLV_CONSTRUCTED ptr in
        if match t with Some t => negb (tlv_tag =? t) | None => false end then RC_FAIL
        else if match expected, last_tag_form with
                | _ :: _, _ => negb tlv_constr
                | [], Some form => negb (eqb form tlv_constr)
                | [], None => false
                end then RC_FAIL
        else
          dec_bind (ber_fetch_length tlv_constr (drop tag_len ptr)) (λ tlv_len len_len,
            let n := (tag_len + len_len)%nat in
            if tlv_len =? - 1 then
              if limit_len =? - 1 then
                check_tags_loop expected last_tag_form (drop n ptr) limit_len (nulls + 1)
                  tlv_len tlv_constr (consumed + n)
              else RC_FAIL
            else if negb (nulls =? 0) then RC_FAIL
            else if (limit_len =? - 1) || (limit_len =? tlv_len + Z.of_nat n) then
              check_tags_loop expected last_tag_form (take (Z.to_nat tlv_len) (drop n ptr)) tlv_len
                nulls tlv_len tlv_constr (consumed + n)
            else RC_FAIL))
  end.

(** The last length and the form of the last tag. *)
Definition ber_check_tags (d : nat) (tags : list Z) (ptr : octets) (tag_mode : Z)
    (last_tag_form : option bool) : dec_rval (Z * bool) :=
  match d with
  | O => RC_FAIL
  | S _ =>
      let loop expected := check_tags_loop expected last_tag_form ptr (- 1) 0 (- 1) false 0 in
      if tag_mode =? 0 then
        match tags with
        | [] =>
            dec_bind (ber_fetch_tag ptr) (λ _ tag_len,
              dec_bind (ber_fetch_length (BER_TLV_CONSTRUCTED ptr) (drop tag_len ptr)) (λ tlv_len len_len,
                RC_OK (tlv_len, BER_TLV_CONSTRUCTED ptr) (tag_len + len_len)))
        | _ => loop (map Some tags)
        end
      else if tag_mode =? 1 then loop (None :: map Some tags)
      else match tags with
           | [] => RC_ABORT
           | _ :: tags => loop (None :: map Some tags)
           end
  end.

(** ** Primitive types *)

Fixpoint skip_insignificant (b : octets) : octets :=
  match b with
  | x :: ((x1 :: _) as rest) =>
      if ((x =? 0) && negb (Z.testbit x1 7)) || ((x =? 255) && Z.testbit x1 7)
      then skip_insignificant rest else b
  | _ => b
  end.

(** [None] is the error [ERANGE]; [sizeof(long)] is 8. *)
Definition asn_INTEGER2long (b : octets) : option Z :=
  let b := if (8 <? length b)%nat then skip_insignificant b else b in
  if (8 <? length b)%nat then None
  else match b with
       | [] => Some 0
       | x :: _ =>
           let l := if negb (Z.shiftr x 7 =? 0) then - 1 else 0 in
           Some (fold_left (λ l x, swrap 64 (Z.lor (Z.shiftl l 8) x)) b l)
       end.

(** The contents of a primitive value of [length] octets. *)
Definition primitive_contents {A} (d : nat) (tags : list Z) (ptr : octets) (tag_mode : Z)
    (f : octets → option A) : dec_rval A :=
  dec_bind (ber_check_tags d tags ptr tag_mode (Some false)) (λ '(len, _) consumed,
    let buf := drop consumed ptr in
    if Z.of_nat (length buf) <? len then RC_WMORE
    else match f (take (Z.to_nat len) buf) with
         | Some v => RC_OK v (consumed + Z.to_nat len)
         | None => RC_FAIL
         end).

(** [field_unsigned] is 0 in the specifics of all types. *)
Definition NativeInteger_decode_ber (d : nat) (tags : list Z) (ptr : octets) (tag_mode : Z) : dec_rval asn_value :=
  primitive_contents d tags ptr tag_mode (λ b, VLong <$> asn_INTEGER2long b).

(** The first octet that is not 0. *)
Fixpoint boolean_octets (b : octets) : Z :=
  match b with
  | [] => 0
  | x :: b => if x =? 0 then boolean_octets b else x
  end.

Definition BOOLEAN_decode_ber (d : nat) (tags : list Z) (ptr : octets) (tag_mode : Z) : dec_rval asn_value :=
  primitive_contents d tags ptr tag_mode (λ b, Some (VBool (boolean_octets b))).

(** ** Strings *)

(** [APPEND]: the buffer is allocated in powers of two, whose size has to be an
    [int]. *)
Definition os_append (st b : octets) : option octets :=
  if 2 ^ 30 <=? Z.of_nat (length st + length b) then None else Some (st ++ b).

(** [struct _stack_el]; the frame at the head of the list is [cur_ptr], the ones
    behind it are its [prev]s, so [cont_level] is the number of these. *)
Record stack_el := MkStackEl { el_left : Z; el_got : Z; want_nulls : bool }.

(** Phases 1 and 2 of a string in constructed form; [st] is what was
    collected. *)
Fixpoint os_constructed (fuel : nat) (all_tags : list Z) (stck : list stack_el) (ptr : octets)
    (st : octets) (consumed : nat) {struct fuel} : dec_rval octets :=
  match fuel with
  | O => RC_LOOP
  | S fuel =>
      let next fuel stck :=
        let Left := match stck with
                    | sel :: _ => if el_left sel <? 0 then length ptr
                                  else Nat.min (Z.to_nat (el_left sel)) (length ptr)
                    | [] => length ptr
                    end in
        let view := take Left ptr in
        dec_bind (ber_fetch_tag view) (λ tlv_tag tl,
          let tlv_constr := BER_TLV_CONSTRUCTED ptr in
          dec_bind (ber_fetch_length tlv_constr (drop tl view)) (λ tlv_len ll,
            match stck with
            | sel :: prev =>
                if want_nulls sel && is_eoc ptr then
                  os_constructed fuel all_tags (MkStackEl 0 (el_got sel + 2) false :: prev)
                    (drop 2 ptr) st (consumed + 2)
                else
                  let expected_tag :=
                    match all_tags !! length prev with
                    | Some t => t
                    | None => default tlv_tag (last all_tags)
                    end in
                  if negb (tlv_tag =? expected_tag) then RC_FAIL
                  else
                    let tlvl := Z.of_nat (tl + ll) in
                    if negb (el_left sel =? - 1) &&
                       (el_left sel <? tlvl + (if tlv_len =? - 1 then 0 else tlv_len)) then RC_FAIL
                    else
                      let new_left := if negb (el_left sel =? - 1) && (tlv_len =? - 1)
                                      then el_left sel - tlvl else tlv_len in
                      os_pushed fuel all_tags
                        (MkStackEl new_left tlvl (tlv_len =? - 1) :: stck)
                        tlv_constr (drop (tl + ll) ptr) st (consumed + (tl + ll))
            | [] =>
                os_pushed fuel all_tags
                  [MkStackEl tlv_len (Z.of_nat (tl + ll)) (tlv_len =? - 1)]
                  tlv_constr (drop (tl + ll) ptr) st (consumed + (tl + ll))
            end)) in
      match stck with
      | sel :: prev =>
          if (el_left sel <=? 0) && negb (want_nulls sel) then
            match prev with
            | p :: prev =>
                if negb (el_left p =? - 1) && (el_left p <? el_got sel) then RC_FAIL
                else
                  let p := MkStackEl (if el_left p =? - 1 then - 1 else el_left p - el_got sel)
                             (el_got p + el_got sel) (want_nulls p) in
                  os_constructed fuel all_tags (p :: prev) ptr st consumed
            | [] => RC_OK st consumed
            end
          else next fuel stck
      | [] => next fuel stck
      end
  end
with os_pushed (fuel : nat) (all_tags : list Z) (stck : list stack_el) (tlv_constr : bool)
    (ptr : octets) (st : octets) (consumed : nat) {struct fuel} : dec_rval octets :=
  match fuel with
  | O => RC_LOOP
  | S fuel =>
      if tlv_constr then os_constructed fuel all_tags stck ptr st consumed
      else match stck with
           | sel :: prev =>
               if el_left sel <? 0 then RC_ABORT
               else
                 let len := Nat.min (length ptr) (Z.to_nat (el_left sel)) in
                 match os_append st (take len ptr) with
                 | None => RC_FAIL
                 | Some st =>
                     let sel' := MkStackEl (el_left sel - Z.of_nat len)
                                   (el_got sel + Z.of_nat len) (want_nulls sel) in
                     if negb (el_left sel' =? 0) then RC_WMORE
                     else os_constructed fuel all_tags (sel' :: prev) (drop len ptr) st (consumed + len)
                 end
           | [] => RC_ABORT
           end
  end.

(** The tags of a string in constructed form are read again by its loop. *)
Definition OCTET_STRING_decode_ber (fuel d : nat) (tags : list Z) (ptr : octets) (tag_mode : Z)
    : dec_rval asn_value :=
  dec_bind (ber_check_tags d tags ptr tag_mode None) (λ '(ctx_left, tlv_constr) consumed,
    if tlv_constr then
      dec_bind (os_constructed fuel tags [] ptr [] 0) (λ st n, RC_OK (VString st) n)
    else if ctx_left <? 0 then RC_ABORT
    else
      let buf := drop consumed ptr in
      if Z.of_nat (length buf) <? ctx_left then
        match os_append [] buf with Some _ => RC_WMORE | None => RC_FAIL end
      else match os_append [] (take (Z.to_nat ctx_left) buf) with
           | Some st => RC_OK (VString st) (consumed + Z.to_nat ctx_left)
           | None => RC_FAIL
           end).

(** ** Looking for the member with a tag *)

(** [bsearch] of the C library, by the comparison [cmp] with the key. *)
Fixpoint bsearch_loop {A} (fuel : nat) (cmp : A → Z) (base : list A) (l u : nat) : option nat :=
  match fuel with
  | O => None
  | S fuel =>
      if (l <? u)%nat then
        let idx := ((l + u) / 2)%nat in
        match base !! idx with
        | None => None
        | Some x =>
            let c := cmp x in
            if c <? 0 then bsearch_loop fuel cmp base l idx
            else if 0 <? c then bsearch_loop fuel cmp base (S idx) u
            else Some idx
        end
      else None
  end.
Definition bsearch {A} (cmp : A → Z) (base : list A) : option nat :=
  bsearch_loop (S (length base)) cmp base 0 (length base).

(** The comparison of two tags, [same] being the result for equal ones. *)
Definition tag_cmp (a b : Z) (same : Z) : Z :=
  if BER_TAG_CLASS a =? BER_TAG_CLASS b then
    if BER_TAG_VALUE a =? BER_TAG_VALUE b then same
    else if BER_TAG_VALUE a <? BER_TAG_VALUE b then - 1 else 1
  else if BER_TAG_CLASS a <? BER_TAG_CLASS b then - 1 else 1.

Definition _t2e_cmp (a b : asn_TYPE_tag2member) : Z :=
  tag_cmp (el_tag a) (el_tag b) (if (el_no b <? el_no a)%nat then 1 else 0).

Definition _search4tag (a b : asn_TYPE_tag2member) : Z := tag_cmp (el_tag a) (el_tag b) 0.

(** The best entry among those with the tag: the last one between [edx] and
    [edx_max]. *)
Fixpoint best_member (range : list asn_TYPE_tag2member) (edx edx_max : nat) (best : option nat) : option nat :=
  match range with
  | [] => best
  | t2m :: range =>
      if (edx_max <? el_no t2m)%nat then best
      else if (el_no t2m <? edx)%nat then best_member range edx edx_max best
      else best_member range edx edx_max (Some (el_no t2m))
  end.

Definition tag2el_search (tag2el : list asn_TYPE_tag2member) (tlv_tag : Z) (edx edx_max : nat) : option nat :=
  i ← bsearch (_t2e_cmp (MkTag2member tlv_tag edx 0 0)) tag2el;
  t2m ← tag2el !! i;
  let t2m_f := Z.to_nat (Z.of_nat i + toff_first t2m) in
  let t2m_l := Z.to_nat (Z.of_nat i + toff_last t2m) in
  best_member (take (S t2m_l - t2m_f) (drop t2m_f tag2el)) edx edx_max None.

(** The linear search from member [n] on: the member, or whether to use
    [bsearch]. *)
Fixpoint linear_search {T} (els : list (asn_TYPE_member T)) (n rounds : nat) (tlv_tag : Z)
    (use_bsearch : bool) : nat + bool :=
  match rounds, els with
  | S rounds, e :: els =>
      if tlv_tag =? m_tag e then inl n
      else if is_open_type e then inl n
      else if m_tag e =? 2 ^ 32 - 1 then inr true
      else linear_search els (S n) rounds tlv_tag use_bsearch
  | _, _ => inr use_bsearch
  end.

Definition find_member {T} (els : list (asn_TYPE_member T)) (specs : asn_SEQUENCE_specifics)
    (edx opt : nat) (tlv_tag : Z) : option nat :=
  let opt_edx_end := (edx + opt + 1)%nat in
  let '(opt_edx_end, use_bsearch) :=
    if (length els <? opt_edx_end)%nat then (length els, false)
    else if (8 <? opt_edx_end - edx)%nat then ((edx + 8)%nat, true)
    else (opt_edx_end, false) in
  match linear_search (drop edx els) edx (opt_edx_end - edx) tlv_tag use_bsearch with
  | inl n => Some n
  | inr true => tag2el_search (s_tag2el specs) tlv_tag edx (edx + opt)
  | inr false => None
  end.

(** ** SEQUENCE and CHOICE *)

(** [LEFT], [SIZE_VIOLATION] and the effect of [ADVANCE] on [ctx->left]. *)
Definition LEFT (ctx_left : Z) (ptr : octets) : octets :=
  if ctx_left <? 0 then ptr else take (Z.to_nat ctx_left) ptr.
Definition SIZE_VIOLATION (ctx_left : Z) (ptr : octets) : bool :=
  (0 <=? ctx_left) && (ctx_left <=? Z.of_nat (length ptr)).
Definition advance (ctx_left : Z) (n : nat) : Z :=
  if 0 <=? ctx_left then ctx_left - Z.of_nat n else ctx_left.

Definition IN_EXTENSION_GROUP (specs : asn_SEQUENCE_specifics) (memb_idx : nat) : bool :=
  (ext_after specs <? Z.of_nat memb_idx) && (Z.of_nat memb_idx <? ext_before specs).

(** What to do in front of an octet 0 of a value of indefinite length. *)
Definition end_of_contents {A} (ctx_left : Z) (ptr : octets) (finish continue : dec_rval A) : dec_rval A :=
  match ptr with
  | 0 :: _ =>
      if ctx_left <? 0 then
        if (length (LEFT ctx_left ptr) <? 2)%nat then
          if SIZE_VIOLATION ctx_left ptr then RC_FAIL else RC_WMORE
        else if is_eoc ptr then finish else continue
      else continue
  | _ => continue
  end.

(** Skipping an unknown value behind its tag. *)
Definition skip_value (fuel d : nat) (ctx_left : Z) (ptr : octets) (tl : nat) : dec_rval () :=
  ber_skip_length fuel d (BER_TLV_CONSTRUCTED ptr) (drop tl (LEFT ctx_left ptr)).

(** Phases 3 and 4: everything up to the end of the SEQUENCE. *)
Fixpoint SEQUENCE_rest (fuel d : nat) (specs : asn_SEQUENCE_specifics) (elements_count : nat)
    (only_nulls : bool) (ctx_left : Z) (ptr : octets) (consumed : nat)
    (st : list (option asn_value)) : dec_rval (list (option asn_value)) :=
  match fuel with
  | O => RC_LOOP
  | S fuel =>
      if ctx_left =? 0 then RC_OK st consumed
      else
        dec_bind_in (SIZE_VIOLATION ctx_left ptr) (ber_fetch_tag (LEFT ctx_left ptr)) (λ _ tl,
          end_of_contents ctx_left ptr
            (SEQUENCE_rest fuel d specs elements_count true (ctx_left + 1) (drop 2 ptr) (consumed + 2) st)
            (if negb (IN_EXTENSION_GROUP specs elements_count) || only_nulls then RC_FAIL
             else
               dec_bind_in (SIZE_VIOLATION ctx_left ptr) (skip_value fuel d ctx_left ptr tl) (λ _ ll,
                 SEQUENCE_rest fuel d specs elements_count only_nulls (advance ctx_left (tl + ll))
                   (drop (tl + ll) ptr) (consumed + (tl + ll)) st)))
  end.

(** The decoders of the members, which get what is left of the buffer and the
    tag mode. *)
Abbreviation member_decoder := (octets → Z → dec_rval asn_value).

(** Phase 1, from member [edx] on. *)
Fixpoint SEQUENCE_loop {T} (fuel d : nat) (els : list (asn_TYPE_member T)) (specs : asn_SEQUENCE_specifics)
    (decs : list member_decoder) (edx : nat) (ctx_left : Z) (ptr : octets) (consumed : nat)
    (st : list (option asn_value)) : dec_rval (list (option asn_value)) :=
  match fuel with
  | O => RC_LOOP
  | S fuel =>
      let phase3 := SEQUENCE_rest fuel d specs (length els) false ctx_left ptr consumed st in
      match els !! edx with
      | None => phase3
      | Some elm =>
          let edx_opt := (edx + optional elm)%nat in
          let may_end := (edx_opt =? length els)%nat ||
            (IN_EXTENSION_GROUP specs edx && (Z.of_nat (length els) <? ext_before specs)) in
          if (ctx_left =? 0) && may_end then RC_OK st consumed
          else
            dec_bind_in (SIZE_VIOLATION ctx_left ptr) (ber_fetch_tag (LEFT ctx_left ptr)) (λ tlv_tag tag_len,
              let synchronize :=
                match find_member els specs edx (optional elm) tlv_tag with
                | Some n =>
                    match els !! n, decs !! n with
                    | Some elm, Some dec =>
                        dec_bind_in (SIZE_VIOLATION ctx_left ptr) (dec (LEFT ctx_left ptr) (tag_mode elm)) (λ v c,
                          SEQUENCE_loop fuel d els specs decs (S n) (advance ctx_left c) (drop c ptr)
                            (consumed + c) (<[n := Some v]> st))
                    | _, _ => RC_ABORT
                    end
                | None =>
                    if negb (IN_EXTENSION_GROUP specs edx_opt) then RC_FAIL
                    else
                      dec_bind_in (SIZE_VIOLATION ctx_left ptr) (skip_value fuel d ctx_left ptr tag_len) (λ _ skip,
                        SEQUENCE_loop fuel d els specs decs edx_opt (advance ctx_left (skip + tag_len))
                          (drop (skip + tag_len) ptr) (consumed + (skip + tag_len)) st)
                end in
              end_of_contents ctx_left ptr (if may_end then phase3 else synchronize) synchronize)
      end
  end.

(** The stack budget of the members is smaller by one. *)
Definition SEQUENCE_decode_ber {T} (fuel d : nat) (tags : list Z) (els : list (asn_TYPE_member T))
    (specs : asn_SEQUENCE_specifics) (decs : list member_decoder) (ptr : octets) (tag_mode : Z) : dec_rval asn_value :=
  dec_bind (ber_check_tags d tags ptr tag_mode (Some true)) (λ '(ctx_left, _) consumed,
    dec_bind (SEQUENCE_loop fuel d els specs decs 0 ctx_left (drop consumed ptr) consumed (zero_members els))
      (λ st n, RC_OK (VSeq st) n)).

(** The ends of contents behind a CHOICE.  An octet 0 that is followed by
    another octet is neither consumed nor an error: the loop runs on. *)
Fixpoint CHOICE_rest (fuel : nat) (ctx_left : Z) (ptr : octets) (consumed : nat) (st : asn_value) : dec_rval asn_value :=
  match fuel with
  | O => RC_LOOP
  | S fuel =>
      if negb (ctx_left <? 0) then RC_OK st consumed
      else
        dec_bind_in (SIZE_VIOLATION ctx_left ptr) (ber_fetch_tag (LEFT ctx_left ptr)) (λ _ _,
          match ptr with
          | 0 :: _ =>
              end_of_contents ctx_left ptr
                (CHOICE_rest fuel (ctx_left + 1) (drop 2 ptr) (consumed + 2) st)
                (CHOICE_rest fuel ctx_left ptr consumed st)
          | _ => RC_FAIL
          end)
  end.

Definition CHOICE_decode_ber {T} (fuel d : nat) (tags : list Z) (els : list (asn_TYPE_member T))
    (specs : asn_CHOICE_specifics) (decs : list member_decoder) (ptr : octets) (tag_mode : Z) : dec_rval asn_value :=
  let untagged := (tag_mode =? 0) && bool_decide (tags = []) in
  dec_bind (if untagged then RC_OK (- 1, false) 0 else ber_check_tags d tags ptr tag_mode None)
    (λ '(ctx_left, _) consumed,
      let ptr := drop consumed ptr in
      dec_bind_in (SIZE_VIOLATION ctx_left ptr) (ber_fetch_tag (LEFT ctx_left ptr)) (λ tlv_tag tag_len,
        match bsearch (_search4tag (MkTag2member tlv_tag 0 0 0)) (c_tag2el specs) ≫= (c_tag2el specs !!.) with
        | Some t2m =>
            match els !! el_no t2m, decs !! el_no t2m with
            | Some elm, Some dec =>
                dec_bind_in (SIZE_VIOLATION ctx_left ptr) (dec (LEFT ctx_left ptr) (AsnTypes.tag_mode elm)) (λ v c,
                  let st := VChoice (Z.of_nat (el_no t2m) + 1) (Some v) in
                  let ctx_left := advance ctx_left c in
                  if 0 <? ctx_left then RC_FAIL
                  else if untagged then RC_OK st (consumed + c)
                  else CHOICE_rest fuel ctx_left (drop c ptr) (consumed + c) st)
            | _, _ => RC_ABORT
            end
        | None =>
            if ext_start specs =? - 1 then RC_FAIL
            else
              dec_bind_in (SIZE_VIOLATION ctx_left ptr) (skip_value fuel d ctx_left ptr tag_len) (λ _ skip,
                RC_OK (VChoice 0 None) (consumed + (skip + tag_len)))
        end)).

(** [td->ber_decoder] *)
Fixpoint ber_decoder (fuel d : nat) (td : asn_TYPE_descriptor) (ptr : octets) (tag_mode : Z) {struct td}
    : dec_rval asn_value :=
  match td with
  | TD_NativeInteger tags => NativeInteger_decode_ber d tags ptr tag_mode
  | TD_BOOLEAN tags => BOOLEAN_decode_ber d tags ptr tag_mode
  | TD_OCTET_STRING tags => OCTET_STRING_decode_ber fuel d tags ptr tag_mode
  | TD_SEQUENCE tags els specs =>
      SEQUENCE_decode_ber fuel d tags els specs (map (λ e, ber_decoder fuel (d - 1) (m_type e)) els) ptr tag_mode
  | TD_CHOICE tags els specs =>
      CHOICE_decode_ber fuel d tags els specs (map (λ e, ber_decoder fuel (d - 1) (m_type e)) els) ptr tag_mode
  end.

Definition ber_decode (fuel d : nat) (td : asn_TYPE_descriptor) (ptr : octets) : dec_rval asn_value :=
  ber_decoder fuel d td ptr 0.
