(* ===== verification/BerRoundtrip.v ===== *)
(** * What is encoded is decoded

    The decoder reads the distinguished encoding [der] of every value of a type
    whose tables are consistent ([table_ok]: from each member on, the search
    for a tag finds the member it belongs to). *)

From S2P Require Import Prelude.
From S2P Require Import RsproPdu.
From S2P Require Import BerTlv.
From S2P Require Import AsnTypes.
From S2P Require Import RsproTables.
From S2P Require Import DerEncoder.
From S2P Require Import DerProps.
From S2P Require Import BerDecoder.

(** ** Integers *)

(** The value of octets in two's complement, [l] being the octets before. *)
Definition tc_fold (b : octets) (l : Z) : Z := fold_left (λ l x, l * 256 + x) b l.
Definition tc_sign (b : octets) : Z :=
  match b with x :: _ => if Z.testbit x 7 then - 1 else 0 | [] => 0 end.
Definition tc_value (b : octets) : Z := tc_fold b (tc_sign b).

Lemma is_byte_sign x : is_byte x → negb (Z.shiftr x 7 =? 0) = Z.testbit x 7.
Proof.
  intros Hx. rewrite is_byte_bit7 by done. unfold is_byte in Hx. rewrite Z.shiftr_div_pow2 by lia.
  change (2 ^ 7) with 128. destruct (Z.leb_spec 128 x).
  - rewrite <-(Z.div_unique x 128 1 (x - 128)) by lia. done.
  - rewrite Z.div_small by lia. done.
Qed.

Lemma tc_step_range k l x : (0 < k)%nat → is_byte x →
  - 2 ^ (8 * Z.of_nat k - 1) ≤ l < 2 ^ (8 * Z.of_nat k - 1) →
  - 2 ^ (8 * Z.of_nat (S k) - 1) ≤ l * 256 + x < 2 ^ (8 * Z.of_nat (S k) - 1).
Proof.
  intros Hk Hx Hl. unfold is_byte in Hx.
  replace (8 * Z.of_nat (S k) - 1) with (8 * Z.of_nat k - 1 + 8) by lia.
  rewrite Z.pow_add_r by lia. change (2 ^ 8) with 256. lia.
Qed.

(** The conversion engine computes this value without overflow. *)
Lemma conversion_fold b k l : Forall is_byte b → (0 < k)%nat → (k + length b ≤ 8)%nat →
  - 2 ^ (8 * Z.of_nat k - 1) ≤ l < 2 ^ (8 * Z.of_nat k - 1) →
  fold_left (λ l x, swrap 64 (Z.lor (Z.shiftl l 8) x)) b l = tc_fold b l.
Proof.
  intros Hb. revert k l. induction Hb as [|x b Hx Hb IH]; intros k l Hk Hn Hl; [done|].
  cbn [fold_left length] in *. unfold tc_fold. cbn [fold_left].
  rewrite lor_shiftl_add by (unfold is_byte in Hx; lia). change (2 ^ 8) with 256.
  pose proof (tc_step_range k l x Hk Hx Hl) as Hr.
  assert (2 ^ (8 * Z.of_nat (S k) - 1) ≤ 2 ^ 63) by (apply Z.pow_le_mono_r; lia).
  rewrite swrap_small by lia. apply (IH (S k)); [lia..|done].
Qed.

Lemma INTEGER2long_value b : Forall is_byte b → (length b ≤ 8)%nat → asn_INTEGER2long b = Some (tc_value b).
Proof.
  intros Hb Hn. unfold asn_INTEGER2long. destruct (Nat.ltb_spec 8 (length b)); [lia|].
  destruct (Nat.ltb_spec 8 (length b)); [lia|].
  destruct Hb as [|x b Hx Hb]; [done|]. rewrite is_byte_sign by done.
  f_equal. unfold tc_value, tc_fold, tc_sign. cbn [fold_left]. cbn [length] in Hn.
  rewrite lor_shiftl_add by (unfold is_byte in Hx; lia). rewrite is_byte_bit7 by done.
  assert (- 2 ^ (8 * Z.of_nat 1 - 1) ≤ (if 128 <=? x then - 1 else 0) * 2 ^ 8 + x < 2 ^ (8 * Z.of_nat 1 - 1)) as Hr.
  { unfold is_byte in Hx. change (2 ^ 8) with 256. change (2 ^ (8 * Z.of_nat 1 - 1)) with 128.
    destruct (Z.leb_spec 128 x); lia. }
  rewrite swrap_small by (change (2 ^ (8 * Z.of_nat 1 - 1)) with 128 in Hr; lia).
  rewrite (conversion_fold b 1) by (done || lia). done.
Qed.

Lemma drop_sign_extension_spec b : Forall is_byte b →
  tc_value (drop_sign_extension b) = tc_value b ∧ Forall is_byte (drop_sign_extension b) ∧
  (length (drop_sign_extension b) ≤ length b)%nat.
Proof.
  intros Hb. induction Hb as [|x b Hx Hb IH]; [done|]. cbn [drop_sign_extension].
  destruct b as [|x1 b]; [by split_and!; [|constructor|]|].
  destruct (((x =? 0) && negb (Z.testbit x1 7)) || ((x =? 255) && Z.testbit x1 7)) eqn:E.
  2:{ split_and!; [done|by constructor|done]. }
  destruct IH as (IH1&IH2&IH3). split_and!; [|done|cbn [length] in *; lia].
  rewrite IH1. unfold tc_value, tc_fold, tc_sign. cbn [fold_left].
  apply orb_true_iff in E as [E|E]; apply andb_true_iff in E as [Ex E1]; apply Z.eqb_eq in Ex; subst x.
  - apply negb_true_iff in E1. rewrite E1. by cbn.
  - rewrite E1. by cbn.
Qed.

Lemma big_endian_spec n w : 0 ≤ w →
  length (big_endian n w) = n ∧ Forall is_byte (big_endian n w) ∧
  ∀ l, tc_fold (big_endian n w) l = l * 2 ^ (8 * Z.of_nat n) + w `mod` 2 ^ (8 * Z.of_nat n).
Proof.
  revert w. induction n as [|n IH]; intros w Hw; cbn [big_endian].
  { split_and!; [done|constructor|]. intros l. cbn. rewrite Z.mod_1_r. lia. }
  destruct (IH (Z.shiftr w 8)) as (H1&H2&H3); [apply Z.shiftr_nonneg; lia|].
  split_and!.
  - rewrite length_app. cbn. lia.
  - apply Forall_app. split; [done|]. constructor; [apply u8_is_byte|constructor].
  - intros l. unfold tc_fold in *. rewrite fold_left_app, H3. cbn [fold_left].
    rewrite Z.shiftr_div_pow2 by lia.
    replace (8 * Z.of_nat (S n)) with (8 + 8 * Z.of_nat n) by lia.
    rewrite Z.pow_add_r by lia. rewrite Z.rem_mul_r by lia. unfold wrap. change (2 ^ 8) with 256. lia.
Qed.

(** A [long] is read back, from at most eight octets. *)
Lemma int_octets_spec z : - 2 ^ 63 ≤ z < 2 ^ 63 →
  asn_INTEGER2long (int_octets z) = Some z ∧ (length (int_octets z) ≤ 8)%nat.
Proof.
  intros Hz. unfold int_octets. pose proof (wrap_range 64 z ltac:(lia)) as Hw.
  destruct (big_endian_spec 8 (wrap 64 z)) as (H1&H2&H3); [lia|].
  destruct (drop_sign_extension_spec _ H2) as (H4&H5&H6).
  split; [|lia]. rewrite INTEGER2long_value by (done || lia). f_equal. rewrite H4.
  unfold tc_value. rewrite H3. change (8 * Z.of_nat 8) with 64.
  assert (tc_sign (big_endian 8 (wrap 64 z)) = if 2 ^ 63 <=? wrap 64 z then - 1 else 0) as ->.
  { cbn [big_endian]. rewrite !Z.shiftr_shiftr by lia. cbn [app tc_sign].
    rewrite is_byte_bit7 by apply u8_is_byte.
    rewrite Z.shiftr_div_pow2 by lia. change (2 ^ (8 + (8 + (8 + (8 + (8 + (8 + 8))))))) with (2 ^ 56).
    assert (0 ≤ wrap 64 z / 2 ^ 56 < 256) as Hr.
    { split; [apply Z.div_pos; lia|]. apply Z.div_lt_upper_bound; lia. }
    rewrite (wrap_small 8) by lia.
    destruct (Z.leb_spec 128 (wrap 64 z / 2 ^ 56)) as [Hd|Hd], (Z.leb_spec (2 ^ 63) (wrap 64 z)) as [Hw'|Hw']; [done| | |done].
    - pose proof (Z.div_lt_upper_bound (wrap 64 z) (2 ^ 56) 128 ltac:(lia) ltac:(lia)). lia.
    - pose proof (Z.div_le_lower_bound (wrap 64 z) (2 ^ 56) 128 ltac:(lia) ltac:(lia)). lia. }
  rewrite (Z.mod_small (wrap 64 z)) by lia. unfold wrap in *.
  destruct (Z.leb_spec 0 z).
  - rewrite Z.mod_small in * by lia. destruct (Z.leb_spec (2 ^ 63) z); lia.
  - assert (z `mod` 2 ^ 64 = z + 2 ^ 64) as ->.
    { symmetry. apply (Z.mod_unique_pos z (2 ^ 64) (- 1)); lia. }
    destruct (Z.leb_spec (2 ^ 63) (z + 2 ^ 64)); lia.
Qed.

(** ** Tags and lengths *)

(** The octets in front of the contents. *)
Definition header_len (tags : list Z) (form : bool) (contents : octets) : nat :=
  (length (tlvs tags form contents) - length contents)%nat.

Lemma tlv_header tag c contents rest : tag_ok tag = true → Z.of_nat (length contents) + 1024 < 2 ^ 63 →
  let n := length (tag_octets tag) in
  let m := length (len_octets (Z.of_nat (length contents))) in
  ber_fetch_tag (tlv tag c contents ++ rest) = RC_OK tag n ∧
  BER_TLV_CONSTRUCTED (tlv tag c contents ++ rest) = c ∧
  ber_fetch_length c (drop n (tlv tag c contents ++ rest)) = RC_OK (Z.of_nat (length contents)) m ∧
  drop (n + m) (tlv tag c contents ++ rest) = contents ++ rest ∧
  length (tlv tag c contents) = (n + m + length contents)%nat ∧ (0 < n)%nat ∧ (0 < m)%nat.
Proof.
  intros Ht Hlen n m. apply tag_ok_range in Ht. unfold tlv. rewrite <-!app_assoc.
  destruct (fetch_tag_octets_of tag c (len_octets (Z.of_nat (length contents)) ++ contents ++ rest) Ht) as [H1 H2].
  destruct (tag_octets_length tag Ht) as [Hn _].
  destruct (len_octets_length (Z.of_nat (length contents)) ltac:(lia)) as [Hm _].
  split_and!; [done|done| | |rewrite !length_app, set_constructed_length; unfold n, m; lia|unfold n; lia|unfold m; lia].
  - rewrite drop_app_length' by by rewrite set_constructed_length.
    apply fetch_length_octets_of; lia.
  - rewrite app_assoc. apply drop_app_length'. by rewrite length_app, set_constructed_length.
Qed.

(** The loop over the tags reads them, if it is outside of any length or the
    length of the values around is the right one. *)
Lemma check_tags_tlvs tags form contents last_form rest expected limit c0 tl0 tc0 :
  tags ≠ [] → forallb tag_ok tags = true →
  Forall2 (λ o t, o = None ∨ o = Some t) expected tags → (last_form = None ∨ last_form = Some form) →
  Z.of_nat (length (tlvs tags form contents)) + 1024 < 2 ^ 63 →
  limit = - 1 ∨ limit = Z.of_nat (length (tlvs tags form contents)) →
  check_tags_loop expected last_form (tlvs tags form contents ++ rest) limit 0 tl0 tc0 c0 =
    RC_OK (Z.of_nat (length contents), form) (c0 + header_len tags form contents).
Proof.
  intros Hne Hok Hexp Hlast. revert rest limit c0 tl0 tc0 tags Hne Hok Hexp.
  induction expected as [|o expected IH]; intros rest limit c0 tl0 tc0 tags Hne Hok Hexp Hlen Hlim;
    inversion Hexp as [|? t ? tags' Ho Hexp']; subst; [done|].
  cbn [forallb] in Hok. apply andb_true_iff in Hok as [Ht Hok'].
  set (inner := tlvs tags' form contents).
  set (c := match tags' with [] => form | _ => true end).
  assert (tlvs (t :: tags') form contents = tlv t c inner) as Heq by by destruct tags'.
  rewrite Heq in *. unfold header_len. rewrite Heq.
  assert (length inner ≤ length (tlv t c inner))%nat by (rewrite tlv_length; lia).
  destruct (tlv_header t c inner rest Ht ltac:(lia)) as (H1&H2&H3&H4&H5&H6&H7).
  cbn [check_tags_loop]. rewrite H1. cbn [dec_bind]. rewrite H2.
  assert (match o with Some t' => negb (t =? t') | None => false end = false) as ->.
  { destruct Ho as [->| ->]; [done|]. by rewrite Z.eqb_refl. }
  assert (match expected, last_form with
          | _ :: _, _ => negb c | [], Some f => negb (eqb f c) | [], None => false end = false) as ->.
  { destruct Hexp' as [|? ? ? ? _ ?]; [|done]. cbn. destruct Hlast as [->| ->]; [done|]. by destruct form. }
  rewrite H3. cbn [dec_bind]. destruct (Z.eqb_spec (Z.of_nat (length inner)) (- 1)) as [|_]; [lia|].
  cbn [Z.eqb negb].
  set (n := length (tag_octets t)) in *. set (m := length (len_octets (Z.of_nat (length inner)))) in *.
  assert ((limit =? - 1) || (limit =? Z.of_nat (length inner) + Z.of_nat (n + m)) = true) as ->.
  { destruct Hlim as [->| ->]; [done|]. apply orb_true_iff. right. apply Z.eqb_eq. lia. }
  rewrite H4, Nat2Z.id, take_app_length.
  destruct tags' as [|t' tags'].
  - inversion Hexp'; subst. cbn [check_tags_loop Z.eqb]. unfold inner in *. cbn [tlvs] in *. f_equal. lia.
  - pose proof (IH [] (Z.of_nat (length inner)) (c0 + (n + m))%nat (Z.of_nat (length inner)) c
      (t' :: tags') ltac:(done) Hok' Hexp' ltac:(unfold inner in *; lia) ltac:(by right)) as IH'.
    rewrite app_nil_r in IH'. fold inner in IH'. rewrite IH'. f_equal. unfold header_len. fold inner.
    pose proof (tlvs_length_ge (t' :: tags') form contents) as Hge. fold inner in Hge. lia.
Qed.

(** A tag mode that the type can be encoded with. *)
Definition mode_ok (tags : list Z) (tm : Z) : bool :=
  ((tm =? 0) && negb (bool_decide (tags = []))) || (tm =? 1) || ((tm =? - 1) && negb (bool_decide (tags = []))).

Lemma ber_check_tags_tlvs d tags tm tag form contents last_form rest :
  let eff := effective_tags tags tm tag in
  (0 < d)%nat → mode_ok tags tm = true → forallb tag_ok tags = true → tag_ok tag = true →
  (last_form = None ∨ last_form = Some form) → Z.of_nat (length (tlvs eff form contents)) + 1024 < 2 ^ 63 →
  ber_check_tags d tags (tlvs eff form contents ++ rest) tm last_form =
    RC_OK (Z.of_nat (length contents), form) (header_len eff form contents) ∧
  drop (header_len eff form contents) (tlvs eff form contents ++ rest) = contents ++ rest ∧
  length (tlvs eff form contents) = (header_len eff form contents + length contents)%nat.
Proof.
  intros eff Hd Hm Hok Htag Hlast Hlen. pose proof (effective_tags_ok tags tm tag Hok Htag) as Heff.
  pose proof (tlvs_length_ge eff form contents) as Hge. split_and!.
  - assert (∀ expected, eff ≠ [] → Forall2 (λ o t, o = None ∨ o = Some t) expected eff →
      check_tags_loop expected last_form (tlvs eff form contents ++ rest) (- 1) 0 (- 1) false 0 =
      RC_OK (Z.of_nat (length contents), form) (header_len eff form contents)) as Hloop.
    { intros expected Hne Hexp.
      by rewrite (check_tags_tlvs eff form contents last_form rest expected (- 1)) by auto. }
    assert (∀ l : list Z, Forall2 (λ o t, o = None ∨ o = Some t) (map Some l) l) as Hmap.
    { induction l; constructor; auto. }
    unfold ber_check_tags. destruct d; [lia|]. unfold mode_ok in Hm. unfold eff, effective_tags in *.
    destruct (Z.eqb_spec tm 0) as [->|].
    { destruct tags as [|t tags]; [done|]. apply Hloop; [done|apply Hmap]. }
    destruct (Z.eqb_spec tm 1) as [->|].
    { cbn [Z.eqb andb]. apply Hloop; [done|]. constructor; [by left|apply Hmap]. }
    destruct (Z.eqb_spec tm (- 1)) as [->|]; [|done]. cbn [andb] in *.
    destruct tags as [|t tags]; [done|]. apply Hloop; [done|]. constructor; [by left|apply Hmap].
  - clear -Hge Hlen. unfold header_len. set (n := length contents).
    enough (∃ h, tlvs eff form contents = h ++ contents) as [h ->].
    { rewrite <-app_assoc, length_app. apply drop_app_length'. unfold n. lia. }
    clear. induction eff as [|t [|t' eff] IH].
    + by exists [].
    + cbn. unfold tlv. eexists. by rewrite app_assoc.
    + change (tlvs (t :: t' :: eff) form contents) with (tlv t true (tlvs (t' :: eff) form contents)).
      destruct IH as [h ->]. unfold tlv. eexists. by rewrite !app_assoc.
  - unfold header_len. lia.
Qed.

Lemma primitive_contents_tlvs {A} d tags tm tag contents rest (f : octets → option A) v :
  let out := tlvs (effective_tags tags tm tag) false contents in
  (0 < d)%nat → mode_ok tags tm = true → forallb tag_ok tags = true → tag_ok tag = true →
  Z.of_nat (length out) + 1024 < 2 ^ 63 → f contents = Some v →
  primitive_contents d tags (out ++ rest) tm f = RC_OK v (length out).
Proof.
  intros out Hd Hm Hok Htag Hlen Hf.
  destruct (ber_check_tags_tlvs d tags tm tag false contents (Some false) rest Hd Hm Hok Htag
    ltac:(by right) Hlen) as (H1&H2&H3).
  unfold primitive_contents. fold out in H1, H2, H3 |- *. rewrite H1. cbn [dec_bind]. rewrite H2.
  rewrite length_app. destruct (Z.ltb_spec (Z.of_nat (length contents + length rest)) (Z.of_nat (length contents))); [lia|].
  rewrite Nat2Z.id, take_app_length, Hf, H3. done.
Qed.

(** ** Consistent tables *)

(** The tags that the encoding of a type can begin with. *)
Definition member_tags {T} (outmost : T → list Z) (e : asn_TYPE_member T) : list Z :=
  if AsnTypes.tag_mode e =? 0 then outmost (m_type e) else [m_tag e].

Fixpoint outmost_tags (td : asn_TYPE_descriptor) : list Z :=
  match td_tags td with
  | t :: _ => [t]
  | [] => match td with
          | TD_CHOICE _ els _ =>
              concat (map (λ e, if AsnTypes.tag_mode e =? 0 then outmost_tags (m_type e) else [m_tag e]) els)
          | _ => []
          end
  end.

(** From member [i] on, each member up to the next mandatory one is found by its
    tags, and the run of optional members ends there or with the SEQUENCE. *)
Definition SEQUENCE_table_ok (els : list (asn_TYPE_member asn_TYPE_descriptor)) (specs : asn_SEQUENCE_specifics) : bool :=
  forallb (λ i,
    match els !! i with
    | None => true
    | Some e =>
        let last := (i + optional e)%nat in
        match els !! last with
        | Some e' => (optional e' =? 0)%nat
        | None => (last =? length els)%nat
        end &&
        forallb (λ j,
          match els !! j with
          | None => true
          | Some e' =>
              forallb (λ t, bool_decide (find_member els specs i (optional e) t = Some j))
                (member_tags outmost_tags e')
          end) (seq i (S (optional e)))
    end) (seq 0 (length els)).

Definition CHOICE_table_ok (els : list (asn_TYPE_member asn_TYPE_descriptor)) (specs : asn_CHOICE_specifics) : bool :=
  (0 <? length els)%nat &&
  forallb (λ i,
    match els !! i with
    | None => true
    | Some e =>
        forallb (λ t,
          match bsearch (_search4tag (MkTag2member t 0 0 0)) (c_tag2el specs) ≫= (c_tag2el specs !!.) with
          | Some t2m => (el_no t2m =? i)%nat
          | None => false
          end) (member_tags outmost_tags e)
    end) (seq 0 (length els)).

(** The tag mode a type can be encoded with; an untagged CHOICE has no tag to
    replace. *)
Definition type_mode_ok (td : asn_TYPE_descriptor) (tm : Z) : bool :=
  match td with
  | TD_CHOICE [] _ _ => (tm =? 0) || (tm =? 1)
  | _ => mode_ok (td_tags td) tm
  end.

Fixpoint table_ok (td : asn_TYPE_descriptor) : bool :=
  match td with
  | TD_SEQUENCE tags els specs =>
      forallb (λ e, type_mode_ok (m_type e) (AsnTypes.tag_mode e) && table_ok (m_type e)) els &&
      SEQUENCE_table_ok els specs
  | TD_CHOICE tags els specs =>
      forallb (λ e, type_mode_ok (m_type e) (AsnTypes.tag_mode e) && table_ok (m_type e)) els &&
      CHOICE_table_ok els specs
  | _ => true
  end.

(** Stack budget: the nesting of types. *)
Fixpoint td_depth (td : asn_TYPE_descriptor) : nat :=
  match td with
  | TD_SEQUENCE _ els _ | TD_CHOICE _ els _ => S (list_max (map (λ e, td_depth (m_type e)) els))
  | _ => 1
  end.

(** The value as it is read: a true BOOLEAN becomes 255. *)
Fixpoint canonical (v : asn_value) : asn_value :=
  match v with
  | VBool b => VBool (if b =? 0 then 0 else 255)
  | VSeq vs => VSeq (map (λ o, match o with Some v => Some (canonical v) | None => None end) vs)
  | VChoice present (Some v) => VChoice present (Some (canonical v))
  | _ => v
  end.

Lemma forallb_lookup {A} (f : A → bool) l i x : forallb f l = true → l !! i = Some x → f x = true.
Proof.
  intros Hf Hi. rewrite forallb_forall in Hf. apply Hf, list_elem_of_In. by eapply list_elem_of_lookup_2.
Qed.

Lemma effective_head tags tm tag : mode_ok tags tm = true →
  ∃ t eff, effective_tags tags tm tag = t :: eff ∧ t = (if tm =? 0 then default 0 (head tags) else tag).
Proof.
  unfold mode_ok, effective_tags. intros Hm. destruct (Z.eqb_spec tm 0) as [->|]; [|eauto].
  destruct tags as [|t tags]; [done|eauto].
Qed.

Lemma tlvs_fetch_tag t eff form contents rest : tag_ok t = true →
  Z.of_nat (length (tlvs (t :: eff) form contents)) + 1024 < 2 ^ 63 →
  ∃ n, ber_fetch_tag (tlvs (t :: eff) form contents ++ rest) = RC_OK t n ∧
    (0 < length (tlvs (t :: eff) form contents))%nat.
Proof.
  intros Ht Hlen.
  assert (∃ c inner, tlvs (t :: eff) form contents = tlv t c inner) as (c&inner&Heq).
  { destruct eff; cbn; eauto. }
  rewrite Heq in *. rewrite tlv_length in Hlen.
  destruct (tlv_header t c inner rest Ht ltac:(lia)) as (H1&_&_&_&H5&H6&_). eexists. split; [done|lia].
Qed.

Lemma tlvs_starts tags tm tag form contents rest :
  forallb tag_ok tags = true → tag_ok tag = true → mode_ok tags tm = true →
  let out := tlvs (effective_tags tags tm tag) form contents in
  Z.of_nat (length out) + 1024 < 2 ^ 63 →
  ∃ t n, ber_fetch_tag (out ++ rest) = RC_OK t n ∧ (0 < length out)%nat ∧
    In t (if tm =? 0 then match tags with t :: _ => [t] | [] => [] end else [tag]).
Proof.
  intros Hok Htag Hm out Hlen. unfold out in *. destruct (effective_head tags tm tag Hm) as (t&eff&Heff&Ht).
  pose proof (effective_tags_ok tags tm tag Hok Htag) as Hek. rewrite Heff in *.
  apply andb_true_iff in Hek as [Hek _].
  destruct (tlvs_fetch_tag t eff form contents rest Hek Hlen) as (n&H1&H2).
  exists t, n. split_and!; [done..|]. unfold mode_ok in Hm. destruct (tm =? 0) eqn:E; [|by left].
  destruct tags; [|by left]. by apply Z.eqb_eq in E as ->.
Qed.

(** The encoding of a value begins with one of these tags. *)
Lemma der_starts td : tags_ok td = true → table_ok td = true → ∀ v tm tag out rest,
  has_type td v → type_mode_ok td tm = true → tag_ok tag = true → der td v tm tag = Some out →
  Z.of_nat (length out) + 1024 < 2 ^ 63 →
  ∃ t n, ber_fetch_tag (out ++ rest) = RC_OK t n ∧ (0 < length out)%nat ∧
    In t (if tm =? 0 then outmost_tags td else [tag]).
Proof.
  induction td as [tags|tags|tags|tags els specs IH|tags els specs IH] using asn_TYPE_descriptor_ind';
    intros Htags Htab v tm tag out rest Hv Hm Htag Hout Hlen; cbn [tags_ok td_tags] in Htags;
    apply andb_true_iff in Htags as [Htok Hels].
  1-3: destruct v; try done; injection Hout as <-; by apply tlvs_starts.
  - destruct v; try done. cbn [der td_tags] in Hout. apply fmap_Some in Hout as (b&_&->).
    destruct (tlvs_starts tags tm tag true b rest Htok Htag Hm Hlen) as (t&n&H1&H2&H3).
    exists t, n. split_and!; [done..|]. destruct (tm =? 0); [|done]. by destruct tags.
  - destruct v as [| | | |present [v|]]; try done.
    2:{ cbn in Hv, Hout. subst present. destruct els; [|done].
        by apply andb_true_iff in Htab as [_ Htab]. }
    cbn [der td_tags] in Hout. apply has_type_CHOICE in Hv as (Hpos&e&He&Hv).
    rewrite list_lookup_fmap, He in Hout. cbn [fmap option_fmap option_map mbind option_bind] in Hout.
    destruct (der (m_type e) v (AsnTypes.tag_mode e) (m_tag e)) as [b|] eqn:Eb; [|done].
    cbn [mbind option_bind] in Hout. injection Hout as <-.
    destruct ((tm =? 1) || negb (bool_decide (tags = []))) eqn:Ewrap.
    + assert (mode_ok tags tm = true) as Hmode.
      { destruct tags; [|done]. cbn in Hm, Ewrap. rewrite orb_false_r in Ewrap.
        unfold mode_ok. by rewrite Ewrap, orb_true_r. }
      destruct (tlvs_starts tags tm tag true b rest Htok Htag Hmode Hlen) as (t&n&H1&H2&H3).
      exists t, n. split_and!; [done..|]. destruct (tm =? 0) eqn:E; [|done]. by destruct tags.
    + apply orb_false_iff in Ewrap as [E1 Ene]. destruct tags; [|done].
      cbn [type_mode_ok] in Hm. rewrite E1, orb_false_r in Hm. rewrite Hm.
      cbn [table_ok] in Htab. apply andb_true_iff in Htab as [Htab _].
      pose proof (forallb_lookup _ _ _ _ Htab He) as Hte. apply andb_true_iff in Hte as [Hme Hte].
      pose proof (forallb_lookup _ _ _ _ Hels He) as Hoe. apply andb_true_iff in Hoe as [Hmt Hoe].
      apply list_elem_of_lookup_2 in He as Hin. rewrite Forall_forall in IH.
      destruct (IH e Hin Hoe Hte v (AsnTypes.tag_mode e) (m_tag e) b rest Hv Hme Hmt Eb Hlen)
        as (t&n&H1&H2&H3).
      exists t, n. split_and!; [done..|]. cbn [outmost_tags td_tags]. apply in_concat.
      eexists. split; [apply in_map_iff; exists e; split; [done|by apply list_elem_of_In]|done].
Qed.

(** ** SEQUENCE *)

Lemma end_of_contents_definite {A} ctx_left ptr (f c : dec_rval A) :
  0 ≤ ctx_left → end_of_contents ctx_left ptr f c = c.
Proof.
  intros Hl. unfold end_of_contents. destruct ptr as [|[| |] ptr]; try done.
  by destruct (Z.ltb_spec ctx_left 0); [lia|].
Qed.

Lemma LEFT_app a rest : LEFT (Z.of_nat (length a)) (a ++ rest) = a.
Proof.
  unfold LEFT. destruct (Z.ltb_spec (Z.of_nat (length a)) 0); [lia|]. by rewrite Nat2Z.id, take_app_length.
Qed.

Definition canonical_member (o : option asn_value) : option asn_value :=
  match o with Some v => Some (canonical v) | None => None end.

Section sequence.
Context (els : list (asn_TYPE_member asn_TYPE_descriptor)) (specs : asn_SEQUENCE_specifics).
Context (decs : list member_decoder) (vs : list (option asn_value)) (d bound : nat).
Context (Htable : SEQUENCE_table_ok els specs = true).
Context (Hvs : Forall2 (member_ok has_type) els vs).

(** The encoding of the member [j]. *)
Definition member_der (j : nat) (b : octets) : Prop :=
  ∃ e v, els !! j = Some e ∧ vs !! j = Some (Some v) ∧ der (m_type e) v (AsnTypes.tag_mode e) (m_tag e) = Some b.

Context (Hstart : ∀ j b rest e, member_der j b → els !! j = Some e → Z.of_nat (length b) + 1024 < 2 ^ 63 →
  ∃ t n, ber_fetch_tag (b ++ rest) = RC_OK t n ∧ (0 < length b)%nat ∧ In t (member_tags outmost_tags e)).
Context (Hdec : ∀ j b rest e v, member_der j b → els !! j = Some e → vs !! j = Some (Some v) →
  Z.of_nat (length b) + 1024 < 2 ^ 63 → (length b ≤ bound)%nat →
  ∃ dec, decs !! j = Some dec ∧ dec (b ++ rest) (AsnTypes.tag_mode e) = RC_OK (canonical v) (length b)).

(** The encoding of the members from [i] on, and the structure when these are
    missing. *)
Definition contents_from (i : nat) : option octets :=
  der_members (drop i els) (map (λ e, der (m_type e)) (drop i els)) (drop i vs).
Definition members_until (i : nat) : list (option asn_value) :=
  map canonical_member (take i vs) ++ replicate (length vs - i) None.

Lemma contents_from_None i : vs !! i = Some None → contents_from i = contents_from (S i).
Proof.
  intros Hi. unfold contents_from. destruct (Forall2_lookup_r _ _ _ _ _ Hvs Hi) as (e&He&_).
  rewrite (drop_S els e i He), (drop_S vs None i Hi). cbn.
  by destruct (der_members (drop (S i) els) _ (drop (S i) vs)).
Qed.

Lemma contents_from_Some i e v b : els !! i = Some e → vs !! i = Some (Some v) →
  contents_from i = Some b →
  ∃ b1 b2, der (m_type e) v (AsnTypes.tag_mode e) (m_tag e) = Some b1 ∧ contents_from (S i) = Some b2 ∧ b = b1 ++ b2.
Proof.
  intros He Hi. unfold contents_from. rewrite (drop_S els e i He), (drop_S vs _ i Hi). cbn.
  destruct (der (m_type e) v _ _) as [b1|]; [|done]. cbn.
  destruct (der_members (drop (S i) els) _ (drop (S i) vs)) as [b2|]; [|done]. intros [= <-]. eauto.
Qed.

Lemma members_until_None i : vs !! i = Some None → members_until (S i) = members_until i.
Proof.
  intros Hi. unfold members_until. rewrite (take_S_r _ _ _ Hi), map_app, <-app_assoc. f_equal. cbn.
  apply lookup_lt_Some in Hi. by replace (length vs - i)%nat with (S (length vs - S i)) by lia.
Qed.

Lemma members_until_Some i v : vs !! i = Some (Some v) →
  <[i := Some (canonical v)]> (members_until i) = members_until (S i).
Proof.
  intros Hi. unfold members_until. apply lookup_lt_Some in Hi as Hlt.
  rewrite (take_S_r _ _ _ Hi), map_app, <-app_assoc.
  assert (length (map canonical_member (take i vs)) = i) as Hlen.
  { rewrite length_map, length_take. lia. }
  rewrite insert_app_r_alt by lia. rewrite Hlen, Nat.sub_diag. f_equal.
  by replace (length vs - i)%nat with (S (length vs - S i)) by lia.
Qed.

(** From [i] on either all members are absent or [j] is the first present one. *)
Lemma first_present i :
  (contents_from i = Some [] ∧ members_until i = members_until (length vs) ∧
     ∀ j, (i ≤ j)%nat → (j < length vs)%nat → vs !! j = Some None) ∨
  ∃ j v, (i ≤ j)%nat ∧ vs !! j = Some (Some v) ∧ contents_from i = contents_from j ∧
    members_until i = members_until j ∧ ∀ k, (i ≤ k < j)%nat → vs !! k = Some None.
Proof.
  remember (length vs - i)%nat as n eqn:Hn. revert i Hn. induction n as [|n IH]; intros i Hn.
  - left. split_and!; [|unfold members_until|intros; lia].
    + unfold contents_from. apply Forall2_length in Hvs as Hl. by rewrite !drop_ge by lia.
    + by rewrite !take_ge, <-Hn, Nat.sub_diag by lia.
  - destruct (lookup_lt_is_Some_2 vs i ltac:(lia)) as [[v|] Hi].
    { right. exists i, v. split_and!; [lia|done..|]. intros; lia. }
    rewrite (contents_from_None i Hi), <-(members_until_None i Hi).
    destruct (IH (S i) ltac:(lia)) as [(H1&H2&H3)|(j&v&H1&H2&H3&H4&H5)].
    + left. split_and!; [done..|]. intros j ? ?. destruct (decide (j = i)) as [->|]; [done|]. apply H3; lia.
    + right. exists j, v. split_and!; [lia|done..|]. intros k Hk.
      destruct (decide (k = i)) as [->|]; [done|]. apply H5. lia.
Qed.

(** What the table says about the first present member, or the end. *)
Lemma table_next i e : els !! i = Some e →
  ((∀ j, (i ≤ j)%nat → (j < length vs)%nat → vs !! j = Some None) → (i + optional e)%nat = length els) ∧
  (∀ j v e' t, (i ≤ j)%nat → vs !! j = Some (Some v) → (∀ k, (i ≤ k < j)%nat → vs !! k = Some None) →
     els !! j = Some e' → In t (member_tags outmost_tags e') →
     find_member els specs i (optional e) t = Some j).
Proof.
  intros He. unfold SEQUENCE_table_ok in Htable. rewrite forallb_forall in Htable.
  specialize (Htable i ltac:(apply in_seq; apply lookup_lt_Some in He; lia)). rewrite He in Htable.
  cbv zeta in Htable. apply andb_true_iff in Htable as [Hend Hfind].
  set (last := (i + optional e)%nat) in *. apply Forall2_length in Hvs as Hl.
  assert (∀ k, (i ≤ k)%nat → vs !! k = Some None → k ≠ last ∨ els !! last = None) as Hmand.
  { intros k Hk Hv. destruct (decide (k = last)) as [->|]; [|by left].
    destruct (els !! last) as [e'|] eqn:El; [|by right]. exfalso.
    pose proof (Forall2_lookup_lr _ _ _ _ _ _ Hvs El Hv) as [_ Ho]. apply Nat.eqb_eq in Hend. done. }
  split.
  - intros Hall. destruct (els !! last) as [e'|] eqn:El; [|by apply Nat.eqb_eq in Hend].
    apply lookup_lt_Some in El as Hlt.
    destruct (Hmand last ltac:(lia) (Hall last ltac:(lia) ltac:(lia))); done.
  - intros j v e' t Hij Hj Hbefore Hej Hin.
    assert (j ≤ last)%nat as Hjl.
    { destruct (le_lt_dec j last); [done|]. destruct (Hmand last ltac:(lia) (Hbefore last ltac:(lia))) as [?|El]; [done|].
      apply lookup_ge_None in El. apply lookup_lt_Some in Hej. lia. }
    rewrite forallb_forall in Hfind. specialize (Hfind j ltac:(apply in_seq; unfold last in *; lia)).
    rewrite Hej in Hfind. rewrite forallb_forall in Hfind. specialize (Hfind t Hin).
    by apply bool_decide_eq_true in Hfind.
Qed.

Lemma SEQUENCE_loop_der fuel i contents rest consumed :
  (i ≤ length els)%nat → (length contents + 2 ≤ fuel)%nat → (length contents ≤ bound)%nat →
  contents_from i = Some contents →
  Z.of_nat (length contents) + 1024 < 2 ^ 63 →
  SEQUENCE_loop fuel d els specs decs i (Z.of_nat (length contents)) (contents ++ rest) consumed (members_until i) =
    RC_OK (map canonical_member vs) (consumed + length contents).
Proof.
  apply Forall2_length in Hvs as Hl.
  assert (members_until (length vs) = map canonical_member vs) as Hfinal.
  { unfold members_until. by rewrite take_ge, Nat.sub_diag, app_nil_r by lia. }
  revert i contents consumed. induction fuel as [|fuel IH]; intros i contents consumed Hi Hfuel Hbound Hc Hlen; [lia|].
  cbn [SEQUENCE_loop]. destruct (els !! i) as [e|] eqn:He.
  2:{ apply lookup_ge_None in He. unfold contents_from in Hc. rewrite !drop_ge in Hc by lia. injection Hc as <-.
      destruct fuel as [|fuel]; [cbn in Hfuel; lia|]. cbn [SEQUENCE_rest length Z.of_nat Z.eqb].
      rewrite <-Hfinal. f_equal; [|lia]. by replace i with (length vs) by lia. }
  destruct (table_next i e He) as [Hend Hfind].
  destruct (first_present i) as [(H1&H2&H3)|(j&v&Hij&Hj&Hcj&Hmj&Hbefore)].
  - rewrite H1 in Hc. injection Hc as <-. cbn [length Z.of_nat Z.eqb andb].
    rewrite Hend, Nat.eqb_refl by done. cbn [orb]. rewrite H2, Hfinal. f_equal. lia.
  - destruct (Forall2_lookup_r _ _ _ _ _ Hvs Hj) as (e'&He'&_). rewrite Hcj in Hc.
    destruct (contents_from_Some j e' v contents He' Hj Hc) as (b1&b2&Hb1&Hb2&->).
    assert (member_der j b1) as Hmd by (eexists _, _; eauto).
    rewrite length_app in *. 
    destruct (Hstart j b1 b2 e' Hmd He' ltac:(lia)) as (t&n&Ht&Hpos&Hin).
    destruct (Z.eqb_spec (Z.of_nat (length b1 + length b2)) 0) as [|_]; [lia|]. cbn [andb].
    rewrite <-length_app, LEFT_app, Ht. cbn [dec_bind_in dec_bind].
    rewrite end_of_contents_definite by lia.
    rewrite (Hfind j v e' t Hij Hj Hbefore He' Hin), He'.
    destruct (Hdec j b1 b2 e' v Hmd He' Hj ltac:(lia) ltac:(lia)) as (dec&Hdj&Hd). rewrite Hdj, Hd.
    cbn [dec_bind_in dec_bind]. unfold advance. destruct (Z.leb_spec 0 (Z.of_nat (length (b1 ++ b2)))) as [_|]; [|lia].
    rewrite Hmj, members_until_Some by done. rewrite length_app, <-app_assoc, drop_app_length.
    replace (Z.of_nat (length b1 + length b2) - Z.of_nat (length b1)) with (Z.of_nat (length b2)) by lia.
    rewrite IH; [f_equal; lia| | |lia|done|lia].
    + apply lookup_lt_Some in He'. lia.
    + lia.
Qed.
End sequence.

(** ** All types *)

Lemma header_len_pos tags tm tag form contents :
  forallb tag_ok tags = true → tag_ok tag = true → mode_ok tags tm = true →
  Z.of_nat (length (tlvs (effective_tags tags tm tag) form contents)) + 1024 < 2 ^ 63 →
  (2 ≤ header_len (effective_tags tags tm tag) form contents)%nat.
Proof.
  intros Hok Htag Hm Hlen. destruct (effective_head tags tm tag Hm) as (t&eff&Heff&_).
  pose proof (effective_tags_ok tags tm tag Hok Htag) as Hek. rewrite Heff in *.
  apply andb_true_iff in Hek as [Hek _]. unfold header_len.
  assert (tlvs (t :: eff) form contents =
    tlv t (match eff with [] => form | _ => true end) (tlvs eff form contents)) as Heq by by destruct eff.
  rewrite Heq in *. rewrite tlv_length in Hlen |- *.
  destruct (tag_octets_length t (tag_ok_range _ Hek)) as [Hn _].
  pose proof (tlvs_length_ge eff form contents).
  destruct (len_octets_length (Z.of_nat (length (tlvs eff form contents))) ltac:(lia)) as [Hm' _]. lia.
Qed.

Lemma CHOICE_table_lookup els specs i e t : CHOICE_table_ok els specs = true → els !! i = Some e →
  In t (member_tags outmost_tags e) →
  ∃ t2m, bsearch (_search4tag (MkTag2member t 0 0 0)) (c_tag2el specs) ≫= (c_tag2el specs !!.) = Some t2m ∧
    el_no t2m = i.
Proof.
  intros Htab He Ht. apply andb_true_iff in Htab as [_ Htab]. rewrite forallb_forall in Htab.
  specialize (Htab i ltac:(apply in_seq; apply lookup_lt_Some in He; lia)). rewrite He in Htab.
  rewrite forallb_forall in Htab. specialize (Htab t Ht). cbn beta in Htab.
  destruct (_ ≫= _) as [t2m|]; [|done]. apply Nat.eqb_eq in Htab. eauto.
Qed.

Lemma list_max_ge (l : list nat) n : In n l → (n ≤ list_max l)%nat.
Proof. intros Hn. pose proof (proj1 (list_max_le l (list_max l)) (le_n _)) as Hf. rewrite List.Forall_forall in Hf. auto. Qed.

Definition decodes_der (td : asn_TYPE_descriptor) : Prop :=
  ∀ fuel d v tm tag out rest, has_type td v → type_mode_ok td tm = true → tag_ok tag = true →
  der td v tm tag = Some out → Z.of_nat (length out) + 1024 < 2 ^ 63 →
  (length out ≤ fuel)%nat → (td_depth td ≤ d)%nat →
  ber_decoder fuel d td (out ++ rest) tm = RC_OK (canonical v) (length out).

Lemma SEQUENCE_decodes_der tags els specs :
  tags_ok (TD_SEQUENCE tags els specs) = true → table_ok (TD_SEQUENCE tags els specs) = true →
  Forall (λ e, decodes_der (m_type e)) els → decodes_der (TD_SEQUENCE tags els specs).
Proof.
  intros Htags Htab IH fuel d v tm tag out rest Hv Hm Htag Hout Hlen Hfuel Hd.
  cbn [tags_ok td_tags] in Htags. apply andb_true_iff in Htags as [Htok Hels].
  cbn [table_ok] in Htab. apply andb_true_iff in Htab as [Hmem Hseq].
  destruct v as [| | |vs|]; try done. apply has_type_SEQUENCE in Hv.
  cbn [der td_tags] in Hout. apply fmap_Some in Hout as (contents&Hc&->).
  cbn [td_depth] in Hd. cbn [ber_decoder]. unfold SEQUENCE_decode_ber.
  destruct (ber_check_tags_tlvs d tags tm tag true contents (Some true) rest ltac:(lia) Hm Htok Htag
    ltac:(by right) Hlen) as (H1&H2&H3).
  pose proof (header_len_pos tags tm tag true contents Htok Htag Hm Hlen) as Hh.
  rewrite H1. cbn [dec_bind]. rewrite H2.
  assert (zero_members els = members_until vs 0) as ->.
  { unfold members_until, zero_members. rewrite take_0, Nat.sub_0_r. cbn [map app].
    rewrite <-(Forall2_length _ _ _ Hv). clear. induction els; cbn; [done|]. by f_equal. }
  assert (∀ j e v b, els !! j = Some e → vs !! j = Some (Some v) →
    der (m_type e) v (AsnTypes.tag_mode e) (m_tag e) = Some b →
    decodes_der (m_type e) ∧ has_type (m_type e) v ∧ type_mode_ok (m_type e) (AsnTypes.tag_mode e) = true ∧
    table_ok (m_type e) = true ∧ tag_ok (m_tag e) = true ∧ tags_ok (m_type e) = true ∧
    (td_depth (m_type e) ≤ d - 1)%nat) as Hmember.
  { intros j e v b He Hj Hb.
    pose proof (forallb_lookup _ _ _ _ Hmem He) as Hte. apply andb_true_iff in Hte as [Hme Hte].
    pose proof (forallb_lookup _ _ _ _ Hels He) as Hoe. apply andb_true_iff in Hoe as [Hmt Hoe].
    split_and!; try done.
    - by apply (Forall_lookup_1 _ _ _ _ IH He).
    - by apply (Forall2_lookup_lr _ _ _ _ _ _ Hv He Hj).
    - enough (td_depth (m_type e) ≤ list_max (map (λ e, td_depth (m_type e)) els))%nat by lia.
      apply list_max_ge. apply (in_map (λ e, td_depth (m_type e))).
      apply list_elem_of_In. by eapply list_elem_of_lookup_2. }
  rewrite (SEQUENCE_loop_der els specs _ vs d (length contents) Hseq Hv) with (contents := contents).
  - cbn [dec_bind canonical]. by rewrite H3.
  - intros j b rest' e (e'&v&He'&Hj&Hb) He Hlb. rewrite He in He'. injection He' as <-.
    destruct (Hmember j e v b He Hj Hb) as (_&Hv'&Hm'&Ht'&Hk'&Ho'&_).
    by apply (der_starts (m_type e) Ho' Ht' v _ _ _ _ Hv' Hm' Hk' Hb Hlb).
  - intros j b rest' e v (e'&v'&He'&Hj'&Hb) He Hj Hlb Hbl.
    rewrite He in He'. injection He' as <-. rewrite Hj in Hj'. injection Hj' as <-.
    destruct (Hmember j e v b He Hj Hb) as (Hdd&Hv'&Hm'&_&Hk'&_&Hdepth).
    rewrite list_lookup_fmap, He. eexists. split; [done|].
    apply (Hdd fuel (d - 1)%nat v _ (m_tag e)); try done; lia.
  - lia.
  - lia.
  - lia.
  - unfold contents_from. by rewrite !drop_0.
  - lia.
Qed.

Lemma CHOICE_decodes_der tags els specs :
  tags_ok (TD_CHOICE tags els specs) = true → table_ok (TD_CHOICE tags els specs) = true →
  Forall (λ e, decodes_der (m_type e)) els → decodes_der (TD_CHOICE tags els specs).
Proof.
  intros Htags Htab IH fuel d v tm tag out rest Hv Hm Htag Hout Hlen Hfuel Hd.
  cbn [tags_ok td_tags] in Htags. apply andb_true_iff in Htags as [Htok Hels].
  cbn [table_ok] in Htab. apply andb_true_iff in Htab as [Hmem Hch].
  destruct v as [| | | |present [v|]]; try done.
  2:{ cbn in Hv, Hout. subst present. destruct els; done. }
  cbn [der td_tags] in Hout. apply has_type_CHOICE in Hv as (Hpos&e&He&Hv).
  rewrite list_lookup_fmap, He in Hout. cbn [fmap option_fmap option_map mbind option_bind] in Hout.
  destruct (der (m_type e) v (AsnTypes.tag_mode e) (m_tag e)) as [b|] eqn:Eb; [|done].
  cbn [mbind option_bind] in Hout. injection Hout as <-.
  set (i := Z.to_nat (present - 1)) in *.
  pose proof (forallb_lookup _ _ _ _ Hmem He) as Hte. apply andb_true_iff in Hte as [Hme Hte].
  pose proof (forallb_lookup _ _ _ _ Hels He) as Hoe. apply andb_true_iff in Hoe as [Hmt Hoe].
  pose proof (Forall_lookup_1 _ _ _ _ IH He) as Hdd.
  assert (td_depth (m_type e) ≤ d - 1)%nat as Hdepth.
  { cbn [td_depth] in Hd. enough (td_depth (m_type e) ≤ list_max (map (λ e, td_depth (m_type e)) els))%nat by lia.
    apply list_max_ge. apply (in_map (λ e, td_depth (m_type e))).
    apply list_elem_of_In. by eapply list_elem_of_lookup_2. }
  assert (∀ r, Z.of_nat (length b) + 1024 < 2 ^ 63 → (length b ≤ fuel)%nat →
    ∃ t n t2m, ber_fetch_tag (b ++ r) = RC_OK t n ∧
      bsearch (_search4tag (MkTag2member t 0 0 0)) (c_tag2el specs) ≫= (c_tag2el specs !!.) = Some t2m ∧
      el_no t2m = i ∧
      ber_decoder fuel (d - 1) (m_type e) (b ++ r) (AsnTypes.tag_mode e) = RC_OK (canonical v) (length b))
    as Hmember.
  { intros r Hlb Hfb.
    destruct (der_starts (m_type e) Hoe Hte v _ _ _ r Hv Hme Hmt Eb Hlb) as (t&n&H1&_&H3).
    destruct (CHOICE_table_lookup els specs i e t Hch He H3) as (t2m&Ht2&Hi).
    exists t, n, t2m. split_and!; try done. by apply (Hdd _ _ v _ (m_tag e)). }
  assert (Z.of_nat i + 1 = present) as Hpres by (unfold i; lia).
  cbn [ber_decoder canonical]. unfold CHOICE_decode_ber.
  destruct ((tm =? 1) || negb (bool_decide (tags = []))) eqn:Ewrap.
  - assert (mode_ok tags tm = true) as Hmode.
    { destruct tags; [|done]. cbn in Hm, Ewrap. rewrite orb_false_r in Ewrap.
      unfold mode_ok. by rewrite Ewrap, orb_true_r. }
    assert ((tm =? 0) && bool_decide (tags = []) = false) as ->.
    { destruct (Z.eqb_spec tm 0) as [->|]; [|done]. by destruct tags. }
    destruct (ber_check_tags_tlvs d tags tm tag true b None rest ltac:(cbn [td_depth] in Hd; lia) Hmode Htok Htag
      ltac:(by left) Hlen) as (H1&H2&H3).
    pose proof (header_len_pos tags tm tag true b Htok Htag Hmode Hlen) as Hh.
    destruct (Hmember [] ltac:(lia) ltac:(lia)) as (t&n&t2m&Hf&Hb&Hi&Hdc). rewrite app_nil_r in Hf, Hdc.
    rewrite H1. cbn [dec_bind]. rewrite H2, LEFT_app, Hf. cbn [dec_bind_in dec_bind].
    rewrite Hb, Hi, He, list_lookup_fmap, He. cbn [fmap option_fmap option_map]. rewrite Hdc.
    cbn [dec_bind_in dec_bind]. unfold advance.
    destruct (Z.leb_spec 0 (Z.of_nat (length b))) as [_|]; [|lia]. rewrite Z.sub_diag. cbn [Z.ltb Z.compare].
    destruct fuel as [|fuel]; [lia|]. cbn [CHOICE_rest Z.ltb Z.compare negb]. rewrite Hpres. by rewrite H3.
  - apply orb_false_iff in Ewrap as [E1 Ene]. destruct tags; [|done].
    cbn [type_mode_ok] in Hm. rewrite E1, orb_false_r in Hm. rewrite Hm. cbn [andb bool_decide].
    destruct (Hmember rest Hlen Hfuel) as (t&n&t2m&Hf&Hb&Hi&Hdc).
    assert (bool_decide (([] : list Z) = []) = true) as -> by done. cbn [dec_bind]. rewrite drop_0.
    unfold LEFT. cbn [Z.ltb Z.compare Z.opp]. change (-1 <? 0) with true. cbn [Z.ltb]. rewrite Hf.
    cbn [dec_bind_in dec_bind]. rewrite Hb, Hi, He, list_lookup_fmap, He. cbn [fmap option_fmap option_map].
    rewrite Hdc. cbn [dec_bind_in dec_bind]. change (0 <? advance (-1) (length b)) with false.
    cbn [Nat.add]. by rewrite Hpres.
Qed.

Lemma ber_decoder_der td : tags_ok td = true → table_ok td = true → decodes_der td.
Proof.
  induction td as [tags|tags|tags|tags els specs IH|tags els specs IH] using asn_TYPE_descriptor_ind';
    intros Htags Htab.
  1-3: intros fuel d v tm tag out rest Hv Hm Htag Hout Hlen Hfuel Hd; destruct v as [z|z|s| |]; try done;
    injection Hout as <-; cbn [tags_ok td_tags] in Htags; rewrite andb_true_r in Htags; cbn [td_depth] in Hd.
  - apply primitive_contents_tlvs; try done. by rewrite (proj1 (int_octets_spec z Hv)).
  - apply primitive_contents_tlvs; try done. cbn. by destruct (z =? 0).
  - destruct Hv as [_ Hs].
    destruct (ber_check_tags_tlvs d tags tm tag false s None rest ltac:(lia) Hm Htags Htag
      ltac:(by left) Hlen) as (H1&H2&H3).
    cbn [ber_decoder td_tags canonical] in *. unfold OCTET_STRING_decode_ber. rewrite H1. cbn [dec_bind].
    destruct (Z.ltb_spec (Z.of_nat (length s)) 0); [lia|]. rewrite H2, length_app.
    destruct (Z.ltb_spec (Z.of_nat (length s + length rest)) (Z.of_nat (length s))); [lia|].
    rewrite Nat2Z.id, take_app_length. unfold os_append. cbn [length Nat.add app].
    destruct (Z.leb_spec (2 ^ 30) (Z.of_nat (length s))); [lia|]. by rewrite H3.
  - apply SEQUENCE_decodes_der; [done..|]. cbn in Htags, Htab.
    apply andb_true_iff in Htags as [_ Hels]. apply andb_true_iff in Htab as [Hmem _].
    apply Forall_lookup_2. intros i e He. apply (Forall_lookup_1 _ _ _ _ IH He).
    + pose proof (forallb_lookup _ _ _ _ Hels He) as Ho. by apply andb_true_iff in Ho as [_ ?].
    + pose proof (forallb_lookup _ _ _ _ Hmem He) as Ho. by apply andb_true_iff in Ho as [_ ?].
  - apply CHOICE_decodes_der; [done..|]. cbn in Htags, Htab.
    apply andb_true_iff in Htags as [_ Hels]. apply andb_true_iff in Htab as [Hmem _].
    apply Forall_lookup_2. intros i e He. apply (Forall_lookup_1 _ _ _ _ IH He).
    + pose proof (forallb_lookup _ _ _ _ Hels He) as Ho. by apply andb_true_iff in Ho as [_ ?].
    + pose proof (forallb_lookup _ _ _ _ Hmem He) as Ho. by apply andb_true_iff in Ho as [_ ?].
Qed.

(** C8. Decoding is the inverse of encoding: for every type with consistent tables
    and every value of it, the decoder reads from the encoding, whatever
    follows it, exactly its octets and the value, in which a true BOOLEAN is 255. *)
Theorem ber_decode_der td v out rest fuel d :
  tags_ok td = true → table_ok td = true → type_mode_ok td 0 = true → has_type td v →
  der td v 0 0 = Some out → Z.of_nat (length out) + 1024 < 2 ^ 63 →
  (length out ≤ fuel)%nat → (td_depth td ≤ d)%nat →
  ber_decode fuel d td (out ++ rest) = RC_OK (canonical v) (length out).
Proof. intros Ht Htab Hm Hv Hout Hlen Hf Hd. by apply (ber_decoder_der td Ht Htab fuel d v 0 0). Qed.

Lemma ber_decode_der_witness :
  ber_decode 8 1 asn_DEF_SlotPhysStatus ([48; 6; 128; 1; 255; 130; 1; 0] ++ [77]) =
    RC_FAIL ∧
  ber_decode 8 2 asn_DEF_SlotPhysStatus ([48; 6; 128; 1; 255; 130; 1; 0] ++ [77]) =
    RC_OK (VSeq [Some (VBool 255); None; Some (VBool 0); None]) 8.
Proof.
  split; [vm_compute; reflexivity|].
  apply (ber_decode_der asn_DEF_SlotPhysStatus example_status [48; 6; 128; 1; 255; 130; 1; 0] [77] 8 2);
    try (vm_compute; reflexivity); [exact example_status_typed|cbn; lia..].
Defined.
