(* ===== verification/BerSafe.v ===== *)
(** * The decoder on any input

    Whatever octets arrive: what is decoded is a value of the type and at most
    the buffer is consumed, no assertion fails, and the budget for the loops is
    enough, except where the loop behind a CHOICE does not end. *)

From S2P Require Import Prelude.
From S2P Require Import RsproPdu.
From S2P Require Import BerTlv.
From S2P Require Import AsnTypes.
From S2P Require Import RsproTables.
From S2P Require Import DerEncoder.
From S2P Require Import DerProps.
From S2P Require Import BerDecoder.
From S2P Require Import BerRoundtrip.

(** An octet 0 that is not followed by another one, behind an indefinite length:
    what the loop behind a CHOICE neither consumes nor rejects. *)
Definition stuck (ptr : octets) : Prop :=
  ∃ pre x post, ptr = pre ++ 0 :: x :: post ∧ x ≠ 0 ∧ In 128 pre.

Lemma stuck_app_r a b : stuck b → stuck (a ++ b).
Proof.
  intros (pre&x&post&->&Hx&Hin). exists (a ++ pre), x, post. rewrite <-app_assoc. split_and!; [done..|].
  apply in_app_iff. by right.
Qed.

Lemma stuck_app_l a b : stuck a → stuck (a ++ b).
Proof. intros (pre&x&post&->&Hx&Hin). exists pre, x, (post ++ b). by rewrite <-app_assoc. Qed.

Lemma stuck_drop n ptr : stuck (drop n ptr) → stuck ptr.
Proof. intros H. rewrite <-(take_drop n ptr). by apply stuck_app_r. Qed.

Lemma stuck_take n ptr : stuck (take n ptr) → stuck ptr.
Proof. intros H. rewrite <-(take_drop n ptr). by apply stuck_app_l. Qed.

Lemma stuck_LEFT l ptr : stuck (LEFT l ptr) → stuck ptr.
Proof. unfold LEFT. destruct (l <? 0); [done|apply stuck_take]. Qed.

(** A result: its value satisfies [Q], and of [ptr] at least [lo] octets were
    consumed, [c0] being consumed before. *)
Definition good {A} (Q : A → Prop) (lo c0 : nat) (ptr : octets) (r : dec_rval A) : Prop :=
  match r with
  | RC_OK v n => Q v ∧ (c0 + lo ≤ n ≤ c0 + length ptr)%nat
  | RC_LOOP => stuck ptr
  | RC_ABORT => False
  | _ => True
  end.

Lemma good_bind {A B} (Q : A → Prop) (Q' : B → Prop) lo c0 ptr' lo' c0' ptr (r : dec_rval A) f :
  good Q lo c0 ptr' r → (stuck ptr' → stuck ptr) →
  (∀ v n, r = RC_OK v n → Q v → (c0 + lo ≤ n ≤ c0 + length ptr')%nat → good Q' lo' c0' ptr (f v n)) →
  good Q' lo' c0' ptr (dec_bind r f).
Proof. destruct r as [v n| | | |]; cbn; try done; [|by auto]. intros [Hv Hn] _ Hf. by apply Hf. Qed.

Lemma good_bind_in {A B} (Q : A → Prop) (Q' : B → Prop) sv lo c0 ptr' lo' c0' ptr (r : dec_rval A) f :
  good Q lo c0 ptr' r → (stuck ptr' → stuck ptr) →
  (∀ v n, r = RC_OK v n → Q v → (c0 + lo ≤ n ≤ c0 + length ptr')%nat → good Q' lo' c0' ptr (f v n)) →
  good Q' lo' c0' ptr (dec_bind_in sv r f).
Proof.
  intros H1 H2 H3. unfold dec_bind_in. destruct r; [by eapply good_bind|by destruct sv|by eapply good_bind..].
Qed.

Lemma good_weaken {A} (Q Q' : A → Prop) lo lo' c0 c0' ptr ptr' (r : dec_rval A) :
  good Q lo c0 ptr r → (∀ v, Q v → Q' v) → (c0' + lo' ≤ c0 + lo)%nat → (c0 + length ptr ≤ c0' + length ptr')%nat →
  (stuck ptr → stuck ptr') → good Q' lo' c0' ptr' r.
Proof. destruct r; cbn; try done; [|auto]. intros [Hv Hn] HQ H1 H2 _. split; [auto|lia]. Qed.

(** ** Tags and lengths *)

Lemma fetch_tag_octets_good tclass val skipped ptr :
  good (λ _, True) 1 (skipped - 1) ptr (fetch_tag_octets tclass val skipped ptr) ∨ skipped = 0%nat.
Proof.
  destruct skipped as [|skipped]; [by right|]. left. cbn [Nat.sub]. rewrite Nat.sub_0_r.
  revert val skipped. induction ptr as [|oct ptr IH]; intros val skipped; [done|]. cbn [fetch_tag_octets].
  destruct (Z.testbit oct 7); [|cbn; split; [done|lia]].
  destruct (_ =? 0); [|done]. eapply good_weaken; [apply (IH _ (S skipped))|done|lia|cbn; lia|].
  apply (stuck_app_r [oct]).
Qed.

Lemma fetch_tag_good ptr : good (λ _, True) 1 0 ptr (ber_fetch_tag ptr).
Proof.
  destruct ptr as [|o ptr]; [done|]. cbn [ber_fetch_tag].
  destruct (negb (Z.land o 31 =? 31)); [cbn; split; [done|lia]|].
  destruct (fetch_tag_octets_good (Z.shiftr o 6) 0 2 ptr) as [H|]; [|done].
  eapply good_weaken; [exact H|done|lia|cbn; lia|]. apply (stuck_app_r [o]).
Qed.

Lemma fetch_length_octets_good n len skipped buf : 0 ≤ len →
  good (λ v, 0 ≤ v) 0 skipped buf (fetch_length_octets n len skipped buf).
Proof.
  revert len skipped buf. induction n as [|n IH]; intros len skipped buf Hl; cbn [fetch_length_octets].
  { destruct (2 ^ 63 <=? len + 1024); [done|]. cbn. split; [done|lia]. }
  destruct buf as [|b buf]; [done|].
  destruct (Z.ltb_spec (swrap 64 (Z.lor (Z.shiftl len 8) b)) 0); [done|]. cbn [orb].
  destruct (negb _ && _); [done|].
  eapply good_weaken; [by apply IH|done|lia|cbn; lia|]. apply (stuck_app_r [b]).
Qed.

(** The length is not negative but for the indefinite form. *)
Lemma fetch_length_good c buf : Forall is_byte buf →
  good (λ v, 0 ≤ v ∨ (v = - 1 ∧ c = true)) 1 0 buf (ber_fetch_length c buf).
Proof.
  intros Hb. destruct Hb as [|oct buf Ho Hb]; [done|]. unfold is_byte in Ho. cbn [ber_fetch_length].
  destruct (negb (Z.testbit oct 7)); [cbn; split; [lia|lia]|].
  destruct (c && (oct =? 128)) eqn:E.
  { apply andb_true_iff in E as [-> _]. cbn. split; [by right|lia]. }
  destruct (oct =? 255); [done|].
  eapply good_weaken; [by apply fetch_length_octets_good|cbn; lia|lia|cbn; lia|].
  apply (stuck_app_r [oct]).
Qed.

Lemma Forall_LEFT l ptr : Forall is_byte ptr → Forall is_byte (LEFT l ptr).
Proof. intros H. unfold LEFT. destruct (l <? 0); [done|by apply Forall_take]. Qed.

Lemma LEFT_length l ptr : (length (LEFT l ptr) ≤ length ptr)%nat.
Proof. unfold LEFT. destruct (l <? 0); [done|]. rewrite length_take. lia. Qed.

Lemma is_eoc_length ptr : is_eoc ptr = true → (2 ≤ length ptr)%nat.
Proof. destruct ptr as [|[| |] [|[| |] ptr]]; cbn; try done. lia. Qed.

Lemma skip_good fuel :
  (∀ d c ptr, Forall is_byte ptr → (length ptr < fuel)%nat →
     good (λ _, True) 1 0 ptr (ber_skip_length fuel d c ptr)) ∧
  (∀ d skip ptr, Forall is_byte ptr → (length ptr < fuel)%nat →
     good (λ _, True) 1 skip ptr (skip_elements fuel d skip ptr)).
Proof.
  induction fuel as [|fuel [IH1 IH2]]; split; [lia|lia|..].
  - intros d c ptr Hb Hf. cbn [ber_skip_length]. destruct d as [|d]; [done|].
    eapply good_bind; [by apply fetch_length_good|done|]. intros vlen ll _ Hv Hll.
    destruct (Z.leb_spec 0 vlen).
    + destruct (Z.ltb_spec (Z.of_nat (length ptr)) (Z.of_nat ll + vlen)); [done|]. cbn. split; [done|lia].
    + pose proof (length_drop ptr ll) as Hd.
      eapply good_weaken; [apply IH2; [by apply Forall_drop|lia]|done|lia|lia|apply stuck_drop].
  - intros d skip ptr Hb Hf. cbn [skip_elements].
    eapply good_bind; [apply fetch_tag_good|done|]. intros _ tl _ _ Htl.
    pose proof (length_drop ptr tl) as Hd.
    eapply good_bind; [apply IH1; [by apply Forall_drop|lia]|apply stuck_drop|]. intros _ ll _ _ Hll.
    destruct (is_eoc ptr); [cbn; split; [done|lia]|].
    pose proof (length_drop ptr (tl + ll)) as Hd'.
    eapply good_weaken; [apply IH2; [by apply Forall_drop|lia]|done|lia|lia|apply stuck_drop].
Qed.

(** ** Tags of a type *)

Definition tags_read (r : Z * bool) : Prop := 0 ≤ r.1 ∨ r.2 = true.

Lemma check_tags_loop_good expected last_form ptr limit nulls tl0 tc0 c0 :
  Forall is_byte ptr → 0 ≤ nulls → (expected ≠ [] ∨ (tags_read (tl0, tc0) ∧ (nulls = 0 ∨ tc0 = true))) →
  good tags_read (if bool_decide (expected = []) then 0 else 2) c0 ptr
    (check_tags_loop expected last_form ptr limit nulls tl0 tc0 c0).
Proof.
  revert ptr limit nulls tl0 tc0 c0. induction expected as [|o expected IH];
    intros ptr limit nulls tl0 tc0 c0 Hb Hn Hexp; cbn [check_tags_loop].
  { destruct Hexp as [?|[Ht Hnt]]; [done|]. cbn. split; [|lia]. unfold tags_read in *. cbn in *.
    destruct (Z.eqb_spec nulls 0); [done|]. right. by destruct Hnt. }
  eapply good_bind; [apply fetch_tag_good|done|]. intros tlv_tag tl _ _ Htl. cbv zeta.
  destruct (match o with Some _ => _ | None => _ end); [done|].
  destruct (match expected with [] => _ | _ :: _ => _ end); [done|].
  pose proof (length_drop ptr tl) as Hd.
  eapply good_bind; [apply fetch_length_good; by apply Forall_drop|apply stuck_drop|].
  intros tlv_len ll _ Hv Hll. rewrite Hd in Hll. pose proof (length_drop ptr (tl + ll)) as Hd'.
  destruct (Z.eqb_spec tlv_len (- 1)) as [->|Hne].
  - destruct (limit =? - 1); [|done].
    destruct Hv as [|[_ Hc]]; [lia|].
    eapply good_weaken; [apply IH; [by apply Forall_drop|lia|right; rewrite Hc; unfold tags_read; cbn; auto]|done|..].
    + destruct (bool_decide (o :: expected = [])); lia.
    + lia.
    + apply stuck_drop.
  - destruct (Z.eqb_spec nulls 0) as [->|]; [|done]. cbn [negb].
    destruct (_ || _); [|done].
    eapply good_weaken; [apply IH; [by apply Forall_take, Forall_drop|lia|]|done|..].
    + right. split; [left; cbn; destruct Hv as [|[? _]]; [done|lia]|by left].
    + destruct (bool_decide (o :: expected = [])); lia.
    + rewrite length_take. lia.
    + intros Hs. by apply stuck_take, stuck_drop in Hs.
Qed.

(** [RC_ABORT] would be an implicit tag of a type without tags. *)
Lemma ber_check_tags_good d tags ptr tm lf :
  Forall is_byte ptr → (tm = 0 ∨ tm = 1 ∨ tags ≠ []) →
  good tags_read 2 0 ptr (ber_check_tags d tags ptr tm lf).
Proof.
  intros Hb Hm. unfold ber_check_tags. destruct d as [|d]; [done|]. cbv zeta.
  assert (∀ expected, expected ≠ [] →
    good tags_read 2 0 ptr (check_tags_loop expected lf ptr (- 1) 0 (- 1) false 0)) as Hloop.
  { intros [|o expected] ?; [done|].
    pose proof (check_tags_loop_good (o :: expected) lf ptr (- 1) 0 (- 1) false 0 Hb ltac:(lia) ltac:(by left)) as Hgood.
    exact Hgood. }
  destruct (Z.eqb_spec tm 0).
  - destruct tags as [|t tags]; [|by apply Hloop].
    eapply good_bind; [apply fetch_tag_good|done|]. intros _ tl _ _ Htl.
    pose proof (length_drop ptr tl) as Hd.
    eapply good_bind; [apply fetch_length_good; by apply Forall_drop|apply stuck_drop|].
    intros tlv_len ll _ Hv Hll. rewrite Hd in Hll. cbn. split; [|lia].
    unfold tags_read. cbn. destruct Hv as [?|[_ ?]]; [by left|by right].
  - destruct (Z.eqb_spec tm 1); [by apply Hloop|].
    destruct tags as [|t tags]; [|by apply Hloop]. by destruct Hm as [?|[?|?]].
Qed.

(** ** Primitive types and strings *)

Lemma primitive_contents_good {A} (Q : A → Prop) d tags ptr tm (f : octets → option A) :
  Forall is_byte ptr → (tm = 0 ∨ tm = 1 ∨ tags ≠ []) →
  (∀ b v, Forall is_byte b → f b = Some v → Q v) →
  good Q 2 0 ptr (primitive_contents d tags ptr tm f).
Proof.
  intros Hb Hm Hf. unfold primitive_contents.
  eapply good_bind; [by apply ber_check_tags_good|done|]. intros [len c] n _ _ Hn.
  rewrite length_drop. destruct (Z.ltb_spec (Z.of_nat (length ptr - n)) len); [done|].
  destruct (f _) as [v|] eqn:E; [|done]. cbn. split; [|lia].
  eapply Hf; [|exact E]. by apply Forall_take, Forall_drop.
Qed.

Lemma fold_swrap_range b l : - 2 ^ 63 ≤ l < 2 ^ 63 →
  - 2 ^ 63 ≤ fold_left (λ l x, swrap 64 (Z.lor (Z.shiftl l 8) x)) b l < 2 ^ 63.
Proof.
  revert l. induction b as [|x b IH]; intros l Hl; [done|]. cbn [fold_left]. apply IH.
  unfold swrap. pose proof (wrap_range 64 (Z.lor (Z.shiftl l 8) x + 2 ^ (64 - 1)) ltac:(lia)). lia.
Qed.

Lemma INTEGER2long_range b z : asn_INTEGER2long b = Some z → - 2 ^ 63 ≤ z < 2 ^ 63.
Proof.
  unfold asn_INTEGER2long. destruct (8 <? length (if (8 <? length b)%nat then _ else _))%nat; [done|].
  destruct (if (8 <? length b)%nat then _ else _) as [|x b']; [intros [= <-]; lia|].
  intros [= <-]. apply (fold_swrap_range (x :: b')). destruct (negb _); lia.
Qed.

Lemma boolean_octets_byte b : Forall is_byte b → is_byte (boolean_octets b).
Proof. induction 1 as [|x b Hx Hb IH]; cbn; [unfold is_byte; lia|]. by destruct (x =? 0). Qed.

Definition string_ok (s : octets) : Prop := Forall is_byte s ∧ Z.of_nat (length s) < 2 ^ 30.

Lemma os_append_ok st b st' : Forall is_byte st → Forall is_byte b → os_append st b = Some st' → string_ok st'.
Proof.
  intros Hs Hb. unfold os_append. destruct (Z.leb_spec (2 ^ 30) (Z.of_nat (length st + length b))); [done|].
  intros [= <-]. split; [by apply Forall_app|]. rewrite length_app. lia.
Qed.

Lemma string_ok_nil : string_ok [].
Proof. split; [constructor|done]. Qed.

Lemma os_good fuel :
  (∀ tags stck ptr st c0, Forall is_byte ptr → string_ok st → (2 * length ptr + length stck < fuel)%nat →
     good string_ok (match stck with [] => 2 | _ => 0 end) c0 ptr (os_constructed fuel tags stck ptr st c0)) ∧
  (∀ tags stck constr ptr st c0, Forall is_byte ptr → string_ok st →
     (2 * length ptr + length stck + 1 < fuel)%nat → stck ≠ [] →
     (constr = false → ∀ sel, head stck = Some sel → 0 ≤ el_left sel) →
     good string_ok 0 c0 ptr (os_pushed fuel tags stck constr ptr st c0)).
Proof.
  induction fuel as [|fuel [IH1 IH2]]; split; [lia|lia|..].
  - intros tags stck ptr st c0 Hb Hst Hf. cbn [os_constructed]. cbv zeta.
    set (Left := match stck with [] => length ptr | sel :: _ => _ end).
    assert (Left ≤ length ptr)%nat as HLeft.
    { unfold Left. destruct stck as [|sel ?]; [lia|]. destruct (el_left sel <? 0); lia. }
    assert (∀ new_left want tl ll (constr : bool), (1 ≤ tl)%nat → (1 ≤ ll)%nat → (tl + ll ≤ length ptr)%nat →
      (constr = false → 0 ≤ new_left) →
      good string_ok 2 c0 ptr (os_pushed fuel tags
        (MkStackEl new_left (Z.of_nat (tl + ll)) want :: stck) constr (drop (tl + ll) ptr) st (c0 + (tl + ll))))
      as Hpush.
    { intros new_left want tl ll constr H1 H2 H3 Hc. pose proof (length_drop ptr (tl + ll)) as Hd.
      eapply good_weaken; [apply IH2; [by apply Forall_drop|done|cbn [length]; lia|done|]|done|lia|lia|apply stuck_drop].
      intros Hc' sel [= <-]. by apply Hc. }
    destruct stck as [|sel prev].
    + eapply good_bind; [apply fetch_tag_good|apply stuck_take|]. intros tlv_tag tl _ _ Htl.
      rewrite length_take in Htl.
      eapply good_bind; [apply fetch_length_good; by apply Forall_drop, Forall_take| |].
      { intros Hs. by apply stuck_drop, stuck_take in Hs. }
      intros tlv_len ll _ Hv Hll. rewrite length_drop, length_take in Hll.
      apply Hpush; [lia..|]. destruct Hv as [?|[_ Hv]]; [done|]. congruence.
    + cbn [length] in *.
      destruct ((el_left sel <=? 0) && negb (want_nulls sel)).
      { destruct prev as [|p prev]; [cbn; split; [done|lia]|]. destruct (_ && _); [done|].
        eapply good_weaken; [apply IH1; [done..|cbn [length] in *; lia]|done|lia|lia|done]. }
      eapply good_bind; [apply fetch_tag_good|apply stuck_take|]. intros tlv_tag tl _ _ Htl.
      rewrite length_take in Htl.
      eapply good_bind; [apply fetch_length_good; by apply Forall_drop, Forall_take| |].
      { intros Hs. by apply stuck_drop, stuck_take in Hs. }
      intros tlv_len ll _ Hv Hll. rewrite length_drop, length_take in Hll.
      destruct (want_nulls sel && is_eoc ptr) eqn:Eeoc.
      { apply andb_true_iff in Eeoc as [_ Eeoc]. apply is_eoc_length in Eeoc.
        pose proof (length_drop ptr 2) as Hd.
        eapply good_weaken; [apply IH1; [by apply Forall_drop|done|cbn [length] in *; lia]|done|lia|lia|apply stuck_drop]. }
      destruct (negb (tlv_tag =? _)); [done|].
      destruct (negb (el_left sel =? - 1) && (el_left sel <? _)); [done|].
      eapply good_weaken; [apply Hpush; [lia..|]|done|lia|lia|done].
      intros Hc. destruct Hv as [?|[_ Hv]]; [|congruence].
      destruct (Z.eqb_spec tlv_len (- 1)); [lia|]. by rewrite andb_false_r.
  - intros tags stck constr ptr st c0 Hb Hst Hf Hne Hsel. cbn [os_pushed].
    destruct constr.
    { eapply good_weaken; [apply IH1; [done..|lia]|done|destruct stck; lia|lia|done]. }
    destruct stck as [|sel prev]; [done|]. specialize (Hsel eq_refl sel eq_refl).
    destruct (Z.ltb_spec (el_left sel) 0); [lia|].
    destruct (os_append st _) as [st'|] eqn:E; [|done].
    destruct (negb _); [done|]. cbn [length] in *.
    set (len := Nat.min (length ptr) (Z.to_nat (el_left sel))). pose proof (length_drop ptr len) as Hd.
    eapply good_weaken; [apply IH1; [by apply Forall_drop| |cbn [length]; lia]|done|lia|unfold len in *; lia|apply stuck_drop].
    eapply os_append_ok; [by destruct Hst| |exact E]. by apply Forall_take.
Qed.

Lemma OCTET_STRING_good fuel d tags ptr tm :
  Forall is_byte ptr → (tm = 0 ∨ tm = 1 ∨ tags ≠ []) → (2 * length ptr < fuel)%nat →
  good (has_type (TD_OCTET_STRING tags)) 2 0 ptr (OCTET_STRING_decode_ber fuel d tags ptr tm).
Proof.
  intros Hb Hm Hf. unfold OCTET_STRING_decode_ber.
  eapply good_bind; [by apply ber_check_tags_good|done|]. intros [ctx_left constr] n _ Ht Hn.
  destruct constr.
  { eapply good_bind; [apply (proj1 (os_good fuel)); [done|apply string_ok_nil|cbn; lia]|done|].
    intros st m _ Hst Hm'. cbn. split; [done|lia]. }
  destruct Ht as [Ht|]; [|done]. cbn in Ht. destruct (Z.ltb_spec ctx_left 0); [lia|].
  rewrite length_drop. destruct (Z.ltb_spec (Z.of_nat (length ptr - n)) ctx_left); [by destruct (os_append [] _)|].
  destruct (os_append [] _) as [st|] eqn:E; [|done].
  cbn [good]. split; [|lia]. eapply os_append_ok; [constructor| |exact E]. by apply Forall_take, Forall_drop.
Qed.

(** ** Looking for members *)

(** What the decoder relies on in the tables of a SEQUENCE: from each member on,
    the run of [optional] ends inside of the structure and consists of pointers
    that may be NULL, and so do all members from one on at which extensions let the
    structure end. *)
Definition may_be_null {T} (els : list (asn_TYPE_member T)) (i n : nat) : bool :=
  forallb (λ e, is_pointer e && negb (optional e =? 0)%nat) (take n (drop i els)).

Definition SEQUENCE_tables {T} (els : list (asn_TYPE_member T)) (specs : asn_SEQUENCE_specifics) : bool :=
  forallb (λ i,
    match els !! i with
    | None => true
    | Some e =>
        (i + optional e <=? length els)%nat && may_be_null els i (optional e) &&
        (negb (IN_EXTENSION_GROUP specs i && (Z.of_nat (length els) <? ext_before specs)) ||
         may_be_null els i (length els))
    end) (seq 0 (length els)) &&
  forallb (λ t2m, (el_no t2m <? length els)%nat) (s_tag2el specs).

(** No type without tags is to be given another tag. *)
Definition member_mode_ok (e : asn_TYPE_member asn_TYPE_descriptor) : bool :=
  (AsnTypes.tag_mode e =? 0) || (AsnTypes.tag_mode e =? 1) || negb (bool_decide (td_tags (m_type e) = [])).

Fixpoint tables_ok (td : asn_TYPE_descriptor) : bool :=
  match td with
  | TD_SEQUENCE _ els specs =>
      forallb (λ e, member_mode_ok e && tables_ok (m_type e)) els && SEQUENCE_tables els specs
  | TD_CHOICE _ els specs =>
      forallb (λ e, member_mode_ok e && tables_ok (m_type e)) els &&
      forallb (λ t2m, (el_no t2m <? length els)%nat) (c_tag2el specs)
  | _ => true
  end.

Lemma may_be_null_lookup {T} (els : list (asn_TYPE_member T)) i n j e :
  may_be_null els i n = true → (i ≤ j < i + n)%nat → els !! j = Some e → is_pointer e = true ∧ optional e ≠ 0%nat.
Proof.
  intros Hn Hj He. assert (take n (drop i els) !! (j - i)%nat = Some e) as Hl.
  { rewrite lookup_take_lt, lookup_drop by lia. rewrite <-He. f_equal. lia. }
  pose proof (forallb_lookup _ _ _ _ Hn Hl) as H. apply andb_true_iff in H as [Hp Ho]. split; [done|].
  intros E. by rewrite E in Ho.
Qed.

Lemma linear_search_range {T} (els : list (asn_TYPE_member T)) i rounds tag b n :
  linear_search els i rounds tag b = inl n → (i ≤ n < i + rounds)%nat.
Proof.
  revert els i. induction rounds as [|rounds IH]; intros [|e els] i; cbn [linear_search]; try done.
  destruct (tag =? m_tag e); [intros H; injection H; lia|].
  destruct (is_open_type e); [intros H; injection H; lia|].
  destruct (m_tag e =? 2 ^ 32 - 1); [done|]. intros H%IH. lia.
Qed.

Lemma best_member_range P range edx edx_max best n :
  best_member range edx edx_max best = Some n → Forall (λ t2m, P (el_no t2m)) range →
  (∀ m, best = Some m → (edx ≤ m ≤ edx_max)%nat ∧ P m) → (edx ≤ n ≤ edx_max)%nat ∧ P n.
Proof.
  revert best. induction range as [|t2m range IH]; intros best Hn HP Hbest; cbn [best_member] in Hn; [by apply Hbest|].
  inversion HP as [|? ? HP1 HP2]; subst.
  destruct (Nat.ltb_spec edx_max (el_no t2m)); [by apply Hbest|].
  destruct (Nat.ltb_spec (el_no t2m) edx); [by apply (IH best)|].
  apply (IH _ Hn HP2). intros m [= <-]. by split; [lia|].
Qed.

Lemma find_member_range {T} (els : list (asn_TYPE_member T)) specs edx opt tag n :
  (edx < length els)%nat → forallb (λ t2m, (el_no t2m <? length els)%nat) (s_tag2el specs) = true →
  find_member els specs edx opt tag = Some n → (edx ≤ n ≤ edx + opt)%nat ∧ (n < length els)%nat.
Proof.
  intros Hedx Htab. unfold find_member.
  destruct (if (length els <? edx + opt + 1)%nat then _ else _) as [opt_end use] eqn:E.
  assert (opt_end ≤ length els ∧ opt_end ≤ edx + opt + 1)%nat as [H1 H2].
  { destruct (Nat.ltb_spec (length els) (edx + opt + 1)); [injection E as <- <-; lia|].
    destruct (Nat.ltb_spec 8 (edx + opt + 1 - edx)); injection E as <- <-; lia. }
  destruct (linear_search _ _ _ _ _) as [m|[|]] eqn:El; [|..|done].
  { intros [= <-]. apply linear_search_range in El. lia. }
  unfold tag2el_search. intros H. apply bind_Some in H as (i&_&H). apply bind_Some in H as (t2m&_&H).
  apply (best_member_range (λ m, (m < length els)%nat)) in H; [done| |done].
  apply Forall_take, Forall_drop. apply Forall_forall. intros x Hx. apply list_elem_of_In in Hx.
  rewrite forallb_forall in Htab. by apply Nat.ltb_lt, Htab.
Qed.

(** ** SEQUENCE *)

Lemma end_of_contents_good {A} (Q : A → Prop) lo c0 ptr l (finish continue : dec_rval A) :
  ((2 ≤ length ptr)%nat → is_eoc ptr = true → good Q lo c0 ptr finish) → good Q lo c0 ptr continue →
  good Q lo c0 ptr (end_of_contents l ptr finish continue).
Proof.
  intros Hf Hc. unfold end_of_contents. destruct ptr as [|[| |] ptr]; try done. destruct (l <? 0); [|done].
  destruct (length _ <? 2)%nat; [by destruct (SIZE_VIOLATION _ _)|].
  destruct (is_eoc (0 :: ptr)) eqn:E; [|done]. apply Hf; [by apply is_eoc_length|done].
Qed.

Lemma skip_value_good fuel d l ptr tl : Forall is_byte ptr → (length ptr - tl < fuel)%nat →
  good (λ _, True) 1 0 (drop tl (LEFT l ptr)) (skip_value fuel d l ptr tl).
Proof.
  intros Hb Hf. apply skip_good; [by apply Forall_drop, Forall_LEFT|].
  rewrite length_drop. pose proof (LEFT_length l ptr). lia.
Qed.

Lemma SEQUENCE_rest_good fuel d specs count nulls l ptr c0 st :
  Forall is_byte ptr → (length ptr < fuel)%nat →
  good (λ st', st' = st) 0 c0 ptr (SEQUENCE_rest fuel d specs count nulls l ptr c0 st).
Proof.
  revert nulls l ptr c0. induction fuel as [|fuel IH]; intros nulls l ptr c0 Hb Hf; [lia|].
  cbn [SEQUENCE_rest]. destruct (l =? 0); [cbn; split; [done|lia]|].
  pose proof (LEFT_length l ptr) as HL.
  eapply good_bind_in; [apply fetch_tag_good|apply stuck_LEFT|]. intros _ tl _ _ Htl.
  apply end_of_contents_good.
  { intros H2 _. pose proof (length_drop ptr 2) as Hd.
    eapply good_weaken; [apply IH; [by apply Forall_drop|lia]|done|lia|lia|apply stuck_drop]. }
  destruct (_ || _); [done|].
  eapply good_bind_in; [apply skip_value_good; [done|lia]|intros ?%stuck_drop%stuck_LEFT; done|].
  intros _ ll _ _ Hll. rewrite length_drop in Hll. pose proof (length_drop ptr (tl + ll)) as Hd.
  eapply good_weaken; [apply IH; [by apply Forall_drop|lia]|done|lia|lia|apply stuck_drop].
Qed.

Section sequence.
Context (els : list (asn_TYPE_member asn_TYPE_descriptor)) (specs : asn_SEQUENCE_specifics).
Context (decs : list member_decoder) (d bound : nat).
Hypothesis Htab : SEQUENCE_tables els specs = true.

(** The decoders of the members read values of their types. *)
Hypothesis Hdecs : Forall2 (λ e (dec : member_decoder), ∀ ptr, Forall is_byte ptr → (length ptr ≤ bound)%nat →
  good (has_type (m_type e)) 2 0 ptr (dec ptr (AsnTypes.tag_mode e))) els decs.

(** The members below [edx] are those of the value, the others are not set. *)
Definition set_until (edx : nat) (st : list (option asn_value)) : Prop :=
  length st = length els ∧
  ∀ j e v, els !! j = Some e → st !! j = Some v →
    if decide (j < edx)%nat then member_ok has_type e v else v = None.

Lemma table_at edx e : els !! edx = Some e →
  (edx + optional e ≤ length els)%nat ∧ may_be_null els edx (optional e) = true ∧
  (IN_EXTENSION_GROUP specs edx && (Z.of_nat (length els) <? ext_before specs) = true →
   may_be_null els edx (length els) = true).
Proof.
  intros He. apply andb_true_iff in Htab as [Hf _]. rewrite forallb_forall in Hf.
  specialize (Hf edx ltac:(apply in_seq; apply lookup_lt_Some in He; lia)). rewrite He in Hf.
  rewrite !andb_true_iff in Hf. destruct Hf as [[H1%Nat.leb_le H2] H3]. split_and!; [done..|].
  intros E. by rewrite E in H3.
Qed.

(** Members that may be NULL can be passed over. *)
Lemma set_until_skip edx n st : set_until edx st → may_be_null els edx n = true → set_until (edx + n) st.
Proof.
  intros [Hl Hst] Hn. split; [done|]. intros j e v He Hv. specialize (Hst j e v He Hv).
  destruct (decide (j < edx)%nat), (decide (j < edx + n)%nat); try done; try lia.
  subst v. cbn [member_ok]. apply (may_be_null_lookup els edx n j); [done|lia|done].
Qed.

Lemma may_be_null_le edx n m : may_be_null els edx n = true → (m ≤ n)%nat → may_be_null els edx m = true.
Proof.
  unfold may_be_null. intros Hn Hm. rewrite <-(take_drop m (take n (drop edx els))), forallb_app in Hn.
  rewrite take_take, Nat.min_l in Hn by lia. by apply andb_true_iff in Hn as [? _].
Qed.

Lemma set_until_insert n e st v : set_until n st → els !! n = Some e → has_type (m_type e) v →
  set_until (S n) (<[n := Some v]> st).
Proof.
  intros [Hl Hst] He Hv. split; [by rewrite length_insert|]. intros j e' v' He' Hv'.
  destruct (decide (j = n)) as [->|Hne].
  - rewrite list_lookup_insert_eq in Hv' by (apply lookup_lt_Some in He; lia). injection Hv' as <-.
    rewrite He in He'. injection He' as <-. destruct (decide (n < S n)%nat); [done|lia].
  - rewrite list_lookup_insert_ne in Hv' by done. specialize (Hst j e' v' He' Hv').
    destruct (decide (j < n)%nat), (decide (j < S n)%nat); done || lia.
Qed.

Lemma set_until_all edx st : set_until edx st → (length els ≤ edx)%nat → Forall2 (member_ok has_type) els st.
Proof.
  intros [Hl Hst] Hedx. apply Forall2_same_length_lookup. split; [done|]. intros j e v He Hv.
  specialize (Hst j e v He Hv). apply lookup_lt_Some in He. by destruct (decide (j < edx)%nat); [|lia].
Qed.

(** Where the structure may end, the rest of the members may be NULL. *)
Lemma set_until_end edx e st : set_until edx st → els !! edx = Some e →
  (edx + optional e =? length els)%nat ||
    (IN_EXTENSION_GROUP specs edx && (Z.of_nat (length els) <? ext_before specs)) = true →
  Forall2 (member_ok has_type) els st.
Proof.
  intros Hst He Hend. destruct (table_at edx e He) as (H1&H2&H3). apply orb_true_iff in Hend as [E%Nat.eqb_eq|E].
  - apply (set_until_all (edx + optional e)); [by apply set_until_skip|lia].
  - apply (set_until_all (edx + length els)); [by apply set_until_skip, H3|lia].
Qed.

Lemma SEQUENCE_loop_good fuel edx l ptr c0 st :
  Forall is_byte ptr → (length ptr + 2 ≤ fuel)%nat → (length ptr ≤ bound)%nat → set_until edx st →
  good (Forall2 (member_ok has_type) els) 0 c0 ptr (SEQUENCE_loop fuel d els specs decs edx l ptr c0 st).
Proof.
  revert edx l ptr c0 st. induction fuel as [|fuel IH]; intros edx l ptr c0 st Hb Hf Hbound Hst; [lia|].
  cbn [SEQUENCE_loop]. cbv zeta.
  assert (Forall2 (member_ok has_type) els st →
    good (Forall2 (member_ok has_type) els) 0 c0 ptr (SEQUENCE_rest fuel d specs (length els) false l ptr c0 st))
    as Hphase3.
  { intros Hall. eapply good_weaken; [apply SEQUENCE_rest_good; [done|lia]|by intros ? ->|lia|lia|done]. }
  destruct (els !! edx) as [elm|] eqn:He.
  2:{ apply Hphase3, (set_until_all edx); [done|by apply lookup_ge_None]. }
  pose proof (set_until_end edx elm st Hst He) as Hend.
  set (may_end := _ || _) in *.
  destruct ((l =? 0) && may_end) eqn:E.
  { apply andb_true_iff in E as [_ E]. cbn. split; [by apply Hend|lia]. }
  pose proof (LEFT_length l ptr) as HL. destruct (table_at edx elm He) as (Hopt&Hnull&_).
  eapply good_bind_in; [apply fetch_tag_good|apply stuck_LEFT|]. intros tlv_tag tl _ _ Htl.
  match goal with |- good _ _ _ _ (end_of_contents _ _ _ ?s) =>
    assert (good (Forall2 (member_ok has_type) els) 0 c0 ptr s) as Hsync end.
  2:{ apply end_of_contents_good; [|done]. destruct may_end; auto. }
  destruct (find_member els specs edx (optional elm) tlv_tag) as [n|] eqn:En.
  - apply find_member_range in En as [Hn Hlt]; [|by apply lookup_lt_Some in He|by apply andb_true_iff in Htab as [_ ?]].
    destruct (lookup_lt_is_Some_2 els n Hlt) as [e Hen].
    destruct (Forall2_lookup_l _ _ _ _ _ Hdecs Hen) as (dec&Hdn&Hdec). rewrite Hen, Hdn.
    eapply good_bind_in; [apply Hdec; [by apply Forall_LEFT|lia]|apply stuck_LEFT|]. intros v c _ Hv Hc.
    pose proof (length_drop ptr c) as Hd.
    eapply good_weaken; [apply IH; [by apply Forall_drop|lia|lia|]|done|lia|lia|apply stuck_drop].
    eapply set_until_insert; [|done|done].
    replace n with (edx + (n - edx))%nat by lia. apply set_until_skip; [done|].
    apply (may_be_null_le edx (optional elm)); [done|lia].
  - destruct (negb _); [done|].
    eapply good_bind_in; [apply skip_value_good; [done|lia]|intros ?%stuck_drop%stuck_LEFT; done|].
    intros _ skip _ _ Hskip. rewrite length_drop in Hskip. pose proof (length_drop ptr (skip + tl)) as Hd.
    eapply good_weaken; [apply IH; [by apply Forall_drop|lia|lia|]|done|lia|lia|apply stuck_drop].
    by apply set_until_skip.
Qed.
End sequence.

(** ** CHOICE *)

(** Only an indefinite length leaves a negative one. *)
Lemma fetch_length_indefinite c buf v n : Forall is_byte buf → ber_fetch_length c buf = RC_OK v n → v < 0 →
  ∃ buf', buf = 128 :: buf'.
Proof.
  intros Hb H Hv. pose proof (fetch_length_good c buf Hb) as Hg. rewrite H in Hg. destruct Hg as [[?|[-> ->]] _]; [lia|].
  destruct buf as [|oct buf]; [done|]. cbn [ber_fetch_length] in H.
  apply Forall_cons in Hb as [Ho Hb]. unfold is_byte in Ho.
  destruct (negb (Z.testbit oct 7)); [injection H; lia|]. cbn [andb] in H.
  destruct (Z.eqb_spec oct 128) as [->|]; [by eexists|]. destruct (oct =? 255); [done|].
  pose proof (fetch_length_octets_good (Z.to_nat (Z.land oct 127)) 0 1 buf ltac:(lia)) as Hg.
  rewrite H in Hg. destruct Hg. lia.
Qed.

Lemma in_take_drop (x : Z) (a b m : nat) ptr : In x (take a (drop b ptr)) → (b + a ≤ m)%nat → In x (take m ptr).
Proof.
  rewrite <-!list_elem_of_In, !list_elem_of_lookup. intros [i Hi] Hm. exists (b + i)%nat.
  apply lookup_take_Some in Hi as [Hi Hia]. rewrite lookup_drop in Hi. apply lookup_take_Some. split; [done|lia].
Qed.

Lemma in_take_head (x : Z) (a m : nat) ptr rest : drop a ptr = x :: rest → (a < m)%nat → In x (take m ptr).
Proof.
  intros Hd Hm. apply (in_take_drop x 1 a); [|lia]. rewrite Hd. by left.
Qed.

Lemma dec_bind_OK {A B} (r : dec_rval A) (f : A → nat → dec_rval B) v n :
  dec_bind r f = RC_OK v n → ∃ x m, r = RC_OK x m ∧ f x m = RC_OK v n.
Proof. destruct r; cbn; try done. eauto. Qed.

Lemma check_tags_indefinite expected lf ptr limit tl0 tc0 c0 l c n :
  Forall is_byte ptr → (expected ≠ [] ∨ 0 ≤ tl0) →
  check_tags_loop expected lf ptr limit 0 tl0 tc0 c0 = RC_OK (l, c) n → l < 0 →
  In 128 (take (n - c0) ptr).
Proof.
  revert ptr limit tl0 tc0 c0. induction expected as [|o expected IH];
    intros ptr limit tl0 tc0 c0 Hb Hexp H Hl; cbn [check_tags_loop] in H.
  { destruct Hexp as [?|?]; [done|]. rewrite Z.eqb_refl in H. injection H. lia. }
  apply dec_bind_OK in H as (tag&tl&Htag&H). cbv zeta in H.
  pose proof (fetch_tag_good ptr) as Hg. rewrite Htag in Hg. destruct Hg as [_ Htl].
  destruct (match o with Some _ => _ | None => _ end); [done|].
  destruct (match expected with [] => _ | _ :: _ => _ end); [done|].
  apply dec_bind_OK in H as (tlv_len&ll&Hlen&H).
  pose proof (Forall_drop _ tl _ Hb) as Hbd.
  pose proof (fetch_length_good (BER_TLV_CONSTRUCTED ptr) _ Hbd) as Hg. rewrite Hlen in Hg. destruct Hg as [Hv Hll].
  destruct (Z.eqb_spec tlv_len (- 1)) as [->|Hne].
  - destruct (fetch_length_indefinite _ _ _ _ Hbd Hlen ltac:(lia)) as [buf' Hbuf].
    apply (in_take_head 128 tl _ _ buf' Hbuf).
    destruct (limit =? - 1); [|done].
    pose proof (check_tags_loop_good expected lf (drop (tl + ll) ptr) limit (0 + 1) (- 1) (BER_TLV_CONSTRUCTED ptr)
      (c0 + (tl + ll)) (Forall_drop _ _ _ Hb) ltac:(lia)) as Hg.
    rewrite H in Hg. destruct Hg as [_ Hn]; [|lia].
    right. destruct Hv as [|[_ Hc]]; [lia|]. rewrite Hc. unfold tags_read. cbn. auto.
  - cbn [Z.eqb negb] in H. destruct (_ || _); [|done].
    apply IH in H as Hin; [|by apply Forall_take, Forall_drop|right; destruct Hv as [?|[? _]]; done|done].
    rewrite take_take in Hin. eapply in_take_drop; [exact Hin|].
    pose proof (check_tags_loop_good expected lf (take (Z.to_nat tlv_len) (drop (tl + ll) ptr)) tlv_len 0 tlv_len
      (BER_TLV_CONSTRUCTED ptr) (c0 + (tl + ll)) ltac:(by apply Forall_take, Forall_drop) ltac:(lia)) as Hg.
    rewrite H in Hg. destruct Hg as [_ Hn]; [|lia].
    right. split; [left; cbn; destruct Hv as [|[? _]]; [done|lia]|by left].
Qed.

Lemma ber_check_tags_indefinite d tags ptr tm lf l c n :
  Forall is_byte ptr → ber_check_tags d tags ptr tm lf = RC_OK (l, c) n → l < 0 → In 128 (take n ptr).
Proof.
  intros Hb. unfold ber_check_tags. destruct d as [|d]; [done|]. cbv zeta. intros H Hl.
  assert (∀ expected, expected ≠ [] → check_tags_loop expected lf ptr (- 1) 0 (- 1) false 0 = RC_OK (l, c) n →
    In 128 (take n ptr)) as Hloop.
  { intros expected Hne He. apply check_tags_indefinite in He; [|done|by left|done]. by rewrite Nat.sub_0_r in He. }
  destruct (tm =? 0).
  - destruct tags as [|t tags]; [|by eapply Hloop; [|exact H]].
    apply dec_bind_OK in H as (tag&tl&Htag&H). apply dec_bind_OK in H as (len&ll&Hlen&H).
    injection H as -> _ <-.
    pose proof (Forall_drop _ tl _ Hb) as Hbd.
    destruct (fetch_length_indefinite _ _ _ _ Hbd Hlen Hl) as [buf' Hbuf].
    pose proof (fetch_length_good (BER_TLV_CONSTRUCTED ptr) _ Hbd) as Hg. rewrite Hlen in Hg. destruct Hg as [_ Hll].
    apply (in_take_head 128 tl _ _ buf' Hbuf). lia.
  - destruct (tm =? 1); [by eapply Hloop; [|exact H]|]. destruct tags as [|t tags]; [done|]. by eapply Hloop; [|exact H].
Qed.

(** Once the loop is in front of a stuck octet it does not get further, so it
    is a stuck octet of the buffer that a used up budget shows. *)
Lemma CHOICE_rest_good fuel l ptr c0 st (P : Prop) :
  (l < 0 → ∀ pre x post, ptr = pre ++ 0 :: x :: post → x ≠ 0 → P) → (length ptr < fuel)%nat ∨ P →
  match CHOICE_rest fuel l ptr c0 st with
  | RC_OK v n => v = st ∧ (c0 ≤ n ≤ c0 + length ptr)%nat
  | RC_LOOP => P
  | RC_ABORT => False
  | _ => True
  end.
Proof.
  revert l ptr c0. induction fuel as [|fuel IH]; intros l ptr c0 Hs Hf; [cbn; destruct Hf; [lia|done]|].
  cbn [CHOICE_rest]. destruct (l <? 0) eqn:El; [cbn [negb]|split; [done|lia]].
  pose proof (fetch_tag_good (LEFT l ptr)) as Hg. unfold dec_bind_in, dec_bind.
  destruct (ber_fetch_tag (LEFT l ptr)) as [t tl| | | |]; try done.
  2:{ by destruct (SIZE_VIOLATION l ptr). }
  2:{ destruct (stuck_LEFT _ _ Hg) as (pre&x&post&?&?&_). eapply Hs; [lia|done..]. }
  destruct ptr as [|[| |] ptr]; try done. unfold end_of_contents, LEFT. rewrite El.
  destruct ptr as [|x ptr]; [by destruct (SIZE_VIOLATION _ _)|]. cbn [length Nat.ltb Nat.leb].
  destruct (is_eoc (0 :: x :: ptr)) eqn:Ee.
  - assert (l + 1 < 0 → ∀ pre y post, ptr = pre ++ 0 :: y :: post → y ≠ 0 → P) as Hs'.
    { intros _ pre y post -> Hy. apply (Hs ltac:(lia) (0 :: x :: pre) y post); done. }
    cbn [length] in Hf. specialize (IH (l + 1) ptr (c0 + 2)%nat Hs' ltac:(destruct Hf; [left; lia|by right])).
    cbn [drop length]. destruct (CHOICE_rest _ _ _ _ _) as [v n| | | |]; try done.
    destruct IH as [-> Hn]. split; [done|lia].
  - assert P as HP. { apply (Hs ltac:(lia) [] x ptr); [done|]. by intros ->. }
    apply (IH l (0 :: x :: ptr) c0); [done|by right].
Qed.

Lemma CHOICE_good tags els specs decs fuel d ptr tm :
  Forall is_byte ptr → (length ptr < fuel)%nat → (tm = 0 ∨ tm = 1 ∨ tags ≠ []) →
  forallb (λ t2m, (el_no t2m <? length els)%nat) (c_tag2el specs) = true →
  Forall2 (λ e (dec : member_decoder), ∀ ptr', Forall is_byte ptr' → (length ptr' ≤ length ptr)%nat →
    good (has_type (m_type e)) 2 0 ptr' (dec ptr' (AsnTypes.tag_mode e))) els decs →
  good (has_type (TD_CHOICE tags els specs)) 2 0 ptr (CHOICE_decode_ber fuel d tags els specs decs ptr tm).
Proof.
  intros Hb Hf Hm Htab Hdecs. unfold CHOICE_decode_ber. cbv zeta.
  set (untagged := (tm =? 0) && bool_decide (tags = [])).
  assert (good (λ _, True) (if untagged then 0 else 2) 0 ptr
    (if untagged then RC_OK (- 1, false) 0 else ber_check_tags d tags ptr tm None)) as Htags.
  { destruct untagged; [cbn; split; [done|lia]|].
    eapply good_weaken; [by apply ber_check_tags_good|done|lia|lia|done]. }
  eapply good_bind; [exact Htags|done|]. intros [l constr] n Hread _ Hn.
  set (p := drop n ptr). pose proof (length_drop ptr n) as Hd. fold p in Hd.
  assert (Forall is_byte p) as Hbp by by apply Forall_drop.
  assert (stuck p → stuck ptr) as Hsp by apply stuck_drop.
  pose proof (LEFT_length l p) as HL.
  eapply good_bind_in; [apply fetch_tag_good|intros ?%stuck_LEFT; auto|]. intros tlv_tag tl _ _ Htl.
  destruct (bsearch _ _ ≫= _) as [t2m|] eqn:Eb.
  - apply bind_Some in Eb as (i&_&Hi). pose proof (forallb_lookup _ _ _ _ Htab Hi) as Hlt%Nat.ltb_lt.
    destruct (lookup_lt_is_Some_2 els (el_no t2m) Hlt) as [e Hen].
    destruct (Forall2_lookup_l _ _ _ _ _ Hdecs Hen) as (dec&Hdn&Hdec). rewrite Hen, Hdn.
    eapply good_bind_in; [apply Hdec; [by apply Forall_LEFT|lia]|intros ?%stuck_LEFT; auto|]. intros v c _ Hv Hc.
    assert (has_type (TD_CHOICE tags els specs) (VChoice (Z.of_nat (el_no t2m) + 1) (Some v))) as Hty.
    { apply has_type_CHOICE. split; [lia|]. exists e. split; [|done]. rewrite <-Hen. f_equal. lia. }
    destruct (0 <? advance l c); [done|]. destruct untagged eqn:Eu; [split; [done|lia]|].
    pose proof (length_drop p c) as Hd'.
    assert (advance l c < 0 → ∀ pre x post, drop c p = pre ++ 0 :: x :: post → x ≠ 0 → stuck ptr) as Hst.
    { intros Hneg pre x post Hp Hx. assert (l < 0) as Hl.
      { unfold advance in Hneg. unfold LEFT in Hc. destruct (Z.leb_spec 0 l); [|done].
        destruct (Z.ltb_spec l 0); [lia|]. rewrite length_take in Hc. lia. }
      pose proof (ber_check_tags_indefinite _ _ _ _ _ _ _ _ Hb Hread Hl) as Hin.
      exists (take n ptr ++ take c p ++ pre), x, post. split_and!; [|done|by apply in_app_iff; left].
      rewrite <-!app_assoc, <-Hp, take_drop. unfold p. by rewrite take_drop. }
    pose proof (CHOICE_rest_good fuel (advance l c) (drop c p) (n + c)
      (VChoice (Z.of_nat (el_no t2m) + 1) (Some v)) (stuck ptr) Hst ltac:(left; lia)) as Hrest.
    destruct (CHOICE_rest _ _ _ _ _) as [v' n'| | | |]; try done.
    destruct Hrest as [-> ?]. split; [done|lia].
  - destruct (ext_start specs =? - 1); [done|].
    eapply good_bind_in; [apply skip_value_good; [done|lia]|intros ?%stuck_drop%stuck_LEFT; auto|].
    intros _ skip _ _ Hskip. rewrite length_drop in Hskip. split; [done|lia].
Qed.

(** ** All types *)

Definition decoder_good (td : asn_TYPE_descriptor) : Prop :=
  ∀ fuel d ptr tm, Forall is_byte ptr → (2 * length ptr + 2 ≤ fuel)%nat → (tm = 0 ∨ tm = 1 ∨ td_tags td ≠ []) →
  good (has_type td) 2 0 ptr (ber_decoder fuel d td ptr tm).

Lemma member_mode_ok_cases e : member_mode_ok e = true →
  AsnTypes.tag_mode e = 0 ∨ AsnTypes.tag_mode e = 1 ∨ td_tags (m_type e) ≠ [].
Proof.
  unfold member_mode_ok. rewrite !orb_true_iff, !Z.eqb_eq. intros [[?|?]|H]; auto.
  right; right. intros E. by rewrite E in H.
Qed.

Lemma members_good els fuel d n :
  Forall (λ e, tables_ok (m_type e) = true → decoder_good (m_type e)) els →
  forallb (λ e, member_mode_ok e && tables_ok (m_type e)) els = true → (2 * n + 2 ≤ fuel)%nat →
  Forall2 (λ e (dec : member_decoder), ∀ ptr, Forall is_byte ptr → (length ptr ≤ n)%nat →
    good (has_type (m_type e)) 2 0 ptr (dec ptr (AsnTypes.tag_mode e))) els
    (map (λ e, ber_decoder fuel d (m_type e)) els).
Proof.
  intros IH Htab Hf. induction IH as [|e els He _ IHels]; [constructor|].
  cbn [forallb map] in *. rewrite !andb_true_iff in Htab. destruct Htab as [[Hm Ht] Htab].
  constructor; [|by apply IHels]. intros ptr Hb Hn. apply He; [done..|lia|by apply member_mode_ok_cases].
Qed.

Lemma ber_decoder_good td : tables_ok td = true → decoder_good td.
Proof.
  induction td as [tags|tags|tags|tags els specs IH|tags els specs IH] using asn_TYPE_descriptor_ind';
    intros Htab fuel d ptr tm Hb Hf Hm; cbn [td_tags] in Hm.
  - apply primitive_contents_good; [done..|]. intros b v Hbb Hv. apply fmap_Some in Hv as (z&Hz&->).
    by apply INTEGER2long_range in Hz.
  - apply primitive_contents_good; [done..|]. intros b v Hbb [= <-]. apply boolean_octets_byte in Hbb.
    unfold is_byte in Hbb. cbn. lia.
  - apply OCTET_STRING_good; [done..|lia].
  - cbn [tables_ok] in Htab. apply andb_true_iff in Htab as [Hmem Hseq].
    cbn [ber_decoder]. unfold SEQUENCE_decode_ber.
    eapply good_bind; [by apply ber_check_tags_good|done|]. intros [l c] n _ _ Hn.
    pose proof (length_drop ptr n) as Hd.
    eapply good_bind; [apply (SEQUENCE_loop_good els specs _ d (length ptr)); [done|by apply members_good|..]|apply stuck_drop|].
    + by apply Forall_drop.
    + lia.
    + lia.
    + split; [unfold zero_members; by rewrite length_map|]. intros j e v He Hv. unfold zero_members in Hv.
      rewrite list_lookup_fmap, He in Hv. by injection Hv as <-.
    + intros st m _ Hst Hm'. cbn [good]. split; [by apply has_type_SEQUENCE|lia].
  - cbn [tables_ok] in Htab. apply andb_true_iff in Htab as [Hmem Hch].
    apply CHOICE_good; [done|lia|done..|by apply members_good].
Qed.

(** C9. Whatever octets arrive, what the decoder returns is a value of the type,
    integers and strings within their bounds, every mandatory member set, read
    from at least two octets and no more than the buffer has; no assertion
    fails, and the loops end except behind an indefinite length, at an octet 0
    that another octet follows. *)
Theorem ber_decode_typed td ptr fuel d :
  tables_ok td = true → Forall is_byte ptr → (2 * length ptr + 2 ≤ fuel)%nat →
  match ber_decode fuel d td ptr with
  | RC_OK v n => has_type td v ∧ (2 ≤ n ≤ length ptr)%nat
  | RC_ABORT => False
  | RC_LOOP => stuck ptr
  | RC_WMORE | RC_FAIL => True
  end.
Proof.
  intros Htab Hb Hf. pose proof (ber_decoder_good td Htab fuel d ptr 0 Hb Hf ltac:(by left)) as Hg.
  unfold ber_decode. by destruct (ber_decoder fuel d td ptr 0).
Qed.

(** A message in which the length of the status is indefinite. *)
Lemma ber_decode_typed_witness :
  has_type asn_DEF_SlotPhysStatus (VSeq [Some (VBool 7); Some (VBool 0); None; None]) ∧ (2 ≤ 10 ≤ 11)%nat.
Proof.
  assert (Forall is_byte [48; 128; 128; 1; 7; 129; 1; 0; 0; 0; 5]) as Hb by (unfold is_byte; repeat constructor; lia).
  exact (ber_decode_typed asn_DEF_SlotPhysStatus [48; 128; 128; 1; 7; 129; 1; 0; 0; 0; 5] 24 2 eq_refl Hb (le_n _)).
Defined.
