(* ===== verification/BerTotal.v ===== *)
(** * The budget of the decoder

    The fuel that bounds the rounds of the decoder's loops does not matter once
    it exceeds twice the size of the buffer: with any larger one the result is
    the same.  So what is returned with it is returned by the program, and
    [RC_LOOP] with it means that the program does not return.  The message
    [endless_pdu] is of this kind. *)

From S2P Require Import Prelude.
From S2P Require Import RsproPdu.
From S2P Require Import BerTlv.
From S2P Require Import AsnTypes.
From S2P Require Import DerEncoder.
From S2P Require Import DerProps.
From S2P Require Import BerDecoder.
From S2P Require Import BerRoundtrip.
From S2P Require Import BerSafe.
From S2P Require Import RsproTables.

Lemma dec_bind_ext {A B} (r r' : dec_rval A) (f g : A → nat → dec_rval B) :
  r = r' → (∀ v n, r = RC_OK v n → f v n = g v n) → dec_bind r f = dec_bind r' g.
Proof. intros <- H. destruct r; cbn; [by apply H|done..]. Qed.

Lemma dec_bind_in_ext {A B} sv (r r' : dec_rval A) (f g : A → nat → dec_rval B) :
  r = r' → (∀ v n, r = RC_OK v n → f v n = g v n) → dec_bind_in sv r f = dec_bind_in sv r' g.
Proof. intros <- H. unfold dec_bind_in. destruct r; try done. by apply dec_bind_ext. Qed.

Lemma end_of_contents_ext {A} l ptr (f f' c c' : dec_rval A) :
  ((2 ≤ length ptr)%nat → f = f') → c = c' → end_of_contents l ptr f c = end_of_contents l ptr f' c'.
Proof.
  intros Hf <-. unfold end_of_contents. destruct ptr as [|[| |] ptr]; try done. destruct (l <? 0); [|done].
  destruct (length _ <? 2)%nat; [done|]. destruct (is_eoc (0 :: ptr)) eqn:E; [|done].
  by apply Hf, is_eoc_length.
Qed.

(** What a call has consumed, from what is known of its result. *)
Lemma good_consumed {A} (Q : A → Prop) lo c0 ptr (r : dec_rval A) v n :
  good Q lo c0 ptr r → r = RC_OK v n → (c0 + lo ≤ n ≤ c0 + length ptr)%nat.
Proof. intros Hg ->. by destruct Hg. Qed.

Lemma skip_fuel fuel :
  (∀ fuel' d c ptr, Forall is_byte ptr → (length ptr < fuel)%nat → (length ptr < fuel')%nat →
     ber_skip_length fuel d c ptr = ber_skip_length fuel' d c ptr) ∧
  (∀ fuel' d skip ptr, Forall is_byte ptr → (length ptr < fuel)%nat → (length ptr < fuel')%nat →
     skip_elements fuel d skip ptr = skip_elements fuel' d skip ptr).
Proof.
  induction fuel as [|fuel [IH1 IH2]]; split; intros [|fuel'] d x ptr Hb Hf Hf'; try lia.
  - cbn [ber_skip_length]. destruct d as [|d]; [done|]. apply dec_bind_ext; [done|]. intros vlen ll Hr.
    apply (good_consumed _ _ _ _ _ _ _ (fetch_length_good _ _ Hb)) in Hr.
    destruct (0 <=? vlen); [done|]. pose proof (length_drop ptr ll) as Hd.
    apply IH2; [by apply Forall_drop|lia..].
  - cbn [skip_elements]. apply dec_bind_ext; [done|]. intros ? tl Hr.
    apply (good_consumed _ _ _ _ _ _ _ (fetch_tag_good _)) in Hr. pose proof (length_drop ptr tl) as Hd.
    pose proof (Forall_drop _ tl _ Hb) as Hbd.
    apply dec_bind_ext; [apply IH1; [done|lia..]|]. intros ? ll Hr'.
    apply (good_consumed _ _ _ _ _ _ _ (proj1 (skip_good fuel) _ _ _ Hbd ltac:(lia))) in Hr'.
    destruct (is_eoc ptr); [done|]. pose proof (length_drop ptr (tl + ll)) as Hd'.
    apply IH2; [by apply Forall_drop|lia..].
Qed.

Lemma skip_value_fuel fuel fuel' d l ptr tl :
  Forall is_byte ptr → (length ptr - tl < fuel)%nat → (length ptr - tl < fuel')%nat →
  skip_value fuel d l ptr tl = skip_value fuel' d l ptr tl.
Proof.
  intros Hb Hf Hf'. pose proof (LEFT_length l ptr). apply skip_fuel; [by apply Forall_drop, Forall_LEFT|..];
    rewrite length_drop; lia.
Qed.

Lemma os_fuel fuel :
  (∀ fuel' tags stck ptr st c0, Forall is_byte ptr → (2 * length ptr + length stck < fuel)%nat →
     (2 * length ptr + length stck < fuel')%nat →
     os_constructed fuel tags stck ptr st c0 = os_constructed fuel' tags stck ptr st c0) ∧
  (∀ fuel' tags stck constr ptr st c0, Forall is_byte ptr → (2 * length ptr + length stck + 1 < fuel)%nat →
     (2 * length ptr + length stck + 1 < fuel')%nat →
     os_pushed fuel tags stck constr ptr st c0 = os_pushed fuel' tags stck constr ptr st c0).
Proof.
  induction fuel as [|fuel [IH1 IH2]]; split; [lia|lia|..].
  - intros [|fuel'] tags stck ptr st c0 Hb Hf Hf'; [lia|]. cbn [os_constructed]. cbv zeta.
    set (Left := match stck with [] => length ptr | sel :: _ => _ end).
    assert (Left ≤ length ptr)%nat as HLeft.
    { unfold Left. destruct stck as [|sel ?]; [lia|]. destruct (el_left sel <? 0); lia. }
    assert (∀ tlv_tag tl tlv_len ll, ber_fetch_tag (take Left ptr) = RC_OK tlv_tag tl →
      ber_fetch_length (BER_TLV_CONSTRUCTED ptr) (drop tl (take Left ptr)) = RC_OK tlv_len ll →
      (1 ≤ tl ∧ 1 ≤ ll ∧ tl + ll ≤ length ptr)%nat) as Hread.
    { intros tlv_tag tl tlv_len ll H1 H2.
      apply (good_consumed _ _ _ _ _ _ _ (fetch_tag_good _)) in H1. rewrite length_take in H1.
      eapply good_consumed in H2; [|apply fetch_length_good; by apply Forall_drop, Forall_take].
      rewrite length_drop, length_take in H2. lia. }
    assert (∀ sel tl ll constr, (1 ≤ tl)%nat → (1 ≤ ll)%nat → (tl + ll ≤ length ptr)%nat →
      os_pushed fuel tags (sel :: stck) constr (drop (tl + ll) ptr) st (c0 + (tl + ll)) =
      os_pushed fuel' tags (sel :: stck) constr (drop (tl + ll) ptr) st (c0 + (tl + ll))) as Hpush.
    { intros sel tl ll constr H1 H2 H3. pose proof (length_drop ptr (tl + ll)).
      apply IH2; [by apply Forall_drop|cbn [length]; lia..]. }
    destruct stck as [|sel prev]; cbn [length] in *.
    + apply dec_bind_ext; [done|]. intros tlv_tag tl H1. apply dec_bind_ext; [done|]. intros tlv_len ll H2.
      destruct (Hread _ _ _ _ H1 H2) as (?&?&?). by apply Hpush.
    + destruct ((el_left sel <=? 0) && negb (want_nulls sel)).
      { destruct prev as [|p prev]; [done|]. destruct (_ && _); [done|]. apply IH1; [done|cbn [length] in *; lia..]. }
      apply dec_bind_ext; [done|]. intros tlv_tag tl H1. apply dec_bind_ext; [done|]. intros tlv_len ll H2.
      destruct (Hread _ _ _ _ H1 H2) as (?&?&?).
      destruct (want_nulls sel && is_eoc ptr) eqn:Eeoc.
      { apply andb_true_iff in Eeoc as [_ Eeoc]. apply is_eoc_length in Eeoc.
        pose proof (length_drop ptr 2). apply IH1; [by apply Forall_drop|cbn [length]; lia..]. }
      destruct (negb (tlv_tag =? _)); [done|].
      destruct (negb (el_left sel =? - 1) && (el_left sel <? _)); [done|]. by apply Hpush.
  - intros [|fuel'] tags stck constr ptr st c0 Hb Hf Hf'; [lia|]. cbn [os_pushed].
    destruct constr; [apply IH1; [done|lia..]|]. destruct stck as [|sel prev]; [done|].
    destruct (el_left sel <? 0); [done|]. destruct (os_append st _) as [st'|]; [|done].
    destruct (negb _); [done|]. cbn [length] in *.
    set (len := Nat.min (length ptr) (Z.to_nat (el_left sel))). pose proof (length_drop ptr len).
    apply IH1; [by apply Forall_drop|cbn [length]; lia..].
Qed.

Lemma SEQUENCE_rest_fuel fuel : ∀ fuel' d specs count nulls l ptr c0 st,
  Forall is_byte ptr → (length ptr < fuel)%nat → (length ptr < fuel')%nat →
  SEQUENCE_rest fuel d specs count nulls l ptr c0 st = SEQUENCE_rest fuel' d specs count nulls l ptr c0 st.
Proof.
  induction fuel as [|fuel IH]; intros [|fuel'] d specs count nulls l ptr c0 st Hb Hf Hf'; try lia.
  cbn [SEQUENCE_rest]. destruct (l =? 0); [done|]. pose proof (LEFT_length l ptr).
  apply dec_bind_in_ext; [done|]. intros ? tl Hr. apply (good_consumed _ _ _ _ _ _ _ (fetch_tag_good _)) in Hr.
  apply end_of_contents_ext.
  { intros H2. pose proof (length_drop ptr 2). apply IH; [by apply Forall_drop|lia..]. }
  destruct (_ || _); [done|]. apply dec_bind_in_ext; [apply skip_value_fuel; [done|lia..]|]. intros ? ll Hr'.
  apply (good_consumed _ _ _ _ _ _ _ (skip_value_good fuel d l ptr tl Hb ltac:(lia))) in Hr'.
  rewrite length_drop in Hr'. pose proof (length_drop ptr (tl + ll)). apply IH; [by apply Forall_drop|lia..].
Qed.

(** One round of the loop behind a CHOICE in front of an octet 0. *)
Lemma CHOICE_rest_zero fuel l x ptr c0 st : l < 0 →
  CHOICE_rest (S fuel) l (0 :: x :: ptr) c0 st =
    if x =? 0 then CHOICE_rest fuel (l + 1) ptr (c0 + 2) st else CHOICE_rest fuel l (0 :: x :: ptr) c0 st.
Proof.
  intros Hl. cbn [CHOICE_rest]. unfold end_of_contents, LEFT. destruct (Z.ltb_spec l 0); [|lia].
  change (ber_fetch_tag (0 :: x :: ptr)) with (RC_OK 0 1). cbn [negb dec_bind_in dec_bind length Nat.ltb Nat.leb].
  by destruct x.
Qed.

Lemma CHOICE_rest_stuck fuel l x ptr c0 st : l < 0 → x ≠ 0 → CHOICE_rest fuel l (0 :: x :: ptr) c0 st = RC_LOOP.
Proof.
  intros Hl Hx. induction fuel as [|fuel IH]; [done|]. rewrite CHOICE_rest_zero by done.
  by destruct (Z.eqb_spec x 0).
Qed.

Lemma CHOICE_rest_fuel fuel : ∀ fuel' l ptr c0 st, (length ptr < fuel)%nat → (length ptr < fuel')%nat →
  CHOICE_rest fuel l ptr c0 st = CHOICE_rest fuel' l ptr c0 st.
Proof.
  induction fuel as [|fuel IH]; intros [|fuel'] l ptr c0 st Hf Hf'; try lia.
  destruct (Z.ltb_spec l 0) as [Hl|Hl].
  2:{ cbn [CHOICE_rest]. by destruct (Z.ltb_spec l 0); [lia|]. }
  destruct ptr as [|[| |] [|x ptr]]; try (cbn [CHOICE_rest]; destruct (negb (l <? 0)); [done|]; by apply dec_bind_in_ext).
  - cbn [CHOICE_rest]. unfold end_of_contents, LEFT. by destruct (Z.ltb_spec l 0); [|lia].
  - destruct (decide (x = 0)) as [->|Hx]; [|by rewrite !CHOICE_rest_stuck].
    rewrite !CHOICE_rest_zero by done. cbn [length] in *. apply IH; lia.
Qed.

(** ** The types with members *)

Section members.
Context (els : list (asn_TYPE_member asn_TYPE_descriptor)) (F F' d bound : nat).

(** The decoders of the members with two budgets agree. *)
Hypothesis Hmembers : Forall (λ e, ∀ ptr, Forall is_byte ptr → (length ptr ≤ bound)%nat →
  good (has_type (m_type e)) 2 0 ptr (ber_decoder F d (m_type e) ptr (AsnTypes.tag_mode e)) ∧
  ber_decoder F d (m_type e) ptr (AsnTypes.tag_mode e) = ber_decoder F' d (m_type e) ptr (AsnTypes.tag_mode e)) els.

Let decs F : list member_decoder := map (λ e, ber_decoder F d (m_type e)) els.

Lemma SEQUENCE_loop_fuel specs d' fuel : ∀ fuel' edx l ptr c0 st,
  Forall is_byte ptr → (length ptr + 2 ≤ fuel)%nat → (length ptr + 2 ≤ fuel')%nat → (length ptr ≤ bound)%nat →
  SEQUENCE_loop fuel d' els specs (decs F) edx l ptr c0 st = SEQUENCE_loop fuel' d' els specs (decs F') edx l ptr c0 st.
Proof.
  induction fuel as [|fuel IH]; intros [|fuel'] edx l ptr c0 st Hb Hf Hf' Hbound; try lia.
  cbn [SEQUENCE_loop]. cbv zeta.
  rewrite (SEQUENCE_rest_fuel fuel fuel') by (done || lia). destruct (els !! edx) as [elm|] eqn:He; [|done].
  destruct (_ && _); [done|]. pose proof (LEFT_length l ptr).
  apply dec_bind_in_ext; [done|]. intros tlv_tag tl Hr. apply (good_consumed _ _ _ _ _ _ _ (fetch_tag_good _)) in Hr.
  match goal with |- end_of_contents _ _ (if ?b then _ else ?s) _ = end_of_contents _ _ _ ?s' =>
    assert (s = s') as Hs; [|apply end_of_contents_ext; [by destruct b|done]] end.
  destruct (find_member els specs edx (optional elm) tlv_tag) as [n|].
  - unfold decs. rewrite !list_lookup_fmap. destruct (els !! n) as [e|] eqn:Hn; [|done].
    cbn [fmap option_fmap option_map].
    destruct (Forall_lookup_1 _ _ _ _ Hmembers Hn (LEFT l ptr) (Forall_LEFT l ptr Hb) ltac:(lia)) as [Hg Heq].
    apply dec_bind_in_ext; [exact Heq|]. intros v c Hr'.
    apply (good_consumed _ _ _ _ _ _ _ Hg) in Hr'. pose proof (length_drop ptr c).
    apply IH; [by apply Forall_drop|lia..].
  - destruct (negb _); [done|]. apply dec_bind_in_ext; [apply skip_value_fuel; [done|lia..]|]. intros ? skip Hr'.
    apply (good_consumed _ _ _ _ _ _ _ (skip_value_good fuel d' l ptr tl Hb ltac:(lia))) in Hr'.
    rewrite length_drop in Hr'. pose proof (length_drop ptr (skip + tl)). apply IH; [by apply Forall_drop|lia..].
Qed.

Lemma CHOICE_fuel tags specs fuel fuel' d' ptr tm :
  Forall is_byte ptr → (length ptr < fuel)%nat → (length ptr < fuel')%nat → (length ptr ≤ bound)%nat →
  (tm = 0 ∨ tm = 1 ∨ tags ≠ []) →
  CHOICE_decode_ber fuel d' tags els specs (decs F) ptr tm = CHOICE_decode_ber fuel' d' tags els specs (decs F') ptr tm.
Proof.
  intros Hb Hf Hf' Hbound Hm. unfold CHOICE_decode_ber. cbv zeta.
  set (untagged := (tm =? 0) && bool_decide (tags = [])).
  apply dec_bind_ext; [done|]. intros [l constr] n _. set (p := drop n ptr).
  pose proof (length_drop ptr n) as Hd. fold p in Hd. assert (Forall is_byte p) as Hbp by by apply Forall_drop.
  pose proof (LEFT_length l p).
  apply dec_bind_in_ext; [done|]. intros tlv_tag tl Hr. apply (good_consumed _ _ _ _ _ _ _ (fetch_tag_good _)) in Hr.
  destruct (bsearch _ _ ≫= _) as [t2m|].
  - unfold decs. rewrite !list_lookup_fmap. destruct (els !! el_no t2m) as [e|] eqn:Hn; [|done].
    cbn [fmap option_fmap option_map].
    destruct (Forall_lookup_1 _ _ _ _ Hmembers Hn (LEFT l p) (Forall_LEFT l p Hbp) ltac:(lia)) as [_ Heq].
    apply dec_bind_in_ext; [exact Heq|]. intros v c _. destruct (0 <? advance l c); [done|].
    destruct untagged; [done|]. pose proof (length_drop p c). apply CHOICE_rest_fuel; lia.
  - destruct (ext_start specs =? - 1); [done|]. apply dec_bind_in_ext; [|done]. apply skip_value_fuel; [done|lia..].
Qed.
End members.

Definition fuel_irrelevant (td : asn_TYPE_descriptor) : Prop :=
  ∀ fuel fuel' d ptr tm, Forall is_byte ptr → (2 * length ptr + 2 ≤ fuel)%nat → (2 * length ptr + 2 ≤ fuel')%nat →
  (tm = 0 ∨ tm = 1 ∨ td_tags td ≠ []) → ber_decoder fuel d td ptr tm = ber_decoder fuel' d td ptr tm.

Lemma members_fuel els fuel fuel' d n :
  Forall (λ e, tables_ok (m_type e) = true → fuel_irrelevant (m_type e)) els →
  forallb (λ e, member_mode_ok e && tables_ok (m_type e)) els = true →
  (2 * n + 2 ≤ fuel)%nat → (2 * n + 2 ≤ fuel')%nat →
  Forall (λ e, ∀ ptr, Forall is_byte ptr → (length ptr ≤ n)%nat →
    good (has_type (m_type e)) 2 0 ptr (ber_decoder fuel d (m_type e) ptr (AsnTypes.tag_mode e)) ∧
    ber_decoder fuel d (m_type e) ptr (AsnTypes.tag_mode e) =
      ber_decoder fuel' d (m_type e) ptr (AsnTypes.tag_mode e)) els.
Proof.
  intros IH Htab Hf Hf'. apply Forall_lookup_2. intros i e He ptr Hb Hn.
  pose proof (forallb_lookup _ _ _ _ Htab He) as Hok. apply andb_true_iff in Hok as [Hm%member_mode_ok_cases Ht].
  split; [apply ber_decoder_good; [done..|lia|done]|].
  apply (Forall_lookup_1 _ _ _ _ IH He); [done..|lia|lia|done].
Qed.

Lemma ber_decoder_fuel td : tables_ok td = true → fuel_irrelevant td.
Proof.
  induction td as [tags|tags|tags|tags els specs IH|tags els specs IH] using asn_TYPE_descriptor_ind';
    intros Htab fuel fuel' d ptr tm Hb Hf Hf' Hm; cbn [td_tags] in Hm; try done.
  - cbn [ber_decoder]. unfold OCTET_STRING_decode_ber. apply dec_bind_ext; [done|]. intros [l constr] n _.
    destruct constr; [|done]. apply dec_bind_ext; [|done]. apply os_fuel; [done|cbn [length]; lia..].
  - cbn [tables_ok] in Htab. apply andb_true_iff in Htab as [Hmem Hseq].
    cbn [ber_decoder]. unfold SEQUENCE_decode_ber. apply dec_bind_ext; [done|]. intros [l constr] n _.
    pose proof (length_drop ptr n). apply dec_bind_ext; [|done].
    apply (SEQUENCE_loop_fuel els _ _ _ (length ptr)); [by apply members_fuel|by apply Forall_drop|lia..].
  - cbn [tables_ok] in Htab. apply andb_true_iff in Htab as [Hmem Hch].
    apply (CHOICE_fuel els _ _ _ (length ptr)); [by apply members_fuel|done|lia..|done].
Qed.

(** C10. The decoder is a function of the message: with any budgets above twice
    the size of the buffer the result is the same.  So [RC_LOOP] stands for a
    call that never returns, and every other result for one that does. *)
Theorem ber_decode_total td ptr fuel fuel' d :
  tables_ok td = true → Forall is_byte ptr → (2 * length ptr + 2 ≤ fuel)%nat → (2 * length ptr + 2 ≤ fuel')%nat →
  ber_decode fuel d td ptr = ber_decode fuel' d td ptr.
Proof. intros Htab Hb Hf Hf'. by apply ber_decoder_fuel; auto. Qed.

(** ** The message that is never decoded *)

(** A PDU of indefinite length, version 2, operation 0, whose [msg] is a
    resetStateReq in an indefinite length that ends with 0, 1. *)
Definition endless_pdu : octets := [48; 128; 128; 1; 2; 129; 1; 0; 162; 128; 179; 0; 0; 1].

(** C6. Fourteen octets are enough to stop a program: whatever the budget for the
    loops, and whatever the stack allows, the decoder never finishes the message
    [endless_pdu]; [ber_decode_total] says that no larger budget helps. *)
Theorem endless_pdu_never_decoded fuel d : (30 ≤ fuel)%nat →
  ber_decode fuel (6 + d) asn_DEF_RsproPDU endless_pdu = RC_LOOP.
Proof.
  intros Hf. unfold ber_decode. rewrite (ber_decoder_fuel asn_DEF_RsproPDU) with (fuel' := 30%nat);
    [by vm_compute| | |cbn; lia|cbn; lia|by left].
  - by vm_compute.
  - unfold endless_pdu, is_byte. repeat constructor; lia.
Qed.

Lemma ber_decode_total_witness :
  ber_decode 1000 6 asn_DEF_RsproPDU endless_pdu = ber_decode 30 6 asn_DEF_RsproPDU endless_pdu.
Proof.
  apply (ber_decode_total asn_DEF_RsproPDU endless_pdu 1000 30 6); [vm_compute; reflexivity| |cbn; lia|cbn; lia].
  unfold endless_pdu, is_byte. repeat constructor; lia.
Defined.

Lemma endless_pdu_never_decoded_witness : ber_decode 1000 10 asn_DEF_RsproPDU endless_pdu = RC_LOOP.
Proof. apply (endless_pdu_never_decoded 1000 4). lia. Defined.
