(* ===== verification/RsproDer.v ===== *)
(** * RSPRO PDUs on the wire ([rspro_util.c])

    The tables of [RsproTables] say at which offset of its C structure a member
    is; [asn_of_RsproPDU] and [RsproPDU_of_asn] say the same about the records of
    [RsproPdu], in the order of the tables.  With them [rspro_enc_msg] and
    [rspro_dec_msg] are the encoder and the decoder of the run-time, and
    [der_codec] is the codec that the programs are modelled with. *)

From S2P Require Import Prelude.
From S2P Require Import RsproPdu.
From S2P Require Import BerTlv.
From S2P Require Import AsnTypes.
From S2P Require Import DerEncoder.
From S2P Require Import DerProps.
From S2P Require Import BerDecoder.
From S2P Require Import RsproTables.
From S2P Require Import BerRoundtrip.
From S2P Require Import BerSafe.
From S2P Require Import BerTotal.

(** ** Structures as values *)

Definition asn_seq (l : list asn_value) : asn_value := VSeq (map Some l).

Definition asn_of_ComponentIdentity (c : ComponentIdentity_t) : asn_value :=
  VSeq [Some (VLong (ci_type c)); Some (VString (ci_name c)); Some (VString (ci_software c));
        Some (VString (ci_swVersion c)); VString <$> ci_hwManufacturer c; VString <$> ci_hwModel c;
        VString <$> ci_hwSerialNr c; VString <$> ci_hwVersion c; VString <$> ci_fwVersion c].

Definition asn_of_ClientSlot (c : ClientSlot_t) : asn_value := asn_seq [VLong (clientId c); VLong (cl_slotNr c)].
Definition asn_of_BankSlot (b : BankSlot_t) : asn_value := asn_seq [VLong (bankId b); VLong (bk_slotNr b)].

Definition asn_of_IpAddress (a : IpAddress_t) : asn_value :=
  match a with
  | IpAddress_PR_NOTHING => VChoice 0 None
  | IpAddress_PR_ipv4 b => VChoice 1 (Some (VString b))
  | IpAddress_PR_ipv6 b => VChoice 2 (Some (VString b))
  end.

Definition asn_of_IpPort (p : IpPort_t) : asn_value := asn_seq [asn_of_IpAddress (ip p); VLong (port p)].

Definition asn_of_TpduFlags (f : TpduFlags_t) : asn_value :=
  asn_seq [VBool (tpduHeaderPresent f); VBool (finalPart f); VBool (procByteContinueTx f); VBool (procByteContinueRx f)].

Definition asn_of_SlotPhysStatus (s : SlotPhysStatus_t) : asn_value :=
  VSeq [Some (VBool (resetActive s)); VBool <$> vccPresent s; VBool <$> clkActive s; VBool <$> cardPresent s].

(** The member of the union that [present] selects. *)
Definition asn_of_msg (m : RsproPDUchoice) : option asn_value :=
  match m with
  | PR_NOTHING => None
  | PR_connectBankReq i b n => Some (asn_seq [asn_of_ComponentIdentity i; VLong b; VLong n])
  | PR_connectBankRes i r | PR_connectClientRes i r => Some (asn_seq [asn_of_ComponentIdentity i; VLong r])
  | PR_connectClientReq i c => Some (VSeq [Some (asn_of_ComponentIdentity i); asn_of_ClientSlot <$> c])
  | PR_createMappingReq c b | PR_removeMappingReq c b => Some (asn_seq [asn_of_ClientSlot c; asn_of_BankSlot b])
  | PR_createMappingRes r | PR_removeMappingRes r | PR_configClientIdRes r | PR_configClientBankRes r
  | PR_resetStateRes r | PR_setAtrRes r => Some (asn_seq [VLong r])
  | PR_configClientIdReq c => Some (asn_seq [asn_of_ClientSlot c])
  | PR_configClientBankReq b p => Some (asn_seq [asn_of_BankSlot b; asn_of_IpPort p])
  | PR_errorInd sender severity code b c e =>
      Some (VSeq [Some (VLong sender); Some (VLong severity); Some (VLong code);
                  asn_of_BankSlot <$> b; asn_of_ClientSlot <$> c; VString <$> e])
  | PR_resetStateReq => Some (VSeq [])
  | PR_setAtrReq c a => Some (asn_seq [asn_of_ClientSlot c; VString a])
  | PR_tpduModemToCard c b f d =>
      Some (asn_seq [asn_of_ClientSlot c; asn_of_BankSlot b; asn_of_TpduFlags f; VString d])
  | PR_tpduCardToModem b c f d =>
      Some (asn_seq [asn_of_BankSlot b; asn_of_ClientSlot c; asn_of_TpduFlags f; VString d])
  | PR_clientSlotStatusInd c b s => Some (asn_seq [asn_of_ClientSlot c; asn_of_BankSlot b; asn_of_SlotPhysStatus s])
  | PR_bankSlotStatusInd b c s => Some (asn_seq [asn_of_BankSlot b; asn_of_ClientSlot c; asn_of_SlotPhysStatus s])
  end.

Definition asn_of_RsproPDU (p : RsproPDU) : asn_value :=
  asn_seq [VLong (version p); VLong (tag p); VChoice (RsproPDUchoice_PR (msg p)) (asn_of_msg (msg p))].

(** ** Values as structures *)

Definition long_of (v : option asn_value) : option Z := match v with Some (VLong z) => Some z | _ => None end.
Definition bool_of (v : option asn_value) : option Z := match v with Some (VBool b) => Some b | _ => None end.
Definition string_of (v : option asn_value) : option octets := match v with Some (VString s) => Some s | _ => None end.

(** A member that may be NULL. *)
Definition opt_of {A} (f : option asn_value → option A) (v : option asn_value) : option (option A) :=
  match v with Some _ => Some <$> f v | None => Some None end.

Definition ComponentIdentity_of (v : option asn_value) : option ComponentIdentity_t :=
  match v with
  | Some (VSeq [t; n; s; w; a; b; c; d; e]) =>
      t ← long_of t; n ← string_of n; s ← string_of s; w ← string_of w;
      a ← opt_of string_of a; b ← opt_of string_of b; c ← opt_of string_of c;
      d ← opt_of string_of d; e ← opt_of string_of e;
      Some (ComponentIdentity t n s w a b c d e)
  | _ => None
  end.

Definition longs_of {A} (f : Z → Z → A) (v : option asn_value) : option A :=
  match v with Some (VSeq [a; b]) => a ← long_of a; b ← long_of b; Some (f a b) | _ => None end.
Definition ClientSlot_of : option asn_value → option ClientSlot_t := longs_of MkClientSlot.
Definition BankSlot_of : option asn_value → option BankSlot_t := longs_of MkBankSlot.

Definition IpAddress_of (v : option asn_value) : option IpAddress_t :=
  match v with
  | Some (VChoice 0 None) => Some IpAddress_PR_NOTHING
  | Some (VChoice 1 v) => IpAddress_PR_ipv4 <$> string_of v
  | Some (VChoice 2 v) => IpAddress_PR_ipv6 <$> string_of v
  | _ => None
  end.

Definition IpPort_of (v : option asn_value) : option IpPort_t :=
  match v with Some (VSeq [a; p]) => a ← IpAddress_of a; p ← long_of p; Some (IpPort a p) | _ => None end.

Definition TpduFlags_of (v : option asn_value) : option TpduFlags_t :=
  match v with
  | Some (VSeq [a; b; c; d]) =>
      a ← bool_of a; b ← bool_of b; c ← bool_of c; d ← bool_of d; Some (TpduFlags a b c d)
  | _ => None
  end.

Definition SlotPhysStatus_of (v : option asn_value) : option SlotPhysStatus_t :=
  match v with
  | Some (VSeq [r; a; b; c]) =>
      r ← bool_of r; a ← opt_of bool_of a; b ← opt_of bool_of b; c ← opt_of bool_of c;
      Some (SlotPhysStatus r a b c)
  | _ => None
  end.

Definition result_of {A} (f : Z → A) (l : list (option asn_value)) : option A :=
  match l with [r] => f <$> long_of r | _ => None end.

Definition msg_of (present : Z) (l : list (option asn_value)) : option RsproPDUchoice :=
  match present, l with
  | 1, [i; b; n] => i ← ComponentIdentity_of i; b ← long_of b; n ← long_of n; Some (PR_connectBankReq i b n)
  | 2, [i; r] => i ← ComponentIdentity_of i; r ← long_of r; Some (PR_connectBankRes i r)
  | 3, [i; c] => i ← ComponentIdentity_of i; c ← opt_of ClientSlot_of c; Some (PR_connectClientReq i c)
  | 4, [i; r] => i ← ComponentIdentity_of i; r ← long_of r; Some (PR_connectClientRes i r)
  | 5, [c; b] => c ← ClientSlot_of c; b ← BankSlot_of b; Some (PR_createMappingReq c b)
  | 6, _ => result_of PR_createMappingRes l
  | 7, [c; b] => c ← ClientSlot_of c; b ← BankSlot_of b; Some (PR_removeMappingReq c b)
  | 8, _ => result_of PR_removeMappingRes l
  | 9, [c] => PR_configClientIdReq <$> ClientSlot_of c
  | 10, _ => result_of PR_configClientIdRes l
  | 11, [b; p] => b ← BankSlot_of b; p ← IpPort_of p; Some (PR_configClientBankReq b p)
  | 12, _ => result_of PR_configClientBankRes l
  | 13, [s; w; k; b; c; e] =>
      s ← long_of s; w ← long_of w; k ← long_of k;
      b ← opt_of BankSlot_of b; c ← opt_of ClientSlot_of c; e ← opt_of string_of e;
      Some (PR_errorInd s w k b c e)
  | 14, [] => Some PR_resetStateReq
  | 15, _ => result_of PR_resetStateRes l
  | 16, [c; a] => c ← ClientSlot_of c; a ← string_of a; Some (PR_setAtrReq c a)
  | 17, _ => result_of PR_setAtrRes l
  | 18, [c; b; f; d] =>
      c ← ClientSlot_of c; b ← BankSlot_of b; f ← TpduFlags_of f; d ← string_of d; Some (PR_tpduModemToCard c b f d)
  | 19, [b; c; f; d] =>
      b ← BankSlot_of b; c ← ClientSlot_of c; f ← TpduFlags_of f; d ← string_of d; Some (PR_tpduCardToModem b c f d)
  | 20, [c; b; s] =>
      c ← ClientSlot_of c; b ← BankSlot_of b; s ← SlotPhysStatus_of s; Some (PR_clientSlotStatusInd c b s)
  | 21, [b; c; s] =>
      b ← BankSlot_of b; c ← ClientSlot_of c; s ← SlotPhysStatus_of s; Some (PR_bankSlotStatusInd b c s)
  | _, _ => None
  end.

Definition RsproPDU_of_asn (v : asn_value) : option RsproPDU :=
  match v with
  | VSeq [v; t; Some (VChoice present memb)] =>
      v ← long_of v; t ← long_of t;
      m ← match memb with
          | Some (VSeq l) => msg_of present l
          | None => if present =? 0 then Some PR_NOTHING else None
          | _ => None
          end;
      Some (MkRsproPDU v t m)
  | _ => None
  end.

(** ** The PDU that is read

    BER has many values for a true BOOLEAN; 255 is the one that is written. *)
Definition canonical_bool (b : Z) : Z := if b =? 0 then 0 else 255.

Definition canonical_flags (f : TpduFlags_t) : TpduFlags_t :=
  TpduFlags (canonical_bool (tpduHeaderPresent f)) (canonical_bool (finalPart f))
    (canonical_bool (procByteContinueTx f)) (canonical_bool (procByteContinueRx f)).

Definition canonical_status (s : SlotPhysStatus_t) : SlotPhysStatus_t :=
  SlotPhysStatus (canonical_bool (resetActive s)) (canonical_bool <$> vccPresent s)
    (canonical_bool <$> clkActive s) (canonical_bool <$> cardPresent s).

Definition canonical_msg (m : RsproPDUchoice) : RsproPDUchoice :=
  match m with
  | PR_tpduModemToCard c b f d => PR_tpduModemToCard c b (canonical_flags f) d
  | PR_tpduCardToModem b c f d => PR_tpduCardToModem b c (canonical_flags f) d
  | PR_clientSlotStatusInd c b s => PR_clientSlotStatusInd c b (canonical_status s)
  | PR_bankSlotStatusInd b c s => PR_bankSlotStatusInd b c (canonical_status s)
  | _ => m
  end.

Definition canonical_pdu (p : RsproPDU) : RsproPDU := MkRsproPDU (version p) (tag p) (canonical_msg (msg p)).

(** What the C types can hold: integers are [long], BOOLEANs [int], strings
    octets. *)
Definition pdu_in_range (p : RsproPDU) : Prop := has_type asn_DEF_RsproPDU (asn_of_RsproPDU p).

(** Shows it of a PDU whose alternative is known. *)
Ltac solve_in_range :=
  cbn;
  lazymatch goal with
  | |- context [Z.to_nat ?n] => let k := eval vm_compute in (Z.to_nat n) in change (Z.to_nat n) with k
  | _ => idtac
  end;
  cbn; split_and!; try done; try lia.

Ltac destruct_slots := repeat match goal with
  | x : BankSlot_t |- _ => destruct x
  | x : ClientSlot_t |- _ => destruct x
  | x : IpPort_t |- _ => destruct x
  | x : IpAddress_t |- _ => destruct x
  | x : option ClientSlot_t |- _ => destruct x
  | x : option BankSlot_t |- _ => destruct x
  | x : option octets |- _ => destruct x
  | x : option Z |- _ => destruct x
  end.

Lemma ComponentIdentity_of_asn i : ComponentIdentity_of (Some (canonical (asn_of_ComponentIdentity i))) = Some i.
Proof. destruct i; destruct_slots; reflexivity. Qed.

Lemma RsproPDU_of_asn_canonical p :
  RsproPDU_of_asn (canonical (asn_of_RsproPDU p)) = Some (canonical_pdu p).
Proof.
  destruct p as [v t m]; destruct m as [| | | | | | | | | | | | | | | | | |? ? []|? ? []|? ? []|? ? []];
    try (destruct_slots; reflexivity).
  all: cbn -[ComponentIdentity_of asn_of_ComponentIdentity]; rewrite ComponentIdentity_of_asn;
    destruct_slots; reflexivity.
Qed.

(** ** Encoding and decoding *)

(** [rspro_msgb_alloc] allocates 1024 octets with 8 of headroom. *)
Definition rspro_msgb_tailroom : Z := 1024 - 8.

Definition rspro_enc_msg_der (pdu : RsproPDU) : outcome (option octets) :=
  der_encode_to_buffer asn_DEF_RsproPDU (asn_of_RsproPDU pdu) rspro_msgb_tailroom.

(** [d] is what [_ASN_DEFAULT_STACK_MAX] allows; the budget for loops is enough by
    [ber_decode_total], so [NoFuel] is a call that does not return. *)
Definition rspro_dec_msg_der (d : nat) (msg : octets) : outcome (option RsproPDU) :=
  match ber_decode (2 * length msg + 2) d asn_DEF_RsproPDU msg with
  | RC_OK v _ => Done (RsproPDU_of_asn v)
  | RC_WMORE | RC_FAIL => Done None
  | RC_ABORT => Panic
  | RC_LOOP => NoFuel
  end.

Lemma asn_DEF_RsproPDU_ok :
  tags_ok asn_DEF_RsproPDU = true ∧ table_ok asn_DEF_RsproPDU = true ∧ tables_ok asn_DEF_RsproPDU = true ∧
  type_mode_ok asn_DEF_RsproPDU 0 = true ∧ td_depth asn_DEF_RsproPDU = 6%nat ∧ der_bound asn_DEF_RsproPDU < 2 ^ 63.
Proof. by vm_compute. Qed.

Lemma rspro_enc_msg_spec pdu : pdu_in_range pdu →
  rspro_enc_msg_der pdu =
    Done (out ← der asn_DEF_RsproPDU (asn_of_RsproPDU pdu) 0 0;
          if rspro_msgb_tailroom <? Z.of_nat (length out) then None else Some out).
Proof.
  intros Hr. destruct asn_DEF_RsproPDU_ok as (Htags&_&_&_&_&Hb). by apply der_encode_to_buffer_spec.
Qed.

Lemma Done_inj {A} (x y : A) : Done x = Done y → x = y.
Proof. by intros [= ->]. Qed.

Lemma rspro_dec_enc_der d pdu m : (6 ≤ d)%nat → pdu_in_range pdu → rspro_enc_msg_der pdu = Done (Some m) →
  rspro_dec_msg_der d m = Done (Some (canonical_pdu pdu)).
Proof.
  intros Hd Hr Henc. rewrite rspro_enc_msg_spec in Henc by done. apply Done_inj in Henc.
  apply bind_Some in Henc as (out&Hout&Hm). destruct (Z.ltb_spec rspro_msgb_tailroom (Z.of_nat (length out))); [done|].
  injection Hm as ->. unfold rspro_msgb_tailroom in *.
  destruct asn_DEF_RsproPDU_ok as (Htags&Htab&_&Hm&Hdep&_). unfold rspro_dec_msg_der, ber_decode.
  pose proof (ber_decoder_der _ Htags Htab (2 * length m + 2)%nat d _ 0 0 m [] Hr Hm eq_refl Hout
    ltac:(lia) ltac:(lia) ltac:(lia)) as Hdec.
  rewrite app_nil_r in Hdec. rewrite Hdec. by rewrite RsproPDU_of_asn_canonical.
Qed.

(** ** What is received has the types of C *)

Lemma asn_of_ComponentIdentity_inv i : ComponentIdentity_of (Some (asn_of_ComponentIdentity i)) = Some i.
Proof. destruct i; destruct_slots; reflexivity. Qed.

Lemma RsproPDU_of_asn_of p : RsproPDU_of_asn (asn_of_RsproPDU p) = Some p.
Proof.
  destruct p as [v t m]; destruct m as [| | | | | | | | | | | | | | | | | |? ? []|? ? []|? ? []|? ? []];
    try (destruct_slots; reflexivity).
  all: cbn -[ComponentIdentity_of asn_of_ComponentIdentity]; rewrite asn_of_ComponentIdentity_inv;
    destruct_slots; reflexivity.
Qed.

(** The members of a value of a SEQUENCE, one after the other. *)
Ltac invert_members H :=
  apply has_type_SEQUENCE in H;
  repeat (let v := fresh "v" in let vs := fresh "vs" in let Hm := fresh "Hm" in
          apply Forall2_cons_inv_l in H as (v & vs & Hm & H & ->));
  apply Forall2_nil_inv_l in H as ->.

Lemma mandatory_typed {T} typed n t tm (td : T) v :
  member_ok typed (MkMember ATF_NOFLAGS n t tm td) v → ∃ x, v = Some x ∧ typed td x.
Proof. destruct v; [eauto|by intros []]. Qed.

Lemma optional_typed {A} (f : A → asn_value) n t tm td v :
  (∀ x, has_type td x → ∃ a, x = f a) → member_ok has_type (MkMember ATF_POINTER n t tm td) v → ∃ o, v = f <$> o.
Proof.
  intros Hf Hm. destruct v as [x|]; [|by exists None]. destruct (Hf x Hm) as [a ->]. by exists (Some a).
Qed.

Lemma long_typed tags v : has_type (TD_NativeInteger tags) v → ∃ z, v = VLong z.
Proof. destruct v; try done. eauto. Qed.
Lemma bool_typed tags v : has_type (TD_BOOLEAN tags) v → ∃ b, v = VBool b.
Proof. destruct v; try done. eauto. Qed.
Lemma string_typed tags v : has_type (TD_OCTET_STRING tags) v → ∃ s, v = VString s.
Proof. destruct v; try done. eauto. Qed.

(** The values of a primitive type, by the lemma [k] is given. *)
Ltac primitive_typed td k :=
  let td := eval hnf in td in
  lazymatch td with
  | TD_NativeInteger ?tags => k (long_typed tags)
  | TD_BOOLEAN ?tags => k (bool_typed tags)
  | TD_OCTET_STRING ?tags => k (string_typed tags)
  end.

(** The members of a value of the SEQUENCE type [td]; those of other types are
    left to [others]. *)
Ltac invert_sequence td H others :=
  match type of H with has_type _ ?v => destruct v as [| | |?|]; try (exfalso; exact H) end;
  unfold td in H; invert_members H;
  repeat match goal with
  | H : member_ok has_type (MkMember ATF_NOFLAGS _ _ _ _) _ |- _ => apply mandatory_typed in H as (? & -> & H)
  | H : member_ok has_type (MkMember ATF_POINTER _ _ _ ?td) _ |- _ =>
      others td ltac:(fun L => apply (optional_typed _ _ _ _ _ _ L) in H as [? ->])
  | H : has_type ?td _ |- _ => others td ltac:(fun L => apply L in H as [? ->])
  end.

Lemma ClientSlot_typed v : has_type asn_DEF_ClientSlot v → ∃ c, v = asn_of_ClientSlot c.
Proof. intros H. invert_sequence asn_DEF_ClientSlot H primitive_typed. by eexists (MkClientSlot _ _). Qed.

Lemma BankSlot_typed v : has_type asn_DEF_BankSlot v → ∃ b, v = asn_of_BankSlot b.
Proof. intros H. invert_sequence asn_DEF_BankSlot H primitive_typed. by eexists (MkBankSlot _ _). Qed.

Lemma TpduFlags_typed v : has_type asn_DEF_TpduFlags v → ∃ f, v = asn_of_TpduFlags f.
Proof. intros H. invert_sequence asn_DEF_TpduFlags H primitive_typed. by eexists (TpduFlags _ _ _ _). Qed.

Lemma SlotPhysStatus_typed v : has_type asn_DEF_SlotPhysStatus v → ∃ s, v = asn_of_SlotPhysStatus s.
Proof. intros H. invert_sequence asn_DEF_SlotPhysStatus H primitive_typed. by eexists (SlotPhysStatus _ _ _ _). Qed.

Lemma ComponentIdentity_typed v : has_type asn_DEF_ComponentIdentity v → ∃ i, v = asn_of_ComponentIdentity i.
Proof.
  intros H. invert_sequence asn_DEF_ComponentIdentity H primitive_typed.
  by eexists (ComponentIdentity _ _ _ _ _ _ _ _ _).
Qed.

Lemma IpAddress_typed v : has_type asn_DEF_IpAddress v → ∃ a, v = asn_of_IpAddress a.
Proof.
  destruct v as [| | | |present [v|]]; try done.
  2:{ intros Hp. cbn in Hp. subst present. by exists IpAddress_PR_NOTHING. }
  intros H. apply has_type_CHOICE in H as (Hp&e&He&Hv).
  destruct (Z.to_nat (present - 1)) as [|[|n]] eqn:En; [| |done]; injection He as <-;
    apply string_typed in Hv as [s ->].
  - exists (IpAddress_PR_ipv4 s). cbn. do 2 f_equal. lia.
  - exists (IpAddress_PR_ipv6 s). cbn. do 2 f_equal. lia.
Qed.

Lemma IpPort_typed v : has_type asn_DEF_IpPort v → ∃ p, v = asn_of_IpPort p.
Proof.
  intros H. invert_sequence asn_DEF_IpPort H
    ltac:(fun td k => lazymatch td with asn_DEF_IpAddress => k IpAddress_typed | _ => primitive_typed td k end).
  by eexists (IpPort _ _).
Qed.

(** The values of the types that the alternatives of [RsproPDUchoice] consist of. *)
Ltac member_typed td k :=
  lazymatch td with
  | asn_DEF_ClientSlot => k ClientSlot_typed
  | asn_DEF_BankSlot => k BankSlot_typed
  | asn_DEF_TpduFlags => k TpduFlags_typed
  | asn_DEF_SlotPhysStatus => k SlotPhysStatus_typed
  | asn_DEF_ComponentIdentity => k ComponentIdentity_typed
  | asn_DEF_IpPort => k IpPort_typed
  | _ => primitive_typed td k
  end.

Ltac alternative H :=
  match type of H with has_type ?td _ => invert_sequence td H member_typed end;
  first
  [ by eexists (PR_connectBankReq _ _ _) | by eexists (PR_connectBankRes _ _)
  | by eexists (PR_connectClientReq _ _) | by eexists (PR_connectClientRes _ _)
  | by eexists (PR_createMappingReq _ _) | by eexists (PR_createMappingRes _)
  | by eexists (PR_removeMappingReq _ _) | by eexists (PR_removeMappingRes _)
  | by eexists (PR_configClientIdReq _) | by eexists (PR_configClientIdRes _)
  | by eexists (PR_configClientBankReq _ _) | by eexists (PR_configClientBankRes _)
  | by eexists (PR_errorInd _ _ _ _ _ _) | by eexists PR_resetStateReq | by eexists (PR_resetStateRes _)
  | by eexists (PR_setAtrReq _ _) | by eexists (PR_setAtrRes _)
  | by eexists (PR_tpduModemToCard _ _ _ _) | by eexists (PR_tpduCardToModem _ _ _ _)
  | by eexists (PR_clientSlotStatusInd _ _ _) | by eexists (PR_bankSlotStatusInd _ _ _) ].

Lemma msg_typed present v : has_type asn_DEF_RsproPDUchoice (VChoice present v) →
  ∃ m, v = asn_of_msg m ∧ present = RsproPDUchoice_PR m.
Proof.
  destruct v as [v|].
  2:{ intros Hp. cbn in Hp. subst present. by exists PR_NOTHING. }
  intros H. apply has_type_CHOICE in H as (Hp&e&He&Hv).
  assert (present = Z.of_nat (Z.to_nat (present - 1)) + 1) as Hn by lia. revert Hn He.
  generalize (Z.to_nat (present - 1)) as n. intros n -> He. clear Hp.
  do 21 (destruct n as [|n]; [injection He as <-; cbn [m_type] in Hv; alternative Hv|]). done.
Qed.

Lemma RsproPDU_typed v : has_type asn_DEF_RsproPDU v → ∃ p, v = asn_of_RsproPDU p.
Proof.
  intros H. destruct v as [| | |l|]; try done. unfold asn_DEF_RsproPDU in H. invert_members H.
  repeat match goal with H : member_ok has_type _ _ |- _ => apply mandatory_typed in H as (? & -> & H) end.
  apply long_typed in Hm as [v ->]. apply long_typed in Hm0 as [t ->].
  match goal with x : asn_value |- _ => destruct x as [| | | |present memb]; try done end.
  apply msg_typed in Hm1 as (m & -> & ->). by exists (MkRsproPDU v t m).
Qed.

Lemma rspro_dec_typed_der d msg : Forall is_byte msg →
  match rspro_dec_msg_der d msg with
  | Done (Some pdu) => pdu_in_range pdu
  | Done None => True
  | NoFuel => stuck msg
  | Panic | Undef => False
  end.
Proof.
  intros Hb. unfold rspro_dec_msg_der, ber_decode. destruct asn_DEF_RsproPDU_ok as (_&_&Htab&_).
  pose proof (ber_decoder_good _ Htab (2 * length msg + 2)%nat d msg 0 Hb (le_n _) ltac:(by left)) as Hg.
  destruct (ber_decoder _ _ _ _ _) as [v n| | | |]; try done. destruct Hg as [Hv _].
  destruct (RsproPDU_typed v Hv) as [p ->]. by rewrite RsproPDU_of_asn_of.
Qed.

(** ** The codec of the programs *)

(** The interface [RsproCodec] has no result for a message whose decoding never
    returns; it is taken for one that cannot be decoded, although the program that
    receives it stops. *)
Definition der_codec (d : nat) : RsproCodec := {|
  rspro_enc_msg pdu := match rspro_enc_msg_der pdu with Done r => r | _ => None end;
  rspro_dec_msg msg := match rspro_dec_msg_der d msg with Done r => r | _ => None end;
|}.

(** What a client of the codec relies on. *)
Class RsproRoundtrip `{RsproCodec} := {
  rspro_dec_enc : ∀ pdu m, pdu_in_range pdu → rspro_enc_msg pdu = Some m → rspro_dec_msg m = Some (canonical_pdu pdu);
}.

Lemma der_codec_roundtrip d : (6 ≤ d)%nat → @RsproRoundtrip (der_codec d).
Proof.
  intros Hd. constructor. intros pdu m Hr Henc. cbn [rspro_enc_msg rspro_dec_msg der_codec] in *.
  rewrite (rspro_dec_enc_der d pdu m Hd Hr); [done|]. rewrite rspro_enc_msg_spec in * by done. by f_equal.
Qed.

(** The codec of the concrete runs, with room for 100 nested calls. *)
#[global] Instance rspro_codec : RsproCodec := der_codec 100.

#[global] Instance rspro_codec_roundtrip : RsproRoundtrip.
Proof. apply der_codec_roundtrip. lia. Qed.

(** C5. A PDU whose members the C types can hold reaches the other side: if
    [rspro_enc_msg] finds room for it, [rspro_dec_msg] yields the same PDU, a true
    BOOLEAN being 255, provided that the stack has room for the nesting of the
    types. *)
Theorem rspro_wire_roundtrip d pdu m :
  (6 ≤ d)%nat → pdu_in_range pdu → rspro_enc_msg_der pdu = Done (Some m) →
  rspro_dec_msg_der d m = Done (Some (canonical_pdu pdu)) ∧ Z.of_nat (length m) ≤ rspro_msgb_tailroom.
Proof.
  intros Hd Hr Henc. split; [by apply rspro_dec_enc_der|]. rewrite rspro_enc_msg_spec in Henc by done.
  apply Done_inj, bind_Some in Henc as (out&_&Hm). destruct (Z.ltb_spec rspro_msgb_tailroom (Z.of_nat (length out))); [done|].
  by injection Hm as ->.
Qed.

(** C11. Whatever arrives in a message of the multiplex, [rspro_dec_msg] never hands
    out a PDU whose members are not what the C types hold: numbers are 64-bit
    [long]s (they are not checked against the ranges of the protocol), strings
    octets, every mandatory member is there; no assertion fails.  Only an octet 0 in
    front of another one, behind an indefinite length, can keep it from
    returning. *)
Theorem rspro_received_typed d msg : Forall is_byte msg →
  match rspro_dec_msg_der d msg with
  | Done (Some pdu) => pdu_in_range pdu
  | Done None => True
  | NoFuel => stuck msg
  | Panic | Undef => False
  end.
Proof. apply rspro_dec_typed_der. Qed.

(** A bankd answers with the response of a card. *)
Definition example_tpdu : RsproPDU :=
  MkRsproPDU 2 0 (PR_tpduCardToModem (MkBankSlot 1 300) (MkClientSlot 7 0) (TpduFlags 1 1 0 0) [144; 0]).

Definition example_tpdu_octets : octets :=
  [48; 45; 128; 1; 2; 129; 1; 0; 162; 37; 173; 35; 48; 7; 2; 1; 1; 2; 2; 1; 44; 48; 6; 2; 1; 7; 2; 1; 0;
   48; 12; 1; 1; 255; 1; 1; 255; 1; 1; 0; 1; 1; 0; 4; 2; 144; 0].

Lemma rspro_wire_roundtrip_witness :
  rspro_dec_msg_der 6 example_tpdu_octets =
    Done (Some (MkRsproPDU 2 0
      (PR_tpduCardToModem (MkBankSlot 1 300) (MkClientSlot 7 0) (TpduFlags 255 255 0 0) [144; 0]))) ∧
  Z.of_nat (length example_tpdu_octets) ≤ 1016.
Proof.
  apply (rspro_wire_roundtrip 6 example_tpdu example_tpdu_octets); [lia| |vm_compute; reflexivity].
  vm_compute. repeat (discriminate || constructor).
Defined.

Lemma rspro_received_typed_witness :
  rspro_dec_msg_der 6 example_tpdu_octets = Done (Some (canonical_pdu example_tpdu)) ∧
  pdu_in_range (canonical_pdu example_tpdu).
Proof.
  assert (rspro_dec_msg_der 6 example_tpdu_octets = Done (Some (canonical_pdu example_tpdu))) as E
    by (vm_compute; reflexivity).
  split; [exact E|].
  assert (Forall is_byte example_tpdu_octets) as Hb by (unfold example_tpdu_octets, is_byte; repeat constructor; lia).
  pose proof (rspro_received_typed 6 example_tpdu_octets Hb) as H. rewrite E in H. exact H.
Defined.

(** Programs are not unfolded down to the octets unless they are run. *)
#[global] Opaque rspro_enc_msg_der rspro_dec_msg_der.
