(* ===== verification/RsproUtil.v ===== *)
(** * RSPRO utility functions ([src/rspro_util.c], [src/asn1c_helpers.c])

    Conversion of component identities and slots between their internal and
    their RSPRO form, and one generator per PDU.  Exhausted memory ([CALLOC]
    returning NULL) is not modelled: a generator always yields its PDU.  Encoding
    and decoding are in [RsproDer]. *)

From S2P Require Import Prelude Slotmap RsproPdu RsproDer.

(** ** Names of choices and enumerators ([asn1c_helpers.c]) *)

(** [asn_choice_name] on [RsproPDUchoice]; [Undef] is an access before the
    start of the array. *)
Definition asn_choice_name (present : Z) : outcome string :=
  if (present <? 0) || (Z.of_nat (length asn_MBR_RsproPDUchoice_1) <=? present)
  then Done "<invalid>"
  else if present =? 0 then Undef
  else match asn_MBR_RsproPDUchoice_1 !! Z.to_nat (present - 1) with
       | Some n => Done n
       | None => Undef
       end.

Definition rspro_msgt_name (pdu : RsproPDU) : outcome string :=
  asn_choice_name (RsproPDUchoice_PR (msg pdu)).

Definition asn_enum_name (map : list (Z * string)) (data : Z) : string :=
  if (data <? 0) || (Z.of_nat (length map) <=? data) then "<invalid>"
  else match map !! Z.to_nat data with Some (_, n) => n | None => "<invalid>" end.

(** ** Component identities *)

Definition MAX_NAME_LEN : nat := 32.

(** [struct app_comp_id]: the strings are arrays of [MAX_NAME_LEN + 1] bytes. *)
Record app_comp_id := AppCompId {
  ac_type : Z;
  ac_name : octets;
  ac_software : octets;
  ac_sw_version : octets;
  ac_hw_manufacturer : octets;
  ac_hw_model : octets;
  ac_hw_serial_nr : octets;
  ac_hw_version : octets;
  ac_fw_version : octets;
}.

(** The string in an array: the bytes before the first NUL. *)
Fixpoint c_str (a : octets) : octets :=
  match a with
  | [] => []
  | b :: a => if b =? 0 then [] else b :: c_str a
  end.

(** An array that holds a NUL, so that reading the string stays inside it. *)
Definition terminated (a : octets) : bool := existsb (Z.eqb 0) a.

Definition strlen (a : octets) : nat := length (c_str a).

(** [if (strlen(s)) p = OCTET_STRING_new_fromBuf(.., s, -1);] *)
Definition opt_str (a : octets) : option octets :=
  if (strlen a =? 0)%nat then None else Some (c_str a).

Definition fill_comp_id (i : app_comp_id) : ComponentIdentity_t :=
  {| ci_type := ac_type i;
     ci_name := c_str (ac_name i);
     ci_software := c_str (ac_software i);
     ci_swVersion := c_str (ac_sw_version i);
     ci_hwManufacturer := opt_str (ac_hw_manufacturer i);
     ci_hwModel := opt_str (ac_hw_model i);
     ci_hwSerialNr := opt_str (ac_hw_serial_nr i);
     ci_hwVersion := opt_str (ac_hw_version i);
     ci_fwVersion := opt_str (ac_fw_version i) |}.

(** The array [out] after the call. *)
Definition string_fromOCTET_STRING (out : octets) (i : option octets) : octets :=
  match i with
  | None => <[0%nat := 0]> out
  | Some b =>
      let n := if (length out <? length b)%nat then length out else length b in
      let out' := take n b ++ drop n out in
      if (length b <? length out)%nat then <[length b := 0]> out'
      else <[(length out - 1)%nat := 0]> out'
  end.

Definition zeros : octets := replicate (MAX_NAME_LEN + 1) 0.

(** [osmo_strlcpy] of a C string into a zeroed array of [MAX_NAME_LEN + 1]. *)
Definition strlcpy_array (s : octets) : octets :=
  let t := take MAX_NAME_LEN (c_str s) in
  t ++ replicate (MAX_NAME_LEN + 1 - length t) 0.

Definition rspro_comp_id_retrieve (i : ComponentIdentity_t) : app_comp_id :=
  {| ac_type := u32 (ci_type i);
     ac_name := string_fromOCTET_STRING zeros (Some (ci_name i));
     ac_software := string_fromOCTET_STRING zeros (Some (ci_software i));
     ac_sw_version := string_fromOCTET_STRING zeros (Some (ci_swVersion i));
     ac_hw_manufacturer := string_fromOCTET_STRING zeros (ci_hwManufacturer i);
     ac_hw_model := zeros;
     ac_hw_serial_nr := string_fromOCTET_STRING zeros (ci_hwSerialNr i);
     ac_hw_version := string_fromOCTET_STRING zeros (ci_hwVersion i);
     ac_fw_version := string_fromOCTET_STRING zeros (ci_fwVersion i) |}.

(** An identity whose type is one of the enumeration's unsigned integers and
    whose arrays have their declared size and hold a string. *)
Definition name_ok (a : octets) : bool :=
  (length a =? MAX_NAME_LEN + 1)%nat && terminated a.

Definition comp_id_ok (i : app_comp_id) : bool :=
  (0 <=? ac_type i) && (ac_type i <? 2 ^ 32) &&
  name_ok (ac_name i) && name_ok (ac_software i) && name_ok (ac_sw_version i) &&
  name_ok (ac_hw_manufacturer i) && name_ok (ac_hw_model i) &&
  name_ok (ac_hw_serial_nr i) && name_ok (ac_hw_version i) && name_ok (ac_fw_version i).

(** ** Addresses *)

(** The bytes of [htonl(ip)] in memory. *)
Definition htonl_bytes (a : Z) : octets :=
  [Z.land (Z.shiftr a 24) 255; Z.land (Z.shiftr a 16) 255;
   Z.land (Z.shiftr a 8) 255; Z.land a 255].

Definition fill_ip4_port (a p : Z) : IpPort_t :=
  {| ip := IpAddress_PR_ipv4 (htonl_bytes (u32 a)); port := u16 p |}.

(** POSIX [inet_ntop]: dotted decimal for the four bytes of an IPv4 address; the
    format of IPv6 addresses is left to the C library. *)
Class InetNtop := { inet_ntop6 : octets → string }.
#[global] Instance inet_ntop_ref : InetNtop := { inet_ntop6 _ := "::" }.

Definition inet_ntop4 (b : octets) : option string :=
  match b with
  | b0 :: b1 :: b2 :: b3 :: _ =>
      Some (pretty b0 +:+ "." +:+ pretty b1 +:+ "." +:+ pretty b2 +:+ "." +:+ pretty b3)
  | _ => None
  end.

(** [inet_ntop] reads 4 or 16 bytes, whatever the length of the octet string. *)
Definition rspro_IpAddr2str `{InetNtop} (i : IpAddress_t) : outcome (option string) :=
  match i with
  | IpAddress_PR_ipv4 b => match inet_ntop4 b with Some s => Done (Some s) | None => Undef end
  | IpAddress_PR_ipv6 b =>
      if (length b <? 16)%nat then Undef else Done (Some (inet_ntop6 (take 16 b)))
  | IpAddress_PR_NOTHING => Done None
  end.

(** ** Slots *)

Definition rspro2bank_slot (i : BankSlot_t) : bank_slot :=
  BankSlot (u16 (bankId i)) (u16 (bk_slotNr i)).

Definition bank_slot2rspro (i : bank_slot) : BankSlot_t :=
  MkBankSlot (bank_id i) (bslot_nr i).

Definition rspro2client_slot (i : ClientSlot_t) : client_slot :=
  ClientSlot (u16 (clientId i)) (u16 (cl_slotNr i)).

Definition client_slot2rspro (i : client_slot) : ClientSlot_t :=
  MkClientSlot (client_id i) (cslot_nr i).

(** ** Generators *)

Definition pdu_v2 (m : RsproPDUchoice) : RsproPDU := MkRsproPDU 2 0 m.

Definition rspro_gen_ConnectBankReq (a_cid : app_comp_id) (bank_id num_slots : Z) : RsproPDU :=
  pdu_v2 (PR_connectBankReq (fill_comp_id a_cid) (u16 bank_id) (u16 num_slots)).

Definition rspro_gen_ConnectBankRes (a_cid : app_comp_id) (res : Z) : RsproPDU :=
  pdu_v2 (PR_connectBankRes (fill_comp_id a_cid) res).

Definition rspro_gen_ConnectClientReq (a_cid : app_comp_id) (client : option ClientSlot_t) : RsproPDU :=
  pdu_v2 (PR_connectClientReq (fill_comp_id a_cid) client).

Definition rspro_gen_ConnectClientRes (a_cid : app_comp_id) (res : Z) : RsproPDU :=
  MkRsproPDU 2 2342 (PR_connectClientRes (fill_comp_id a_cid) res).

Definition rspro_gen_CreateMappingReq (client : ClientSlot_t) (bank : BankSlot_t) : RsproPDU :=
  pdu_v2 (PR_createMappingReq client bank).

Definition rspro_gen_CreateMappingRes (res : Z) : RsproPDU := pdu_v2 (PR_createMappingRes res).

Definition rspro_gen_RemoveMappingReq (client : ClientSlot_t) (bank : BankSlot_t) : RsproPDU :=
  pdu_v2 (PR_removeMappingReq client bank).

Definition rspro_gen_RemoveMappingRes (res : Z) : RsproPDU := pdu_v2 (PR_removeMappingRes res).

Definition rspro_gen_ConfigClientIdReq (client : ClientSlot_t) : RsproPDU :=
  pdu_v2 (PR_configClientIdReq client).

Definition rspro_gen_ConfigClientIdRes (res : Z) : RsproPDU := pdu_v2 (PR_configClientIdRes res).

Definition rspro_gen_ConfigClientBankReq (bank : BankSlot_t) (a p : Z) : RsproPDU :=
  pdu_v2 (PR_configClientBankReq bank (fill_ip4_port a p)).

Definition rspro_gen_ConfigClientBankRes (res : Z) : RsproPDU :=
  pdu_v2 (PR_configClientBankRes res).

Definition rspro_gen_SetAtrReq (client_id slot_nr : Z) (atr : octets) : RsproPDU :=
  pdu_v2 (PR_setAtrReq (MkClientSlot (u16 client_id) (u16 slot_nr)) atr).

Definition rspro_gen_SetAtrRes (res : Z) : RsproPDU := pdu_v2 (PR_setAtrRes res).

(** The flags are left zero by [CALLOC]. *)
Definition rspro_gen_TpduModem2Card (client : ClientSlot_t) (bank : BankSlot_t)
    (tpdu : octets) : RsproPDU :=
  pdu_v2 (PR_tpduModemToCard client bank (TpduFlags 0 0 0 0) tpdu).

Definition rspro_gen_TpduCard2Modem (bank : BankSlot_t) (client : ClientSlot_t)
    (tpdu : octets) : RsproPDU :=
  pdu_v2 (PR_tpduCardToModem bank client (TpduFlags 0 0 0 0) tpdu).

(** A negative argument means "not known" and leaves the member absent. *)
Definition opt_flag (v : Z) : option Z := if 0 <=? v then Some v else None.

Definition phys_status (rst_active : bool) (vcc clk card : Z) : SlotPhysStatus_t :=
  {| resetActive := if rst_active then 1 else 0;
     vccPresent := opt_flag vcc; clkActive := opt_flag clk; cardPresent := opt_flag card |}.

Definition rspro_gen_BankSlotStatusInd (bank : BankSlot_t) (client : ClientSlot_t)
    (rst_active : bool) (vcc clk card : Z) : RsproPDU :=
  pdu_v2 (PR_bankSlotStatusInd bank client (phys_status rst_active vcc clk card)).

Definition rspro_gen_ClientSlotStatusInd (client : ClientSlot_t) (bank : BankSlot_t)
    (rst_active : bool) (vcc clk card : Z) : RsproPDU :=
  pdu_v2 (PR_clientSlotStatusInd client bank (phys_status rst_active vcc clk card)).

Definition rspro_gen_ResetStateReq : RsproPDU := pdu_v2 PR_resetStateReq.

Definition rspro_gen_ResetStateRes (res : Z) : RsproPDU := pdu_v2 (PR_resetStateRes res).

Definition rspro_get_result (pdu : RsproPDU) : outcome Z :=
  match msg pdu with
  | PR_connectBankRes _ r | PR_connectClientRes _ r | PR_createMappingRes r
  | PR_removeMappingRes r | PR_configClientIdRes r | PR_configClientBankRes r
  | PR_setAtrRes r | PR_resetStateRes r => Done r
  | _ => Panic
  end.

(** ** Strings in arrays *)

Definition no_nul (b : octets) : Prop := Forall (λ x, x ≠ 0) b.

Lemma c_str_no_nul a : no_nul (c_str a).
Proof.
  induction a as [|x a IH]; cbn; [by apply Forall_nil|].
  destruct (Z.eqb_spec x 0); [by apply Forall_nil|]. by apply Forall_cons.
Qed.

Lemma c_str_terminated a : terminated a = true → (length (c_str a) < length a)%nat.
Proof.
  unfold terminated. induction a as [|x a IH]; cbn [existsb c_str length]; [done|].
  destruct (Z.eqb_spec x 0) as [->|Hx]; cbn [length]; [lia|].
  rewrite (proj2 (Z.eqb_neq 0 x)) by done. cbn [orb]. intros ?%IH. lia.
Qed.

Lemma c_str_app b r : no_nul b → c_str (b ++ 0 :: r) = b.
Proof.
  induction 1 as [|x b Hx _ IH]; cbn; [done|].
  rewrite (proj2 (Z.eqb_neq x 0)) by done. by rewrite IH.
Qed.

Lemma c_str_replicate_0 n : c_str (replicate n 0) = [].
Proof. by destruct n. Qed.

Lemma terminated_app b r : terminated (b ++ 0 :: r) = true.
Proof. unfold terminated. rewrite existsb_app. cbn. by rewrite orb_true_r. Qed.

Lemma length_string_from out i :
  length (string_fromOCTET_STRING out i) = length out.
Proof.
  destruct i as [b|]; unfold string_fromOCTET_STRING; [|by rewrite length_insert].
  destruct (Nat.ltb_spec (length out) (length b)), (Nat.ltb_spec (length b) (length out));
    rewrite length_insert, length_app, length_take, length_drop; lia.
Qed.

(** A string shorter than the array is stored with its terminator. *)
Lemma string_from_short out b :
  (length b < length out)%nat →
  string_fromOCTET_STRING out (Some b) = b ++ 0 :: drop (length b + 1)%nat out.
Proof.
  intros H. unfold string_fromOCTET_STRING. rewrite (proj2 (Nat.ltb_lt _ _) H).
  rewrite (proj2 (Nat.ltb_ge (length out) (length b))) by lia.
  rewrite firstn_all. destruct (drop (length b) out) as [|x t] eqn:E.
  { apply (f_equal length) in E. rewrite length_drop in E. cbn in E. lia. }
  rewrite insert_at_length by done. do 2 f_equal.
  replace (drop (length b + 1) out) with (drop 1 (drop (length b) out))
    by (rewrite drop_drop; f_equal; lia). by rewrite E.
Qed.

(** A longer one is cut to fit. *)
Lemma string_from_long out b :
  (0 < length out ≤ length b)%nat →
  string_fromOCTET_STRING out (Some b) = take (length out - 1) b ++ [0].
Proof.
  intros H. unfold string_fromOCTET_STRING. rewrite (proj2 (Nat.ltb_ge (length b) (length out))) by lia.
  replace (if (length out <? length b)%nat then length out else length b) with (length out).
  2:{ destruct (Nat.ltb_spec (length out) (length b)); lia. }
  rewrite drop_all, app_nil_r.
  replace (length out) with (length out - 1 + 1)%nat at 2 by lia.
  rewrite <-take_take_drop.
  destruct (drop (length out - 1) b) as [|x t] eqn:E.
  { apply (f_equal length) in E. rewrite length_drop in E. cbn in E. lia. }
  cbn [take]. apply insert_at_length. rewrite length_take. lia.
Qed.

Lemma string_from_name_ok i : name_ok (string_fromOCTET_STRING zeros i) = true.
Proof.
  unfold name_ok. rewrite length_string_from. cbn [andb].
  replace (length zeros =? MAX_NAME_LEN + 1)%nat with true by done. cbn [andb].
  destruct i as [b|]; [|done].
  destruct (decide (length b < length zeros)%nat) as [H|H].
  - rewrite string_from_short by done. apply terminated_app.
  - rewrite string_from_long by (split; [cbn; lia|lia]). apply terminated_app.
Qed.

Lemma string_from_c_str a :
  name_ok a = true → c_str (string_fromOCTET_STRING zeros (Some (c_str a))) = c_str a.
Proof.
  unfold name_ok. rewrite andb_true_iff, Nat.eqb_eq. intros [Hlen Ht%c_str_terminated].
  rewrite string_from_short, c_str_app; [done|apply c_str_no_nul|].
  change (length zeros) with (MAX_NAME_LEN + 1)%nat. lia.
Qed.

Lemma string_from_opt_str a :
  name_ok a = true → c_str (string_fromOCTET_STRING zeros (opt_str a)) = c_str a.
Proof.
  intros Ha. unfold opt_str, strlen. destruct (Nat.eqb_spec (length (c_str a)) 0) as [E|E].
  - by apply nil_length_inv in E as ->.
  - by apply string_from_c_str.
Qed.

Lemma comp_id_ok_fields i :
  comp_id_ok i = true →
  0 ≤ ac_type i < 2 ^ 32 ∧ name_ok (ac_name i) = true ∧ name_ok (ac_software i) = true ∧
  name_ok (ac_sw_version i) = true ∧ name_ok (ac_hw_manufacturer i) = true ∧
  name_ok (ac_hw_model i) = true ∧ name_ok (ac_hw_serial_nr i) = true ∧
  name_ok (ac_hw_version i) = true ∧ name_ok (ac_fw_version i) = true.
Proof. unfold comp_id_ok. rewrite !andb_true_iff, Z.leb_le, Z.ltb_lt. tauto. Qed.

(** The identity as the strings it denotes. *)
Definition comp_id_strings (i : app_comp_id) : Z * list octets :=
  (ac_type i, c_str <$> [ac_name i; ac_software i; ac_sw_version i; ac_hw_manufacturer i;
                         ac_hw_serial_nr i; ac_hw_version i; ac_fw_version i]).

Lemma u16_small z : 0 ≤ z < 65536 → u16 z = z.
Proof. intros. by apply wrap_small. Qed.

(** ** Slot identities on the wire *)

Lemma rspro2bank_slot_u16 i : bank_slot_u16 (rspro2bank_slot i).
Proof. split; cbn; apply (wrap_range 16); lia. Qed.

Lemma rspro2client_slot_u16 i : client_slot_u16 (rspro2client_slot i).
Proof. split; cbn; apply (wrap_range 16); lia. Qed.

Lemma bank_slot_rspro_roundtrip b :
  bank_slot_u16 b → rspro2bank_slot (bank_slot2rspro b) = b.
Proof. destruct b. intros [? ?]. unfold rspro2bank_slot; cbn in *. by rewrite !u16_small. Qed.

Lemma client_slot_rspro_roundtrip c :
  client_slot_u16 c → rspro2client_slot (client_slot2rspro c) = c.
Proof. destruct c. intros [? ?]. unfold rspro2client_slot; cbn in *. by rewrite !u16_small. Qed.

#[export] Hint Resolve rspro2bank_slot_u16 rspro2client_slot_u16 string_from_name_ok : remsim.
#[export] Hint Rewrite bank_slot_rspro_roundtrip client_slot_rspro_roundtrip
  using done : remsim_rw.

(** ** Properties *)

(** A component identity survives its conversion to RSPRO and back, up to
    the NUL padding of the arrays, except for the hardware model, which is
    always empty afterwards; and whatever identity a peer sends, every array
    of the retrieved one keeps its size and holds a terminated string. *)
Theorem comp_id_roundtrip i (Hi : comp_id_ok i = true) :
  comp_id_strings (rspro_comp_id_retrieve (fill_comp_id i)) = comp_id_strings i ∧
  c_str (ac_hw_model (rspro_comp_id_retrieve (fill_comp_id i))) = [] ∧
  ∀ peer, comp_id_ok (rspro_comp_id_retrieve peer) = true.
Proof.
  apply comp_id_ok_fields in Hi as (?&?&?&?&?&?&?&?&?). split; [|split; [done|]].
  - unfold comp_id_strings; cbn [fmap list_fmap rspro_comp_id_retrieve fill_comp_id
      ac_type ac_name ac_software ac_sw_version ac_hw_manufacturer ac_hw_serial_nr
      ac_hw_version ac_fw_version ci_type ci_name ci_software ci_swVersion
      ci_hwManufacturer ci_hwSerialNr ci_hwVersion ci_fwVersion].
    by rewrite (wrap_small 32), !string_from_c_str, !string_from_opt_str.
  - intros peer. unfold comp_id_ok; cbn [rspro_comp_id_retrieve ac_type ac_name ac_software
      ac_sw_version ac_hw_manufacturer ac_hw_model ac_hw_serial_nr ac_hw_version ac_fw_version].
    rewrite !string_from_name_ok.
    pose proof (wrap_range 32 (ci_type peer) ltac:(lia)).
    by rewrite (proj2 (Z.leb_le _ _)), (proj2 (Z.ltb_lt _ _)) by lia.
Qed.

(** An identity such as a bankd has: "b", hardware model "m". *)
Definition example_comp_id : app_comp_id :=
  let s c := c :: replicate MAX_NAME_LEN 0 in
  AppCompId ComponentType_remsimBankd (s 98) (s 98) (s 49) zeros (s 109) zeros zeros zeros.

Lemma comp_id_roundtrip_witness :
  let i := example_comp_id in
  c_str (ac_hw_model i) = [109] ∧
  comp_id_strings (rspro_comp_id_retrieve (fill_comp_id i)) = comp_id_strings i ∧
  c_str (ac_hw_model (rspro_comp_id_retrieve (fill_comp_id i))) = [] ∧
  ∀ peer, comp_id_ok (rspro_comp_id_retrieve peer) = true.
Proof. intros i. split; [reflexivity|]. apply (comp_id_roundtrip i). reflexivity. Defined.

(** A TPDU of octets between slots of 16 bits is within the types of C. *)
Lemma TpduModem2Card_in_range c b a :
  client_slot_u16 c → bank_slot_u16 b → Forall is_byte a → Z.of_nat (length a) < 2 ^ 30 →
  pdu_in_range (rspro_gen_TpduModem2Card (client_slot2rspro c) (bank_slot2rspro b) a).
Proof. destruct c, b. intros [? ?] [? ?] ? ?. cbn in *. solve_in_range. Qed.

(** Slots survive the transfer: a 16-bit slot converted to RSPRO, encoded
    and decoded, and converted back is the same slot, and any slot that is
    received is a pair of 16-bit numbers. *)
Theorem slots_roundtrip `{RsproRoundtrip} c b a p octs
    (Hc : client_slot_u16 c) (Hb : bank_slot_u16 b) (Ha : Forall is_byte a) (Hl : Z.of_nat (length a) < 2 ^ 30)
    (Henc : rspro_enc_msg (rspro_gen_TpduModem2Card (client_slot2rspro c)
                             (bank_slot2rspro b) a) = Some octs) :
  match rspro_dec_msg octs with
  | Some (MkRsproPDU 2 0 (PR_tpduModemToCard c' b' _ a')) =>
      rspro2client_slot c' = c ∧ rspro2bank_slot b' = b ∧ a' = a
  | _ => False
  end ∧ client_slot_u16 (rspro2client_slot p).
Proof.
  rewrite (rspro_dec_enc _ _ (TpduModem2Card_in_range _ _ _ Hc Hb Ha Hl) Henc). split; [|auto with remsim].
  cbn [rspro_gen_TpduModem2Card pdu_v2 canonical_pdu canonical_msg version tag msg].
  by rewrite bank_slot_rspro_roundtrip, client_slot_rspro_roundtrip.
Qed.

(** The name the log gives to a PDU is the name of its alternative for
    every alternative except the last one, which it calls "<invalid>"; for a
    PDU without an alternative the lookup reads before the table. *)
Theorem rspro_msgt_name_spec pdu :
  match RsproPDUchoice_PR (msg pdu) with
  | 0 => rspro_msgt_name pdu = Undef
  | 21 => rspro_msgt_name pdu = Done "<invalid>"
  | n => ∃ s, asn_MBR_RsproPDUchoice_1 !! Z.to_nat (n - 1) = Some s ∧
              rspro_msgt_name pdu = Done s
  end.
Proof. destruct pdu as [v t []]; cbn; try reflexivity; eexists; split; reflexivity. Qed.
