(* ===== verification/Ipa.v ===== *)
(** * Messages of the IPA multiplex

    Every connection of the system runs the IPA protocol of libosmocore and
    libosmo-netif: frames with a protocol number, which carry either the
    connection management ([IPAC_PROTO_IPACCESS]) or, under an extension
    number, RSPRO.  This file has what the programs share of it: the
    constants, a received frame and what is handed to a socket. *)

From S2P Require Import Prelude RsproPdu.

Definition IPAC_PROTO_IPACCESS : Z := 254.
Definition IPAC_PROTO_OSMO : Z := 238.
Definition IPAC_PROTO_EXT_RSPRO : Z := 7.
Definition IPAC_MSGT_PING : Z := 0.
Definition IPAC_MSGT_PONG : Z := 1.
Definition IPAC_MSGT_ID_GET : Z := 4.
Definition IPAC_MSGT_ID_RESP : Z := 5.
Definition IPAC_MSGT_ID_ACK : Z := 6.
Definition IPAC_IDTAG_UNIT : Z := 8.
Definition EIO : Z := 5.
Definition EBADF : Z := 9.
Definition EINVAL : Z := 22.

(** A message as the segmentation call-back of the IPA library delivers it. *)
Record ipa_msg := IpaMsg { ipa_proto : Z; ipa_proto_ext : Z; l2_data : octets }.

(** What was handed to a socket: an RSPRO message (which the code wraps in the
    IPA headers for [IPAC_PROTO_EXT_RSPRO]) or a message of the IPA connection
    management; the identity response is the one the library built. *)
Inductive tx_msg :=
| TxRspro (b : octets)
| TxPong
| TxIdAck
| TxIdResp (b : octets).
