(* ===== verification/RsproServer.v ===== *)
(** * The RSPRO side of the server ([src/server/rspro_server.c])

    The connections of the server, their state machine [SERVER_CONN], the
    reception of messages and the call-backs of the sockets.

    The state [rspro_server] holds what the main thread works on: the allocated
    connections by address, the three lists of connections, the slot maps, and
    the messages sent so far to each peer.  [conn->fi] is [conn_fi], whose
    [None] is the NULL pointer; an instance is reachable through its connection
    only.  [peer_data] is the user data of the live peer sockets
    ([osmo_stream_srv_get_data]).  The actions of one connection's state machine
    dispatch events to others, so the machine is tied by a nesting budget; the
    theorems show that [FSM_DEPTH] levels are never exhausted.  Logging and
    the read/write lock are not part of the state. *)

From S2P Require Import Prelude OsmoFsm Slotmap RsproPdu RsproUtil Ipa.

(** ** States and events of a connection *)

Inductive remsim_server_client_fsm_state :=
| CLNTC_ST_INIT
| CLNTC_ST_ESTABLISHED
| CLNTC_ST_WAIT_CONF_RES
| CLNTC_ST_CONNECTED_BANKD
| CLNTC_ST_CONNECTED_CLIENT
| CLNTC_ST_REJECTED.

Inductive remsim_server_client_event :=
| CLNTC_E_TCP_UP
| CLNTC_E_CLIENT_CONN
| CLNTC_E_BANK_CONN
| CLNTC_E_TCP_DOWN
| CLNTC_E_KA_TIMEOUT
| CLNTC_E_CREATE_MAP_RES
| CLNTC_E_REMOVE_MAP_RES
| CLNTC_E_CONFIG_CL_RES
| CLNTC_E_PUSH
| CLNTC_E_CL_CFG_BANKD.

#[global] Instance clntc_st_eq_dec : EqDecision remsim_server_client_fsm_state.
Proof. solve_decision. Defined.

#[global] Instance clntc_st_enum : Enum remsim_server_client_fsm_state := λ st,
  match st with
  | CLNTC_ST_INIT => 0
  | CLNTC_ST_ESTABLISHED => 1
  | CLNTC_ST_WAIT_CONF_RES => 2
  | CLNTC_ST_CONNECTED_BANKD => 3
  | CLNTC_ST_CONNECTED_CLIENT => 4
  | CLNTC_ST_REJECTED => 5
  end.

#[global] Instance clntc_e_enum : Enum remsim_server_client_event := λ ev,
  match ev with
  | CLNTC_E_TCP_UP => 0
  | CLNTC_E_CLIENT_CONN => 1
  | CLNTC_E_BANK_CONN => 2
  | CLNTC_E_TCP_DOWN => 3
  | CLNTC_E_KA_TIMEOUT => 4
  | CLNTC_E_CREATE_MAP_RES => 5
  | CLNTC_E_REMOVE_MAP_RES => 6
  | CLNTC_E_CONFIG_CL_RES => 7
  | CLNTC_E_PUSH => 8
  | CLNTC_E_CL_CFG_BANKD => 9
  end.

(** The [.name] of the states. *)
Definition clntc_state_name (st : remsim_server_client_fsm_state) : string :=
  match st with
  | CLNTC_ST_INIT => "INIT"
  | CLNTC_ST_ESTABLISHED => "ESTABLISHED"
  | CLNTC_ST_WAIT_CONF_RES => "WAIT_CONFIG_RES"
  | CLNTC_ST_CONNECTED_BANKD => "CONNECTED_BANKD"
  | CLNTC_ST_CONNECTED_CLIENT => "CONNECTED_CLIENT"
  | CLNTC_ST_REJECTED => "REJECTED"
  end.

(** ** The state *)

(** [struct rspro_client_conn] without its list heads; [conn_id] is the name
    [fi->id] given to the instance. *)
Record rspro_client_conn := RsproClientConn {
  conn_peer : option loc;
  conn_fi : option (fsm_inst remsim_server_client_fsm_state);
  conn_ka_fi : bool;
  conn_comp_id : app_comp_id;
  conn_bank_id : Z;
  conn_num_slots : Z;
  conn_client_slot : client_slot;
  conn_bankd_slot : bank_slot;
  conn_bankd_ip : Z;
  conn_bankd_port : Z;
  conn_id : option string;
}.

Definition set_conn_peer (p : option loc) (c : rspro_client_conn) : rspro_client_conn :=
  RsproClientConn p (conn_fi c) (conn_ka_fi c) (conn_comp_id c) (conn_bank_id c)
    (conn_num_slots c) (conn_client_slot c) (conn_bankd_slot c) (conn_bankd_ip c) (conn_bankd_port c)
    (conn_id c).
Definition set_conn_fi (fi : option (fsm_inst remsim_server_client_fsm_state))
    (c : rspro_client_conn) : rspro_client_conn :=
  RsproClientConn (conn_peer c) fi (conn_ka_fi c) (conn_comp_id c) (conn_bank_id c)
    (conn_num_slots c) (conn_client_slot c) (conn_bankd_slot c) (conn_bankd_ip c) (conn_bankd_port c)
    (conn_id c).
Definition set_conn_ka_fi (k : bool) (c : rspro_client_conn) : rspro_client_conn :=
  RsproClientConn (conn_peer c) (conn_fi c) k (conn_comp_id c) (conn_bank_id c)
    (conn_num_slots c) (conn_client_slot c) (conn_bankd_slot c) (conn_bankd_ip c) (conn_bankd_port c)
    (conn_id c).
Definition set_conn_comp_id (i : app_comp_id) (c : rspro_client_conn) : rspro_client_conn :=
  RsproClientConn (conn_peer c) (conn_fi c) (conn_ka_fi c) i (conn_bank_id c)
    (conn_num_slots c) (conn_client_slot c) (conn_bankd_slot c) (conn_bankd_ip c) (conn_bankd_port c)
    (conn_id c).
Definition set_conn_bank (id n : Z) (c : rspro_client_conn) : rspro_client_conn :=
  RsproClientConn (conn_peer c) (conn_fi c) (conn_ka_fi c) (conn_comp_id c) id n
    (conn_client_slot c) (conn_bankd_slot c) (conn_bankd_ip c) (conn_bankd_port c)
    (conn_id c).
Definition set_conn_client_slot (cs : client_slot) (c : rspro_client_conn) : rspro_client_conn :=
  RsproClientConn (conn_peer c) (conn_fi c) (conn_ka_fi c) (conn_comp_id c) (conn_bank_id c)
    (conn_num_slots c) cs (conn_bankd_slot c) (conn_bankd_ip c) (conn_bankd_port c) (conn_id c).
Definition set_conn_bankd_slot (b : bank_slot) (c : rspro_client_conn) : rspro_client_conn :=
  RsproClientConn (conn_peer c) (conn_fi c) (conn_ka_fi c) (conn_comp_id c) (conn_bank_id c)
    (conn_num_slots c) (conn_client_slot c) b (conn_bankd_ip c) (conn_bankd_port c) (conn_id c).
Definition set_conn_bankd_addr (a p : Z) (c : rspro_client_conn) : rspro_client_conn :=
  RsproClientConn (conn_peer c) (conn_fi c) (conn_ka_fi c) (conn_comp_id c) (conn_bank_id c)
    (conn_num_slots c) (conn_client_slot c) (conn_bankd_slot c) a p (conn_id c).
Definition set_conn_id (i : option string) (c : rspro_client_conn) : rspro_client_conn :=
  RsproClientConn (conn_peer c) (conn_fi c) (conn_ka_fi c) (conn_comp_id c) (conn_bank_id c)
    (conn_num_slots c) (conn_client_slot c) (conn_bankd_slot c) (conn_bankd_ip c) (conn_bankd_port c) i.

Record rspro_server := RsproServer {
  comp_id : app_comp_id;
  conns : gmap loc rspro_client_conn;
  connections : list loc;
  clients : list loc;
  banks : list loc;
  srv_slotmaps : slotmaps;
  peer_data : gmap loc loc;
  sent : list (loc * tx_msg);
  eventfd : Z;
}.

Definition set_conns (cs : gmap loc rspro_client_conn) (s : rspro_server) : rspro_server :=
  RsproServer (comp_id s) cs (connections s) (clients s) (banks s) (srv_slotmaps s)
    (peer_data s) (sent s) (eventfd s).
Definition set_lists (k cl b : list loc) (s : rspro_server) : rspro_server :=
  RsproServer (comp_id s) (conns s) k cl b (srv_slotmaps s) (peer_data s) (sent s) (eventfd s).
Definition set_srv_slotmaps (m : slotmaps) (s : rspro_server) : rspro_server :=
  RsproServer (comp_id s) (conns s) (connections s) (clients s) (banks s) m
    (peer_data s) (sent s) (eventfd s).
Definition set_peer_data (d : gmap loc loc) (s : rspro_server) : rspro_server :=
  RsproServer (comp_id s) (conns s) (connections s) (clients s) (banks s) (srv_slotmaps s)
    d (sent s) (eventfd s).
Definition set_sent (t : list (loc * tx_msg)) (s : rspro_server) : rspro_server :=
  RsproServer (comp_id s) (conns s) (connections s) (clients s) (banks s) (srv_slotmaps s)
    (peer_data s) t (eventfd s).
Definition set_eventfd (n : Z) (s : rspro_server) : rspro_server :=
  RsproServer (comp_id s) (conns s) (connections s) (clients s) (banks s) (srv_slotmaps s)
    (peer_data s) (sent s) n.

(** ** Library functions without effect on the state *)

(** libosmocore, libosmo-netif and libosmoabis: the address of the remote end
    of a peer as a host-order integer, if [getpeername] succeeds (the composition
    of [osmo_sock_get_ip_and_port], [inet_addr] and [ntohl]); whether a message
    of the IPA connection management can be written, which may depend on all that
    was written before; and the parser of IPA identity responses. *)
Class IpaLib := {
  osmo_sock_get_ip : loc → option Z;
  ipa_ccm_send : loc → list (loc * tx_msg) → bool;
  ipa_ccm_id_resp_parse : octets → option (Z → option octets);
}.

#[global] Instance ipa_ref : IpaLib := {
  osmo_sock_get_ip p := Some (Z.pos p);
  ipa_ccm_send _ _ := true;
  ipa_ccm_id_resp_parse _ := None;
}.

(** ** Access to a connection *)

Definition conn_at (l : loc) : M rspro_server rspro_client_conn :=
  c ← gets (λ s, conns s !! l); deref c.

Definition conn_upd (l : loc) (f : rspro_client_conn → rspro_client_conn) : M rspro_server () :=
  conn_at l ;; modify (λ s, set_conns (alter f l (conns s)) s).

Definition on_slotmaps {A} (m : M slotmaps A) : M rspro_server A :=
  zoom srv_slotmaps set_srv_slotmaps m.

Definition conn_ref (l : loc) : fi_ref rspro_server remsim_server_client_fsm_state :=
  FiRef (λ s, conns s !! l ≫= conn_fi)
        (λ fi s, set_conns (alter (set_conn_fi (Some fi)) l (conns s)) s)
        (λ s, set_conns (alter (set_conn_fi None) l (conns s)) s).

(** The first connection of a list that satisfies [P] *)
Fixpoint find_conn (P : rspro_client_conn → bool) (k : list loc) : M rspro_server (option loc) :=
  match k with
  | [] => mret None
  | x :: k =>
      c ← conn_at x;
      if P c then mret (Some x) else find_conn P k
  end.

Definition _client_conn_by_slot (cslot : client_slot) : M rspro_server (option loc) :=
  k ← gets clients; find_conn (λ c, client_slot_equals (conn_client_slot c) cslot) k.

Definition client_conn_by_slot (cslot : client_slot) : M rspro_server (option loc) :=
  _client_conn_by_slot cslot.

Definition _bankd_conn_by_id (id : Z) : M rspro_server (option loc) :=
  k ← gets banks; find_conn (λ c, conn_bank_id c =? id) k.

Definition bankd_conn_by_id (id : Z) : M rspro_server (option loc) := _bankd_conn_by_id id.

(** Reads through the [osmo_stream_srv] pointer. *)
Definition osmo_stream_srv_get_fd (peer : option loc) : M rspro_server loc := deref peer.

Definition osmo_stream_srv_send (peer : option loc) (m : tx_msg) : M rspro_server () :=
  p ← deref peer; modify (λ s, set_sent (sent s ++ [(p, m)]) s).

Section server.
Context `{OsmoLib, Talloc, RsproCodec, IpaLib}.

Abbreviation Srv := (M rspro_server).
Abbreviation st := remsim_server_client_fsm_state.
Abbreviation ev := remsim_server_client_event.

(** The calls of the handlers into the FSM library, for the machine of a
    given connection. *)
Record fsm_calls := FsmCalls {
  fi_dispatch : loc → ev → option RsproPDU → Srv Z;
  fi_state_chg : loc → st → Z → Z → Srv Z;
  fi_term : loc → Srv ();
}.

(** ** Messages *)

Definition slotmap2CreateMappingReq (m : slot_mapping) : RsproPDU :=
  rspro_gen_CreateMappingReq (client_slot2rspro (sm_client m)) (bank_slot2rspro (sm_bank m)).

Definition slotmap2RemoveMappingReq (m : slot_mapping) : RsproPDU :=
  rspro_gen_RemoveMappingReq (client_slot2rspro (sm_client m)) (bank_slot2rspro (sm_bank m)).

Definition client_conn_send (l : loc) (pdu : RsproPDU) : Srv () :=
  c ← conn_at l;
  match rspro_enc_msg pdu with
  | None => mret ()
  | Some b => osmo_stream_srv_send (conn_peer c) (TxRspro b)
  end.

(** ** Actions and call-backs of the states *)

Section handlers.
Context (K : fsm_calls).

(** [osmo_fsm_inst_dispatch(conn->fi, ..)] *)
Definition conn_dispatch (l : loc) (e : ev) (d : option RsproPDU) : Srv Z :=
  conn_at l ;; fi_dispatch K l e d.

Definition clnt_st_init (l : loc) (event : ev) (data : option RsproPDU) : Srv () :=
  match event with
  | CLNTC_E_TCP_UP => fi_state_chg K l CLNTC_ST_ESTABLISHED 10 1 ;; mret ()
  | _ => panic
  end.

(** The pdu behind [data], when it is the alternative the event stands for. *)
Definition pdu_connectClientReq (d : option RsproPDU)
    : option (ComponentIdentity_t * option ClientSlot_t) :=
  match msg <$> d with Some (PR_connectClientReq i c) => Some (i, c) | _ => None end.
Definition pdu_connectBankReq (d : option RsproPDU) : option (ComponentIdentity_t * Z * Z) :=
  match msg <$> d with Some (PR_connectBankReq i b n) => Some (i, b, n) | _ => None end.

(** [llist_del(&conn->list)] followed by [llist_add_tail] *)
Definition reparent_client (l : loc) (s : rspro_server) : rspro_server :=
  set_lists (unlink l (connections s)) (unlink l (clients s) ++ [l]) (unlink l (banks s)) s.
Definition reparent_bank (l : loc) (s : rspro_server) : rspro_server :=
  set_lists (unlink l (connections s)) (unlink l (clients s)) (unlink l (banks s) ++ [l]) s.

(** ["C%u:%u"] *)
Definition client_conn_id (cs : client_slot) : string :=
  "C" +:+ pretty (client_id cs) +:+ ":" +:+ pretty (cslot_nr cs).

Definition established_client_conn (l : loc) (data : option RsproPDU) : Srv () :=
  '(ident, cslot) ← deref (pdu_connectClientReq data);
  let cid := rspro_comp_id_retrieve ident in
  conn_upd l (set_conn_comp_id cid) ;;
  if negb (ac_type cid =? ComponentType_remsimClient) then fi_term K l
  else
    match cslot with
    | None => fi_term K l
    | Some cs =>
        let slot := rspro2client_slot cs in
        conn_upd l (set_conn_client_slot slot) ;;
        conn_upd l (set_conn_id (Some (client_conn_id slot))) ;;
        previous_conn ← client_conn_by_slot slot;
        srv_id ← gets comp_id;
        match previous_conn with
        | Some p =>
            if decide (p = l) then
              modify (reparent_client l) ;;
              client_conn_send l (rspro_gen_ConnectClientRes srv_id ResultCode_ok) ;;
              fi_state_chg K l CLNTC_ST_CONNECTED_CLIENT 0 0 ;; mret ()
            else
              pc ← conn_at p;
              osmo_stream_srv_get_fd (conn_peer pc) ;;
              client_conn_send l (rspro_gen_ConnectClientRes srv_id ResultCode_identityInUse) ;;
              fi_state_chg K l CLNTC_ST_REJECTED 1 2 ;; mret ()
        | None =>
            modify (reparent_client l) ;;
            client_conn_send l (rspro_gen_ConnectClientRes srv_id ResultCode_ok) ;;
            fi_state_chg K l CLNTC_ST_CONNECTED_CLIENT 0 0 ;; mret ()
        end
    end.

Definition established_bank_conn (l : loc) (data : option RsproPDU) : Srv () :=
  '(ident, bid, nslots) ← deref (pdu_connectBankReq data);
  let cid := rspro_comp_id_retrieve ident in
  conn_upd l (set_conn_comp_id cid) ;;
  if negb (ac_type cid =? ComponentType_remsimBankd) then fi_term K l
  else
    conn_upd l (set_conn_bank (u16 bid) (u16 nslots)) ;;
    conn_upd l (set_conn_id (Some ("B" +:+ pretty (u16 bid)))) ;;
    previous_conn ← bankd_conn_by_id (u16 bid);
    srv_id ← gets comp_id;
    let accept :=
      modify (reparent_bank l) ;;
      client_conn_send l (rspro_gen_ConnectBankRes srv_id ResultCode_ok) ;;
      fi_state_chg K l CLNTC_ST_CONNECTED_BANKD 0 0 ;;
      fi_dispatch K l CLNTC_E_PUSH None ;; mret () in
    match previous_conn with
    | Some p =>
        if decide (p = l) then accept
        else
          pc ← conn_at p;
          osmo_stream_srv_get_fd (conn_peer pc) ;;
          client_conn_send l (rspro_gen_ConnectBankRes srv_id ResultCode_identityInUse) ;;
          fi_state_chg K l CLNTC_ST_REJECTED 1 2 ;; mret ()
    | None => accept
    end.

Definition clnt_st_established (l : loc) (event : ev) (data : option RsproPDU) : Srv () :=
  c ← conn_at l;
  osmo_stream_srv_get_fd (conn_peer c) ;;
  match event with
  | CLNTC_E_CLIENT_CONN => established_client_conn l data
  | CLNTC_E_BANK_CONN => established_bank_conn l data
  | _ => panic
  end.

Definition clnt_st_wait_cl_conf_res (l : loc) (event : ev) (data : option RsproPDU) : Srv () :=
  match event with
  | CLNTC_E_CONFIG_CL_RES => fi_state_chg K l CLNTC_ST_CONNECTED_CLIENT 0 0 ;; mret ()
  | _ => panic
  end.

(** The address of a bankd as [_update_client_for_slotmap] computes it: the
    port is fixed, a mapping being deleted or a bankd that is not connected
    yields address 0 and port 0; [None] is a failed [getpeername]. *)
Definition bankd_addr (m : slot_mapping) (bankd_conn : option loc) : Srv (option (Z * Z)) :=
  match bankd_conn with
  | Some b =>
      if decide (sm_state m = SLMAP_S_DELETING) then mret (Some (0, 0))
      else
        bc ← conn_at b;
        p ← osmo_stream_srv_get_fd (conn_peer bc);
        mret ((λ a, (u32 a, 9999)) <$> osmo_sock_get_ip p)
  | None => mret (Some (0, 0))
  end.

Definition _update_client_for_slotmap (map : loc) (bankd_conn : option loc) : Srv () :=
  m ← on_slotmaps (map_at map);
  conn ← client_conn_by_slot (sm_client m);
  match conn with
  | None => mret ()
  | Some cl =>
      c ← conn_at cl;
      let slot_changed := negb (bank_slot_equals (conn_bankd_slot c) (sm_bank m)) in
      when slot_changed (conn_upd cl (set_conn_bankd_slot (sm_bank m))) ;;
      bankd_conn ← match bankd_conn with
                   | Some b => mret (Some b)
                   | None => bankd_conn_by_id (bank_id (sm_bank m))
                   end;
      addr ← bankd_addr m bankd_conn;
      match addr with
      | None => mret ()
      | Some (bankd_ip, bankd_port) =>
          let addr_changed := negb (conn_bankd_port c =? bankd_port) ||
                              negb (conn_bankd_ip c =? bankd_ip) in
          when addr_changed (conn_upd cl (set_conn_bankd_addr bankd_ip bankd_port)) ;;
          when (slot_changed || addr_changed)
            (conn_dispatch cl CLNTC_E_CL_CFG_BANKD None ;; mret ())
      end
  end.

Definition clnt_st_connected_client_onenter (l : loc) (prev_state : st) : Srv () :=
  c ← conn_at l;
  map ← on_slotmaps (slotmap_by_client (conn_client_slot c));
  match map with
  | Some m => _update_client_for_slotmap m None
  | None => mret ()
  end.

Definition clnt_st_connected_bankd_onenter (l : loc) (prev_state : st) : Srv () :=
  c ← conn_at l;
  maps ← gets (λ s, mappings (srv_slotmaps s));
  for_each (λ map,
    m ← on_slotmaps (map_at map);
    when (bank_id (sm_bank m) =? conn_bank_id c)
      (on_slotmaps (_Slotmap_state_change map SLMAP_S_NEW (Some (l, maps_new))))) maps.

Definition clnt_st_connected_client (l : loc) (event : ev) (data : option RsproPDU) : Srv () :=
  match event with
  | CLNTC_E_CL_CFG_BANKD =>
      c ← conn_at l;
      client_conn_send l (rspro_gen_ConfigClientBankReq (bank_slot2rspro (conn_bankd_slot c))
                            (conn_bankd_ip c) (conn_bankd_port c))
  | _ => panic
  end.

(** [llist_first_entry] is not NULL for an empty list: it then points into the
    connection itself, and its use as a mapping is undefined. *)
Definition first_map (l : loc) (f : maps_field) : Srv loc :=
  conn_at l ;;
  k ← gets (λ s, bank_list (srv_slotmaps s) (l, f));
  deref (head k).

Definition connected_bankd_create_map_res (l : loc) : Srv () :=
  map ← first_map l maps_unack;
  on_slotmaps (_Slotmap_state_change map SLMAP_S_ACTIVE (Some (l, maps_active))) ;;
  _update_client_for_slotmap map (Some l).

Definition connected_bankd_remove_map_res (l : loc) : Srv () :=
  map ← first_map l maps_deleting;
  m ← on_slotmaps (map_at map);
  osmo_assert (bool_decide (sm_state m = SLMAP_S_DELETING)) ;;
  _update_client_for_slotmap map (Some l) ;;
  on_slotmaps (slotmap_del map).

(** One of the two loops of [CLNTC_E_PUSH]. *)
Definition push_list (l : loc) (from : maps_field) (gen : slot_mapping → RsproPDU)
    (new_state : slot_mapping_state) (to : maps_field) : Srv () :=
  k ← gets (λ s, bank_list (srv_slotmaps s) (l, from));
  for_each (λ map,
    m ← on_slotmaps (map_at map);
    client_conn_send l (gen m) ;;
    on_slotmaps (_Slotmap_state_change map new_state (Some (l, to)))) k.

Definition connected_bankd_push (l : loc) : Srv () :=
  conn_at l ;;
  push_list l maps_new slotmap2CreateMappingReq SLMAP_S_UNACKNOWLEDGED maps_unack ;;
  push_list l maps_delreq slotmap2RemoveMappingReq SLMAP_S_DELETING maps_deleting.

Definition clnt_st_connected_bankd (l : loc) (event : ev) (data : option RsproPDU) : Srv () :=
  match event with
  | CLNTC_E_CREATE_MAP_RES => connected_bankd_create_map_res l
  | CLNTC_E_REMOVE_MAP_RES => connected_bankd_remove_map_res l
  | CLNTC_E_PUSH => connected_bankd_push l
  | _ => panic
  end.

Definition clnt_allstate_action (l : loc) (event : ev) (data : option RsproPDU) : Srv () :=
  match event with
  | CLNTC_E_TCP_DOWN => fi_term K l
  | CLNTC_E_KA_TIMEOUT => fi_term K l
  | _ => panic
  end.

Definition server_client_fsm_timer_cb (T : Z) : Srv Z :=
  match T with
  | 1 => mret 1
  | 2 => mret 1
  | _ => panic
  end.

(** ** Teardown *)

Definition _unlink_all_slotmaps (l : loc) : Srv () :=
  let to_new f :=
    k ← gets (λ s, bank_list (srv_slotmaps s) (l, f));
    for_each (λ map, on_slotmaps (_Slotmap_state_change map SLMAP_S_NEW None)) k in
  let del f :=
    k ← gets (λ s, bank_list (srv_slotmaps s) (l, f));
    for_each (λ map, on_slotmaps (_slotmap_del map)) k in
  to_new maps_new ;; to_new maps_unack ;; to_new maps_active ;;
  del maps_delreq ;; del maps_deleting.

Definition sock_closed_cb (peer : loc) : Srv Z :=
  conn ← gets (λ s, peer_data s !! peer);
  match conn with
  | None => panic
  | Some l =>
      modify (λ s, set_peer_data (delete peer (peer_data s)) s) ;;
      c ← conn_at l;
      when (conn_ka_fi c) (conn_upd l (set_conn_ka_fi false)) ;;
      when (bool_decide (is_Some (conn_fi c)) && bool_decide (is_Some (conn_peer c)))
        (conn_upd l (set_conn_peer None) ;;
         conn_dispatch l CLNTC_E_TCP_DOWN None ;; mret ()) ;;
      mret 0
  end.

(** [llist_del(&conn->list)] and [talloc_free(conn)] *)
Definition free_conn (l : loc) (s : rspro_server) : rspro_server :=
  set_conns (delete l (conns s))
    (set_lists (unlink l (connections s)) (unlink l (clients s)) (unlink l (banks s)) s).

Definition rspro_client_conn_destroy (l : loc) : Srv () :=
  c ← conn_at l;
  match conn_peer c with
  | Some peer =>
      conn_upd l (set_conn_peer None) ;;
      osmo_stream_srv_destroy (sock_closed_cb peer)
  | None =>
      _unlink_all_slotmaps l ;;
      modify (free_conn l)
  end.

Definition server_client_cleanup (l : loc) : Srv () :=
  conn_upd l (set_conn_fi None) ;;
  rspro_client_conn_destroy l.

(** [server_client_fsm_states] *)
Definition server_client_fsm_states (l : loc) (s : st)
    : osmo_fsm_state rspro_server st ev (option RsproPDU) :=
  let nop := λ _ : st, mret () in
  match s with
  | CLNTC_ST_INIT =>
      FsmState (S_ CLNTC_E_TCP_UP) (S_ CLNTC_ST_ESTABLISHED) (clnt_st_init l) nop nop
  | CLNTC_ST_ESTABLISHED =>
      FsmState (Z.lor (S_ CLNTC_E_CLIENT_CONN) (S_ CLNTC_E_BANK_CONN))
        (Z.lor (S_ CLNTC_ST_CONNECTED_CLIENT) (Z.lor (S_ CLNTC_ST_WAIT_CONF_RES)
           (Z.lor (S_ CLNTC_ST_CONNECTED_BANKD) (S_ CLNTC_ST_REJECTED))))
        (clnt_st_established l) nop nop
  | CLNTC_ST_WAIT_CONF_RES =>
      FsmState (S_ CLNTC_E_CONFIG_CL_RES) (S_ CLNTC_ST_CONNECTED_CLIENT)
        (clnt_st_wait_cl_conf_res l) nop nop
  | CLNTC_ST_CONNECTED_CLIENT =>
      FsmState (S_ CLNTC_E_CL_CFG_BANKD) 0 (clnt_st_connected_client l)
        (clnt_st_connected_client_onenter l) nop
  | CLNTC_ST_CONNECTED_BANKD =>
      FsmState (Z.lor (S_ CLNTC_E_CREATE_MAP_RES) (Z.lor (S_ CLNTC_E_REMOVE_MAP_RES)
                  (S_ CLNTC_E_PUSH))) 0
        (clnt_st_connected_bankd l) (clnt_st_connected_bankd_onenter l) nop
  | CLNTC_ST_REJECTED => FsmState 0 0 (λ _ _, mret ()) nop nop
  end.

Definition build_fsm (l : loc) : osmo_fsm rspro_server st ev (option RsproPDU) :=
  Fsm (server_client_fsm_states l)
      (Z.lor (S_ CLNTC_E_TCP_DOWN) (S_ CLNTC_E_KA_TIMEOUT))
      (clnt_allstate_action l) (server_client_cleanup l) server_client_fsm_timer_cb.
End handlers.

(** A machine whose budget is exhausted. *)
Definition fsm_exhausted : osmo_fsm rspro_server st ev (option RsproPDU) :=
  Fsm (λ _, FsmState 0 (-1) (λ _ _, nofuel) (λ _, nofuel) (λ _, nofuel))
      (-1) (λ _ _, nofuel) nofuel (λ _, nofuel).

Definition calls_of (fsm : loc → osmo_fsm rspro_server st ev (option RsproPDU)) : fsm_calls :=
  FsmCalls (λ l, osmo_fsm_inst_dispatch (fsm l) (conn_ref l))
           (λ l, osmo_fsm_inst_state_chg (fsm l) (conn_ref l))
           (λ l, osmo_fsm_inst_term (fsm l) (conn_ref l)).

(** The machine of connection [l] with [n] levels of nested calls. *)
Fixpoint remsim_server_client_fsm (n : nat) (l : loc)
    : osmo_fsm rspro_server st ev (option RsproPDU) :=
  match n with
  | O => fsm_exhausted
  | S n => build_fsm (calls_of (remsim_server_client_fsm n)) l
  end.

Definition FSM_DEPTH : nat := 4.
Definition fsm_K : fsm_calls := calls_of (remsim_server_client_fsm FSM_DEPTH).
Definition dispatch (l : loc) (e : ev) (d : option RsproPDU) : Srv Z := conn_dispatch fsm_K l e d.

(** ** Reception *)

Definition handle_rx_rspro (l : loc) (pdu : RsproPDU) : Srv Z :=
  match msg pdu with
  | PR_connectClientReq _ _ => dispatch l CLNTC_E_CLIENT_CONN (Some pdu) ;; mret 0
  | PR_connectBankReq _ _ _ => dispatch l CLNTC_E_BANK_CONN (Some pdu) ;; mret 0
  | PR_createMappingRes _ => dispatch l CLNTC_E_CREATE_MAP_RES (Some pdu) ;; mret 0
  | PR_removeMappingRes _ => dispatch l CLNTC_E_REMOVE_MAP_RES (Some pdu) ;; mret 0
  | PR_configClientIdRes _ => dispatch l CLNTC_E_CONFIG_CL_RES (Some pdu) ;; mret 0
  | PR_configClientBankRes _ => mret 0
  | _ => mret (- 1)
  end.

Definition ccm_reply (l : loc) (m : tx_msg) : Srv Z :=
  c ← conn_at l;
  p ← osmo_stream_srv_get_fd (conn_peer c);
  t ← gets sent;
  if ipa_ccm_send p t then modify (λ s, set_sent (sent s ++ [(p, m)]) s) ;; mret 0
  else mret (- 1).

Definition _ipa_srv_conn_ccm (l : loc) (l2 : octets) : Srv Z :=
  match l2 with
  | [] => panic
  | msg_type :: body =>
      if msg_type =? IPAC_MSGT_PING then ccm_reply l TxPong
      else if msg_type =? IPAC_MSGT_PONG then mret 0
      else if msg_type =? IPAC_MSGT_ID_ACK then ccm_reply l TxIdAck
      else if msg_type =? IPAC_MSGT_ID_RESP then
        match ipa_ccm_id_resp_parse body with
        | None => mret (- 1)
        | Some tlvp =>
            match tlvp IPAC_IDTAG_UNIT with
            | None => mret (- 1)
            | Some unitid => mret (if (length unitid <? 1)%nat then - 1 else 0)
            end
        end
      else mret (- 1)
  end.

Definition sock_read_cb (peer : loc) (res : Z) (m : ipa_msg) : Srv Z :=
  conn ← gets (λ s, peer_data s !! peer);
  l ← deref conn;
  let err := osmo_stream_srv_destroy (sock_closed_cb fsm_K peer) ;; mret (- EBADF) in
  if res <=? 0 then err
  else if ipa_proto m =? IPAC_PROTO_IPACCESS then
    rc ← _ipa_srv_conn_ccm l (l2_data m);
    if rc <? 0 then err else mret rc
  else if ipa_proto m =? IPAC_PROTO_OSMO then
    if ipa_proto_ext m =? IPAC_PROTO_EXT_RSPRO then
      match rspro_dec_msg (l2_data m) with
      | None => mret (- EIO)
      | Some pdu => handle_rx_rspro l pdu
      end
    else err
  else err.

Definition ipa_keepalive_timeout_cb (peer : loc) : Srv Z :=
  conn ← gets (λ s, peer_data s !! peer);
  l ← deref conn;
  dispatch l CLNTC_E_KA_TIMEOUT None ;; mret 0.

Definition server_client_fsm_tmr (l : loc) : Srv () :=
  fsm_tmr_cb (remsim_server_client_fsm FSM_DEPTH l) (conn_ref l).

(** ** Acceptance *)

Definition zero_comp_id : app_comp_id :=
  AppCompId 0 zeros zeros zeros zeros zeros zeros zeros zeros.

(** The connection [accept_cb] sets up on a socket [peer]: zeroed, with its
    state machine in the initial state and its keep-alive machine running. *)
Definition new_conn (peer : loc) : rspro_client_conn :=
  RsproClientConn (Some peer) (Some (FsmInst CLNTC_ST_INIT 0 None)) true zero_comp_id 0 0
    (ClientSlot 0 0) (BankSlot 0 0) 0 0 None.

(** A new TCP connection.  The arguments are what the libraries return: the
    socket object (NULL if it cannot be created), and whether the two state
    machines can be allocated. *)
Definition accept_cb (peer : option loc) (fi_ok ka_ok : bool) : Srv Z :=
  s ← gets id;
  match talloc_zero (dom (conns s)) with
  | None => panic
  | Some l =>
      match peer with
      | None => mret (- 1)
      | Some p =>
          modify (λ s, set_peer_data (<[p := l]> (peer_data s))
            (set_conns (<[l := set_conn_fi None (set_conn_ka_fi false (new_conn p))]> (conns s)) s)) ;;
          if negb fi_ok then
            osmo_stream_srv_destroy (sock_closed_cb fsm_K p) ;; mret (- 1)
          else
            conn_upd l (set_conn_fi (conn_fi (new_conn p))) ;;
            if negb ka_ok then
              fi_term fsm_K l ;;
              c ← conn_at l;
              peer ← deref (conn_peer c);
              osmo_stream_srv_destroy (sock_closed_cb fsm_K peer) ;; mret (- 1)
            else
              conn_upd l (set_conn_ka_fi true) ;;
              modify (λ s, set_lists (connections s ++ [l]) (clients s) (banks s) s) ;;
              dispatch l CLNTC_E_TCP_UP None ;;
              mret 0
      end
  end.

(** ** The event from the REST threads

    [rc] is the result of reading the eventfd. *)

Definition event_fd_cb (rc : Z) : Srv Z :=
  if rc <? 8 then mret rc
  else
    modify (set_eventfd 0) ;;
    k ← gets banks;
    for_each (λ l,
      conn_at l ;;
      non_empty_new ← gets (λ s, bool_decide (bank_list (srv_slotmaps s) (l, maps_new) = []));
      non_empty_del ← gets (λ s, bool_decide (bank_list (srv_slotmaps s) (l, maps_delreq) = []));
      when (non_empty_new || non_empty_del) (dispatch l CLNTC_E_PUSH None ;; mret ())) k ;;
    mret 0.

(** [rspro_server_create] followed by [slotmap_init], as [main] does. *)
Definition rspro_server_create (id : app_comp_id) : rspro_server :=
  RsproServer id ∅ [] [] [] slotmap_init ∅ [] 0.

End server.
