(* ===== verification/RestApi.v ===== *)
(** * The REST interface of the server ([src/server/rest_api.c])

    Conversion between JSON and the data of the server, and one definition per
    end point.  A handler returns the call it makes to set the response.  The
    JSON values of jansson are an interface, [Jansson], with the documented
    behaviour of the functions the code uses; [json_ref] is a concrete
    instance. *)

From S2P Require Import Prelude OsmoFsm Slotmap RsproPdu RsproUtil Ipa RsproServer.

(** ** JSON values (jansson)

    [json_object_set_new] and [json_array_append_new] update an object that
    nothing else refers to, so they are functions from the old to the new one;
    a NULL value is refused. *)

Class Jansson := {
  json_t : Type;
  json_object : json_t;
  json_array : json_t;
  json_integer : Z → json_t;
  json_string : octets → option json_t;
  json_object_set_new : json_t → string → option json_t → json_t;
  json_array_append_new : json_t → json_t → json_t;
  json_is_object : json_t → bool;
  json_is_integer : json_t → bool;
  json_integer_value : json_t → Z;
  json_object_get : json_t → string → option json_t;

  json_is_object_object : json_is_object json_object = true;
  json_is_object_set o k v : json_is_object (json_object_set_new o k v) = json_is_object o;
  json_get_empty k : json_object_get json_object k = None;
  json_get_set_eq o k v :
    json_is_object o = true → json_object_get (json_object_set_new o k (Some v)) k = Some v;
  json_get_set_ne o k k' v :
    k ≠ k' → json_object_get (json_object_set_new o k v) k' = json_object_get o k';
  json_set_null o k : json_object_set_new o k None = o;
  json_is_integer_integer z : json_is_integer (json_integer z) = true;
  json_integer_value_integer z :
    - 2 ^ 63 ≤ z < 2 ^ 63 → json_integer_value (json_integer z) = z;
}.

#[warnings="-register-all"]
Inductive json_val :=
| JInt (z : Z)
| JString (s : octets)
| JArray (l : list json_val)
| JObject (m : list (string * json_val)).

Definition ref_get (o : json_val) (k : string) : option json_val :=
  match o with
  | JObject m => snd <$> find (λ p, bool_decide (p.1 = k)) m
  | _ => None
  end.

#[refine] #[global] Instance json_ref : Jansson := {
  json_t := json_val;
  json_object := JObject [];
  json_array := JArray [];
  json_integer := JInt;
  json_string s := Some (JString s);
  json_object_set_new o k v :=
    match o, v with
    | JObject m, Some v => JObject ((k, v) :: filter (λ p, p.1 ≠ k) m)
    | _, _ => o
    end;
  json_array_append_new a v := match a with JArray l => JArray (l ++ [v]) | _ => a end;
  json_is_object o := match o with JObject _ => true | _ => false end;
  json_is_integer o := match o with JInt _ => true | _ => false end;
  json_integer_value o := match o with JInt z => z | _ => 0 end;
  json_object_get := ref_get;
}.
Proof.
  - reflexivity.
  - by intros [| | |] ? [|].
  - reflexivity.
  - intros [| | |m] k v [=]. cbn. by rewrite bool_decide_true.
  - intros [| | |m] k k' v Hk; try (by destruct v). destruct v as [v|]; [|done].
    cbn. rewrite bool_decide_false by done. cbn. f_equal.
    induction m as [|p m IH]; [done|]. destruct (decide (p.1 ≠ k)) as [H|H].
    + rewrite filter_cons_True by done. cbn. by rewrite IH.
    + rewrite filter_cons_False by done. cbn. rewrite IH.
      rewrite bool_decide_false; [done|]. intros <-. apply H. congruence.
  - by intros [].
  - reflexivity.
  - reflexivity.
Defined.

(** ** Requests and responses (ulfius) *)

Record _u_request `{Jansson} := URequest {
  map_url : string → option octets;
  json_body_request : option json_t;
}.

(** The call that sets the response. *)
Inductive u_response `{Jansson} :=
| ulfius_set_json_body_response (status : Z) (body : option json_t)
| ulfius_set_empty_body_response (status : Z).

(** ** Conversion to and from JSON *)

Section json.
Context `{Jansson}.

Definition json_set_int (o : json_t) (k : string) (z : Z) : json_t :=
  json_object_set_new o k (Some (json_integer z)).
Definition json_set_str (o : json_t) (k : string) (s : octets) : json_t :=
  json_object_set_new o k (json_string (c_str s)).
Definition json_set_str_opt (o : json_t) (k : string) (s : octets) : json_t :=
  if (strlen s =? 0)%nat then o else json_set_str o k s.

Definition type_names : list string := ["remsimClient"; "remsimServer"; "remsimBankd"].

(** [None] is an access outside [type_names]. *)
Definition comp_id2json (i : app_comp_id) : option json_t :=
  t ← type_names !! Z.to_nat (ac_type i);
  let ret := json_object_set_new json_object "type_" (json_string (str_octets t)) in
  let ret := json_set_str ret "name" (ac_name i) in
  let ret := json_set_str ret "software" (ac_software i) in
  let ret := json_set_str ret "swVersion" (ac_sw_version i) in
  let ret := json_set_str_opt ret "hwManufacturer" (ac_hw_manufacturer i) in
  let ret := json_set_str_opt ret "hwModel" (ac_hw_model i) in
  let ret := json_set_str_opt ret "hwSerialNr" (ac_hw_serial_nr i) in
  let ret := json_set_str_opt ret "hwVersion" (ac_hw_version i) in
  let ret := json_set_str_opt ret "fwVersion" (ac_fw_version i) in
  Some ret.

(** [None] is an access through [conn->fi] while it is NULL. *)
Definition client2json (c : rspro_client_conn) : option json_t :=
  fi ← conn_fi c;
  let ret := json_object_set_new json_object "peer" (conn_id c ≫= λ i, json_string (str_octets i)) in
  let ret := json_object_set_new ret "state"
               (json_string (str_octets (clntc_state_name (fi_state fi)))) in
  id ← comp_id2json (conn_comp_id c);
  Some (json_object_set_new ret "component_id" (Some id)).

Definition bank2json (c : rspro_client_conn) : option json_t :=
  ret ← client2json c;
  Some (json_set_int (json_set_int ret "bankId" (conn_bank_id c))
          "numberOfSlots" (conn_num_slots c)).

Definition bank_slot2json (b : bank_slot) : json_t :=
  json_set_int (json_set_int json_object "bankId" (bank_id b)) "slotNr" (bslot_nr b).

Definition client_slot2json (c : client_slot) : json_t :=
  json_set_int (json_set_int json_object "clientId" (client_id c)) "slotNr" (cslot_nr c).

(** A member that must be present and an integer. *)
Definition json_get_int (o : json_t) (k : string) : option Z :=
  j ← json_object_get o k;
  if json_is_integer j then Some (json_integer_value j) else None.

(** The error [-EINVAL] is [None]. *)
Definition json2bank_slot (j : json_t) : option bank_slot :=
  if negb (json_is_object j) then None
  else
    id ← json_get_int j "bankId";
    nr ← json_get_int j "slotNr";
    let b := BankSlot (u16 id) (u16 nr) in
    if (1023 <? bank_id b) || (1023 <? bslot_nr b) then None else Some b.

Definition json2client_slot (j : json_t) : option client_slot :=
  if negb (json_is_object j) then None
  else
    id ← json_get_int j "clientId";
    nr ← json_get_int j "slotNr";
    let c := ClientSlot (u16 id) (u16 nr) in
    if (1023 <? client_id c) || (1023 <? cslot_nr c) then None else Some c.

Definition slotmap2json (m : slot_mapping) : json_t :=
  let ret := json_object_set_new json_object "bank" (Some (bank_slot2json (sm_bank m))) in
  let ret := json_object_set_new ret "client" (Some (client_slot2json (sm_client m))) in
  json_object_set_new ret "state" (json_string (str_octets (slot_map_state_name (sm_state m)))).

Definition json2slotmap (j : json_t) : option (bank_slot * client_slot) :=
  if negb (json_is_object j) then None
  else
    jbank ← json_object_get j "bank";
    if negb (json_is_object jbank) then None
    else
      jclient ← json_object_get j "client";
      if negb (json_is_object jclient) then None
      else
        b ← json2bank_slot jbank;
        c ← json2client_slot jclient;
        Some (b, c).
End json.

(** ** The end points *)

Section api.
Context `{OsmoLib, Talloc, RsproCodec, IpaLib, Jansson}.
Abbreviation Srv := (M rspro_server).

(** [json_array_append_new(json, f(conn))] for every connection of a list *)
Fixpoint conns_json (f : rspro_client_conn → option json_t) (k : list loc) (acc : json_t)
    : Srv json_t :=
  match k with
  | [] => mret acc
  | l :: k =>
      c ← conn_at l;
      j ← deref (f c);
      conns_json f k (json_array_append_new acc j)
  end.

Definition api_cb_banks_get (req : _u_request) : Srv u_response :=
  k ← gets banks;
  j ← conns_json bank2json k json_array;
  mret (ulfius_set_json_body_response 200 (Some (json_object_set_new json_object "banks" (Some j)))).

Definition api_cb_clients_get (req : _u_request) : Srv u_response :=
  k ← gets clients;
  j ← conns_json client2json k json_array;
  mret (ulfius_set_json_body_response 200 (Some (json_object_set_new json_object "clients" (Some j)))).

(** The body both [api_cb_bank_get] and [api_cb_client_get] have: the first
    connection of a list whose bank id is the number in the URL. *)
Definition api_conn_get (errno : Z) (id_str : option octets) (k : list loc)
    (f : rspro_client_conn → option json_t) : Srv u_response :=
  match id_str with
  | None => mret (ulfius_set_empty_body_response 400)
  | Some str =>
      let '(id, _) := strtoul10 errno str in
      if 65535 <? id then mret (ulfius_set_empty_body_response 400)
      else
        conn ← find_conn (λ c, conn_bank_id c =? id) k;
        match conn with
        | None => mret (ulfius_set_json_body_response 404 None)
        | Some l =>
            c ← conn_at l;
            j ← deref (f c);
            mret (ulfius_set_json_body_response 200 (Some j))
        end
  end.

Definition api_cb_bank_get (errno : Z) (req : _u_request) : Srv u_response :=
  k ← gets banks; api_conn_get errno (map_url req "bank_id") k bank2json.

Definition api_cb_client_get (errno : Z) (req : _u_request) : Srv u_response :=
  k ← gets clients; api_conn_get errno (map_url req "client_id") k client2json.

Fixpoint slotmaps_json (k : list loc) (acc : json_t) : Srv json_t :=
  match k with
  | [] => mret acc
  | x :: k =>
      m ← on_slotmaps (map_at x);
      slotmaps_json k (json_array_append_new acc (slotmap2json m))
  end.

Definition api_cb_slotmaps_get (req : _u_request) : Srv u_response :=
  k ← gets (λ s, mappings (srv_slotmaps s));
  j ← slotmaps_json k json_array;
  mret (ulfius_set_json_body_response 200
          (Some (json_object_set_new json_object "slotmaps" (Some j)))).

Definition trigger_main_thread_via_eventfd : Srv () :=
  modify (λ s, set_eventfd (eventfd s + 1) s).

(** The three critical sections of [api_cb_slotmaps_post], in order; what other
    threads do may come between them. *)
Definition slotmaps_post_add (b : bank_slot) (c : client_slot) : Srv (option loc) :=
  on_slotmaps (slotmap_add b c).

Definition slotmaps_post_reset (map : loc) : Srv () :=
  on_slotmaps (Slotmap_state_change map SLMAP_S_NEW None).

Definition slotmaps_post_link (map : loc) (b : bank_slot) : Srv () :=
  k ← gets banks;
  conn ← find_conn (λ c, conn_bank_id c =? bank_id b) k;
  match conn with
  | Some l =>
      on_slotmaps (Slotmap_state_change map SLMAP_S_NEW (Some (l, maps_new))) ;;
      trigger_main_thread_via_eventfd
  | None => mret ()
  end.

(** The request up to the end of the first section: the mapping that was added,
    and its bank slot. *)
Definition slotmaps_post_begin (req : _u_request) : Srv (option (loc * bank_slot)) :=
  match json_body_request req ≫= json2slotmap with
  | None => mret None
  | Some (b, c) => map ← slotmaps_post_add b c; mret ((λ x, (x, b)) <$> map)
  end.

Definition api_cb_slotmaps_post (req : _u_request) : Srv u_response :=
  added ← slotmaps_post_begin req;
  match added with
  | None => mret (ulfius_set_empty_body_response 400)
  | Some (map, b) =>
      slotmaps_post_reset map ;;
      slotmaps_post_link map b ;;
      mret (ulfius_set_empty_body_response 201)
  end.

(** [llist_del(&map->list)] followed by [INIT_LLIST_HEAD] *)
Definition unlink_global (x : loc) (s : slotmaps) : slotmaps :=
  Slotmaps (heap s) (unlink x (mappings s)) (bank_lists s).

Definition _slotmap_mark_deleted (x : loc) : Srv () :=
  m ← on_slotmaps (map_at x);
  conn ← bankd_conn_by_id (bank_id (sm_bank m));
  on_slotmaps (modify (unlink_global x)) ;;
  match sm_state m with
  | SLMAP_S_NEW => on_slotmaps (_slotmap_del x)
  | SLMAP_S_UNACKNOWLEDGED => mret ()
  | SLMAP_S_ACTIVE =>
      l ← deref conn;
      on_slotmaps (_Slotmap_state_change x SLMAP_S_DELETE_REQ (Some (l, maps_delreq))) ;;
      trigger_main_thread_via_eventfd
  | SLMAP_S_DELETE_REQ => mret ()
  | SLMAP_S_DELETING => mret ()
  end.

Definition api_cb_slotmaps_del (errno : Z) (req : _u_request) : Srv u_response :=
  match map_url req "slotmap_id" with
  | None => mret (ulfius_set_empty_body_response 400)
  | Some str =>
      let '(map_id, errno) := strtoul10 errno str in
      if (map_id =? ULONG_MAX) && negb (errno =? 0)
      then mret (ulfius_set_empty_body_response 400)
      else
        k ← gets (λ s, mappings (srv_slotmaps s));
        map ← on_slotmaps (find_map (λ m, slotmap_get_id m =? map_id) k);
        status ← match map with
                 | Some x => _slotmap_mark_deleted x ;; mret 200
                 | None => mret 404
                 end;
        trigger_main_thread_via_eventfd ;;
        mret (ulfius_set_empty_body_response status)
  end.

Definition api_cb_global_reset_post (req : _u_request) : Srv u_response :=
  k ← gets (λ s, mappings (srv_slotmaps s));
  for_each _slotmap_mark_deleted k ;;
  trigger_main_thread_via_eventfd ;;
  mret (ulfius_set_empty_body_response 200).

(** [api_endpoints]: method, path below the prefix, handler; [errno] is the
    value the C variable has when the handler starts. *)
Definition api_endpoints (errno : Z) : list (string * string * (_u_request → Srv u_response)) :=
  [("GET", "/banks", api_cb_banks_get);
   ("GET", "/banks/:bank_id", api_cb_bank_get errno);
   ("GET", "/clients", api_cb_clients_get);
   ("GET", "/clients/:client_id", api_cb_client_get errno);
   ("GET", "/slotmaps", api_cb_slotmaps_get);
   ("POST", "/slotmaps", api_cb_slotmaps_post);
   ("DELETE", "/slotmaps/:slotmap_id", api_cb_slotmaps_del errno);
   ("POST", "/global-reset", api_cb_global_reset_post)].
End api.

(** ** Properties of the JSON conversions *)

Section json_props.
Context `{Jansson}.

Lemma get_int_same o k z :
  json_is_object o = true → - 2 ^ 63 ≤ z < 2 ^ 63 → json_get_int (json_set_int o k z) k = Some z.
Proof.
  intros Ho Hz. unfold json_get_int, json_set_int. rewrite json_get_set_eq by done.
  cbn [mbind option_bind]. by rewrite json_is_integer_integer, json_integer_value_integer.
Qed.

Lemma get_int_other o k k' z :
  k ≠ k' → json_get_int (json_set_int o k z) k' = json_get_int o k'.
Proof. intros Hk. unfold json_get_int, json_set_int. by rewrite json_get_set_ne. Qed.

Lemma is_object_set_int o k z : json_is_object (json_set_int o k z) = json_is_object o.
Proof. apply json_is_object_set. Qed.

Definition fits (z : Z) : bool := u16 z <=? 1023.

(** What a request body of two integers denotes. *)
Lemma json2bank_slot_ints i n :
  - 2 ^ 63 ≤ i < 2 ^ 63 → - 2 ^ 63 ≤ n < 2 ^ 63 →
  json2bank_slot (bank_slot2json (BankSlot i n)) =
    if fits i && fits n then Some (BankSlot (u16 i) (u16 n)) else None.
Proof.
  intros Hi Hn. unfold json2bank_slot, bank_slot2json. cbn [bank_id bslot_nr].
  rewrite !is_object_set_int, json_is_object_object. cbn [negb].
  rewrite (get_int_other _ "slotNr" "bankId") by done. rewrite !get_int_same; rewrite ?is_object_set_int; try done;
    try apply json_is_object_object.
  cbn [mbind option_bind bank_id bslot_nr]. unfold fits. rewrite !Z.ltb_antisym, <-negb_andb.
  by destruct (_ && _).
Qed.

Lemma json2client_slot_ints i n :
  - 2 ^ 63 ≤ i < 2 ^ 63 → - 2 ^ 63 ≤ n < 2 ^ 63 →
  json2client_slot (client_slot2json (ClientSlot i n)) =
    if fits i && fits n then Some (ClientSlot (u16 i) (u16 n)) else None.
Proof.
  intros Hi Hn. unfold json2client_slot, client_slot2json. cbn [client_id cslot_nr].
  rewrite !is_object_set_int, json_is_object_object. cbn [negb].
  rewrite (get_int_other _ "slotNr" "clientId") by done. rewrite !get_int_same; rewrite ?is_object_set_int; try done;
    try apply json_is_object_object.
  cbn [mbind option_bind client_id cslot_nr]. unfold fits. rewrite !Z.ltb_antisym, <-negb_andb.
  by destruct (_ && _).
Qed.

Definition int64 (z : Z) : Prop := - 2 ^ 63 ≤ z < 2 ^ 63.

(** C26. Converting a mapping to JSON and parsing it back yields its two slots
    exactly when every number is at most 1023 modulo 2^16: mappings within the
    documented range survive, numbers of 16 bits beyond 1023 are rejected, and
    larger numbers are silently taken modulo 2^16 before the check. *)
Theorem json2slotmap_roundtrip m
    (H1 : int64 (bank_id (sm_bank m))) (H2 : int64 (bslot_nr (sm_bank m)))
    (H3 : int64 (client_id (sm_client m))) (H4 : int64 (cslot_nr (sm_client m))) :
  json2slotmap (slotmap2json m) =
    if fits (bank_id (sm_bank m)) && fits (bslot_nr (sm_bank m)) &&
       (fits (client_id (sm_client m)) && fits (cslot_nr (sm_client m)))
    then Some (BankSlot (u16 (bank_id (sm_bank m))) (u16 (bslot_nr (sm_bank m))),
               ClientSlot (u16 (client_id (sm_client m))) (u16 (cslot_nr (sm_client m))))
    else None.
Proof.
  destruct m as [[i n] [i' n'] st]. cbn [sm_bank sm_client bank_id bslot_nr client_id cslot_nr] in *.
  unfold json2slotmap, slotmap2json. cbn [sm_bank sm_client].
  rewrite !json_is_object_set, json_is_object_object. cbn [negb].
  rewrite !(json_get_set_ne _ "state"), (json_get_set_ne _ "client" "bank") by done.
  rewrite (json_get_set_eq _ "bank") by apply json_is_object_object. cbn [mbind option_bind].
  unfold bank_slot2json at 1. rewrite !is_object_set_int, json_is_object_object. cbn [negb].
  rewrite json_get_set_eq by (rewrite json_is_object_set; apply json_is_object_object).
  cbn [mbind option_bind].
  unfold client_slot2json at 1. rewrite !is_object_set_int, json_is_object_object. cbn [negb].
  rewrite json2bank_slot_ints, json2client_slot_ints by done.
  destruct (fits i && fits n); [|done]. cbn [mbind option_bind andb].
  by destruct (fits i' && fits n').
Qed.
End json_props.

Lemma json2slotmap_roundtrip_witness :
  let m := SlotMapping (BankSlot 65541 0) (ClientSlot 1023 7) SLMAP_S_NEW in
  json2slotmap (slotmap2json m) =
    if fits 65541 && fits 0 && (fits 1023 && fits 7)
    then Some (BankSlot (u16 65541) (u16 0), ClientSlot (u16 1023) (u16 7)) else None.
Proof. intros m. apply (json2slotmap_roundtrip m); split; cbn; lia. Defined.
