(* ===== verification/ServerInv.v ===== *)
(** * The invariant of the server

    What holds of the server between any two events, stated on the part of the
    state it depends on: [cinv] of the connections, their three lists and the
    sockets, [minv] of the slot maps relative to the bank ids of the connected
    bankds.  Both are parameterized by an optional connection that is in the
    middle of an event ("busy"), of which the state of the machine and the
    association of mappings are not required; [cinv] also by whether every
    connection in the lists of clients and banks has a socket (it need not have
    one after a keep-alive timeout).

    The second half are the proof rules of the handlers of [RsproServer]. *)

From S2P Require Import Prelude OsmoFsm Slotmap RsproPdu RsproUtil Ipa RsproServer RestApi.

(** ** The part of the state the invariant is about *)

Record ckey := CKey {
  k_peer : option loc;
  k_fi : option (fsm_inst remsim_server_client_fsm_state);
  k_bank : Z;
  k_slot : client_slot;
}.

Definition key (c : rspro_client_conn) : ckey :=
  CKey (conn_peer c) (conn_fi c) (conn_bank_id c) (conn_client_slot c).

Record cview := CView {
  vc : gmap loc ckey;
  vl_conn : list loc;
  vl_cl : list loc;
  vl_bk : list loc;
  vp : gmap loc loc;
}.

Definition view (s : rspro_server) : cview :=
  CView (key <$> conns s) (connections s) (clients s) (banks s) (peer_data s).

Definition v_set (l : loc) (k : ckey) (v : cview) : cview :=
  CView (<[l := k]> (vc v)) (vl_conn v) (vl_cl v) (vl_bk v) (vp v).

(** The list a connection is in, and its timer, by the state of its machine. *)
Definition fi_ok (v : cview) (l : loc) (fi : fsm_inst remsim_server_client_fsm_state) : Prop :=
  match fi_state fi with
  | CLNTC_ST_INIT => l ∈ vl_conn v ∧ fi_timer fi = None
  | CLNTC_ST_ESTABLISHED => l ∈ vl_conn v ∧ fi_T fi = 1
  | CLNTC_ST_WAIT_CONF_RES => False
  | CLNTC_ST_CONNECTED_BANKD => l ∈ vl_bk v ∧ fi_timer fi = None
  | CLNTC_ST_CONNECTED_CLIENT => l ∈ vl_cl v ∧ fi_timer fi = None
  | CLNTC_ST_REJECTED => l ∈ vl_conn v ∧ fi_T fi = 2
  end.

Record cinv (z : Prop) (o : option loc) (v : cview) : Prop := {
  ci_nodup : NoDup (vl_conn v ++ vl_cl v ++ vl_bk v);
  ci_alive : ∀ l, l ∈ vl_conn v ++ vl_cl v ++ vl_bk v → is_Some (vc v !! l);
  ci_bank_inj : ∀ l l' k k', l ∈ vl_bk v → l' ∈ vl_bk v →
    vc v !! l = Some k → vc v !! l' = Some k' → k_bank k = k_bank k' → l = l';
  ci_slot_inj : ∀ l l' k k', l ∈ vl_cl v → l' ∈ vl_cl v →
    vc v !! l = Some k → vc v !! l' = Some k' → k_slot k = k_slot k' → l = l';
  ci_fi : ∀ l k fi, vc v !! l = Some k → k_fi k = Some fi → o ≠ Some l → fi_ok v l fi;
  ci_peer : ∀ l k p, vc v !! l = Some k → k_peer k = Some p → is_Some (k_fi k) →
    vp v !! p = Some l;
  ci_data : ∀ p l, vp v !! p = Some l →
    ∃ k, vc v !! l = Some k ∧ k_peer k = Some p ∧ is_Some (k_fi k);
  ci_live : ∀ l k, vc v !! l = Some k → is_Some (k_fi k) → is_Some (k_peer k);
  ci_zombie : z → ∀ l k, l ∈ vl_cl v ++ vl_bk v → vc v !! l = Some k → is_Some (k_peer k);
}.

(** The bank id of a connected bankd. *)
Definition ids (v : cview) (l : loc) : option Z :=
  if decide (l ∈ vl_bk v) then k_bank <$> vc v !! l else None.

Definition listed_state (st : slot_mapping_state) : Prop :=
  st = SLMAP_S_NEW ∨ st = SLMAP_S_UNACKNOWLEDGED ∨ st = SLMAP_S_ACTIVE.

(** A slot number the REST interface accepts. *)
Definition rest_range (m : slot_mapping) : Prop :=
  0 ≤ bank_id (sm_bank m) ≤ 1023 ∧ 0 ≤ bslot_nr (sm_bank m) ≤ 1023 ∧
  0 ≤ client_id (sm_client m) ≤ 1023 ∧ 0 ≤ cslot_nr (sm_client m) ≤ 1023.

(** REST calls that have added a mapping and have not yet associated it with
    its bankd, each with the mapping and its bank slot.  [undisturbed] says that
    meanwhile nobody deletes the mapping and its bankd does not connect. *)
Class PostCalls := {
  pend : list (loc * bank_slot);
  undisturbed : Prop;
}.

Record minv `{PostCalls} (o : option loc) (ids : loc → option Z) (sm : slotmaps) : Prop := {
  mi_wf : slotmaps_wf sm;
  mi_list : ∀ l f x, x ∈ bank_list sm (l, f) →
    ∃ m, heap sm !! x = Some m ∧ ids l = Some (bank_id (sm_bank m));
  mi_global : ∀ x m, x ∈ mappings sm → heap sm !! x = Some m → listed_state (sm_state m);
  mi_assoc : ∀ x m l, x ∈ mappings sm → heap sm !! x = Some m →
    ids l = Some (bank_id (sm_bank m)) → o ≠ Some l → x ∉ pend.*1 → ∃ f, x ∈ bank_list sm (l, f);
  mi_listed : ∀ x m, x ∈ mappings sm → heap sm !! x = Some m →
    sm_state m ≠ SLMAP_S_NEW → ∃ l f, x ∈ bank_list sm (l, f);
  mi_range : ∀ x m, heap sm !! x = Some m → rest_range m;
  mi_pend : ∀ x b, (x, b) ∈ pend → (∀ m, heap sm !! x = Some m → sm_bank m = b) ∧
    (undisturbed → x ∈ mappings sm ∧ ∀ h, x ∉ bank_list sm h);
}.

Definition srv_inv `{PostCalls} (z : Prop) (o : option loc) (s : rspro_server) : Prop :=
  cinv z o (view s) ∧ minv o (ids (view s)) (srv_slotmaps s).

(** ** Changes of the connections *)

Lemma view_insert l c s :
  view (set_conns (<[l := c]> (conns s)) s) = v_set l (key c) (view s).
Proof. unfold view, v_set; cbn. by rewrite fmap_insert. Qed.

Lemma view_lookup l c s : conns s !! l = Some c → vc (view s) !! l = Some (key c).
Proof. intros H. cbn. by rewrite lookup_fmap, H. Qed.

Lemma view_lookup_inv l k s :
  vc (view s) !! l = Some k → ∃ c, conns s !! l = Some c ∧ key c = k.
Proof. cbn. rewrite lookup_fmap, fmap_Some. intros (c & ? & ->). eauto. Qed.

Lemma cinv_in_conn z o v l :
  cinv z o v → l ∈ vl_conn v → (l ∉ vl_cl v) ∧ (l ∉ vl_bk v).
Proof.
  intros H Hl. destruct (proj1 (NoDup_app _ _) (ci_nodup _ _ _ H)) as (_ & Hd & _).
  specialize (Hd l Hl). rewrite elem_of_app in Hd. tauto.
Qed.

(** A change of one connection that keeps its socket, whether it has a machine,
    and what its list requires. *)
Lemma cinv_set z o o' v l k k' :
  cinv z o v → vc v !! l = Some k →
  k_peer k' = k_peer k → (is_Some (k_fi k') ↔ is_Some (k_fi k)) →
  (l ∈ vl_bk v → k_bank k' = k_bank k) → (l ∈ vl_cl v → k_slot k' = k_slot k) →
  (o' ≠ Some l → ∀ fi, k_fi k' = Some fi → fi_ok v l fi) →
  (∀ x, x ≠ l → o' ≠ Some x → o ≠ Some x) →
  cinv z o' (v_set l k' v).
Proof.
  intros [Hnd Hal Hbi Hsi Hfi Hp Hd Hlv Hz] Hk Hpe Hfe Hbe Hse Hok Ho. split; cbn.
  - done.
  - intros x Hx. destruct (decide (x = l)) as [->|]; simplify_map_eq; eauto.
  - intros x y kx ky Hx Hy Hkx Hky E.
    assert (∀ w kw, w ∈ vl_bk v → <[l:=k']> (vc v) !! w = Some kw →
      ∃ kw', vc v !! w = Some kw' ∧ k_bank kw = k_bank kw') as Hold.
    { intros w kw Hw Hkw. destruct (decide (w = l)) as [->|]; simplify_map_eq; eauto. }
    destruct (Hold x kx) as (kx' & ? & E1), (Hold y ky) as (ky' & ? & E2); [done..|].
    apply (Hbi x y kx' ky'); [done..|congruence].
  - intros x y kx ky Hx Hy Hkx Hky E.
    assert (∀ w kw, w ∈ vl_cl v → <[l:=k']> (vc v) !! w = Some kw →
      ∃ kw', vc v !! w = Some kw' ∧ k_slot kw = k_slot kw') as Hold.
    { intros w kw Hw Hkw. destruct (decide (w = l)) as [->|]; simplify_map_eq; eauto. }
    destruct (Hold x kx) as (kx' & ? & E1), (Hold y ky) as (ky' & ? & E2); [done..|].
    apply (Hsi x y kx' ky'); [done..|congruence].
  - intros x kx fi Hkx Hf Hox. destruct (decide (x = l)) as [->|]; simplify_map_eq; [by apply Hok|].
    by apply (Hfi x kx fi); auto.
  - intros x kx p Hkx Hpx Hfx. destruct (decide (x = l)) as [->|]; simplify_map_eq; [|eauto].
    apply (Hp l k); [done|congruence|tauto].
  - intros p x Hpx. destruct (Hd p x Hpx) as (kx & Hkx & Hpk & Hfk).
    destruct (decide (x = l)) as [->|]; simplify_map_eq; [|eauto].
    exists k'. split; [done|]. split; [congruence|tauto].
  - intros x kx Hkx Hf. destruct (decide (x = l)) as [->|]; simplify_map_eq; [|eauto].
    rewrite Hpe. apply (Hlv l k); tauto.
  - intros Hzz x kx Hx Hkx. destruct (decide (x = l)) as [->|]; simplify_map_eq; [|eauto].
    rewrite Hpe. eauto.
Qed.

Lemma ids_set v l k k' :
  vc v !! l = Some k → (l ∈ vl_bk v → k_bank k' = k_bank k) →
  ∀ x, ids (v_set l k' v) x = ids v x.
Proof.
  intros Hk Hb x. unfold ids; cbn. case_decide; [|done].
  destruct (decide (x = l)) as [->|]; simplify_map_eq; [|done]. cbn. by rewrite Hb.
Qed.

Lemma minv_ids `{PostCalls} o ids ids' sm : (∀ l, ids' l = ids l) → minv o ids sm → minv o ids' sm.
Proof.
  intros E [Hwf Hl Hg Ha Hli Hr Hp]. split; [done| |done| |done..].
  - intros l f x Hx. rewrite E. eauto.
  - intros x m l ?? Hid. rewrite E in Hid. eauto.
Qed.

(** Moving a connection from [connections] to one of the other lists. *)
Definition v_client (l : loc) (v : cview) : cview :=
  CView (vc v) (unlink l (vl_conn v)) (unlink l (vl_cl v) ++ [l]) (unlink l (vl_bk v)) (vp v).
Definition v_bank (l : loc) (v : cview) : cview :=
  CView (vc v) (unlink l (vl_conn v)) (unlink l (vl_cl v)) (unlink l (vl_bk v) ++ [l]) (vp v).

Lemma reparent_nodup (l : loc) (a b c : list loc) :
  NoDup (a ++ b ++ c) → l ∈ a →
  NoDup (unlink l a ++ (unlink l b ++ [l]) ++ unlink l c) ∧
  NoDup (unlink l a ++ unlink l b ++ unlink l c ++ [l]) ∧
  unlink l b = b ∧ unlink l c = c.
Proof.
  intros Hnd Hl.
  assert (∀ y, y ∈ a → (y ∉ b) ∧ (y ∉ c)) as Hdis.
  { intros y Hy. destruct (proj1 (NoDup_app _ _) Hnd) as (_ & Hd & _).
    specialize (Hd y Hy). rewrite elem_of_app in Hd. tauto. }
  destruct (Hdis l Hl) as [Hb Hc]. rewrite !(unlink_not_in l b), !(unlink_not_in l c) by done.
  assert (NoDup (l :: unlink l a ++ b ++ c)) as Hbase.
  { apply NoDup_cons. split.
    - rewrite !elem_of_app, elem_of_unlink. tauto.
    - apply NoDup_app in Hnd as (Ha & Hd & Hbc). apply NoDup_app. split; [by apply NoDup_unlink|].
      split; [|done]. intros y [_ Hy]%elem_of_unlink. by apply Hd. }
  split; [|split; [|done]].
  - refine (proj2 (NoDup_Permutation_proper _ _ _) Hbase).
    rewrite <-!app_assoc; cbn. rewrite app_assoc, (app_assoc _ b c). symmetry.
    apply Permutation_middle.
  - refine (proj2 (NoDup_Permutation_proper _ _ _) Hbase). rewrite !app_assoc.
    symmetry. apply Permutation_cons_append.
Qed.

Lemma cinv_bank z o v l k :
  cinv z o v → l ∈ vl_conn v → vc v !! l = Some k → is_Some (k_peer k) →
  (∀ x kx, x ∈ vl_bk v → vc v !! x = Some kx → k_bank kx ≠ k_bank k) →
  (o = None ∨ o = Some l) →
  cinv z (Some l) (v_bank l v).
Proof.
  intros Hinv Hl Hk Hpk Hnew Ho. destruct (cinv_in_conn _ _ _ _ Hinv Hl) as [Hlc Hlb].
  destruct Hinv as [Hnd Hal Hbi Hsi Hfi Hp Hd Hlv Hz].
  destruct (reparent_nodup _ _ _ _ Hnd Hl) as (_ & Hnd' & E1 & E2).
  split; cbn; rewrite ?E1, ?E2 in *; try done.
  - intros x. rewrite !elem_of_app, list_elem_of_singleton, elem_of_unlink. intros Hx.
    destruct (decide (x = l)) as [->|]; [by eexists|]. apply Hal. rewrite !elem_of_app. tauto.
  - intros x y kx ky. rewrite !elem_of_app, !list_elem_of_singleton.
    intros [Hx| ->] [Hy| ->] Hkx Hky E; simplify_eq; [by eapply Hbi|..|done].
    + by destruct (Hnew x kx).
    + by destruct (Hnew y ky).
  - intros x kx fi Hkx Hf Hox. unfold fi_ok; cbn. rewrite E1, E2.
    assert (x ≠ l) by congruence.
    assert (o ≠ Some x) as Hox' by (destruct Ho; congruence). specialize (Hfi x kx fi Hkx Hf Hox').
    unfold fi_ok in Hfi. destruct (fi_state fi); rewrite ?elem_of_app, ?elem_of_unlink; tauto.
  - intros Hzz x kx. rewrite !elem_of_app, list_elem_of_singleton.
    intros [Hx|[Hx| ->]] Hkx; [apply (Hz Hzz x); [|done]..|congruence];
      rewrite elem_of_app; tauto.
Qed.

Lemma cinv_client z o v l k :
  cinv z o v → l ∈ vl_conn v → vc v !! l = Some k → is_Some (k_peer k) →
  (∀ x kx, x ∈ vl_cl v → vc v !! x = Some kx → k_slot kx ≠ k_slot k) →
  (o = None ∨ o = Some l) →
  cinv z (Some l) (v_client l v).
Proof.
  intros Hinv Hl Hk Hpk Hnew Ho. destruct (cinv_in_conn _ _ _ _ Hinv Hl) as [Hlc Hlb].
  destruct Hinv as [Hnd Hal Hbi Hsi Hfi Hp Hd Hlv Hz].
  destruct (reparent_nodup _ _ _ _ Hnd Hl) as (Hnd' & _ & E1 & E2).
  split; cbn; rewrite ?E1, ?E2 in *; try done.
  - intros x. rewrite !elem_of_app, list_elem_of_singleton, elem_of_unlink. intros Hx.
    destruct (decide (x = l)) as [->|]; [by eexists|]. apply Hal. rewrite !elem_of_app. tauto.
  - intros x y kx ky. rewrite !elem_of_app, !list_elem_of_singleton.
    intros [Hx| ->] [Hy| ->] Hkx Hky E; simplify_eq; [by eapply Hsi|..|done].
    + by destruct (Hnew x kx).
    + by destruct (Hnew y ky).
  - intros x kx fi Hkx Hf Hox. unfold fi_ok; cbn. rewrite E1, E2.
    assert (x ≠ l) by congruence.
    assert (o ≠ Some x) as Hox' by (destruct Ho; congruence). specialize (Hfi x kx fi Hkx Hf Hox').
    unfold fi_ok in Hfi. destruct (fi_state fi); rewrite ?elem_of_app, ?elem_of_unlink; tauto.
  - intros Hzz x kx. rewrite !elem_of_app, list_elem_of_singleton.
    intros [[Hx| ->]|Hx] Hkx; [apply (Hz Hzz x); [|done]|congruence|apply (Hz Hzz x); [|done]];
      rewrite elem_of_app; tauto.
Qed.

(** A new connection. *)
Definition v_new (l : loc) (k : ckey) (p : loc) (v : cview) : cview :=
  CView (<[l := k]> (vc v)) (vl_conn v ++ [l]) (vl_cl v) (vl_bk v) (<[p := l]> (vp v)).

Lemma cinv_new z v l p k fi :
  cinv z None v → vc v !! l = None → vp v !! p = None →
  k_peer k = Some p → k_fi k = Some fi → fi_state fi = CLNTC_ST_INIT → fi_timer fi = None →
  cinv z None (v_new l k p v).
Proof.
  intros [Hnd Hal Hbi Hsi Hfi Hp Hd Hlv Hz] Hl Hpn Hkp Hkf Hst Htm.
  assert (∀ x, x ∈ vl_conn v ++ vl_cl v ++ vl_bk v → x ≠ l) as Hne.
  { intros x Hx ->. destruct (Hal l Hx). congruence. }
  assert (∀ x, x ∈ vl_cl v → x ≠ l) as Hnc by (intros; apply Hne; rewrite !elem_of_app; auto).
  assert (∀ x, x ∈ vl_bk v → x ≠ l) as Hnb by (intros; apply Hne; rewrite !elem_of_app; auto).
  split; cbn.
  - rewrite <-app_assoc. refine (proj2 (NoDup_Permutation_proper _ _ _) _).
    { cbn. symmetry. apply Permutation_middle. }
    apply NoDup_cons. split; [|done]. intros Hx. by destruct (Hne l).
  - intros x Hx. destruct (decide (x = l)) as [->|Hxl]; simplify_map_eq; [by eexists|].
    apply Hal. rewrite !elem_of_app, list_elem_of_singleton in *. tauto.
  - intros x y kx ky Hx Hy. rewrite !lookup_insert_ne by (apply not_eq_sym; auto). by apply Hbi.
  - intros x y kx ky Hx Hy. rewrite !lookup_insert_ne by (apply not_eq_sym; auto). by apply Hsi.
  - intros x kx f Hkx Hf Hox. unfold fi_ok; cbn.
    destruct (decide (x = l)) as [->|Hxl]; simplify_map_eq.
    { rewrite Hst, elem_of_app, list_elem_of_singleton. auto. }
    specialize (Hfi x kx f Hkx Hf Hox). unfold fi_ok in Hfi.
    destruct (fi_state f); rewrite ?elem_of_app; tauto.
  - intros x kx q Hkx Hq Hfx. destruct (decide (x = l)) as [->|Hxl]; simplify_map_eq; [done|].
    rewrite lookup_insert_ne; [eauto|]. intros <-. specialize (Hp x kx p Hkx Hq Hfx). congruence.
  - intros q x Hq. destruct (decide (q = p)) as [->|Hqp]; simplify_map_eq; [eauto 10|].
    destruct (Hd q x Hq) as (kx & Hkx & ?). exists kx. split; [|done].
    rewrite lookup_insert_ne; [done|]. intros <-. congruence.
  - intros x kx Hkx Hf. destruct (decide (x = l)) as [->|Hxl]; simplify_map_eq; eauto.
  - intros Hzz x kx Hx Hkx. rewrite lookup_insert_ne in Hkx; [by eapply Hz|].
    intros <-. apply (Hne l); [rewrite !elem_of_app in *; tauto|done].
Qed.

(** A connection that is in no list and has no machine is of no account. *)
Lemma cinv_leak z o v l k :
  cinv z o v → vc v !! l = None → k_fi k = None → cinv z o (v_set l k v).
Proof.
  intros [Hnd Hal Hbi Hsi Hfi Hp Hd Hlv Hz] Hl Hk.
  assert (∀ x, x ∈ vl_conn v ++ vl_cl v ++ vl_bk v → <[l := k]> (vc v) !! x = vc v !! x) as Hne.
  { intros x Hx. apply lookup_insert_ne. intros <-. destruct (Hal l Hx). congruence. }
  assert (∀ x kx, <[l := k]> (vc v) !! x = Some kx → is_Some (k_fi kx) → vc v !! x = Some kx)
    as Hold.
  { intros x kx [[<- <-]|[? ?]]%lookup_insert_Some [f Hf]; [congruence|done]. }
  assert (∀ x, x ∈ vl_cl v → <[l := k]> (vc v) !! x = vc v !! x) as Hcl
    by (intros; apply Hne; rewrite !elem_of_app; auto).
  assert (∀ x, x ∈ vl_bk v → <[l := k]> (vc v) !! x = vc v !! x) as Hbk
    by (intros; apply Hne; rewrite !elem_of_app; auto).
  split; cbn; [done|..].
  - intros x Hx. rewrite Hne by done. by apply Hal.
  - intros x y kx ky Hx Hy. rewrite !Hbk by done. by apply Hbi.
  - intros x y kx ky Hx Hy. rewrite !Hcl by done. by apply Hsi.
  - intros x kx f Hkx Hf Ho. apply (Hfi x kx f); [by apply Hold; [|eexists]|done..].
  - intros x kx q Hkx Hq Hf. by apply (Hp x kx); [apply Hold|..].
  - intros q x Hq. destruct (Hd q x Hq) as (kx & Hkx & ?). exists kx. split; [|done].
    rewrite lookup_insert_ne; [done|]. intros <-. congruence.
  - intros x kx Hkx Hf. apply (Hlv x kx); [by apply Hold|done].
  - intros Hzz x kx Hx. rewrite Hne by (rewrite !elem_of_app in *; tauto). by apply Hz.
Qed.

(** Termination of a machine whose connection still has its socket: the socket
    is destroyed and the connection stays in its list without either. *)
Definition v_zombie (l p : loc) (k : ckey) (v : cview) : cview :=
  CView (<[l := CKey None None (k_bank k) (k_slot k)]> (vc v))
    (vl_conn v) (vl_cl v) (vl_bk v) (delete p (vp v)).

Lemma cinv_zombie z z' o v l p k :
  cinv z o v → vc v !! l = Some k → k_peer k = Some p → vp v !! p = Some l →
  (o = None ∨ o = Some l) → (z' → z ∧ (l ∉ vl_cl v ++ vl_bk v)) →
  cinv z' None (v_zombie l p k v).
Proof.
  intros [Hnd Hal Hbi Hsi Hfi Hp Hd Hlv Hz] Hk Hkp Hvp Ho Hz'. split; cbn.
  - done.
  - intros x Hx. destruct (decide (x = l)) as [->|]; simplify_map_eq; eauto.
  - intros x y kx ky Hx Hy Hkx Hky E.
    assert (∀ w kw, <[l:=CKey None None (k_bank k) (k_slot k)]> (vc v) !! w = Some kw →
      ∃ kw', vc v !! w = Some kw' ∧ k_bank kw = k_bank kw') as Hold.
    { intros w kw Hkw. destruct (decide (w = l)) as [->|]; simplify_map_eq; eauto. }
    destruct (Hold x kx) as (kx' & ? & E1), (Hold y ky) as (ky' & ? & E2); [done..|].
    apply (Hbi x y kx' ky'); [done..|congruence].
  - intros x y kx ky Hx Hy Hkx Hky E.
    assert (∀ w kw, <[l:=CKey None None (k_bank k) (k_slot k)]> (vc v) !! w = Some kw →
      ∃ kw', vc v !! w = Some kw' ∧ k_slot kw = k_slot kw') as Hold.
    { intros w kw Hkw. destruct (decide (w = l)) as [->|]; simplify_map_eq; eauto. }
    destruct (Hold x kx) as (kx' & ? & E1), (Hold y ky) as (ky' & ? & E2); [done..|].
    apply (Hsi x y kx' ky'); [done..|congruence].
  - intros x kx f Hkx Hf _. destruct (decide (x = l)) as [->|]; simplify_map_eq.
    apply (Hfi x kx f); [done..|]. destruct Ho; congruence.
  - intros x kx q Hkx Hq Hfx. destruct (decide (x = l)) as [->|]; simplify_map_eq.
    rewrite lookup_delete_ne; [eauto|]. intros <-. pose proof (Hp x kx p Hkx Hq Hfx). congruence.
  - intros q x [Hqp Hq]%lookup_delete_Some. destruct (Hd q x Hq) as (kx & Hkx & Hkq & ?).
    exists kx. split; [|done]. rewrite lookup_insert_ne; [done|]. intros <-. congruence.
  - intros x kx Hkx Hf. destruct (decide (x = l)) as [->|]; simplify_map_eq; [|eauto].
    by destruct Hf.
  - intros [Hzz Hlz]%Hz' x kx Hx Hkx. rewrite lookup_insert_ne in Hkx; [by eapply Hz|].
    by intros <-.
Qed.

(** Removal of a connection. *)
Definition v_free (l p : loc) (v : cview) : cview :=
  CView (delete l (vc v)) (unlink l (vl_conn v)) (unlink l (vl_cl v)) (unlink l (vl_bk v))
    (delete p (vp v)).

Lemma cinv_free z o v l p k :
  cinv z o v → vc v !! l = Some k → k_peer k = Some p → vp v !! p = Some l →
  (o = None ∨ o = Some l) → cinv z None (v_free l p v).
Proof.
  intros [Hnd Hal Hbi Hsi Hfi Hp Hd Hlv Hz] Hk Hkp Hvp Ho. split; cbn.
  - eapply sublist_NoDup; [exact Hnd|].
    repeat apply sublist_app; apply unlink_sublist.
  - intros x. rewrite !elem_of_app, !elem_of_unlink. intros Hx.
    rewrite lookup_delete_ne by (intros ->; tauto). apply Hal. rewrite !elem_of_app. tauto.
  - intros x y kx ky [? Hx]%elem_of_unlink [? Hy]%elem_of_unlink.
    rewrite !lookup_delete_ne by done. by apply Hbi.
  - intros x y kx ky [? Hx]%elem_of_unlink [? Hy]%elem_of_unlink.
    rewrite !lookup_delete_ne by done. by apply Hsi.
  - intros x kx f [Hxl Hkx]%lookup_delete_Some Hf _.
    assert (o ≠ Some x) as Hox by (destruct Ho; congruence). apply not_eq_sym in Hxl.
    specialize (Hfi x kx f Hkx Hf Hox). unfold fi_ok in *; cbn.
    destruct (fi_state f); rewrite ?elem_of_unlink; tauto.
  - intros x kx q [Hxl Hkx]%lookup_delete_Some Hq Hfx.
    rewrite lookup_delete_ne; [eauto|]. intros <-. pose proof (Hp x kx p Hkx Hq Hfx). congruence.
  - intros q x [Hqp Hq]%lookup_delete_Some. destruct (Hd q x Hq) as (kx & Hkx & Hkq & ?).
    exists kx. split; [|done]. rewrite lookup_delete_ne; [done|]. intros <-. congruence.
  - intros x kx [Hxl Hkx]%lookup_delete_Some. eauto.
  - intros Hzz x kx Hx [Hxl Hkx]%lookup_delete_Some. apply (Hz Hzz x); [|done].
    rewrite elem_of_app, !elem_of_unlink in Hx. rewrite elem_of_app. tauto.
Qed.

(** ** The bank ids *)

Definition id_set (l : loc) (z : option Z) (f : loc → option Z) (x : loc) : option Z :=
  if decide (x = l) then z else f x.

Lemma ids_bank v l k x :
  vc v !! l = Some k → ids (v_bank l v) x = id_set l (Some (k_bank k)) (ids v) x.
Proof.
  intros Hk. unfold ids, id_set; cbn. destruct (decide (x = l)) as [->|Hx].
  - rewrite decide_True, Hk; [done|]. rewrite elem_of_app, list_elem_of_singleton. auto.
  - rewrite (decide_ext _ (x ∈ vl_bk v)); [done|].
    rewrite elem_of_app, list_elem_of_singleton, elem_of_unlink. tauto.
Qed.

Lemma ids_client v l x : l ∉ vl_bk v → ids (v_client l v) x = ids v x.
Proof. intros Hl. unfold ids; cbn. by rewrite unlink_not_in. Qed.

Lemma ids_new v l k p x : vc v !! l = None →
  (∀ y, y ∈ vl_bk v → is_Some (vc v !! y)) → ids (v_new l k p v) x = ids v x.
Proof.
  intros Hl Hal. unfold ids; cbn. case_decide; [|done].
  rewrite lookup_insert_ne; [done|]. intros <-. destruct (Hal l); [done|congruence].
Qed.

Lemma ids_zombie v l p k x : vc v !! l = Some k → ids (v_zombie l p k v) x = ids v x.
Proof.
  intros Hk. unfold ids; cbn. case_decide; [|done].
  destruct (decide (x = l)) as [->|]; simplify_map_eq; done.
Qed.

Lemma ids_free v l p x : ids (v_free l p v) x = id_set l None (ids v) x.
Proof.
  unfold ids, id_set; cbn. destruct (decide (x = l)) as [->|Hx].
  - rewrite decide_False; [done|]. rewrite elem_of_unlink. tauto.
  - rewrite (decide_ext _ (x ∈ vl_bk v)) by (rewrite elem_of_unlink; tauto).
    by rewrite lookup_delete_ne.
Qed.

Lemma ids_inj z o v l l' b :
  cinv z o v → ids v l = Some b → ids v l' = Some b → l = l'.
Proof.
  intros H. unfold ids. do 2 case_decide; try done.
  destruct (vc v !! l) as [k|] eqn:E, (vc v !! l') as [k'|] eqn:E'; cbn; try done.
  intros [= <-] [= Hb]. by eapply (ci_bank_inj z o v H).
Qed.

(** ** Changes of the slot maps *)

Definition inj_ids (ids : loc → option Z) : Prop :=
  ∀ l l' b, ids l = Some b → ids l' = Some b → l = l'.

Lemma relink_lookup x st ho sm y m' :
  heap (relink x st ho sm) !! y = Some m' →
  ∃ m, heap sm !! y = Some m ∧ sm_bank m' = sm_bank m ∧ sm_client m' = sm_client m ∧
    sm_state m' = if decide (y = x) then st else sm_state m.
Proof.
  cbn. rewrite lookup_alter. repeat case_decide; subst; try done.
  - rewrite fmap_Some. intros (m & ? & ->). exists m. done.
  - intros ?. exists m'. done.
Qed.

Section minv.
Context `{PostCalls}.

Lemma pend_relink x st ho sm :
  (∀ y b, (y, b) ∈ pend → (∀ m, heap sm !! y = Some m → sm_bank m = b) ∧
    (undisturbed → y ∈ mappings sm ∧ ∀ h, y ∉ bank_list sm h)) →
  (undisturbed → is_Some ho → x ∉ pend.*1) →
  ∀ y b, (y, b) ∈ pend → (∀ m, heap (relink x st ho sm) !! y = Some m → sm_bank m = b) ∧
    (undisturbed → y ∈ mappings (relink x st ho sm) ∧ ∀ h, y ∉ bank_list (relink x st ho sm) h).
Proof.
  intros Hp Hx y b Hy. destruct (Hp y b Hy) as [Hb Hu]. split.
  - intros m (m' & Hm' & -> & _)%relink_lookup. by apply Hb.
  - intros Hund. destruct (Hu Hund) as [Hg Hn]. split; [done|].
    intros h [[_ Hin]|[-> ->]]%elem_of_bank_list_relink; [by eapply Hn|].
    apply (Hx Hund); [by eexists|]. apply list_elem_of_fmap. by exists (x, b).
Qed.

Lemma minv_relink o ids sm x m l f st :
  minv o ids sm → inj_ids ids → heap sm !! x = Some m →
  ids l = Some (bank_id (sm_bank m)) → st = field_state f →
  (x ∈ mappings sm → listed_state st) → (undisturbed → x ∉ pend.*1) →
  minv o ids (relink x st (Some (l, f)) sm).
Proof.
  intros [Hwf Hl Hg Ha Hli Hr Hp] Hinj Hm Hid Hst Hls Hpx. split.
  - apply wf_relink; [done|by eexists|]. by intros h [= <-].
  - intros l' f' y [[Hy Hin]|[-> [= <- <-]]]%elem_of_bank_list_relink.
    + destruct (Hl l' f' y Hin) as (my & Hmy & Hidy). exists my. split; [|done].
      cbn. by rewrite lookup_alter_ne.
    + exists (set_sm_state st m). cbn. by rewrite lookup_alter_eq, Hm.
  - intros y my Hy (my' & Hmy & _ & _ & ->)%relink_lookup.
    case_decide; [subst; by apply Hls|by eapply Hg].
  - intros y my l' Hy (my' & Hmy & Hb & _)%relink_lookup Hidy Ho Hyp. rewrite Hb in Hidy.
    setoid_rewrite elem_of_bank_list_relink. destruct (decide (y = x)) as [->|Hyx].
    + assert (l' = l) as -> by (eapply Hinj; [exact Hidy|congruence]). eauto.
    + destruct (Ha y my' l' Hy Hmy Hidy Ho Hyp) as [f' Hf']. eauto.
  - intros y my Hy (my' & Hmy & _ & _ & Hs)%relink_lookup Hne.
    setoid_rewrite elem_of_bank_list_relink. case_decide as Hyx; [subst; eauto|].
    rewrite Hs in Hne. destruct (Hli y my' Hy Hmy Hne) as (l' & f' & Hf'). eauto 10.
  - intros y my (my' & Hmy & Hb & Hc & _)%relink_lookup. unfold rest_range.
    rewrite Hb, Hc. by apply (Hr y).
  - by apply pend_relink; [|intros ? _; apply Hpx].
Qed.

(** A mapping that returns to the state NEW while its bankd is busy, or while a
    REST call is going to associate it. *)
Lemma minv_relink_none o ids sm x m :
  minv o ids sm → heap sm !! x = Some m →
  (x ∉ pend.*1 → ∀ l', ids l' = Some (bank_id (sm_bank m)) → o = Some l') →
  minv o ids (relink x SLMAP_S_NEW None sm).
Proof.
  intros [Hwf Hl Hg Ha Hli Hr Hp] Hm Hid. split.
  - apply wf_relink; [done|by eexists|done].
  - intros l' f' y [[Hy Hin]|[-> ?]]%elem_of_bank_list_relink; [|done].
    destruct (Hl l' f' y Hin) as (my & Hmy & Hidy). exists my. split; [|done].
    cbn. by rewrite lookup_alter_ne.
  - intros y my Hy (my' & Hmy & _ & _ & ->)%relink_lookup.
    case_decide; [by left|by eapply Hg].
  - intros y my l' Hy (my' & Hmy & Hb & _)%relink_lookup Hidy Ho Hyp. rewrite Hb in Hidy.
    setoid_rewrite elem_of_bank_list_relink. destruct (decide (y = x)) as [->|Hyx].
    + destruct Ho. apply Hid; [done|congruence].
    + destruct (Ha y my' l' Hy Hmy Hidy Ho Hyp) as [f' Hf']. eauto.
  - intros y my Hy (my' & Hmy & _ & _ & Hs)%relink_lookup Hne.
    setoid_rewrite elem_of_bank_list_relink. case_decide as Hyx; [done|].
    rewrite Hs in Hne. destruct (Hli y my' Hy Hmy Hne) as (l' & f' & Hf'). eauto 10.
  - intros y my (my' & Hmy & Hb & Hc & _)%relink_lookup. unfold rest_range.
    rewrite Hb, Hc. by apply (Hr y).
  - apply pend_relink; [done|]. by intros _ [].
Qed.

Lemma minv_free o ids sm x :
  minv o ids sm → (undisturbed → x ∉ pend.*1) → minv o ids (free_map x sm).
Proof.
  intros [Hwf Hl Hg Ha Hli Hr Hp] Hpx. split.
  - by apply wf_free_map.
  - intros l f y. rewrite bank_list_free_map. intros [Hy Hin]%elem_of_unlink. cbn.
    rewrite lookup_delete_ne by done. by apply (Hl l f).
  - cbn. intros y m [Hy ?]%elem_of_unlink. rewrite lookup_delete_ne by done. eauto.
  - cbn. intros y m l [Hy ?]%elem_of_unlink. rewrite lookup_delete_ne by done.
    intros Hm Hid Ho Hyp. destruct (Ha y m l) as [f Hf]; [done..|]. exists f.
    rewrite bank_list_free_map. by apply elem_of_unlink.
  - cbn. intros y m [Hy ?]%elem_of_unlink. rewrite lookup_delete_ne by done.
    intros Hm Hne. destruct (Hli y m) as (l & f & Hf); [done..|]. exists l, f.
    rewrite bank_list_free_map. by apply elem_of_unlink.
  - cbn. intros y m [_ Hm]%lookup_delete_Some. eauto.
  - intros y b Hy. destruct (Hp y b Hy) as [Hb Hu]. cbn. split.
    + intros m [_ Hm]%lookup_delete_Some. by apply Hb.
    + intros Hund. destruct (Hu Hund) as [Hgl Hn]. split.
      * apply elem_of_unlink. split; [|done]. intros ->. apply (Hpx Hund), list_elem_of_fmap. by exists (x, b).
      * intros h. rewrite bank_list_free_map. intros [_ Hin]%elem_of_unlink. by eapply Hn.
Qed.

Lemma wf_unlink_global sm x : slotmaps_wf sm → slotmaps_wf (unlink_global x sm).
Proof.
  intros [Hal Hnd Hb Hc Hlnd Hls Hld]. split; cbn; try done.
  - intros y [_ Hy]%elem_of_unlink. by apply Hal.
  - by apply NoDup_unlink.
  - eapply NoDup_fmap_sublist; [apply omap_sublist, unlink_sublist|exact Hb].
  - eapply NoDup_fmap_sublist; [apply omap_sublist, unlink_sublist|exact Hc].
Qed.

Lemma minv_unlink_global o ids sm x :
  minv o ids sm → (undisturbed → x ∉ pend.*1) → minv o ids (unlink_global x sm).
Proof.
  intros [Hwf Hl Hg Ha Hli Hr Hp] Hpx. split; cbn; [by apply wf_unlink_global|done|..|done|].
  - intros y m [_ Hy]%elem_of_unlink. eauto.
  - intros y m l [_ Hy]%elem_of_unlink. by apply Ha.
  - intros y m [_ Hy]%elem_of_unlink. by apply Hli.
  - intros y b Hy. destruct (Hp y b Hy) as [Hbk Hu]. split; [done|]. intros Hund.
    destruct (Hu Hund) as [Hgl Hn]. split; [|done]. apply elem_of_unlink. split; [|done].
    intros ->. apply (Hpx Hund), list_elem_of_fmap. by exists (x, b).
Qed.

Lemma minv_busy ids sm l : minv None ids sm → minv (Some l) ids sm.
Proof. intros [Hwf Hl Hg Ha Hli Hr Hp]. split; eauto. Qed.

Lemma minv_unbusy ids sm l :
  minv (Some l) ids sm →
  (∀ x m, x ∈ mappings sm → heap sm !! x = Some m → ids l = Some (bank_id (sm_bank m)) →
    x ∉ pend.*1 → ∃ f, x ∈ bank_list sm (l, f)) →
  minv None ids sm.
Proof.
  intros [Hwf Hl Hg Ha Hli Hr Hp] Hass. split; [done..| |done|done|done].
  intros x m l' Hx Hm Hid _ Hxp. destruct (decide (l' = l)) as [->|Hne]; [eauto|].
  eapply Ha; [done..|congruence|done].
Qed.

Lemma minv_id_add ids sm l b :
  minv None ids sm → ids l = None → minv (Some l) (id_set l (Some b) ids) sm.
Proof.
  intros [Hwf Hl Hg Ha Hli Hr Hp] Hnone. split; [done| |done| |done|done|done].
  - intros l' f x Hx. destruct (Hl l' f x Hx) as (m & Hm & Hid). exists m. split; [done|].
    unfold id_set. rewrite decide_False; [done|]. congruence.
  - intros x m l' Hx Hm Hid Ho Hxp. unfold id_set in Hid.
    rewrite decide_False in Hid by congruence. eauto.
Qed.

Lemma minv_id_del ids sm l :
  minv (Some l) ids sm → (∀ f, bank_list sm (l, f) = []) → minv None (id_set l None ids) sm.
Proof.
  intros [Hwf Hl Hg Ha Hli Hr Hp] Hnil. split; [done| |done| |done|done|done].
  - intros l' f x Hx. destruct (decide (l' = l)) as [->|Hne].
    { rewrite Hnil in Hx. by apply elem_of_nil in Hx. }
    unfold id_set. rewrite decide_False by done. eauto.
  - intros x m l' Hx Hm Hid _ Hxp. unfold id_set in Hid. case_decide; [done|].
    eapply Ha; [done..|congruence|done].
Qed.

Lemma minv_lists_nil o ids sm l f : minv o ids sm → ids l = None → bank_list sm (l, f) = [].
Proof.
  intros Hm Hid. destruct (bank_list sm (l, f)) as [|x k] eqn:E; [done|].
  destruct (mi_list _ _ _ Hm l f x) as (m & _ & Hx); [rewrite E; left|congruence].
Qed.

(** A mapping in a list is not that of a REST call under way. *)
Lemma listed_not_pending o ids sm x h :
  minv o ids sm → x ∈ bank_list sm h → undisturbed → x ∉ pend.*1.
Proof.
  intros Hm Hx Hund ([y b] & -> & Hy)%list_elem_of_fmap.
  destruct (mi_pend _ _ _ Hm y b Hy) as [_ Hu]. by eapply (proj2 (Hu Hund)).
Qed.
End minv.

(** ** A REST call that adds a mapping

    The calls under way, with one more and with one less. *)

Definition pend_add (x : loc) (b : bank_slot) (P : PostCalls) : PostCalls :=
  {| pend := @pend P ++ [(x, b)]; undisturbed := @undisturbed P |}.

Lemma minv_link_new (P : PostCalls) ids sm x b c :
  minv None ids sm → heap sm !! x = None →
  b ∉ (sm_bank <$> entries sm) → c ∉ (sm_client <$> entries sm) →
  rest_range (SlotMapping b c SLMAP_S_NEW) → x ∉ pend.*1 →
  minv (H := pend_add x b P) None ids (link_new x b c sm).
Proof.
  intros [Hwf Hl Hg Ha Hli Hr Hp] Hx Hb Hc Hbc Hxp.
  assert (∀ y m, y ∈ mappings sm ++ [x] → <[x:=SlotMapping b c SLMAP_S_NEW]> (heap sm) !! y = Some m →
    (y = x ∧ m = SlotMapping b c SLMAP_S_NEW) ∨ (y ≠ x ∧ y ∈ mappings sm ∧ heap sm !! y = Some m)) as Hcase.
  { intros y m Hy [[<- <-]|[? ?]]%lookup_insert_Some; [by left|right].
    rewrite elem_of_app, list_elem_of_singleton in Hy.
    assert (y ≠ x) by congruence. tauto. }
  assert (∀ h, x ∉ bank_list sm h) as Hxn.
  { intros [l f] Hin. destruct (Hl l f x Hin) as (m & Hm & _). congruence. }
  split.
  - by apply wf_link_new.
  - intros l f y Hin. destruct (Hl l f y Hin) as (m & Hm & Hid). exists m. split; [|done].
    cbn. rewrite lookup_insert_ne; [done|]. intros <-. congruence.
  - intros y m Hy Hm. destruct (Hcase y m Hy Hm) as [[-> ->]|(_ & ? & ?)]; [by left|eauto].
  - cbn [pend pend_add]. intros y m l Hy Hm Hid Hol Hyp. rewrite fmap_app, elem_of_app in Hyp. cbn in Hyp.
    rewrite list_elem_of_singleton in Hyp. destruct (Hcase y m Hy Hm) as [[-> ->]|(_ & Hy' & Hm')]; [tauto|].
    destruct (Ha y m l) as [f Hf]; [done..|tauto|]. by exists f.
  - intros y m Hy Hm Hne. destruct (Hcase y m Hy Hm) as [[-> ->]|(_ & Hy' & Hm')]; [done|].
    destruct (Hli y m) as (l & f & Hf); [done..|]. by exists l, f.
  - cbn. intros y m [[<- <-]|[? ?]]%lookup_insert_Some; [done|eauto].
  - cbn [pend pend_add undisturbed]. intros y b' [Hy|[= -> ->]%list_elem_of_singleton]%elem_of_app.
    + destruct (Hp y b' Hy) as [Hb' Hu]. assert (x ≠ y) as Hne.
      { intros <-. apply Hxp, list_elem_of_fmap. by exists (x, b'). }
      cbn. split; [by rewrite lookup_insert_ne|]. intros Hund. destruct (Hu Hund) as [? Hn].
      split; [by apply elem_of_app; left|done].
    + cbn. split; [intros m; rewrite lookup_insert_eq; by intros [= <-]|].
      intros _. split; [by apply elem_of_app; right; left|done].
Qed.

(** Calls that have nothing left to do are forgotten. *)
Lemma minv_fewer (P P' : PostCalls) ids sm :
  minv (H := P) None ids sm → (@undisturbed P' → @undisturbed P) → (∀ q, q ∈ @pend P' → q ∈ @pend P) →
  (∀ x b m l, (x, b) ∈ @pend P → x ∉ (@pend P').*1 → x ∈ mappings sm → heap sm !! x = Some m →
     ids l = Some (bank_id (sm_bank m)) → ∃ f, x ∈ bank_list sm (l, f)) →
  minv (H := P') None ids sm.
Proof.
  intros [Hwf Hl Hg Ha Hli Hr Hp] Hund Hsub Hgone. split; [done..| |done|done|].
  - intros x m l Hx Hm Hid _ Hxp. destruct (decide (x ∈ (@pend P).*1)) as [([y b] & -> & Hy)%list_elem_of_fmap|Hn].
    + by eapply Hgone.
    + by eapply Ha.
  - intros x b Hx. destruct (Hp x b (Hsub _ Hx)) as [? Hu]. split; [done|]. intros Hu'. by apply Hu, Hund.
Qed.

(** ** Rules for the primitives of [RsproServer] *)

Section rules.
Context `{OsmoLib, Talloc, RsproCodec, IpaLib}.
Context {E : abort → Prop}.

Lemma wp_conn_at l c s Q : conns s !! l = Some c → Q c s → wpe E (conn_at l) s Q.
Proof. intros Hc HQ. unfold conn_at. apply wp_bind, wp_gets. by rewrite Hc. Qed.

Lemma alter_insert_Some {A} (f : A → A) (m : gmap loc A) l c :
  m !! l = Some c → alter f l m = <[l := f c]> m.
Proof.
  intros Hc. apply map_eq. intros x. destruct (decide (l = x)) as [->|].
  - by rewrite lookup_alter_eq, lookup_insert_eq, Hc.
  - by rewrite lookup_alter_ne, lookup_insert_ne.
Qed.

Lemma wp_conn_upd l f c s Q :
  conns s !! l = Some c → Q () (set_conns (<[l := f c]> (conns s)) s) →
  wpe E (conn_upd l f) s Q.
Proof.
  intros Hc HQ. unfold conn_upd. apply wp_bind, (wp_conn_at _ c); [done|]. apply wp_modify.
  by rewrite (alter_insert_Some _ _ _ c).
Qed.

Lemma wp_find_conn P k s :
  (∀ l, l ∈ k → is_Some (conns s !! l)) →
  wpe E (find_conn P k) s (λ r s', s' = s ∧
    match r with
    | Some l => l ∈ k ∧ ∃ c, conns s !! l = Some c ∧ P c = true
    | None => ∀ l c, l ∈ k → conns s !! l = Some c → P c = false
    end).
Proof.
  induction k as [|x k IH]; intros Hk; cbn [find_conn].
  { apply wp_ret. split; [done|]. by intros ?? []%elem_of_nil. }
  destruct (Hk x) as [c Hc]; [left|]. apply wp_bind, (wp_conn_at _ c); [done|].
  destruct (P c) eqn:HP.
  { apply wp_ret. split; [done|]. split; [left|eauto]. }
  eapply wp_mono; [apply IH; intros; apply Hk; by right|].
  intros r s' [-> Hr]. split; [done|]. destruct r as [y|].
  - destruct Hr. split; [by right|done].
  - intros y c' [->|Hy]%elem_of_cons ?; [congruence|eauto].
Qed.

(** Sending: the socket must be there if the message can be encoded. *)
Lemma wp_send l pdu c s Q :
  conns s !! l = Some c → (conn_peer c = None → E AUndef) →
  (∀ t, Q () (set_sent t s)) → wpe E (client_conn_send l pdu) s Q.
Proof.
  intros Hc Hp HQ. unfold client_conn_send. apply wp_bind, (wp_conn_at _ c); [done|].
  destruct (rspro_enc_msg pdu); [|apply wp_ret; destruct s; apply (HQ _)].
  unfold osmo_stream_srv_send. wp_steps; [auto|]. apply HQ.
Qed.

(** ** Rules for the state machines *)

Abbreviation calls n := (calls_of (remsim_server_client_fsm n)).

Lemma wp_fi_dispatch n l e d s c Q :
  conns s !! l = Some c →
  wpe E (match conn_fi c with
         | None => mret (- ENODEV)
         | Some fi =>
             if Z.testbit (allstate_event_mask (build_fsm (calls n) l)) (enum e) then
               clnt_allstate_action (calls n) l e d ;; mret 0
             else if Z.testbit (in_event_mask (server_client_fsm_states (calls n) l (fi_state fi))) (enum e)
             then action (server_client_fsm_states (calls n) l (fi_state fi)) e d ;; mret 0
             else mret (- 1)
         end) s Q →
  wpe E (fi_dispatch (calls (S n)) l e d) s Q.
Proof.
  intros Hc HQ. eapply wp_eq; [apply dispatch_eq|]. unfold ref_dispatch.
  apply wp_bind, wp_gets. cbn [fi_get conn_ref]. rewrite Hc. exact HQ.
Qed.

Lemma wp_conn_dispatch n l e d s c Q :
  conns s !! l = Some c → wpe E (fi_dispatch (calls n) l e d) s Q →
  wpe E (conn_dispatch (calls n) l e d) s Q.
Proof. intros Hc HQ. by apply wp_bind, (wp_conn_at _ c). Qed.

Lemma set_conns_twice a b s : set_conns a (set_conns b s) = set_conns a s.
Proof. done. Qed.

Lemma wp_fi_update l f c fi s Q :
  conns s !! l = Some c → conn_fi c = Some fi →
  Q () (set_conns (<[l := set_conn_fi (Some (f fi)) c]> (conns s)) s) →
  wpe E (fi_update (conn_ref l) f) s Q.
Proof.
  intros Hc Hfi HQ. unfold fi_update. apply wp_bind, wp_gets. cbn [fi_get conn_ref].
  rewrite Hc. cbn. rewrite Hfi. apply wp_bind, wp_ret, wp_modify. cbn [fi_set conn_ref].
  by rewrite (alter_insert_Some _ _ _ c).
Qed.

(** A permitted state change; no state of these machines has an [onleave]. *)
Lemma wp_fi_state_chg n l new secs T c fi s Q :
  conns s !! l = Some c → conn_fi c = Some fi →
  Z.testbit (out_state_mask (server_client_fsm_states (calls n) l (fi_state fi))) (enum new) = true →
  wpe E (onenter (server_client_fsm_states (calls n) l new) (fi_state fi) ;; mret 0)
    (set_conns (<[l := set_conn_fi (Some (fi_enter new (1000 * secs) T fi)) c]> (conns s)) s) Q →
  wpe E (fi_state_chg (calls (S n)) l new secs T) s Q.
Proof.
  intros Hc Hfi Hm HQ. cbn [fi_state_chg calls_of]. unfold osmo_fsm_inst_state_chg.
  eapply wp_eq; [apply state_chg_eq|]. unfold ref_state_chg.
  apply wp_bind, wp_gets. cbn [fi_get conn_ref]. rewrite Hc. cbn [mbind option_bind].
  rewrite Hfi. apply wp_bind, wp_ret. cbn [remsim_server_client_fsm]. unfold build_fsm at 1.
  cbn [states]. rewrite Hm. apply wp_bind, (wp_fi_update _ _ c fi); [done..|].
  apply wp_bind. cbn [build_fsm states].
  replace (onleave (server_client_fsm_states (calls n) l (fi_state fi)) new) with (mret () : M rspro_server ())
    by (by destruct (fi_state fi)).
  apply wp_ret, wp_bind. eapply wp_fi_update; [cbn; by rewrite lookup_insert_eq|done|].
  rewrite set_conns_twice. cbn [conns set_conns]. rewrite insert_insert_eq. exact HQ.
Qed.

Lemma wp_fi_term n l s Q :
  wpe E (server_client_cleanup (calls n) l)
    s (λ _ s', Q () (set_conns (alter (set_conn_fi None) l (conns s')) s')) →
  wpe E (fi_term (calls (S n)) l) s Q.
Proof.
  intros HQ. eapply wp_eq; [apply term_runs_cleanup|]. apply wp_bind.
  eapply wp_mono; [exact HQ|]. intros [] s' HQ'. by apply wp_modify.
Qed.
End rules.

(** ** Rules for the handlers *)

(** States that agree on what the invariant is about. *)
Definition same (s s' : rspro_server) : Prop :=
  view s' = view s ∧ srv_slotmaps s' = srv_slotmaps s.

Lemma same_refl s : same s s.
Proof. done. Qed.

Lemma same_trans s s' s'' : same s s' → same s' s'' → same s s''.
Proof. intros [E1 E2] [E3 E4]. split; congruence. Qed.

Lemma same_inv `{PostCalls} z o s s' : same s s' → srv_inv z o s → srv_inv z o s'.
Proof. unfold srv_inv. by intros [-> ->]. Qed.

Lemma same_upd l c c' s :
  conns s !! l = Some c → key c' = key c → same s (set_conns (<[l := c']> (conns s)) s).
Proof.
  intros Hc Hk. split; [|done]. rewrite view_insert, Hk. unfold v_set, view; cbn. f_equal.
  apply insert_id. by rewrite lookup_fmap, Hc.
Qed.

Lemma same_sent t s : same s (set_sent t s).
Proof. done. Qed.

(** Looking a connection up in either state yields the same key. *)
Lemma same_lookup s s' l c :
  same s s' → conns s !! l = Some c → ∃ c', conns s' !! l = Some c' ∧ key c' = key c.
Proof.
  intros [Hv _] Hc. apply view_lookup_inv. rewrite Hv. by apply view_lookup.
Qed.

Section handlers.
Context `{OsmoLib, Talloc, RsproCodec, IpaLib, PostCalls}.
Context {E : abort → Prop} {z : Prop} (HE : z ∨ E AUndef).
Abbreviation calls n := (calls_of (remsim_server_client_fsm n)).

Lemma inv_alive o s l :
  srv_inv z o s → l ∈ clients s ∨ l ∈ banks s → ∃ c, conns s !! l = Some c.
Proof.
  intros [Hc _] Hl. destruct (ci_alive _ _ _ Hc l) as [k Hk].
  { cbn. rewrite !elem_of_app. clear HE. tauto. }
  apply view_lookup_inv in Hk as (c & ? & _). eauto.
Qed.

Lemma inv_peer o s l c :
  srv_inv z o s → l ∈ clients s ∨ l ∈ banks s → conns s !! l = Some c →
  conn_peer c = None → E AUndef.
Proof using HE.
  intros [Hc _] Hl Hlc Hp. destruct HE as [Hz|]; [|done].
  destruct (ci_zombie _ _ _ Hc Hz l (key c)) as [? ?]; [|by apply view_lookup|cbn in *; congruence].
  cbn. by rewrite elem_of_app.
Qed.

(** A connection with a machine has its socket. *)
Lemma inv_live o s l c :
  srv_inv z o s → conns s !! l = Some c → is_Some (conn_fi c) → conn_peer c = None → E AUndef.
Proof.
  intros [Hc _] Hlc Hf Hp. destruct (ci_live _ _ _ Hc l (key c)) as [? Hx]; [by apply view_lookup|done|].
  cbn in Hx. congruence.
Qed.

(** The event that sends a client its configuration. *)
Lemma wp_cfg_bankd n l s c Q :
  conns s !! l = Some c → (is_Some (conn_fi c) → conn_peer c = None → E AUndef) →
  (∀ r t, Q r (set_sent t s)) →
  wpe E (conn_dispatch (calls (S n)) l CLNTC_E_CL_CFG_BANKD None) s Q.
Proof.
  intros Hc Hp HQ. apply (wp_conn_dispatch _ _ _ _ _ c); [done|].
  apply (wp_fi_dispatch _ _ _ _ _ c); [done|].
  assert (∀ r, Q r s) as HQ' by (intros r; destruct s; apply (HQ r)).
  destruct (conn_fi c) as [fi|] eqn:Hf; [|by apply wp_ret].
  destruct (fi_state fi) eqn:Hst; cbn -[client_conn_send]; try (by apply wp_ret).
  apply wp_bind, wp_bind, (wp_conn_at _ c); [done|]. eapply wp_send; [done|by eauto|].
  intros t. by apply wp_ret.
Qed.

Lemma wp_client_by_slot o s cs :
  srv_inv z o s →
  wpe E (client_conn_by_slot cs) s (λ r s', s' = s ∧
    match r with
    | Some l => l ∈ clients s ∧ ∃ c, conns s !! l = Some c ∧ conn_client_slot c = cs
    | None => ∀ l c, l ∈ clients s → conns s !! l = Some c → conn_client_slot c ≠ cs
    end).
Proof.
  intros Hinv. apply wp_bind, wp_gets.
  eapply wp_mono; [apply wp_find_conn; intros; eapply inv_alive; eauto|].
  intros r s' [-> Hr]. split; [done|]. destruct r as [l|].
  - destruct Hr as (Hl & c & Hc & Heq%client_slot_equals_eq). eauto.
  - intros l c Hl Hc Heq%client_slot_equals_eq. specialize (Hr l c Hl Hc). congruence.
Qed.

Lemma wp_bankd_by_id o s id :
  srv_inv z o s →
  wpe E (bankd_conn_by_id id) s (λ r s', s' = s ∧
    match r with
    | Some l => l ∈ banks s ∧ ∃ c, conns s !! l = Some c ∧ conn_bank_id c = id
    | None => ∀ l c, l ∈ banks s → conns s !! l = Some c → conn_bank_id c ≠ id
    end).
Proof.
  intros Hinv. apply wp_bind, wp_gets.
  eapply wp_mono; [apply wp_find_conn; intros; eapply inv_alive; eauto|].
  intros r s' [-> Hr]. split; [done|]. destruct r as [l|].
  - destruct Hr as (Hl & c & Hc & Heq%Z.eqb_eq). eauto.
  - intros l c Hl Hc Heq%Z.eqb_eq. specialize (Hr l c Hl Hc). congruence.
Qed.

Lemma wp_bankd_addr o s m b :
  srv_inv z o s → (∀ l, b = Some l → l ∈ banks s) →
  wpe E (bankd_addr m b) s (λ _ s', s' = s).
Proof using HE.
  intros Hinv Hb. unfold bankd_addr. destruct b as [l|]; [|by apply wp_ret].
  case_decide; [by apply wp_ret|]. specialize (Hb l eq_refl).
  destruct (inv_alive o s l) as [c Hc]; [done|by right|].
  apply wp_bind, (wp_conn_at _ c); [done|]. apply wp_bind. unfold osmo_stream_srv_get_fd.
  wp_steps; [|done]. eapply inv_peer; eauto.
Qed.

(** Updating the configuration of the client of a mapping changes nothing the
    invariant is about. *)
Lemma wp_update_client n o s x m b (Q : () → rspro_server → Prop) :
  srv_inv z o s → heap (srv_slotmaps s) !! x = Some m →
  (∀ l, b = Some l → l ∈ banks s) → (∀ s', same s s' → Q () s') →
  wpe E (_update_client_for_slotmap (calls (S n)) x b) s Q.
Proof using HE.
  intros Hinv Hm Hb HQ. unfold _update_client_for_slotmap.
  apply wp_bind, wp_zoom, (wp_map_at _ _ m); [done|].
  replace (set_srv_slotmaps (srv_slotmaps s) s) with s by (by destruct s).
  apply wp_bind. eapply wp_mono; [by eapply wp_client_by_slot|].
  intros r s' [-> Hr]. destruct r as [cl|]; [|apply wp_ret, HQ, same_refl].
  destruct Hr as (Hcl & c & Hc & _). apply wp_bind, (wp_conn_at _ c); [done|].
  set (ch := negb (bank_slot_equals _ _)).
  assert (∃ s1 c1, same s s1 ∧ conns s1 !! cl = Some c1 ∧ ∀ Q',
    Q' () s1 → wpe E (when ch (conn_upd cl (set_conn_bankd_slot (sm_bank m)))) s Q')
    as (s1 & c1 & Hs1 & Hc1 & Hwp).
  { destruct ch.
    - eexists _, _. split; [by apply (same_upd cl c (set_conn_bankd_slot (sm_bank m) c))|].
      split; [by apply lookup_insert_eq|]. intros Q' HQ'. by eapply wp_conn_upd.
    - exists s, c. split; [apply same_refl|]. split; [done|]. intros Q' HQ'. by apply wp_ret. }
  apply wp_bind, Hwp. clear Hwp. assert (srv_inv z o s1) as Hinv1 by (by eapply same_inv).
  assert (banks s1 = banks s) as Hbk1 by (destruct Hs1 as [Hv _]; by injection Hv).
  apply wp_bind. eapply (wp_mono _ _ (λ r s', s' = s1 ∧ ∀ l, r = Some l → l ∈ banks s1)).
  { destruct b as [l|]; [apply wp_ret; split; [done|]; intros ? [= <-]; rewrite Hbk1; auto|].
    eapply wp_mono; [by eapply wp_bankd_by_id|]. intros r s' [-> Hr]. split; [done|].
    intros l ->. by destruct Hr. }
  intros b' s' [-> Hb']. apply wp_bind. eapply wp_mono; [by eapply wp_bankd_addr|].
  intros addr s' ->. destruct addr as [[a p]|]; [|by apply wp_ret, HQ].
  set (ch2 := negb (conn_bankd_port c =? p) || _).
  assert (∃ s2 c2, same s1 s2 ∧ conns s2 !! cl = Some c2 ∧ ∀ Q',
    Q' () s2 → wpe E (when ch2 (conn_upd cl (set_conn_bankd_addr a p))) s1 Q')
    as (s2 & c2 & Hs2 & Hc2 & Hwp).
  { destruct ch2.
    - eexists _, _. split; [by apply (same_upd cl c1 (set_conn_bankd_addr a p c1))|].
      split; [by apply lookup_insert_eq|]. intros Q' HQ'. by eapply wp_conn_upd.
    - exists s1, c1. split; [apply same_refl|]. split; [done|]. intros Q' HQ'. by apply wp_ret. }
  apply wp_bind, Hwp. clear Hwp. assert (same s s2) as Hss by (by eapply same_trans).
  apply wp_when; [|intros _; by apply HQ]. intros _. apply wp_bind, (wp_cfg_bankd _ _ _ c2); [done| |].
  - intros. eapply (inv_live o s2); [by eapply same_inv|done..].
  - intros r t. by apply wp_ret, HQ.
Qed.

Lemma inv_ids o s l c :
  srv_inv z o s → l ∈ banks s → conns s !! l = Some c → ids (view s) l = Some (conn_bank_id c).
Proof.
  intros _ Hl Hc. unfold ids. rewrite decide_True by done. by rewrite (view_lookup l c).
Qed.

Lemma ids_Some s l b : ids (view s) l = Some b → l ∈ banks s.
Proof. unfold ids. by case_decide. Qed.

(** A mapping in a list of a connected bankd changes state and list. *)
Lemma inv_relink o s x l f f' :
  srv_inv z o s → x ∈ bank_list (srv_slotmaps s) (l, f) →
  (x ∈ mappings (srv_slotmaps s) → listed_state (field_state f')) →
  srv_inv z o (set_srv_slotmaps (relink x (field_state f') (Some (l, f')) (srv_slotmaps s)) s).
Proof.
  intros [Hc Hm] Hx Hls. split; [done|].
  destruct (mi_list _ _ _ Hm l f x Hx) as (m & Hxm & Hid).
  eapply minv_relink; [done| |done..|by eapply listed_not_pending]. intros ???. by eapply ids_inj.
Qed.

(** A mapping in one of the lists of deletion is not in the global list. *)
Lemma inv_not_global o s x l f :
  srv_inv z o s → x ∈ bank_list (srv_slotmaps s) (l, f) → ¬ listed_state (field_state f) →
  x ∉ mappings (srv_slotmaps s).
Proof.
  intros [_ Hm] Hx Hf Hg.
  destruct (wf_list_state _ (mi_wf _ _ _ Hm) _ _ Hx) as (m & Hxm & Hst).
  apply Hf. cbn in Hst. rewrite <-Hst. eapply mi_global; eauto.
Qed.

(** One loop of the push. *)
Lemma wp_push_list o l c from gen to s (Q : () → rspro_server → Prop) :
  srv_inv z o s → conns s !! l = Some c → is_Some (conn_fi c) → from ≠ to →
  (∀ x, x ∈ bank_list (srv_slotmaps s) (l, from) → x ∈ mappings (srv_slotmaps s) →
    listed_state (field_state to)) →
  (∀ s', srv_inv z o s' → view s' = view s →
     mappings (srv_slotmaps s') = mappings (srv_slotmaps s) →
     (∀ h, h ≠ (l, from) → h ≠ (l, to) →
        bank_list (srv_slotmaps s') h = bank_list (srv_slotmaps s) h) → Q () s') →
  wpe E (push_list l from gen (field_state to) to) s Q.
Proof.
  intros Hinv Hc Hf Hne Hls HQ. unfold push_list. apply wp_bind, wp_gets.
  remember (bank_list (srv_slotmaps s) (l, from)) as k eqn:Hk.
  assert (∃ s0, view s0 = view s ∧ mappings (srv_slotmaps s0) = mappings (srv_slotmaps s) ∧
    ∀ h, h ≠ (l, from) → h ≠ (l, to) → bank_list (srv_slotmaps s) h = bank_list (srv_slotmaps s0) h)
    as (s0 & Hv0 & Hm0 & Hb0) by (by exists s).
  assert (∀ s', srv_inv z o s' → view s' = view s0 →
     mappings (srv_slotmaps s') = mappings (srv_slotmaps s0) →
     (∀ h, h ≠ (l, from) → h ≠ (l, to) →
        bank_list (srv_slotmaps s') h = bank_list (srv_slotmaps s0) h) → Q () s') as HQ0.
  { intros s' Hi Hv Hm Hb. apply HQ; [done|congruence..|].
    intros h Hh1 Hh2. by rewrite Hb, Hb0. }
  clear HQ. revert s c Hc Hf Hinv Hk Hls Hv0 Hm0 Hb0.
  induction k as [|x k IH]; intros s c Hc Hf Hinv Hk Hls Hv0 Hm0 Hb0; cbn [for_each].
  { apply wp_ret, HQ0; [done..|]. intros h Hh1 Hh2. by apply Hb0. }
  assert (x ∈ bank_list (srv_slotmaps s) (l, from)) as Hx by (rewrite <-Hk; left).
  destruct (mi_list _ _ _ (proj2 Hinv) l from x Hx) as (m & Hxm & Hid).
  apply wp_bind, wp_bind, wp_zoom, (wp_map_at _ _ m); [done|].
  replace (set_srv_slotmaps (srv_slotmaps s) s) with s by (by destruct s).
  apply wp_bind, (wp_send _ _ c); [done|by intros; eapply inv_live|]. intros t.
  apply wp_zoom, (wp_state_change _ _ _ _ m); [done|].
  apply (IH _ c); [done|done| | | | | |].
  - apply (same_inv z o (set_srv_slotmaps (relink x (field_state to) (Some (l, to)) (srv_slotmaps s)) s));
      [done|]. apply (inv_relink o s x l from to); [done..|]. apply Hls. left.
  - cbn [srv_slotmaps set_srv_slotmaps set_sent]. rewrite bank_list_relink, decide_False by congruence.
    rewrite <-Hk. symmetry. apply unlink_head. rewrite Hk. apply (mi_wf _ _ _ (proj2 Hinv)).
  - cbn. intros y Hy. apply Hls. by right.
  - done.
  - done.
  - intros h Hh1 Hh2. rewrite <-Hb0 by done. cbn [srv_slotmaps set_srv_slotmaps set_sent].
    rewrite bank_list_relink, decide_False by congruence. apply unlink_not_in.
    intros Hxh. apply Hh1. eapply wf_list_disjoint; [apply (mi_wf _ _ _ (proj2 Hinv))|done..].
Qed.

Lemma wp_push o l c s (Q : () → rspro_server → Prop) :
  srv_inv z o s → conns s !! l = Some c → is_Some (conn_fi c) →
  (∀ s', srv_inv z o s' → view s' = view s → Q () s') →
  wpe E (connected_bankd_push l) s Q.
Proof.
  intros Hinv Hc Hf HQ. unfold connected_bankd_push.
  apply wp_bind, (wp_conn_at _ c); [done|]. apply wp_bind.
  apply (wp_push_list o l c maps_new slotmap2CreateMappingReq maps_unack); [done..| |].
  { intros. right; by left. }
  intros s1 Hinv1 Hv1 Hm1 Hb1.
  destruct (view_lookup_inv l (key c) s1) as (c1 & Hc1 & Hk1).
  { rewrite Hv1. by apply view_lookup. }
  apply (wp_push_list o l c1 maps_delreq slotmap2RemoveMappingReq maps_deleting); [done..| | | |].
  - injection Hk1. intros. congruence.
  - done.
  - intros x Hx Hg. exfalso. revert Hg. eapply inv_not_global; [done..|].
    intros [?|[?|?]]; done.
  - intros s2 Hinv2 Hv2 _ _. apply HQ; [done|congruence].
Qed.

(** ** Entering a connected state *)

Lemma wp_client_onenter n o l c st0 s (Q : () → rspro_server → Prop) :
  srv_inv z o s → conns s !! l = Some c → (∀ s', same s s' → Q () s') →
  wpe E (clnt_st_connected_client_onenter (calls (S n)) l st0) s Q.
Proof using HE.
  intros Hinv Hc HQ. apply wp_bind, (wp_conn_at _ c); [done|].
  apply wp_bind, wp_zoom. eapply wp_mono; [apply wp_slotmap_by_client, Hinv|].
  intros r sm [-> Hr]. replace (set_srv_slotmaps (srv_slotmaps s) s) with s by (by destruct s).
  destruct r as [x|]; [|apply wp_ret, HQ, same_refl]. destruct Hr as (m & _ & Hxm & _).
  by eapply wp_update_client.
Qed.

(** Afterwards every mapping of the bank is in a list of its bankd. *)
Lemma wp_bankd_onenter l c st0 s (Q : () → rspro_server → Prop) :
  srv_inv z (Some l) s → l ∈ banks s → conns s !! l = Some c →
  (undisturbed → ∀ x b, (x, b) ∈ pend → bank_id b ≠ conn_bank_id c) →
  (∀ s', minv None (ids (view s)) (srv_slotmaps s') → view s' = view s → Q () s') →
  wpe E (clnt_st_connected_bankd_onenter l st0) s Q.
Proof.
  intros Hinv Hl Hc Hnp HQ. apply wp_bind, (wp_conn_at _ c); [done|]. apply wp_bind, wp_gets.
  assert (Hinj : inj_ids (ids (view s))) by (intros ???; eapply ids_inj, Hinv).
  assert (Hid : ids (view s) l = Some (conn_bank_id c)) by (by eapply inv_ids).
  destruct Hinv as [_ Hm]. remember (mappings (srv_slotmaps s)) as k eqn:Hk.
  assert (∀ x m, x ∈ mappings (srv_slotmaps s) → heap (srv_slotmaps s) !! x = Some m →
    bank_id (sm_bank m) = conn_bank_id c → x ∈ k ∨ ∃ f, x ∈ bank_list (srv_slotmaps s) (l, f))
    as Hrest by (intros; left; by rewrite Hk).
  assert (∀ x, x ∈ k → x ∈ mappings (srv_slotmaps s)) as Hsub by (by rewrite Hk).
  clear Hk. remember (view s) as v eqn:Hv. symmetry in Hv.
  revert s Hl Hc Hm Hrest Hsub Hv.
  induction k as [|x k IH]; intros s Hl Hc Hm Hrest Hsub Hv; cbn [for_each].
  { apply wp_ret, HQ; [|done]. apply (minv_unbusy _ _ l); [done|].
    intros x m Hx Hxm Hidx _. destruct (Hrest x m) as [[]%elem_of_nil|]; [done..|congruence|done]. }
  assert (x ∈ mappings (srv_slotmaps s)) as Hxg by (apply Hsub; left).
  destruct (wf_alloc _ (mi_wf _ _ _ Hm) x Hxg) as [m Hxm].
  apply wp_bind, wp_bind, wp_zoom, (wp_map_at _ _ m); [done|].
  replace (set_srv_slotmaps (srv_slotmaps s) s) with s by (by destruct s).
  apply wp_when; [intros Hb%Z.eqb_eq|intros Hb%Z.eqb_neq].
  - apply wp_zoom, (wp_state_change _ _ _ _ m); [done|]. apply IH; [done..| | | |done].
    + eapply (minv_relink _ _ _ _ m); [done..|congruence|done|by left|].
      intros Hund ([y b] & -> & Hy)%list_elem_of_fmap. apply (Hnp Hund y b Hy).
      by rewrite <-(proj1 (mi_pend _ _ _ Hm y b Hy) m Hxm).
    + cbn [srv_slotmaps set_srv_slotmaps]. intros y my Hy (my' & Hmy & Hbe & _)%relink_lookup Hby.
      setoid_rewrite elem_of_bank_list_relink. destruct (decide (y = x)) as [->|Hyx].
      { right. exists maps_new. auto. }
      destruct (Hrest y my') as [[?|?]%elem_of_cons|[f Hf]]; [done..|congruence|done|auto|].
      right. exists f. auto.
    + cbn. intros y Hy. apply Hsub. by right.
  - apply IH; [done..| | |done].
    + intros y my Hy Hmy Hby. destruct (Hrest y my Hy Hmy Hby) as [[->|?]%elem_of_cons|?]; [|auto..].
      rewrite Hxm in Hmy. congruence.
    + intros y Hy. apply Hsub. by right.
Qed.

(** ** Teardown *)

Lemma wp_drain (op : loc → M slotmaps ()) i l f k s (Q : () → rspro_server → Prop) :
  (∀ x sm (Q' : () → slotmaps → Prop), x ∈ bank_list sm (l, f) → minv (Some l) i sm →
    (∀ sm', minv (Some l) i sm' → (∀ h, bank_list sm' h = unlink x (bank_list sm h)) → Q' () sm') →
    wpe E (op x) sm Q') →
  minv (Some l) i (srv_slotmaps s) → bank_list (srv_slotmaps s) (l, f) = k →
  (∀ sm', minv (Some l) i sm' → bank_list sm' (l, f) = [] →
    (∀ h, bank_list (srv_slotmaps s) h = [] → bank_list sm' h = []) →
    Q () (set_srv_slotmaps sm' s)) →
  wpe E (for_each (λ x, on_slotmaps (op x)) k) s Q.
Proof.
  intros Hop. revert s. induction k as [|x k IH]; intros s Hm Hk HQ; cbn [for_each].
  { apply wp_ret. replace s with (set_srv_slotmaps (srv_slotmaps s) s) by (by destruct s).
    by apply HQ. }
  apply wp_bind, wp_zoom, Hop; [rewrite Hk; left|done|]. intros sm' Hm' Hb.
  apply IH; cbn [srv_slotmaps set_srv_slotmaps]; [done| |].
  - rewrite Hb, Hk. apply unlink_head. rewrite <-Hk. apply (mi_wf _ _ _ Hm).
  - intros sm'' Hm'' Hnil Hmono. apply HQ; [done..|]. intros h Hh. apply Hmono.
    by rewrite Hb, Hh.
Qed.

Lemma wp_unlink_all i l s (Q : () → rspro_server → Prop) :
  minv (Some l) i (srv_slotmaps s) → inj_ids i →
  (∀ sm', minv (Some l) i sm' → (∀ f, bank_list sm' (l, f) = []) → Q () (set_srv_slotmaps sm' s)) →
  wpe E (_unlink_all_slotmaps l) s Q.
Proof.
  intros Hm Hinj HQ. unfold _unlink_all_slotmaps.
  assert (∀ f x sm (Q' : () → slotmaps → Prop), x ∈ bank_list sm (l, f) → minv (Some l) i sm →
    (∀ sm', minv (Some l) i sm' → (∀ h, bank_list sm' h = unlink x (bank_list sm h)) → Q' () sm') →
    wpe E (_Slotmap_state_change x SLMAP_S_NEW None) sm Q') as Hnew.
  { intros f x sm Q' Hx Hsm HQ'. destruct (mi_list _ _ _ Hsm l f x Hx) as (m & Hxm & Hid).
    apply (wp_state_change _ _ _ _ m); [done|]. apply HQ'.
    - eapply minv_relink_none; [done..|]. intros _ l' Hl'. f_equal. by eapply Hinj.
    - intros h. by rewrite bank_list_relink, decide_False by done. }
  assert (∀ f x sm (Q' : () → slotmaps → Prop), x ∈ bank_list sm (l, f) → minv (Some l) i sm →
    (∀ sm', minv (Some l) i sm' → (∀ h, bank_list sm' h = unlink x (bank_list sm h)) → Q' () sm') →
    wpe E (_slotmap_del x) sm Q') as Hdel.
  { intros f x sm Q' Hx Hsm HQ'. destruct (mi_list _ _ _ Hsm l f x Hx) as (m & Hxm & Hid).
    apply (wp_slotmap_del x sm m); [done|]. apply HQ'; [apply minv_free; [done|by eapply listed_not_pending]|].
    intros h. apply bank_list_free_map. }
  apply wp_bind, wp_bind, wp_gets. eapply wp_drain; [apply Hnew|done..|]. intros sm1 Hm1 N1 M1.
  apply wp_bind, wp_bind, wp_gets. eapply wp_drain; [apply Hnew|done..|]. intros sm2 Hm2 N2 M2.
  apply wp_bind, wp_bind, wp_gets. eapply wp_drain; [apply Hnew|done..|]. intros sm3 Hm3 N3 M3.
  apply wp_bind, wp_bind, wp_gets. eapply wp_drain; [apply Hdel|done..|]. intros sm4 Hm4 N4 M4.
  apply wp_bind, wp_gets. eapply wp_drain; [apply Hdel|done..|]. intros sm5 Hm5 N5 M5.
  cbn [srv_slotmaps set_srv_slotmaps] in *.
  apply (HQ sm5); [done|]. intros []; auto 10.
Qed.

(** Termination while the socket is there. *)
Lemma wp_term_zombie n l c p s (Q : () → rspro_server → Prop) :
  conns s !! l = Some c → conn_peer c = Some p → peer_data s !! p = Some l →
  (∀ s', view s' = v_zombie l p (key c) (view s) → srv_slotmaps s' = srv_slotmaps s → Q () s') →
  wpe E (fi_term (calls (S n)) l) s Q.
Proof.
  intros Hc Hp Hd HQ. apply wp_fi_term. unfold server_client_cleanup.
  apply wp_bind, (wp_conn_upd _ _ c); [done|]. unfold rspro_client_conn_destroy.
  apply wp_bind, (wp_conn_at _ (set_conn_fi None c)); [cbn; by rewrite lookup_insert_eq|].
  cbn [conn_peer set_conn_fi]. rewrite Hp.
  apply wp_bind, (wp_conn_upd _ _ (set_conn_fi None c)); [cbn; by rewrite lookup_insert_eq|].
  eapply wp_eq; [apply stream_srv_destroy_closes|]. apply wp_bind. unfold sock_closed_cb.
  apply wp_bind, wp_gets. cbn [peer_data set_conns]. rewrite Hd.
  apply wp_bind, wp_modify. rewrite !set_conns_twice. cbn [conns set_conns]. rewrite insert_insert_eq.
  set (c' := set_conn_peer None (set_conn_fi None c)).
  apply wp_bind, (wp_conn_at _ c'); [cbn; by rewrite lookup_insert_eq|].
  apply wp_bind, wp_when.
  - intros _. apply (wp_conn_upd _ _ c'); [cbn; by rewrite lookup_insert_eq|].
    apply wp_bind, wp_ret, wp_ret, wp_ret, HQ; [|done].
    unfold view, v_zombie; cbn -[c']. f_equal.
    by rewrite insert_insert_eq, alter_insert_eq, fmap_insert.
  - intros _. apply wp_bind, wp_ret, wp_ret, wp_ret, HQ; [|done].
    unfold view, v_zombie; cbn -[c']. f_equal.
    by rewrite alter_insert_eq, fmap_insert.
Qed.

(** The socket was closed: the connection and all its associations go. *)
Lemma wp_closed_cb n o l p s (Q : Z → rspro_server → Prop) :
  srv_inv z o s → peer_data s !! p = Some l → (o = None ∨ o = Some l) →
  (∀ s', srv_inv z None s' → view s' = v_free l p (view s) → Q 0 s') →
  wpe E (sock_closed_cb (calls (S (S n))) p) s Q.
Proof.
  intros Hinv Hd Ho HQ. destruct Hinv as [Hc Hm].
  destruct (ci_data _ _ _ Hc p l Hd) as (k & Hk & Hkp & [fi Hkf]).
  destruct (view_lookup_inv _ _ _ Hk) as (c & Hlc & <-). cbn in Hkp, Hkf.
  unfold sock_closed_cb. apply wp_bind, wp_gets. rewrite Hd. apply wp_bind, wp_modify.
  apply wp_bind, (wp_conn_at _ c); [done|]. apply wp_bind.
  set (s1 := set_peer_data (delete p (peer_data s)) s).
  set (c1 := set_conn_ka_fi false c).
  assert (∃ c2, conns s !! l = Some c ∧ key c2 = key c ∧ ∀ Q' : () → rspro_server → Prop,
    Q' () (set_conns (<[l := c2]> (conns s1)) s1) →
    wpe E (when (conn_ka_fi c) (conn_upd l (set_conn_ka_fi false))) s1 Q') as (c2 & _ & Hk2 & Hwp).
  { destruct (conn_ka_fi c).
    - exists c1. split; [done|]. split; [done|]. intros Q' HQ'. by apply (wp_conn_upd _ _ c).
    - exists c. split; [done|]. split; [done|]. intros Q' HQ'. apply wp_ret.
      rewrite (insert_id (conns s1) l c) in HQ' by done. by destruct s. }
  apply Hwp. clear Hwp. rewrite Hkp, Hkf.
  apply wp_bind, wp_bind, (wp_conn_upd _ _ c2); [cbn; by rewrite lookup_insert_eq|].
  rewrite set_conns_twice. cbn [conns set_conns]. rewrite insert_insert_eq.
  set (c3 := set_conn_peer None c2).
  apply wp_bind, (wp_conn_dispatch _ _ _ _ _ c3); [cbn; by rewrite lookup_insert_eq|].
  apply (wp_fi_dispatch _ _ _ _ _ c3); [cbn; by rewrite lookup_insert_eq|].
  assert (conn_fi c3 = Some fi) as -> by (injection Hk2; cbn; congruence).
  cbn [allstate_event_mask build_fsm].
  replace (Z.testbit _ (enum CLNTC_E_TCP_DOWN)) with true by done.
  apply wp_bind. cbn [clnt_allstate_action]. apply wp_fi_term. unfold server_client_cleanup.
  apply wp_bind, (wp_conn_upd _ _ c3); [cbn; by rewrite lookup_insert_eq|].
  rewrite set_conns_twice. cbn [conns set_conns]. rewrite insert_insert_eq.
  unfold rspro_client_conn_destroy.
  apply wp_bind, (wp_conn_at _ (set_conn_fi None c3)); [cbn; by rewrite lookup_insert_eq|].
  cbn [conn_peer set_conn_fi set_conn_peer c3].
  apply wp_bind. eapply (wp_unlink_all (ids (view s))).
  { destruct Ho as [->| ->]; [by apply minv_busy|done]. }
  { intros ???. by eapply ids_inj. }
  intros sm' Hm' Hnil. apply wp_modify, wp_ret, wp_ret, wp_ret.
  assert (∀ s2, view s2 = v_free l p (view s) → srv_slotmaps s2 = sm' → Q 0 s2) as HQ2.
  { intros s2 Hv2 Hs2. apply HQ; [|done]. split; rewrite Hv2.
    - eapply cinv_free; [done|by apply view_lookup|done..].
    - rewrite Hs2. eapply minv_ids; [apply ids_free|]. by apply minv_id_del. }
  apply HQ2; [|done]. unfold view, v_free; cbn. f_equal.
  rewrite alter_id by (intros ? Hx; by rewrite lookup_delete_eq in Hx).
  by rewrite delete_insert_eq, fmap_delete.
Qed.
End handlers.
