(* ===== verification/ServerSystem.v ===== *)
(** * The events of the server and its reachable states

    The proof rules of the events (messages, closed sockets, timers, accepted
    connections, the event from the REST threads, the REST calls), the step
    relation they form, and the properties of every reachable state. *)

From S2P Require Import Prelude OsmoFsm Slotmap RsproPdu RsproUtil Ipa RsproServer RestApi.
From S2P Require Import ServerInv.

Section events.
Context `{OsmoLib, Talloc, RsproCodec, IpaLib, PostCalls}.
Context {E : abort → Prop} {z : Prop} (HE : z ∨ E AUndef).
Abbreviation calls n := (calls_of (remsim_server_client_fsm n)).

Lemma cinv_busy z' v l : cinv z' None v → cinv z' (Some l) v.
Proof. intros []. split; eauto. Qed.

Lemma inv_fi_ok s l c fi :
  srv_inv z None s → conns s !! l = Some c → conn_fi c = Some fi → fi_ok (view s) l fi.
Proof.
  intros [Hc _] Hl Hfi. eapply ci_fi; [done|by apply view_lookup|done|done].
Qed.

(** The socket of a connection that has a machine. *)
Lemma inv_socket o s l c :
  srv_inv z o s → conns s !! l = Some c → is_Some (conn_fi c) →
  ∃ p, conn_peer c = Some p ∧ peer_data s !! p = Some l.
Proof.
  intros [Hc _] Hl Hf. apply view_lookup in Hl as Hk.
  destruct (ci_live _ _ _ Hc l _ Hk Hf) as [p Hp]. exists p. split; [done|].
  apply (ci_peer _ _ _ Hc l _ p Hk Hp Hf).
Qed.

(** A change of a connection that leaves its list's requirements alone. *)
Lemma inv_set s l c c' :
  srv_inv z None s → conns s !! l = Some c →
  conn_peer c' = conn_peer c → (is_Some (conn_fi c') ↔ is_Some (conn_fi c)) →
  (l ∈ banks s → conn_bank_id c' = conn_bank_id c) →
  (l ∈ clients s → conn_client_slot c' = conn_client_slot c) →
  (∀ fi, conn_fi c' = Some fi → fi_ok (view s) l fi) →
  srv_inv z None (set_conns (<[l := c']> (conns s)) s).
Proof.
  intros [Hc Hm] Hl ? ? Hb ? ?. unfold srv_inv. rewrite view_insert. split.
  - eapply cinv_set; [done|by apply view_lookup|done..|by auto].
  - eapply minv_ids; [|done]. eapply ids_set; [by apply view_lookup|done].
Qed.

(** A machine that still has its socket terminates. *)
Lemma wp_term n o l c s (z' : Prop) (Q : () → rspro_server → Prop) :
  srv_inv z o s → (o = None ∨ o = Some l) → minv None (ids (view s)) (srv_slotmaps s) →
  conns s !! l = Some c → is_Some (conn_fi c) →
  (z' → z ∧ (l ∉ clients s ++ banks s)) →
  (∀ s', srv_inv z' None s' → Q () s') →
  wpe E (fi_term (calls (S n)) l) s Q.
Proof.
  intros Hinv Ho Hm Hc Hf Hz' HQ. destruct (inv_socket o s l c) as (p & Hp & Hd); [done..|].
  eapply wp_term_zombie; [done..|]. intros s' Hv Hs. apply HQ. split; rewrite Hv, ?Hs.
  - eapply cinv_zombie; [apply Hinv|by apply view_lookup|done..].
  - eapply minv_ids; [|done]. intros x. apply ids_zombie. by apply view_lookup.
Qed.

(** A state change to a state without [onenter]. *)
Lemma wp_chg_plain n l new secs T c fi s (Q : Z → rspro_server → Prop) :
  srv_inv z None s → conns s !! l = Some c → conn_fi c = Some fi →
  Z.testbit (out_state_mask (server_client_fsm_states (calls n) l (fi_state fi))) (enum new) = true →
  onenter (server_client_fsm_states (calls n) l new) = (λ _, mret ()) →
  fi_ok (view s) l (fi_enter new (1000 * secs) T fi) →
  (∀ s', srv_inv z None s' → Q 0 s') →
  wpe E (fi_state_chg (calls (S n)) l new secs T) s Q.
Proof.
  intros Hinv Hc Hfi Hout Hon Hok HQ. eapply wp_fi_state_chg; [done..|].
  rewrite Hon. apply wp_bind, wp_ret, wp_ret, HQ. eapply inv_set; [done..| | | |].
  - cbn. rewrite Hfi. split; intros; by eexists.
  - done.
  - done.
  - by intros ? [= <-].
Qed.

Lemma wp_established_client n l c fi i cs s (Q : () → rspro_server → Prop) pdu :
  srv_inv z None s → conns s !! l = Some c → conn_fi c = Some fi →
  fi_state fi = CLNTC_ST_ESTABLISHED → msg pdu = PR_connectClientReq i cs →
  (∀ s', srv_inv z None s' → Q () s') →
  wpe E (established_client_conn (calls (S (S (S n)))) l (Some pdu)) s Q.
Proof using HE.
  intros Hinv Hc Hfi Hst Hpdu HQ.
  assert (Hl : l ∈ connections s).
  { pose proof (inv_fi_ok _ _ _ _ Hinv Hc Hfi) as Hok. unfold fi_ok in Hok. rewrite Hst in Hok.
    apply Hok. }
  destruct (cinv_in_conn _ _ _ _ (proj1 Hinv) Hl) as [Hlc Hlb]. cbn in Hlc, Hlb.
  unfold established_client_conn, pdu_connectClientReq. cbn [fmap option_fmap option_map].
  rewrite Hpdu. apply wp_bind, wp_ret, wp_bind, (wp_conn_upd _ _ c); [done|].
  set (c1 := set_conn_comp_id _ c). set (s1 := set_conns (<[l := c1]> (conns s)) s).
  assert (same s s1) as Hs1 by (by apply (same_upd l c)).
  assert (srv_inv z None s1) as Hinv1 by (by eapply same_inv).
  assert (conns s1 !! l = Some c1) as Hc1 by (by apply lookup_insert_eq).
  assert (wpe E (fi_term (calls (S (S (S n)))) l) s1 Q) as Hterm.
  { eapply (wp_term _ None _ c1); [done|by left|apply Hinv1|done|cbn; by eexists| |exact HQ].
    intros ?. split; [done|]. rewrite elem_of_app. tauto. }
  destruct (negb _); [exact Hterm|]. destruct cs as [cs|]; [|exact Hterm]. clear Hterm.
  set (slot := rspro2client_slot cs).
  apply wp_bind, (wp_conn_upd _ _ c1); [done|].
  apply wp_bind, (wp_conn_upd _ _ (set_conn_client_slot slot c1)); [by apply lookup_insert_eq|].
  rewrite set_conns_twice. cbn [conns set_conns]. rewrite insert_insert_eq.
  set (c2 := set_conn_id _ (set_conn_client_slot slot c1)).
  set (s2 := set_conns (<[l := c2]> (conns s1)) s1).
  assert (srv_inv z None s2) as Hinv2.
  { eapply inv_set; [done..|]. intros fi' Hfi'. by eapply inv_fi_ok. }
  assert (conns s2 !! l = Some c2) as Hc2 by (by apply lookup_insert_eq).
  assert (conn_fi c2 = Some fi) as Hfi2 by done.
  apply wp_bind. eapply wp_mono; [by eapply wp_client_by_slot|]. intros r s' [-> Hr].
  apply wp_bind, wp_gets. destruct r as [p|].
  - destruct Hr as (Hp & pc & Hpc & _). case_decide as Hpl; [by subst|].
    apply wp_bind, (wp_conn_at _ pc); [done|].
    apply wp_bind, wp_deref; [intros; by eapply (inv_peer HE None s2 p pc); auto|]. intros ? _.
    apply wp_bind, (wp_send _ _ c2); [done|intros; by eapply (inv_live None s2 l c2); eauto|]. intros t.
    apply wp_bind, (wp_chg_plain _ _ _ _ _ c2 fi); [done..|by rewrite Hst|done| |].
    + by cbn.
    + intros s' Hs'. apply wp_ret, HQ, Hs'.
  - apply wp_bind, wp_modify. set (s3 := reparent_client l s2).
    destruct (inv_socket None s2 l c2) as (pe & Hpe & _); [done..|by eexists|].
    assert (cinv z (Some l) (view s3)) as Hci3.
    { eapply (cinv_client _ None (view s2)); [apply Hinv2|done|by apply view_lookup|by eexists| |by left].
      intros x kx Hx Hkx. destruct (view_lookup_inv _ _ _ Hkx) as (cx & Hcx & <-).
      by apply (Hr x). }
    assert (minv None (ids (view s3)) (srv_slotmaps s3)) as Hmi3.
    { eapply minv_ids; [|apply Hinv2]. intros x. by apply (ids_client (view s2)). }
    apply wp_bind, (wp_send _ _ c2); [done|congruence|]. intros t.
    apply wp_bind, (wp_fi_state_chg _ _ _ _ _ c2 fi); [done..|by rewrite Hst|].
    cbn [onenter server_client_fsm_states]. apply wp_bind.
    set (c4 := set_conn_fi _ c2). set (s4 := set_conns _ _).
    assert (srv_inv z None s4) as Hinv4.
    { unfold srv_inv, s4. rewrite view_insert. split.
      - eapply cinv_set; [exact Hci3|by apply view_lookup|done| |done|done| |].
        + cbn. by split; intros; eexists.
        + intros _ fi' [= <-]. split; [|done]. cbn. rewrite elem_of_app, list_elem_of_singleton. auto.
        + congruence.
      - eapply minv_ids; [|exact Hmi3]. eapply ids_set; [by apply view_lookup|done]. }
    eapply (wp_client_onenter HE _ None _ c4); [done|by apply lookup_insert_eq|].
    intros s' Hs'. apply wp_ret, wp_ret, HQ. by eapply same_inv.
Qed.

Lemma wp_established_bank n l c fi i b ns s (Q : () → rspro_server → Prop) pdu :
  srv_inv z None s → conns s !! l = Some c → conn_fi c = Some fi →
  fi_state fi = CLNTC_ST_ESTABLISHED → msg pdu = PR_connectBankReq i b ns →
  (undisturbed → ∀ x b', (x, b') ∈ pend → bank_id b' ≠ u16 b) →
  (∀ s', srv_inv z None s' → Q () s') →
  wpe E (established_bank_conn (calls (S (S n))) l (Some pdu)) s Q.
Proof using HE.
  intros Hinv Hc Hfi Hst Hpdu Hnp HQ.
  assert (Hl : l ∈ connections s).
  { pose proof (inv_fi_ok _ _ _ _ Hinv Hc Hfi) as Hok. unfold fi_ok in Hok. rewrite Hst in Hok.
    apply Hok. }
  destruct (cinv_in_conn _ _ _ _ (proj1 Hinv) Hl) as [Hlc Hlb]. cbn in Hlc, Hlb.
  unfold established_bank_conn, pdu_connectBankReq. cbn [fmap option_fmap option_map].
  rewrite Hpdu. apply wp_bind, wp_ret, wp_bind, (wp_conn_upd _ _ c); [done|].
  set (c1 := set_conn_comp_id _ c). set (s1 := set_conns (<[l := c1]> (conns s)) s).
  assert (same s s1) as Hs1 by (by apply (same_upd l c)).
  assert (srv_inv z None s1) as Hinv1 by (by eapply same_inv).
  assert (conns s1 !! l = Some c1) as Hc1 by (by apply lookup_insert_eq).
  destruct (negb _).
  { eapply (wp_term _ None _ c1); [done|by left|apply Hinv1|done|cbn; by eexists| |exact HQ].
    intros ?. split; [done|]. rewrite elem_of_app. tauto. }
  apply wp_bind, (wp_conn_upd _ _ c1); [done|].
  apply wp_bind, (wp_conn_upd _ _ (set_conn_bank (u16 b) (u16 ns) c1)); [by apply lookup_insert_eq|].
  rewrite set_conns_twice. cbn [conns set_conns]. rewrite insert_insert_eq.
  set (c2 := set_conn_id _ (set_conn_bank _ _ c1)).
  set (s2 := set_conns (<[l := c2]> (conns s1)) s1).
  assert (srv_inv z None s2) as Hinv2.
  { eapply inv_set; [done..|]. intros fi' Hfi'. by eapply inv_fi_ok. }
  assert (conns s2 !! l = Some c2) as Hc2 by (by apply lookup_insert_eq).
  assert (conn_fi c2 = Some fi) as Hfi2 by done.
  apply wp_bind. eapply wp_mono; [by eapply wp_bankd_by_id|]. intros r s' [-> Hr].
  apply wp_bind, wp_gets. destruct r as [p|].
  - destruct Hr as (Hp & pc & Hpc & _). case_decide as Hpl; [by subst|].
    apply wp_bind, (wp_conn_at _ pc); [done|].
    apply wp_bind, wp_deref; [intros; by eapply (inv_peer HE None s2 p pc); auto|]. intros ? _.
    apply wp_bind, (wp_send _ _ c2); [done|intros; by eapply (inv_live None s2 l c2); eauto|].
    intros t. apply wp_bind, (wp_chg_plain _ _ _ _ _ c2 fi); [done..|by rewrite Hst|done| |].
    + by cbn.
    + intros s' Hs'. apply wp_ret, HQ, Hs'.
  - apply wp_bind, wp_modify. set (s3 := reparent_bank l s2).
    destruct (inv_socket None s2 l c2) as (pe & Hpe & _); [done..|by eexists|].
    assert (cinv z (Some l) (view s3)) as Hci3.
    { eapply (cinv_bank _ None (view s2)); [apply Hinv2|done|by apply view_lookup|by eexists| |by left].
      intros x kx Hx Hkx. destruct (view_lookup_inv _ _ _ Hkx) as (cx & Hcx & <-).
      by apply (Hr x). }
    assert (minv (Some l) (ids (view s3)) (srv_slotmaps s3)) as Hmi3.
    { eapply minv_ids; [intros x; eapply (ids_bank (view s2)); by apply view_lookup|].
      apply minv_id_add; [apply Hinv2|]. unfold ids. by rewrite decide_False. }
    apply wp_bind, (wp_send _ _ c2); [done|congruence|]. intros t.
    apply wp_bind, (wp_fi_state_chg _ _ _ _ _ c2 fi); [done..|by rewrite Hst|].
    cbn [onenter server_client_fsm_states]. apply wp_bind.
    set (fi4 := fi_enter _ _ _ _). set (c4 := set_conn_fi _ c2). set (s4 := set_conns _ _).
    assert (l ∈ banks s4) as Hl4 by (cbn; rewrite elem_of_app, list_elem_of_singleton; auto).
    assert (cinv z None (view s4)) as Hci4.
    { unfold s4. rewrite view_insert.
      eapply cinv_set; [exact Hci3|by apply view_lookup|done| |done|done| |].
      - cbn. by split; intros; eexists.
      - intros _ fi' [= <-]. split; [|done]. exact Hl4.
      - congruence. }
    assert (minv (Some l) (ids (view s4)) (srv_slotmaps s4)) as Hmi4.
    { unfold s4. rewrite view_insert. eapply minv_ids; [|exact Hmi3].
      eapply ids_set; [by apply view_lookup|done]. }
    eapply (wp_bankd_onenter (z:=z) _ c4); [|done|by apply lookup_insert_eq|exact Hnp|].
    { split; [by apply cinv_busy|done]. }
    intros s5 Hmi5 Hv5. assert (srv_inv z None s5) as Hinv5 by (by rewrite <-Hv5 in *).
    destruct (view_lookup_inv l (key c4) s5) as (c5 & Hc5 & Hk5).
    { rewrite Hv5. apply view_lookup, lookup_insert_eq. }
    assert (conn_fi c5 = Some fi4) as Hfi5 by (by injection Hk5).
    apply wp_ret, wp_bind, (wp_fi_dispatch _ _ _ _ _ c5); [done|]. rewrite Hfi5.
    cbn -[connected_bankd_push]. apply wp_bind, (wp_push (z:=z) None _ c5); [done..|by eexists|].
    intros s6 Hinv6 _. apply wp_ret, wp_ret, HQ, Hinv6.
Qed.

(** The precondition of a response of a bankd: something is awaiting it. *)
Definition awaited (s : rspro_server) (l : loc) (m : RsproPDUchoice) : Prop :=
  match m with
  | PR_createMappingRes _ => bank_list (srv_slotmaps s) (l, maps_unack) ≠ []
  | PR_removeMappingRes _ => bank_list (srv_slotmaps s) (l, maps_deleting) ≠ []
  | _ => True
  end.

(** A bankd that connects finds no REST call that is adding a mapping to its
    bank. *)
Definition finds_no_post (m : RsproPDUchoice) : Prop :=
  match m with
  | PR_connectBankReq _ b _ => ∀ x b', (x, b') ∈ pend → bank_id b' ≠ u16 b
  | _ => True
  end.

Lemma wp_first_map s l c f (Q : loc → rspro_server → Prop) :
  conns s !! l = Some c → (bank_list (srv_slotmaps s) (l, f) = [] → E AUndef) →
  (∀ x, x ∈ bank_list (srv_slotmaps s) (l, f) → Q x s) → wpe E (first_map l f) s Q.
Proof.
  intros Hc Hne HQ. apply wp_bind, (wp_conn_at _ c); [done|]. apply wp_bind, wp_gets.
  destruct (bank_list _ _) as [|x k]; cbn; [by apply wp_undef, Hne|].
  apply wp_ret, HQ. left.
Qed.

Lemma wp_create_map_res n l c s (Q : () → rspro_server → Prop) :
  srv_inv z None s → l ∈ banks s → conns s !! l = Some c →
  (bank_list (srv_slotmaps s) (l, maps_unack) = [] → E AUndef) →
  (∀ s', srv_inv z None s' → Q () s') →
  wpe E (connected_bankd_create_map_res (calls (S n)) l) s Q.
Proof using HE.
  intros Hinv Hl Hc Hne HQ. apply wp_bind, (wp_first_map _ _ c); [done..|]. intros x Hx.
  destruct (mi_list _ _ _ (proj2 Hinv) _ _ _ Hx) as (m & Hxm & _).
  apply wp_bind, wp_zoom, (wp_state_change _ _ _ _ m); [done|].
  eapply (wp_update_client HE _ None _ _ (set_sm_state SLMAP_S_ACTIVE m)).
  - apply (inv_relink None s x l maps_unack maps_active); [done..|]. right; by right.
  - cbn. by rewrite lookup_alter_eq, Hxm.
  - by intros ? [= <-].
  - intros s' Hs'. apply HQ. eapply same_inv; [exact Hs'|].
    apply (inv_relink None s x l maps_unack maps_active); [done..|]. right; by right.
Qed.

Lemma wp_remove_map_res n l c s (Q : () → rspro_server → Prop) :
  srv_inv z None s → l ∈ banks s → conns s !! l = Some c →
  (bank_list (srv_slotmaps s) (l, maps_deleting) = [] → E AUndef) →
  (∀ s', srv_inv z None s' → Q () s') →
  wpe E (connected_bankd_remove_map_res (calls (S n)) l) s Q.
Proof using HE.
  intros Hinv Hl Hc Hne HQ. apply wp_bind, (wp_first_map _ _ c); [done..|]. intros x Hx.
  destruct (wf_list_state _ (mi_wf _ _ _ (proj2 Hinv)) _ _ Hx) as (m & Hxm & Hst).
  apply wp_bind, wp_zoom, (wp_map_at _ _ m); [done|].
  replace (set_srv_slotmaps (srv_slotmaps s) s) with s by (by destruct s).
  apply wp_bind, wp_assert; [by rewrite Hst|intros _].
  apply wp_bind, (wp_update_client HE _ None _ _ m); [done..|by intros ? [= <-]|].
  intros s' [Hv Hs']. apply wp_zoom, (wp_slotmap_del _ _ m); [by rewrite Hs'|].
  apply HQ. split; unfold view in *; cbn in *; rewrite Hv, ?Hs'; [apply Hinv|].
  apply minv_free; [apply Hinv|eapply listed_not_pending; [apply Hinv|done]].
Qed.

(** A message dispatched to a connection. *)
Lemma wp_handle_rx l c s pdu (Q : Z → rspro_server → Prop) :
  srv_inv z None s → conns s !! l = Some c →
  (awaited s l (msg pdu) ∨ E AUndef) → (undisturbed → finds_no_post (msg pdu)) →
  (∀ r s', srv_inv z None s' → Q r s') →
  wpe E (handle_rx_rspro l pdu) s Q.
Proof using HE.
  intros Hinv Hc Haw Hnp HQ. unfold handle_rx_rspro.
  assert (∀ e, (∀ fi, conn_fi c = Some fi →
      Z.testbit (in_event_mask (server_client_fsm_states (calls 3) l (fi_state fi))) (enum e) = true →
      Z.testbit (allstate_event_mask (build_fsm (calls 3) l)) (enum e) = false ∧
      wpe E (action (server_client_fsm_states (calls 3) l (fi_state fi)) e (Some pdu)) s
        (λ _ s', srv_inv z None s')) →
      Z.testbit (allstate_event_mask (build_fsm (calls 3) l)) (enum e) = false →
      wpe E (dispatch l e (Some pdu) ;; mret 0) s Q) as Hdisp.
  { intros e Hact Hall. apply wp_bind, (wp_conn_dispatch _ _ _ _ _ c); [done|].
    apply (wp_fi_dispatch _ _ _ _ _ c); [done|].
    destruct (conn_fi c) as [fi|] eqn:Hfi; [|by apply wp_ret, wp_ret, HQ].
    rewrite Hall. destruct (Z.testbit (in_event_mask _) _) eqn:Hin; [|by apply wp_ret, wp_ret, HQ].
    destruct (Hact fi eq_refl Hin) as [_ Hwp]. apply wp_bind.
    eapply wp_mono; [exact Hwp|]. intros [] s' Hs'. by apply wp_ret, wp_ret, HQ. }
  unfold finds_no_post in Hnp.
  destruct (msg pdu) as [ |i b ns|i r|i cs|i r|cl b|r|cl b|r|cs|r|bs ad|r|a b d e f g
    | |r|sl a|r|a b d e|a b d e|a b d|a b d] eqn:Hmsg;
    try (apply wp_ret, HQ; exact Hinv); apply Hdisp; try done; intros fi Hfi Hin;
    (split; [done|]); destruct (fi_state fi) eqn:Hst; try discriminate Hin;
    cbn [action server_client_fsm_states clnt_st_connected_bankd]; unfold clnt_st_established.
  - apply wp_bind, (wp_conn_at _ c); [done|].
    apply wp_bind, wp_deref; [intros; by eapply (inv_live None s l c); eauto|]. intros ? _.
    by eapply (wp_established_bank 1 l c fi).
  - apply wp_bind, (wp_conn_at _ c); [done|].
    apply wp_bind, wp_deref; [intros; by eapply (inv_live None s l c); eauto|]. intros ? _.
    by eapply (wp_established_client 0 l c fi).
  - pose proof (inv_fi_ok _ _ _ _ Hinv Hc Hfi) as Hok. unfold fi_ok in Hok. rewrite Hst in Hok.
    eapply wp_create_map_res; [done|apply Hok|done| |done]. intros. by destruct Haw.
  - pose proof (inv_fi_ok _ _ _ _ Hinv Hc Hfi) as Hok. unfold fi_ok in Hok. rewrite Hst in Hok.
    eapply wp_remove_map_res; [done|apply Hok|done| |done]. intros. by destruct Haw.
  - pose proof (inv_fi_ok _ _ _ _ Hinv Hc Hfi) as Hok. unfold fi_ok in Hok. by rewrite Hst in Hok.
Qed.

(** ** Sockets *)

Lemma wp_destroy p l s (Q : () → rspro_server → Prop) :
  srv_inv z None s → peer_data s !! p = Some l → (∀ s', srv_inv z None s' → Q () s') →
  wpe E (osmo_stream_srv_destroy (sock_closed_cb fsm_K p)) s Q.
Proof.
  intros Hinv Hp HQ. eapply wp_eq; [apply stream_srv_destroy_closes|].
  apply wp_bind. eapply wp_closed_cb; [done|done|by left|].
  intros s' Hs' _. by apply wp_ret, HQ.
Qed.

Lemma inv_data s p l :
  srv_inv z None s → peer_data s !! p = Some l →
  ∃ c, conns s !! l = Some c ∧ conn_peer c = Some p ∧ is_Some (conn_fi c).
Proof.
  intros [Hc _] Hp. destruct (ci_data _ _ _ Hc p l Hp) as (k & Hk & Hkp & Hkf).
  destruct (view_lookup_inv _ _ _ Hk) as (c & ? & <-). eauto.
Qed.

Lemma wp_ccm l c l2 s (Q : Z → rspro_server → Prop) :
  conns s !! l = Some c → is_Some (conn_peer c) → l2 ≠ [] →
  (∀ r t, Q r (set_sent t s)) → wpe E (_ipa_srv_conn_ccm l l2) s Q.
Proof.
  intros Hc [p Hp] Hl2 HQ. destruct l2 as [|t body]; [done|]. cbn [_ipa_srv_conn_ccm].
  assert (∀ r, Q r s) as HQ' by (intros r; destruct s; apply HQ).
  assert (∀ m, wpe E (ccm_reply l m) s Q) as Hreply.
  { intros m. apply wp_bind, (wp_conn_at _ c); [done|]. rewrite Hp. apply wp_bind, wp_ret.
    apply wp_bind, wp_gets. destruct (ipa_ccm_send _ _); [|by apply wp_ret].
    apply wp_bind, wp_modify, wp_ret, HQ. }
  repeat (case_match; try apply Hreply; try (by apply wp_ret)).
Qed.

(** What the library delivers for a socket: an IPA message that is not empty,
    and, of the responses of a bankd, one that is awaited. *)
Definition awaited_msg (s : rspro_server) (p : loc) (m : ipa_msg) : Prop :=
  ∀ l pdu, peer_data s !! p = Some l → rspro_dec_msg (l2_data m) = Some pdu →
    awaited s l (msg pdu).

Lemma wp_read_cb p l res m s (Q : Z → rspro_server → Prop) :
  srv_inv z None s → peer_data s !! p = Some l → l2_data m ≠ [] →
  (awaited_msg s p m ∨ E AUndef) →
  (∀ pdu, rspro_dec_msg (l2_data m) = Some pdu → undisturbed → finds_no_post (msg pdu)) →
  (∀ r s', srv_inv z None s' → Q r s') →
  wpe E (sock_read_cb p res m) s Q.
Proof using HE.
  intros Hinv Hp Hl2 Haw Hnp HQ. destruct (inv_data s p l) as (c & Hc & Hcp & Hcf); [done..|].
  unfold sock_read_cb. apply wp_bind, wp_gets. rewrite Hp. apply wp_bind, wp_ret.
  assert (∀ s', srv_inv z None s' → peer_data s' !! p = Some l →
    wpe E (osmo_stream_srv_destroy (sock_closed_cb fsm_K p) ;; mret (- EBADF)) s' Q) as Herr.
  { intros s' Hs' Hp'. apply wp_bind. eapply wp_destroy; [done..|]. intros s'' Hs''.
    by apply wp_ret, HQ. }
  destruct (res <=? 0); [by apply Herr|]. destruct (_ =? IPAC_PROTO_IPACCESS).
  { apply wp_bind. eapply wp_ccm; [done|by eexists|done|]. intros r t.
    destruct (r <? 0); [by apply Herr|]. by apply wp_ret, HQ. }
  destruct (_ =? IPAC_PROTO_OSMO); [|by apply Herr].
  destruct (_ =? IPAC_PROTO_EXT_RSPRO); [|by apply Herr].
  destruct (rspro_dec_msg _) as [pdu|] eqn:Hdec; [|by apply wp_ret, HQ].
  eapply wp_handle_rx; [done..| |by apply Hnp|done]. destruct Haw as [Haw|]; [left|by right].
  by apply (Haw l).
Qed.

(** The keep-alive timeout leaves a connection without a socket behind. *)
Lemma wp_ka_timeout p l s (z' : Prop) (Q : Z → rspro_server → Prop) :
  srv_inv z None s → peer_data s !! p = Some l →
  (z' → z ∧ (l ∉ clients s ++ banks s)) →
  (∀ r s', srv_inv z' None s' → Q r s') →
  wpe E (ipa_keepalive_timeout_cb p) s Q.
Proof.
  intros Hinv Hp Hz' HQ. destruct (inv_data s p l) as (c & Hc & Hcp & [fi Hfi]); [done..|].
  unfold ipa_keepalive_timeout_cb. apply wp_bind, wp_gets. rewrite Hp. apply wp_bind, wp_ret.
  apply wp_bind, (wp_conn_dispatch _ _ _ _ _ c); [done|].
  apply (wp_fi_dispatch _ _ _ _ _ c); [done|]. rewrite Hfi. cbn [allstate_event_mask build_fsm].
  replace (Z.testbit _ (enum CLNTC_E_KA_TIMEOUT)) with true by done.
  apply wp_bind. cbn [clnt_allstate_action].
  eapply (wp_term _ None _ c); [done|by left|apply Hinv|done|by eexists|exact Hz'|].
  intros s' Hs'. by apply wp_ret, wp_ret, HQ.
Qed.

(** Only connections that are in neither list of connected peers time out. *)
Lemma wp_timer l c fi s (Q : () → rspro_server → Prop) :
  srv_inv z None s → conns s !! l = Some c → conn_fi c = Some fi → is_Some (fi_timer fi) →
  (∀ s', srv_inv z None s' → Q () s') →
  wpe E (server_client_fsm_tmr l) s Q.
Proof.
  intros Hinv Hc Hfi [ms Htm] HQ. pose proof (inv_fi_ok _ _ _ _ Hinv Hc Hfi) as Hok.
  assert (l ∈ connections s ∧ (fi_T fi = 1 ∨ fi_T fi = 2)) as [Hl HT].
  { unfold fi_ok in Hok. destruct (fi_state fi); destruct Hok; try congruence; auto. }
  destruct (cinv_in_conn _ _ _ _ (proj1 Hinv) Hl) as [Hlc Hlb].
  unfold server_client_fsm_tmr. eapply wp_eq; [apply tmr_cb_eq|].
  apply wp_bind, wp_gets. cbn [fi_get conn_ref]. rewrite Hc. cbn [mbind option_bind]. rewrite Hfi.
  apply wp_bind, wp_ret, wp_bind, (wp_fi_update _ _ c fi); [done..|].
  cbn [FSM_DEPTH remsim_server_client_fsm]. cbn [timer_cb build_fsm].
  set (c' := set_conn_fi _ c). set (s' := set_conns _ s).
  assert (cinv z (Some l) (view s')) as Hci.
  { unfold s'. rewrite view_insert.
    eapply cinv_set; [apply Hinv|by apply view_lookup|done| |done|done| |done].
    - cbn. rewrite Hfi. by split; intros; eexists.
    - done. }
  assert (minv None (ids (view s')) (srv_slotmaps s')) as Hmi.
  { unfold s'. rewrite view_insert. eapply minv_ids; [|apply Hinv].
    eapply ids_set; [by apply view_lookup|done]. }
  apply wp_bind. assert (∀ Q' : Z → rspro_server → Prop, Q' 1 s' →
    wpe E (server_client_fsm_timer_cb (fi_T fi)) s' Q') as Hcb.
  { intros Q' HQ'. destruct HT as [-> | ->]; by apply wp_ret. }
  apply Hcb. apply wp_when; [|done]. intros _.
  eapply (wp_term 3 (Some l) _ c' _ z); [|by right|exact Hmi|by apply lookup_insert_eq| | |exact HQ].
  - split; [exact Hci|by apply minv_busy].
  - cbn. by eexists.
  - intros ?. split; [done|]. cbn. by rewrite elem_of_app; intros [|].
Qed.

(** ** Acceptance *)

Lemma inv_fresh s l : srv_inv z None s → conns s !! l = None → vc (view s) !! l = None.
Proof. intros _ Hl. cbn. by rewrite lookup_fmap, Hl. Qed.

Lemma wp_accept peer fi_ok ka_ok s (Q : Z → rspro_server → Prop) :
  srv_inv z None s → (∀ X, is_Some (talloc_zero X)) →
  (∀ p, peer = Some p → peer_data s !! p = None) →
  ((fi_ok = true ∧ ka_ok = true) ∨ peer = None ∨ E AUndef) →
  (∀ r s', srv_inv z None s' → Q r s') →
  wpe E (accept_cb peer fi_ok ka_ok) s Q.
Proof.
  intros Hinv Htot Hpe Hok HQ. unfold accept_cb. apply wp_bind, wp_gets.
  destruct (Htot (dom (conns s))) as [l Hl]. cbn [id]. rewrite Hl.
  apply talloc_fresh, not_elem_of_dom in Hl.
  destruct peer as [p|]; [|by apply wp_ret, HQ]. specialize (Hpe p eq_refl).
  apply wp_bind, wp_modify. set (s1 := set_peer_data _ _).
  set (c1 := set_conn_fi None (set_conn_ka_fi false (new_conn p))).
  assert (conns s1 !! l = Some c1) as Hc1 by (by apply lookup_insert_eq).
  destruct fi_ok; cbn [negb].
  - apply wp_bind, (wp_conn_upd _ _ c1); [done|].
    set (c2 := set_conn_fi _ c1). set (s2 := set_conns _ s1).
    assert (conns s2 !! l = Some c2) as Hc2 by (by apply lookup_insert_eq).
    assert (peer_data s2 !! p = Some l) as Hp2 by (by apply lookup_insert_eq).
    destruct ka_ok; cbn [negb].
    + apply wp_bind, (wp_conn_upd _ _ c2); [done|]. apply wp_bind, wp_modify.
      set (c3 := set_conn_ka_fi true c2). set (s3 := set_lists _ _ _ _).
      assert (conns s3 !! l = Some c3) as Hc3 by (by apply lookup_insert_eq).
      assert (view s3 = v_new l (key c3) p (view s)) as Hv3.
      { unfold view, v_new; cbn -[key]. f_equal.
        by rewrite !insert_insert_eq, fmap_insert. }
      assert (srv_inv z None s3) as Hinv3.
      { split; rewrite Hv3.
        - by eapply cinv_new; [apply Hinv|apply inv_fresh|..].
        - eapply minv_ids; [|apply Hinv]. intros x. apply ids_new; [by apply inv_fresh|].
          intros y Hy. eapply ci_alive; [apply Hinv|]. rewrite !elem_of_app. auto. }
      apply wp_bind, (wp_conn_dispatch _ _ _ _ _ c3); [done|].
      apply (wp_fi_dispatch _ _ _ _ _ c3); [done|].
      cbn [conn_fi c3 c2 set_conn_ka_fi set_conn_fi new_conn fi_state allstate_event_mask build_fsm].
      replace (Z.testbit (Z.lor _ _) (enum CLNTC_E_TCP_UP)) with false by done.
      cbn [in_event_mask server_client_fsm_states action].
      replace (Z.testbit _ (enum CLNTC_E_TCP_UP)) with true by done.
      apply wp_bind. cbn [clnt_st_init]. apply wp_bind.
      eapply (wp_chg_plain _ _ _ _ _ c3); [done..| |].
      * split; [|done]. cbn. rewrite elem_of_app, list_elem_of_singleton. auto.
      * intros s4 Hs4. by apply wp_ret, wp_ret, wp_ret, HQ.
    + destruct Hok as [[_ ?]|[?|Hund]]; [done..|].
      apply wp_bind, (wp_term_zombie _ _ c2 p); [done..|]. intros s3 Hv3 Hs3.
      destruct (view_lookup_inv l (CKey None None (conn_bank_id c2) (conn_client_slot c2)) s3)
        as (c3 & Hc3 & Hk3).
      { rewrite Hv3. cbn. apply lookup_insert_eq. }
      apply wp_bind, (wp_conn_at _ c3); [done|]. apply wp_bind, wp_deref; [done|].
      intros q Hq. injection Hk3. congruence.
  - apply wp_bind. eapply wp_eq; [apply stream_srv_destroy_closes|]. apply wp_bind.
    unfold sock_closed_cb. apply wp_bind, wp_gets. cbn [peer_data set_peer_data s1].
    rewrite lookup_insert_eq. apply wp_bind, wp_modify.
    apply wp_bind, (wp_conn_at _ c1); [done|].
    apply wp_bind, wp_ret, wp_bind, wp_ret, wp_ret, wp_ret, wp_ret, HQ.
    split.
    + pose proof (cinv_leak _ _ _ l (key c1) (proj1 Hinv) (inv_fresh _ _ Hinv Hl) eq_refl) as Hci.
      unfold view, v_set in *; cbn -[key] in *. by rewrite fmap_insert, delete_insert_id.
    + eapply minv_ids; [|apply Hinv]. intros x. unfold ids; cbn -[key]. case_decide as Hx; [|done].
      rewrite fmap_insert, lookup_insert_ne; [done|]. intros <-.
      destruct (inv_alive (z:=z) None s l Hinv) as [c Hc]; [by right|congruence].
Qed.

(** ** The event from the REST threads *)

Lemma wp_event_fd rc s (Q : Z → rspro_server → Prop) :
  srv_inv z None s → (∀ r s', srv_inv z None s' → Q r s') → wpe E (event_fd_cb rc) s Q.
Proof.
  intros Hinv HQ. unfold event_fd_cb. destruct (rc <? 8); [by apply wp_ret, HQ|].
  apply wp_bind, wp_modify, wp_bind, wp_gets. set (s0 := set_eventfd 0 s).
  apply wp_bind. eapply wp_mono; [apply (wp_for_each _ (λ s', srv_inv z None s' ∧ banks s' = banks s))|].
  - done.
  - intros l s' Hl [Hinv' Hb]. destruct (inv_alive (z:=z) None s' l) as [c Hc]; [done|right; by rewrite Hb|].
    apply wp_bind, (wp_conn_at _ c); [done|]. apply wp_bind, wp_gets, wp_bind, wp_gets.
    apply wp_when; [intros _|done].
    apply wp_bind, (wp_conn_dispatch _ _ _ _ _ c); [done|].
    apply (wp_fi_dispatch _ _ _ _ _ c); [done|].
    destruct (conn_fi c) as [fi|] eqn:Hfi; [|by apply wp_ret, wp_ret].
    destruct (fi_state fi) eqn:Hst; cbn -[connected_bankd_push]; try (by apply wp_ret, wp_ret).
    apply wp_bind, (wp_push (z:=z) None _ c); [done..|by eexists|].
    intros s2 Hinv2 Hv2. apply wp_ret, wp_ret. split; [done|]. rewrite <-Hb. by injection Hv2.
  - intros [] s' [Hs' _]. by apply wp_ret, HQ.
Qed.

(** ** The REST calls *)

Lemma inv_slotmaps o s sm :
  srv_inv z o s → minv o (ids (view s)) sm → srv_inv z o (set_srv_slotmaps sm s).
Proof. intros [Hc _] Hm. by split. Qed.

Lemma inv_inj o s : srv_inv z o s → inj_ids (ids (view s)).
Proof. intros [Hc _] ???. by eapply ids_inj. Qed.

(** The end of a REST call that adds a mapping, after the other two sections:
    the first one is below, since it begins a call. *)
Lemma wp_post_reset x b s (Q : () → rspro_server → Prop) :
  srv_inv z None s → (x, b) ∈ pend → (heap (srv_slotmaps s) !! x = None → E AUndef) →
  (∀ s', srv_inv z None s' → view s' = view s → Q () s') → wpe E (slotmaps_post_reset x) s Q.
Proof.
  intros Hinv Hx HU HQ. pose proof (proj2 Hinv) as Hm. apply wp_zoom.
  destruct (heap (srv_slotmaps s) !! x) as [m|] eqn:Hxm.
  - apply (wp_state_change _ _ _ _ m); [done|]. apply HQ; [|done].
    apply (inv_slotmaps None s); [done|]. eapply minv_relink_none; [done..|]. intros Hn. destruct Hn.
    apply list_elem_of_fmap. by exists (x, b).
  - unfold Slotmap_state_change, _Slotmap_state_change, map_at. apply wp_bind, wp_bind, wp_gets.
    rewrite Hxm. by apply wp_undef, HU.
Qed.

Lemma wp_mark_deleted x s (Q : () → rspro_server → Prop) :
  srv_inv z None s → x ∈ mappings (srv_slotmaps s) → (undisturbed → x ∉ pend.*1) →
  (∀ s', srv_inv z None s' →
     mappings (srv_slotmaps s') = unlink x (mappings (srv_slotmaps s)) → Q () s') →
  wpe E (_slotmap_mark_deleted x) s Q.
Proof.
  intros Hinv Hx Hnp HQ. pose proof (proj2 Hinv) as Hm.
  destruct (wf_alloc _ (mi_wf _ _ _ Hm) x Hx) as [m Hxm].
  apply wp_bind, wp_zoom, (wp_map_at _ _ m); [done|].
  replace (set_srv_slotmaps (srv_slotmaps s) s) with s by (by destruct s).
  apply wp_bind. eapply wp_mono; [by eapply wp_bankd_by_id|]. intros r s' [-> Hr].
  apply wp_bind, wp_zoom, wp_modify.
  set (s1 := set_srv_slotmaps _ s).
  assert (srv_inv z None s1) as Hinv1 by (by apply inv_slotmaps; [|apply minv_unlink_global]).
  pose proof (mi_global _ _ _ Hm x m Hx Hxm) as Hls.
  destruct (sm_state m) eqn:Hst.
  - apply wp_zoom, (wp_slotmap_del x _ m); [done|]. apply HQ.
    + apply inv_slotmaps; [done|]. apply minv_free; [apply Hinv1|done].
    + apply (unlink_not_in x (unlink x _)). rewrite elem_of_unlink. by intros [].
  - by apply wp_ret, HQ.
  - destruct (mi_listed _ _ _ Hm x m Hx Hxm) as (l & f & Hlf); [congruence|].
    destruct (mi_list _ _ _ Hm l f x Hlf) as (m' & Hm' & Hid).
    assert (m' = m) as -> by congruence. pose proof (ids_Some _ _ _ Hid) as Hlb.
    destruct (inv_alive (z:=z) None s l) as [c Hc]; [done|by right|].
    rewrite (inv_ids (z:=z) None s l c) in Hid by done. destruct r as [l'|].
    2:{ destruct (Hr l c); [done..|congruence]. }
    destruct Hr as (Hl' & c' & Hc' & Hid'). apply wp_bind, wp_ret.
    apply wp_bind, wp_zoom, (wp_state_change _ _ _ _ m); [done|]. apply wp_modify, HQ; [|done].
    apply (inv_slotmaps None s1); [done|]. eapply minv_relink; [apply Hinv1|by eapply inv_inj|done| |done| |done].
    + by rewrite (inv_ids (z:=z) None s1 l' c'), Hid'.
    + cbn. rewrite elem_of_unlink. by intros [].
  - by destruct Hls as [|[|]].
  - by destruct Hls as [|[|]].
Qed.

Context `{Jansson}.

Lemma json2slotmap_range j b c :
  json2slotmap j = Some (b, c) → rest_range (SlotMapping b c SLMAP_S_NEW).
Proof.
  unfold json2slotmap. destruct (json_is_object j); [|done]. cbn [negb].
  destruct (json_object_get j "bank") as [jb|]; [|done]. cbn [mbind option_bind].
  destruct (json_is_object jb); [|done]. cbn [negb].
  destruct (json_object_get j "client") as [jc|]; [|done]. cbn [mbind option_bind].
  destruct (json_is_object jc); [|done]. cbn [negb].
  destruct (json2bank_slot jb) as [b'|] eqn:Hb; [|done]. cbn [mbind option_bind].
  destruct (json2client_slot jc) as [c'|] eqn:Hc; [|done]. cbn [mbind option_bind]. intros [= <- <-].
  unfold json2bank_slot in Hb. destruct (negb _); [done|].
  destruct (json_get_int jb "bankId") as [i|]; [|done]. cbn [mbind option_bind] in Hb.
  destruct (json_get_int jb "slotNr") as [n|]; [|done]. cbn [mbind option_bind] in Hb.
  unfold json2client_slot in Hc. destruct (negb _); [done|].
  destruct (json_get_int jc "clientId") as [i'|]; [|done]. cbn [mbind option_bind] in Hc.
  destruct (json_get_int jc "slotNr") as [n'|]; [|done]. cbn [mbind option_bind] in Hc.
  cbn [bank_id bslot_nr client_id cslot_nr] in *.
  destruct (_ || _) eqn:Eb in Hb; [done|]. destruct (_ || _) eqn:Ec in Hc; [done|].
  injection Hb as <-. injection Hc as <-. apply orb_false_iff in Eb, Ec.
  rewrite !Z.ltb_ge in Eb, Ec. unfold rest_range; cbn.
  pose proof (wrap_range 16 i). pose proof (wrap_range 16 n).
  pose proof (wrap_range 16 i'). pose proof (wrap_range 16 n'). lia.
Qed.

Lemma wp_trigger s (Q : () → rspro_server → Prop) :
  srv_inv z None s → (∀ s', srv_inv z None s' → Q () s') →
  wpe E trigger_main_thread_via_eventfd s Q.
Proof. intros Hinv HQ. by apply wp_modify, HQ. Qed.

(** The id that a REST call names is not that of a mapping which another call
    is adding. *)
Definition deletes_no_post (errno : Z) (req : _u_request) : Prop :=
  ∀ str x b c st, map_url req "slotmap_id" = Some str → (x, b) ∈ pend →
    slotmap_get_id (SlotMapping b c st) ≠ (strtoul10 errno str).1.

Lemma wp_slotmaps_del errno req s (Q : u_response → rspro_server → Prop) :
  srv_inv z None s → (undisturbed → deletes_no_post errno req) → (∀ r s', srv_inv z None s' → Q r s') →
  wpe E (api_cb_slotmaps_del errno req) s Q.
Proof.
  intros Hinv Hnp HQ. unfold api_cb_slotmaps_del, deletes_no_post in *.
  destruct (map_url req "slotmap_id") as [str|]; [|by apply wp_ret, HQ].
  destruct (strtoul10 errno str) as [id en] eqn:Hid. destruct (_ && _); [by apply wp_ret, HQ|].
  apply wp_bind, wp_gets, wp_bind, wp_zoom.
  eapply wp_mono; [apply wp_find_map, (mi_wf _ _ _ (proj2 Hinv))|]. intros r sm [-> Hr].
  replace (set_srv_slotmaps (srv_slotmaps s) s) with s by (by destruct s).
  apply wp_bind. assert (∀ st s', srv_inv z None s' → wpe E (trigger_main_thread_via_eventfd ;;
    mret (ulfius_set_empty_body_response st)) s' Q) as Hend.
  { intros st s' Hs'. apply wp_bind, wp_trigger; [done|]. intros s'' Hs''. by apply wp_ret, HQ. }
  destruct r as [x|]; [|by apply wp_ret, Hend]. destruct Hr as (Hx & m & Hxm & Heq%Z.eqb_eq).
  apply wp_bind, (wp_mark_deleted x s); [done..| |].
  - intros Hund ([y b] & -> & Hy)%list_elem_of_fmap.
    apply (Hnp Hund str y b (sm_client m) (sm_state m) eq_refl Hy). rewrite Hid. cbn. rewrite <-Heq.
    f_equal. rewrite <-(proj1 (mi_pend _ _ _ (proj2 Hinv) y b Hy) m Hxm). by destruct m.
  - intros s' Hs' _. by apply wp_ret, Hend.
Qed.

Lemma wp_global_reset req s (Q : u_response → rspro_server → Prop) :
  srv_inv z None s → (undisturbed → pend = []) →
  (∀ r s', srv_inv z None s' → mappings (srv_slotmaps s') = [] → Q r s') →
  wpe E (api_cb_global_reset_post req) s Q.
Proof.
  intros Hinv Hnp HQ. apply wp_bind, wp_gets, wp_bind.
  remember (mappings (srv_slotmaps s)) as k eqn:Hk. revert s Hinv Hk.
  induction k as [|x k IH]; intros s Hinv Hk; cbn [for_each].
  { apply wp_ret, wp_bind, wp_modify, wp_ret, HQ; [done|]. by cbn. }
  assert (NoDup (x :: k)) as Hnd by (rewrite Hk; apply (mi_wf _ _ _ (proj2 Hinv))).
  apply wp_bind, (wp_mark_deleted x s); [done|rewrite <-Hk; left| |].
  { intros Hund. rewrite (Hnp Hund). by intros []%elem_of_nil. }
  intros s' Hs' Hm'. apply IH; [done|]. by rewrite Hm', <-Hk, unlink_head.
Qed.
End events.

(** ** The first and the last section of a REST call that adds a mapping *)

Section post.
Context `{OsmoLib, Talloc, RsproCodec, IpaLib}.
Context {E : abort → Prop} {z : Prop}.

Lemma wp_post_add (P : PostCalls) b c s (Q : option loc → rspro_server → Prop) :
  srv_inv (H := P) z None s → rest_range (SlotMapping b c SLMAP_S_NEW) →
  (∀ x b', (x, b') ∈ @pend P → is_Some (heap (srv_slotmaps s) !! x)) →
  Q None s →
  (∀ x s', x ∉ (@pend P).*1 → srv_inv (H := pend_add x b P) z None s' →
     srv_slotmaps s' = link_new x b c (srv_slotmaps s) → heap (srv_slotmaps s) !! x = None → Q (Some x) s') →
  wpe E (slotmaps_post_add b c) s Q.
Proof.
  intros Hinv Hr Hlive HQ0 HQ. pose proof (proj2 Hinv) as Hm. apply wp_zoom.
  eapply wp_mono; [apply wp_slotmap_add, Hm|]. intros [x|] sm [Hwf Hx].
  2:{ destruct Hx as [-> _]. by destruct s. }
  destruct Hx as (Hxd & -> & Hb & Hc). apply not_elem_of_dom in Hxd.
  assert (x ∉ (@pend P).*1) as Hxp.
  { intros ([y b'] & -> & Hy)%list_elem_of_fmap. destruct (Hlive y b' Hy). cbn in Hxd. congruence. }
  apply HQ; [done| |done..]. split; [apply Hinv|]. by apply minv_link_new.
Qed.

(** The mapping is associated with its bankd, if that is connected, and the call
    is over. *)
Lemma wp_post_link (P P' : PostCalls) x b s (Q : () → rspro_server → Prop) :
  srv_inv (H := P) z None s → (x, b) ∈ @pend P →
  (@undisturbed P' → @undisturbed P) → x ∉ (@pend P').*1 → (∀ q, q ∈ @pend P ↔ q = (x, b) ∨ q ∈ @pend P') →
  (heap (srv_slotmaps s) !! x = None → E AUndef) →
  (∀ s', srv_inv (H := P') z None s' → view s' = view s → Q () s') →
  wpe E (slotmaps_post_link x b) s Q.
Proof.
  intros Hinv Hx Hund Hxp Hpp HU HQ. pose proof Hinv as [Hc Hm].
  assert (inj_ids (ids (view s))) as Hinj by (intros ???; by eapply ids_inj).
  unfold slotmaps_post_link. apply wp_bind, wp_gets, wp_bind.
  eapply wp_mono; [apply wp_find_conn; intros; eapply (inv_alive (H3:=P) (z:=z) None s); [exact Hinv|auto]|].
  intros r s' [-> Hr]. destruct r as [l|].
  - destruct Hr as (Hl & cl & Hcl & Hid%Z.eqb_eq).
    assert (ids (view s) l = Some (bank_id b)) as Hidl.
    { rewrite (inv_ids (H3:=P) (z:=z) None s l cl); [congruence|exact Hinv|done..]. }
    apply wp_bind, wp_zoom. destruct (heap (srv_slotmaps s) !! x) as [m|] eqn:Hxm.
    2:{ unfold Slotmap_state_change, _Slotmap_state_change, map_at. apply wp_bind, wp_bind, wp_gets.
        rewrite Hxm. by apply wp_undef, HU. }
    pose proof (proj1 (mi_pend _ _ _ Hm x b Hx) m Hxm) as Hb.
    apply (wp_state_change _ _ _ _ m); [done|]. apply wp_modify, HQ; [|done]. split; [done|]. cbn -[relink].
    assert (minv (H := P') (Some l) (ids (view s)) (srv_slotmaps s)) as Hml.
    { destruct Hm as [Hwf Hli Hg Ha Hlis Hra Hp]. split; [done..| |done|done|].
      - intros y my l' Hy Hmy Hidy Hol Hyp. apply (Ha y my l'); [done..|].
        intros ([y' by'] & -> & [[= -> ->]|Hy']%Hpp)%list_elem_of_fmap.
        + apply Hol. f_equal. eapply Hinj; [exact Hidl|]. cbn in Hmy. congruence.
        + apply Hyp, list_elem_of_fmap. by exists (y', by').
      - intros y by' Hy. destruct (Hp y by') as [? Hu]; [apply Hpp; by right|]. split; [done|].
        intros Hu'. by apply Hu, Hund. }
    eapply minv_unbusy.
    { eapply (minv_relink (H:=P')); [exact Hml|done|done|by rewrite Hb|done|by left|by intros _]. }
    intros y my Hy (my' & Hmy & Hb1 & _)%relink_lookup Hidy Hyp.
    setoid_rewrite elem_of_bank_list_relink. destruct (decide (y = x)) as [->|Hyx]; [eauto|].
    destruct (mi_assoc _ _ _ Hm y my' l) as [f Hf]; [done|done|by rewrite <-Hb1|done| |eauto].
    intros ([y' by'] & -> & [[= -> ->]|Hy']%Hpp)%list_elem_of_fmap; [done|].
    apply Hyp, list_elem_of_fmap. by exists (y', by').
  - apply wp_ret, HQ; [|done]. split; [done|]. eapply (minv_fewer P P'); [done..| |].
    + intros q Hq. apply Hpp. by right.
    + intros y by' m l [[= -> ->]|Hy]%Hpp Hyp Hym Hmy Hidl.
      * exfalso. rewrite (proj1 (mi_pend _ _ _ Hm x b Hx) m Hmy) in Hidl.
        pose proof (ids_Some _ _ _ Hidl) as Hlb.
        destruct (inv_alive (H3:=P) (z:=z) None s l) as [cl Hcl]; [exact Hinv|by right|].
        rewrite (inv_ids (H3:=P) (z:=z) None s l cl) in Hidl; [|exact Hinv|done..].
        specialize (Hr l cl Hlb Hcl). apply Z.eqb_neq in Hr. congruence.
      * destruct Hyp. apply list_elem_of_fmap. by exists (y, by').
Qed.
End post.

