(* ===== verification/ServerProps.v ===== *)
(** * Properties of the server

    The step relation of the server, and its properties: what holds of every
    reachable state, which events are safe, and what the events do. *)

From S2P Require Import Prelude OsmoFsm Slotmap RsproPdu RsproUtil Ipa RsproServer RestApi.
From S2P Require Import ServerInv ServerSystem.

(** ** The events and the step relation *)

Section system.
Context `{OsmoLib, Talloc, RsproCodec, IpaLib, Jansson}.

(** A REST call that adds a mapping runs in three critical sections
    ([api_cb_slotmaps_post]): the mapping is added to the list, it is reset to
    NEW outside of any list of a bankd, and it is linked to the bankd of its bank
    if that is connected.  Between them other threads run.  A call under way
    holds the pointer to the mapping and its bank slot; [post_valid] is false once
    the mapping has been freed meanwhile, so that an address which is used again
    is not taken for the old mapping. *)
Record post_call := PostCall {
  post_map : loc;
  post_bank : bank_slot;
  post_valid : bool;
  post_is_reset : bool;
}.

(** The server and the REST calls under way. *)
Record srv_sys := SrvSys {
  sys_srv :> rspro_server;
  posts : list post_call;
}.

Definition set_posts (ps : list post_call) (t : srv_sys) : srv_sys := SrvSys (sys_srv t) ps.

Definition on_srv {A} (m : M rspro_server A) : M srv_sys A :=
  zoom sys_srv (λ s t, SrvSys s (posts t)) m.

(** Calls whose mapping does not exist any more. *)
Definition prune_call (s : rspro_server) (p : post_call) : post_call :=
  PostCall (post_map p) (post_bank p)
    (post_valid p && bool_decide (is_Some (heap (srv_slotmaps s) !! post_map p))) (post_is_reset p).

Definition prune (t : srv_sys) : srv_sys := set_posts (prune_call t <$> posts t) t.

(** The last section with a mapping that was freed: the pointer is used only
    if the bankd is found. *)
Definition post_link_freed (b : bank_slot) : M rspro_server () :=
  k ← gets banks;
  conn ← find_conn (λ c, conn_bank_id c =? bank_id b) k;
  match conn with Some _ => undef | None => mret () end.

(** What can happen to the server: the call-backs of the main loop and the
    calls of the REST threads that change its state, the call that adds a mapping
    in its three sections ([n] is the position of the call among those under
    way). *)
Inductive srv_event :=
| EvAccept (peer : option loc) (fi_ok ka_ok : bool)
| EvRead (peer : loc) (res : Z) (m : ipa_msg)
| EvClosed (peer : loc)
| EvKaTimeout (peer : loc)
| EvTimer (l : loc)
| EvEventFd (rc : Z)
| EvPost (req : _u_request)
| EvPostReset (n : nat)
| EvPostLink (n : nat)
| EvDel (errno : Z) (req : _u_request)
| EvReset (req : _u_request).

Definition event_body (e : srv_event) : M srv_sys () :=
  match e with
  | EvAccept peer fi_ok ka_ok => on_srv (accept_cb peer fi_ok ka_ok) ;; mret ()
  | EvRead peer res m => on_srv (sock_read_cb peer res m) ;; mret ()
  | EvClosed peer => on_srv (sock_closed_cb fsm_K peer) ;; mret ()
  | EvKaTimeout peer => on_srv (ipa_keepalive_timeout_cb peer) ;; mret ()
  | EvTimer l => on_srv (server_client_fsm_tmr l)
  | EvEventFd rc => on_srv (event_fd_cb rc) ;; mret ()
  | EvPost req =>
      added ← on_srv (slotmaps_post_begin req);
      match added with
      | Some (x, b) => modify (λ t, set_posts (posts t ++ [PostCall x b true false]) t)
      | None => mret ()
      end
  | EvPostReset n =>
      p ← gets (λ t, posts t !! n) ≫= deref;
      (if post_valid p then on_srv (slotmaps_post_reset (post_map p)) else undef) ;;
      modify (λ t, set_posts (<[n := PostCall (post_map p) (post_bank p) (post_valid p) true]> (posts t)) t)
  | EvPostLink n =>
      p ← gets (λ t, posts t !! n) ≫= deref;
      on_srv (if post_valid p then slotmaps_post_link (post_map p) (post_bank p)
              else post_link_freed (post_bank p)) ;;
      modify (λ t, set_posts (delete n (posts t)) t)
  | EvDel errno req => on_srv (api_cb_slotmaps_del errno req) ;; mret ()
  | EvReset req => on_srv (api_cb_global_reset_post req) ;; mret ()
  end.

Definition run_event (e : srv_event) : M srv_sys () := event_body e ;; modify prune.

(** What the libraries guarantee of an event: a new socket object is distinct
    from the live ones, call-backs come for live sockets, an IPA message is not
    empty, and a timer fires only while it is pending; a REST call continues with
    its next section. *)
Definition ev_possible (s : srv_sys) (e : srv_event) : bool :=
  let live p := bool_decide (is_Some (peer_data s !! p)) in
  match e with
  | EvAccept (Some p) _ _ => negb (live p)
  | EvRead p _ m => live p && bool_decide (l2_data m ≠ [])
  | EvClosed p => live p
  | EvKaTimeout p => live p
  | EvTimer l =>
      match conns s !! l with
      | Some c => match conn_fi c with
                  | Some fi => bool_decide (is_Some (fi_timer fi))
                  | None => false
                  end
      | None => false
      end
  | EvPostReset n => match posts s !! n with Some p => negb (post_is_reset p) | None => false end
  | EvPostLink n => match posts s !! n with Some p => post_is_reset p | None => false end
  | _ => true
  end.

(** Events that keep to the protocol: memory is available when a connection is
    accepted, no connection times out in the keep-alive, a bankd only sends the
    responses that are awaited, and while a REST call is adding a mapping no bankd
    announces the bank of that mapping, no other call deletes it by its id and
    none deletes everything. *)
Definition ev_benign (s : srv_sys) (e : srv_event) : bool :=
  match e with
  | EvAccept _ fi_ok ka_ok => fi_ok && ka_ok
  | EvRead p _ m =>
      match peer_data s !! p, rspro_dec_msg (l2_data m) with
      | Some l, Some pdu =>
          match msg pdu with
          | PR_createMappingRes _ => bool_decide (bank_list (srv_slotmaps s) (l, maps_unack) ≠ [])
          | PR_removeMappingRes _ => bool_decide (bank_list (srv_slotmaps s) (l, maps_deleting) ≠ [])
          | PR_connectBankReq _ b _ => forallb (λ p, negb (bank_id (post_bank p) =? u16 b)) (posts s)
          | _ => true
          end
      | _, _ => true
      end
  | EvKaTimeout _ => false
  | EvDel errno req =>
      match map_url req "slotmap_id" with
      | Some str =>
          let id := (strtoul10 errno str).1 in
          forallb (λ p, negb (slotmap_get_id (SlotMapping (post_bank p) (ClientSlot 0 0) SLMAP_S_NEW) =? id))
            (posts s)
      | None => true
      end
  | EvReset _ => bool_decide (posts s = [])
  | _ => true
  end.

Definition srv_step (s s' : srv_sys) : Prop :=
  ∃ e, ev_possible s e = true ∧ run_event e s = Done ((), s').

Definition srv_step_benign (s s' : srv_sys) : Prop :=
  ∃ e, ev_possible s e = true ∧ ev_benign s e = true ∧ run_event e s = Done ((), s').

Definition srv_start (id : app_comp_id) : srv_sys := SrvSys (rspro_server_create id) [].

Definition reachable (id : app_comp_id) : srv_sys → Prop :=
  rtc srv_step (srv_start id).

Definition reachable_benign (id : app_comp_id) : srv_sys → Prop :=
  rtc srv_step_benign (srv_start id).

(** Executing a list of possible events. *)
Fixpoint run_trace (es : list srv_event) (s : srv_sys) : option srv_sys :=
  match es with
  | [] => Some s
  | e :: es =>
      if ev_possible s e then
        match run_event e s with
        | Done (_, s') => run_trace es s'
        | _ => None
        end
      else None
  end.

Lemma run_trace_steps es s s' : run_trace es s = Some s' → rtc srv_step s s'.
Proof.
  revert s. induction es as [|e es IH]; intros s; cbn [run_trace].
  { intros [= ->]. apply rtc_refl. }
  destruct (ev_possible s e) eqn:Hp; [|done].
  destruct (run_event e s) as [[[] s1]| | |] eqn:Hr; try done.
  intros Hes. eapply rtc_l; [|by apply IH]. by exists e.
Qed.

Fixpoint run_trace_benign (es : list srv_event) (s : srv_sys) : option srv_sys :=
  match es with
  | [] => Some s
  | e :: es =>
      if ev_possible s e && ev_benign s e then
        match run_event e s with
        | Done (_, s') => run_trace_benign es s'
        | _ => None
        end
      else None
  end.

Lemma run_trace_benign_steps es s s' :
  run_trace_benign es s = Some s' → rtc srv_step_benign s s'.
Proof.
  revert s. induction es as [|e es IH]; intros s; cbn [run_trace_benign].
  { intros [= ->]. apply rtc_refl. }
  destruct (ev_possible s e && ev_benign s e) eqn:Hp; [|done].
  apply andb_true_iff in Hp as [Hp Hb].
  destruct (run_event e s) as [[[] s1]| | |] eqn:Hr; try done.
  intros Hes. eapply rtc_l; [|by apply IH]. by exists e.
Qed.

(** The sections of a call that adds a mapping, with nothing between them, are
    [api_cb_slotmaps_post]. *)
Lemma slotmap_add_live b c sm x sm' :
  slotmap_add b c sm = Done (Some x, sm') → is_Some (heap sm' !! x).
Proof.
  unfold slotmap_add, mbind, M_bind. destruct (slotmap_by_bank b sm) as [[[y|] s1]| | |]; try done.
  destruct (slotmap_by_client c s1) as [[[y|] s2]| | |]; try done. cbn.
  destruct (talloc_zero _) as [l|]; [|done]. intros [= -> <-]. cbn. rewrite lookup_insert_eq. by eexists.
Qed.

Lemma state_change_live x st h sm sm' y :
  Slotmap_state_change x st h sm = Done ((), sm') → is_Some (heap sm' !! y) ↔ is_Some (heap sm !! y).
Proof.
  unfold Slotmap_state_change, _Slotmap_state_change, map_at, mbind, M_bind, gets.
  destruct (heap sm !! x) as [m|]; [|done]. cbn. intros [= <-]. cbn. rewrite lookup_alter.
  case_decide; [|done]. subst y. by rewrite fmap_is_Some.
Qed.

Theorem post_sections req t r s'
    (Hp : posts t = []) (Hrun : api_cb_slotmaps_post req t = Done (r, s')) :
  ∃ rest, (rest = [] ∨ rest = [EvPostReset 0; EvPostLink 0]) ∧
    run_trace (EvPost req :: rest) t = Some (SrvSys s' []).
Proof.
  destruct t as [s ps]. cbn in Hp. subst ps. unfold api_cb_slotmaps_post in Hrun.
  cbn [sys_srv] in Hrun. unfold mbind at 1, M_bind at 1 in Hrun.
  destruct (slotmaps_post_begin req s) as [[[[x b]|] s1]| | |] eqn:Hbeg; try done.
  2:{ injection Hrun as _ <-. exists []. split; [by left|]. cbn [run_trace ev_possible].
      unfold run_event, event_body, on_srv, zoom, mbind, M_bind. cbn [sys_srv]. by rewrite Hbeg. }
  exists [EvPostReset 0; EvPostLink 0]. split; [by right|].
  assert (is_Some (heap (srv_slotmaps s1) !! x)) as Hx1.
  { unfold slotmaps_post_begin in Hbeg. destruct (_ ≫= _) as [[b' c]|]; [|done].
    unfold slotmaps_post_add, on_slotmaps, zoom, mbind, M_bind in Hbeg.
    destruct (slotmap_add b' c (srv_slotmaps s)) as [[o sm]| | |] eqn:Hadd; try done.
    injection Hbeg as Ho <-. destruct o as [y|]; [|done]. injection Ho as -> _. by eapply slotmap_add_live. }
  unfold mbind at 1, M_bind at 1 in Hrun.
  destruct (slotmaps_post_reset x s1) as [[[] s2]| | |] eqn:Hres; try done.
  assert (is_Some (heap (srv_slotmaps s2) !! x)) as Hx2.
  { unfold slotmaps_post_reset, on_slotmaps, zoom in Hres.
    destruct (Slotmap_state_change _ _ _ _) as [[[] sm]| | |] eqn:Hch; try done. injection Hres as <-.
    by apply (state_change_live _ _ _ _ _ _ Hch). }
  unfold mbind, M_bind in Hrun.
  destruct (slotmaps_post_link x b s2) as [[[] s3]| | |] eqn:Hlink; try done. injection Hrun as _ <-.
  assert (∀ s' r', is_Some (heap (srv_slotmaps s') !! x) →
    prune (SrvSys s' [PostCall x b true r']) = SrvSys s' [PostCall x b true r']) as Hprune.
  { intros s' r' Hx. unfold prune, set_posts, prune_call. cbn. by rewrite bool_decide_true. }
  cbn [run_trace ev_possible].
  assert (run_event (EvPost req) (SrvSys s []) = Done ((), SrvSys s1 [PostCall x b true false])) as ->.
  { unfold run_event, event_body, on_srv, zoom, mbind, M_bind, modify. cbn [sys_srv]. rewrite Hbeg.
    unfold set_posts. cbn [posts sys_srv app]. by rewrite Hprune. }
  assert (run_event (EvPostReset 0) (SrvSys s1 [PostCall x b true false]) =
    Done ((), SrvSys s2 [PostCall x b true true])) as Hr2.
  { unfold run_event, event_body, on_srv, zoom, mbind, M_bind, modify, gets.
    cbn [posts sys_srv lookup list_lookup deref mret M_ret post_valid post_map]. rewrite Hres.
    unfold set_posts. cbn [posts sys_srv insert list_insert post_map post_bank]. by rewrite Hprune. }
  cbn [posts lookup list_lookup post_is_reset negb]. rewrite Hr2.
  cbn [posts lookup list_lookup post_is_reset].
  unfold run_event, event_body, on_srv, zoom, mbind, M_bind, modify, gets.
  cbn [posts sys_srv lookup list_lookup deref mret M_ret post_valid post_map post_bank]. by rewrite Hlink.
Qed.

(** ** The invariant *)

(** The calls under way as the invariant of the server sees them. *)
Definition post_key (p : post_call) : loc * bank_slot := (post_map p, post_bank p).

Definition pending (ps : list post_call) : list (loc * bank_slot) :=
  post_key <$> filter (λ p, post_valid p = true) ps.
Arguments pending : simpl never.

Lemma pending_cons p ps :
  pending (p :: ps) = if post_valid p then post_key p :: pending ps else pending ps.
Proof. unfold pending. rewrite filter_cons. by destruct (post_valid p). Qed.

Definition pcalls (z : Prop) (ps : list post_call) : PostCalls :=
  {| pend := pending ps; undisturbed := z |}.

Lemma elem_of_pend z ps q :
  q ∈ @pend (pcalls z ps) ↔ ∃ p, p ∈ ps ∧ post_valid p = true ∧ post_key p = q.
Proof.
  cbn [pend pcalls]. unfold pending. rewrite list_elem_of_fmap. setoid_rewrite list_elem_of_filter.
  split; [intros (p & Hq & ? & ?)|intros (p & ? & ? & Hq)]; exists p; by split; [|split].
Qed.

(** [z] says that no connected peer has lost its socket and that no call under
    way was disturbed. *)
Record sys_inv (z : Prop) (t : srv_sys) : Prop := {
  si_srv : srv_inv (H := pcalls z (posts t)) z None t;
  si_nodup : NoDup (pending (posts t)).*1;
  si_live : ∀ p, p ∈ posts t → post_valid p = true → is_Some (heap (srv_slotmaps t) !! post_map p);
  si_valid : z → ∀ p, p ∈ posts t → post_valid p = true;
}.

Lemma inv_create z id : sys_inv z (srv_start id).
Proof.
  split; cbn; [|apply NoDup_nil_2|set_solver..].
  split; split; cbn; try exact wf_init; try apply NoDup_nil_2; try set_solver.
Qed.

Lemma pend_valid_sublist (f : post_call → post_call) ps :
  (∀ p, post_key (f p) = post_key p) → (∀ p, post_valid (f p) = true → post_valid p = true) →
  sublist (post_key <$> filter (λ p, post_valid p = true) (f <$> ps))
          (post_key <$> filter (λ p, post_valid p = true) ps).
Proof.
  intros Hk Hv. induction ps as [|p ps IH]; [done|]. cbn [fmap list_fmap].
  rewrite !filter_cons. specialize (Hk p). specialize (Hv p).
  destruct (decide (post_valid (f p) = true)), (decide (post_valid p = true)); cbn; try done.
  - rewrite Hk. by apply sublist_skip.
  - destruct n. by apply Hv.
  - by apply sublist_cons.
Qed.

Lemma fmap_sublist {A B} (f : A → B) k k' : sublist k k' → sublist (f <$> k) (f <$> k').
Proof. induction 1; cbn; by constructor. Qed.

Lemma filter_sublist {A} (P : A → Prop) `{∀ x, Decision (P x)} k k' :
  sublist k k' → sublist (filter P k) (filter P k').
Proof.
  induction 1; [done|..]; rewrite !filter_cons; case_decide; try done; by constructor.
Qed.

(** After an event the calls whose mapping is gone do not count any more. *)
Lemma inv_prune (z : Prop) t :
  srv_inv (H := pcalls z (posts t)) z None t → NoDup (pending (posts t)).*1 →
  (z → ∀ p, p ∈ posts t → post_valid p = true) → sys_inv z (prune t).
Proof.
  intros [Hc Hm] Hnd Hval.
  assert (sublist (@pend (pcalls z (posts (prune t)))) (@pend (pcalls z (posts t)))) as Hsub.
  { apply pend_valid_sublist; [done|]. intros p. cbn. by intros [? _]%andb_true_iff. }
  assert (∀ q, q ∈ @pend (pcalls z (posts t)) → is_Some (heap (srv_slotmaps t) !! q.1) →
    q ∈ @pend (pcalls z (posts (prune t)))) as Hkeep.
  { intros q (p & Hp & Hv & <-)%elem_of_pend Hl. apply elem_of_pend. exists (prune_call t p).
    split; [apply list_elem_of_fmap; by exists p|]. split; [|done]. cbn. rewrite Hv. by apply bool_decide_eq_true. }
  split.
  - split; [done|]. eapply (minv_fewer (pcalls z (posts t))); [exact Hm|done| |].
    + intros q Hq. by eapply elem_of_sublist.
    + intros x b m l Hx Hxn Hxs Hxm. destruct Hxn. apply list_elem_of_fmap.
      exists (x, b). split; [done|]. apply Hkeep; [done|by eexists].
  - eapply sublist_NoDup; [exact Hnd|]. by apply fmap_sublist.
  - intros p (p' & -> & Hp')%list_elem_of_fmap Hv. cbn in Hv. apply andb_true_iff in Hv as [_ Hv].
    by apply bool_decide_eq_true in Hv.
  - intros Hz p (p' & -> & Hp')%list_elem_of_fmap. cbn. rewrite (Hval Hz) by done.
    apply bool_decide_eq_true. eapply (wf_alloc _ (mi_wf _ _ _ Hm)).
    eapply (mi_pend _ _ _ Hm); [|exact Hz]. apply elem_of_pend. exists p'. split; [done|].
    split; [by apply Hval|]. reflexivity.
Qed.

(** The invariant before the calls are looked through. *)
Definition sys_mid (z : Prop) (t : srv_sys) : Prop :=
  srv_inv (H := pcalls z (posts t)) z None t ∧ NoDup (pending (posts t)).*1 ∧
  (z → ∀ p, p ∈ posts t → post_valid p = true).

Lemma sys_mid_on (z : Prop) t s :
  sys_inv z t → srv_inv (H := pcalls z (posts t)) z None s → sys_mid z (SrvSys s (posts t)).
Proof. by intros [_ Hnd _ Hv] Hs. Qed.

Lemma wp_on_srv {A} E (m : M rspro_server A) t (Q : A → srv_sys → Prop) :
  wpe E m (sys_srv t) (λ a s, Q a (SrvSys s (posts t))) → wpe E (on_srv m) t Q.
Proof. intros Hw. by apply wp_zoom. Qed.

(** Resetting a call and dropping it. *)
Lemma pend_reset ps n p b :
  ps !! n = Some p →
  pending (<[n := PostCall (post_map p) (post_bank p) (post_valid p) b]> ps) = pending ps.
Proof.
  revert n. induction ps as [|p' ps IH]; intros [|n] Hn; try done; cbn in Hn |- *; rewrite !pending_cons.
  - by injection Hn as ->.
  - by rewrite IH.
Qed.

Lemma pend_drop ps n p :
  ps !! n = Some p → post_valid p = true → NoDup (pending ps).*1 →
  (post_map p ∉ (pending (delete n ps)).*1) ∧
  ∀ q, q ∈ pending ps ↔ q = post_key p ∨ q ∈ pending (delete n ps).
Proof.
  revert n. induction ps as [|p' ps IH]; intros [|n] Hn Hv Hnd; try done; cbn in Hn |- *.
  - injection Hn as ->. rewrite pending_cons, Hv in Hnd. rewrite (pending_cons p), Hv. cbn in Hnd.
    apply NoDup_cons in Hnd as [Hx _]. split; [done|]. intros q. by rewrite elem_of_cons.
  - rewrite pending_cons in Hnd. rewrite (pending_cons _ ps), (pending_cons _ (delete n ps)). destruct (post_valid p'); [|by apply IH]. cbn in Hnd |- *.
    apply NoDup_cons in Hnd as [Hx Hnd]. destruct (IH n) as [Hm Hq]; [done..|]. split.
    + intros [Heq|Hin]%elem_of_cons; [|done]. apply Hx. cbn in Heq. rewrite <-Heq.
      apply list_elem_of_fmap. exists (post_key p). split; [done|]. by apply Hq; left.
    + intros q. rewrite !elem_of_cons, Hq. tauto.
Qed.

Lemma pend_delete_invalid ps n p :
  ps !! n = Some p → post_valid p = false → pending (delete n ps) = pending ps.
Proof.
  revert n. induction ps as [|p' ps IH]; intros [|n] Hn Hv; try done; cbn in Hn |- *; rewrite !pending_cons.
  - injection Hn as ->. by rewrite Hv.
  - by rewrite IH.
Qed.

Lemma srv_inv_same (P P' : PostCalls) z o s :
  @pend P = @pend P' → @undisturbed P = @undisturbed P' → srv_inv (H := P) z o s → srv_inv (H := P') z o s.
Proof. destruct P, P'. cbn. by intros -> ->. Qed.

Section memory.
Hypothesis talloc_total : ∀ X, is_Some (talloc_zero X).

Lemma awaited_benign t p res m :
  ev_benign t (EvRead p res m) = true → awaited_msg t p m.
Proof.
  cbn. intros Hb l pdu Hp Hd. rewrite Hp, Hd in Hb. unfold awaited.
  destruct (msg pdu); try done; by apply bool_decide_eq_true in Hb.
Qed.

Lemma finds_none_benign z t p l res m pdu :
  ev_benign t (EvRead p res m) = true → peer_data t !! p = Some l → rspro_dec_msg (l2_data m) = Some pdu →
  finds_no_post (H3 := pcalls z (posts t)) (msg pdu).
Proof.
  cbn [ev_benign]. intros Hb Hp Hd. rewrite Hp, Hd in Hb. destruct (msg pdu); try done.
  intros x b' (q & Hq & _ & [= _ <-])%elem_of_pend. rewrite forallb_forall in Hb.
  apply Z.eqb_neq, negb_true_iff, Hb. by apply list_elem_of_In.
Qed.

Lemma deletes_none_benign z t errno req :
  ev_benign t (EvDel errno req) = true → deletes_no_post (H3 := pcalls z (posts t)) errno req.
Proof.
  cbn [ev_benign]. intros Hb str x b c st Hs (q & Hq & _ & [= _ <-])%elem_of_pend. rewrite Hs in Hb.
  rewrite forallb_forall in Hb. apply Z.eqb_neq, negb_true_iff. apply (Hb q). by apply list_elem_of_In.
Qed.

Section one_event.
Context {E : abort → Prop} {z : Prop}.

Lemma post_begin_mid t req :
  sys_inv z t → wpe E (event_body (EvPost req)) t (λ _, sys_mid z).
Proof.
  intros Hinv. cbn [event_body]. apply wp_bind, wp_on_srv. unfold slotmaps_post_begin.
  assert (wpe E (mret () : M srv_sys ()) (SrvSys t (posts t)) (λ _, sys_mid z)) as Hnone.
  { apply wp_ret, sys_mid_on; [done|apply Hinv]. }
  destruct (_ ≫= _) as [[b c]|] eqn:Hj; [|by apply wp_ret].
  apply wp_bind, (wp_post_add (z := z) (pcalls z (posts t))); [apply Hinv| | | |].
  - destruct (json_body_request req) as [j|]; [|done]. by apply (json2slotmap_range j).
  - intros x b' (p & Hp & Hv & [= <- _])%elem_of_pend. by apply (si_live _ _ Hinv).
  - by apply wp_ret.
  - intros x s' Hx Hs' _ _. apply wp_ret. cbn. apply wp_modify.
    assert (pending (posts t ++ [PostCall x b true false]) = pending (posts t) ++ [(x, b)]) as Hpe.
    { unfold pending. by rewrite filter_app, fmap_app. }
    split; [|split].
    + eapply srv_inv_same; [..|exact Hs']; [by cbn; rewrite Hpe|done].
    + cbn [posts set_posts]. rewrite Hpe, fmap_app. apply NoDup_app. split; [apply Hinv|]. split; [|apply NoDup_singleton].
      intros y Hy Hyx%list_elem_of_singleton. by subst y.
    + intros Hz p [Hp|Hp%list_elem_of_singleton]%elem_of_app; [|by subst p].
      by apply (si_valid _ _ Hinv Hz).
Qed.

Lemma post_reset_mid t n :
  (z ∨ E AUndef) → sys_inv z t → ev_possible t (EvPostReset n) = true →
  wpe E (event_body (EvPostReset n)) t (λ _, sys_mid z).
Proof.
  intros HE Hinv Hp. cbn [event_body ev_possible] in *.
  destruct (posts t !! n) as [p|] eqn:Hn; [|done]. apply wp_bind, wp_bind, wp_gets. rewrite Hn. apply wp_ret, wp_bind.
  apply list_elem_of_lookup_2 in Hn as Hin. destruct (post_valid p) eqn:Hv.
  2:{ apply wp_undef. destruct HE as [Hz|]; [|done]. rewrite (si_valid _ _ Hinv Hz p Hin) in Hv. discriminate Hv. }
  apply wp_on_srv. eapply (wp_post_reset (z := z) (H3 := pcalls z (posts t))); [apply Hinv| | |].
  - apply elem_of_pend. by exists p.
  - intros Hx. destruct (si_live _ _ Hinv p Hin Hv) as [m Hm]. cbn in Hx. congruence.
  - intros s' Hs' _. apply wp_modify. split; [|split].
    + eapply srv_inv_same; [..|exact Hs']; [|done]. symmetry. rewrite <-Hv. by apply pend_reset.
    + cbn [posts set_posts]. rewrite <-Hv. rewrite pend_reset by done. apply Hinv.
    + intros Hz q Hq. cbn in Hq. apply list_elem_of_lookup_1 in Hq as [i [(_ & <- & _)|[_ Hi]]%list_lookup_insert_Some]; [done|].
      apply (si_valid _ _ Hinv Hz). by eapply list_elem_of_lookup_2.
Qed.

Lemma post_link_mid t n :
  (z ∨ E AUndef) → sys_inv z t → ev_possible t (EvPostLink n) = true →
  wpe E (event_body (EvPostLink n)) t (λ _, sys_mid z).
Proof.
  intros HE Hinv Hp. cbn [event_body ev_possible] in *.
  destruct (posts t !! n) as [p|] eqn:Hn; [|done]. apply wp_bind, wp_bind, wp_gets. rewrite Hn. apply wp_ret, wp_bind, wp_on_srv.
  apply list_elem_of_lookup_2 in Hn as Hin. cbn [posts sys_srv].
  assert (∀ s, srv_inv (H := pcalls z (delete n (posts t))) z None s →
    NoDup (pending (delete n (posts t))).*1 →
    sys_mid z (set_posts (delete n (posts (SrvSys s (posts t)))) (SrvSys s (posts t)))) as Hend.
  { intros s Hs Hnd. split; [done|]. split; [done|]. intros Hz q Hq. apply (si_valid _ _ Hinv Hz).
    cbn in Hq. by eapply list_elem_of_delete_inv. }
  assert (NoDup (pending (delete n (posts t))).*1) as Hnd'.
  { eapply sublist_NoDup; [apply (si_nodup _ _ Hinv)|]. apply fmap_sublist, fmap_sublist, filter_sublist, sublist_delete. }
  destruct (post_valid p) eqn:Hv.
  - destruct (pend_drop _ _ _ Hn Hv (si_nodup _ _ Hinv)) as [Hx Hq].
    eapply (wp_post_link (z := z) (pcalls z (posts t)) (pcalls z (delete n (posts t)))).
    + apply Hinv.
    + apply elem_of_pend. by exists p.
    + done.
    + done.
    + exact Hq.
    + intros Hm. destruct (si_live _ _ Hinv p Hin Hv) as [m Hm']. cbn in Hm. congruence.
    + intros s' Hs' _. apply wp_modify. by apply Hend.
  - assert (¬ z) as Hz. { intros Hz. rewrite (si_valid _ _ Hinv Hz p Hin) in Hv. discriminate Hv. }
    unfold post_link_freed. apply wp_bind, wp_gets, wp_bind.
    eapply wp_mono; [apply wp_find_conn; intros l Hl; eapply (inv_alive (H3:=pcalls z (posts t)) (z:=z) None t); [apply Hinv|by right]|].
    intros r s' [-> _]. destruct r; [apply wp_undef; tauto|]. apply wp_ret, wp_modify. apply Hend; [|done].
    eapply srv_inv_same; [..|apply Hinv]; [|done]. symmetry. by apply pend_delete_invalid with p.
Qed.

(** The events that never access an undefined pointer. *)
Definition quiet_event (e : srv_event) : Prop :=
  match e with
  | EvAccept _ _ _ | EvRead _ _ _ | EvPostReset _ | EvPostLink _ => False
  | _ => True
  end.

(** One event preserves the invariant.  Only an event that is not benign ends
    the absence of disturbances. *)
Lemma event_inv t e :
  sys_inv z t → ev_possible t e = true →
  ((z ∧ ev_benign t e = true) ∨ (¬ z ∧ (E AUndef ∨ quiet_event e))) →
  wpe E (run_event e) t (λ _, sys_inv z).
Proof using talloc_total.
  intros Hinv Hp Hb. unfold run_event. apply wp_bind.
  cut (wpe E (event_body e) t (λ _, sys_mid z)).
  { intros Hw. eapply wp_mono; [exact Hw|]. intros [] t' (? & ? & ?). by apply wp_modify, inv_prune. }
  assert (z ∨ E AUndef ∨ quiet_event e) as HE by tauto. pose proof (si_srv _ _ Hinv) as Hs.
  assert (ev_benign t e = true ∨ E AUndef ∨ quiet_event e) as Hb' by tauto.
  assert (z → ev_benign t e = true) as Hz by tauto.
  destruct e as [peer f k|p res m|p|p|l|rc|req|n|n|en req|req];
    [| | | | | |by apply post_begin_mid|apply post_reset_mid; [cbn in HE; tauto|done..]
    |apply post_link_mid; [cbn in HE; tauto|done..]| |];
    try (cbn [event_body ev_possible] in *; apply wp_bind, wp_on_srv).
  - apply (wp_accept (H3:=pcalls z (posts t)) (z:=z)); [done..| | |by intros; apply wp_ret, sys_mid_on].
    + intros p ->. apply negb_true_iff, bool_decide_eq_false, eq_None_not_Some in Hp. done.
    + destruct Hb' as [[-> ->]%andb_true_iff|[|[]]]; auto.
  - apply andb_true_iff in Hp as [[l Hl]%bool_decide_eq_true Hl2%bool_decide_eq_true].
    assert (z ∨ E AUndef) as HE' by (cbn in HE; tauto).
    eapply (wp_read_cb (H3:=pcalls z (posts t)) HE'); [done..| | |by intros; apply wp_ret, sys_mid_on].
    + destruct Hb' as [Hb'|[?|[]]]; [left|by right]. by eapply awaited_benign.
    + intros pdu Hd Hu. eapply finds_none_benign; [by apply Hz|done..].
  - apply bool_decide_eq_true in Hp as [l Hl].
    eapply (wp_closed_cb (H3:=pcalls z (posts t))); [done..|by left|]. intros s' Hs' _. by apply wp_ret, sys_mid_on.
  - apply bool_decide_eq_true in Hp as [l Hl]. destruct Hb as [[_ ?]|[Hnz _]]; [done|].
    apply (wp_ka_timeout (H3:=pcalls z (posts t)) (z:=z) p l _ z); [done..|done|by intros; apply wp_ret, sys_mid_on].
  - cbn [event_body ev_possible] in *. apply wp_on_srv. destruct (conns t !! l) as [c|] eqn:Hc; [|done].
    destruct (conn_fi c) as [fi|] eqn:Hfi; [|done]. apply bool_decide_eq_true in Hp.
    eapply (wp_timer (H3:=pcalls z (posts t)) (z:=z)); eauto. intros; by apply sys_mid_on.
  - apply (wp_event_fd (H3:=pcalls z (posts t)) (z:=z)); [done..|by intros; apply wp_ret, sys_mid_on].
  - apply (wp_slotmaps_del (H3:=pcalls z (posts t)) (z:=z)); [done| |by intros; apply wp_ret, sys_mid_on].
    intros Hu. by apply deletes_none_benign, Hz.
  - apply (wp_global_reset (H3:=pcalls z (posts t)) (z:=z)); [done| |by intros; apply wp_ret, sys_mid_on].
    intros Hu. specialize (Hz Hu). apply bool_decide_eq_true in Hz. cbn [pend pcalls]. by rewrite Hz.
Qed.
End one_event.

Lemma reachable_inv id t : reachable id t → sys_inv False t.
Proof using talloc_total.
  intros Hr. assert (sys_inv False (srv_start id)) as H0' by apply inv_create.
  unfold reachable in Hr. induction Hr as [|s s' s'' (e & Hp & He) _ IH]; [done|].
  apply IH. refine (wp_done_inv (E:=any_abort) _ _ (λ _, sys_inv False) _ _ _ He).
  apply (event_inv (z := False)); [done..|]. right. split; [tauto|by left].
Qed.

Lemma reachable_benign_inv id t : reachable_benign id t → sys_inv True t.
Proof using talloc_total.
  intros Hr. assert (sys_inv True (srv_start id)) as H0' by apply inv_create.
  unfold reachable_benign in Hr. induction Hr as [|s s' s'' (e & Hp & Hb & He) _ IH]; [done|].
  apply IH. refine (wp_done_inv (E:=any_abort) _ _ (λ _, sys_inv True) _ _ _ He). apply event_inv; [done..|].
  by left.
Qed.

(** In every reachable state every event that can happen completes, with
    these exceptions that can access an undefined pointer: accepting a
    connection (when memory runs out half-way), receiving a message (when its
    sender departs from the protocol or an old connection has timed out), and the
    second and the third section of a REST call that adds a mapping (when the
    mapping was deleted since the first one).  No event fails an assertion or
    needs more nested calls of state machines than the budget of the model. *)
Theorem reachable_events_defined id s e
    (Hr : reachable id s) (Hp : ev_possible s e = true) :
  match run_event e s with
  | Done _ => True
  | Undef => match e with
             | EvAccept _ _ _ | EvRead _ _ _ | EvPostReset _ | EvPostLink _ => True
             | _ => False
             end
  | Panic | NoFuel => False
  end.
Proof using talloc_total.
  apply reachable_inv in Hr.
  assert (∀ E : abort → Prop, E AUndef ∨ quiet_event e → wpe E (run_event e) s (λ _ _, True)) as Hw.
  { intros E HE. eapply wp_mono; [apply (event_inv (z := False)); [done..|right; by split; [tauto|]]|done]. }
  destruct e; first [specialize (Hw no_abort (or_intror I))|specialize (Hw undef_only (or_introl eq_refl))];
    apply wpe_outcome in Hw; by destruct (run_event _ s).
Qed.



(** C14. In every reachable state the three lists of connections are disjoint
    and free of duplicates and dangling pointers, no two connected bankds have
    the same bank id, no two connected clients the same client slot, and a
    connection that still has its machine is in the list its state says, with a
    live socket. *)
Theorem reachable_connections id s (Hr : reachable id s) :
  NoDup (connections s ++ clients s ++ banks s) ∧
  (∀ l, l ∈ connections s ++ clients s ++ banks s → is_Some (conns s !! l)) ∧
  (∀ l l' c c', l ∈ banks s → l' ∈ banks s → conns s !! l = Some c → conns s !! l' = Some c' →
     conn_bank_id c = conn_bank_id c' → l = l') ∧
  (∀ l l' c c', l ∈ clients s → l' ∈ clients s → conns s !! l = Some c → conns s !! l' = Some c' →
     conn_client_slot c = conn_client_slot c' → l = l') ∧
  (∀ l c fi, conns s !! l = Some c → conn_fi c = Some fi →
     (∃ p, conn_peer c = Some p ∧ peer_data s !! p = Some l) ∧
     match fi_state fi with
     | CLNTC_ST_CONNECTED_BANKD => l ∈ banks s ∧ fi_timer fi = None
     | CLNTC_ST_CONNECTED_CLIENT => l ∈ clients s ∧ fi_timer fi = None
     | CLNTC_ST_WAIT_CONF_RES => False
     | _ => l ∈ connections s
     end).
Proof using talloc_total.
  apply reachable_inv, si_srv in Hr as Hinv. destruct Hinv as [Hc Hm].
  split; [apply Hc|]. split.
  { intros l Hl. destruct (ci_alive _ _ _ Hc l Hl) as [k Hk].
    apply view_lookup_inv in Hk as (c & ? & _). by exists c. }
  split.
  { intros l l' c c' Hl Hl' Hlc Hlc' Heq.
    eapply (ci_bank_inj _ _ _ Hc l l'); [done|done|by apply view_lookup..|done]. }
  split.
  { intros l l' c c' Hl Hl' Hlc Hlc' Heq.
    eapply (ci_slot_inj _ _ _ Hc l l'); [done|done|by apply view_lookup..|done]. }
  intros l c fi Hlc Hfi. split; [by eapply (inv_socket (H3:=pcalls False (posts s)) (z:=False)); [split|..]|].
  pose proof (inv_fi_ok (H3:=pcalls False (posts s)) (z:=False) s l c fi (conj Hc Hm) Hlc Hfi) as Hok.
  unfold fi_ok in Hok. destruct (fi_state fi); tauto.
Qed.

End memory.
End system.

(** ** What the server sends to a bankd *)

(** The slots of a mapping, which its state does not change. *)
Definition slots (sm : slotmaps) (x : loc) : option (bank_slot * client_slot) :=
  (λ m, (sm_bank m, sm_client m)) <$> heap sm !! x.

(** The encoded requests for the mappings of a list, in order. *)
Definition requests `{RsproCodec} (gen : slot_mapping → RsproPDU) (sm : slotmaps)
    (k : list loc) : list octets :=
  omap (λ x, p ← slots sm x; rspro_enc_msg (gen (SlotMapping p.1 p.2 SLMAP_S_NEW))) k.

Lemma slots_relink x st ho sm y : slots (relink x st ho sm) y = slots sm y.
Proof.
  unfold slots. cbn. rewrite lookup_alter. case_decide; [subst|done].
  by destruct (heap sm !! y).
Qed.

Section push.
Context `{OsmoLib, Talloc, RsproCodec, IpaLib}.

Lemma requests_ext gen sm sm' k :
  (∀ x, slots sm' x = slots sm x) → requests gen sm' k = requests gen sm k.
Proof.
  intros Hs. unfold requests. apply list_omap_ext, Forall_Forall2_diag, Forall_forall.
  intros x _. by rewrite Hs.
Qed.

Lemma requests_cons gen sm x k :
  requests gen sm (x :: k) =
    option_list (p ← slots sm x; rspro_enc_msg (gen (SlotMapping p.1 p.2 SLMAP_S_NEW))) ++
    requests gen sm k.
Proof. unfold requests. cbn [omap list_omap]. by destruct (slots sm x ≫= _). Qed.

(** What one loop of the push does to the slot maps. *)
Record pushed (l : loc) (from to : maps_field) (sm sm' : slotmaps) : Prop := {
  pu_wf : slotmaps_wf sm';
  pu_from : bank_list sm' (l, from) = [];
  pu_to : bank_list sm' (l, to) = bank_list sm (l, to) ++ bank_list sm (l, from);
  pu_other : ∀ h, h ≠ (l, from) → h ≠ (l, to) → bank_list sm' h = bank_list sm h;
  pu_slots : ∀ x, slots sm' x = slots sm x;
  pu_mappings : mappings sm' = mappings sm;
}.

Lemma push_list_exact l c p from gen to s :
  conns s !! l = Some c → conn_peer c = Some p → slotmaps_wf (srv_slotmaps s) → from ≠ to →
  (∀ m, gen m = gen (SlotMapping (sm_bank m) (sm_client m) SLMAP_S_NEW)) →
  ∃ sm', pushed l from to (srv_slotmaps s) sm' ∧
    push_list l from gen (field_state to) to s = Done ((), set_srv_slotmaps sm'
      (set_sent (sent s ++ ((λ b, (p, TxRspro b)) <$>
        requests gen (srv_slotmaps s) (bank_list (srv_slotmaps s) (l, from)))) s)).
Proof.
  intros Hc Hp Hwf Hne Hgen. unfold push_list. rewrite (mbind_done _ _ _ _ s) by done.
  remember (bank_list (srv_slotmaps s) (l, from)) as k eqn:Hk. symmetry in Hk.
  revert s Hc Hwf Hk. induction k as [|x k IH]; intros s Hc Hwf Hk; cbn [for_each].
  { exists (srv_slotmaps s). split; [|by rewrite app_nil_r; destruct s].
    split; try done. by rewrite Hk, app_nil_r. }
  destruct (wf_list_state _ Hwf (l, from) x) as (m & Hxm & _); [rewrite Hk; left|].
  set (s1 := set_sent (sent s ++ ((λ b, (p, TxRspro b)) <$> option_list (rspro_enc_msg (gen m)))) s).
  set (s2 := set_srv_slotmaps (relink x (field_state to) (Some (l, to)) (srv_slotmaps s)) s1).
  assert (Hsend : client_conn_send l (gen m) s = Done ((), s1)).
  { unfold client_conn_send, conn_at, s1. unfold mbind, M_bind, gets, deref. rewrite Hc.
    unfold mret, M_ret. destruct (rspro_enc_msg (gen m)) as [b|]; cbn.
    - unfold osmo_stream_srv_send, mbind, M_bind, deref. by rewrite Hp.
    - rewrite app_nil_r. by destruct s. }
  assert (Hbody : (m ← on_slotmaps (map_at x); client_conn_send l (gen m) ;;
    on_slotmaps (_Slotmap_state_change x (field_state to) (Some (l, to)))) s = Done ((), s2)).
  { rewrite (mbind_done _ _ _ m s).
    2:{ unfold on_slotmaps, zoom, map_at, mbind, M_bind, gets, deref. rewrite Hxm. by destruct s. }
    rewrite (mbind_done _ _ _ () s1) by done.
    unfold on_slotmaps, zoom, _Slotmap_state_change, map_at, mbind, M_bind, gets, deref.
    replace (srv_slotmaps s1) with (srv_slotmaps s) by done. by rewrite Hxm. }
  destruct (IH s2) as (sm' & [W1 W2 W3 W4 W5 W6] & Hrun).
  { done. }
  { apply wf_relink; [done|by eexists|]. by intros ? [= <-]. }
  { cbn [s2 srv_slotmaps set_srv_slotmaps]. rewrite bank_list_relink, decide_False by congruence.
    rewrite Hk. apply unlink_head. rewrite <-Hk. apply Hwf. }
  exists sm'. split.
  - cbn [s2 srv_slotmaps set_srv_slotmaps] in *. split; [done|done| | | |done].
    + rewrite W3, !bank_list_relink, decide_True, decide_False by congruence.
      rewrite Hk, unlink_head by (rewrite <-Hk; apply Hwf).
      rewrite unlink_not_in, <-app_assoc; [done|]. intros Hx.
      assert ((l, to) = (l, from)); [|congruence].
      eapply wf_list_disjoint; [exact Hwf|exact Hx|rewrite Hk; left].
    + intros h Hh1 Hh2. rewrite W4, bank_list_relink, decide_False by congruence.
      apply unlink_not_in. intros Hx. apply Hh1.
      eapply wf_list_disjoint; [exact Hwf|exact Hx|rewrite Hk; left].
    + intros y. by rewrite W5, slots_relink.
  - rewrite (mbind_done _ _ _ () s2) by exact Hbody. rewrite Hrun. do 2 f_equal.
    unfold s2, s1, set_srv_slotmaps, set_sent;
      cbn [comp_id conns connections clients banks peer_data eventfd sent srv_slotmaps].
    f_equal. rewrite <-app_assoc, requests_cons. f_equal. unfold slots at 1. rewrite Hxm.
    cbn [fmap option_fmap option_map mbind option_bind fst snd]. rewrite <-Hgen, fmap_app.
    f_equal. f_equal. apply (requests_ext gen). intros; apply slots_relink.
Qed.

(** What a push sends and moves, exactly. *)
Lemma push_exact l c p fi s
    (Hc : conns s !! l = Some c) (Hp : conn_peer c = Some p) (Hfi : conn_fi c = Some fi)
    (Hst : fi_state fi = CLNTC_ST_CONNECTED_BANKD) (Hwf : slotmaps_wf (srv_slotmaps s)) :
  ∃ sm', let sm := srv_slotmaps s in
    dispatch l CLNTC_E_PUSH None s = Done (0, set_srv_slotmaps sm' (set_sent (sent s ++
      ((λ b, (p, TxRspro b)) <$>
         requests slotmap2CreateMappingReq sm (bank_list sm (l, maps_new)) ++
         requests slotmap2RemoveMappingReq sm (bank_list sm (l, maps_delreq)))) s)) ∧
    slotmaps_wf sm' ∧ mappings sm' = mappings sm ∧ (∀ x, slots sm' x = slots sm x) ∧
    bank_list sm' (l, maps_new) = [] ∧ bank_list sm' (l, maps_delreq) = [] ∧
    bank_list sm' (l, maps_unack) = bank_list sm (l, maps_unack) ++ bank_list sm (l, maps_new) ∧
    bank_list sm' (l, maps_deleting) = bank_list sm (l, maps_deleting) ++ bank_list sm (l, maps_delreq) ∧
    (∀ h, h.1 ≠ l ∨ h.2 = maps_active → bank_list sm' h = bank_list sm h).
Proof.
  destruct (push_list_exact l c p maps_new slotmap2CreateMappingReq maps_unack s)
    as (sm1 & [W1 W2 W3 W4 W5 W6] & Hrun1); [done..|].
  set (s1 := set_srv_slotmaps _ _) in Hrun1.
  destruct (push_list_exact l c p maps_delreq slotmap2RemoveMappingReq maps_deleting s1)
    as (sm2 & [V1 V2 V3 V4 V5 V6] & Hrun2); [done..|].
  cbn [s1 srv_slotmaps set_srv_slotmaps set_sent sent] in *.
  exists sm2. split; [|split; [done|split; [congruence|split; [intros; by rewrite V5|]]]].
  - unfold dispatch, conn_dispatch. rewrite (mbind_done _ _ _ c s).
    2:{ unfold conn_at, mbind, M_bind, gets, deref. by rewrite Hc. }
    unfold fsm_K. cbn [fi_dispatch calls_of]. rewrite dispatch_eq. unfold ref_dispatch.
    rewrite (mbind_done _ _ _ (Some fi) s).
    2:{ unfold gets. cbn [fi_get conn_ref]. by rewrite Hc; cbn; rewrite Hfi. }
    cbn [FSM_DEPTH remsim_server_client_fsm build_fsm allstate_event_mask states].
    replace (Z.testbit (Z.lor _ _) (enum CLNTC_E_PUSH)) with false by done.
    rewrite Hst. cbn [server_client_fsm_states in_event_mask action].
    replace (Z.testbit _ (enum CLNTC_E_PUSH)) with true by done.
    cbn [clnt_st_connected_bankd]. unfold connected_bankd_push.
    unfold mbind at 1, M_bind at 1. unfold mbind at 1, M_bind at 1.
    replace (conn_at l s) with (Done (c, s)).
    2:{ unfold conn_at, mbind, M_bind, gets, deref. by rewrite Hc. }
    unfold mbind at 1, M_bind at 1.
    cbn [field_state] in Hrun1, Hrun2. rewrite Hrun1, Hrun2. unfold mret, M_ret. do 2 f_equal.
    unfold s1, set_sent, set_srv_slotmaps;
      cbn [comp_id conns connections clients banks peer_data eventfd sent srv_slotmaps].
    f_equal. rewrite fmap_app, app_assoc. f_equal. f_equal.
    rewrite (W4 (l, maps_delreq)) by congruence.
    by rewrite (requests_ext slotmap2RemoveMappingReq (srv_slotmaps s) sm1).
  - split; [by rewrite V4, W2|]. split; [done|]. split; [by rewrite V4, W3|].
    split; [by rewrite V3, !W4|]. intros [l' f] Hh; cbn in Hh.
    rewrite V4, W4; try done; intros [= -> ->]; by destruct Hh.
Qed.

(** C25. A push sends the bankd one CreateMappingReq for each of its new
    mappings and then one RemoveMappingReq for each mapping whose deletion was
    requested, both in the order of their lists, and moves the mappings to the
    tails of the lists of unacknowledged and of deleted mappings; the active
    mappings, the global list, the slots of all mappings and the connections
    stay as they are. *)
Theorem push_sends_pending l c p fi s
    (Hc : conns s !! l = Some c) (Hp : conn_peer c = Some p) (Hfi : conn_fi c = Some fi)
    (Hst : fi_state fi = CLNTC_ST_CONNECTED_BANKD) (Hwf : slotmaps_wf (srv_slotmaps s)) :
  ∃ sm', let sm := srv_slotmaps s in
    dispatch l CLNTC_E_PUSH None s = Done (0, set_srv_slotmaps sm' (set_sent (sent s ++
      ((λ b, (p, TxRspro b)) <$>
         requests slotmap2CreateMappingReq sm (bank_list sm (l, maps_new)) ++
         requests slotmap2RemoveMappingReq sm (bank_list sm (l, maps_delreq)))) s)) ∧
    slotmaps_wf sm' ∧ mappings sm' = mappings sm ∧ (∀ x, slots sm' x = slots sm x) ∧
    bank_list sm' (l, maps_new) = [] ∧ bank_list sm' (l, maps_delreq) = [] ∧
    bank_list sm' (l, maps_unack) = bank_list sm (l, maps_unack) ++ bank_list sm (l, maps_new) ∧
    bank_list sm' (l, maps_deleting) = bank_list sm (l, maps_deleting) ++ bank_list sm (l, maps_delreq) ∧
    (∀ h, h.1 ≠ l ∨ h.2 = maps_active → bank_list sm' h = bank_list sm h).
Proof. by eapply push_exact. Qed.
End push.

(** ** What the other events do *)

Section effects.
Context `{OsmoLib, Talloc, RsproCodec, IpaLib, Jansson}.

(** The dispatch of an event to a connected machine, as its action. *)
Lemma dispatch_run l c fi e d s :
  conns s !! l = Some c → conn_fi c = Some fi →
  Z.testbit (Z.lor (S_ CLNTC_E_TCP_DOWN) (S_ CLNTC_E_KA_TIMEOUT)) (enum e) = false →
  Z.testbit (in_event_mask (server_client_fsm_states
    (calls_of (remsim_server_client_fsm 3)) l (fi_state fi))) (enum e) = true →
  dispatch l e d s =
    (action (server_client_fsm_states (calls_of (remsim_server_client_fsm 3)) l (fi_state fi)) e d ;;
     mret 0) s.
Proof.
  intros Hc Hfi Ha Hin. unfold dispatch, conn_dispatch, fsm_K. cbn [fi_dispatch calls_of].
  rewrite (mbind_done _ _ _ c s).
  2:{ unfold conn_at, mbind, M_bind, gets, deref. by rewrite Hc. }
  rewrite dispatch_eq. unfold ref_dispatch. rewrite (mbind_done _ _ _ (Some fi) s).
  2:{ unfold gets. cbn [fi_get conn_ref]. by rewrite Hc; cbn; rewrite Hfi. }
  change (remsim_server_client_fsm FSM_DEPTH l) with
    (build_fsm (calls_of (remsim_server_client_fsm 3)) l).
  cbn [build_fsm allstate_event_mask states]. by rewrite Ha, Hin.
Qed.

(** A response to a mapping request that no mapping is waiting for makes
    the server use the address of the list head in the connection as if it
    were a mapping: the NULL checks behind [llist_first_entry] never apply. *)
Theorem unawaited_response_undefined l c fi pdu s
    (Hc : conns s !! l = Some c) (Hfi : conn_fi c = Some fi)
    (Hst : fi_state fi = CLNTC_ST_CONNECTED_BANKD)
    (Hpdu : match msg pdu with
            | PR_createMappingRes _ => bank_list (srv_slotmaps s) (l, maps_unack) = []
            | PR_removeMappingRes _ => bank_list (srv_slotmaps s) (l, maps_deleting) = []
            | _ => False
            end) :
  handle_rx_rspro l pdu s = Undef.
Proof.
  unfold handle_rx_rspro. destruct (msg pdu); try done.
  all: unfold mbind at 1, M_bind at 1; rewrite (dispatch_run l c fi) by (try done; by rewrite Hst).
  all: rewrite Hst; cbn [server_client_fsm_states action clnt_st_connected_bankd].
  all: unfold connected_bankd_create_map_res, connected_bankd_remove_map_res, first_map, conn_at.
  all: unfold mbind, M_bind, gets, deref; rewrite Hc; unfold mret at 1, M_ret at 1; by rewrite Hpdu.
Qed.

(** The event from the REST threads wakes up exactly the bankds that have
    an empty list of new mappings or an empty list of requested deletions: one
    with both kinds of pending work is not served. *)
Theorem event_fd_skips_busy_bankds s
    (Hal : ∀ l, l ∈ banks s → is_Some (conns s !! l))
    (Hbusy : ∀ l, l ∈ banks s → bank_list (srv_slotmaps s) (l, maps_new) ≠ [] ∧
                                bank_list (srv_slotmaps s) (l, maps_delreq) ≠ []) :
  event_fd_cb 8 s = Done (0, set_eventfd 0 s).
Proof.
  unfold event_fd_cb. cbn [Z.ltb Z.compare]. replace (8 <? 8) with false by done.
  rewrite (mbind_done _ _ _ () (set_eventfd 0 s)) by done.
  rewrite (mbind_done _ _ _ (banks s) (set_eventfd 0 s)) by done.
  set (s0 := set_eventfd 0 s). match goal with |- context [for_each ?g] => set (f := g) end.
  enough (∀ k, (∀ l, l ∈ k → l ∈ banks s) → for_each f k s0 = Done ((), s0)) as Hloop.
  { unfold mbind, M_bind. by rewrite Hloop. }
  induction k as [|l k IH]; intros Hk; cbn [for_each]; [done|].
  rewrite (mbind_done _ _ _ () s0); [apply IH; intros; apply Hk; by right|].
  destruct (Hal l) as [c Hc]; [apply Hk; left|]. destruct (Hbusy l) as [Hn Hd]; [apply Hk; left|].
  unfold f. rewrite (mbind_done _ _ _ c s0).
  2:{ unfold conn_at, mbind, M_bind, gets, deref. cbn [s0 conns set_eventfd]. by rewrite Hc. }
  rewrite (mbind_done _ _ _ false s0).
  2:{ unfold gets. cbn [s0 srv_slotmaps set_eventfd]. by rewrite bool_decide_false. }
  rewrite (mbind_done _ _ _ false s0); [done|].
  unfold gets. cbn [s0 srv_slotmaps set_eventfd]. by rewrite bool_decide_false.
Qed.

(** A client that announces a client slot another client is connected with
    is told [identityInUse] and rejected with a timer of one second; the lists,
    the other connections and the slot maps do not change. *)
Theorem identity_in_use_rejected id s l c fi p pdu i cs x cx b
    (Htot : ∀ X, is_Some (talloc_zero X)) (Hr : reachable_benign id s)
    (Hc : conns s !! l = Some c) (Hfi : conn_fi c = Some fi) (Hp : conn_peer c = Some p)
    (Hst : fi_state fi = CLNTC_ST_ESTABLISHED)
    (Hpdu : msg pdu = PR_connectClientReq i (Some cs))
    (Ht : ac_type (rspro_comp_id_retrieve i) = ComponentType_remsimClient)
    (Hx : x ∈ clients s) (Hcx : conns s !! x = Some cx)
    (Hslot : conn_client_slot cx = rspro2client_slot cs)
    (Henc : rspro_enc_msg (rspro_gen_ConnectClientRes (comp_id s) ResultCode_identityInUse) = Some b) :
  wp (handle_rx_rspro l pdu) s (λ r s', r = 0 ∧
    sent s' = sent s ++ [(p, TxRspro b)] ∧
    connections s' = connections s ∧ clients s' = clients s ∧ banks s' = banks s ∧
    srv_slotmaps s' = srv_slotmaps s ∧
    (∀ y, y ≠ l → conns s' !! y = conns s !! y) ∧
    ∃ c', conns s' !! l = Some c' ∧ conn_fi c' = Some (FsmInst CLNTC_ST_REJECTED 2 (Some 1000))).
Proof.
  apply reachable_benign_inv in Hr as Hinv; [|done]. apply si_srv in Hinv.
  set (P := pcalls True (posts s)) in Hinv.
  pose proof (inv_fi_ok (z:=True) _ _ _ _ Hinv Hc Hfi) as Hok. unfold fi_ok in Hok. rewrite Hst in Hok.
  destruct (cinv_in_conn _ _ _ _ (proj1 Hinv) (proj1 Hok)) as [Hlc Hlb]. cbn in Hlc, Hlb.
  assert (x ≠ l) as Hxl by (by intros ->).
  unfold handle_rx_rspro. rewrite Hpdu. apply wp_bind.
  eapply wp_eq; [apply (dispatch_run l c fi); [done..|by rewrite Hst]|]. rewrite Hst.
  cbn [server_client_fsm_states action]. apply wp_bind. unfold clnt_st_established.
  apply wp_bind, (wp_conn_at _ c); [done|]. rewrite Hp. apply wp_bind, wp_ret.
  unfold established_client_conn, pdu_connectClientReq. cbn [fmap option_fmap option_map].
  rewrite Hpdu. apply wp_bind, wp_ret, wp_bind, (wp_conn_upd _ _ c); [done|].
  rewrite Ht. cbn [negb Z.eqb ComponentType_remsimClient].
  set (c1 := set_conn_comp_id _ c).
  apply wp_bind, (wp_conn_upd _ _ c1); [by apply lookup_insert_eq|].
  set (c2 := set_conn_client_slot _ c1).
  apply wp_bind, (wp_conn_upd _ _ c2); [by apply lookup_insert_eq|].
  rewrite !set_conns_twice. cbn [conns set_conns]. rewrite !insert_insert_eq.
  set (c3 := set_conn_id _ c2). set (s3 := set_conns _ s).
  assert (srv_inv True None s3) as Hinv3.
  { eapply (inv_set s l c c3); [done..|]. intros fi' Hfi'. by eapply inv_fi_ok. }
  apply wp_bind. eapply wp_mono; [by eapply wp_client_by_slot|]. intros r s' [-> Hr'].
  destruct r as [q|].
  2:{ exfalso. apply (Hr' x cx); [done| |done]. cbn. by rewrite lookup_insert_ne. }
  destruct Hr' as (Hq & cq & Hcq & Hsq).
  apply wp_bind, wp_gets. rewrite decide_False by (by intros ->).
  apply wp_bind, (wp_conn_at _ cq); [done|]. apply wp_bind.
  destruct (ci_zombie _ _ _ (proj1 Hinv3) I q (key cq)) as [pq Hpq].
  { apply elem_of_app. by left. } { by apply view_lookup. }
  cbn in Hpq. rewrite Hpq. apply wp_ret, wp_bind.
  unfold client_conn_send. apply wp_bind, (wp_conn_at _ c3); [by apply lookup_insert_eq|].
  replace (comp_id s3) with (comp_id s) by done. rewrite Henc.
  unfold osmo_stream_srv_send. change (conn_peer c3) with (conn_peer c). rewrite Hp. apply wp_bind, wp_ret, wp_modify. apply wp_bind.
  eapply (wp_fi_state_chg _ _ _ _ _ c3 fi); [by apply lookup_insert_eq|done|by rewrite Hst|].
  cbn [onenter server_client_fsm_states]. apply wp_bind, wp_ret, wp_ret, wp_ret, wp_ret, wp_ret.
  split; [done|]. split; [done|]. split; [done|]. split; [done|]. split; [done|]. split; [done|].
  split.
  - intros y Hy. cbn. by rewrite !lookup_insert_ne.
  - eexists. split; [cbn; apply lookup_insert_eq|done].
Qed.
End effects.

(** ** Concrete executions

    They instantiate the libraries with their concrete instances. *)

Definition rspro_msg (m : RsproPDUchoice) : ipa_msg :=
  IpaMsg IPAC_PROTO_OSMO IPAC_PROTO_EXT_RSPRO (default [] (rspro_enc_msg (pdu_v2 m))).

Definition ex_ident (t : Z) : ComponentIdentity_t :=
  fill_comp_id (AppCompId t zeros zeros zeros zeros zeros zeros zeros zeros).

Definition ex_srv : app_comp_id :=
  AppCompId ComponentType_remsimServer zeros zeros zeros zeros zeros zeros zeros zeros.

Definition ex_request (b : bank_slot) (c : client_slot) : _u_request :=
  URequest _ (λ _, None) (Some (slotmap2json (SlotMapping b c SLMAP_S_NEW))).

(** A REST call that adds a mapping, its sections one after the other. *)
Definition ex_post (b : bank_slot) (c : client_slot) : list srv_event :=
  [EvPost (ex_request b c); EvPostReset 0; EvPostLink 0].

Definition ex_del (id : octets) : srv_event :=
  EvDel 0 (URequest _ (λ k, if decide (k = "slotmap_id") then Some id else None) None).

Definition ex_client (p : loc) (cs : ClientSlot_t) : list srv_event :=
  [EvAccept (Some p) true true;
   EvRead p 1 (rspro_msg (PR_connectClientReq (ex_ident ComponentType_remsimClient) (Some cs)))].

Definition ex_bankd (p : loc) (id n : Z) : list srv_event :=
  [EvAccept (Some p) true true;
   EvRead p 1 (rspro_msg (PR_connectBankReq (ex_ident ComponentType_remsimBankd) id n))].

(** The messages sent, decoded. *)
Definition sent_msgs (s : rspro_server) : list (loc * option RsproPDUchoice) :=
  (λ p, (p.1, match p.2 with TxRspro b => msg <$> rspro_dec_msg b | _ => None end)) <$> sent s.

(** The life of one mapping: a client and a bankd connect, the mapping of bank
    slot (1, 0) to client slot (7, 3) is created, acknowledged, deleted through
    the identifier 65536 and acknowledged again. *)
Definition ex_setup : list srv_event :=
  ex_client 11 (MkClientSlot 7 3) ++ ex_bankd 22 1 8.
Definition ex_created : list srv_event :=
  ex_setup ++ ex_post (BankSlot 1 0) (ClientSlot 7 3) ++
    [EvEventFd 8; EvRead 22 1 (rspro_msg (PR_createMappingRes ResultCode_ok))].
Definition ex_life : list srv_event :=
  ex_created ++ [ex_del [54; 53; 53; 51; 54]; EvEventFd 8;
                 EvRead 22 1 (rspro_msg (PR_removeMappingRes ResultCode_ok))].

Definition after (es : list srv_event) : srv_sys :=
  default (srv_start ex_srv) (run_trace es (srv_start ex_srv)).

Lemma after_reachable es :
  is_Some (run_trace es (srv_start ex_srv)) → reachable ex_srv (after es).
Proof.
  intros [s Hs]. unfold after. rewrite Hs. cbn. by eapply run_trace_steps.
Qed.

Lemma after_reachable_benign es :
  run_trace_benign es (srv_start ex_srv) = run_trace es (srv_start ex_srv) →
  is_Some (run_trace es (srv_start ex_srv)) → reachable_benign ex_srv (after es).
Proof.
  intros Hb [s Hs]. unfold after. rewrite Hs in *. cbn. by eapply run_trace_benign_steps.
Qed.

(** The life cycle of a mapping: the bankd is asked to create it, the
    client is then told the bank slot and the address of the bankd with port
    9999, after the deletion the bankd is asked to remove it, and once that is
    acknowledged the client is told that it has no bankd any more and nothing
    remains of the mapping. *)
Theorem mapping_life_cycle :
  let s1 := after ex_created in let s2 := after ex_life in
  entries (srv_slotmaps s1) = [SlotMapping (BankSlot 1 0) (ClientSlot 7 3) SLMAP_S_ACTIVE] ∧
  entries (srv_slotmaps s2) = [] ∧ heap (srv_slotmaps s2) = ∅ ∧
  sent_msgs s2 =
    [(11%positive, Some (PR_connectClientRes (fill_comp_id ex_srv) ResultCode_ok));
     (22%positive, Some (PR_connectBankRes (fill_comp_id ex_srv) ResultCode_ok));
     (22%positive, Some (PR_createMappingReq (MkClientSlot 7 3) (MkBankSlot 1 0)));
     (11%positive, Some (PR_configClientBankReq (MkBankSlot 1 0)
                           (IpPort (IpAddress_PR_ipv4 [0; 0; 0; 22]) 9999)));
     (22%positive, Some (PR_removeMappingReq (MkClientSlot 7 3) (MkBankSlot 1 0)));
     (11%positive, Some (PR_configClientBankReq (MkBankSlot 1 0)
                           (IpPort (IpAddress_PR_ipv4 [0; 0; 0; 0]) 0)))].
Proof. repeat split; vm_compute; reflexivity. Qed.

(** After the keep-alive of a client has timed out, its connection stays in
    the list of clients without a socket, and when the client connects again
    the server accesses the socket of that connection through a NULL pointer. *)
Theorem reconnect_after_timeout_undefined :
  ∃ s e, reachable ex_srv s ∧ ev_possible s e = true ∧ run_event e s = Undef ∧
    ∃ l c, l ∈ clients s ∧ conns s !! l = Some c ∧ conn_peer c = None ∧ conn_fi c = None.
Proof.
  exists (after (ex_client 11 (MkClientSlot 7 3) ++ [EvKaTimeout 11] ++
            [EvAccept (Some 22%positive) true true])),
    (EvRead 22 1 (rspro_msg (PR_connectClientReq (ex_ident ComponentType_remsimClient)
                               (Some (MkClientSlot 7 3))))).
  split; [apply after_reachable; vm_compute; by eexists|].
  split; [vm_compute; reflexivity|]. split; [vm_compute; reflexivity|].
  exists 1%positive. eexists. split; [vm_compute; left|].
  split; [vm_compute; reflexivity|]. split; reflexivity.
Qed.

(** The sections of a REST call that adds a mapping are not one: when the bankd
    connects after the mapping is in the list and before the call resets and
    links it, the bankd is asked twice to create the same mapping, and its second
    answer makes the server access an undefined pointer. *)
Definition ex_race : list srv_event :=
  EvAccept (Some 22%positive) true true :: EvPost (ex_request (BankSlot 1 0) (ClientSlot 7 3)) ::
  EvRead 22 1 (rspro_msg (PR_connectBankReq (ex_ident ComponentType_remsimBankd) 1 8)) ::
  [EvPostReset 0; EvPostLink 0; EvEventFd 8;
   EvRead 22 1 (rspro_msg (PR_createMappingRes ResultCode_ok))].

Theorem rest_post_race :
  let s := after ex_race in let e := EvRead 22 1 (rspro_msg (PR_createMappingRes ResultCode_ok)) in
  is_Some (run_trace ex_race (srv_start ex_srv)) ∧
  sent_msgs s =
    [(22%positive, Some (PR_connectBankRes (fill_comp_id ex_srv) ResultCode_ok));
     (22%positive, Some (PR_createMappingReq (MkClientSlot 7 3) (MkBankSlot 1 0)));
     (22%positive, Some (PR_createMappingReq (MkClientSlot 7 3) (MkBankSlot 1 0)))] ∧
  ev_possible s e = true ∧ run_event e s = Undef.
Proof. split; [vm_compute; by eexists|]. repeat split; vm_compute; reflexivity. Qed.

(** When the mapping is deleted after the first section, it is freed, and
    the second section writes to it. *)
Theorem rest_delete_race :
  let s := after [EvPost (ex_request (BankSlot 1 0) (ClientSlot 7 3)); ex_del [54; 53; 53; 51; 54]] in
  reachable ex_srv s ∧ heap (srv_slotmaps s) = ∅ ∧
  ev_possible s (EvPostReset 0) = true ∧ run_event (EvPostReset 0) s = Undef.
Proof.
  split; [apply after_reachable; vm_compute; by eexists|]. repeat split; vm_compute; reflexivity.
Qed.

(** ** Witnesses *)

Lemma ref_alloc : ∀ X, is_Some (talloc_zero X).
Proof. intros X. by eexists. Qed.

Lemma reachable_events_defined_witness :
  ev_possible (after ex_life) (EvClosed 22) = true ∧
  match run_event (EvClosed 22) (after ex_life) with Done _ => True | _ => False end.
Proof.
  assert (Hp : ev_possible (after ex_life) (EvClosed 22) = true) by (vm_compute; reflexivity).
  split; [exact Hp|].
  assert (Hr : reachable ex_srv (after ex_life))
    by (apply after_reachable; vm_compute; by eexists).
  pose proof (reachable_events_defined ref_alloc ex_srv _ _ Hr Hp) as Hw.
  destruct (run_event (EvClosed 22) (after ex_life)); exact Hw.
Defined.


Lemma reachable_connections_witness :
  let s := after ex_created in
  (length (clients s), length (banks s)) = (1%nat, 1%nat) ∧
  NoDup (connections s ++ clients s ++ banks s).
Proof.
  intros s. split; [vm_compute; reflexivity|].
  assert (Hr : reachable ex_srv s) by (apply after_reachable; vm_compute; by eexists).
  exact (proj1 (reachable_connections ref_alloc ex_srv s Hr)).
Defined.


Lemma push_sends_pending_witness :
  let s := after (ex_setup ++ ex_post (BankSlot 1 0) (ClientSlot 7 3)) in
  length (bank_list (srv_slotmaps s) (2%positive, maps_new)) = 1%nat ∧
  ∃ sm', slotmaps_wf sm' ∧ bank_list sm' (2%positive, maps_new) = [].
Proof.
  intros s. split; [vm_compute; reflexivity|].
  assert (Hr : reachable ex_srv s) by (apply after_reachable; vm_compute; by eexists).
  destruct (conns s !! 2%positive) as [c|] eqn:Hc; [|vm_compute in Hc; discriminate Hc].
  assert (Hf : conn_fi <$> conns s !! 2%positive = Some (Some (FsmInst CLNTC_ST_CONNECTED_BANKD 0 None)))
    by (vm_compute; reflexivity).
  assert (Hp : conn_peer <$> conns s !! 2%positive = Some (Some 22%positive))
    by (vm_compute; reflexivity).
  rewrite Hc in Hf, Hp. injection Hf as Hf. injection Hp as Hp.
  pose proof (reachable_inv ref_alloc _ _ Hr) as [[_ Hm] _ _ _].
  destruct (push_sends_pending 2 c 22 _ s Hc Hp Hf eq_refl (mi_wf _ _ _ Hm))
    as (sm' & _ & Hwf & _ & _ & Hnew & _).
  exists sm'. split; [exact Hwf|exact Hnew].
Defined.

Lemma unawaited_response_undefined_witness :
  handle_rx_rspro 2 (pdu_v2 (PR_createMappingRes ResultCode_ok)) (after ex_setup) = Undef.
Proof.
  destruct (conns (after ex_setup) !! 2%positive) as [c|] eqn:Hc; [|vm_compute in Hc; discriminate Hc].
  assert (Hf : conn_fi <$> conns (after ex_setup) !! 2%positive =
    Some (Some (FsmInst CLNTC_ST_CONNECTED_BANKD 0 None))) by (vm_compute; reflexivity).
  rewrite Hc in Hf. injection Hf as Hf.
  apply (unawaited_response_undefined 2 c _ _ _ Hc Hf); [reflexivity|vm_compute; reflexivity].
Defined.

(** One mapping waits to be created and one to be deleted. *)
Definition ex_busy : srv_sys :=
  after (ex_created ++ ex_post (BankSlot 1 1) (ClientSlot 7 4) ++ [ex_del [54; 53; 53; 51; 54]]).

Lemma event_fd_skips_busy_bankds_witness :
  banks ex_busy = [2%positive] ∧ event_fd_cb 8 ex_busy = Done (0, set_eventfd 0 ex_busy).
Proof.
  assert (Hb : banks ex_busy = [2%positive]) by (vm_compute; reflexivity).
  split; [exact Hb|]. apply event_fd_skips_busy_bankds; rewrite Hb.
  - intros l ->%list_elem_of_singleton. vm_compute. by eexists.
  - intros l ->%list_elem_of_singleton. split; vm_compute; discriminate.
Defined.

Lemma identity_in_use_rejected_witness :
  let s := after (ex_client 11 (MkClientSlot 7 3) ++ [EvAccept (Some 22%positive) true true]) in
  wp (handle_rx_rspro 2 (pdu_v2 (PR_connectClientReq (ex_ident ComponentType_remsimClient)
        (Some (MkClientSlot 7 3))))) s (λ r s', r = 0).
Proof.
  intros s.
  assert (Hr : reachable_benign ex_srv s)
    by (apply after_reachable_benign; vm_compute; [reflexivity|by eexists]).
  destruct (conns s !! 2%positive) as [c|] eqn:Hc; [|vm_compute in Hc; discriminate Hc].
  assert (Hf : conn_fi <$> conns s !! 2%positive =
    Some (Some (FsmInst CLNTC_ST_ESTABLISHED 1 (Some 10000)))) by (vm_compute; reflexivity).
  assert (Hp : conn_peer <$> conns s !! 2%positive = Some (Some 22%positive))
    by (vm_compute; reflexivity).
  rewrite Hc in Hf, Hp. injection Hf as Hf. injection Hp as Hp.
  destruct (conns s !! 1%positive) as [cx|] eqn:Hcx; [|vm_compute in Hcx; discriminate Hcx].
  assert (Hs : conn_client_slot <$> conns s !! 1%positive = Some (ClientSlot 7 3))
    by (vm_compute; reflexivity).
  rewrite Hcx in Hs. injection Hs as Hs.
  eapply wp_mono.
  - eapply (identity_in_use_rejected ex_srv s 2 c _ 22
      (pdu_v2 (PR_connectClientReq (ex_ident ComponentType_remsimClient) (Some (MkClientSlot 7 3))))
      (ex_ident ComponentType_remsimClient) (MkClientSlot 7 3) 1 cx _ ref_alloc Hr Hc Hf Hp eq_refl eq_refl);
      [reflexivity|vm_compute; left|exact Hcx|exact Hs|vm_compute; reflexivity].
  - intros r s' [Hr0 _]. exact Hr0.
Defined.
