(* ===== verification/ClientConn.v ===== *)
(** * The client side of an RSPRO connection ([src/rspro_client_fsm.c])

    remsim-client keeps two such connections (to remsim-server and to
    remsim-bankd), remsim-bankd one (to remsim-server).  A connection is a part
    of the program's state: the definitions are given for a state type [W] and
    a [conn_lens] that says where the [struct rspro_server_conn] lies in it.
    What differs between the programs are the two events for the parent machine
    and the handler [handle_rx] of received messages.

    The actions of the machine change its own state, close the socket (whose
    call-back dispatches to the machine again) and notify the parent, so the
    machine is tied by a nesting budget, as on the server; [conn_fsm] is the
    machine without a parent, and the programs tie their machines together in
    their own files.  What the kernel and the libraries answer while one event
    is processed (the clock, whether a socket or a keep-alive machine can be
    created) is a [srvc_env]. *)

From S2P Require Import Prelude OsmoFsm RsproPdu RsproUtil Ipa.

(** ** Stream client sockets (libosmo-netif) *)

(** A socket object is closed, connecting or connected. *)
Variant stream_cli_state := CliClosed | CliConnecting | CliUp.

#[global] Instance cli_state_eq_dec : EqDecision stream_cli_state.
Proof. solve_decision. Defined.

Record cli_ref (W : Type) := CliRef {
  cli_get : W → stream_cli_state;
  cli_set : stream_cli_state → W → W;
}.
Arguments CliRef {W}.
Arguments cli_get {W}.
Arguments cli_set {W}.

(** [osmo_stream_cli_close] runs the [disconnect_cb] of a connected socket and
    does nothing to a closed one; whether the call-back also runs for a socket
    that is still connecting is left open ([close_notifies]).
    [osmo_stream_cli_destroy] closes the socket and frees it. *)
Class StreamCliLib := {
  osmo_stream_cli_close {W} : cli_ref W → M W Z → M W ();
  osmo_stream_cli_destroy {W} : cli_ref W → M W Z → M W ();
  close_notifies : bool;
  close_closed {W} (r : cli_ref W) cb w :
    cli_get r w = CliClosed → osmo_stream_cli_close r cb w = Done ((), w);
  close_connected {W} (r : cli_ref W) cb w :
    cli_get r w = CliUp →
    osmo_stream_cli_close r cb w = (modify (cli_set r CliClosed) ;; cb ;; mret ()) w;
  close_connecting {W} (r : cli_ref W) cb w :
    cli_get r w = CliConnecting →
    osmo_stream_cli_close r cb w =
      (modify (cli_set r CliClosed) ;; when close_notifies (cb ;; mret ())) w;
  destroy_closes {W} (r : cli_ref W) cb w :
    osmo_stream_cli_destroy r cb w = osmo_stream_cli_close r cb w;
}.

Definition ref_cli_close {W} (r : cli_ref W) (cb : M W Z) : M W () :=
  c ← gets (cli_get r);
  match c with
  | CliClosed => mret ()
  | CliUp => modify (cli_set r CliClosed) ;; cb ;; mret ()
  | CliConnecting => modify (cli_set r CliClosed)
  end.

#[refine] #[global] Instance stream_cli_ref : StreamCliLib := {
  osmo_stream_cli_close := @ref_cli_close;
  osmo_stream_cli_destroy := @ref_cli_close;
  close_notifies := false;
}.
Proof.
  all: intros; unfold ref_cli_close, mbind, M_bind, gets, modify, when;
    repeat match goal with H : _ = _ |- _ => rewrite H; clear H end; done.
Defined.

(** libosmocore, [ipa.c]: how a message of the connection management is
    answered on the socket (the result and what was written after the messages
    already sent), and the response to an identity request. *)
Class IpaBtsLib := {
  ipa_ccm_rcvmsg_bts_base : octets → list tx_msg → Z * list tx_msg;
  ipa_ccm_make_id_resp_from_req : octets → option octets;
}.

#[global] Instance ipa_bts_ref : IpaBtsLib := {
  ipa_ccm_rcvmsg_bts_base l2 _ :=
    match l2 with
    | 0 :: _ => (0, [TxPong])
    | 6 :: _ => (0, [TxIdAck])
    | 1 :: _ | 4 :: _ => (0, [])
    | _ => (- 1, [])
    end;
  ipa_ccm_make_id_resp_from_req req := Some req;
}.

(** ** States and events *)

Inductive server_conn_fsm_state :=
| SRVC_ST_INIT
| SRVC_ST_ESTABLISHED
| SRVC_ST_CONNECTED
| SRVC_ST_REESTABLISH_DELAY
| SRVC_ST_REESTABLISH.

Inductive server_conn_fsm_event :=
| SRVC_E_ESTABLISH
| SRVC_E_DISCONNECT
| SRVC_E_TCP_UP
| SRVC_E_TCP_DOWN
| SRVC_E_KA_TIMEOUT
| SRVC_E_CLIENT_CONN_RES
| SRVC_E_RSPRO_TX.

#[global] Instance srvc_st_eq_dec : EqDecision server_conn_fsm_state.
Proof. solve_decision. Defined.

#[global] Instance srvc_st_enum : Enum server_conn_fsm_state := λ st,
  match st with
  | SRVC_ST_INIT => 0
  | SRVC_ST_ESTABLISHED => 1
  | SRVC_ST_CONNECTED => 2
  | SRVC_ST_REESTABLISH_DELAY => 3
  | SRVC_ST_REESTABLISH => 4
  end.

#[global] Instance srvc_e_enum : Enum server_conn_fsm_event := λ ev,
  match ev with
  | SRVC_E_ESTABLISH => 0
  | SRVC_E_DISCONNECT => 1
  | SRVC_E_TCP_UP => 2
  | SRVC_E_TCP_DOWN => 3
  | SRVC_E_KA_TIMEOUT => 4
  | SRVC_E_CLIENT_CONN_RES => 5
  | SRVC_E_RSPRO_TX => 6
  end.

(** The [.name] of the states. *)
Definition srvc_state_name (st : server_conn_fsm_state) : string :=
  match st with
  | SRVC_ST_INIT => "INIT"
  | SRVC_ST_ESTABLISHED => "ESTABLISHED"
  | SRVC_ST_CONNECTED => "CONNECTED"
  | SRVC_ST_REESTABLISH_DELAY => "REESTABLISH_DELAY"
  | SRVC_ST_REESTABLISH => "REESTABLISH"
  end.

Definition T1_WAIT_CLIENT_CONN_RES : Z := 10.
Definition T2_RECONNECT : Z := 10.

Definition k_reestablish_delay_s : list Z :=
  [0; 0; 0] ++ replicate 30 1 ++ replicate 30 2 ++ replicate 30 4 ++ replicate 30 8 ++ [16].

Definition REESTABLISH_DELAY_COUNT : Z := Z.of_nat (length k_reestablish_delay_s).

(** ** The state of a connection *)

(** The identities and addresses in [struct rspro_server_conn]. *)
Record srvc_config := SrvcConfig {
  own_comp_id : app_comp_id;
  peer_comp_id : app_comp_id;
  clslot : option ClientSlot_t;
  server_host : option string;
  server_port : Z;
  srvc_bank_id : Z;
  srvc_num_slots : Z;
}.

(** [struct rspro_server_conn]: [srvc_conn] and [srvc_ka_fi] say whether these
    pointers are not NULL; [srvc_sock] is the socket created last, the one
    [conn] points to, and [srvc_sent] what was handed to its sockets. *)
Record rspro_server_conn := RsproServerConn {
  srvc_conn : bool;
  srvc_sock : stream_cli_state;
  srvc_fi : option (fsm_inst server_conn_fsm_state);
  srvc_ka_fi : bool;
  reestablish_delay_idx : Z;
  reestablish_last_ms : Z;
  srvc_cfg : srvc_config;
  srvc_sent : list tx_msg;
}.

Definition set_srvc_conn (b : bool) (c : rspro_server_conn) : rspro_server_conn :=
  RsproServerConn b (srvc_sock c) (srvc_fi c) (srvc_ka_fi c) (reestablish_delay_idx c)
    (reestablish_last_ms c) (srvc_cfg c) (srvc_sent c).
Definition set_srvc_sock (s : stream_cli_state) (c : rspro_server_conn) : rspro_server_conn :=
  RsproServerConn (srvc_conn c) s (srvc_fi c) (srvc_ka_fi c) (reestablish_delay_idx c)
    (reestablish_last_ms c) (srvc_cfg c) (srvc_sent c).
Definition set_srvc_fi (fi : option (fsm_inst server_conn_fsm_state)) (c : rspro_server_conn)
    : rspro_server_conn :=
  RsproServerConn (srvc_conn c) (srvc_sock c) fi (srvc_ka_fi c) (reestablish_delay_idx c)
    (reestablish_last_ms c) (srvc_cfg c) (srvc_sent c).
Definition set_srvc_ka_fi (b : bool) (c : rspro_server_conn) : rspro_server_conn :=
  RsproServerConn (srvc_conn c) (srvc_sock c) (srvc_fi c) b (reestablish_delay_idx c)
    (reestablish_last_ms c) (srvc_cfg c) (srvc_sent c).
Definition set_delay_idx (i : Z) (c : rspro_server_conn) : rspro_server_conn :=
  RsproServerConn (srvc_conn c) (srvc_sock c) (srvc_fi c) (srvc_ka_fi c) i
    (reestablish_last_ms c) (srvc_cfg c) (srvc_sent c).
Definition set_last_ms (t : Z) (c : rspro_server_conn) : rspro_server_conn :=
  RsproServerConn (srvc_conn c) (srvc_sock c) (srvc_fi c) (srvc_ka_fi c)
    (reestablish_delay_idx c) t (srvc_cfg c) (srvc_sent c).
Definition set_srvc_cfg (g : srvc_config) (c : rspro_server_conn) : rspro_server_conn :=
  RsproServerConn (srvc_conn c) (srvc_sock c) (srvc_fi c) (srvc_ka_fi c)
    (reestablish_delay_idx c) (reestablish_last_ms c) g (srvc_sent c).
Definition set_srvc_sent (t : list tx_msg) (c : rspro_server_conn) : rspro_server_conn :=
  RsproServerConn (srvc_conn c) (srvc_sock c) (srvc_fi c) (srvc_ka_fi c)
    (reestablish_delay_idx c) (reestablish_last_ms c) (srvc_cfg c) t.

Definition set_cfg_peer (i : app_comp_id) (g : srvc_config) : srvc_config :=
  SrvcConfig (own_comp_id g) i (clslot g) (server_host g) (server_port g)
    (srvc_bank_id g) (srvc_num_slots g).
Definition set_cfg_clslot (s : option ClientSlot_t) (g : srvc_config) : srvc_config :=
  SrvcConfig (own_comp_id g) (peer_comp_id g) s (server_host g) (server_port g)
    (srvc_bank_id g) (srvc_num_slots g).
Definition set_cfg_addr (h : option string) (p : Z) (g : srvc_config) : srvc_config :=
  SrvcConfig (own_comp_id g) (peer_comp_id g) (clslot g) h p (srvc_bank_id g) (srvc_num_slots g).

(** A zeroed [struct rspro_server_conn]. *)
Definition zero_srvc : rspro_server_conn :=
  let zero_id := AppCompId 0 zeros zeros zeros zeros zeros zeros zeros zeros in
  RsproServerConn false CliClosed None false 0 0
    (SrvcConfig zero_id zero_id None None 0 0 0) [].

(** Where the connection lies in the state of the program. *)
Record conn_lens (W : Type) := ConnLens {
  lget : W → rspro_server_conn;
  lset : rspro_server_conn → W → W;
}.
Arguments ConnLens {W}.
Arguments lget {W}.
Arguments lset {W}.

Class LensLaws {W} (L : conn_lens W) := {
  lget_lset c w : lget L (lset L c w) = c;
  lset_lget w : lset L (lget L w) w = w;
  lset_lset c c' w : lset L c (lset L c' w) = lset L c w;
}.

(** What the system answers during one event: [CLOCK_BOOTTIME] in ms (read at
    most once in an event, or several times by one call chain that takes less
    than a millisecond), and whether allocations and [connect] succeed. *)
Record srvc_env := SrvcEnv {
  get_monotonic_ms : Z;
  cli_create_ok : bool;
  ka_alloc_ok : bool;
  cli_open_ok : bool;
}.

(** The parent: [parent_conn_evt] and [parent_disc_evt] dispatched to
    [fi->proc.parent], if there is one, and [handle_rx]. *)
Record srvc_parent (W : Type) := SrvcParent {
  parent_conn : option (M W ());
  parent_disc : option (M W ());
}.
Arguments SrvcParent {W}.
Arguments parent_conn {W}.
Arguments parent_disc {W}.

Section conn.
Context `{OsmoLib, StreamCliLib, RsproCodec, IpaBtsLib}.
Context {W : Type} (L : conn_lens W).

Abbreviation st := server_conn_fsm_state.
Abbreviation ev := server_conn_fsm_event.

Definition srvc_upd (f : rspro_server_conn → rspro_server_conn) : M W () :=
  modify (λ w, lset L (f (lget L w)) w).

Definition srvc_fi_ref : fi_ref W st :=
  FiRef (λ w, srvc_fi (lget L w))
        (λ fi w, lset L (set_srvc_fi (Some fi) (lget L w)) w)
        (λ w, lset L (set_srvc_fi None (lget L w)) w).

Definition srvc_cli_ref : cli_ref W :=
  CliRef (λ w, srvc_sock (lget L w)) (λ s w, lset L (set_srvc_sock s (lget L w)) w).

(** The calls into the FSM library for the machine of this connection. *)
Record srvc_calls := SrvcCalls {
  sk_dispatch : ev → option RsproPDU → M W Z;
  sk_state_chg : st → Z → Z → M W Z;
  sk_state_chg_ms : st → Z → Z → M W Z;
}.

(** A call through [srvc->conn]. *)
Definition with_conn {A} (m : M W A) : M W A :=
  c ← gets (λ w, srvc_conn (lget L w));
  if (c : bool) then m else undef.

Definition osmo_stream_cli_send (m : tx_msg) : M W () :=
  srvc_upd (λ c, set_srvc_sent (srvc_sent c ++ [m]) c).

Definition cli_conn_send_rspro (rspro : RsproPDU) : M W Z :=
  match rspro_enc_msg rspro with
  | None => mret (- 1)
  | Some b => with_conn (osmo_stream_cli_send (TxRspro b)) ;; mret 0
  end.

Definition _server_conn_send_rspro (rspro : RsproPDU) : M W Z := cli_conn_send_rspro rspro.

Definition lift_outcome {A} (o : outcome A) : M W A :=
  match o with Done a => mret a | Panic => panic | Undef => undef | NoFuel => nofuel end.

Section handlers.
Context (e : srvc_env) (P : srvc_parent W) (K : srvc_calls).

Definition server_conn_send_rspro (rspro : option RsproPDU) : M W Z :=
  match rspro with
  | None => mret (- EINVAL)
  | Some pdu =>
      rc ← sk_dispatch K SRVC_E_RSPRO_TX (Some pdu);
      mret (if rc <? 0 then - EPERM else 0)
  end.

(** ** Call-backs of the socket *)

Definition srvc_connect_cb : M W Z := sk_dispatch K SRVC_E_TCP_UP None ;; mret 0.

Definition srvc_disconnect_cb : M W Z :=
  ka ← gets (λ w, srvc_ka_fi (lget L w));
  when ka (srvc_upd (set_srvc_ka_fi false)) ;;
  sk_dispatch K SRVC_E_TCP_DOWN None ;;
  mret 0.

Definition cli_close : M W () := osmo_stream_cli_close srvc_cli_ref srvc_disconnect_cb.
Definition cli_destroy : M W () := osmo_stream_cli_destroy srvc_cli_ref srvc_disconnect_cb.

Definition _ipaccess_bts_handle_ccm (m : ipa_msg) : M W Z :=
  if negb (ipa_proto m =? IPAC_PROTO_IPACCESS) then mret 0
  else
    match l2_data m with
    | [] => panic
    | msg_type :: req =>
        s ← gets (λ w, srvc_sock (lget L w));
        osmo_assert (bool_decide (s = CliUp)) ;;
        c ← gets (lget L);
        let '(ret, tx) := ipa_ccm_rcvmsg_bts_base (l2_data m) (srvc_sent c) in
        srvc_upd (λ c, set_srvc_sent (srvc_sent c ++ tx) c) ;;
        if ret <? 0 then mret (- 1)
        else if msg_type =? IPAC_MSGT_ID_GET then
          match ipa_ccm_make_id_resp_from_req req with
          | None => mret (- 1)
          | Some rmsg =>
              osmo_stream_cli_send (TxIdResp rmsg) ;;
              osmo_stream_cli_send TxIdAck ;;
              mret 1
          end
        else mret 1
    end.

(** A message whose handling in the connection management fails is freed
    inside the [switch] and once more behind it. *)
Definition srvc_read_cb (handle_rx : RsproPDU → M W Z) (res : Z) (m : ipa_msg) : M W Z :=
  let err := cli_close ;; mret (- EBADF) in
  if res <=? 0 then err
  else if ipa_proto m =? IPAC_PROTO_IPACCESS then
    match l2_data m with
    | [] => panic
    | msg_type :: _ =>
        rc ← with_conn (_ipaccess_bts_handle_ccm m);
        if rc <? 0 then undef
        else if msg_type =? IPAC_MSGT_PONG then
          ka ← gets (λ w, srvc_ka_fi (lget L w));
          if (ka : bool) then mret 0 else undef
        else mret rc
    end
  else if ipa_proto m =? IPAC_PROTO_OSMO then
    if ipa_proto_ext m =? IPAC_PROTO_EXT_RSPRO then
      match rspro_dec_msg (l2_data m) with
      | None => mret (- EIO)
      | Some pdu => handle_rx pdu
      end
    else err
  else err.

(** ** Actions of the states *)

(** The entry of the delay table; an index outside of it is an access past the
    end of the array. *)
Definition delay_entry (idx : Z) : M W Z :=
  if idx <? 0 then undef else deref (k_reestablish_delay_s !! Z.to_nat idx).

Definition srvc_do_reestablish : M W () :=
  c ← gets (lget L);
  let since_last_ms := get_monotonic_ms e - reestablish_last_ms c in
  longest ← delay_entry (REESTABLISH_DELAY_COUNT - 1);
  let reset_ms := 2 * 1000 * Z.max (Z.max T1_WAIT_CLIENT_CONN_RES T2_RECONNECT) longest in
  when (reset_ms <? since_last_ms) (srvc_upd (set_delay_idx 0)) ;;
  c ← gets (lget L);
  need_s ← delay_entry (reestablish_delay_idx c);
  let delay_ms := need_s * 1000 - since_last_ms in
  sk_state_chg_ms K SRVC_ST_REESTABLISH_DELAY (if 0 <? delay_ms then delay_ms else 1) 3 ;;
  mret ().

Definition srvc_st_init (event : ev) (data : option RsproPDU) : M W () := panic.

Definition srvc_st_established_onenter (prev_state : st) : M W () :=
  c ← gets (lget L);
  (if srvc_ka_fi c then mret () else undef) ;;
  let g := srvc_cfg c in
  _server_conn_send_rspro
    (if ac_type (own_comp_id g) =? ComponentType_remsimClient
     then rspro_gen_ConnectClientReq (own_comp_id g) (clslot g)
     else rspro_gen_ConnectBankReq (own_comp_id g) (srvc_bank_id g) (srvc_num_slots g)) ;;
  mret ().

Definition srvc_st_established (event : ev) (data : option RsproPDU) : M W () :=
  match event with
  | SRVC_E_TCP_DOWN | SRVC_E_KA_TIMEOUT => srvc_do_reestablish
  | SRVC_E_CLIENT_CONN_RES =>
      pdu ← deref data;
      res ← lift_outcome (rspro_get_result pdu);
      if negb (res =? ResultCode_ok) then with_conn cli_close
      else sk_state_chg K SRVC_ST_CONNECTED 0 0 ;; mret ()
  | _ => panic
  end.

Definition srvc_st_connected_onenter (prev_state : st) : M W () :=
  default (mret ()) (parent_conn P).

Definition srvc_st_connected (event : ev) (data : option RsproPDU) : M W () :=
  match event with
  | SRVC_E_TCP_DOWN | SRVC_E_KA_TIMEOUT => srvc_do_reestablish
  | SRVC_E_RSPRO_TX => pdu ← deref data; _server_conn_send_rspro pdu ;; mret ()
  | _ => panic
  end.

Definition srvc_st_connected_onleave (next_state : st) : M W () :=
  default (mret ()) (parent_disc P).

Definition ipa_keepalive_timeout_cb : M W Z := sk_dispatch K SRVC_E_KA_TIMEOUT None ;; mret 0.

Definition srvc_st_reestablish_delay_onenter (prev_state : st) : M W () :=
  conn ← gets (λ w, srvc_conn (lget L w));
  when conn (cli_destroy ;; srvc_upd (set_srvc_conn false)) ;;
  idx ← gets (λ w, reestablish_delay_idx (lget L w));
  when (idx <? REESTABLISH_DELAY_COUNT - 1) (srvc_upd (set_delay_idx (idx + 1))).

Definition srvc_st_reestablish_delay (event : ev) (data : option RsproPDU) : M W () := panic.

(** [exit(1)] is [panic]. *)
Definition srvc_st_reestablish_onenter (prev_state : st) : M W () :=
  srvc_upd (set_last_ms (get_monotonic_ms e)) ;;
  srvc_upd (λ c, set_srvc_sock CliClosed (set_srvc_conn (cli_create_ok e) c)) ;;
  if negb (cli_create_ok e) then panic
  else
    srvc_upd (set_srvc_ka_fi (ka_alloc_ok e)) ;;
    if negb (ka_alloc_ok e) then panic
    else if negb (cli_open_ok e) then panic
    else srvc_upd (set_srvc_sock CliConnecting).

Definition srvc_st_reestablish (event : ev) (data : option RsproPDU) : M W () :=
  match event with
  | SRVC_E_TCP_UP => sk_state_chg K SRVC_ST_ESTABLISHED T1_WAIT_CLIENT_CONN_RES 1 ;; mret ()
  | SRVC_E_TCP_DOWN => mret ()
  | _ => panic
  end.

Definition srvc_allstate_action (event : ev) (data : option RsproPDU) : M W () :=
  match event with
  | SRVC_E_ESTABLISH =>
      srvc_upd (set_delay_idx 0) ;;
      srvc_upd (set_last_ms 0) ;;
      srvc_do_reestablish
  | SRVC_E_DISCONNECT =>
      conn ← gets (λ w, srvc_conn (lget L w));
      when conn (srvc_upd (set_srvc_conn false) ;; cli_destroy) ;;
      sk_state_chg K SRVC_ST_INIT 0 0 ;; mret ()
  | _ => panic
  end.

Definition server_conn_fsm_timer_cb (T : Z) : M W Z :=
  match T with
  | 3 => sk_state_chg K SRVC_ST_REESTABLISH T2_RECONNECT 2 ;; mret 0
  | 2 => srvc_do_reestablish ;; mret 0
  | 1 => with_conn cli_close ;; mret 0
  | _ => panic
  end.

Definition server_conn_fsm_states (s : st) : osmo_fsm_state W st ev (option RsproPDU) :=
  let nop := λ _ : st, mret () in
  match s with
  | SRVC_ST_INIT =>
      FsmState 0 (Z.lor (S_ SRVC_ST_INIT) (S_ SRVC_ST_REESTABLISH_DELAY)) srvc_st_init nop nop
  | SRVC_ST_ESTABLISHED =>
      FsmState (Z.lor (S_ SRVC_E_TCP_DOWN) (Z.lor (S_ SRVC_E_KA_TIMEOUT) (S_ SRVC_E_CLIENT_CONN_RES)))
        (Z.lor (S_ SRVC_ST_CONNECTED) (Z.lor (S_ SRVC_ST_REESTABLISH_DELAY) (S_ SRVC_ST_INIT)))
        srvc_st_established srvc_st_established_onenter nop
  | SRVC_ST_CONNECTED =>
      FsmState (Z.lor (S_ SRVC_E_TCP_DOWN) (Z.lor (S_ SRVC_E_KA_TIMEOUT) (S_ SRVC_E_RSPRO_TX)))
        (Z.lor (S_ SRVC_ST_REESTABLISH_DELAY) (S_ SRVC_ST_INIT))
        srvc_st_connected srvc_st_connected_onenter srvc_st_connected_onleave
  | SRVC_ST_REESTABLISH_DELAY =>
      FsmState 0 (Z.lor (S_ SRVC_ST_REESTABLISH) (S_ SRVC_ST_INIT))
        srvc_st_reestablish_delay srvc_st_reestablish_delay_onenter nop
  | SRVC_ST_REESTABLISH =>
      FsmState (Z.lor (S_ SRVC_E_TCP_UP) (S_ SRVC_E_TCP_DOWN))
        (Z.lor (S_ SRVC_ST_ESTABLISHED) (Z.lor (S_ SRVC_ST_REESTABLISH_DELAY) (S_ SRVC_ST_INIT)))
        srvc_st_reestablish srvc_st_reestablish_onenter nop
  end.

Definition rspro_client_server_fsm : osmo_fsm W st ev (option RsproPDU) :=
  Fsm server_conn_fsm_states (Z.lor (S_ SRVC_E_ESTABLISH) (S_ SRVC_E_DISCONNECT))
    srvc_allstate_action (mret ()) server_conn_fsm_timer_cb.
End handlers.

(** A machine whose budget is exhausted. *)
Definition conn_exhausted : osmo_fsm W st ev (option RsproPDU) :=
  Fsm (λ _, FsmState 0 (-1) (λ _ _, nofuel) (λ _, nofuel) (λ _, nofuel))
      (-1) (λ _ _, nofuel) nofuel (λ _, nofuel).

Definition conn_calls (fsm : osmo_fsm W st ev (option RsproPDU)) : srvc_calls :=
  SrvcCalls (osmo_fsm_inst_dispatch fsm srvc_fi_ref)
            (osmo_fsm_inst_state_chg fsm srvc_fi_ref)
            (osmo_fsm_inst_state_chg_ms fsm srvc_fi_ref).

(** The machine without a parent. *)
Fixpoint conn_fsm (e : srvc_env) (n : nat) : osmo_fsm W st ev (option RsproPDU) :=
  match n with
  | O => conn_exhausted
  | S n => rspro_client_server_fsm e (SrvcParent None None) (conn_calls (conn_fsm e n))
  end.

(** The nesting of calls into the machine: a time-out closes the socket, whose
    call-back dispatches to the machine, which changes the state. *)
Definition CONN_DEPTH : nat := 4.

(** ** Events

    What reaches a connection: the outcome of a connection attempt, a message
    or the loss of the connection, its timer and its keep-alive time-out. *)

Inductive conn_event :=
| CvUp
| CvFailed
| CvRead (res : Z) (m : ipa_msg)
| CvTimer
| CvKaTimeout.

Definition run_conn_event (fsm : osmo_fsm W st ev (option RsproPDU))
    (handle_rx : RsproPDU → M W Z) (v : conn_event) : M W () :=
  let K := conn_calls fsm in
  match v with
  | CvUp => srvc_upd (set_srvc_sock CliUp) ;; srvc_connect_cb K ;; mret ()
  | CvFailed => cli_close K
  | CvRead res m => srvc_read_cb K handle_rx res m ;; mret ()
  | CvTimer => fsm_tmr_cb fsm srvc_fi_ref
  | CvKaTimeout => ipa_keepalive_timeout_cb K ;; mret ()
  end.

(** [server_conn_fsm_alloc]: [fi_ok] says whether the instance can be
    allocated. *)
Definition server_conn_fsm_alloc (fi_ok : bool) : M W Z :=
  if negb fi_ok then mret (- 1)
  else
    srvc_upd (set_srvc_fi (Some (FsmInst SRVC_ST_INIT 0 None))) ;;
    srvc_upd (set_delay_idx 0) ;;
    srvc_upd (set_last_ms 0) ;;
    mret 0.
End conn.
