(* ===== verification/Examples.v ===== *)
(** * Concrete environments and messages

    They are shared by the witnesses and the concrete runs. *)

From S2P Require Import Prelude RsproPdu RsproUtil Ipa ClientConn.

(** A system in which every call succeeds, at time [t]. *)
Definition ok_env (t : Z) : srvc_env := SrvcEnv t true true true.

(** A PDU as it arrives in a message of the IPA multiplex. *)
Definition rspro_frame (m : RsproPDUchoice) : ipa_msg :=
  IpaMsg IPAC_PROTO_OSMO IPAC_PROTO_EXT_RSPRO (default [] (rspro_enc_msg (pdu_v2 m))).

Definition example_ident (type : Z) : ComponentIdentity_t :=
  ComponentIdentity type [120] [121] [122] None None None None None.

(** The PDUs among the messages handed to a socket. *)
Definition msgs_of (sent : list tx_msg) : list (option RsproPDUchoice) :=
  map (λ x, match x with TxRspro b => option_map msg (rspro_dec_msg b) | _ => None end) sent.
