(* ===== verification/ConnInv.v ===== *)
(** * The invariant of a client-side RSPRO connection

    [conn_inv t c]: what holds of a connection between events, [t] being the
    time of the last one: the machine exists, its delay index is inside the
    table, and the state of the machine determines the socket, the keep-alive
    machine and the pending timer.

    The rules below are for any sequence of machines that is built from
    [rspro_client_server_fsm] level by level, with any parents; the programs
    instantiate it.  What the rest of the program promises while the connection
    is up or down is a predicate [F up w] that the parent's events must
    establish ([parent_ok]). *)

From S2P Require Import Prelude OsmoFsm RsproPdu RsproUtil Ipa ClientConn.

(** ** The invariant *)

Abbreviation count := REESTABLISH_DELAY_COUNT.

Definition state_ok (c : rspro_server_conn) (fi : fsm_inst server_conn_fsm_state) : Prop :=
  match fi_state fi with
  | SRVC_ST_INIT => srvc_conn c = false ∧ fi_timer fi = None
  | SRVC_ST_REESTABLISH_DELAY =>
      srvc_conn c = false ∧ fi_T fi = 3 ∧ ∃ ms, fi_timer fi = Some ms ∧ 1 ≤ ms ≤ 16000
  | SRVC_ST_REESTABLISH =>
      srvc_conn c = true ∧ srvc_sock c ≠ CliUp ∧ (srvc_sock c = CliConnecting → srvc_ka_fi c = true) ∧
      fi_T fi = 2 ∧ fi_timer fi = Some 10000
  | SRVC_ST_ESTABLISHED =>
      srvc_conn c = true ∧ srvc_sock c = CliUp ∧ srvc_ka_fi c = true ∧
      fi_T fi = 1 ∧ fi_timer fi = Some 10000
  | SRVC_ST_CONNECTED =>
      srvc_conn c = true ∧ srvc_sock c = CliUp ∧ srvc_ka_fi c = true ∧ fi_timer fi = None
  end.

Record conn_wf (t : Z) (c : rspro_server_conn) : Prop := {
  wf_idx : 0 ≤ reestablish_delay_idx c < count;
  wf_last : reestablish_last_ms c ≤ t;
  wf_sock : srvc_conn c = false → srvc_sock c = CliClosed;
}.

Definition conn_inv (t : Z) (c : rspro_server_conn) : Prop :=
  conn_wf t c ∧ ∃ fi, srvc_fi c = Some fi ∧ state_ok c fi.

Definition conn_state (c : rspro_server_conn) : option server_conn_fsm_state :=
  fi_state <$> srvc_fi c.

Definition connected (c : rspro_server_conn) : bool :=
  bool_decide (conn_state c = Some SRVC_ST_CONNECTED).

(** ** The delay table *)

Lemma table_entry i :
  0 ≤ i < count → ∃ d, k_reestablish_delay_s !! Z.to_nat i = Some d ∧ 0 ≤ d ≤ 16.
Proof.
  intros Hi. assert (Forall (λ d, 0 ≤ d ≤ 16) k_reestablish_delay_s) as Hall.
  { unfold k_reestablish_delay_s. repeat apply Forall_app_2; try apply Forall_replicate;
      repeat constructor; lia. }
  destruct (lookup_lt_is_Some_2 k_reestablish_delay_s (Z.to_nat i)) as [d Hd].
  { unfold count in Hi. lia. }
  exists d. split; [done|]. by apply (Forall_lookup_1 _ _ _ _ Hall Hd).
Qed.

(** The index and the delay [srvc_do_reestablish] computes at time [t]. *)
Definition new_idx (t last idx : Z) : Z := if 32000 <? t - last then 0 else idx.
Definition new_delay (t last idx : Z) : Z :=
  let d := default 0 (k_reestablish_delay_s !! Z.to_nat (new_idx t last idx)) * 1000 - (t - last) in
  if 0 <? d then d else 1.

Lemma new_idx_range t last idx : 0 ≤ idx < count → 0 ≤ new_idx t last idx < count.
Proof. intros. unfold new_idx. case_match; [|done]. split; [done|]. by vm_compute. Qed.

Lemma new_delay_range t last idx : 0 ≤ idx < count → last ≤ t → 1 ≤ new_delay t last idx ≤ 16000.
Proof.
  intros Hi Hl. unfold new_delay.
  destruct (table_entry (new_idx t last idx)) as (d & -> & Hd); [by apply new_idx_range|].
  cbn [default]. unfold id. case_match eqn:Hd0; lia.
Qed.

Lemma longest_entry : k_reestablish_delay_s !! Z.to_nat (count - 1) = Some 16.
Proof. by vm_compute. Qed.

(** The effect of entering REESTABLISH_DELAY on the rest of the connection. *)
Record to_delay (t d : Z) (c c' : rspro_server_conn) : Prop := {
  td_fi : srvc_fi c' = Some (FsmInst SRVC_ST_REESTABLISH_DELAY 3 (Some d));
  td_conn : srvc_conn c' = false;
  td_sock : srvc_sock c' = CliClosed;
  td_idx : reestablish_delay_idx c' =
           Z.min (new_idx t (reestablish_last_ms c) (reestablish_delay_idx c) + 1) (count - 1);
  td_last : reestablish_last_ms c' = reestablish_last_ms c;
  td_cfg : srvc_cfg c' = srvc_cfg c;
  td_sent : srvc_sent c' = srvc_sent c;
}.

Lemma to_delay_inv t c c' :
  conn_wf t c →
  to_delay t (new_delay t (reestablish_last_ms c) (reestablish_delay_idx c)) c c' →
  conn_inv t c' ∧ connected c' = false.
Proof.
  intros [Hi Hl Hs] [Hfi Hc Hsk Hidx Hlast Hcfg Hsent].
  pose proof (new_idx_range t (reestablish_last_ms c) _ Hi).
  pose proof (new_delay_range t _ _ Hi Hl).
  split; [split|].
  - split; [rewrite Hidx; unfold count in *; lia|by rewrite Hlast|done].
  - eexists; split; [done|]. unfold state_ok; cbn. eauto 6.
  - unfold connected, conn_state. by rewrite Hfi.
Qed.

Lemma conn_inv_sent t c tx : conn_inv t c → conn_inv t (set_srvc_sent tx c).
Proof. intros [[] (fi & ? & ?)]. split; [by split|]. by exists fi. Qed.
Lemma conn_inv_cfg t c g : conn_inv t c → conn_inv t (set_srvc_cfg g c).
Proof. intros [[] (fi & ? & ?)]. split; [by split|]. by exists fi. Qed.
Lemma conn_inv_later t t' c : conn_inv t c → t ≤ t' → conn_inv t' c.
Proof. intros [[] (fi & ? & ?)] ?. split; [split; try done; lia|]. by exists fi. Qed.

Lemma conn_inv_init c :
  srvc_fi c = Some (FsmInst SRVC_ST_INIT 0 None) → srvc_conn c = false → srvc_sock c = CliClosed →
  reestablish_delay_idx c = 0 → reestablish_last_ms c = 0 → conn_inv 0 c.
Proof.
  intros Hfi Hc Hs Hi Hl. split.
  - split; [rewrite Hi; by vm_compute|lia|done].
  - by eexists.
Qed.

(** ** Rules *)

Section rules.
Context `{OsmoLib, StreamCliLib, RsproCodec, IpaBtsLib}.
Context {W : Type} (L : conn_lens W) `{!LensLaws L}.
Context (e : srvc_env).
Context (fsm : nat → osmo_fsm W server_conn_fsm_state server_conn_fsm_event (option RsproPDU)).
Context (par : nat → srvc_parent W).
Hypothesis fsm_S : ∀ n, fsm (S n) = rspro_client_server_fsm L e (par n) (conn_calls L (fsm n)).
Context (E : abort → Prop).

Abbreviation calls n := (conn_calls L (fsm n)).

Lemma wp_upd f c w (Q : () → W → Prop) :
  Q () (lset L (f c) w) → wpe E (srvc_upd L f) (lset L c w) Q.
Proof. intros HQ. apply wp_modify. by rewrite lget_lset, lset_lset. Qed.

Lemma wp_lgets {A} (f : rspro_server_conn → A) c w (Q : A → W → Prop) :
  Q (f c) (lset L c w) → wpe E (gets (λ w, f (lget L w))) (lset L c w) Q.
Proof. intros HQ. apply wp_gets. by rewrite lget_lset. Qed.

Lemma wp_lget c w (Q : rspro_server_conn → W → Prop) :
  Q c (lset L c w) → wpe E (gets (lget L)) (lset L c w) Q.
Proof. apply (wp_lgets id). Qed.

Lemma wp_with_conn {A} (m : M W A) c w (Q : A → W → Prop) :
  srvc_conn c = true → wpe E m (lset L c w) Q → wpe E (with_conn L m) (lset L c w) Q.
Proof. intros Hc HQ. apply wp_bind, wp_lgets. by rewrite Hc. Qed.

(** An event that the state of the machine accepts, one that all states accept,
    and one that is refused. *)
Lemma wp_dispatch n ev d c fi w (Q : Z → W → Prop) :
  srvc_fi c = Some fi →
  (if Z.testbit (allstate_event_mask (fsm (S n))) (enum ev)
   then wpe E (srvc_allstate_action L e (calls n) ev d) (lset L c w) (λ _, Q 0)
   else if Z.testbit (in_event_mask (states (fsm (S n)) (fi_state fi))) (enum ev)
   then wpe E (action (states (fsm (S n)) (fi_state fi)) ev d) (lset L c w) (λ _, Q 0)
   else Q (- 1) (lset L c w)) →
  wpe E (sk_dispatch (calls (S n)) ev d) (lset L c w) Q.
Proof using LensLaws0 fsm_S.
  intros Hfi HQ. eapply wp_eq; [apply dispatch_eq|]. unfold ref_dispatch.
  apply wp_bind, wp_gets. cbn [fi_get srvc_fi_ref]. rewrite lget_lset, Hfi.
  destruct (Z.testbit (allstate_event_mask _) _).
  - apply wp_bind. rewrite fsm_S. eapply wp_mono; [exact HQ|]. intros [] s' H'. by apply wp_ret.
  - destruct (Z.testbit (in_event_mask _) _); [|by apply wp_ret].
    apply wp_bind. eapply wp_mono; [exact HQ|]. intros [] s' H'. by apply wp_ret.
Qed.

Lemma wp_srvc_fi_update f c fi w (Q : () → W → Prop) :
  srvc_fi c = Some fi → Q () (lset L (set_srvc_fi (Some (f fi)) c) w) →
  wpe E (fi_update (srvc_fi_ref L) f) (lset L c w) Q.
Proof using LensLaws0.
  intros Hfi HQ. unfold fi_update. apply wp_bind, wp_gets. cbn [fi_get srvc_fi_ref].
  rewrite lget_lset, Hfi. apply wp_bind, wp_ret, wp_modify. cbn [fi_set srvc_fi_ref].
  by rewrite lget_lset, lset_lset.
Qed.

Lemma wp_state_chg_ms n new ms T c fi w (Q : Z → W → Prop) :
  srvc_fi c = Some fi →
  Z.testbit (out_state_mask (states (fsm (S n)) (fi_state fi))) (enum new) = true →
  wpe E (onleave (states (fsm (S n)) (fi_state fi)) new)
    (lset L (set_srvc_fi (Some (fi_stop_timer fi)) c) w)
    (λ _ w1, ∃ c1 fi1, lget L w1 = c1 ∧ srvc_fi c1 = Some fi1 ∧
      wpe E (onenter (states (fsm (S n)) new) (fi_state fi))
        (lset L (set_srvc_fi (Some (fi_enter new ms T fi1)) c1) w1) (λ _, Q 0)) →
  wpe E (sk_state_chg_ms (calls (S n)) new ms T) (lset L c w) Q.
Proof using LensLaws0.
  intros Hfi Hm HQ. eapply wp_eq; [apply state_chg_eq|]. unfold ref_state_chg.
  apply wp_bind, wp_gets. cbn [fi_get srvc_fi_ref]. rewrite lget_lset, Hfi.
  apply wp_bind, wp_ret. rewrite Hm. apply wp_bind. eapply wp_srvc_fi_update; [done|].
  apply wp_bind. eapply wp_mono; [exact HQ|]. intros [] w1 (c1 & fi1 & Hc1 & Hf1 & H').
  rewrite <-(lset_lget (L:=L) w1), Hc1. apply wp_bind. eapply wp_srvc_fi_update; [done|].
  apply wp_bind. eapply wp_mono; [exact H'|]. intros [] w2 HQ2. by apply wp_ret.
Qed.

Lemma wp_state_chg_refused n new ms T c fi w (Q : Z → W → Prop) :
  srvc_fi c = Some fi →
  Z.testbit (out_state_mask (states (fsm (S n)) (fi_state fi))) (enum new) = false →
  Q (- EPERM) (lset L c w) →
  wpe E (sk_state_chg_ms (calls (S n)) new ms T) (lset L c w) Q.
Proof using LensLaws0.
  intros Hfi Hm HQ. eapply wp_eq; [apply state_chg_eq|]. unfold ref_state_chg.
  apply wp_bind, wp_gets. cbn [fi_get srvc_fi_ref]. rewrite lget_lset, Hfi.
  apply wp_bind, wp_ret. rewrite Hm. by apply wp_ret.
Qed.

(** ** The parent *)

Context (F : bool → W → Prop).
Hypothesis F_lset : ∀ b c w, F b w → F b (lset L c w).

Definition parent_ok (p : srvc_parent W) : Prop :=
  (∀ w, F true w →
    wpe E (default (mret ()) (parent_disc p)) w (λ _ w', lget L w' = lget L w ∧ F false w')) ∧
  (∀ w, F false w →
    wpe E (default (mret ()) (parent_conn p)) w (λ _ w', lget L w' = lget L w ∧ F true w')).
Context (n0 : nat).
Hypothesis par_ok : ∀ n, (n0 ≤ n)%nat → parent_ok (par n).

(** TCP_DOWN is refused where there is no connection to lose. *)
Lemma wp_tcp_down_refused n c fi w (Q : Z → W → Prop) :
  srvc_fi c = Some fi →
  fi_state fi = SRVC_ST_REESTABLISH_DELAY ∨ fi_state fi = SRVC_ST_INIT →
  Q (- 1) (lset L c w) →
  wpe E (sk_dispatch (calls (S n)) SRVC_E_TCP_DOWN None) (lset L c w) Q.
Proof using LensLaws0 fsm_S.
  intros Hfi Hst HQ. eapply wp_dispatch; [done|]. rewrite fsm_S.
  by destruct Hst as [-> | ->].
Qed.

(** Closing the socket without any effect on the machine. *)
Lemma wp_close_refused n c fi w (Q : () → W → Prop) :
  srvc_fi c = Some fi →
  fi_state fi = SRVC_ST_REESTABLISH_DELAY ∨ fi_state fi = SRVC_ST_INIT →
  (∀ b, Q () (lset L (set_srvc_ka_fi b (set_srvc_sock CliClosed c)) w)) →
  wpe E (cli_close L (calls (S n))) (lset L c w) Q.
Proof using LensLaws0 fsm_S.
  intros Hfi Hst HQ.
  assert (wpe E (srvc_disconnect_cb L (calls (S n)))
    (lset L (set_srvc_sock CliClosed c) w) (λ _, Q ())) as Hcb.
  { unfold srvc_disconnect_cb. apply wp_bind, wp_lgets, wp_bind, wp_when; intros Hka.
    - apply wp_upd. apply wp_bind. eapply wp_tcp_down_refused; [done..|]. apply wp_ret, HQ.
    - apply wp_bind. eapply wp_tcp_down_refused; [done..|]. apply wp_ret.
      specialize (HQ (srvc_ka_fi c)). by destruct c. }
  destruct (srvc_sock c) eqn:Hsk.
  - eapply (wp_eq _ (mret ())); [apply close_closed; cbn; by rewrite lget_lset|].
    apply wp_ret. specialize (HQ (srvc_ka_fi c)). destruct c; cbn in *; by subst.
  - eapply wp_eq; [apply close_connecting; cbn; by rewrite lget_lset|].
    apply wp_bind, wp_modify. cbn [cli_set srvc_cli_ref]. rewrite lget_lset, lset_lset.
    apply wp_when; intros _.
    + apply wp_bind. eapply wp_mono; [exact Hcb|]. intros z s' HQ'. by apply wp_ret.
    + specialize (HQ (srvc_ka_fi c)). by destruct c.
  - eapply wp_eq; [apply close_connected; cbn; by rewrite lget_lset|].
    apply wp_bind, wp_modify. cbn [cli_set srvc_cli_ref]. rewrite lget_lset, lset_lset.
    apply wp_bind. eapply wp_mono; [exact Hcb|]. intros z s' HQ'. by apply wp_ret.
Qed.

Lemma wp_delay_onenter n prev c fi w (Q : () → W → Prop) :
  srvc_fi c = Some fi → fi_state fi = SRVC_ST_REESTABLISH_DELAY →
  (srvc_conn c = false → srvc_sock c = CliClosed) →
  0 ≤ reestablish_delay_idx c < count →
  (∀ b, Q () (lset L (set_delay_idx (Z.min (reestablish_delay_idx c + 1) (count - 1))
                       (set_srvc_conn false (set_srvc_ka_fi b (set_srvc_sock CliClosed c)))) w)) →
  wpe E (srvc_st_reestablish_delay_onenter L (calls (S n)) prev) (lset L c w) Q.
Proof using LensLaws0 fsm_S.
  intros Hfi Hst Hsk Hi HQ. unfold srvc_st_reestablish_delay_onenter.
  assert (∀ b, wpe E
    (idx ← gets (λ w, reestablish_delay_idx (lget L w));
     when (idx <? count - 1) (srvc_upd L (set_delay_idx (idx + 1))))
    (lset L (set_srvc_conn false (set_srvc_ka_fi b (set_srvc_sock CliClosed c))) w) Q) as Hidx.
  { intros b. specialize (HQ b). apply wp_bind, wp_lgets, wp_when; cbn [reestablish_delay_idx
      set_srvc_conn set_srvc_ka_fi set_srvc_sock].
    - intros Hlt%Z.ltb_lt. apply wp_upd. by rewrite Z.min_l in HQ by lia.
    - intros Hge%Z.ltb_ge. rewrite Z.min_r in HQ by lia.
      replace (count - 1) with (reestablish_delay_idx c) in HQ by lia. by destruct c. }
  apply wp_bind, wp_lgets, wp_bind, wp_when; intros Hc.
  - apply wp_bind. unfold cli_destroy. eapply wp_eq; [apply destroy_closes|].
    eapply wp_close_refused; [done|by left|]. intros b. apply wp_upd, Hidx.
  - specialize (Hidx (srvc_ka_fi c)). destruct c; cbn in *; subst. specialize (Hsk eq_refl).
    by subst.
Qed.

(** From every state but the delay itself, the machine enters the delay; [P]:
    what holds of the rest of the state when the old one has been left. *)
Lemma wp_leave_to_delay (P : W → Prop) n c fi (w : W) (Q : () → W → Prop) :
  srvc_fi c = Some fi → fi_state fi ≠ SRVC_ST_REESTABLISH_DELAY →
  conn_wf (get_monotonic_ms e) c →
  (∀ c1, srvc_fi c1 = Some (fi_stop_timer fi) →
    wpe E (onleave (states (fsm (S (S n))) (fi_state fi)) SRVC_ST_REESTABLISH_DELAY)
      (lset L c1 w) (λ _ w1, lget L w1 = c1 ∧ P w1)) →
  (∀ c' w', to_delay (get_monotonic_ms e)
      (new_delay (get_monotonic_ms e) (reestablish_last_ms c) (reestablish_delay_idx c)) c c' →
    P w' → Q () (lset L c' w')) →
  wpe E (srvc_do_reestablish L e (calls (S (S n)))) (lset L c w) Q.
Proof using LensLaws0 fsm_S.
  intros Hfi Hst [Hi Hl Hsk] Hleave HQ. unfold srvc_do_reestablish.
  set (t := get_monotonic_ms e) in *. set (last := reestablish_last_ms c) in *.
  set (i := new_idx t last (reestablish_delay_idx c)).
  apply wp_bind, wp_lget, wp_bind. unfold delay_entry at 1. rewrite longest_entry.
  change (count - 1 <? 0) with false. apply wp_deref; [done|]. intros ? [= <-].
  change (2 * 1000 * _) with 32000. fold last.
  assert (new_idx t last (reestablish_delay_idx c) = i) as Hnew by done.
  assert (0 ≤ i < count) as Hii by (by apply new_idx_range).
  apply wp_bind. eapply (wp_mono _ _ (λ _ w', w' = lset L (set_delay_idx i c) w)).
  { unfold i, new_idx. destruct (32000 <? t - last); [by apply wp_upd|]. by destruct c. }
  intros [] ? ->. apply wp_bind, wp_lget, wp_bind.
  destruct (table_entry i) as (d & Hd & _); [done|].
  unfold delay_entry; cbn [reestablish_delay_idx set_delay_idx].
  destruct (Z.ltb_spec i 0) as [|_]; [lia|]. rewrite Hd. apply wp_ret.
  assert (new_delay t last (reestablish_delay_idx c) =
    (if 0 <? d * 1000 - (t - last) then d * 1000 - (t - last) else 1)) as Hdel.
  { unfold new_delay. by rewrite Hnew, Hd. }
  rewrite <-Hdel. set (ms := new_delay _ _ _) in *.
  assert (1 ≤ ms ≤ 16000) as Hms by (by apply new_delay_range).
  apply wp_bind. eapply wp_state_chg_ms; [done|..].
  { rewrite fsm_S. by destruct (fi_state fi). }
  eapply wp_mono; [by apply Hleave|]. intros [] w1 [Hw1 HP].
  eexists _, _. split; [exact Hw1|]. split; [done|].
  rewrite fsm_S. cbn [states rspro_client_server_fsm server_conn_fsm_states onenter].
  eapply wp_delay_onenter; [done|done|done|done|].
  intros b. apply wp_ret, HQ; [|done]. unfold fi_enter; cbn [fi_state].
  destruct (decide (ms = 0)); [lia|]. by split.
Qed.

Lemma wp_do_reestablish n c fi w (Q : () → W → Prop) :
  (n0 ≤ S n)%nat → srvc_fi c = Some fi → fi_state fi ≠ SRVC_ST_REESTABLISH_DELAY →
  conn_wf (get_monotonic_ms e) c → F (connected c) w →
  (∀ c' w', to_delay (get_monotonic_ms e)
      (new_delay (get_monotonic_ms e) (reestablish_last_ms c) (reestablish_delay_idx c)) c c' →
    F false w' → Q () (lset L c' w')) →
  wpe E (srvc_do_reestablish L e (calls (S (S n)))) (lset L c w) Q.
Proof using All.
  intros Hn Hfi Hst Hwf HF HQ. eapply (wp_leave_to_delay (F false)); [done..| |done].
  intros c1 _.
  assert (connected c = bool_decide (fi_state fi = SRVC_ST_CONNECTED)) as Hcon.
  { unfold connected, conn_state. rewrite Hfi. cbn. by rewrite !bool_decide_decide;
      repeat case_decide; congruence. }
  rewrite fsm_S, Hcon in *. destruct (fi_state fi); cbn [states rspro_client_server_fsm
    server_conn_fsm_states onleave];
    try (apply wp_ret; split; [apply lget_lset|by apply F_lset]).
  unfold srvc_st_connected_onleave. eapply wp_mono; [apply (par_ok (S n)); [done|by apply F_lset]|].
  cbn beta. intros [] w' [Hw' HF']. rewrite lget_lset in Hw'. done.
Qed.

(** Of a machine that has not been started, nothing else changes. *)
Lemma wp_establish_init n d c fi w (Q : Z → W → Prop) :
  srvc_fi c = Some fi → fi_state fi = SRVC_ST_INIT → conn_wf (get_monotonic_ms e) c →
  0 ≤ get_monotonic_ms e → (∀ c', Q 0 (lset L c' w)) →
  wpe E (sk_dispatch (calls (S (S (S n)))) SRVC_E_ESTABLISH d) (lset L c w) Q.
Proof using LensLaws0 fsm_S.
  intros Hfi Hst Hwf Hnow HQ. eapply wp_dispatch; [done|]. rewrite fsm_S.
  match goal with |- if ?b then _ else _ => change b with true end. unfold srvc_allstate_action.
  apply wp_bind, wp_upd, wp_bind, wp_upd.
  eapply (wp_leave_to_delay (λ w', ∀ c', lset L c' w' = lset L c' w)); [done|congruence|..].
  - split; [by vm_compute|done|apply Hwf].
  - intros c1 _. rewrite fsm_S, Hst. apply wp_ret. split; [apply lget_lset|]. intros c'. apply lset_lset.
  - intros c' w' _ Hw'. rewrite Hw'. apply HQ.
Qed.

(** During the delay it stays there. *)
Lemma wp_do_reestablish_delay n c fi w (Q : () → W → Prop) :
  srvc_fi c = Some fi → fi_state fi = SRVC_ST_REESTABLISH_DELAY →
  conn_wf (get_monotonic_ms e) c →
  Q () (lset L (set_delay_idx
         (new_idx (get_monotonic_ms e) (reestablish_last_ms c) (reestablish_delay_idx c)) c) w) →
  wpe E (srvc_do_reestablish L e (calls (S n))) (lset L c w) Q.
Proof using LensLaws0 fsm_S.
  intros Hfi Hst [Hi Hl Hsk] HQ. unfold srvc_do_reestablish.
  apply wp_bind, wp_lget, wp_bind. unfold delay_entry at 1. rewrite longest_entry.
  change (count - 1 <? 0) with false. apply wp_deref; [done|]. intros ? [= <-].
  change (2 * 1000 * _) with 32000.
  pose proof (new_idx_range (get_monotonic_ms e) (reestablish_last_ms c) _ Hi) as Hii.
  apply wp_bind.
  eapply (wp_mono _ _ (λ _ w', w' = lset L (set_delay_idx (new_idx (get_monotonic_ms e)
    (reestablish_last_ms c) (reestablish_delay_idx c)) c) w)).
  { unfold new_idx. destruct (32000 <? _); [by apply wp_upd|]. by destruct c. }
  intros [] ? ->. apply wp_bind, wp_lget, wp_bind. cbn [reestablish_delay_idx set_delay_idx].
  destruct (table_entry _ Hii) as (d & Hd & _). unfold delay_entry.
  destruct (Z.ltb_spec (new_idx (get_monotonic_ms e) (reestablish_last_ms c)
    (reestablish_delay_idx c)) 0) as [|_]; [lia|]. rewrite Hd. apply wp_ret, wp_bind.
  eapply wp_state_chg_refused; [done| |by apply wp_ret]. by rewrite fsm_S, Hst.
Qed.

(** ** Losing the connection *)

Abbreviation now := (get_monotonic_ms e).
Abbreviation delay_of c := (new_delay now (reestablish_last_ms c) (reestablish_delay_idx c)).

Definition is_up (st : server_conn_fsm_state) : bool :=
  match st with SRVC_ST_ESTABLISHED | SRVC_ST_CONNECTED => true | _ => false end.

Lemma wp_tcp_down n ev c fi w (Q : Z → W → Prop) :
  (n0 ≤ S n)%nat → srvc_fi c = Some fi → is_up (fi_state fi) = true →
  ev = SRVC_E_TCP_DOWN ∨ ev = SRVC_E_KA_TIMEOUT →
  conn_wf now c → F (connected c) w →
  (∀ c' w', to_delay now (delay_of c) c c' → F false w' → Q 0 (lset L c' w')) →
  wpe E (sk_dispatch (calls (S (S (S n)))) ev None) (lset L c w) Q.
Proof using All.
  intros Hn Hfi Hup Hev Hwf HF HQ. eapply wp_dispatch; [done|]. rewrite fsm_S.
  destruct (fi_state fi) eqn:Hst; try done; destruct Hev as [-> | ->];
    (eapply wp_do_reestablish; [done|done|congruence|done|done|exact HQ]).
Qed.

Lemma wp_tcp_down_reestablish n c fi w (Q : Z → W → Prop) :
  srvc_fi c = Some fi → fi_state fi = SRVC_ST_REESTABLISH → Q 0 (lset L c w) →
  wpe E (sk_dispatch (calls (S n)) SRVC_E_TCP_DOWN None) (lset L c w) Q.
Proof using LensLaws0 fsm_S.
  intros Hfi Hst HQ. eapply wp_dispatch; [done|]. rewrite fsm_S, Hst. by apply wp_ret.
Qed.

Lemma wf_closed t c b s : conn_wf t c →
  conn_wf t (set_srvc_ka_fi b (set_srvc_sock CliClosed (set_srvc_conn s c))).
Proof. intros [Hi Hl Hs]. by split. Qed.

Lemma to_delay_closed t d c c' b s :
  to_delay t d (set_srvc_ka_fi b (set_srvc_sock CliClosed (set_srvc_conn s c))) c' →
  to_delay t d c c'.
Proof. intros []. by split. Qed.

(** Closing a connected socket, [s] being what [conn] points to meanwhile. *)
Lemma wp_close_up n s c fi w (Q : () → W → Prop) :
  (n0 ≤ S n)%nat → srvc_fi c = Some fi → is_up (fi_state fi) = true → srvc_sock c = CliUp →
  conn_wf now c → F (connected c) w →
  (∀ c' w', to_delay now (delay_of c) c c' → F false w' → Q () (lset L c' w')) →
  wpe E (cli_close L (calls (S (S (S n))))) (lset L (set_srvc_conn s c) w) Q.
Proof using All.
  intros Hn Hfi Hup Hsk Hwf HF HQ.
  eapply wp_eq; [apply close_connected; cbn; by rewrite lget_lset|].
  apply wp_bind, wp_modify. cbn [cli_set srvc_cli_ref]. rewrite lget_lset, lset_lset.
  assert (∀ b, wpe E (sk_dispatch (calls (S (S (S n)))) SRVC_E_TCP_DOWN None ;; mret 0)
    (lset L (set_srvc_ka_fi b (set_srvc_sock CliClosed (set_srvc_conn s c))) w) (λ _, Q ())) as Hd.
  { intros b. apply wp_bind. eapply wp_tcp_down; [done|done|done|by left|by apply wf_closed|done|].
    intros c' w' Hc' HF'. apply wp_ret, HQ; [|done]. by eapply to_delay_closed. }
  apply wp_bind. unfold srvc_disconnect_cb. apply wp_bind, wp_lgets, wp_bind, wp_when; intros Hka.
  - apply wp_upd. eapply wp_mono; [apply Hd|]. intros z s' HQ'. by apply wp_ret.
  - specialize (Hd (srvc_ka_fi c)). eapply wp_mono; [|intros z s' HQ'; apply wp_ret, HQ'].
    by destruct c.
Qed.

(** Closing the socket of a connection attempt. *)
Lemma wp_close_reestablish n s c fi w (Q : () → W → Prop) :
  srvc_fi c = Some fi → fi_state fi = SRVC_ST_REESTABLISH → srvc_sock c ≠ CliUp →
  (∀ b, Q () (lset L (set_srvc_ka_fi b (set_srvc_sock CliClosed (set_srvc_conn s c))) w)) →
  wpe E (cli_close L (calls (S n))) (lset L (set_srvc_conn s c) w) Q.
Proof using LensLaws0 fsm_S.
  intros Hfi Hst Hsk HQ. destruct (srvc_sock c) eqn:Hs; [| |done].
  - eapply (wp_eq _ (mret ())); [apply close_closed; cbn; by rewrite lget_lset|].
    apply wp_ret. specialize (HQ (srvc_ka_fi c)). destruct c; cbn in *; by subst.
  - eapply wp_eq; [apply close_connecting; cbn; by rewrite lget_lset|].
    apply wp_bind, wp_modify. cbn [cli_set srvc_cli_ref]. rewrite lget_lset, lset_lset.
    apply wp_when; intros _; [|specialize (HQ (srvc_ka_fi c)); by destruct c].
    apply wp_bind. unfold srvc_disconnect_cb. apply wp_bind, wp_lgets, wp_bind, wp_when; intros Hka.
    + apply wp_upd, wp_bind. eapply wp_tcp_down_reestablish; [done|done|].
      apply wp_ret, wp_ret, HQ.
    + apply wp_bind. eapply wp_tcp_down_reestablish; [done|done|]. apply wp_ret, wp_ret.
      specialize (HQ (srvc_ka_fi c)). by destruct c.
Qed.

(** ** The events of all states *)

Record to_init (c c' : rspro_server_conn) : Prop := {
  ti_fi : srvc_fi c' = Some (FsmInst SRVC_ST_INIT 0 None);
  ti_conn : srvc_conn c' = false;
  ti_sock : srvc_sock c' = CliClosed;
  ti_last : reestablish_last_ms c' = reestablish_last_ms c;
  ti_idx : 0 ≤ reestablish_delay_idx c' < count;
  ti_cfg : srvc_cfg c' = srvc_cfg c;
  ti_sent : srvc_sent c' = srvc_sent c;
}.

Lemma to_init_inv t c c' : conn_wf t c → to_init c c' → conn_inv t c' ∧ connected c' = false.
Proof.
  intros [Hi Hl Hs] [Hfi Hc Hsk Hlast Hidx Hcfg Hsent]. split; [split|].
  - split; [done|by rewrite Hlast|done].
  - by eexists.
  - unfold connected, conn_state. by rewrite Hfi.
Qed.

(** The last step of a disconnection, in any state but CONNECTED. *)
Lemma wp_chg_init n c fi w (Q : Z → W → Prop) :
  srvc_fi c = Some fi → fi_state fi ≠ SRVC_ST_CONNECTED →
  Q 0 (lset L (set_srvc_fi (Some (FsmInst SRVC_ST_INIT 0 None)) c) w) →
  wpe E (sk_state_chg (calls (S n)) SRVC_ST_INIT 0 0) (lset L c w) Q.
Proof using LensLaws0 fsm_S.
  intros Hfi Hst HQ. change (wpe E (sk_state_chg_ms (calls (S n)) SRVC_ST_INIT 0 0) (lset L c w) Q).
  eapply wp_state_chg_ms; [done|rewrite fsm_S; by destruct (fi_state fi)|].
  eapply (wp_mono _ _ (λ _ w1, w1 = lset L (set_srvc_fi (Some (fi_stop_timer fi)) c) w)).
  { rewrite fsm_S. by destruct (fi_state fi). }
  intros [] ? ->. eexists _, _. split; [apply lget_lset|]. split; [done|].
  rewrite fsm_S, lset_lset. by apply wp_ret.
Qed.

Lemma wp_disconnect n d c fi w (Q : Z → W → Prop) :
  (n0 ≤ S n)%nat → srvc_fi c = Some fi → state_ok c fi → conn_wf now c → F (connected c) w →
  (∀ c' w', to_init c c' → F false w' → Q 0 (lset L c' w')) →
  wpe E (sk_dispatch (calls (S (S (S (S n))))) SRVC_E_DISCONNECT d) (lset L c w) Q.
Proof using All.
  intros Hn Hfi Hok Hwf HF HQ. eapply wp_dispatch; [done|]. rewrite fsm_S.
  match goal with |- if ?b then _ else _ => change b with true end. unfold srvc_allstate_action. apply wp_bind, wp_lgets.
  destruct (is_up (fi_state fi)) eqn:Hup.
  - assert (srvc_conn c = true ∧ srvc_sock c = CliUp) as [Hc Hs].
    { unfold state_ok in Hok. destruct (fi_state fi); by try destruct_and! Hok. }
    rewrite Hc. apply wp_bind, wp_bind, wp_upd. unfold cli_destroy.
    eapply wp_eq; [apply destroy_closes|]. eapply wp_close_up; [done..|].
    intros c' w' Hd HF'. apply wp_bind. pose proof (to_delay_inv _ _ _ Hwf Hd) as [[Hwf' _] _].
    destruct Hd as [Hfi' ? ? ? ? ? ?]. eapply wp_chg_init; [done|done|].
    apply wp_ret, HQ; [|done]. split; cbn; try done. apply Hwf'.
  - assert (connected c = false) as Hcon.
    { unfold connected, conn_state. rewrite Hfi. cbn. by destruct (fi_state fi). }
    rewrite Hcon in HF. apply wp_bind, wp_when; intros Hc.
    + assert (fi_state fi = SRVC_ST_REESTABLISH ∧ srvc_sock c ≠ CliUp) as [Hst Hs].
      { unfold state_ok in Hok. destruct (fi_state fi); destruct_and? Hok; try done; congruence. }
      apply wp_bind, wp_upd. unfold cli_destroy. eapply wp_eq; [apply destroy_closes|].
      eapply wp_close_reestablish; [done..|]. intros b. apply wp_bind.
      eapply wp_chg_init; [done|cbn; congruence|]. apply wp_ret, HQ; [|done].
      split; cbn; try done. apply Hwf.
    + apply wp_bind. eapply wp_chg_init; [done|by destruct (fi_state fi)|].
      apply wp_ret, HQ; [|done]. split; cbn; try done; by apply Hwf.
Qed.

Lemma not_connected c fi :
  srvc_fi c = Some fi → fi_state fi ≠ SRVC_ST_CONNECTED → connected c = false.
Proof. intros Hfi Hst. unfold connected, conn_state. rewrite Hfi. cbn. by destruct (fi_state fi). Qed.

(** What an establishment leads to. *)
Record establishing (t : Z) (c c' : rspro_server_conn) : Prop := {
  es_st : conn_state c' = Some SRVC_ST_REESTABLISH_DELAY;
  es_inv : conn_inv t c';
  es_cfg : srvc_cfg c' = srvc_cfg c;
  es_sent : srvc_sent c' = srvc_sent c;
}.

Lemma wp_establish n d c fi w (Q : Z → W → Prop) :
  (n0 ≤ S n)%nat → srvc_fi c = Some fi → state_ok c fi → conn_wf now c → 0 ≤ now →
  F (connected c) w →
  (∀ c' w', establishing now c c' → F false w' → Q 0 (lset L c' w')) →
  wpe E (sk_dispatch (calls (S (S (S n)))) SRVC_E_ESTABLISH d) (lset L c w) Q.
Proof using All.
  intros Hn Hfi Hok Hwf Hnow HF HQ. eapply wp_dispatch; [done|]. rewrite fsm_S.
  match goal with |- if ?b then _ else _ => change b with true end. unfold srvc_allstate_action.
  apply wp_bind, wp_upd, wp_bind, wp_upd.
  assert (conn_wf now (set_last_ms 0 (set_delay_idx 0 c))) as Hwf0.
  { split; [by vm_compute|done|apply Hwf]. }
  destruct (decide (fi_state fi = SRVC_ST_REESTABLISH_DELAY)) as [Hst|Hst].
  - eapply wp_do_reestablish_delay; [done|done|done|].
    rewrite (not_connected _ _ Hfi) in HF by congruence. apply HQ; [|done].
    pose proof (new_idx_range now 0 0 ltac:(by vm_compute)). split; [|split|done|done].
    + unfold conn_state; cbn. by rewrite Hfi; cbn; f_equal.
    + split; cbn; [done|done|apply Hwf].
    + exists fi. split; [done|]. unfold state_ok in *. by rewrite Hst in *.
  - eapply wp_do_reestablish; [done..|]. intros c' w' Hd HF'. apply HQ; [|done].
    destruct (to_delay_inv _ _ _ Hwf0 Hd) as [Hinv _]. destruct Hd as [Hfi' ? ? ? ? Hcfg Hsent].
    split; [|done|done|done]. unfold conn_state. by rewrite Hfi'.
Qed.

(** The answer to the connection request. *)
Lemma wp_conn_res n pdu r c fi w (Q : Z → W → Prop) :
  (n0 ≤ S n)%nat → srvc_fi c = Some fi → state_ok c fi → conn_wf now c → F (connected c) w →
  rspro_get_result pdu = Done r →
  (fi_state fi ≠ SRVC_ST_ESTABLISHED → Q (- 1) (lset L c w)) →
  (fi_state fi = SRVC_ST_ESTABLISHED → r ≠ ResultCode_ok →
     ∀ c' w', to_delay now (delay_of c) c c' → F false w' → Q 0 (lset L c' w')) →
  (fi_state fi = SRVC_ST_ESTABLISHED → r = ResultCode_ok →
     ∀ w', F true w' → lget L w' = set_srvc_fi (Some (FsmInst SRVC_ST_CONNECTED 0 None)) c → Q 0 w') →
  wpe E (sk_dispatch (calls (S (S (S (S n))))) SRVC_E_CLIENT_CONN_RES (Some pdu)) (lset L c w) Q.
Proof using All.
  intros Hn Hfi Hok Hwf HF Hr Hno Hbad Hgood. eapply wp_dispatch; [done|]. rewrite fsm_S.
  match goal with |- if ?b then _ else _ => change b with false end. cbn iota.
  destruct (decide (fi_state fi = SRVC_ST_ESTABLISHED)) as [Hst|Hst];
    [|specialize (Hno Hst); by destruct (fi_state fi)].
  clear Hno. rewrite Hst. change (Z.testbit _ _) with true. cbn iota.
  cbn [states rspro_client_server_fsm server_conn_fsm_states action srvc_st_established].
  unfold state_ok in Hok. rewrite Hst in Hok. destruct Hok as (Hc & Hs & Hka & HT & Htm).
  apply wp_bind, wp_ret, wp_bind. rewrite Hr. apply wp_ret.
  destruct (Z.eqb_spec r ResultCode_ok) as [Hrr|Hrr]; cbn [negb].
  - apply wp_bind. change (wpe E (sk_state_chg_ms (calls (S (S (S n)))) SRVC_ST_CONNECTED 0 0)
      (lset L c w) (λ _ w, wpe E (mret ()) w (λ _, Q 0))).
    eapply wp_state_chg_ms; [done|by rewrite fsm_S, Hst|]. rewrite fsm_S, Hst.
    cbn [states rspro_client_server_fsm server_conn_fsm_states onenter onleave].
    apply wp_ret. eexists _, _. split; [apply lget_lset|]. split; [done|].
    unfold srvc_st_connected_onenter. rewrite lset_lset.
    rewrite (not_connected _ _ Hfi) in HF by congruence.
    eapply wp_mono; [apply (par_ok (S (S n))); [lia|by apply F_lset]|].
    cbn beta. intros [] w' [Hw' HF']. rewrite lget_lset in Hw'. apply wp_ret. by apply Hgood.
  - apply wp_with_conn; [done|].
    replace c with (set_srvc_conn (srvc_conn c) c) at 1 by (by destruct c).
    eapply wp_close_up; [done|done|by rewrite Hst|done..|]. by apply Hbad.
Qed.

(** Transmission. *)
Definition sent_rspro (pdu : RsproPDU) : list tx_msg := TxRspro <$> option_list (rspro_enc_msg pdu).

Lemma wp_conn_send pdu c w (Q : Z → W → Prop) :
  srvc_conn c = true →
  (∀ rc, Q rc (lset L (set_srvc_sent (srvc_sent c ++ sent_rspro pdu) c) w)) →
  wpe E (_server_conn_send_rspro L pdu) (lset L c w) Q.
Proof using LensLaws0.
  intros Hc HQ. unfold _server_conn_send_rspro, cli_conn_send_rspro, sent_rspro in *.
  destruct (rspro_enc_msg pdu) as [b|].
  - apply wp_bind, wp_with_conn; [done|]. apply wp_upd, wp_ret, HQ.
  - apply wp_ret. cbn in HQ. rewrite app_nil_r in HQ. specialize (HQ (- 1)). by destruct c.
Qed.

Lemma wp_tx n pdu c fi w (Q : Z → W → Prop) :
  srvc_fi c = Some fi → state_ok c fi →
  (fi_state fi ≠ SRVC_ST_CONNECTED → Q (- 1) (lset L c w)) →
  (fi_state fi = SRVC_ST_CONNECTED →
     Q 0 (lset L (set_srvc_sent (srvc_sent c ++ sent_rspro pdu) c) w)) →
  wpe E (sk_dispatch (calls (S n)) SRVC_E_RSPRO_TX (Some pdu)) (lset L c w) Q.
Proof using LensLaws0 fsm_S.
  intros Hfi Hok Hno Hyes. eapply wp_dispatch; [done|]. rewrite fsm_S.
  match goal with |- if ?b then _ else _ => change b with false end. cbn iota.
  destruct (decide (fi_state fi = SRVC_ST_CONNECTED)) as [Hst|Hst];
    [|specialize (Hno Hst); by destruct (fi_state fi)].
  rewrite Hst. change (Z.testbit _ _) with true. cbn iota.
  cbn [states rspro_client_server_fsm server_conn_fsm_states action srvc_st_connected].
  unfold state_ok in Hok. rewrite Hst in Hok. destruct Hok as (Hc & _).
  apply wp_bind, wp_ret, wp_bind. apply wp_conn_send; [done|]. intros rc. by apply wp_ret, Hyes.
Qed.

(** The connection after a transmission was asked for. *)
Definition with_sent (pdu : RsproPDU) (c : rspro_server_conn) : rspro_server_conn :=
  set_srvc_sent (srvc_sent c ++ if connected c then sent_rspro pdu else []) c.

Lemma with_sent_connected c fi pdu : srvc_fi c = Some fi → fi_state fi = SRVC_ST_CONNECTED →
  with_sent pdu c = set_srvc_sent (srvc_sent c ++ sent_rspro pdu) c.
Proof.
  intros Hfi Hst. unfold with_sent, connected, conn_state. rewrite Hfi. cbn. by rewrite Hst.
Qed.
Lemma with_sent_down c fi pdu : srvc_fi c = Some fi → fi_state fi ≠ SRVC_ST_CONNECTED →
  with_sent pdu c = c.
Proof.
  intros Hfi Hst. unfold with_sent. rewrite (not_connected _ _ Hfi Hst), app_nil_r. by destruct c.
Qed.

Lemma wp_server_conn_send_rspro n pdu c fi w (Q : Z → W → Prop) :
  srvc_fi c = Some fi → state_ok c fi →
  (fi_state fi ≠ SRVC_ST_CONNECTED → Q (- EPERM) (lset L c w)) →
  (fi_state fi = SRVC_ST_CONNECTED →
     Q 0 (lset L (set_srvc_sent (srvc_sent c ++ sent_rspro pdu) c) w)) →
  wpe E (server_conn_send_rspro (calls (S n)) (Some pdu)) (lset L c w) Q.
Proof using LensLaws0 fsm_S.
  intros Hfi Hok Hno Hyes. unfold server_conn_send_rspro. apply wp_bind.
  eapply wp_tx; [done..| |]; intros Hst; apply wp_ret; auto.
Qed.

(** ** The events of the socket and of the timers *)

(** The request sent when the TCP connection is up. *)
Definition connect_req (g : srvc_config) : RsproPDU :=
  if ac_type (own_comp_id g) =? ComponentType_remsimClient
  then rspro_gen_ConnectClientReq (own_comp_id g) (clslot g)
  else rspro_gen_ConnectBankReq (own_comp_id g) (srvc_bank_id g) (srvc_num_slots g).

(** The connection with its TCP connection up and the request sent. *)
Definition established_conn (c : rspro_server_conn) : rspro_server_conn :=
  set_srvc_sent (srvc_sent c ++ sent_rspro (connect_req (srvc_cfg c)))
    (set_srvc_fi (Some (FsmInst SRVC_ST_ESTABLISHED 1 (Some 10000))) (set_srvc_sock CliUp c)).

Lemma established_conn_inv t c :
  conn_wf t c → srvc_conn c = true → srvc_ka_fi c = true → conn_inv t (established_conn c).
Proof.
  intros [Hi Hl Hs] Hc Hk. split.
  - split; [done|done|]. cbn. congruence.
  - eexists. split; [done|]. unfold state_ok; cbn. eauto 6.
Qed.

Lemma wp_connect_cb n c fi w (Q : Z → W → Prop) :
  srvc_fi c = Some fi → fi_state fi = SRVC_ST_REESTABLISH → state_ok c fi →
  srvc_sock c = CliConnecting →
  Q 0 (lset L (established_conn c) w) →
  wpe E (srvc_connect_cb (calls (S (S n)))) (lset L (set_srvc_sock CliUp c) w) Q.
Proof using LensLaws0 fsm_S.
  intros Hfi Hst Hok Hs HQ. unfold srvc_connect_cb. apply wp_bind.
  eapply wp_dispatch; [done|]. rewrite fsm_S.
  match goal with |- if ?b then _ else _ => change b with false end. cbn iota.
  rewrite Hst. change (Z.testbit _ _) with true. cbn iota.
  cbn [states rspro_client_server_fsm server_conn_fsm_states action srvc_st_reestablish].
  unfold state_ok in Hok. rewrite Hst in Hok. destruct Hok as (Hc & _ & Hka & _). specialize (Hka Hs).
  apply wp_bind. change (wpe E (sk_state_chg_ms (calls (S n)) SRVC_ST_ESTABLISHED 10000 1)
      (lset L (set_srvc_sock CliUp c) w) (λ _ w, wpe E (mret ()) w (λ _ w, wpe E (mret 0) w Q))).
  eapply wp_state_chg_ms; [done|by rewrite fsm_S, Hst|]. rewrite fsm_S, Hst.
  cbn [states rspro_client_server_fsm server_conn_fsm_states onenter onleave].
  apply wp_ret. eexists _, _. split; [apply lget_lset|]. split; [done|]. rewrite lset_lset.
  unfold srvc_st_established_onenter. apply wp_bind, wp_lget, wp_bind. cbn [srvc_ka_fi set_srvc_fi
    set_srvc_sock]. rewrite Hka. apply wp_ret. apply wp_bind.
  apply wp_conn_send; [done|]. intros rc. by repeat apply wp_ret.
Qed.

(** The machine starts a connection attempt; it exits if the system refuses. *)
Definition attempt_ok : bool := cli_create_ok e && ka_alloc_ok e && cli_open_ok e.

Definition attempt_conn (c : rspro_server_conn) : rspro_server_conn :=
  set_srvc_sock CliConnecting (set_srvc_ka_fi true (set_srvc_conn true (set_last_ms now
    (set_srvc_fi (Some (FsmInst SRVC_ST_REESTABLISH 2 (Some 10000))) c)))).

Lemma wp_tmr_delay n c fi w (Q : () → W → Prop) :
  srvc_fi c = Some fi → fi_state fi = SRVC_ST_REESTABLISH_DELAY → state_ok c fi →
  (attempt_ok = false → E APanic) →
  (attempt_ok = true → Q () (lset L (attempt_conn c) w)) →
  wpe E (fsm_tmr_cb (fsm (S (S n))) (srvc_fi_ref L)) (lset L c w) Q.
Proof using LensLaws0 fsm_S.
  intros Hfi Hst Hok Hexit HQ. eapply wp_eq; [apply tmr_cb_eq|].
  unfold state_ok in Hok. rewrite Hst in Hok. destruct Hok as (Hc & HT & ms & Htm & Hms).
  apply wp_bind, wp_gets. cbn [fi_get srvc_fi_ref]. rewrite lget_lset, Hfi. apply wp_bind, wp_ret.
  apply wp_bind. eapply wp_srvc_fi_update; [done|]. rewrite HT, fsm_S.
  cbn [timer_cb rspro_client_server_fsm server_conn_fsm_timer_cb].
  apply wp_bind, wp_bind.
  change (wpe E (sk_state_chg_ms (calls (S n)) SRVC_ST_REESTABLISH 10000 2)
    (lset L (set_srvc_fi (Some (fi_stop_timer fi)) c) w) (λ _ w, wpe E (mret 0) w (λ rc w,
     wpe E (when (bool_decide (rc = 1)) (osmo_fsm_inst_term (rspro_client_server_fsm L e (par (S n))
       (calls (S n))) (srvc_fi_ref L))) w Q))).
  eapply wp_state_chg_ms; [done|rewrite fsm_S; cbn [fi_state fi_stop_timer]; by rewrite Hst|].
  rewrite fsm_S. cbn [fi_state fi_stop_timer]. rewrite Hst.
  cbn [states rspro_client_server_fsm server_conn_fsm_states onenter onleave].
  apply wp_ret. eexists _, _. split; [apply lget_lset|]. split; [done|]. rewrite lset_lset.
  unfold srvc_st_reestablish_onenter, attempt_ok, attempt_conn in *.
  apply wp_bind, wp_upd, wp_bind, wp_upd.
  destruct (cli_create_ok e); [|by apply wp_panic, Hexit]. cbn [negb].
  apply wp_bind, wp_upd. destruct (ka_alloc_ok e); [|by apply wp_panic, Hexit].
  destruct (cli_open_ok e); [|by apply wp_panic, Hexit]. cbn [negb].
  apply wp_upd, wp_ret, wp_when; intros; [by rewrite bool_decide_eq_true in *|]. by apply HQ.
Qed.

(** The two time-outs of a connection attempt lead to the delay. *)
Lemma wp_tmr_attempt n c fi w (Q : () → W → Prop) :
  (n0 ≤ S n)%nat → srvc_fi c = Some fi → state_ok c fi → conn_wf now c → F (connected c) w →
  fi_state fi = SRVC_ST_REESTABLISH ∨ fi_state fi = SRVC_ST_ESTABLISHED →
  (∀ c' w', to_delay now (delay_of c) c c' → F false w' → Q () (lset L c' w')) →
  wpe E (fsm_tmr_cb (fsm (S (S (S (S n))))) (srvc_fi_ref L)) (lset L c w) Q.
Proof using All.
  intros Hn Hfi Hok Hwf HF Hst HQ. eapply wp_eq; [apply tmr_cb_eq|].
  apply wp_bind, wp_gets. cbn [fi_get srvc_fi_ref]. rewrite lget_lset, Hfi. apply wp_bind, wp_ret.
  apply wp_bind. eapply wp_srvc_fi_update; [done|].
  set (c1 := set_srvc_fi (Some (fi_stop_timer fi)) c).
  assert (connected c1 = connected c) as Hcon.
  { unfold connected, conn_state. cbn. by rewrite Hfi. }
  assert (conn_wf now c1) as Hwf1 by (destruct Hwf; by split).
  assert (∀ c' w', to_delay now (delay_of c1) c1 c' → F false w' → Q () (lset L c' w')) as HQ1.
  { intros c' w' [] HF'. apply HQ; [by split|done]. }
  rewrite fsm_S. unfold state_ok in Hok. destruct Hst as [Hst|Hst]; rewrite Hst in Hok.
  - destruct Hok as (Hc & _ & _ & -> & _).
    cbn [timer_cb rspro_client_server_fsm server_conn_fsm_timer_cb]. apply wp_bind, wp_bind.
    eapply wp_do_reestablish; [lia|done|cbn; congruence|done|by rewrite Hcon|].
    intros c' w' Hd HF'. apply wp_ret, wp_when; [by rewrite bool_decide_eq_true|].
    intros _. by apply HQ1.
  - destruct Hok as (Hc & Hs & _ & -> & _).
    cbn [timer_cb rspro_client_server_fsm server_conn_fsm_timer_cb]. apply wp_bind, wp_bind.
    apply wp_with_conn; [done|]. replace c1 with (set_srvc_conn true c1)
      by (unfold c1; destruct c; cbn in *; by subst).
    eapply wp_close_up; [done|done|cbn; by rewrite Hst|done|done|by rewrite Hcon|].
    intros c' w' Hd HF'. apply wp_ret, wp_when; [by rewrite bool_decide_eq_true|].
    intros _. by apply HQ1.
Qed.

(** Whether the library and [_ipaccess_bts_handle_ccm] accept a message of the
    connection management. *)
Definition ccm_accepted (m : ipa_msg) (sent : list tx_msg) : bool :=
  match l2_data m with
  | [] => false
  | msg_type :: req =>
      (0 <=? (ipa_ccm_rcvmsg_bts_base (l2_data m) sent).1) &&
      (negb (msg_type =? IPAC_MSGT_ID_GET) ||
       bool_decide (is_Some (ipa_ccm_make_id_resp_from_req req)))
  end.

Lemma wp_bts_ccm m c w (Q : Z → W → Prop) :
  ipa_proto m = IPAC_PROTO_IPACCESS → srvc_sock c = CliUp → l2_data m ≠ [] →
  (ccm_accepted m (srvc_sent c) = true →
     ∀ tx, Q 1 (lset L (set_srvc_sent (srvc_sent c ++ tx) c) w)) →
  (ccm_accepted m (srvc_sent c) = false →
     ∀ tx, Q (- 1) (lset L (set_srvc_sent (srvc_sent c ++ tx) c) w)) →
  wpe E (_ipaccess_bts_handle_ccm L m) (lset L c w) Q.
Proof using LensLaws0.
  intros Hp Hs Hl Hyes Hno. unfold _ipaccess_bts_handle_ccm, ccm_accepted in *. rewrite Hp.
  change (negb (_ =? _)) with false. cbn iota. destruct (l2_data m) as [|ty req]; [done|].
  apply wp_bind, wp_lgets, wp_bind. rewrite Hs. apply wp_ret, wp_bind, wp_lget.
  destruct (ipa_ccm_rcvmsg_bts_base _ _) as [ret tx]. cbn [fst] in *.
  apply wp_bind, wp_upd. rewrite Z.leb_antisym in *. destruct (ret <? 0); [by apply wp_ret, Hno|].
  cbn [negb andb] in *. destruct (ty =? _); [|by apply wp_ret, Hyes]. cbn [negb orb] in *.
  destruct (ipa_ccm_make_id_resp_from_req req) as [rmsg|]; [|by apply wp_ret, Hno].
  apply wp_bind, wp_upd, wp_bind, wp_upd, wp_ret. cbn [srvc_sent set_srvc_sent].
  rewrite <-!app_assoc. apply (Hyes eq_refl).
Qed.

(** A message from the connected socket, for any handler [h] of PDUs. *)
Lemma wp_read n h res m c fi w (Q : Z → W → Prop) :
  (n0 ≤ S n)%nat → srvc_fi c = Some fi → state_ok c fi → conn_wf now c → F (connected c) w →
  is_up (fi_state fi) = true →
  (ipa_proto m = IPAC_PROTO_IPACCESS → 0 < res →
     (l2_data m = [] → E APanic) ∧ (ccm_accepted m (srvc_sent c) = false → E AUndef)) →
  (∀ rc tx, Q rc (lset L (set_srvc_sent (srvc_sent c ++ tx) c) w)) →
  (∀ c' w', to_delay now (delay_of c) c c' → F false w' → Q (- EBADF) (lset L c' w')) →
  (∀ pdu, rspro_dec_msg (l2_data m) = Some pdu → wpe E (h pdu) (lset L c w) Q) →
  wpe E (srvc_read_cb L (calls (S (S (S n)))) h res m) (lset L c w) Q.
Proof using All.
  intros Hn Hfi Hok Hwf HF Hup Hccm Hsame Hclose Hpdu.
  assert (srvc_conn c = true ∧ srvc_sock c = CliUp ∧ srvc_ka_fi c = true) as (Hc & Hs & Hka).
  { unfold state_ok in Hok. destruct (fi_state fi); destruct_and? Hok; done. }
  assert (wpe E (cli_close L (calls (S (S (S n)))) ;; mret (- EBADF)) (lset L c w) Q) as Herr.
  { apply wp_bind. replace c with (set_srvc_conn true c) by (destruct c; cbn in *; by subst).
    eapply wp_close_up; [done..|]. intros c' w' Hd HF'. by apply wp_ret, Hclose. }
  unfold srvc_read_cb. destruct (Z.leb_spec res 0) as [|Hres]; [done|].
  destruct (Z.eqb_spec (ipa_proto m) IPAC_PROTO_IPACCESS) as [Hp|].
  - destruct (Hccm Hp Hres) as [Hempty Hundef]. destruct (l2_data m) as [|ty req] eqn:Hl.
    { by apply wp_panic, Hempty. }
    apply wp_bind, wp_with_conn; [done|]. apply wp_bts_ccm; [done|done|congruence|..].
    + intros _ tx. change (1 <? 0) with false. cbn iota. destruct (ty =? IPAC_MSGT_PONG).
      * apply wp_bind, wp_lgets. cbn [srvc_ka_fi set_srvc_sent]. rewrite Hka. by apply wp_ret.
      * by apply wp_ret.
    + intros Hf tx. by apply wp_undef, Hundef.
  - destruct (_ =? IPAC_PROTO_OSMO); [|done]. destruct (_ =? IPAC_PROTO_EXT_RSPRO); [|done].
    destruct (rspro_dec_msg (l2_data m)) as [pdu|]; [by apply Hpdu|]. apply wp_ret.
    specialize (Hsame (- EIO) []). rewrite app_nil_r in Hsame. by destruct c.
Qed.

(** A readable RSPRO message goes to the handler. *)
Lemma wp_read_rspro K h res m pdu w (Q : Z → W → Prop) :
  0 < res → ipa_proto m = IPAC_PROTO_OSMO → ipa_proto_ext m = IPAC_PROTO_EXT_RSPRO →
  rspro_dec_msg (l2_data m) = Some pdu → wpe E (h pdu) w Q →
  wpe E (srvc_read_cb L K h res m) w Q.
Proof.
  intros Hres Hp1 Hp2 Hdec HQ. unfold srvc_read_cb.
  rewrite (proj2 (Z.leb_gt res 0) Hres), Hp1, Hp2.
  change (IPAC_PROTO_OSMO =? IPAC_PROTO_IPACCESS) with false.
  change (IPAC_PROTO_OSMO =? IPAC_PROTO_OSMO) with true.
  change (IPAC_PROTO_EXT_RSPRO =? IPAC_PROTO_EXT_RSPRO) with true. cbn iota. by rewrite Hdec.
Qed.

(** ** All events of a connection *)

(** The events that can happen to a connection. *)
Definition cv_possible (c : rspro_server_conn) (v : conn_event) : Prop :=
  match v with
  | CvUp | CvFailed => srvc_sock c = CliConnecting
  | CvRead _ _ => srvc_sock c = CliUp
  | CvTimer => is_Some (srvc_fi c ≫= fi_timer)
  | CvKaTimeout => srvc_sock c = CliUp ∧ srvc_ka_fi c = true
  end.

#[global] Instance cv_possible_dec c v : Decision (cv_possible c v).
Proof. destruct v; cbn; apply _. Defined.

(** How the processing of an event may end the program: the exit when a
    connection attempt cannot be made, and malformed messages of the IPA
    connection management. *)
Definition cv_abort (c : rspro_server_conn) (v : conn_event) (a : abort) : Prop :=
  match a, v with
  | APanic, CvTimer => conn_state c = Some SRVC_ST_REESTABLISH_DELAY ∧ attempt_ok = false
  | APanic, CvRead res m => 0 < res ∧ ipa_proto m = IPAC_PROTO_IPACCESS ∧ l2_data m = []
  | AUndef, CvRead res m =>
      0 < res ∧ ipa_proto m = IPAC_PROTO_IPACCESS ∧ ccm_accepted m (srvc_sent c) = false
  | _, _ => False
  end.

Lemma attempt_conn_inv c : conn_wf now c → conn_inv now (attempt_conn c).
Proof.
  intros [Hi Hl Hs]. split; [split; try done; cbn; lia|]. eexists. split; [done|].
  unfold state_ok; cbn. auto.
Qed.

Lemma wp_conn_event n h v c w (Q : W → Prop) :
  (n0 ≤ S n)%nat → conn_inv now c → F (connected c) w → cv_possible c v →
  (∀ a, cv_abort c v a → E a) →
  (∀ c' w', conn_inv now c' → srvc_cfg c' = srvc_cfg c → F (connected c') w' → Q (lset L c' w')) →
  (∀ res m pdu, v = CvRead res m → rspro_dec_msg (l2_data m) = Some pdu →
     wpe E (h pdu) (lset L c w) (λ _, Q)) →
  wpe E (run_conn_event L (fsm (S (S (S (S n))))) h v) (lset L c w) (λ _, Q).
Proof using All.
  intros Hn [Hwf (fi & Hfi & Hok)] HF Hpos Hab HQ Hh.
  assert (∀ c' w', to_delay now (delay_of c) c c' → F false w' → Q (lset L c' w')) as Hdel.
  { intros c' w' Hd HF'. destruct (to_delay_inv _ _ _ Hwf Hd) as [Hi' Hc'].
    apply HQ; [done|apply Hd|by rewrite Hc']. }
  assert (srvc_sock c = CliUp → is_up (fi_state fi) = true) as Hup.
  { intros Hs. unfold state_ok in Hok. destruct (fi_state fi); try done; destruct_and! Hok;
      try done; destruct Hwf as [_ _ Hw]; rewrite Hw in Hs; done. }
  assert (srvc_sock c = CliConnecting → fi_state fi = SRVC_ST_REESTABLISH) as Hcon.
  { intros Hs. unfold state_ok in Hok. destruct (fi_state fi); try done; destruct_and! Hok;
      try congruence; destruct Hwf as [_ _ Hw]; rewrite Hw in Hs; done. }
  destruct v as [| |res m| |]; cbn [run_conn_event cv_possible] in *.
  - apply wp_bind, wp_upd, wp_bind. specialize (Hcon Hpos).
    eapply wp_connect_cb; [done..|]. apply wp_ret, HQ; [| done|].
    + unfold state_ok in Hok. rewrite Hcon in Hok. destruct Hok as (Hc & _ & Hka & _).
      apply established_conn_inv; [done|done|by apply Hka].
    + rewrite (not_connected _ _ Hfi) in HF by congruence. done.
  - specialize (Hcon Hpos). replace c with (set_srvc_conn (srvc_conn c) c) by (by destruct c).
    eapply wp_close_reestablish; [done|done|congruence|]. intros b. apply HQ; [|done|].
    + unfold state_ok in Hok. rewrite Hcon in Hok. destruct Hok as (Hc & _ & _ & HT & Htm).
      split; [by apply wf_closed|]. exists fi. split; [done|]. unfold state_ok. rewrite Hcon. cbn. done.
    + rewrite (not_connected _ _ Hfi) in HF by congruence.
      rewrite (not_connected _ fi); [done|done|congruence].
  - apply wp_bind. eapply wp_read; [lia|done|done|done|done|by apply Hup|..].
    + intros Hp Hr. split; intros Hx; apply Hab; done.
    + intros rc tx. apply wp_ret, HQ; [split; [by destruct Hwf; split|by exists fi]|done|done].
    + intros c' w' Hd HF'. by apply wp_ret, Hdel.
    + intros pdu Hdec. eapply wp_mono; [by eapply Hh|]. intros rc w' HQ'. by apply wp_ret.
  - rewrite Hfi in Hpos. destruct Hpos as [ms Hms]. cbn in Hms.
    destruct (fi_state fi) eqn:Hst; unfold state_ok in Hok; rewrite Hst in Hok.
    + destruct Hok; congruence.
    + eapply wp_tmr_attempt; [done|done| |done|done|by right|done].
      unfold state_ok. by rewrite Hst.
    + destruct_and! Hok; congruence.
    + eapply wp_tmr_delay; [done|done| | |].
      * unfold state_ok. by rewrite Hst.
      * intros Hat. apply Hab. split; [|done]. unfold conn_state. rewrite Hfi. cbn. by rewrite Hst.
      * intros _. apply HQ; [by apply attempt_conn_inv|done|].
        rewrite (not_connected _ _ Hfi) in HF by congruence. done.
    + eapply wp_tmr_attempt; [done|done| |done|done|by left|done].
      unfold state_ok. by rewrite Hst.
  - destruct Hpos as [Hs Hka]. apply wp_bind. unfold ipa_keepalive_timeout_cb. apply wp_bind.
    eapply wp_tcp_down; [lia|done|by apply Hup|by right|done|done|].
    intros c' w' Hd HF'. by apply wp_ret, wp_ret, Hdel.
Qed.
End rules.
