(* ===== verification/ConnProps.v ===== *)
(** * Properties of a client-side RSPRO connection

    They are stated for the machine without a parent ([conn_fsm]) as the whole
    state of a program, the way remsim-bankd uses it. *)

From S2P Require Import Prelude OsmoFsm RsproPdu RsproUtil Ipa ClientConn ConnInv.

Definition id_lens : conn_lens rspro_server_conn := ConnLens id (λ c _, c).
#[export] Instance id_lens_laws : LensLaws id_lens.
Proof. by split. Qed.

Section props.
Context `{OsmoLib, StreamCliLib, RsproCodec, IpaBtsLib}.

Definition fsm_id (e : srvc_env) := conn_fsm id_lens e CONN_DEPTH.
Definition run_id (e : srvc_env) (h : RsproPDU → M rspro_server_conn Z) (v : conn_event)
    : M rspro_server_conn () := run_conn_event id_lens (fsm_id e) h v.

Lemma conn_fsm_S e n : conn_fsm id_lens e (S n) =
  rspro_client_server_fsm id_lens e (SrvcParent None None) (conn_calls id_lens (conn_fsm id_lens e n)).
Proof. done. Qed.

Lemma no_parent_ok E : parent_ok id_lens E (λ _ _, True) (SrvcParent None None).
Proof. split; intros w _; by apply wp_ret. Qed.

Lemma up_state t c fi :
  conn_inv t c → srvc_fi c = Some fi → srvc_sock c = CliUp → is_up (fi_state fi) = true ∧ state_ok c fi.
Proof.
  intros [[_ _ Hw] (fi' & Hfi' & Hok)] Hfi Hs. assert (fi' = fi) as -> by congruence. split; [|done].
  unfold state_ok in Hok. destruct (fi_state fi); try done; destruct_and! Hok; try done;
    rewrite Hw in Hs; done.
Qed.

Abbreviation now e := (get_monotonic_ms e).

(** A connection that is lost (by the peer, by a failed read or by a
    keep-alive time-out) is always given up the same way: the socket is
    destroyed and the machine waits for the delay of the table, counted from
    the last attempt (at least 1 ms), before the next attempt; the table is
    advanced by one entry up to its last one, and starts over when the last
    attempt was more than 32 s ago. *)
Theorem lost_connection_delay t c e h v :
  conn_inv t c → t ≤ now e → srvc_sock c = CliUp →
  v = CvKaTimeout ∨ (∃ res m, v = CvRead res m ∧ res ≤ 0) →
  ∃ c', run_id e h v c = Done ((), c') ∧
        to_delay (now e) (new_delay (now e) (reestablish_last_ms c) (reestablish_delay_idx c)) c c'.
Proof.
  intros Hinv Ht Hs Hv. apply conn_inv_later with (t' := now e) in Hinv; [|done].
  pose proof Hinv as [Hwf (fi & Hfi & _)]. destruct (up_state _ _ _ Hinv Hfi Hs) as [Hup Hok].
  enough (wp (run_id e h v) c (λ _ c', to_delay (now e)
    (new_delay (now e) (reestablish_last_ms c) (reestablish_delay_idx c)) c c')) as Hwp.
  { apply wp_done in Hwp as ([] & c' & Hrun & Hd). eauto. }
  unfold run_id, fsm_id, CONN_DEPTH. change c with (lset id_lens c c) at 1.
  destruct Hv as [->|(res & m & -> & Hr)]; cbn [run_conn_event]; apply wp_bind.
  - apply wp_bind. eapply (wp_tcp_down id_lens e (conn_fsm id_lens e) (λ _, SrvcParent None None)
      (conn_fsm_S e) no_abort (λ _ _, True) (λ _ _ _ _, I) 0 (λ _ _, no_parent_ok _) 1);
      [lia|done|done|by right|done|done|]. intros c' w' Hd _. by apply wp_ret, wp_ret.
  - unfold srvc_read_cb. destruct (Z.leb_spec res 0); [|lia]. apply wp_bind.
    replace c with (set_srvc_conn (srvc_conn c) c) at 1 by (by destruct c).
    eapply (wp_close_up id_lens e (conn_fsm id_lens e) (λ _, SrvcParent None None)
      (conn_fsm_S e) no_abort (λ _ _, True) (λ _ _ _ _, I) 0 (λ _ _, no_parent_ok _) 1);
      [lia|done|done|done|done|done|]. intros c' w' Hd _. by apply wp_ret, wp_ret.
Qed.

(** C31. A connection that should be up never stops trying: in every state but
    INIT and CONNECTED a timer of at most 16 s is pending, and its expiry starts
    the next attempt (after the delay) or ends the present one. *)
Theorem attempts_continue t c fi :
  conn_inv t c → srvc_fi c = Some fi →
  fi_state fi ≠ SRVC_ST_INIT → fi_state fi ≠ SRVC_ST_CONNECTED →
  (∃ ms, fi_timer fi = Some ms ∧ 1 ≤ ms ≤ 16000) ∧
  ∀ e h, t ≤ now e → attempt_ok e = true →
    ∃ c', run_id e h CvTimer c = Done ((), c') ∧ conn_inv (now e) c' ∧
      conn_state c' = Some (if bool_decide (fi_state fi = SRVC_ST_REESTABLISH_DELAY)
                            then SRVC_ST_REESTABLISH else SRVC_ST_REESTABLISH_DELAY).
Proof.
  intros Hinv Hfi Hni Hnc. pose proof Hinv as [Hwf (fi' & Hfi' & Hok)]. assert (fi' = fi) as -> by congruence. split.
  { unfold state_ok in Hok. destruct (fi_state fi); try done; destruct_and! Hok; [|done|];
      by exists 10000. }
  intros e h Ht Hat. apply conn_inv_later with (t' := now e) in Hinv; [|done]. destruct Hinv as [Hwf' _].
  enough (wp (run_id e h CvTimer) c (λ _ c', conn_inv (now e) c' ∧
      conn_state c' = Some (if bool_decide (fi_state fi = SRVC_ST_REESTABLISH_DELAY)
                            then SRVC_ST_REESTABLISH else SRVC_ST_REESTABLISH_DELAY))) as Hwp.
  { apply wp_done in Hwp as ([] & c' & Hrun & Hd). eauto. }
  unfold run_id, fsm_id, CONN_DEPTH. cbn [run_conn_event]. change c with (lset id_lens c c) at 1.
  destruct (decide (fi_state fi = SRVC_ST_REESTABLISH_DELAY)) as [Hst|Hst].
  - rewrite bool_decide_eq_true_2 by done.
    eapply (wp_tmr_delay id_lens e (conn_fsm id_lens e) (λ _, SrvcParent None None) (conn_fsm_S e)
      no_abort 2); [done|done|done|congruence|]. intros _. by split; [apply attempt_conn_inv|].
  - rewrite bool_decide_eq_false_2 by done.
    eapply (wp_tmr_attempt id_lens e (conn_fsm id_lens e) (λ _, SrvcParent None None)
      (conn_fsm_S e) no_abort (λ _ _, True) (λ _ _ _ _, I) 0 (λ _ _, no_parent_ok _) 0);
      [lia|done|done|done|done|destruct (fi_state fi); auto; done|].
    intros c' w' Hd _. split; [by eapply to_delay_inv|]. unfold conn_state. cbn [lset id_lens].
    by rewrite (td_fi _ _ _ _ Hd).
Qed.

(** While the TCP connection of an attempt does not come up (refused or
    unanswered), the attempt is given up after 10 s and the next one follows
    1 ms later, until the last entry of the delay table (index 123) is reached,
    from which on it follows 6 s later; the delays of the table play no role. *)
Theorem failed_attempt_period t c e h fi :
  conn_inv t c → srvc_fi c = Some fi → fi_state fi = SRVC_ST_REESTABLISH →
  t ≤ now e → now e = reestablish_last_ms c + 10000 →
  fi_timer fi = Some 10000 ∧
  ∃ c', run_id e h CvTimer c = Done ((), c') ∧
    srvc_fi c' = Some (FsmInst SRVC_ST_REESTABLISH_DELAY 3
                         (Some (if reestablish_delay_idx c <? 123 then 1 else 6000))).
Proof.
  intros Hinv Hfi Hst Ht Hnow. apply conn_inv_later with (t' := now e) in Hinv; [|done].
  pose proof Hinv as [Hwf (fi' & Hfi' & Hok)]. assert (fi' = fi) as -> by congruence. split.
  { unfold state_ok in Hok. rewrite Hst in Hok. tauto. }
  enough (wp (run_id e h CvTimer) c (λ _ c', to_delay (now e)
    (new_delay (now e) (reestablish_last_ms c) (reestablish_delay_idx c)) c c')) as Hwp.
  { apply wp_done in Hwp as ([] & c' & Hrun & Hd). exists c'. split; [done|].
    rewrite (td_fi _ _ _ _ Hd). do 3 f_equal. rewrite Hnow. clear -Hwf.
    destruct Hwf as [Hi _ _]. change count with 124 in Hi. unfold new_delay, new_idx.
    replace (reestablish_last_ms c + 10000 - reestablish_last_ms c) with 10000 by lia.
    change (32000 <? 10000) with false. cbn iota.
    destruct (Z.ltb_spec (reestablish_delay_idx c) 123) as [Hlt|Hge].
    - assert (Forall (λ d, d ≤ 8) (take 123 k_reestablish_delay_s)) as Hall.
      { vm_compute. repeat (constructor; [discriminate|]). constructor. }
      destruct (k_reestablish_delay_s !! Z.to_nat (reestablish_delay_idx c)) as [d|] eqn:Hd; [|done].
      assert (d ≤ 8).
      { eapply (Forall_lookup_1 _ _ (Z.to_nat (reestablish_delay_idx c)) d Hall).
        rewrite lookup_take_lt by lia. done. }
      cbn. case_match eqn:Hdd; [|done]. lia.
    - replace (reestablish_delay_idx c) with 123 by lia. by vm_compute. }
  unfold run_id, fsm_id, CONN_DEPTH. cbn [run_conn_event]. change c with (lset id_lens c c) at 1.
  eapply (wp_tmr_attempt id_lens e (conn_fsm id_lens e) (λ _, SrvcParent None None)
    (conn_fsm_S e) no_abort (λ _ _, True) (λ _ _ _ _, I) 0 (λ _ _, no_parent_ok _) 0);
    [lia|done|done|done|done|by left|done].
Qed.

(** When the TCP connection of an attempt comes up, exactly one connection
    request of the right kind is sent, the machine waits 10 s for the answer,
    and nothing else changes; a PDU of the program is sent exactly when the
    machine is CONNECTED, and refused with -EPERM otherwise. *)
Theorem connection_requests_and_sends t c e h :
  conn_inv t c →
  (srvc_sock c = CliConnecting → run_id e h CvUp c = Done ((), established_conn c)) ∧
  (∀ pdu, server_conn_send_rspro (conn_calls id_lens (fsm_id e)) (Some pdu) c =
     Done (if connected c then 0 else - EPERM, with_sent pdu c)).
Proof.
  intros [Hwf (fi & Hfi & Hok)]. unfold run_id, fsm_id, CONN_DEPTH. split.
  - intros Hs. assert (fi_state fi = SRVC_ST_REESTABLISH) as Hst.
    { destruct Hwf as [_ _ Hw]. pose proof Hok as Hok'. unfold state_ok in Hok'.
      destruct (fi_state fi); try done; destruct_and! Hok'; try congruence; rewrite Hw in Hs; done. }
    enough (wp (run_conn_event id_lens (conn_fsm id_lens e 4) h CvUp) c
      (λ _ c', c' = established_conn c)) as Hwp.
    { apply wp_done in Hwp as ([] & c' & Hrun & ->). done. }
    cbn [run_conn_event]. change c with (lset id_lens c c) at 1. apply wp_bind, wp_upd; [apply _|].
    apply wp_bind. eapply (wp_connect_cb id_lens e (conn_fsm id_lens e) (λ _, SrvcParent None None)
      (conn_fsm_S e) no_abort 2); [done..|]. by apply wp_ret.
  - intros pdu.
    enough (wp (server_conn_send_rspro (conn_calls id_lens (conn_fsm id_lens e 4)) (Some pdu)) c
      (λ rc c', rc = (if connected c then 0 else - EPERM) ∧ c' = with_sent pdu c)) as Hwp.
    { apply wp_done in Hwp as (rc & c' & Hrun & -> & ->). done. }
    change c with (lset id_lens c c) at 1.
    eapply (wp_server_conn_send_rspro id_lens e (conn_fsm id_lens e) (λ _, SrvcParent None None)
      (conn_fsm_S e) no_abort 3); [done|done|intros Hst|intros Hst]; cbn [lset id_lens].
    + by rewrite (not_connected _ _ Hfi Hst), (with_sent_down _ _ _ Hfi Hst).
    + rewrite (with_sent_connected _ _ _ Hfi Hst). split; [|done].
      unfold connected, conn_state. rewrite Hfi. cbn. by rewrite Hst.
Qed.
End props.

(** ** Witnesses *)

Definition example_conn (st : server_conn_fsm_state) (T : Z) (timer : option Z)
    (s : stream_cli_state) : rspro_server_conn :=
  let id := AppCompId ComponentType_remsimBankd zeros zeros zeros zeros zeros zeros zeros zeros in
  RsproServerConn true s (Some (FsmInst st T timer)) true 5 40000
    (SrvcConfig id id None (Some "127.0.0.1") 9998 3 8) [].

Definition up_conn : rspro_server_conn := example_conn SRVC_ST_CONNECTED 0 None CliUp.
Definition trying_conn : rspro_server_conn :=
  example_conn SRVC_ST_REESTABLISH 2 (Some 10000) CliConnecting.

Lemma up_conn_inv : conn_inv 50000 up_conn.
Proof. split; [by split; vm_compute|]. by eexists. Qed.
Lemma trying_conn_inv : conn_inv 50000 trying_conn.
Proof. split; [by split; vm_compute|]. by eexists. Qed.

Definition env_at (t : Z) : srvc_env := SrvcEnv t true true true.
Definition no_rx (_ : RsproPDU) : M rspro_server_conn Z := mret 0.

Lemma lost_connection_delay_witness :
  ∃ c', run_id (env_at 50000) no_rx CvKaTimeout up_conn = Done ((), c') ∧
    to_delay 50000 (new_delay 50000 40000 5) up_conn c'.
Proof.
  apply (lost_connection_delay 50000 up_conn (env_at 50000) no_rx CvKaTimeout up_conn_inv);
    [vm_compute; discriminate|reflexivity|left; reflexivity].
Defined.

Lemma attempts_continue_witness :
  (∃ ms, Some 10000 = Some ms ∧ 1 ≤ ms ≤ 16000) ∧
  ∃ c', run_id (env_at 50000) no_rx CvTimer trying_conn = Done ((), c') ∧ conn_inv 50000 c' ∧
    conn_state c' = Some SRVC_ST_REESTABLISH_DELAY.
Proof.
  destruct (attempts_continue 50000 trying_conn (FsmInst SRVC_ST_REESTABLISH 2 (Some 10000))
    trying_conn_inv) as [Hms Hnext]; [reflexivity|discriminate|discriminate|].
  split; [exact Hms|].
  apply (Hnext (env_at 50000) no_rx); [vm_compute; discriminate|reflexivity].
Defined.

Lemma failed_attempt_period_witness :
  Some 10000 = Some 10000 ∧
  ∃ c', run_id (env_at 50000) no_rx CvTimer trying_conn = Done ((), c') ∧
    srvc_fi c' = Some (FsmInst SRVC_ST_REESTABLISH_DELAY 3 (Some 1)).
Proof.
  apply (failed_attempt_period 50000 trying_conn (env_at 50000) no_rx
    (FsmInst SRVC_ST_REESTABLISH 2 (Some 10000)) trying_conn_inv);
    [reflexivity|reflexivity|vm_compute; discriminate|reflexivity].
Defined.

Lemma connection_requests_and_sends_witness :
  (srvc_sock trying_conn = CliConnecting →
     run_id (env_at 50000) no_rx CvUp trying_conn = Done ((), established_conn trying_conn)) ∧
  (∀ pdu, server_conn_send_rspro (conn_calls id_lens (fsm_id (env_at 50000))) (Some pdu) trying_conn =
     Done (if connected trying_conn then 0 else - EPERM, with_sent pdu trying_conn)).
Proof.
  apply (connection_requests_and_sends 50000 trying_conn (env_at 50000) no_rx trying_conn_inv).
Defined.
