(* ===== verification/BankdPcsc.v ===== *)
(** * remsim-bankd: workers and card readers ([src/bankd/bankd.h], [bankd_pcsc.c])

    The state of the bankd process: its connection to the server, the slot
    maps, one worker per card slot, and the PC/SC service.  PC/SC and the POSIX
    regular expressions are an interface ([Pcsc]): each call is a function of
    the state [scard] of the service. *)

From S2P Require Import Prelude OsmoFsm Slotmap RsproPdu RsproUtil Ipa ClientConn.

(** ** PC/SC *)

Class Pcsc := {
  scard : Type;
  scard_init : scard;
  regcomp : octets → option (octets → bool);
  SCardEstablishContext : scard → Z * Z * scard;
  SCardListReaders : Z → scard → Z * list octets * scard;
  SCardConnect : Z → octets → Z → scard → Z * Z * scard;
  SCardStatus : Z → scard → Z * octets * scard;
  SCardReconnect : Z → Z → bool → scard → Z * scard;
  SCardTransmit : Z → octets → Z → scard → Z * octets * scard;
  SCardDisconnect : Z → scard → scard;
  SCardReleaseContext : Z → scard → scard;
}.

(** A service whose readers all answer, and that records the APDUs it was
    given with the handle of the card. *)
#[global] Instance pcsc_ref : Pcsc := {
  scard := list (Z * octets);
  scard_init := [];
  regcomp s := Some (λ n, bool_decide (s = n));
  SCardEstablishContext s := (0, 1, s);
  SCardListReaders _ s := (0, [[48]; [49]; [50]], s);
  SCardConnect _ n _ s :=
    (0, 10 + match n with c :: _ => c | [] => 0 end, s);
  SCardStatus _ s := (0, [59; 0], s);
  SCardReconnect _ _ _ s := (0, s);
  SCardTransmit h b _ s := (0, [144; 0], s ++ [(h, b)]);
  SCardDisconnect _ s := s;
  SCardReleaseContext _ s := s;
}.

Definition SCARD_S_SUCCESS : Z := 0.
Definition SCARD_SHARE_EXCLUSIVE : Z := 1.
Definition SCARD_SHARE_SHARED : Z := 2.
Definition MAX_ATR_SIZE : nat := 33.

(** ** Workers *)

Inductive bankd_worker_state :=
| BW_ST_INIT
| BW_ST_ACCEPTING
| BW_ST_CONN_WAIT_ID
| BW_ST_CONN_CLIENT
| BW_ST_CONN_CLIENT_WAIT_MAP
| BW_ST_CONN_CLIENT_MAPPED
| BW_ST_CONN_CLIENT_MAPPED_CARD
| BW_ST_CONN_CLIENT_UNMAPPED.

#[global] Instance bw_st_eq_dec : EqDecision bankd_worker_state.
Proof. solve_decision. Defined.

#[global] Instance bw_st_enum : Enum bankd_worker_state := λ st,
  match st with
  | BW_ST_INIT => 0
  | BW_ST_ACCEPTING => 1
  | BW_ST_CONN_WAIT_ID => 2
  | BW_ST_CONN_CLIENT => 3
  | BW_ST_CONN_CLIENT_WAIT_MAP => 4
  | BW_ST_CONN_CLIENT_MAPPED => 5
  | BW_ST_CONN_CLIENT_MAPPED_CARD => 6
  | BW_ST_CONN_CLIENT_UNMAPPED => 7
  end.

(** The signals of the main thread. *)
Inductive worker_signal := SIGMAPDEL | SIGMAPADD | SIGUSR1.

#[global] Instance worker_signal_eq_dec : EqDecision worker_signal.
Proof. solve_decision. Defined.

(** [client], [reader] and [card] of [struct bankd_worker]; a handle of 0 is
    none. *)
Record worker_client := WorkerClient { fd : Z; wc_clslot : client_slot }.
Record worker_reader := WorkerReader { reader_name : option octets; hContext : Z; hCard : Z }.
Record worker_card := WorkerCard { atr : octets; atr_len : Z }.

(** [struct bankd_worker], with the signals that were sent to its thread and
    the messages written to the sockets of its clients. *)
Record bankd_worker := BankdWorker {
  w_num : Z;
  w_state : bankd_worker_state;
  w_timeout : Z;
  w_slot : bank_slot;
  w_client : worker_client;
  w_reader : worker_reader;
  w_card : worker_card;
  last_vccPresent : bool;
  last_resetActive : bool;
  w_signals : list worker_signal;
  w_sent : list tx_msg;
}.

Definition set_w_state (s : bankd_worker_state) (t : Z) (w : bankd_worker) : bankd_worker :=
  BankdWorker (w_num w) s t (w_slot w) (w_client w) (w_reader w) (w_card w)
    (last_vccPresent w) (last_resetActive w) (w_signals w) (w_sent w).
Definition set_w_slot (b : bank_slot) (w : bankd_worker) : bankd_worker :=
  BankdWorker (w_num w) (w_state w) (w_timeout w) b (w_client w) (w_reader w) (w_card w)
    (last_vccPresent w) (last_resetActive w) (w_signals w) (w_sent w).
Definition set_w_client (c : worker_client) (w : bankd_worker) : bankd_worker :=
  BankdWorker (w_num w) (w_state w) (w_timeout w) (w_slot w) c (w_reader w) (w_card w)
    (last_vccPresent w) (last_resetActive w) (w_signals w) (w_sent w).
Definition set_w_reader (r : worker_reader) (w : bankd_worker) : bankd_worker :=
  BankdWorker (w_num w) (w_state w) (w_timeout w) (w_slot w) (w_client w) r (w_card w)
    (last_vccPresent w) (last_resetActive w) (w_signals w) (w_sent w).
Definition set_w_card (c : worker_card) (w : bankd_worker) : bankd_worker :=
  BankdWorker (w_num w) (w_state w) (w_timeout w) (w_slot w) (w_client w) (w_reader w) c
    (last_vccPresent w) (last_resetActive w) (w_signals w) (w_sent w).
Definition set_w_last (vcc rst : bool) (w : bankd_worker) : bankd_worker :=
  BankdWorker (w_num w) (w_state w) (w_timeout w) (w_slot w) (w_client w) (w_reader w) (w_card w)
    vcc rst (w_signals w) (w_sent w).
Definition set_w_signals (k : list worker_signal) (w : bankd_worker) : bankd_worker :=
  BankdWorker (w_num w) (w_state w) (w_timeout w) (w_slot w) (w_client w) (w_reader w) (w_card w)
    (last_vccPresent w) (last_resetActive w) k (w_sent w).
Definition set_w_sent (k : list tx_msg) (w : bankd_worker) : bankd_worker :=
  BankdWorker (w_num w) (w_state w) (w_timeout w) (w_slot w) (w_client w) (w_reader w) (w_card w)
    (last_vccPresent w) (last_resetActive w) (w_signals w) k.

(** ** The process *)

(** [cfg.ki_proxy] without the carrier and card identities, which are only
    stored. *)
Record ki_proxy_cfg := KiProxyCfg {
  ki_enabled : bool;
  proxy_slot : Z;
  proxy_slots : list Z;
  next_slot_idx : Z;
  virtual_slot_start : Z;
  virtual_slot_end : Z;
}.

Record bankd_cfg := BankdCfg {
  permit_shared_pcsc : bool;
  gsmtap_host : option string;
  gsmtap_slot : Z;
  ki_proxy : ki_proxy_cfg;
}.

(** A packet handed to GSMTAP: the sub-type in its header and the payload. *)
Record gsmtap_pkt := GsmtapPkt { gh_sub_type : Z; gsmtap_payload : octets }.

Section bankd.
Context `{Pcsc}.

(** [struct bankd]; [pcsc_slot_names] is the list read at start-up. *)
Record bankd := Bankd {
  bd_comp_id : app_comp_id;
  srvc : rspro_server_conn;
  bd_slotmaps : slotmaps;
  workers : list bankd_worker;
  pcsc_slot_names : list (bank_slot * octets);
  bd_cfg : bankd_cfg;
  bd_scard : scard;
  gsmtap_log : list gsmtap_pkt;
}.

Definition set_srvc (c : rspro_server_conn) (b : bankd) : bankd :=
  Bankd (bd_comp_id b) c (bd_slotmaps b) (workers b) (pcsc_slot_names b) (bd_cfg b) (bd_scard b)
    (gsmtap_log b).
Definition set_bd_slotmaps (m : slotmaps) (b : bankd) : bankd :=
  Bankd (bd_comp_id b) (srvc b) m (workers b) (pcsc_slot_names b) (bd_cfg b) (bd_scard b)
    (gsmtap_log b).
Definition set_workers (k : list bankd_worker) (b : bankd) : bankd :=
  Bankd (bd_comp_id b) (srvc b) (bd_slotmaps b) k (pcsc_slot_names b) (bd_cfg b) (bd_scard b)
    (gsmtap_log b).
Definition set_bd_cfg (c : bankd_cfg) (b : bankd) : bankd :=
  Bankd (bd_comp_id b) (srvc b) (bd_slotmaps b) (workers b) (pcsc_slot_names b) c (bd_scard b)
    (gsmtap_log b).
Definition set_bd_scard (s : scard) (b : bankd) : bankd :=
  Bankd (bd_comp_id b) (srvc b) (bd_slotmaps b) (workers b) (pcsc_slot_names b) (bd_cfg b) s
    (gsmtap_log b).
Definition set_gsmtap_log (k : list gsmtap_pkt) (b : bankd) : bankd :=
  Bankd (bd_comp_id b) (srvc b) (bd_slotmaps b) (workers b) (pcsc_slot_names b) (bd_cfg b)
    (bd_scard b) k.

Abbreviation Bd := (M bankd).

Definition worker_at (i : nat) : Bd bankd_worker :=
  w ← gets (λ b, workers b !! i); deref w.

Definition worker_upd (i : nat) (f : bankd_worker → bankd_worker) : Bd () :=
  worker_at i ;; modify (λ b, set_workers (alter f i (workers b)) b).

(** A call into PC/SC. *)
Definition pcsc_call {A} (f : scard → A * scard) : Bd A :=
  s ← gets bd_scard;
  let '(a, s') := f s in
  modify (set_bd_scard s') ;; mret a.

(** ** Names of the readers *)

Fixpoint find_slot_name (slot : bank_slot) (names : list (bank_slot * octets)) : option octets :=
  match names with
  | [] => None
  | (s, n) :: names => if bank_slot_equals s slot then Some n else find_slot_name slot names
  end.

Definition bankd_pcsc_get_slot_name (slot : bank_slot) : Bd (option octets) :=
  gets (λ b, find_slot_name slot (pcsc_slot_names b)).

(** The parser of the CSV file of the readers: what libcsv finds in it are
    fields and ends of rows. *)
Inductive csv_event := CsvField (field : octets) | CsvRow.

Inductive parser_state_name := ST_BANK_NR | ST_SLOT_NR | ST_PCSC_NAME.

(** [cur] is the entry under construction: its bank id, slot number and name. *)
Record parser_state := ParserState {
  ps_state : parser_state_name;
  cur : option (Z * Z * option octets);
}.

Definition parser_state_init : parser_state := ParserState ST_BANK_NR None.

(** The call-back for a field. *)
Definition cb1 (field : octets) (ps : parser_state) : outcome parser_state :=
  match ps_state ps, cur ps with
  | ST_BANK_NR, None => Done (ParserState ST_SLOT_NR (Some (u16 (atoi field), 0, None)))
  | ST_SLOT_NR, Some (b, _, n) => Done (ParserState ST_PCSC_NAME (Some (b, u16 (atoi field), n)))
  | ST_PCSC_NAME, Some (b, s, _) => Done (ParserState ST_PCSC_NAME (Some (b, s, Some field)))
  | _, _ => Panic
  end.

(** The call-back for the end of a row; it reads the entry and compiles its
    name without checking that there is one. *)
Definition cb2 (ps : parser_state) (names : list (bank_slot * octets))
    : outcome (parser_state * list (bank_slot * octets)) :=
  match cur ps with
  | Some (b, s, Some n) =>
      Done (parser_state_init,
            match regcomp n with Some _ => names ++ [(BankSlot b s, n)] | None => names end)
  | _ => Undef
  end.

Fixpoint bankd_pcsc_read_slotnames (evs : list csv_event) (ps : parser_state)
    (names : list (bank_slot * octets)) : outcome (list (bank_slot * octets)) :=
  match evs with
  | [] => Done names
  | CsvField f :: evs =>
      match cb1 f ps with
      | Done ps => bankd_pcsc_read_slotnames evs ps names
      | Panic => Panic | Undef => Undef | NoFuel => NoFuel
      end
  | CsvRow :: evs =>
      match cb2 ps names with
      | Done (ps, names) => bankd_pcsc_read_slotnames evs ps names
      | Panic => Panic | Undef => Undef | NoFuel => NoFuel
      end
  end.

(** ** Readers and cards

    The results of PC/SC are of type [long]; the functions below return them
    as an [int]. *)

Definition bankd_share_mode : Bd Z :=
  c ← gets bd_cfg;
  mret (if permit_shared_pcsc c then SCARD_SHARE_SHARED else SCARD_SHARE_EXCLUSIVE).

Definition pcsc_get_atr (i : nat) : Bd Z :=
  w ← worker_at i;
  worker_upd i (set_w_card (WorkerCard (atr (w_card w)) (Z.of_nat MAX_ATR_SIZE))) ;;
  res ← pcsc_call (SCardStatus (hCard (w_reader w)));
  let '(rc, b) := res in
  let b := take MAX_ATR_SIZE b in
  worker_upd i (λ w, set_w_card (WorkerCard (overwrite b (atr (w_card w))) (atr_len (w_card w))) w) ;;
  when (rc =? SCARD_S_SUCCESS)
    (worker_upd i (λ w, set_w_card (WorkerCard (atr (w_card w)) (Z.of_nat (length b))) w)) ;;
  mret (swrap 32 rc).

Fixpoint first_match (re : octets → bool) (readers : list octets) : option octets :=
  match readers with
  | [] => None
  | p :: readers => if re p then Some p else first_match re readers
  end.

Definition pcsc_connect_slot_regex (i : nat) : Bd Z :=
  w ← worker_at i;
  name ← deref (reader_name (w_reader w));
  match regcomp name with
  | None => mret (- EINVAL)
  | Some re =>
      res ← pcsc_call (SCardListReaders (hContext (w_reader w)));
      let '(rc, readers) := res in
      if negb (rc =? SCARD_S_SUCCESS) then mret (- 1)
      else
        match first_match re readers with
        | None => mret (- 1)
        | Some p =>
            share ← bankd_share_mode;
            res ← pcsc_call (SCardConnect (hContext (w_reader w)) p share);
            let '(rc, card) := res in
            worker_upd i (λ w, set_w_reader (WorkerReader (reader_name (w_reader w))
              (hContext (w_reader w)) card) w) ;;
            mret (if rc =? SCARD_S_SUCCESS then 0 else - 1)
        end
  end.

Definition pcsc_open_card (i : nat) : Bd Z :=
  w ← worker_at i;
  rc ← (if hContext (w_reader w) =? 0 then
          res ← pcsc_call SCardEstablishContext;
          let '(rc, ctx) := res in
          worker_upd i (λ w, set_w_reader (WorkerReader (reader_name (w_reader w)) ctx
            (hCard (w_reader w))) w) ;;
          mret rc
        else mret SCARD_S_SUCCESS);
  if negb (rc =? SCARD_S_SUCCESS) then mret (swrap 32 rc)
  else
    w ← worker_at i;
    rc ← (if hCard (w_reader w) =? 0 then pcsc_connect_slot_regex i else mret 0);
    if negb (rc =? 0) then mret rc else pcsc_get_atr i.

Definition pcsc_reset_card (i : nat) (cold_reset : bool) : Bd Z :=
  w ← worker_at i;
  share ← bankd_share_mode;
  rc ← pcsc_call (SCardReconnect (hCard (w_reader w)) share cold_reset);
  if negb (rc =? SCARD_S_SUCCESS) then mret (swrap 32 rc) else pcsc_get_atr i.

(** The result and the response in the buffer of [in_len] bytes. *)
Definition pcsc_transceive (i : nat) (out : octets) (in_len : Z) : Bd (Z * octets) :=
  w ← worker_at i;
  res ← pcsc_call (SCardTransmit (hCard (w_reader w)) out in_len);
  let '(rc, b) := res in
  mret (swrap 32 rc, b).

Definition pcsc_cleanup (i : nat) : Bd () :=
  w ← worker_at i;
  when (negb (hCard (w_reader w) =? 0))
    (pcsc_call (λ s, ((), SCardDisconnect (hCard (w_reader w)) s)) ;;
     worker_upd i (λ w, set_w_reader (WorkerReader (reader_name (w_reader w))
       (hContext (w_reader w)) 0) w)) ;;
  when (negb (hContext (w_reader w) =? 0))
    (pcsc_call (λ s, ((), SCardReleaseContext (hContext (w_reader w)) s)) ;;
     worker_upd i (λ w, set_w_reader (WorkerReader (reader_name (w_reader w)) 0
       (hCard (w_reader w))) w)).
End bankd.
