(* ===== verification/BankdMain.v ===== *)
(** * remsim-bankd: main thread and worker threads ([src/bankd/bankd_main.c])

    The main thread serves the connection to remsim-server and keeps the slot
    maps; a worker thread per slot accepts a client, looks up its mapping, opens
    the card and relays TPDUs.  The threads interact through the slot maps,
    through the signals [SIGMAPADD] and [SIGMAPDEL], which are queued in
    [w_signals] until the thread of the worker handles them, and (for the
    Ki proxy) through the list of workers.

    A step is what one thread does between two blocking calls: an event of the
    connection to the server, the start of a worker, the result of its
    [accept], a signal handled outside of a blocking call, or what follows a
    number of returns of its [select].  Within [select] and [recv] signals
    interrupt the call.  The mutex and the read/write lock are not part of the
    state; a worker gives the lock up between the look-up of a mapping and its use,
    and whether the main thread removes the mapping meanwhile is an argument of the
    step ([removed_meanwhile]): the worker then reads freed memory. *)

From S2P Require Import Prelude OsmoFsm Slotmap RsproPdu RsproUtil Ipa ClientConn BankdPcsc.

Definition GSMTAP_SIM_APDU : Z := 0.
Definition GSMTAP_SIM_ATR : Z := 1.

Definition srvc_lens `{Pcsc} : conn_lens bankd := ConnLens srvc set_srvc.

#[global] Instance srvc_lens_laws `{Pcsc} : LensLaws srvc_lens.
Proof. by split; intros; repeat match goal with x : bankd |- _ => destruct x end. Qed.

(** ** What the system answers to a worker *)

(** The results of [write] to the socket of the client, where [None] is the
    signal [SIGPIPE] (which the program does not handle); the byte that the
    stack holds behind an empty message; and whether the main thread removes the
    mapping that [worker_try_slotmap] has found before the worker uses it. *)
Record worker_env := WorkerEnv {
  write_res : tx_msg → option Z;
  stale_byte : Z;
  removed_meanwhile : bool;
}.

(** The results of [select]. *)
Inductive wait_res := WaitIntr | WaitErr | WaitTimeout | WaitReady.

(** The results of [recv] for header and body of a message: how often a signal
    interrupts it, and then an error or the bytes it delivers. *)
Record ipa_input := IpaInput {
  hdr_intr : nat;
  hdr_recv : option octets;
  body_intr : nat;
  body_recv : option octets;
}.

Section bankd.
Context `{OsmoLib, StreamCliLib, RsproCodec, IpaBtsLib, Talloc, Pcsc}.

Abbreviation Bd := (M bankd).

(** ** Main thread: workers *)

Definition no_slot : bank_slot := BankSlot 65535 65535.

(** The worker as [talloc_zero] and the initializations leave it. *)
Definition new_worker (i : Z) : bankd_worker :=
  BankdWorker i BW_ST_INIT 0 (BankSlot 0 0) (WorkerClient 0 (ClientSlot 0 0))
    (WorkerReader None 0 0) (WorkerCard (replicate MAX_ATR_SIZE 0) 0) true false [] [].

(** [ok]: the worker and its thread can be created. *)
Definition bankd_create_worker (ok : bool) (i : Z) : Bd bool :=
  when ok (modify (λ b, set_workers (workers b ++ [new_worker i]) b)) ;; mret ok.

Definition worker_matches (bs : option bank_slot) (cs : option client_slot) (w : bankd_worker) : bool :=
  match bs with Some bs => bank_slot_equals bs (w_slot w) | None => true end &&
  match cs with Some cs => client_slot_equals cs (wc_clslot (w_client w)) | None => true end.

(** The first worker with a property. *)
Definition find_worker (P : bankd_worker → bool) : Bd (option nat) :=
  gets (λ b, option_map fst (list_find P (workers b))).

Definition pthread_kill (sig : worker_signal) (i : nat) : Bd () :=
  worker_upd i (λ w, set_w_signals (w_signals w ++ [sig]) w).

Definition send_signal_to_worker (bs : option bank_slot) (cs : option client_slot)
    (sig : worker_signal) : Bd () :=
  i ← find_worker (worker_matches bs cs);
  match i with Some i => pthread_kill sig i | None => mret () end.

Definition signal_all_workers (sig : worker_signal) : Bd () :=
  n ← gets (λ b, length (workers b)); for_each (pthread_kill sig) (seq 0 n).

(** ** Main thread: requests of the server *)

Definition on_slotmaps {A} (m : M slotmaps A) : Bd A := zoom bd_slotmaps set_bd_slotmaps m.

Definition bankd_srvc_remove_mapping (map : loc) : Bd () :=
  m ← on_slotmaps (map_at map);
  on_slotmaps (slotmap_del map) ;;
  send_signal_to_worker (Some (sm_bank m)) None SIGMAPDEL.

Definition handle_createMappingReq (client : ClientSlot_t) (bank : BankSlot_t) : Bd RsproPDU :=
  g ← gets (λ b, srvc_cfg (srvc b));
  if negb (bankId bank =? srvc_bank_id g) then
    mret (rspro_gen_CreateMappingRes ResultCode_illegalBankId)
  else if srvc_num_slots g <=? bk_slotNr bank then
    mret (rspro_gen_CreateMappingRes ResultCode_illegalSlotId)
  else
    let bs := rspro2bank_slot bank in
    let cs := rspro2client_slot client in
    let add :=
      map ← on_slotmaps (slotmap_add bs cs);
      match map with
      | None => mret (rspro_gen_CreateMappingRes ResultCode_illegalSlotId)
      | Some _ =>
          send_signal_to_worker None (Some cs) SIGMAPADD ;;
          mret (rspro_gen_CreateMappingRes ResultCode_ok)
      end in
    map ← on_slotmaps (slotmap_by_bank bs);
    match map with
    | None => add
    | Some l =>
        m ← on_slotmaps (map_at l);
        if client_slot_equals (sm_client m) cs then
          mret (rspro_gen_CreateMappingRes ResultCode_ok)
        else bankd_srvc_remove_mapping l ;; add
    end.

Definition handle_removeMappingReq (client : ClientSlot_t) (bank : BankSlot_t) : Bd RsproPDU :=
  g ← gets (λ b, srvc_cfg (srvc b));
  if negb (bankId bank =? srvc_bank_id g) then
    mret (rspro_gen_RemoveMappingRes ResultCode_illegalBankId)
  else if srvc_num_slots g <=? bk_slotNr bank then
    mret (rspro_gen_RemoveMappingRes ResultCode_illegalSlotId)
  else
    map ← on_slotmaps (slotmap_by_bank (rspro2bank_slot bank));
    match map with
    | None => mret (rspro_gen_RemoveMappingRes ResultCode_unknownSlotmap)
    | Some l =>
        m ← on_slotmaps (map_at l);
        if negb (client_slot_equals (sm_client m) (rspro2client_slot client)) then
          mret (rspro_gen_RemoveMappingRes ResultCode_unknownSlotmap)
        else
          bankd_srvc_remove_mapping l ;;
          mret (rspro_gen_RemoveMappingRes ResultCode_ok)
    end.

Definition bankd_srvc_handle_rx (K : srvc_calls (W:=bankd)) (pdu : RsproPDU) : Bd Z :=
  match msg pdu with
  | PR_connectBankRes ident _ =>
      if negb (ci_type ident =? ComponentType_remsimServer) then
        sk_dispatch K SRVC_E_DISCONNECT None ;; mret (- 1)
      else
        srvc_upd srvc_lens
          (λ c, set_srvc_cfg (set_cfg_peer (rspro_comp_id_retrieve ident) (srvc_cfg c)) c) ;;
        sk_dispatch K SRVC_E_CLIENT_CONN_RES (Some pdu) ;;
        mret 0
  | PR_createMappingReq client bank =>
      resp ← handle_createMappingReq client bank;
      server_conn_send_rspro K (Some resp) ;; mret 0
  | PR_removeMappingReq client bank =>
      resp ← handle_removeMappingReq client bank;
      server_conn_send_rspro K (Some resp) ;; mret 0
  | PR_resetStateReq =>
      on_slotmaps slotmap_del_all ;;
      signal_all_workers SIGMAPDEL ;;
      server_conn_send_rspro K (Some (rspro_gen_ResetStateRes ResultCode_ok)) ;;
      mret 0
  | _ => mret (- 1)
  end.

(** ** Workers: states and signals *)

Definition worker_set_state (i : nat) (new_state : bankd_worker_state) : Bd () :=
  worker_upd i (set_w_state new_state 0).

Definition worker_set_state_timeout (i : nat) (new_state : bankd_worker_state)
    (timeout_secs : Z) : Bd () :=
  worker_upd i (set_w_state new_state timeout_secs).

Definition handle_sig_mapdel (i : nat) (sig : worker_signal) : Bd () :=
  osmo_assert match sig with SIGMAPDEL => true | _ => false end ;;
  w ← worker_at i;
  when (enum BW_ST_CONN_CLIENT_MAPPED <=? enum (w_state w))
    (worker_upd i (set_w_slot no_slot) ;;
     worker_set_state i BW_ST_CONN_CLIENT_UNMAPPED).

Definition handle_sig_mapadd (i : nat) (sig : worker_signal) : Bd () := mret ().

(** In the thread of a worker; it prints a report of the memory. *)
Definition handle_sig_usr1 (i : nat) (sig : worker_signal) : Bd () :=
  osmo_assert match sig with SIGUSR1 => true | _ => false end.

Definition handle_signal (i : nat) (sig : worker_signal) : Bd () :=
  match sig with
  | SIGMAPDEL => handle_sig_mapdel i sig
  | SIGMAPADD => handle_sig_mapadd i sig
  | SIGUSR1 => handle_sig_usr1 i sig
  end.

(** The thread handles the first of its pending signals, if there is one. *)
Definition deliver_signal (i : nat) : Bd () :=
  w ← worker_at i;
  match w_signals w with
  | [] => mret ()
  | sig :: k => worker_upd i (set_w_signals k) ;; handle_signal i sig
  end.

Definition is_state (st : bankd_worker_state) (w : bankd_worker) : bool :=
  bool_decide (w_state w = st).

(** ** Workers: mapping and card *)

Definition worker_open_card (i : nat) : Bd Z :=
  w ← worker_at i;
  osmo_assert (is_state BW_ST_CONN_CLIENT_MAPPED w) ;;
  name ← match reader_name (w_reader w) with
         | Some n => mret (Some n)
         | None =>
             name ← bankd_pcsc_get_slot_name (w_slot w);
             worker_upd i (λ w, set_w_reader (WorkerReader name (hContext (w_reader w))
               (hCard (w_reader w))) w) ;;
             mret name
         end;
  match name with
  | None => mret (- 1)
  | Some _ =>
      rc ← pcsc_open_card i;
      if rc <? 0 then mret rc
      else worker_set_state i BW_ST_CONN_CLIENT_MAPPED_CARD ;; mret 0
  end.

(** What [worker_try_slotmap] does with the mapping it found, behind the
    read lock. *)
Definition worker_use_slotmap (i : nat) (slmap : option loc) : Bd Z :=
  match slmap with
  | None => worker_set_state_timeout i BW_ST_CONN_CLIENT_WAIT_MAP 10 ;; mret (- 1)
  | Some l =>
      m ← on_slotmaps (map_at l);
      worker_upd i (set_w_slot (sm_bank m)) ;;
      worker_set_state_timeout i BW_ST_CONN_CLIENT_MAPPED 10 ;;
      worker_open_card i
  end.

(** The read lock is held during the look-up only.  Between the look-up and
    the use the main thread may handle requests of the server: if one of them
    removes the mapping, the worker reads freed memory; if not, the result is
    that of the same step after those requests ([lookup_interleaved]). *)
Definition worker_try_slotmap (we : worker_env) (i : nat) : Bd Z :=
  w ← worker_at i;
  slmap ← on_slotmaps (slotmap_by_client (wc_clslot (w_client w)));
  if bool_decide (is_Some slmap) && removed_meanwhile we then undef
  else worker_use_slotmap i slmap.

(** ** Workers: transmission *)

Definition bankd_gsmtap_send_apdu (sub_type : Z) (mdm_tpdu sim_tpdu : octets) : Bd () :=
  modify (λ b, set_gsmtap_log (gsmtap_log b ++ [GsmtapPkt sub_type (mdm_tpdu ++ sim_tpdu)]) b).

Definition gsmtap_wanted (c : bankd_cfg) (slot_nr : Z) : bool :=
  bool_decide (is_Some (gsmtap_host c)) && ((gsmtap_slot c =? - 1) || (gsmtap_slot c =? slot_nr)).

Section worker.
Context (we : worker_env).

(** The two IPA headers take 4 bytes. *)
Definition worker_send_rspro (i : nat) (pdu : RsproPDU) : Bd Z :=
  match rspro_enc_msg pdu with
  | None => mret (- 1)
  | Some b =>
      match write_res we (TxRspro b) with
      | None => panic
      | Some rc =>
          if rc =? Z.of_nat (length b) + 4
          then worker_upd i (λ w, set_w_sent (w_sent w ++ [TxRspro b]) w) ;; mret 0
          else mret (- 1)
      end
  end.

(** [ipa_ccm_send_pong] and [ipa_ccm_send_id_ack] write to the socket. *)
Definition ipa_ccm_send (i : nat) (m : tx_msg) : Bd Z :=
  match write_res we m with
  | None => panic
  | Some rc =>
      when (0 <=? rc) (worker_upd i (λ w, set_w_sent (w_sent w ++ [m]) w)) ;; mret rc
  end.

Definition worker_send_atr (i : nat) : Bd Z :=
  w ← worker_at i;
  let atr := take (Z.to_nat (atr_len (w_card w))) (atr (w_card w)) in
  let c := wc_clslot (w_client w) in
  cfg ← gets bd_cfg;
  when (gsmtap_wanted cfg (bslot_nr (w_slot w))) (bankd_gsmtap_send_apdu GSMTAP_SIM_ATR atr []) ;;
  worker_send_rspro i (rspro_gen_SetAtrReq (client_id c) (cslot_nr c) atr).

(** ** Workers: messages of the client *)

Definition worker_handle_connectClientReq (i : nat) (clientSlot : option ClientSlot_t) : Bd Z :=
  id ← gets bd_comp_id;
  let respond_and_err rc :=
    worker_send_rspro i (rspro_gen_ConnectClientRes id ResultCode_illegalClientId) ;; mret rc in
  w ← worker_at i;
  if negb (is_state BW_ST_CONN_WAIT_ID w) then respond_and_err (- 102)
  else
    match clientSlot with
    | None => respond_and_err (- 103)
    | Some cs =>
        worker_upd i (λ w, set_w_client (WorkerClient (fd (w_client w)) (rspro2client_slot cs)) w) ;;
        worker_set_state i BW_ST_CONN_CLIENT ;;
        rc ← worker_try_slotmap we i;
        let res := if 0 <=? rc then ResultCode_ok else ResultCode_cardNotPresent in
        rc ← worker_send_rspro i (rspro_gen_ConnectClientRes id res);
        if rc <? 0 then mret rc
        else if res =? ResultCode_ok then worker_send_atr i
        else mret rc
    end.

(** The round-robin selection among the [attempts] remaining ones; [None]: no
    slot of the pool exists. *)
Fixpoint select_proxy_slot (attempts : nat) : Bd (option Z) :=
  match attempts with
  | O => mret None
  | S attempts =>
      c ← gets bd_cfg;
      let k := ki_proxy c in
      let current_idx := next_slot_idx k in
      selected_slot ← (if current_idx <? 0 then undef
                       else deref (proxy_slots k !! Z.to_nat current_idx));
      let next := (current_idx + 1) `mod` Z.of_nat (length (proxy_slots k)) in
      modify (set_bd_cfg (BankdCfg (permit_shared_pcsc c) (gsmtap_host c) (gsmtap_slot c)
        (KiProxyCfg (ki_enabled k) (proxy_slot k) (proxy_slots k) next
           (virtual_slot_start k) (virtual_slot_end k)))) ;;
      n ← gets (λ b, srvc_num_slots (srvc_cfg (srvc b)));
      if n <=? selected_slot then select_proxy_slot attempts else mret (Some selected_slot)
  end.

Definition worker_handle_ki_proxy (i : nat) (apdu : octets) (in_len : Z) : Bd (Z * octets) :=
  if bool_decide (apdu = []) then mret (- 1, [])
  else
    c ← gets bd_cfg;
    n ← gets (λ b, srvc_num_slots (srvc_cfg (srvc b)));
    let k := ki_proxy c in
    selected_slot ←
      (if bool_decide (proxy_slots k = []) then
         mret (if n <=? proxy_slot k then None else Some (proxy_slot k))
       else select_proxy_slot (length (proxy_slots k)));
    match selected_slot with
    | None => mret (- 1, [])
    | Some s =>
        w ← worker_at i;
        let ps := BankSlot (bank_id (w_slot w)) (u16 s) in
        p ← find_worker (λ w, bank_slot_equals (w_slot w) ps &&
                              is_state BW_ST_CONN_CLIENT_MAPPED_CARD w);
        match p with
        | None => mret (- 1, [])
        | Some j => if (j =? i)%nat then mret (- 1, []) else pcsc_transceive j apdu in_len
        end
    end.

(** Whether an APDU of a slot goes to the Ki proxy. *)
Definition ki_intercepts (k : ki_proxy_cfg) (slot_nr : Z) (apdu : octets) : bool :=
  let is_virtual_slot := (0 <? virtual_slot_end k) &&
    (virtual_slot_start k <=? slot_nr) && (slot_nr <=? virtual_slot_end k) in
  ki_enabled k && match apdu with _ :: ins :: _ => ins =? 136 | _ => false end && is_virtual_slot.

Definition RX_BUF_LEN : Z := 1024.

Definition worker_handle_tpduModemToCard (i : nat) (from : ClientSlot_t) (to : BankSlot_t)
    (data : octets) : Bd Z :=
  w ← worker_at i;
  if negb (is_state BW_ST_CONN_CLIENT_MAPPED_CARD w) then mret (- 104)
  else if negb (bank_slot_equals (w_slot w) (rspro2bank_slot to)) then mret (- 105)
  else if negb (client_slot_equals (wc_clslot (w_client w)) (rspro2client_slot from)) then mret (- 106)
  else
    c ← gets bd_cfg;
    res ← (if ki_intercepts (ki_proxy c) (bslot_nr (w_slot w)) data
           then worker_handle_ki_proxy i data RX_BUF_LEN
           else pcsc_transceive i data RX_BUF_LEN);
    let '(rc, rx) := res in
    if rc <? 0 then mret rc
    else
      worker_send_rspro i (rspro_gen_TpduCard2Modem to from rx) ;;
      when (gsmtap_wanted c (bslot_nr (w_slot w))) (bankd_gsmtap_send_apdu GSMTAP_SIM_APDU data rx) ;;
      mret 0.

Definition worker_handle_clientSlotStatusInd (i : nat) (sps : SlotPhysStatus_t) : Bd Z :=
  w ← worker_at i;
  let vcc := match vccPresent sps with Some v => negb (v =? 0) | None => true end in
  let rst := negb (resetActive sps =? 0) in
  rc ← (if negb vcc then if last_vccPresent w then pcsc_reset_card i true else mret 0
        else if rst then if last_resetActive w then mret 0 else pcsc_reset_card i false
        else mret 0);
  worker_upd i (λ w, set_w_last
    match vccPresent sps with Some _ => vcc | None => last_vccPresent w end rst w) ;;
  mret rc.

Definition worker_handle_rspro (i : nat) (pdu : RsproPDU) : Bd Z :=
  match msg pdu with
  | PR_connectClientReq _ cs => worker_handle_connectClientReq i cs
  | PR_tpduModemToCard from to _ data => worker_handle_tpduModemToCard i from to data
  | PR_clientSlotStatusInd _ _ sps => worker_handle_clientSlotStatusInd i sps ;; mret 0
  | PR_setAtrRes _ => mret 0
  | _ => mret (- 101)
  end.

(** ** Workers: reception *)

(** [recv] of up to [want] bytes, restarted when a signal interrupts it. *)
Fixpoint recv_restart (i : nat) (intr : nat) (r : option octets) (want : Z) : Bd (Z + octets) :=
  match intr with
  | O => mret match r with Some b => inr (take (Z.to_nat want) b) | None => inl (- 1) end
  | S intr =>
      deliver_signal i ;;
      w ← worker_at i;
      if is_state BW_ST_CONN_CLIENT_UNMAPPED w then mret (inl (- 23)) else recv_restart i intr r want
  end.

(** The protocol and the payload; writing past the end of the buffer is
    undefined. *)
Definition blocking_ipa_read (i : nat) (buf_size : Z) (inp : ipa_input) : Bd (Z + Z * octets) :=
  if buf_size <? 3 then mret (inl (- 1))
  else
    h ← recv_restart i (hdr_intr inp) (hdr_recv inp) 3;
    match h with
    | inl rc => mret (inl rc)
    | inr [l1; l0; proto] =>
        let len := u16 (Z.lor (Z.shiftl l1 8) l0) in
        b ← recv_restart i (body_intr inp) (body_recv inp) len;
        match b with
        | inl rc => mret (inl rc)
        | inr b =>
            if buf_size <? 3 + Z.of_nat (length b) then undef
            else if Z.of_nat (length b) <? len then mret (inl (- 3))
            else mret (inr (proto, b))
        end
    | inr _ => mret (inl (- 2))
    end.

Definition BUF_SIZE : Z := 65536.

(** The handling of a readable socket. *)
Definition worker_rx (i : nat) (inp : ipa_input) : Bd Z :=
  r ← blocking_ipa_read i BUF_SIZE inp;
  match r with
  | inl rc => mret rc
  | inr (proto, data) =>
      if negb (proto =? IPAC_PROTO_OSMO) && negb (proto =? IPAC_PROTO_IPACCESS) then mret (- 4)
      else if proto =? IPAC_PROTO_IPACCESS then
        let msgt := default (stale_byte we) (head data) in
        if msgt =? IPAC_MSGT_PING then ipa_ccm_send i TxPong
        else if msgt =? IPAC_MSGT_ID_ACK then ipa_ccm_send i TxIdAck
        else mret 0
      else
        match data with
        | [] => mret (- 5)
        | ext :: data =>
            if negb (ext =? IPAC_PROTO_EXT_RSPRO) then mret (- 6)
            else
              match rspro_dec_msg data with
              | None => mret (- 7)
              | Some pdu =>
                  rc ← worker_handle_rspro i pdu;
                  mret (if rc <? 0 then rc else 0)
              end
        end
  end.

(** The time-out of [select]; without one it is not reached. *)
Definition worker_wait_timeout (i : nat) : Bd Z :=
  w ← worker_at i;
  rc ← match w_state w with
       | BW_ST_CONN_CLIENT_WAIT_MAP => worker_try_slotmap we i
       | BW_ST_CONN_CLIENT_MAPPED => worker_open_card i
       | _ => panic
       end;
  when (rc =? 0) (worker_send_atr i ;; mret ()) ;;
  mret 0.

(** The results of [select] until the loop returns; [None]: the worker waits
    in [select]. *)
Fixpoint worker_transceive_loop (i : nat) (waits : list wait_res) (inp : ipa_input)
    : Bd (option Z) :=
  match waits with
  | [] => mret None
  | WaitIntr :: waits =>
      deliver_signal i ;;
      w ← worker_at i;
      if is_state BW_ST_CONN_CLIENT_UNMAPPED w then mret (Some (- 23))
      else worker_try_slotmap we i ;; worker_transceive_loop i waits inp
  | WaitErr :: _ => mret (Some (- 1))
  | WaitTimeout :: _ =>
      w ← worker_at i;
      if w_timeout w =? 0 then mret None
      else rc ← worker_wait_timeout i; mret (Some rc)
  | WaitReady :: _ => rc ← worker_rx i inp; mret (Some rc)
  end.

(** ** Workers: the thread *)

(** Up to the first [accept]. *)
Definition worker_main_start (i : nat) : Bd () :=
  worker_set_state i BW_ST_INIT ;;
  worker_upd i (set_w_slot no_slot) ;;
  worker_set_state i BW_ST_ACCEPTING.

(** The result of [accept]. *)
Definition worker_main_accept (i : nat) (rc : Z) : Bd () :=
  if rc <? 0 then worker_set_state i BW_ST_ACCEPTING
  else
    worker_upd i (λ w, set_w_client (WorkerClient rc (wc_clslot (w_client w))) w) ;;
    worker_set_state i BW_ST_CONN_WAIT_ID.

(** The clean-up behind the loop, up to the next [accept]. *)
Definition worker_main_recycle (i : nat) : Bd () :=
  worker_upd i (set_w_card (WorkerCard (replicate MAX_ATR_SIZE 0) 0)) ;;
  pcsc_cleanup i ;;
  worker_upd i (λ w, set_w_reader (WorkerReader None (hContext (w_reader w)) (hCard (w_reader w))) w) ;;
  worker_upd i (set_w_client (WorkerClient (- 1) (ClientSlot 0 0))) ;;
  worker_set_state i BW_ST_ACCEPTING.

Definition worker_main_loop (i : nat) (waits : list wait_res) (inp : ipa_input) : Bd () :=
  rc ← worker_transceive_loop i waits inp;
  match rc with
  | None => mret ()
  | Some rc =>
      w ← worker_at i;
      when ((rc <? 0) || is_state BW_ST_CONN_CLIENT_UNMAPPED w) (worker_main_recycle i)
  end.
End worker.

(** ** Events *)

Inductive bankd_event :=
| BeServer (v : conn_event)
| BeUsr1
| BeStart (i : nat)
| BeAccept (i : nat) (rc : Z)
| BeSignal (i : nat)
| BeWorker (i : nat) (we : worker_env) (waits : list wait_res) (inp : ipa_input).

Definition bankd_fsm (e : srvc_env) := conn_fsm srvc_lens e CONN_DEPTH.
Definition bankd_K (e : srvc_env) : srvc_calls (W:=bankd) := conn_calls srvc_lens (bankd_fsm e).

(** [BeUsr1]: the main thread receives [SIGUSR1]. *)
Definition run_bankd_event (e : srvc_env) (v : bankd_event) : Bd () :=
  match v with
  | BeServer v => run_conn_event srvc_lens (bankd_fsm e) (bankd_srvc_handle_rx (bankd_K e)) v
  | BeUsr1 => signal_all_workers SIGUSR1
  | BeStart i => worker_main_start i
  | BeAccept i rc => worker_main_accept i rc
  | BeSignal i => deliver_signal i
  | BeWorker i we waits inp => worker_main_loop we i waits inp
  end.
End bankd.
