(* ===== verification/BankdStart.v ===== *)
(** * remsim-bankd: options and start-up ([bankd_init], [handle_options] and
    [main] of [src/bankd/bankd_main.c])

    The options arrive in the order in which [getopt_long] finds them; their
    arguments are C strings.  [exit] is [panic].  Logging options and the local
    address of the listening socket are not part of the state, nor are the
    carrier and card identities of the Ki proxy, which are only stored. *)

From S2P Require Import Prelude OsmoFsm Slotmap RsproPdu RsproUtil Ipa ClientConn BankdPcsc.
From S2P Require Import BankdMain.

(** ** The pool of the Ki proxy *)

Definition COMMA : Z := 44.
Definition DASH : Z := 45.
Definition MAX_PROXY_SLOTS : nat := 1024.

(** A range or a slot, appended to [temp_slots]; [None] is the exit with an
    error message. *)
Definition add_slots (token : octets) (temp : list Z) : option (list Z) :=
  match str_split DASH token with
  | Some (a, b) =>
      let start := atoi a in
      let stop := atoi b in
      if (start <? 0) || (1023 <? stop) || (stop <? start) then None
      else Some (temp ++ take (MAX_PROXY_SLOTS - length temp) (seqZ start (stop - start + 1)))
  | None =>
      let slot := atoi token in
      if (slot <? 0) || (1023 <? slot) then None else Some (temp ++ [slot])
  end.

(** Elements behind the end of [temp_slots] would be written out of bounds. *)
Fixpoint parse_slots (tokens : list octets) (temp : list Z) : option (list Z) :=
  match tokens with
  | [] => Some temp
  | token :: tokens =>
      if (length temp <? MAX_PROXY_SLOTS)%nat then
        match add_slots token temp with
        | Some temp => parse_slots tokens temp
        | None => None
        end
      else Some temp
  end.

(** ** Options *)

Inductive bankd_option :=
| OptServerHost (s : string)
| OptServerPort (arg : octets)
| OptBankId (arg : octets)
| OptNumSlots (arg : octets)
| OptComponentName (arg : octets)
| OptPermitShared
| OptGsmtapIp (s : string)
| OptGsmtapSlot (arg : octets)
| OptKiEnable
| OptKiSlot (arg : octets)
| OptKiSlots (arg : octets)
| OptKiVirtual (arg : octets)
| OptHelp
| OptOther.

Section start.
Context `{OsmoLib, StreamCliLib, RsproCodec, IpaBtsLib, Talloc, Pcsc}.

Abbreviation Bd := (M bankd).

Definition cfg_upd (f : srvc_config → srvc_config) : Bd () :=
  srvc_upd srvc_lens (λ c, set_srvc_cfg (f (srvc_cfg c)) c).

Definition bcfg_upd (f : bankd_cfg → bankd_cfg) : Bd () :=
  modify (λ b, set_bd_cfg (f (bd_cfg b)) b).

Definition ki_upd (f : ki_proxy_cfg → ki_proxy_cfg) : Bd () :=
  bcfg_upd (λ c, BankdCfg (permit_shared_pcsc c) (gsmtap_host c) (gsmtap_slot c) (f (ki_proxy c))).

Definition set_own_name (n : octets) (i : app_comp_id) : app_comp_id :=
  AppCompId (ac_type i) n (ac_software i) (ac_sw_version i) (ac_hw_manufacturer i) (ac_hw_model i)
    (ac_hw_serial_nr i) (ac_hw_version i) (ac_fw_version i).

Definition set_cfg_bank (id num : Z) (g : srvc_config) : srvc_config :=
  SrvcConfig (own_comp_id g) (peer_comp_id g) (clslot g) (server_host g) (server_port g) id num.

Definition set_cfg_own (i : app_comp_id) (g : srvc_config) : srvc_config :=
  SrvcConfig i (peer_comp_id g) (clslot g) (server_host g) (server_port g) (srvc_bank_id g)
    (srvc_num_slots g).

Definition handle_option (o : bankd_option) : Bd () :=
  match o with
  | OptServerHost s => cfg_upd (λ g, set_cfg_addr (Some s) (server_port g) g)
  | OptServerPort a => cfg_upd (λ g, set_cfg_addr (server_host g) (u16 (atoi a)) g)
  | OptBankId a => cfg_upd (λ g, set_cfg_bank (u16 (atoi a)) (srvc_num_slots g) g)
  | OptNumSlots a => cfg_upd (λ g, set_cfg_bank (srvc_bank_id g) (u16 (atoi a)) g)
  | OptComponentName a =>
      cfg_upd (λ g, set_cfg_own (set_own_name (strlcpy_array a) (own_comp_id g)) g)
  | OptPermitShared =>
      bcfg_upd (λ c, BankdCfg true (gsmtap_host c) (gsmtap_slot c) (ki_proxy c))
  | OptGsmtapIp s =>
      bcfg_upd (λ c, BankdCfg (permit_shared_pcsc c) (Some s) (gsmtap_slot c) (ki_proxy c))
  | OptGsmtapSlot a =>
      bcfg_upd (λ c, BankdCfg (permit_shared_pcsc c) (gsmtap_host c) (atoi a) (ki_proxy c))
  | OptKiEnable =>
      ki_upd (λ k, KiProxyCfg true (proxy_slot k) (proxy_slots k) (next_slot_idx k)
                     (virtual_slot_start k) (virtual_slot_end k))
  | OptKiSlot a =>
      let slot := atoi a in
      if (slot <? 0) || (1023 <? slot) then panic
      else ki_upd (λ k, KiProxyCfg (ki_enabled k) slot (proxy_slots k) (next_slot_idx k)
                          (virtual_slot_start k) (virtual_slot_end k))
  | OptKiSlots a =>
      match parse_slots (strtok COMMA a []) [] with
      | None => panic
      | Some slots =>
          when (negb (bool_decide (slots = [])))
            (ki_upd (λ k, KiProxyCfg (ki_enabled k) (proxy_slot k) slots (next_slot_idx k)
                            (virtual_slot_start k) (virtual_slot_end k)))
      end
  | OptKiVirtual a =>
      match str_split DASH a with
      | None => panic
      | Some (a, b) =>
          let start := atoi a in
          let stop := atoi b in
          if (start <? 0) || (1023 <? stop) || (stop <? start) then panic
          else ki_upd (λ k, KiProxyCfg (ki_enabled k) (proxy_slot k) (proxy_slots k)
                              (next_slot_idx k) start stop)
      end
  | OptHelp => panic
  | OptOther => mret ()
  end.

Definition handle_options (opts : list bankd_option) : Bd () := for_each handle_option opts.

(** ** Start *)

(** The name of the host and the version of the package, with what the system
    answers during the start: the allocation of the machine, the listening
    socket, the GSMTAP source, and the threads. *)
Record start_env := StartEnv {
  g_hostname : octets;
  package_version : octets;
  csv_file : option (list csv_event);
  fsm_alloc_ok : bool;
  listen_ok : bool;
  gsmtap_ok : bool;
  thread_ok : Z → bool;
}.

(** "remsim-bankd" *)
Definition bankd_software : octets := [114; 101; 109; 115; 105; 109; 45; 98; 97; 110; 107; 100].

Definition bankd_comp_id (se : start_env) : app_comp_id :=
  AppCompId ComponentType_remsimBankd (strlcpy_array (g_hostname se)) (strlcpy_array bankd_software)
    (strlcpy_array (package_version se)) zeros zeros zeros zeros zeros.

Definition bankd_init (se : start_env) : bankd :=
  Bankd (bankd_comp_id se) (set_srvc_cfg (set_cfg_bank 1 8 (srvc_cfg zero_srvc)) zero_srvc)
    slotmap_init [] [] (BankdCfg false None (- 1) (KiProxyCfg false 0 [] 0 0 0)) scard_init [].

Definition create_workers (se : start_env) (n : Z) : Bd () :=
  for_each (λ i, ok ← bankd_create_worker (thread_ok se i) i;
                 if (ok : bool) then mret () else panic) (seqZ 0 n).

Definition read_slotnames (se : start_env) : Bd () :=
  match csv_file se with
  | None => panic
  | Some evs =>
      names ← lift_outcome (bankd_pcsc_read_slotnames evs parser_state_init []);
      modify (λ b, Bankd (bd_comp_id b) (srvc b) (bd_slotmaps b) (workers b) names (bd_cfg b)
                     (bd_scard b) (gsmtap_log b))
  end.

(** [main] up to its loop. *)
Definition bankd_main (se : start_env) (e : srvc_env) (opts : list bankd_option) : Bd () :=
  modify (λ _, bankd_init se) ;;
  cfg_upd (λ g, set_cfg_own (bankd_comp_id se) (set_cfg_addr None 9998 g)) ;;
  handle_options opts ;;
  g ← gets (λ b, srvc_cfg (srvc b));
  if bool_decide (server_host g = None) then panic
  else
    read_slotnames se ;;
    rc ← server_conn_fsm_alloc srvc_lens (fsm_alloc_ok se);
    if rc <? 0 then panic
    else
      sk_dispatch (bankd_K e) SRVC_E_ESTABLISH None ;;
      osmo_assert (listen_ok se) ;;
      c ← gets bd_cfg;
      when (bool_decide (is_Some (gsmtap_host c))) (osmo_assert (gsmtap_ok se)) ;;
      create_workers se (srvc_num_slots g).
End start.
