(* ===== verification/BankdInv.v ===== *)
(** * Rules for remsim-bankd

    The effect of the main thread on the mappings (as a partial injection) and
    on the pending signals of the workers is given by functions
    ([server_spec]) that the handlers are proved to implement.  A worker thread
    changes its own entry of the list of workers ([thread]); the invariants of
    both threads follow from these rules. *)

From S2P Require Import Prelude OsmoFsm Slotmap RsproPdu RsproUtil Ipa ClientConn ConnInv.
From S2P Require Import BankdPcsc BankdMain.

(** ** Specification of the requests of the server *)

Definition add_signal (sig : worker_signal) (w : bankd_worker) : bankd_worker :=
  set_w_signals (w_signals w ++ [sig]) w.

(** The signal reaches the first worker with the property only. *)
Definition signal_first (P : bankd_worker → bool) (sig : worker_signal) (ws : list bankd_worker)
    : list bankd_worker :=
  match list_find P ws with
  | Some (i, _) => alter (add_signal sig) i ws
  | None => ws
  end.

(** [mem]: the new mapping can be allocated. *)
Definition add_spec (mem : bool) (bs : bank_slot) (cs : client_slot) (a : pinj)
    (ws : list bankd_worker) : Z * pinj * list bankd_worker :=
  if bool_decide (client_of a cs = None) && mem
  then (ResultCode_ok, <[bs := cs]> a, signal_first (worker_matches None (Some cs)) SIGMAPADD ws)
  else (ResultCode_illegalSlotId, a, ws).

Definition unmap_spec (bs : bank_slot) (a : pinj) (ws : list bankd_worker)
    : pinj * list bankd_worker :=
  (delete bs a, signal_first (worker_matches (Some bs) None) SIGMAPDEL ws).

Definition create_spec (mem : bool) (g : srvc_config) (client : ClientSlot_t) (bank : BankSlot_t)
    (a : pinj) (ws : list bankd_worker) : Z * pinj * list bankd_worker :=
  if negb (bankId bank =? srvc_bank_id g) then (ResultCode_illegalBankId, a, ws)
  else if srvc_num_slots g <=? bk_slotNr bank then (ResultCode_illegalSlotId, a, ws)
  else
    let bs := rspro2bank_slot bank in
    let cs := rspro2client_slot client in
    match a !! bs with
    | None => add_spec mem bs cs a ws
    | Some c =>
        if bool_decide (c = cs) then (ResultCode_ok, a, ws)
        else let '(a, ws) := unmap_spec bs a ws in add_spec mem bs cs a ws
    end.

Definition remove_spec (g : srvc_config) (client : ClientSlot_t) (bank : BankSlot_t)
    (a : pinj) (ws : list bankd_worker) : Z * pinj * list bankd_worker :=
  if negb (bankId bank =? srvc_bank_id g) then (ResultCode_illegalBankId, a, ws)
  else if srvc_num_slots g <=? bk_slotNr bank then (ResultCode_illegalSlotId, a, ws)
  else
    let bs := rspro2bank_slot bank in
    if bool_decide (a !! bs = Some (rspro2client_slot client))
    then let '(a, ws) := unmap_spec bs a ws in (ResultCode_ok, a, ws)
    else (ResultCode_unknownSlotmap, a, ws).

(** The response, if there is one, and the new mappings and workers. *)
Definition server_spec (mem : bool) (g : srvc_config) (m : RsproPDUchoice) (a : pinj)
    (ws : list bankd_worker) : option RsproPDU * pinj * list bankd_worker :=
  match m with
  | PR_createMappingReq client bank =>
      let '(r, a, ws) := create_spec mem g client bank a ws in
      (Some (rspro_gen_CreateMappingRes r), a, ws)
  | PR_removeMappingReq client bank =>
      let '(r, a, ws) := remove_spec g client bank a ws in
      (Some (rspro_gen_RemoveMappingRes r), a, ws)
  | PR_resetStateReq =>
      (Some (rspro_gen_ResetStateRes ResultCode_ok), ∅, add_signal SIGMAPDEL <$> ws)
  | _ => (None, a, ws)
  end.

Section bankd.
Context `{OsmoLib, StreamCliLib, RsproCodec, IpaBtsLib, Talloc, Pcsc}.
Context (E : abort → Prop).

(** ** Workers and signals *)

Lemma set_workers_id b : set_workers (workers b) b = b.
Proof. by destruct b. Qed.

Lemma wp_worker_at i w b (Q : bankd_worker → bankd → Prop) :
  workers b !! i = Some w → Q w b → wpe E (worker_at i) b Q.
Proof. intros Hw HQ. apply wp_bind, wp_gets. rewrite Hw. by apply wp_ret. Qed.

Lemma wp_worker_upd i f w b (Q : () → bankd → Prop) :
  workers b !! i = Some w → Q () (set_workers (alter f i (workers b)) b) →
  wpe E (worker_upd i f) b Q.
Proof. intros Hw HQ. apply wp_bind. eapply wp_worker_at; [done|]. by apply wp_modify. Qed.

Lemma wp_send_signal bs cs sig b (Q : () → bankd → Prop) :
  Q () (set_workers (signal_first (worker_matches bs cs) sig (workers b)) b) →
  wpe E (send_signal_to_worker bs cs sig) b Q.
Proof.
  intros HQ. apply wp_bind, wp_gets. unfold signal_first in HQ.
  destruct (list_find _ _) as [[i w]|] eqn:Hf; cbn [option_map fst].
  - apply list_find_Some in Hf as [Hw _]. by eapply wp_worker_upd.
  - rewrite set_workers_id in HQ. by apply wp_ret.
Qed.

Lemma wp_signal_list sig k b (Q : () → bankd → Prop) :
  (∀ i, i ∈ k → (i < length (workers b))%nat) →
  Q () (set_workers (foldl (λ ws i, alter (add_signal sig) i ws) (workers b) k) b) →
  wpe E (for_each (pthread_kill sig) k) b Q.
Proof.
  revert b. induction k as [|i k IH]; intros b Hk HQ; cbn [for_each foldl] in *.
  - rewrite set_workers_id in HQ. by apply wp_ret.
  - destruct (lookup_lt_is_Some_2 (workers b) i) as [w Hw]; [apply Hk; left|].
    apply wp_bind. eapply wp_worker_upd; [done|]. apply IH; [|done].
    intros j Hj. cbn. rewrite length_alter. apply Hk. by right.
Qed.

Lemma foldl_alter_seq {A} (f : A → A) (l k : list A) :
  foldl (λ ws i, alter f i ws) (l ++ k) (seq (length l) (length k)) = l ++ (f <$> k).
Proof.
  revert l. induction k as [|x k IH]; intros l; cbn; [done|].
  replace (alter f (length l) (l ++ x :: k)) with (l ++ f x :: k).
  2: { rewrite <-(Nat.add_0_r (length l)) at 1. by rewrite alter_app_r. }
  rewrite (cons_middle (f x)), app_assoc.
  specialize (IH (l ++ [f x])). rewrite length_app, Nat.add_1_r in IH. rewrite IH.
  by rewrite <-app_assoc.
Qed.

Lemma wp_signal_all sig b (Q : () → bankd → Prop) :
  Q () (set_workers (add_signal sig <$> workers b) b) → wpe E (signal_all_workers sig) b Q.
Proof.
  intros HQ. apply wp_bind, wp_gets, wp_signal_list.
  - intros i Hi%elem_of_seq. lia.
  - pose proof (foldl_alter_seq (add_signal sig) [] (workers b)) as Hf.
    cbn [app length] in Hf. by rewrite Hf.
Qed.

(** ** The requests of the server *)

(** The state after a request: the mappings, the workers, and nothing else. *)
Record serves (b : bankd) (a : pinj) (ws : list bankd_worker) (b' : bankd) : Prop := {
  sv_wf : slotmaps_wf (bd_slotmaps b');
  sv_abs : abs (bd_slotmaps b') = a;
  sv_workers : workers b' = ws;
  sv_rest : b' = set_workers ws (set_bd_slotmaps (bd_slotmaps b') b);
}.

(** An allocator that never fails. *)
Definition talloc_total : Prop := ∀ X, is_Some (talloc_zero X).

Lemma serves_same b : slotmaps_wf (bd_slotmaps b) → serves b (abs (bd_slotmaps b)) (workers b) b.
Proof. intros. split; [done|done|done|by destruct b]. Qed.

Lemma serves_maps b s ws : slotmaps_wf s →
  serves b (abs s) ws (set_workers ws (set_bd_slotmaps s b)).
Proof. by intros; split. Qed.

Lemma serves_trans b a ws b' a' ws' b'' : serves b a ws b' → serves b' a' ws' b'' → serves b a' ws' b''.
Proof. intros [_ _ _ E1] [W2 A2 K2 E2]. split; [done|done|done|]. rewrite E2, E1. done. Qed.

Lemma wp_lookup_bank bs b (Q : option loc → bankd → Prop) :
  slotmaps_wf (bd_slotmaps b) →
  (abs (bd_slotmaps b) !! bs = None → Q None b) →
  (∀ l m, l ∈ mappings (bd_slotmaps b) → heap (bd_slotmaps b) !! l = Some m → sm_bank m = bs →
     abs (bd_slotmaps b) !! bs = Some (sm_client m) → Q (Some l) b) →
  wpe E (on_slotmaps (slotmap_by_bank bs)) b Q.
Proof.
  intros Hwf Hnone Hsome. apply wp_zoom. eapply wp_mono; [by apply wp_slotmap_by_bank|].
  intros r s' [-> Hr]. replace (set_bd_slotmaps _ b) with b by (by destruct b).
  destruct r as [l|].
  - destruct Hr as (m & Hl & Hm & Hb). apply (Hsome l m); [done..|].
    apply abs_lookup; [done|]. exists m. split; [|done]. apply elem_of_entries. eauto.
  - by apply Hnone, abs_lookup_None.
Qed.

Lemma wp_maps_at l m b (Q : slot_mapping → bankd → Prop) :
  heap (bd_slotmaps b) !! l = Some m → Q m b → wpe E (on_slotmaps (map_at l)) b Q.
Proof.
  intros Hm HQ. apply wp_zoom. eapply wp_map_at; [done|]. by destruct b.
Qed.

Lemma wp_unmap l m b (Q : () → bankd → Prop) :
  slotmaps_wf (bd_slotmaps b) → l ∈ mappings (bd_slotmaps b) →
  heap (bd_slotmaps b) !! l = Some m →
  (∀ b' a ws, unmap_spec (sm_bank m) (abs (bd_slotmaps b)) (workers b) = (a, ws) →
     serves b a ws b' → Q () b') →
  wpe E (bankd_srvc_remove_mapping l) b Q.
Proof.
  intros Hwf Hl Hm HQ. apply wp_bind. eapply wp_maps_at; [done|].
  apply wp_bind, wp_zoom. eapply wp_slotmap_del; [done|]. apply wp_send_signal.
  eapply HQ; [done|]. rewrite <-(abs_free_map l _ m) by done. by apply serves_maps, wf_free_map.
Qed.

Lemma wp_add bs cs b (Q : option loc → bankd → Prop) :
  slotmaps_wf (bd_slotmaps b) → abs (bd_slotmaps b) !! bs = None →
  (∀ mem, (talloc_total → mem = true) →
     bool_decide (client_of (abs (bd_slotmaps b)) cs = None) && mem = false → Q None b) →
  (∀ l b', client_of (abs (bd_slotmaps b)) cs = None →
     serves b (<[bs := cs]> (abs (bd_slotmaps b))) (workers b) b' → Q (Some l) b') →
  wpe E (on_slotmaps (slotmap_add bs cs)) b Q.
Proof.
  intros Hwf Hbs Hfail Hok. apply wp_zoom. eapply wp_mono; [by apply wp_slotmap_add|].
  intros r s' [Hwf' Hr]. destruct r as [l|].
  - destruct Hr as (Hl & -> & Hb & Hc). apply Hok; [by apply client_of_abs_None|].
    rewrite <-(abs_link_new l) by done. pose proof (serves_maps b _ (workers b) Hwf') as Hs.
    by destruct b.
  - destruct Hr as [-> Hr]. replace (set_bd_slotmaps _ b) with b by (by destruct b).
    destruct Hr as [Hr|[Hr|Hr]].
    + by apply abs_lookup_None in Hbs.
    + apply (Hfail true); [done|]. rewrite bool_decide_eq_false_2; [done|].
      intros Hc. by apply client_of_abs_None in Hc.
    + apply (Hfail false); [|by rewrite andb_false_r]. intros Ht.
      destruct (Ht (dom (heap (bd_slotmaps b)))) as [l Hl]. congruence.
Qed.

(** The response [gen r] with the specified effect. *)
Definition outcome_of (b : bankd) (spec : bool → Z * pinj * list bankd_worker)
    (gen : Z → RsproPDU) (resp : RsproPDU) (b' : bankd) : Prop :=
  ∃ mem r a ws, spec mem = (r, a, ws) ∧ (talloc_total → mem = true) ∧
                resp = gen r ∧ serves b a ws b'.

Lemma wp_create client bank b :
  slotmaps_wf (bd_slotmaps b) →
  wpe E (handle_createMappingReq client bank) b (outcome_of b
    (λ mem, create_spec mem (srvc_cfg (srvc b)) client bank (abs (bd_slotmaps b)) (workers b))
    rspro_gen_CreateMappingRes).
Proof.
  intros Hwf. unfold create_spec. apply wp_bind, wp_gets.
  destruct (negb _); [apply wp_ret; exists true; eauto 10 using serves_same|].
  destruct (_ <=? _); [apply wp_ret; exists true; eauto 10 using serves_same|].
  set (bs := rspro2bank_slot bank). set (cs := rspro2client_slot client).
  assert (∀ b1 a1 ws1, serves b a1 ws1 b1 → a1 !! bs = None →
    wpe E (map ← on_slotmaps (slotmap_add bs cs);
           match map with
           | Some _ => send_signal_to_worker None (Some cs) SIGMAPADD ;;
                       mret (rspro_gen_CreateMappingRes ResultCode_ok)
           | None => mret (rspro_gen_CreateMappingRes ResultCode_illegalSlotId)
           end) b1
      (outcome_of b (λ mem, add_spec mem bs cs a1 ws1) rspro_gen_CreateMappingRes)) as Hadd.
  { intros b1 a1 ws1 Hs Hn. pose proof Hs as [Hw1 <- <- _]. apply wp_bind, wp_add; [done|done| |].
    - intros mem Hmem Hf. apply wp_ret. exists mem. unfold add_spec. rewrite Hf. eauto 10.
    - intros l b2 Hc Hs2. apply wp_bind, wp_send_signal, wp_ret. exists true. unfold add_spec.
      rewrite bool_decide_eq_true_2 by done. cbn [andb]. do 3 eexists. split; [done|].
      split; [done|]. split; [done|]. pose proof (serves_trans _ _ _ _ _ _ _ Hs Hs2) as Hs3.
      destruct Hs3 as [W3 A3 K3 E3]. split; cbn; [done|done|by rewrite K3|].
      rewrite K3. rewrite E3 at 1. done. }
  apply wp_bind, wp_lookup_bank; [done| |].
  - intros Hn. rewrite Hn. apply Hadd; [by apply serves_same|done].
  - intros l m Hl Hm Hb ->. apply wp_bind. eapply wp_maps_at; [done|].
    rewrite client_slot_equals_dec. case_bool_decide as Hc.
    + apply wp_ret. exists true. do 3 eexists. split; [done|]. split; [done|]. split; [done|]. by apply serves_same.
    + apply wp_bind. eapply wp_unmap; [done..|].
      intros b1 a1 ws1 Hu Hs. rewrite Hb in Hu. unfold unmap_spec in Hu |- *. simplify_eq.
      apply Hadd; [done|]. by rewrite lookup_delete_eq.
Qed.

Lemma wp_remove client bank b :
  slotmaps_wf (bd_slotmaps b) →
  wpe E (handle_removeMappingReq client bank) b (outcome_of b
    (λ _, remove_spec (srvc_cfg (srvc b)) client bank (abs (bd_slotmaps b)) (workers b))
    rspro_gen_RemoveMappingRes).
Proof.
  intros Hwf. unfold remove_spec. apply wp_bind, wp_gets.
  destruct (negb _); [apply wp_ret; exists true; eauto 10 using serves_same|].
  destruct (_ <=? _); [apply wp_ret; exists true; eauto 10 using serves_same|].
  apply wp_bind, wp_lookup_bank; [done| |].
  - intros Hn. apply wp_ret. exists true. rewrite bool_decide_eq_false_2 by congruence.
    eauto 10 using serves_same.
  - intros l m Hl Hm Hb Ha. apply wp_bind. eapply wp_maps_at; [done|].
    rewrite client_slot_equals_dec. case_bool_decide as Hc; cbn [negb].
    + apply wp_bind. eapply wp_unmap; [done..|]. intros b1 a1 ws1 Hu Hs. apply wp_ret. exists true.
      rewrite bool_decide_eq_true_2 by congruence. rewrite Hb in Hu.
      unfold unmap_spec in Hu |- *. simplify_eq. eauto 10.
    + apply wp_ret. exists true. rewrite bool_decide_eq_false_2 by congruence.
      eauto 10 using serves_same.
Qed.

(** ** Messages of the server *)

Context (e : srvc_env).
Abbreviation now := (get_monotonic_ms e).
Abbreviation fsm := (conn_fsm srvc_lens e).
Abbreviation no_parent := (λ _ : nat, SrvcParent None None).

Lemma bd_fsm_S n : fsm (S n) =
  rspro_client_server_fsm srvc_lens e (SrvcParent None None) (conn_calls srvc_lens (fsm n)).
Proof. done. Qed.

(** Everything but the connection. *)
Definition same_rest (b0 : bankd) (up : bool) (b : bankd) : Prop := b = set_srvc (srvc b) b0.

Lemma same_rest_lset b0 up c b : same_rest b0 up b → same_rest b0 up (lset srvc_lens c b).
Proof. unfold same_rest. intros ->. done. Qed.

Lemma bd_parent_ok b0 n : (0 ≤ n)%nat → parent_ok srvc_lens E (same_rest b0) (no_parent n).
Proof. intros _. split; intros w Hw; by apply wp_ret. Qed.

Definition same_bank (g g' : srvc_config) : Prop :=
  srvc_bank_id g' = srvc_bank_id g ∧ srvc_num_slots g' = srvc_num_slots g ∧
  own_comp_id g' = own_comp_id g.

Lemma wp_respond resp b (Q : Z → bankd → Prop) :
  conn_inv now (srvc b) → (∀ rc, Q rc (set_srvc (with_sent resp (srvc b)) b)) →
  wpe E (server_conn_send_rspro (bankd_K e) (Some resp)) b Q.
Proof.
  intros [Hwf (fi & Hfi & Hok)] HQ.
  replace b with (lset srvc_lens (srvc b) b) by (by destruct b).
  eapply (wp_server_conn_send_rspro srvc_lens e fsm no_parent bd_fsm_S E) with (n := 3%nat);
    [done|done|intros Hst|intros Hst].
  - specialize (HQ (- EPERM)). erewrite with_sent_down in HQ by done. by destruct b.
  - specialize (HQ 0). by erewrite with_sent_connected in HQ by done.
Qed.

(** The connection after a message: a response is sent, and otherwise it keeps
    its configuration up to the identity of the server. *)
Definition conn_after (resp : option RsproPDU) (c c' : rspro_server_conn) : Prop :=
  match resp with
  | Some p => c' = with_sent p c
  | None => same_bank (srvc_cfg c) (srvc_cfg c')
  end.

Lemma wp_bd_handle_rx pdu b (Q : bankd → Prop) :
  conn_inv now (srvc b) → slotmaps_wf (bd_slotmaps b) →
  (∀ mem resp a ws b1 c',
     server_spec mem (srvc_cfg (srvc b)) (msg pdu) (abs (bd_slotmaps b)) (workers b) = (resp, a, ws) →
     (talloc_total → mem = true) → serves b a ws b1 → conn_inv now c' →
     conn_after resp (srvc b) c' → Q (set_srvc c' b1)) →
  wpe E (bankd_srvc_handle_rx (bankd_K e) pdu) b (λ _, Q).
Proof.
  intros Hinv Hwf HQ.
  assert (∀ spec gen resp b1, outcome_of b spec gen resp b1 →
    (∀ mem r a ws, spec mem = (r, a, ws) → server_spec mem (srvc_cfg (srvc b)) (msg pdu)
       (abs (bd_slotmaps b)) (workers b) = (Some (gen r), a, ws)) →
    wpe E (server_conn_send_rspro (bankd_K e) (Some resp) ;; mret 0) b1 (λ _, Q)) as Hresp.
  { intros spec gen resp b1 (mem & r & a & ws & Hsp & Hmem & -> & Hs) Hspec.
    assert (srvc b1 = srvc b) as Hc by (by rewrite (sv_rest _ _ _ _ Hs)).
    apply wp_bind, wp_respond; [by rewrite Hc|]. intros rc. rewrite Hc. apply wp_ret.
    eapply HQ; [by apply Hspec|done|done|by apply conn_inv_sent|done]. }
  assert (server_spec true (srvc_cfg (srvc b)) (msg pdu) (abs (bd_slotmaps b)) (workers b) =
            (None, abs (bd_slotmaps b), workers b) →
    ∀ c', conn_inv now c' → same_bank (srvc_cfg (srvc b)) (srvc_cfg c') → Q (set_srvc c' b)) as Hnone.
  { intros Hsp c' Hi Hc. by eapply HQ; [done|done|apply serves_same| |]. }
  assert (∀ b', same_rest b false b' → b' = set_srvc (srvc b') b) as Hrest by done.
  unfold bankd_srvc_handle_rx.
  destruct (msg pdu) as [| |ident r| | |client bank| |client bank| | | | | | | | | | | | | |] eqn:Hm;
    try (apply wp_ret; replace b with (set_srvc (srvc b) b) by (by destruct b); by apply Hnone).
  - destruct Hinv as [Hw (fi & Hfi & Hok)]. destruct (negb _).
    + apply wp_bind. replace b with (lset srvc_lens (srvc b) b) by (by destruct b).
      eapply (wp_disconnect srvc_lens e fsm no_parent bd_fsm_S E (same_rest b)
        (same_rest_lset b) 0 (bd_parent_ok b)) with (n := 0%nat); [lia|done|done|done|by destruct b|].
      intros c' b' Hti Hb'. apply wp_ret. rewrite Hb'. cbn [lset srvc_lens].
      apply Hnone; [done|by eapply to_init_inv|]. by rewrite (ti_cfg _ _ Hti).
    + apply wp_bind. replace b with (lset srvc_lens (srvc b) b) by (by destruct b).
      apply wp_upd; [apply _|]. apply wp_bind.
      match goal with |- wpe _ _ (lset _ ?c _) _ => set (c1 := c) end.
      assert (conn_inv now c1) as Hi1 by (apply conn_inv_cfg; split; [done|by exists fi]).
      destruct Hi1 as [Hwf1 (fi1 & Hfi1 & Hok1)].
      assert (same_bank (srvc_cfg (srvc b)) (srvc_cfg c1)) as Hbank by done.
      eapply (wp_conn_res srvc_lens e fsm no_parent bd_fsm_S E (same_rest b)
        (same_rest_lset b) 0 (bd_parent_ok b)) with (n := 0%nat) (r := r);
        [lia|done|done|done|by destruct b|by unfold rspro_get_result; rewrite Hm|..].
      * intros _. apply wp_ret. apply Hnone; [done|split; [done|by exists fi1]|done].
      * intros Hes Hr c' b' Hd Hb'. apply wp_ret. rewrite Hb'. cbn [lset srvc_lens].
        apply Hnone; [done|by eapply to_delay_inv|]. by rewrite (td_cfg _ _ _ _ Hd).
      * intros Hes Hr b' Hb' Hl. apply wp_ret. rewrite Hb'. cbn [lget srvc_lens] in Hl. rewrite Hl.
        unfold state_ok in Hok1. rewrite Hes in Hok1. destruct Hok1 as (? & ? & ? & _ & _).
        apply Hnone; [done| |done]. split; [by destruct Hwf1; split|]. eexists. split; [done|].
        unfold state_ok; cbn. done.
  - apply wp_bind. eapply wp_mono; [by apply wp_create|]. intros resp b1 Ho.
    eapply Hresp; [done|]. intros mem r a ws Hsp. cbn. by rewrite Hsp.
  - apply wp_bind. eapply wp_mono; [by apply wp_remove|]. intros resp b1 Ho.
    eapply Hresp; [done|]. intros mem r a ws Hsp. cbn. by rewrite Hsp.
  - apply wp_bind, wp_zoom, wp_bind, wp_gets.
    eapply wp_mono; [by apply wp_del_list|]. intros [] s (Hs & Hnil & _).
    apply wp_bind, wp_signal_all.
    eapply (Hresp (λ _, (ResultCode_ok, ∅, add_signal SIGMAPDEL <$> workers b)) rspro_gen_ResetStateRes).
    + exists true. do 3 eexists. split; [done|]. split; [done|]. split; [done|].
      assert (abs s = ∅) as <- by (unfold abs, entries; by rewrite Hnil). by apply serves_maps.
    + by intros mem r a ws [= <- <- <-].
Qed.
End bankd.
