(* ===== verification/BankdThread.v ===== *)
(** * Rules for the worker threads of remsim-bankd

    A worker thread changes its own entry of the list of workers, the state of
    PC/SC, the trace of APDUs and the round-robin index of the Ki proxy, and
    nothing else ([frame]).  [thread i b0 R b]: that holds since [b0], and
    the worker of the thread satisfies [R].  Every function of the thread is
    shown to preserve the invariant [worker_inv] of a worker; its last clause is
    subject to a condition [T] on the history of the program. *)

From S2P Require Import Prelude OsmoFsm Slotmap RsproPdu RsproUtil Ipa ClientConn ConnInv.
From S2P Require Import BankdPcsc BankdMain BankdInv.

(** ** The invariant of a worker *)

Definition mapped (w : bankd_worker) : bool :=
  is_state BW_ST_CONN_CLIENT_MAPPED w || is_state BW_ST_CONN_CLIENT_MAPPED_CARD w.

(** A time-out is pending only while the worker waits for a mapping or for its
    card; the ATR fits into its array; a card is open only for a named reader;
    and (if [T]) a mapped worker has a current mapping, unless it is about to be
    told that it is gone. *)
Record worker_inv (T : Prop) (a : pinj) (w : bankd_worker) : Prop := {
  wi_timeout : w_timeout w = 0 ∨ w_state w = BW_ST_CONN_CLIENT_WAIT_MAP ∨
               w_state w = BW_ST_CONN_CLIENT_MAPPED;
  wi_atr : length (atr (w_card w)) = MAX_ATR_SIZE ∧ 0 ≤ atr_len (w_card w) ≤ Z.of_nat MAX_ATR_SIZE;
  wi_name : w_state w = BW_ST_CONN_CLIENT_MAPPED_CARD → is_Some (reader_name (w_reader w));
  wi_map : T → mapped w = true →
    a !! w_slot w = Some (wc_clslot (w_client w)) ∨ SIGMAPDEL ∈ w_signals w;
}.

(** The selection of the Ki proxy stays inside of its pool. *)
Definition ki_ok (c : bankd_cfg) : Prop :=
  proxy_slots (ki_proxy c) = [] ∨
  0 ≤ next_slot_idx (ki_proxy c) < Z.of_nat (length (proxy_slots (ki_proxy c))).

(** The configuration without the round-robin index. *)
Definition fixed_cfg (c : bankd_cfg) :=
  let k := ki_proxy c in
  (permit_shared_pcsc c, gsmtap_host c, gsmtap_slot c,
   (ki_enabled k, proxy_slot k, proxy_slots k, virtual_slot_start k, virtual_slot_end k)).

(** What a function of PC/SC leaves alone. *)
Record wkeep (w w' : bankd_worker) : Prop := {
  wk_state : w_state w' = w_state w;
  wk_timeout : w_timeout w' = w_timeout w;
  wk_slot : w_slot w' = w_slot w;
  wk_client : w_client w' = w_client w;
  wk_name : reader_name (w_reader w') = reader_name (w_reader w);
  wk_last : (last_vccPresent w', last_resetActive w') = (last_vccPresent w, last_resetActive w);
  wk_signals : w_signals w' = w_signals w;
  wk_sent : w_sent w' = w_sent w;
  wk_atr : length (atr (w_card w)) = MAX_ATR_SIZE ∧ 0 ≤ atr_len (w_card w) ≤ Z.of_nat MAX_ATR_SIZE →
    length (atr (w_card w')) = MAX_ATR_SIZE ∧ 0 ≤ atr_len (w_card w') ≤ Z.of_nat MAX_ATR_SIZE;
}.

Definition stable (R : bankd_worker → Prop) : Prop := ∀ w w', R w → wkeep w w' → R w'.

Lemma worker_inv_stable T a : stable (worker_inv T a).
Proof.
  intros w w' [Ht Ha Hn Hm] [Es Et Esl Ec En El Eg Ex Hatr].
  split; unfold mapped, is_state in *; rewrite ?Es, ?Et, ?Esl, ?Ec, ?En, ?Eg; auto.
Qed.

Lemma is_state_eq st w : is_state st w = true ↔ w_state w = st.
Proof. apply bool_decide_eq_true. Qed.

Lemma worker_inv_state T a w st t :
  worker_inv T a w → t = 0 ∨ st = BW_ST_CONN_CLIENT_WAIT_MAP → st ≠ BW_ST_CONN_CLIENT_MAPPED →
  st ≠ BW_ST_CONN_CLIENT_MAPPED_CARD → worker_inv T a (set_w_state st t w).
Proof.
  intros [Ht Ha Hn Hm] Hst Hs1 Hs2. split; cbn; [destruct Hst as [-> | ->]; auto|done|done|intros _].
  unfold mapped, is_state; cbn. by rewrite !bool_decide_eq_false_2.
Qed.

(** Changes that no part of the invariant speaks about. *)
Lemma worker_inv_sent T a w k : worker_inv T a w → worker_inv T a (set_w_sent k w).
Proof. by intros []; split. Qed.

Lemma worker_inv_last T a w v r : worker_inv T a w → worker_inv T a (set_w_last v r w).
Proof. by intros []; split. Qed.

Lemma worker_inv_unmapped T a w : worker_inv T a w → mapped w = false →
  ∀ b c, worker_inv T a (set_w_slot b w) ∧ worker_inv T a (set_w_client c w).
Proof.
  intros [Ht Ha Hn Hm] Hu b c. split; (split; cbn; [done|done|done|intros _]);
    unfold mapped, is_state in *; cbn; by rewrite Hu.
Qed.

(** A message longer than the buffer of the worker, whose header takes 3 bytes
    of it. *)
Definition oversized (inp : ipa_input) : Prop :=
  match hdr_recv inp, body_recv inp with
  | Some (l1 :: l0 :: _ :: _), Some b =>
      BUF_SIZE - 3 < Z.min (u16 (Z.lor (Z.shiftl l1 8) l0)) (Z.of_nat (length b))
  | _, _ => False
  end.

(** What a read yields: an error, or a payload of the announced length that
    fits into the buffer. *)
Definition read_ok (inp : ipa_input) (x : Z + Z * octets) : Prop :=
  match x with
  | inl rc => rc < 0
  | inr (proto, d) => ∃ l1 l0 h, hdr_recv inp = Some (l1 :: l0 :: proto :: h) ∧
      Z.of_nat (length d) = u16 (Z.lor (Z.shiftl l1 8) l0) ∧ Z.of_nat (length d) ≤ BUF_SIZE - 3
  end.

Section thread.
Context `{OsmoLib, StreamCliLib, RsproCodec, IpaBtsLib, Talloc, Pcsc}.
Context (E : abort → Prop) (T : Prop).

(** ** Threads *)

Record frame (i : nat) (b0 b : bankd) : Prop := {
  fr_srvc : srvc b = srvc b0;
  fr_maps : bd_slotmaps b = bd_slotmaps b0;
  fr_names : pcsc_slot_names b = pcsc_slot_names b0;
  fr_comp : bd_comp_id b = bd_comp_id b0;
  fr_len : length (workers b) = length (workers b0);
  fr_others : ∀ j, j ≠ i → workers b !! j = workers b0 !! j;
  fr_cfg : fixed_cfg (bd_cfg b) = fixed_cfg (bd_cfg b0);
  fr_ki : ki_ok (bd_cfg b0) → ki_ok (bd_cfg b);
}.

Definition thread (i : nat) (b0 : bankd) (R : bankd_worker → Prop) (b : bankd) : Prop :=
  frame i b0 b ∧ ∃ w, workers b !! i = Some w ∧ R w.

Lemma frame_refl i b : frame i b b.
Proof. by split. Qed.

Lemma thread_start i w b : workers b !! i = Some w → thread i b (.= w) b.
Proof. intros Hw. split; [apply frame_refl|]. eauto. Qed.

Lemma thread_mono i b0 (R R' : bankd_worker → Prop) b :
  thread i b0 R b → (∀ w, R w → R' w) → thread i b0 R' b.
Proof. intros [Hf (w & Hw & HR)] HRR. split; [done|]. eauto. Qed.

Lemma thread_maps i b0 R b : thread i b0 R b → bd_slotmaps b = bd_slotmaps b0.
Proof. intros [Hf _]. apply Hf. Qed.

Lemma frame_upd i b0 b f : frame i b0 b → frame i b0 (set_workers (alter f i (workers b)) b).
Proof.
  intros []. split; cbn; [done..| | |done|done].
  - by rewrite length_alter.
  - intros j Hj. rewrite list_lookup_alter_ne by done. auto.
Qed.

Lemma wp_th_upd i b0 (R R' : bankd_worker → Prop) f b (Q : () → bankd → Prop) :
  thread i b0 R b → (∀ w, R w → R' (f w)) → (∀ b', thread i b0 R' b' → Q () b') →
  wpe E (worker_upd i f) b Q.
Proof.
  intros [Hf (w & Hw & HR)] HRR HQ. eapply wp_worker_upd; [done|]. apply HQ.
  split; [by apply frame_upd|]. exists (f w). split; [|auto]. cbn.
  by rewrite list_lookup_alter_eq, Hw.
Qed.

Lemma wp_th_at i b0 R b (Q : bankd_worker → bankd → Prop) :
  thread i b0 R b → (∀ w, R w → workers b !! i = Some w → Q w b) → wpe E (worker_at i) b Q.
Proof. intros [Hf (w & Hw & HR)] HQ. eapply wp_worker_at; [done|]. auto. Qed.

(** The exact worker, behind [worker_at]. *)
Lemma thread_at i b0 R w b : thread i b0 R b → workers b !! i = Some w → thread i b0 (.= w) b.
Proof. intros [Hf _] Hw. split; [done|]. eauto. Qed.

Lemma wp_th_pcsc {A} i b0 R (f : scard → A * scard) b (Q : A → bankd → Prop) :
  thread i b0 R b → (∀ x b', thread i b0 R b' → Q x b') → wpe E (pcsc_call f) b Q.
Proof.
  intros [[] (w & Hw & HR)] HQ. apply wp_bind, wp_gets. destruct (f _) as [x s].
  apply wp_bind, wp_modify, wp_ret, HQ. split; [by split|]. eauto.
Qed.

(** ** Readers and cards *)

Lemma wp_pcsc_get_atr i b0 R b :
  stable R → thread i b0 R b → wpe E (pcsc_get_atr i) b (λ _, thread i b0 R).
Proof.
  intros HR Ht. apply wp_bind. eapply wp_th_at; [done|]. intros w Hw Hwb.
  apply wp_bind. eapply (wp_th_upd _ _ _ R); [by eapply thread_at| |].
  { intros ? ->. eapply HR; [done|]. split; cbn; [done..|]. intros [? ?]. split; [done|lia]. }
  intros b1 Ht1. apply wp_bind. eapply wp_th_pcsc; [done|]. intros [rc by_] b2 Ht2.
  apply wp_bind. eapply (wp_th_upd _ _ R R); [done| |].
  { intros w1 Hw1. eapply HR; [done|]. split; cbn; [done..|]. intros [Hl Hn]. split; [|done].
    unfold overwrite. rewrite length_app, length_drop, length_take, Hl. unfold MAX_ATR_SIZE. lia. }
  intros b3 Ht3. apply wp_bind, wp_when; intros _; [|by apply wp_ret].
  eapply (wp_th_upd _ _ R R); [done| |intros; by apply wp_ret].
  intros w1 Hw1. eapply HR; [done|]. split; cbn; [done..|]. intros [Hl Hn]. split; [done|].
  rewrite length_take. unfold MAX_ATR_SIZE. lia.
Qed.

Lemma handles_keep w c d :
  wkeep w (set_w_reader (WorkerReader (reader_name (w_reader w)) c d) w).
Proof. by split. Qed.

Lemma wp_pcsc_connect i b0 R b :
  stable R → (∀ w, R w → is_Some (reader_name (w_reader w))) → thread i b0 R b →
  wpe E (pcsc_connect_slot_regex i) b (λ _, thread i b0 R).
Proof.
  intros HR Hname Ht. apply wp_bind. eapply wp_th_at; [done|]. intros w Hw Hwb.
  destruct (Hname w Hw) as [name Hn]. rewrite Hn. apply wp_bind, wp_ret.
  destruct (regcomp name) as [re|]; [|by apply wp_ret].
  apply wp_bind. eapply wp_th_pcsc; [done|]. intros [rc readers] b1 Ht1.
  destruct (negb _); [by apply wp_ret|]. destruct (first_match _ _) as [p|]; [|by apply wp_ret].
  apply wp_bind. unfold bankd_share_mode. apply wp_bind, wp_gets, wp_ret.
  apply wp_bind. eapply wp_th_pcsc; [done|]. intros [rc' card] b2 Ht2.
  apply wp_bind. eapply (wp_th_upd _ _ R R); [done| |intros; by apply wp_ret].
  intros w1 Hw1. eapply HR; [done|]. apply handles_keep.
Qed.

Lemma wp_pcsc_open_card i b0 R b :
  stable R → (∀ w, R w → is_Some (reader_name (w_reader w))) → thread i b0 R b →
  wpe E (pcsc_open_card i) b (λ _, thread i b0 R).
Proof.
  intros HR Hname Ht. apply wp_bind. eapply wp_th_at; [done|]. intros w Hw Hwb.
  assert (∀ rc b1, thread i b0 R b1 →
    wpe E (if negb (rc =? SCARD_S_SUCCESS) then mret (swrap 32 rc) else
             w ← worker_at i;
             rc ← (if hCard (w_reader w) =? 0 then pcsc_connect_slot_regex i else mret 0);
             if negb (rc =? 0) then mret rc else pcsc_get_atr i) b1 (λ _, thread i b0 R)) as Hrest.
  { intros rc b1 Ht1. destruct (negb _); [by apply wp_ret|].
    apply wp_bind. eapply wp_th_at; [done|]. intros w1 Hw1 _. apply wp_bind.
    eapply (wp_mono _ _ (λ _, thread i b0 R)).
    { destruct (_ =? 0); [by apply wp_pcsc_connect|by apply wp_ret]. }
    intros rc' b2 Ht2. destruct (negb _); [by apply wp_ret|by apply wp_pcsc_get_atr]. }
  apply wp_bind. destruct (_ =? 0); [|by apply wp_ret, Hrest].
  apply wp_bind. eapply wp_th_pcsc; [done|]. intros [rc ctx] b1 Ht1.
  apply wp_bind. eapply (wp_th_upd _ _ R R); [done| |intros; by apply wp_ret, Hrest].
  intros w1 Hw1. eapply HR; [done|]. apply handles_keep.
Qed.

Lemma wp_pcsc_reset i cold b0 R b :
  stable R → thread i b0 R b → wpe E (pcsc_reset_card i cold) b (λ _, thread i b0 R).
Proof.
  intros HR Ht. apply wp_bind. eapply wp_th_at; [done|]. intros w Hw _.
  apply wp_bind. unfold bankd_share_mode. apply wp_bind, wp_gets, wp_ret.
  apply wp_bind. eapply wp_th_pcsc; [done|]. intros rc b1 Ht1.
  destruct (negb _); [by apply wp_ret|by apply wp_pcsc_get_atr].
Qed.

(** Of the thread's own worker or of another one. *)
Lemma wp_pcsc_transceive i j out n b0 R b :
  is_Some (workers b !! j) → thread i b0 R b →
  wpe E (pcsc_transceive j out n) b (λ _, thread i b0 R).
Proof.
  intros [wj Hj] Ht. apply wp_bind. eapply wp_worker_at; [done|].
  apply wp_bind. eapply wp_th_pcsc; [done|]. intros [rc by_] b1 Ht1. by apply wp_ret.
Qed.

Lemma wp_pcsc_cleanup i b0 R b :
  stable R → thread i b0 R b → wpe E (pcsc_cleanup i) b (λ _, thread i b0 R).
Proof.
  intros HR Ht. apply wp_bind. eapply wp_th_at; [done|]. intros w Hw _.
  apply wp_bind. eapply (wp_mono _ _ (λ _, thread i b0 R)).
  - apply wp_when; intros _; [|done]. apply wp_bind. eapply wp_th_pcsc; [done|]. intros [] b1 Ht1.
    eapply (wp_th_upd _ _ R R); [done| |done]. intros w1 Hw1. eapply HR; [done|]. apply handles_keep.
  - intros [] b1 Ht1. apply wp_when; intros _; [|done].
    apply wp_bind. eapply wp_th_pcsc; [done|]. intros [] b2 Ht2.
    eapply (wp_th_upd _ _ R R); [done| |done]. intros w1 Hw1. eapply HR; [done|]. apply handles_keep.
Qed.

(** ** Mapping and card *)

Definition about_to_open (a : pinj) (w : bankd_worker) : Prop :=
  worker_inv T a w ∧ w_state w = BW_ST_CONN_CLIENT_MAPPED.

Lemma wp_worker_open_card i b0 a b :
  thread i b0 (about_to_open a) b →
  wpe E (worker_open_card i) b (λ rc, thread i b0 (worker_inv T a)).
Proof.
  intros Ht. apply wp_bind. eapply wp_th_at; [done|]. intros w [Hi Hst] Hw.
  apply wp_bind. unfold is_state. rewrite bool_decide_eq_true_2 by done. apply wp_ret, wp_bind.
  set (R w := about_to_open a w ∧ is_Some (reader_name (w_reader w))).
  assert (stable R) as HR.
  { intros w1 w2 [[Hi1 Hs1] Hn1] Hk. pose proof Hk as [Es _ _ _ En _ _ _ _].
    unfold R, about_to_open. rewrite Es, En. split; [|done]. split; [|done].
    by eapply worker_inv_stable. }
  assert (∀ b1, thread i b0 R b1 →
    wpe E (rc ← pcsc_open_card i;
           if rc <? 0 then mret rc
           else worker_set_state i BW_ST_CONN_CLIENT_MAPPED_CARD ;; mret 0) b1
      (λ _, thread i b0 (worker_inv T a))) as Hopen.
  { intros b1 Ht1. apply wp_bind.
    eapply wp_mono; [apply (wp_pcsc_open_card i b0 R); [done|by intros ? []|done]|].
    intros rc b2 Ht2. destruct (rc <? 0).
    - apply wp_ret. eapply thread_mono; [exact Ht2|]. by intros w1 [[Hi1 _] _].
    - apply wp_bind. eapply wp_th_upd; [exact Ht2| |intros; by apply wp_ret].
      intros w1 [[[Ht1' Ha1 Hn1 Hm1] Hs1] Hn]. split; cbn; [by left|done|done|].
      intros HT _. apply Hm1; [done|]. unfold mapped, is_state. by rewrite (bool_decide_eq_true_2 _ Hs1). }
  destruct (reader_name (w_reader w)) as [n|] eqn:Hn.
  - apply wp_ret, Hopen. eapply thread_mono; [by eapply thread_at|].
    intros ? ->. split; [done|]. by rewrite Hn.
  - apply wp_bind, wp_gets, wp_bind.
    destruct (find_slot_name _ _) as [n|]; cbn beta.
    + eapply (wp_th_upd _ _ _ R); [by eapply thread_at| |intros b1 Ht1; by apply wp_ret, Hopen].
      intros ? ->. destruct Hi as [Ht1 Ha1 Hn1 Hm1]. split; [|done]. split; [|done].
      split; cbn; [done|done|done|]. intros HT Hmp. by apply Hm1.
    + eapply (wp_th_upd _ _ _ (worker_inv T a)); [by eapply thread_at| |intros b1 Ht1; by apply wp_ret, wp_ret].
      intros ? ->. destruct Hi as [Ht1 Ha1 Hn1 Hm1]. split; cbn; [done|done|by rewrite Hst|].
      intros HT Hmp. by apply Hm1.
Qed.

Lemma wp_lookup_client c b (Q : option loc → bankd → Prop) :
  slotmaps_wf (bd_slotmaps b) →
  Q None b →
  (∀ l m, heap (bd_slotmaps b) !! l = Some m → abs (bd_slotmaps b) !! sm_bank m = Some c →
     Q (Some l) b) →
  wpe E (on_slotmaps (slotmap_by_client c)) b Q.
Proof.
  intros Hwf Hnone Hsome. apply wp_zoom. eapply wp_mono; [by apply wp_slotmap_by_client|].
  intros r s' [-> Hr]. replace (set_bd_slotmaps _ b) with b by (by destruct b).
  destruct r as [l|]; [|done]. destruct Hr as (m & Hl & Hm & Hc). apply (Hsome l m); [done|].
  apply abs_lookup; [done|]. exists m. split; [|done]. apply elem_of_entries. eauto.
Qed.

Lemma wp_try_slotmap we i b0 b :
  (removed_meanwhile we = true → E AUndef) →
  slotmaps_wf (bd_slotmaps b0) → thread i b0 (worker_inv T (abs (bd_slotmaps b0))) b →
  wpe E (worker_try_slotmap we i) b (λ rc, thread i b0 (worker_inv T (abs (bd_slotmaps b0)))).
Proof.
  intros Hrm Hwf Ht. pose proof (thread_maps _ _ _ _ Ht) as Hmaps.
  apply wp_bind. eapply wp_th_at; [done|]. intros w Hi Hw.
  apply wp_bind, wp_lookup_client; rewrite ?Hmaps; [done| |].
  - apply wp_bind. eapply wp_th_upd; [done| |intros; by apply wp_ret].
    intros w1 Hi1. by apply worker_inv_state; [|right|..].
  - intros l m Hm Ha. rewrite bool_decide_true by (by eexists). cbn [andb].
    destruct (removed_meanwhile we); [by apply wp_undef, Hrm|].
    apply wp_bind. eapply wp_maps_at; [by rewrite Hmaps|].
    apply wp_bind. eapply (wp_th_upd _ _ _ (.= set_w_slot (sm_bank m) w));
      [by eapply thread_at|by intros ? ->|]. intros b1 Ht1.
    apply wp_bind. eapply (wp_th_upd _ _ _ (about_to_open _)); [done| |intros; by apply wp_worker_open_card].
    intros ? ->. destruct Hi as [Ht0 Ha0 Hn0 Hm0]. split; [|done].
    split; cbn; [by right; right|done|done|]. intros _ _. by left.
Qed.

(** ** Signals *)

Lemma wp_deliver_signal i b0 a b :
  thread i b0 (worker_inv T a) b → wpe E (deliver_signal i) b (λ _, thread i b0 (worker_inv T a)).
Proof.
  intros Ht. apply wp_bind. eapply wp_th_at; [done|]. intros w Hi Hw.
  destruct (w_signals w) as [|sig k] eqn:Hk; [by apply wp_ret|].
  apply wp_bind. eapply (wp_th_upd _ _ _ (.= set_w_signals k w)); [by eapply thread_at|by intros ? ->|].
  intros b1 Ht1. destruct Hi as [Ht0 Ha0 Hn0 Hm0].
  assert (sig ≠ SIGMAPDEL → worker_inv T a (set_w_signals k w)) as Hother.
  { intros Hsig. split; cbn; [done|done|done|]. intros HT Hmp.
    destruct (Hm0 HT Hmp) as [?|Hin]; [by left|right]. rewrite Hk in Hin.
    apply elem_of_cons in Hin as [<-|?]; done. }
  destruct sig; cbn [handle_signal].
  - apply wp_bind, wp_ret, wp_bind. eapply wp_th_at; [done|]. intros w1 -> Hw1.
    apply wp_when; intros Hst.
    + apply wp_bind. eapply (wp_th_upd _ _ _ (.= set_w_slot no_slot (set_w_signals k w)));
        [done|by intros ? ->|]. intros b2 Ht2.
      eapply wp_th_upd; [done| |done]. intros ? ->. split; cbn; [by left|done|done|done].
    + eapply thread_mono; [done|]. intros ? ->. split; cbn; [done|done|done|].
      intros HT Hmp. exfalso. cbn in Hst. unfold mapped, is_state in Hmp. cbn in Hmp.
      destruct (w_state w); done.
  - apply wp_ret. eapply thread_mono; [done|]. intros ? ->. by apply Hother.
  - apply wp_ret. eapply thread_mono; [done|]. intros ? ->. by apply Hother.
Qed.

(** ** Transmission *)

Context (we : worker_env) (i : nat) (b0 : bankd).
Hypothesis pipe : (∃ m, write_res we m = None) → E APanic.
Hypothesis gone : removed_meanwhile we = true → E AUndef.
Hypothesis maps_wf : slotmaps_wf (bd_slotmaps b0).

Abbreviation a := (abs (bd_slotmaps b0)).
Abbreviation ok := (thread i b0 (worker_inv T a)).

Lemma wp_worker_send pdu b : ok b → wpe E (worker_send_rspro we i pdu) b (λ _, ok).
Proof using pipe.
  intros Ht. unfold worker_send_rspro. destruct (rspro_enc_msg pdu) as [m|]; [|by apply wp_ret].
  destruct (write_res we (TxRspro m)) as [rc|] eqn:Hw; [|by apply wp_panic, pipe; eauto].
  destruct (_ =? _); [|by apply wp_ret]. apply wp_bind.
  eapply wp_th_upd; [done| |intros; by apply wp_ret]. intros w Hi. by apply worker_inv_sent.
Qed.

Lemma wp_ccm_send m b : ok b → wpe E (ipa_ccm_send we i m) b (λ _, ok).
Proof using pipe.
  intros Ht. unfold ipa_ccm_send. destruct (write_res we m) as [rc|] eqn:Hw; [|by apply wp_panic, pipe; eauto].
  apply wp_bind, wp_when; intros _; [|by apply wp_ret].
  eapply wp_th_upd; [done| |intros; by apply wp_ret]. intros w Hi. by apply worker_inv_sent.
Qed.

Lemma thread_gsmtap R k b : thread i b0 R b → thread i b0 R (set_gsmtap_log k b).
Proof. intros [[] Hw]. split; [by split|done]. Qed.

Lemma wp_gsmtap (c : bool) ty x y b : ok b →
  wpe E (when c (bankd_gsmtap_send_apdu ty x y)) b (λ _, ok).
Proof. intros Ht. apply wp_when; intros _; [|done]. apply wp_modify. by apply thread_gsmtap. Qed.

Lemma wp_send_atr b : ok b → wpe E (worker_send_atr we i) b (λ _, ok).
Proof using pipe.
  intros Ht. apply wp_bind. eapply wp_th_at; [done|]. intros w _ _. apply wp_bind, wp_gets, wp_bind.
  eapply wp_mono; [by apply wp_gsmtap|]. intros [] b1 Ht1. by apply wp_worker_send.
Qed.

(** ** Messages of the client *)

Lemma wp_connect cs b : ok b → wpe E (worker_handle_connectClientReq we i cs) b (λ _, ok).
Proof using pipe gone maps_wf.
  intros Ht. apply wp_bind, wp_gets.
  assert (∀ (r : RsproPDU) (rc : Z) b1, ok b1 →
    wpe E (worker_send_rspro we i r ;; mret rc) b1 (λ _, ok)) as Herr.
  { intros r rc b1 Ht1. apply wp_bind. eapply wp_mono; [by apply wp_worker_send|].
    intros rc' b2 Ht2. by apply wp_ret. }
  apply wp_bind. eapply wp_th_at; [done|]. intros w Hi Hw.
  destruct (is_state _ w) eqn:Hst; cbn [negb]; [|by apply Herr].
  destruct cs as [cs|]; [|by apply Herr]. apply is_state_eq in Hst. apply wp_bind.
  eapply (wp_th_upd _ _ _ (worker_inv T a)); [by eapply thread_at| |].
  { intros ? ->. apply worker_inv_unmapped; [done| |exact (BankSlot 0 0)].
    unfold mapped, is_state. by rewrite Hst. }
  intros b1 Ht1. apply wp_bind. eapply (wp_th_upd _ _ _ (worker_inv T a)); [done| |].
  { intros w1 Hi1. by apply worker_inv_state; [|left|..]. }
  intros b2 Ht2. apply wp_bind. eapply wp_mono; [by apply wp_try_slotmap|]. intros rc b3 Ht3.
  apply wp_bind. eapply wp_mono; [by apply wp_worker_send|]. intros rc' b4 Ht4.
  destruct (rc' <? 0); [by apply wp_ret|]. destruct (_ =? ResultCode_ok); [by apply wp_send_atr|by apply wp_ret].
Qed.

Lemma wp_select_proxy n b :
  ki_ok (bd_cfg b0) → proxy_slots (ki_proxy (bd_cfg b0)) ≠ [] → ok b →
  wpe E (select_proxy_slot n) b (λ _, ok).
Proof.
  intros Hki Hne. revert b. induction n as [|n IH]; intros b Ht; cbn [select_proxy_slot].
  { by apply wp_ret. }
  assert (proxy_slots (ki_proxy (bd_cfg b)) = proxy_slots (ki_proxy (bd_cfg b0))) as Hps.
  { destruct Ht as [[] _]. unfold fixed_cfg in *. congruence. }
  assert (ki_ok (bd_cfg b)) as Hkb by (destruct Ht as [[] _]; auto).
  destruct Hkb as [?|Hkb]; [congruence|].
  apply wp_bind, wp_gets, wp_bind. destruct (Z.ltb_spec (next_slot_idx (ki_proxy (bd_cfg b))) 0); [lia|].
  apply wp_deref; [intros Hn%lookup_ge_None; lia|]. intros s Hs.
  apply wp_bind, wp_modify, wp_bind, wp_gets.
  match goal with |- wpe _ _ ?b1 _ => assert (ok b1) as Ht1 end.
  { destruct Ht as [[] Hw]. split; [|done]. split; cbn; [done..|]. intros _. right. cbn.
    apply Z.mod_pos_bound. lia. }
  destruct (_ <=? s); [by apply IH|by apply wp_ret].
Qed.

Lemma wp_ki_proxy apdu n b :
  ki_ok (bd_cfg b0) → ok b → wpe E (worker_handle_ki_proxy i apdu n) b (λ _, ok).
Proof.
  intros Hki Ht. unfold worker_handle_ki_proxy. case_bool_decide; [by apply wp_ret|].
  apply wp_bind, wp_gets, wp_bind, wp_gets, wp_bind.
  assert (proxy_slots (ki_proxy (bd_cfg b)) = proxy_slots (ki_proxy (bd_cfg b0))) as Hps.
  { destruct Ht as [[] _]. unfold fixed_cfg in *. congruence. }
  eapply (wp_mono _ _ (λ _, ok)).
  { case_bool_decide as Hn; [by apply wp_ret|]. apply wp_select_proxy; [done|congruence|done]. }
  intros s b1 Ht1. destruct s as [s|]; [|by apply wp_ret].
  apply wp_bind. eapply wp_th_at; [done|]. intros w _ _. apply wp_bind, wp_gets.
  destruct (list_find _ (workers b1)) as [[j wj]|] eqn:Hf; cbn [option_map fst]; [|by apply wp_ret].
  apply list_find_Some in Hf as [Hj _]. destruct (j =? i)%nat; [by apply wp_ret|].
  apply wp_pcsc_transceive; [by eexists|done].
Qed.

Lemma wp_tpdu from to data b :
  ki_ok (bd_cfg b0) → ok b → wpe E (worker_handle_tpduModemToCard we i from to data) b (λ _, ok).
Proof using pipe.
  intros Hki Ht. apply wp_bind. eapply wp_th_at; [done|]. intros w _ Hw.
  repeat (destruct (negb _); [by apply wp_ret|]). apply wp_bind, wp_gets, wp_bind.
  eapply (wp_mono _ _ (λ _, ok)).
  { destruct (ki_intercepts _ _ _); [by apply wp_ki_proxy|apply wp_pcsc_transceive; [by eexists|done]]. }
  intros [rc rx] b1 Ht1. destruct (rc <? 0); [by apply wp_ret|].
  apply wp_bind. eapply wp_mono; [by apply wp_worker_send|]. intros rc' b2 Ht2.
  apply wp_bind. eapply wp_mono; [by apply wp_gsmtap|]. intros [] b3 Ht3. by apply wp_ret.
Qed.

Lemma wp_slot_status sps b : ok b → wpe E (worker_handle_clientSlotStatusInd i sps) b (λ _, ok).
Proof.
  intros Ht. apply wp_bind. eapply wp_th_at; [done|]. intros w _ _. apply wp_bind.
  eapply (wp_mono _ _ (λ _, ok)).
  { repeat case_match; first [by apply wp_ret|apply wp_pcsc_reset; [apply worker_inv_stable|done]]. }
  intros rc b1 Ht1. apply wp_bind. eapply wp_th_upd; [done| |intros; by apply wp_ret].
  intros w1 Hi1. by apply worker_inv_last.
Qed.

Lemma wp_handle_rspro pdu b :
  ki_ok (bd_cfg b0) → ok b → wpe E (worker_handle_rspro we i pdu) b (λ _, ok).
Proof using pipe gone maps_wf.
  intros Hki Ht. unfold worker_handle_rspro. destruct (msg pdu); try (by apply wp_ret).
  - by apply wp_connect.
  - by apply wp_tpdu.
  - apply wp_bind. eapply wp_mono; [by apply wp_slot_status|]. intros rc b1 Ht1. by apply wp_ret.
Qed.

(** ** Reception *)

Lemma wp_recv n r want b :
  ok b → wpe E (recv_restart i n r want) b (λ x b', ok b' ∧
    match x with
    | inl rc => rc < 0
    | inr d => ∃ m, r = Some m ∧ d = take (Z.to_nat want) m
    end).
Proof.
  revert b. induction n as [|n IH]; intros b Ht; cbn [recv_restart].
  - apply wp_ret. split; [done|]. destruct r; [by eexists|lia].
  - apply wp_bind. eapply wp_mono; [by apply wp_deliver_signal|]. intros [] b1 Ht1.
    apply wp_bind. eapply wp_th_at; [done|]. intros w _ _.
    destruct (is_state _ w); [by apply wp_ret|by apply IH].
Qed.

Lemma wp_ipa_read inp b :
  (oversized inp → E AUndef) → ok b →
  wpe E (blocking_ipa_read i BUF_SIZE inp) b (λ x b', ok b' ∧ read_ok inp x).
Proof.
  intros Hover Ht. unfold blocking_ipa_read. change (BUF_SIZE <? 3) with false. cbn iota.
  apply wp_bind. eapply wp_mono; [by apply wp_recv|]. intros [rc|h] b1 [Ht1 Hh]; [by apply wp_ret|].
  destruct Hh as (m & Hm & ->). change (Z.to_nat 3) with 3%nat.
  destruct m as [|l1 [|l0 [|p h]]]; try (by apply wp_ret). cbn [take].
  set (len := u16 (Z.lor (Z.shiftl l1 8) l0)).
  assert (0 ≤ len) as Hlen by (by apply wrap_range).
  apply wp_bind. eapply wp_mono; [by apply wp_recv|]. intros [rc|d] b2 [Ht2 Hd]; [by apply wp_ret|].
  destruct Hd as (m' & Hm' & ->).
  destruct (Z.ltb_spec BUF_SIZE (3 + Z.of_nat (length (take (Z.to_nat len) m')))) as [Hlt|Hge].
  - apply wp_undef, Hover. unfold oversized. rewrite Hm, Hm'. rewrite length_take in Hlt.
    fold len. unfold BUF_SIZE in *. lia.
  - destruct (Z.ltb_spec (Z.of_nat (length (take (Z.to_nat len) m'))) len) as [Hs|Hs];
      apply wp_ret; (split; [done|]); [done|]. exists l1, l0, h. split; [done|].
    rewrite length_take in *. fold len. unfold BUF_SIZE in *. lia.
Qed.

Lemma wp_rx inp b :
  (oversized inp → E AUndef) → ki_ok (bd_cfg b0) → ok b → wpe E (worker_rx we i inp) b (λ _, ok).
Proof using pipe gone maps_wf.
  intros Hover Hki Ht. apply wp_bind. eapply wp_mono; [by apply wp_ipa_read|].
  intros [rc|[p d]] b1 [Ht1 _]; [by apply wp_ret|].
  cbn beta iota zeta. destruct (_ && _); [by apply wp_ret|].
  destruct (p =? IPAC_PROTO_IPACCESS).
  - destruct (_ =? IPAC_MSGT_PING); [by apply wp_ccm_send|].
    destruct (_ =? IPAC_MSGT_ID_ACK); [by apply wp_ccm_send|by apply wp_ret].
  - destruct d as [|x d]; [by apply wp_ret|]. destruct (negb _); [by apply wp_ret|].
    destruct (rspro_dec_msg d) as [pdu|]; [|by apply wp_ret].
    apply wp_bind. eapply wp_mono; [by apply wp_handle_rspro|]. intros rc b2 Ht2. by apply wp_ret.
Qed.

Lemma wp_wait_timeout b w :
  ok b → workers b !! i = Some w → w_timeout w ≠ 0 →
  wpe E (worker_wait_timeout we i) b (λ _, ok).
Proof using pipe gone maps_wf.
  intros Ht Hw Hto. apply wp_bind. eapply wp_worker_at; [done|].
  apply wp_bind. eapply (wp_mono _ _ (λ _, ok)).
  - pose proof (thread_at _ _ _ _ _ Ht Hw) as Ht'. destruct Ht as [_ (w' & Hw' & Hi)].
    assert (w' = w) as -> by congruence. destruct (wi_timeout _ _ _ Hi) as [?|[Hst|Hst]]; [done|..];
      rewrite Hst.
    + apply wp_try_slotmap; [done|done|]. eapply thread_mono; [done|]. by intros ? ->.
    + apply wp_worker_open_card. eapply thread_mono; [done|]. by intros ? ->.
  - intros rc b1 Ht1. apply wp_bind. eapply (wp_mono _ _ (λ _, ok)); [|intros; by apply wp_ret].
    apply wp_when; intros _; [|done]. apply wp_bind. eapply wp_mono; [by apply wp_send_atr|].
    intros rc' b2 Ht2. by apply wp_ret.
Qed.

Lemma wp_loop waits inp b :
  (oversized inp → E AUndef) → ki_ok (bd_cfg b0) → ok b →
  wpe E (worker_transceive_loop we i waits inp) b (λ _, ok).
Proof using pipe gone maps_wf.
  intros Hover Hki. revert b. induction waits as [|x waits IH]; intros b Ht;
    cbn [worker_transceive_loop]; [by apply wp_ret|]. destruct x.
  - apply wp_bind. eapply wp_mono; [by apply wp_deliver_signal|]. intros [] b1 Ht1.
    apply wp_bind. eapply wp_th_at; [done|]. intros w _ _.
    destruct (is_state _ w); [by apply wp_ret|]. apply wp_bind.
    eapply wp_mono; [by apply wp_try_slotmap|]. intros rc b2 Ht2. by apply IH.
  - by apply wp_ret.
  - apply wp_bind. eapply wp_th_at; [done|]. intros w _ Hw.
    destruct (Z.eqb_spec (w_timeout w) 0); [by apply wp_ret|]. apply wp_bind.
    eapply wp_mono; [by eapply wp_wait_timeout|]. intros rc b1 Ht1. by apply wp_ret.
  - apply wp_bind. eapply wp_mono; [by apply wp_rx|]. intros rc b1 Ht1. by apply wp_ret.
Qed.

(** ** The thread *)

Lemma wp_recycle b : ok b → wpe E (worker_main_recycle i) b (λ _, ok).
Proof.
  intros Ht. unfold worker_main_recycle.
  set (R (w : bankd_worker) := length (atr (w_card w)) = MAX_ATR_SIZE ∧
    0 ≤ atr_len (w_card w) ≤ Z.of_nat MAX_ATR_SIZE).
  assert (stable R) as HR by (intros w w' Hw [_ _ _ _ _ _ _ _ Hk]; by apply Hk).
  apply wp_bind. eapply (wp_th_upd _ _ _ R); [done|by intros; split|].
  intros b1 Ht1. apply wp_bind. eapply wp_mono; [by apply (wp_pcsc_cleanup i b0 R)|].
  intros [] b2 Ht2. apply wp_bind. eapply (wp_th_upd _ _ R R); [exact Ht2|by intros|].
  intros b3 Ht3. apply wp_bind. eapply (wp_th_upd _ _ R R); [exact Ht3|by intros|].
  intros b4 Ht4. eapply wp_th_upd; [exact Ht4| |done].
  intros w Hw. split; cbn; [by left|done|done|done].
Qed.

Lemma wp_main_loop waits inp b :
  (oversized inp → E AUndef) → ki_ok (bd_cfg b0) → ok b →
  wpe E (worker_main_loop we i waits inp) b (λ _, ok).
Proof using pipe gone maps_wf.
  intros Hover Hki Ht. apply wp_bind. eapply wp_mono; [by apply wp_loop|]. intros [rc|] b1 Ht1.
  - apply wp_bind. eapply wp_th_at; [done|]. intros w _ _. apply wp_when; intros _; [|done].
    by apply wp_recycle.
  - by apply wp_ret.
Qed.

Lemma wp_main_start b : ok b → wpe E (worker_main_start i) b (λ _, ok).
Proof.
  intros Ht. apply wp_bind. eapply (wp_th_upd _ _ _ (worker_inv T a)); [done| |].
  { intros w Hi. by apply worker_inv_state; [|left|..]. }
  intros b1 Ht1. apply wp_bind. eapply (wp_th_upd _ _ _ (λ w, ∃ w0, worker_inv T a w0 ∧ w = set_w_slot no_slot w0));
    [done|by eauto|]. intros b2 Ht2.
  eapply wp_th_upd; [exact Ht2| |done]. intros w (w0 & [] & ->). by split; [left|..].
Qed.

Lemma wp_main_accept rc b :
  thread i b0 (λ w, worker_inv T a w ∧ w_state w = BW_ST_ACCEPTING) b →
  wpe E (worker_main_accept i rc) b (λ _, ok).
Proof.
  intros Ht. unfold worker_main_accept. destruct (rc <? 0).
  - eapply wp_th_upd; [exact Ht| |done]. intros w [Hi _]. by apply worker_inv_state; [|left|..].
  - apply wp_bind. eapply (wp_th_upd _ _ _ (worker_inv T a)); [exact Ht| |].
    { intros w [Hi Hst]. apply worker_inv_unmapped; [done| |exact (BankSlot 0 0)].
      unfold mapped, is_state. by rewrite Hst. }
    intros b1 Ht1. eapply wp_th_upd; [done| |done]. intros w Hi. by apply worker_inv_state; [|left|..].
Qed.
End thread.
