(* ===== verification/BankdSystem.v ===== *)
(** * The system invariant of remsim-bankd

    [bankd_inv T t b] is kept by every event of every thread
    ([wp_bankd_event]) and established by the start of the program
    ([wp_bankd_main]).  The condition [T] is [True] for the runs in which no
    other worker ever holds the slot of a mapped one ([slots_unique]), and
    [False] for all runs. *)

From S2P Require Import Prelude OsmoFsm Slotmap RsproPdu RsproUtil Ipa ClientConn ConnInv.
From S2P Require Import BankdPcsc BankdMain BankdStart BankdInv BankdThread.

(** ** The effect of signals on the list of workers *)

Definition slots_unique (ws : list bankd_worker) : Prop :=
  ∀ i j wi wj, ws !! i = Some wi → ws !! j = Some wj → mapped wi = true →
    w_slot wj = w_slot wi → i = j.

#[export] Instance slots_unique_dec ws : Decision (slots_unique ws).
Proof.
  destruct (decide (Forall (λ p, Forall (λ q, mapped p.2 = true → w_slot q.2 = w_slot p.2 →
    p.1 = q.1) (imap pair ws)) (imap pair ws))) as [Hall|Hall]; [left|right].
  - intros i j wi wj Hi Hj.
    assert (∀ k w, ws !! k = Some w → imap pair ws !! k = Some (k, w)) as Himap.
    { intros k w Hk. by rewrite list_lookup_imap, Hk. }
    apply (Forall_lookup_1 _ _ _ _ (Forall_lookup_1 _ _ _ _ Hall (Himap _ _ Hi)) (Himap _ _ Hj)).
  - intros Hu. apply Hall,  Forall_lookup. intros i [i' wi] Hi. apply Forall_lookup.
    intros j [j' wj] Hj. rewrite list_lookup_imap in Hi, Hj.
    apply fmap_Some in Hi as (? & Hi & [= <- <-]). apply fmap_Some in Hj as (? & Hj & [= <- <-]).
    intros Hm Hs. by eapply Hu.
Defined.

Lemma worker_inv_signal T a sig w : worker_inv T a w → worker_inv T a (add_signal sig w).
Proof.
  intros [Ht Ha Hn Hm]. split; cbn; [done|done|done|]. intros HT Hmp.
  destruct (Hm HT Hmp); [by left|right]. apply elem_of_app. by left.
Qed.

Lemma signal_first_lookup P sig ws i w' :
  signal_first P sig ws !! i = Some w' →
  ∃ w, ws !! i = Some w ∧ (w' = w ∨ w' = add_signal sig w).
Proof.
  unfold signal_first. destruct (list_find P ws) as [[j wj]|]; [|eauto].
  intros Hi. destruct (decide (i = j)) as [->|Hne].
  - rewrite list_lookup_alter_eq in Hi. destruct (ws !! j) as [w|]; [|done]. exists w.
    split; [done|]. injection Hi as <-. by right.
  - rewrite list_lookup_alter_ne in Hi by done. eauto.
Qed.

Lemma Forall_signal_first (R : bankd_worker → Prop) P sig ws :
  (∀ w, R w → R (add_signal sig w)) → Forall R ws → Forall R (signal_first P sig ws).
Proof.
  intros HR Hws. apply Forall_lookup. intros i w' Hi.
  apply signal_first_lookup in Hi as (w & Hw & [-> | ->]); [|apply HR];
    by apply (Forall_lookup_1 _ _ _ _ Hws Hw).
Qed.

(** The worker of a slot gets the signal if no other one has the slot. *)
Lemma signal_first_slot bs sig ws i w :
  slots_unique ws → ws !! i = Some w → mapped w = true → w_slot w = bs →
  signal_first (worker_matches (Some bs) None) sig ws !! i = Some (add_signal sig w).
Proof.
  intros Hu Hi Hm Hs. unfold signal_first.
  assert (∀ w', Is_true (worker_matches (Some bs) None w') ↔ w_slot w' = bs) as Hmatch.
  { intros w'. unfold worker_matches. rewrite andb_true_r, Is_true_true, bank_slot_equals_eq. done. }
  destruct (list_find _ ws) as [[j wj]|] eqn:Hf.
  - apply list_find_Some in Hf as (Hj & Hmj & _). apply Hmatch in Hmj.
    assert (i = j) as <- by (eapply Hu; [done..|]; by rewrite Hmj).
    by rewrite list_lookup_alter_eq, Hi.
  - apply list_find_None in Hf. apply (Forall_lookup_1 _ _ i w) in Hf; [|done].
    destruct Hf. by apply Hmatch.
Qed.

(** ** Requests of the server keep the invariants *)

Definition bank_keys (g : srvc_config) (a : pinj) : Prop :=
  ∀ bs c, a !! bs = Some c → bank_id bs = srvc_bank_id g.

Lemma unmap_inv T bs a ws a' ws' :
  unmap_spec bs a ws = (a', ws') → (T → slots_unique ws) →
  Forall (worker_inv T a) ws → Forall (worker_inv T a') ws'.
Proof.
  intros [= <- <-] Hu Hws. apply Forall_lookup. intros i w' Hi.
  destruct (signal_first_lookup _ _ _ _ _ Hi) as (w & Hw & Hor).
  pose proof (Forall_lookup_1 _ _ _ _ Hws Hw) as Hinv.
  assert (worker_inv T a w') as Hinv' by (destruct Hor as [-> | ->]; auto using worker_inv_signal).
  destruct Hinv' as [Ht Ha Hn Hm]. split; [done..|]. intros HT Hmp.
  destruct (Hm HT Hmp) as [Hmap|]; [|by right].
  destruct (decide (w_slot w' = bs)) as [Hs|Hs].
  - right. assert (mapped w = true ∧ w_slot w = bs) as [Hmw Hsw] by (by destruct Hor as [-> | ->]).
    rewrite (signal_first_slot bs _ _ _ _ (Hu HT) Hw Hmw Hsw) in Hi. injection Hi as <-.
    apply elem_of_app. right. by left.
  - left. by rewrite lookup_delete_ne.
Qed.

Lemma add_inv T mem bs cs a ws r a' ws' :
  add_spec mem bs cs a ws = (r, a', ws') → a !! bs = None →
  Forall (worker_inv T a) ws → Forall (worker_inv T a') ws'.
Proof.
  unfold add_spec. intros Hs Hn Hws. destruct (_ && _); [|by simplify_eq]. injection Hs as <- <- <-.
  apply Forall_signal_first; [apply worker_inv_signal|].
  eapply Forall_impl; [done|]. intros w [Ht Ha Hnm Hm]. split; [done..|].
  intros HT Hmp. destruct (Hm HT Hmp) as [Hmap|]; [left|by right].
  rewrite lookup_insert_ne; [done|]. congruence.
Qed.

Lemma add_keys mem g bs cs a ws r a' ws' :
  add_spec mem bs cs a ws = (r, a', ws') → bank_id bs = srvc_bank_id g →
  bank_keys g a → bank_keys g a'.
Proof.
  unfold add_spec. intros Hs Hb Hk. destruct (_ && _); [|by simplify_eq]. injection Hs as <- <- <-.
  intros bs' c [[<- _]|[_ Hl]]%lookup_insert_Some; [done|by eapply Hk].
Qed.

Lemma delete_keys g bs a : bank_keys g a → bank_keys g (delete bs a).
Proof. intros Hk bs' c [_ Hl]%lookup_delete_Some. by eapply Hk. Qed.

Lemma server_spec_inv T mem g m a ws r a' ws' :
  server_spec mem g m a ws = (r, a', ws') → (T → slots_unique ws) →
  0 ≤ srvc_bank_id g < 65536 → bank_keys g a → Forall (worker_inv T a) ws →
  bank_keys g a' ∧ Forall (worker_inv T a') ws'.
Proof.
  intros Hs Hu Hid Hk Hws. unfold server_spec in Hs.
  destruct m as [| | | | |client bank| |client bank| | | | | | | | | | | | | |]; try (by simplify_eq).
  - unfold create_spec in Hs. destruct (Z.eqb_spec (bankId bank) (srvc_bank_id g)) as [Hb|];
      cbn [negb] in Hs; [|by simplify_eq].
    destruct (_ <=? _); [by simplify_eq|].
    assert (bank_id (rspro2bank_slot bank) = srvc_bank_id g) as Hbs.
    { cbn. rewrite Hb. by apply wrap_small. }
    destruct (a !! rspro2bank_slot bank) as [c|] eqn:Ha.
    + case_bool_decide; [by simplify_eq|].
      destruct (unmap_spec _ a ws) as [a1 ws1] eqn:Hun.
      pose proof (unmap_inv _ _ _ _ _ _ Hun Hu Hws) as Hws1. injection Hun as <- <-.
      destruct (add_spec _ _ _ _ _) as [[r1 a2] ws2] eqn:Had. injection Hs as <- <- <-.
      split; [by eapply add_keys; [| |apply delete_keys]|].
      eapply add_inv; [done| |done]. apply lookup_delete_eq.
    + destruct (add_spec _ _ _ _ _) as [[r1 a2] ws2] eqn:Had. injection Hs as <- <- <-.
      split; [by eapply add_keys|by eapply add_inv].
  - unfold remove_spec in Hs. destruct (negb _); [by simplify_eq|].
    destruct (_ <=? _); [by simplify_eq|]. case_bool_decide; [|by simplify_eq].
    destruct (unmap_spec _ a ws) as [a1 ws1] eqn:Hun.
    pose proof (unmap_inv _ _ _ _ _ _ Hun Hu Hws) as Hws1. injection Hun as <- <-.
    injection Hs as <- <- <-. split; [by apply delete_keys|done].
  - injection Hs as <- <- <-. split; [done|]. apply Forall_fmap. eapply Forall_impl; [done|].
    intros w [Ht Ha Hn Hm]. split; cbn; [done..|]. intros HT Hmp. right. apply elem_of_app.
    right. by left.
Qed.

(** ** The invariant *)

Section system.
Context `{OsmoLib, StreamCliLib, RsproCodec, IpaBtsLib, Talloc, Pcsc}.

Record bankd_inv (T : Prop) (t : Z) (b : bankd) : Prop := {
  bi_conn : conn_inv t (srvc b);
  bi_maps : slotmaps_wf (bd_slotmaps b);
  bi_id : 0 ≤ srvc_bank_id (srvc_cfg (srvc b)) < 65536;
  bi_keys : bank_keys (srvc_cfg (srvc b)) (abs (bd_slotmaps b));
  bi_workers : Forall (worker_inv T (abs (bd_slotmaps b))) (workers b);
  bi_ki : ki_ok (bd_cfg b);
}.

Lemma bankd_inv_later T t t' b : bankd_inv T t b → t ≤ t' → bankd_inv T t' b.
Proof. intros [] ?. split; [by eapply conn_inv_later|done..]. Qed.

(** The events that can happen. *)
Definition be_possible (b : bankd) (v : bankd_event) : Prop :=
  match v with
  | BeServer v => cv_possible (srvc b) v
  | BeUsr1 => True
  | BeStart i => w_state <$> (workers b !! i) = Some BW_ST_INIT
  | BeAccept i _ => w_state <$> (workers b !! i) = Some BW_ST_ACCEPTING
  | BeSignal i => is_Some (workers b !! i)
  | BeWorker i _ _ _ =>
      is_Some (workers b !! i) ∧ w_state <$> (workers b !! i) ≠ Some BW_ST_INIT ∧
      w_state <$> (workers b !! i) ≠ Some BW_ST_ACCEPTING
  end.

#[export] Instance be_possible_dec b v : Decision (be_possible b v).
Proof. destruct v; cbn; apply _. Defined.

(** How an event may end the program. *)
Definition be_abort (e : srvc_env) (b : bankd) (v : bankd_event) (x : abort) : Prop :=
  match v, x with
  | BeServer v, _ => cv_abort e (srvc b) v x
  | BeWorker _ we _ _, APanic => ∃ m, write_res we m = None
  | BeWorker _ we _ inp, AUndef => oversized inp ∨ removed_meanwhile we = true
  | _, _ => False
  end.

Lemma thread_inv T t i b b' :
  bankd_inv T t b → thread i b (worker_inv T (abs (bd_slotmaps b))) b' → bankd_inv T t b'.
Proof.
  intros [Hc Hm Hid Hk Hw Hki] [[E1 E2 E3 E4 E5 E6 E7 E8] (w & Hwi & Hi)].
  split; rewrite ?E1, ?E2; [done..| |by apply E8]. apply Forall_lookup. intros j wj Hj.
  destruct (decide (j = i)) as [->|Hne]; [by assert (wj = w) as -> by congruence|].
  rewrite E6 in Hj by done. by apply (Forall_lookup_1 _ _ _ _ Hw Hj).
Qed.

Lemma thread_of T t i b w : bankd_inv T t b → workers b !! i = Some w →
  thread i b (worker_inv T (abs (bd_slotmaps b))) b.
Proof.
  intros Hi Hw. eapply thread_mono; [by apply thread_start|]. intros ? ->.
  by apply (Forall_lookup_1 _ _ _ _ (bi_workers _ _ _ Hi) Hw).
Qed.

Lemma wp_server_event T e v b :
  bankd_inv T (get_monotonic_ms e) b → cv_possible (srvc b) v → (T → slots_unique (workers b)) →
  wpe (cv_abort e (srvc b) v) (run_bankd_event e (BeServer v)) b
    (λ _, bankd_inv T (get_monotonic_ms e)).
Proof.
  intros [Hc Hm Hid Hk Hw Hki] Hpos Hu. cbn [run_bankd_event]. unfold bankd_fsm, CONN_DEPTH.
  replace b with (lset srvc_lens (srvc b) b) at 2 by (by destruct b).
  eapply (wp_conn_event srvc_lens e (conn_fsm srvc_lens e) (λ _, SrvcParent None None)
    (bd_fsm_S e) _ (same_rest b) (same_rest_lset b) 0 (bd_parent_ok _ b)) with (n := 0%nat);
    [lia|done|by destruct b|done|done| |].
  - intros c' w' Hc' Hcfg Hw'. rewrite Hw'. cbn [lset srvc_lens].
    split; cbn; rewrite ?Hcfg; done.
  - intros res m pdu _ Hdec. replace (lset srvc_lens (srvc b) b) with b by (by destruct b).
    apply wp_bd_handle_rx; [done|done|]. intros mem resp a ws b1 c' Hsp _ Hs Hc' Hresp.
    destruct (server_spec_inv T _ _ _ _ _ _ _ _ Hsp Hu Hid Hk Hw) as [Hk' Hw'].
    destruct Hs as [Hm' <- <- Hr].
    assert (srvc_bank_id (srvc_cfg c') = srvc_bank_id (srvc_cfg (srvc b))) as Hbid.
    { destruct resp; cbn in Hresp; [by subst|apply Hresp]. }
    split; cbn; [done|done|by rewrite Hbid| |done|by rewrite Hr].
    intros bs cs Hl. rewrite Hbid. by eapply Hk'.
Qed.

Lemma wp_bankd_event T e v b :
  bankd_inv T (get_monotonic_ms e) b → be_possible b v →
  (T → slots_unique (workers b)) →
  wpe (be_abort e b v) (run_bankd_event e v) b (λ _, bankd_inv T (get_monotonic_ms e)).
Proof.
  intros Hinv Hpos Hu.
  assert (∀ i, is_Some (workers b !! i) → ∃ w, workers b !! i = Some w ∧
    thread i b (worker_inv T (abs (bd_slotmaps b))) b) as Hth.
  { intros i [w Hw]. exists w. split; [done|]. by eapply thread_of. }
  destruct v as [v| |i|i rc|i|i we waits inp]; cbn [run_bankd_event be_possible] in *.
  - eapply wp_weaken; [by apply wp_server_event|]. done.
  - apply wp_signal_all. destruct Hinv as [Hc Hm Hid Hk Hw Hki]. split; cbn; [done..| |done].
    apply Forall_fmap. eapply Forall_impl; [done|]. intros w. apply worker_inv_signal.
  - destruct (Hth i) as (w & Hw & Ht). { destruct (workers b !! i); [by eexists|done]. }
    eapply wp_mono; [by apply (wp_main_start _ T)|]. intros [] b' Ht'. by eapply thread_inv.
  - destruct (Hth i) as (w & Hw & Ht). { destruct (workers b !! i); [by eexists|done]. }
    eapply wp_mono; [apply (wp_main_accept _ T i b)|].
    + eapply thread_mono; [by apply thread_start|]. intros ? ->. rewrite Hw in Hpos.
      split; [|by injection Hpos]. by apply (Forall_lookup_1 _ _ _ _ (bi_workers _ _ _ Hinv) Hw).
    + intros [] b' Ht'. by eapply thread_inv.
  - destruct (Hth i Hpos) as (w & Hw & Ht).
    eapply wp_mono; [by apply (wp_deliver_signal _ T)|]. intros [] b' Ht'. by eapply thread_inv.
  - destruct Hpos as [Hpos _]. destruct (Hth i Hpos) as (w & Hw & Ht).
    eapply wp_mono; [apply (wp_main_loop _ T we i b); [done|by right|apply Hinv|by left|apply Hinv|done]|].
    intros [] b' Ht'. by eapply thread_inv.
Qed.

(** ** Start of the program *)

Record starting (b : bankd) : Prop := {
  st_conn : conn_wf 0 (srvc b) ∧ srvc_conn (srvc b) = false;
  st_maps : bd_slotmaps b = slotmap_init;
  st_id : 0 ≤ srvc_bank_id (srvc_cfg (srvc b)) < 65536;
  st_workers : workers b = [];
  st_ki : next_slot_idx (ki_proxy (bd_cfg b)) = 0;
}.

Lemma starting_conn b g :
  starting b → 0 ≤ srvc_bank_id g < 65536 → starting (set_srvc (set_srvc_cfg g (srvc b)) b).
Proof. intros [[[] ?] ? ? ? ?] ?. by split; [split; [split|]|..]. Qed.

Lemma starting_cfg b c : starting b → next_slot_idx (ki_proxy c) = 0 → starting (set_bd_cfg c b).
Proof. intros [] ?. by split. Qed.

Lemma ki_ok_start c : next_slot_idx (ki_proxy c) = 0 → ki_ok c.
Proof.
  intros Hn. unfold ki_ok. rewrite Hn. destruct (proxy_slots (ki_proxy c)); [by left|right]. cbn. lia.
Qed.

Lemma wp_handle_option o b (Q : () → bankd → Prop) :
  starting b → (∀ b', starting b' → Q () b') → wlp (handle_option o) b Q.
Proof.
  intros Hs HQ. pose proof (λ z, wrap_range 16 z ltac:(done)) as H16.
  assert (∀ f, 0 ≤ srvc_bank_id (f (srvc_cfg (srvc b))) < 65536 → wlp (cfg_upd f) b Q) as Hcfg.
  { intros f Hf. apply wp_modify, HQ. by apply starting_conn. }
  assert (∀ f, next_slot_idx (ki_proxy (f (bd_cfg b))) = 0 → wlp (bcfg_upd f) b Q) as Hb.
  { intros f Hf. apply wp_modify, HQ. by apply starting_cfg. }
  pose proof (st_id _ Hs) as Hid. pose proof (st_ki _ Hs) as Hki.
  destruct o; cbn [handle_option]; try (by apply Hcfg); try (by apply Hb); try (by apply wp_panic);
    try (by apply wp_ret, HQ).
  - apply Hcfg. apply H16.
  - destruct (_ || _); [by apply wp_panic|by apply Hb].
  - destruct (parse_slots _ _) as [slots|]; [|by apply wp_panic].
    apply wp_when; intros Hne; [by apply Hb|by apply HQ].
  - destruct (str_split _ _) as [[x y]|]; [|by apply wp_panic].
    destruct (_ || _); [by apply wp_panic|by apply Hb].
Qed.

Lemma wp_handle_options opts b :
  starting b → wlp (handle_options opts) b (λ _, starting).
Proof. intros Hs. apply wp_for_each; [done|]. intros o b' _ Hs'. by apply wp_handle_option. Qed.

Lemma new_worker_inv T a i : worker_inv T a (new_worker i).
Proof. by split; [left|..]. Qed.

Lemma wp_create_workers se n T t b :
  bankd_inv T t b → wlp (create_workers se n) b (λ _, bankd_inv T t).
Proof.
  intros Hi. apply wp_for_each; [done|]. intros i b' _ Hi'. apply wp_bind. unfold bankd_create_worker.
  apply wp_bind, wp_when; intros Ht.
  - apply wp_modify, wp_ret. rewrite Ht. apply wp_ret. destruct Hi' as [Hc Hm Hid Hk Hw Hki].
    split; cbn; [done..| |done]. apply Forall_app. split; [done|].
    apply Forall_singleton, new_worker_inv.
  - apply wp_ret. rewrite Ht. by apply wp_panic.
Qed.

Lemma wp_read_slotnames se b (Q : () → bankd → Prop) :
  starting b → (∀ b', starting b' → Q () b') → wlp (read_slotnames se) b Q.
Proof.
  intros Hs HQ. unfold read_slotnames. destruct (csv_file se) as [evs|]; [|by apply wp_panic].
  apply wp_bind. destruct (bankd_pcsc_read_slotnames _ _ _);
    [|by apply wp_panic|by apply wp_undef|by apply wp_nofuel].
  apply wp_ret, wp_modify, HQ. by destruct Hs; split.
Qed.

Lemma wp_bankd_main T se e opts b :
  0 ≤ get_monotonic_ms e → wlp (bankd_main se e opts) b (λ _, bankd_inv T (get_monotonic_ms e)).
Proof.
  intros Ht. unfold bankd_main. apply wp_bind, wp_modify, wp_bind, wp_modify, wp_bind.
  eapply wp_mono; [apply wp_handle_options; by split; [split; [split; vm_compute|]|..]|].
  intros [] b1 Hs1. apply wp_bind, wp_gets. case_bool_decide; [by apply wp_panic|].
  apply wp_bind, wp_read_slotnames; [done|]. intros b2 [[Hwf Hc] Hm Hid Hw Hki].
  apply wp_bind. unfold server_conn_fsm_alloc. destruct (fsm_alloc_ok se); cbn [negb];
    [|by apply wp_ret, wp_panic].
  apply wp_bind, wp_modify, wp_bind, wp_modify, wp_bind, wp_modify, wp_ret.
  change (0 <? 0) with false. cbn iota. apply wp_bind.
  match goal with |- wpe _ _ ?b4 _ => set (b3 := b4) end.
  replace b3 with (lset srvc_lens (srvc b3) b3) by (by destruct b3).
  eapply (wp_establish srvc_lens e (conn_fsm srvc_lens e) (λ _, SrvcParent None None)
    (bd_fsm_S e) _ (same_rest b3) (same_rest_lset b3) 0 (bd_parent_ok _ b3)) with (n := 1%nat);
    [lia|done| |split; [by vm_compute|done|]|done|by destruct b3|].
  { unfold state_ok. cbn. by split. }
  { intros _. cbn. by apply Hwf. }
  intros c' b' [Hst Hc' Hcfg _] Hb'. rewrite Hb'. cbn [lset srvc_lens].
  apply wp_bind, wp_assert; [done|]. intros _. apply wp_bind, wp_gets.
  assert (bankd_inv T (get_monotonic_ms e) (set_srvc c' b3)) as Hi.
  { split; cbn; rewrite ?Hcfg, ?Hm; [done|apply wf_init|done| | |by apply ki_ok_start].
    - intros bs c Hl. done.
    - by rewrite Hw. }
  apply wp_bind, wp_when; intros _; [apply wp_assert; [done|]; intros _|]; by apply wp_create_workers.
Qed.

(** ** Runs *)

(** The states that the program reaches while a condition [C] holds whenever
    the main thread handles an event. *)
Inductive bankd_run (C : bankd → Prop) : Z → bankd → Prop :=
| br_main se e opts b0 b :
    0 ≤ get_monotonic_ms e → bankd_main se e opts b0 = Done ((), b) →
    bankd_run C (get_monotonic_ms e) b
| br_event t e v b b' :
    bankd_run C t b → t ≤ get_monotonic_ms e → be_possible b v → C b →
    run_bankd_event e v b = Done ((), b') → bankd_run C (get_monotonic_ms e) b'.

Definition bankd_reachable : Z → bankd → Prop := bankd_run (λ _, True).

Lemma bankd_run_inv T C t b :
  (∀ b, C b → T → slots_unique (workers b)) → bankd_run C t b → bankd_inv T t b.
Proof.
  intros HC. induction 1 as [se e opts b0 b Ht Hrun|t e v b b' Hr IH Hte Hpos Hb Hrun].
  - exact (wp_done_inv _ _ _ _ _ (wp_bankd_main T se e opts b0 Ht) Hrun).
  - refine (wp_done_inv _ _ _ _ _ (wp_bankd_event T e v b _ Hpos _) Hrun);
      [by eapply bankd_inv_later|auto].
Qed.
End system.
