(* ===== verification/BankdProps.v ===== *)
(** * Properties of remsim-bankd

    First the invariants and the absence of failures in all reachable states,
    then what the two kinds of threads do with the messages of the server and
    of the clients, the start-up, and concrete runs. *)

From S2P Require Import Prelude OsmoFsm Slotmap RsproPdu RsproUtil Ipa ClientConn Examples.
From S2P Require Import ConnInv BankdPcsc BankdMain BankdStart BankdInv BankdThread.
From S2P Require Import BankdSystem.

Section reachable.
Context `{OsmoLib, StreamCliLib, RsproCodec, IpaBtsLib, Talloc, Pcsc}.

(** C19. In every state remsim-bankd can reach, the connection to the server and
    the slot maps are consistent, every mapping belongs to the bank, a time-out
    is pending for a worker only while it waits for its mapping or its card,
    every ATR fits into its array, only workers with a named reader have an open
    card, and the Ki proxy's index is inside of its pool. *)
Theorem bankd_reachable_inv t b : bankd_reachable t b → bankd_inv False t b.
Proof. apply bankd_run_inv. done. Qed.








(** A request of the server as a run of the bankd, by its specification. *)
Lemma server_request_run t b e res m pdu resp a ws :
  bankd_reachable t b → t ≤ get_monotonic_ms e → talloc_total →
  0 < res → ipa_proto m = IPAC_PROTO_OSMO → ipa_proto_ext m = IPAC_PROTO_EXT_RSPRO →
  rspro_dec_msg (l2_data m) = Some pdu →
  server_spec true (srvc_cfg (srvc b)) (msg pdu) (abs (bd_slotmaps b)) (workers b) =
    (Some resp, a, ws) →
  ∃ b', run_bankd_event e (BeServer (CvRead res m)) b = Done ((), b') ∧
    abs (bd_slotmaps b') = a ∧ workers b' = ws ∧ slotmaps_wf (bd_slotmaps b') ∧
    srvc b' = with_sent resp (srvc b).
Proof.
  intros Hr Ht Htal Hres Hp Hpe Hdec Hspec.
  apply (bankd_run_inv False) in Hr as Hinv; [|done].
  apply (bankd_inv_later _ _ (get_monotonic_ms e)) in Hinv; [|done].
  enough (wp (run_bankd_event e (BeServer (CvRead res m))) b (λ _ b', abs (bd_slotmaps b') = a ∧
    workers b' = ws ∧ slotmaps_wf (bd_slotmaps b') ∧ srvc b' = with_sent resp (srvc b))) as Hwp.
  { apply wp_done in Hwp as ([] & b' & ? & ?). eauto. }
  cbn [run_bankd_event run_conn_event]. apply wp_bind. eapply wp_read_rspro; [done..|].
  apply wp_bd_handle_rx; [apply Hinv|apply Hinv|].
  intros mem resp' a' ws' b1 c' Hsp Hmem Hs Hc' Hresp. rewrite (Hmem Htal), Hspec in Hsp.
  injection Hsp as <- <- <-. cbn in Hresp. subst c'. apply wp_ret.
  destruct Hs as [Hwf Ha Hws _]. done.
Qed.

(** C17. The requests of the server refine operations on a partial injection of
    bank slots into client slots: the response, the new mappings and the signals
    to the workers are those of [server_spec].  A mapping is created unless bank
    or slot is wrong or the client slot is taken, replaces another mapping of
    the slot (which is lost even if the creation then fails), and is removed
    only by a request that names both sides; a worker is signalled for exactly
    the mapping that changed. *)
Theorem server_requests_refine t b e res m pdu resp a ws :
  bankd_reachable t b → t ≤ get_monotonic_ms e → talloc_total →
  0 < res → ipa_proto m = IPAC_PROTO_OSMO → ipa_proto_ext m = IPAC_PROTO_EXT_RSPRO →
  rspro_dec_msg (l2_data m) = Some pdu →
  server_spec true (srvc_cfg (srvc b)) (msg pdu) (abs (bd_slotmaps b)) (workers b) =
    (Some resp, a, ws) →
  ∃ b', run_bankd_event e (BeServer (CvRead res m)) b = Done ((), b') ∧
    abs (bd_slotmaps b') = a ∧ workers b' = ws ∧ slotmaps_wf (bd_slotmaps b') ∧
    srvc b' = with_sent resp (srvc b).
Proof. apply server_request_run. Qed.
End reachable.

(** ** Messages of the clients *)

(** A frame that one [recv] for the header and one for the body deliver. *)
Definition frame_part (proto : Z) (n : nat) (d : octets) : ipa_input :=
  let len := Z.of_nat n in
  IpaInput 0 (Some [Z.shiftr len 8; Z.land len 255; proto]) 0 (Some d).

Definition whole_frame (proto : Z) (d : octets) : ipa_input := frame_part proto (length d) d.

Lemma frame_part_len n :
  Z.of_nat n < 65536 → u16 (Z.lor (Z.shiftl (Z.shiftr (Z.of_nat n) 8) 8) (Z.land (Z.of_nat n) 255)) = Z.of_nat n.
Proof. intros Hn. change 255 with (Z.ones 8). rewrite lor_hi_lo by done. apply wrap_small. lia. Qed.

Section clients.
Context `{OsmoLib, StreamCliLib, RsproCodec, IpaBtsLib, Talloc, Pcsc}.

Lemma read_frame_part i proto n d b :
  Z.of_nat n < 65536 →
  blocking_ipa_read i BUF_SIZE (frame_part proto n d) b =
    if BUF_SIZE <? 3 + Z.of_nat (length (take n d)) then Undef
    else Done (if Z.of_nat (length (take n d)) <? Z.of_nat n then inl (- 3)
               else inr (proto, take n d), b).
Proof.
  intros Hn. unfold blocking_ipa_read. change (BUF_SIZE <? 3) with false. cbn iota.
  cbn [hdr_intr hdr_recv body_intr body_recv frame_part recv_restart].
  change (take (Z.to_nat 3) ?l) with l. unfold mbind, M_bind, mret, M_ret. cbn beta iota.
  rewrite frame_part_len, Nat2Z.id by done. by repeat case_match.
Qed.

(** C33. Reading a message of a client: a frame that arrives whole is read whole,
    a frame of which a [recv] delivers less than asked for (the end of the
    stream, but also a message split over two segments) is an error that ends
    the connection, and nothing is written past the end of the buffer unless
    more than 65533 bytes of a body are announced and arrive. *)
Theorem ipa_read_bounds t i b :
  bankd_reachable t b → is_Some (workers b !! i) →
  (∀ proto d, Z.of_nat (length d) ≤ BUF_SIZE - 3 →
     blocking_ipa_read i BUF_SIZE (whole_frame proto d) b = Done (inr (proto, d), b)) ∧
  (∀ proto n d, (length d < n)%nat → Z.of_nat n ≤ BUF_SIZE - 3 →
     blocking_ipa_read i BUF_SIZE (frame_part proto n d) b = Done (inl (- 3), b)) ∧
  (∀ h n r, (length h < 3)%nat →
     blocking_ipa_read i BUF_SIZE (IpaInput 0 (Some h) n r) b = Done (inl (- 2), b)) ∧
  (∀ inp, match blocking_ipa_read i BUF_SIZE inp b with
          | Done (x, _) => read_ok inp x
          | Undef => oversized inp
          | _ => False
          end).
Proof.
  intros Hr [w Hw].
  split; [|split; [|split]].
  - intros proto d Hd. unfold whole_frame.
    rewrite read_frame_part, firstn_all, Z.ltb_irrefl by (unfold BUF_SIZE in *; lia).
    destruct (Z.ltb_spec BUF_SIZE (3 + Z.of_nat (length d))); [unfold BUF_SIZE in *; lia|done].
  - intros proto n d Hd Hn. rewrite read_frame_part, take_ge by (unfold BUF_SIZE in *; lia).
    destruct (Z.ltb_spec BUF_SIZE (3 + Z.of_nat (length d))); [unfold BUF_SIZE in *; lia|].
    by destruct (Z.ltb_spec (Z.of_nat (length d)) (Z.of_nat n)); [|lia].
  - intros h n r Hh. destruct h as [|x [|y [|z h]]]; cbn in Hh; try lia; reflexivity.
  - intros inp. apply (bankd_run_inv False) in Hr as Hinv; [|done].
    assert (wpe (λ a, a = AUndef ∧ oversized inp) (blocking_ipa_read i BUF_SIZE inp) b
      (λ x _, read_ok inp x)) as Hwp.
    { eapply wp_mono; [apply (wp_ipa_read _ False i b); [done|by eapply thread_of]|]. by intros x b' []. }
    rewrite wpe_outcome in Hwp. destruct (blocking_ipa_read _ _ _ _) as [[x b']| | |];
      [done|by destruct Hwp..].
Qed.

(** A client message that carries a PDU. *)
Definition pdu_frame (d : octets) : ipa_input :=
  whole_frame IPAC_PROTO_OSMO (IPAC_PROTO_EXT_RSPRO :: d).

Definition fits (d : octets) : Prop := Z.of_nat (length d) < BUF_SIZE - 3.

Lemma rx_pdu_frame we i d pdu b :
  fits d → rspro_dec_msg d = Some pdu →
  worker_rx we i (pdu_frame d) b =
    (rc ← worker_handle_rspro we i pdu; mret (if rc <? 0 then rc else 0)) b.
Proof.
  intros Hd Hdec. unfold worker_rx, pdu_frame, whole_frame, fits in *.
  rewrite (mbind_done _ _ _ (inr (IPAC_PROTO_OSMO, IPAC_PROTO_EXT_RSPRO :: d)) b).
  - cbn [negb andb]. by rewrite Hdec.
  - rewrite read_frame_part, firstn_all, Z.ltb_irrefl by (unfold BUF_SIZE in *; cbn; lia).
    destruct (Z.ltb_spec BUF_SIZE (3 + Z.of_nat (length (IPAC_PROTO_EXT_RSPRO :: d)))) as [Hl|]; [|done].
    cbn in Hl. unfold BUF_SIZE in *. lia.
Qed.

Lemma loop_pdu we i d pdu b rc b' :
  fits d → rspro_dec_msg d = Some pdu → worker_handle_rspro we i pdu b = Done (rc, b') →
  worker_transceive_loop we i [WaitReady] (pdu_frame d) b =
    Done (Some (if rc <? 0 then rc else 0), b').
Proof.
  intros Hfit Hdec Hh. cbn [worker_transceive_loop].
  rewrite (mbind_done _ _ _ (if rc <? 0 then rc else 0) b'); [done|].
  rewrite (rx_pdu_frame _ _ _ pdu) by done. by rewrite (mbind_done _ _ _ _ _ Hh).
Qed.

(** What a worker requires of a TPDU. *)
Definition tpdu_accepted (w : bankd_worker) (from : ClientSlot_t) (to : BankSlot_t) : Prop :=
  w_state w = BW_ST_CONN_CLIENT_MAPPED_CARD ∧ w_slot w = rspro2bank_slot to ∧
  wc_clslot (w_client w) = rspro2client_slot from.

(** The whole effect of an accepted TPDU: the state of PC/SC, one response to the
    client, the trace. *)
Definition tpdu_done (i : nat) (s : scard) (m data rx : octets) (wanted : bool) (b : bankd) : bankd :=
  let b := set_bd_scard s b in
  let b := set_workers (alter (λ w, set_w_sent (w_sent w ++ [TxRspro m]) w) i (workers b)) b in
  if wanted then set_gsmtap_log (gsmtap_log b ++ [GsmtapPkt GSMTAP_SIM_APDU (data ++ rx)]) b else b.

Lemma tpdu_accepts we i w b from to data rc rx s m :
  workers b !! i = Some w → tpdu_accepted w from to →
  ki_intercepts (ki_proxy (bd_cfg b)) (bslot_nr (w_slot w)) data = false →
  SCardTransmit (hCard (w_reader w)) data RX_BUF_LEN (bd_scard b) = (rc, rx, s) →
  0 ≤ swrap 32 rc → rspro_enc_msg (rspro_gen_TpduCard2Modem to from rx) = Some m →
  write_res we (TxRspro m) = Some (Z.of_nat (length m) + 4) →
  wp (worker_handle_tpduModemToCard we i from to data) b (λ rc b', rc = 0 ∧
    b' = tpdu_done i s m data rx (gsmtap_wanted (bd_cfg b) (bslot_nr (w_slot w))) b).
Proof.
  intros Hw (Hst & Hsl & Hcl) Hki Htx Hrc Henc Hwr. unfold worker_handle_tpduModemToCard.
  apply wp_bind. eapply wp_worker_at; [done|]. unfold is_state.
  rewrite (bool_decide_eq_true_2 _ Hst), (proj2 (bank_slot_equals_eq _ _) Hsl),
    (proj2 (client_slot_equals_eq _ _) Hcl). cbn [negb].
  apply wp_bind, wp_gets, wp_bind. rewrite Hki. unfold pcsc_transceive.
  apply wp_bind. eapply wp_worker_at; [done|]. apply wp_bind. unfold pcsc_call.
  apply wp_bind, wp_gets. rewrite Htx. apply wp_bind, wp_modify, wp_ret, wp_ret.
  destruct (Z.ltb_spec (swrap 32 rc) 0); [lia|]. apply wp_bind.
  unfold worker_send_rspro. rewrite Henc, Hwr, Z.eqb_refl. apply wp_bind.
  eapply wp_worker_upd; [done|]. apply wp_ret, wp_bind. unfold tpdu_done.
  destruct (gsmtap_wanted _ _); [apply wp_modify|apply wp_ret]; by apply wp_ret.
Qed.

Lemma recycled we i rc waits inp b0 b w :
  workers b !! i = Some w → worker_transceive_loop we i waits inp b0 = Done (Some rc, b) → rc < 0 →
  wp (worker_main_loop we i waits inp) b0 (λ _ b', frame i b b' ∧ ∃ w',
    workers b' !! i = Some w' ∧ w_state w' = BW_ST_ACCEPTING ∧
    w_client w' = WorkerClient (- 1) (ClientSlot 0 0) ∧ reader_name (w_reader w') = None ∧
    w_slot w' = w_slot w ∧ w_sent w' = w_sent w).
Proof.
  intros Hw Hloop Hrc. apply wp_bind. eapply wp_run; [exact Hloop|]. cbn beta iota.
  apply wp_bind. eapply wp_worker_at; [done|]. rewrite (proj2 (Z.ltb_lt _ _) Hrc). cbn [orb when].
  unfold worker_main_recycle.
  set (R (w' : bankd_worker) := w_slot w' = w_slot w ∧ w_sent w' = w_sent w).
  assert (stable R) as HR by (intros w1 w2 [? ?] [_ _ E _ _ _ _ F _]; split; congruence).
  apply wp_bind. eapply (wp_th_upd _ _ _ _ R); [by apply thread_start|by intros ? ->|].
  intros b1 Ht1. apply wp_bind. eapply wp_mono; [by apply (wp_pcsc_cleanup _ i b R)|].
  intros [] b2 Ht2. apply wp_bind.
  eapply (wp_th_upd _ _ _ R (λ w', R w' ∧ reader_name (w_reader w') = None)); [exact Ht2|by intros ? []|].
  intros b3 Ht3. apply wp_bind.
  eapply (wp_th_upd _ _ _ _ (λ w', R w' ∧ reader_name (w_reader w') = None ∧
    w_client w' = WorkerClient (- 1) (ClientSlot 0 0))); [exact Ht3|by intros ? [[] ?]|].
  intros b4 Ht4. eapply (wp_th_upd _ _ _ _ (λ w', R w' ∧ reader_name (w_reader w') = None ∧
    w_client w' = WorkerClient (- 1) (ClientSlot 0 0) ∧ w_state w' = BW_ST_ACCEPTING));
    [exact Ht4|by intros ? ([] & ? & ?)|].
  intros b5 [Hf (w5 & Hw5 & [Hs Hx] & Hn & Hc & Hst)]. split; [done|]. by exists w5.
Qed.

Lemma tpdu_event b e we i w d pdu from to f data rc rx s m :
  workers b !! i = Some w → fits d → rspro_dec_msg d = Some pdu →
  msg pdu = PR_tpduModemToCard from to f data → tpdu_accepted w from to →
  ki_intercepts (ki_proxy (bd_cfg b)) (bslot_nr (w_slot w)) data = false →
  SCardTransmit (hCard (w_reader w)) data RX_BUF_LEN (bd_scard b) = (rc, rx, s) →
  0 ≤ swrap 32 rc → rspro_enc_msg (rspro_gen_TpduCard2Modem to from rx) = Some m →
  write_res we (TxRspro m) = Some (Z.of_nat (length m) + 4) →
  run_bankd_event e (BeWorker i we [WaitReady] (pdu_frame d)) b =
    Done ((), tpdu_done i s m data rx (gsmtap_wanted (bd_cfg b) (bslot_nr (w_slot w))) b).
Proof.
  intros Hw Hfit Hdec Hm Hacc Hki Htx Hrc Henc Hwr.
  pose proof (tpdu_accepts we i w b from to data rc rx s m Hw Hacc Hki Htx Hrc Henc Hwr) as Hwp.
  apply wp_done in Hwp as (rc' & b' & Hrun & -> & ->).
  assert (worker_handle_rspro we i pdu b = Done (0, tpdu_done i s m data rx
    (gsmtap_wanted (bd_cfg b) (bslot_nr (w_slot w))) b)) as Hh.
  { unfold worker_handle_rspro. by rewrite Hm. }
  assert (wp (worker_main_loop we i [WaitReady] (pdu_frame d)) b (λ _ b', b' =
    tpdu_done i s m data rx (gsmtap_wanted (bd_cfg b) (bslot_nr (w_slot w))) b)) as Hwp;
    [|by apply wp_done in Hwp as ([] & b' & Hrun' & ->)].
  apply wp_bind. eapply wp_run; [exact (loop_pdu we i d pdu b _ _ Hfit Hdec Hh)|]. change (0 <? 0) with false. cbn beta iota.
  apply wp_bind. eapply (wp_worker_at _ _ (set_w_sent (w_sent w ++ [TxRspro m]) w)).
  { unfold tpdu_done. destruct (gsmtap_wanted _ _); cbn; by rewrite list_lookup_alter_eq, Hw. }
  destruct Hacc as [Hst _]. unfold is_state. cbn. rewrite Hst. by apply wp_ret.
Qed.

(** ** Slot status *)

(** The reset an indication of the modem asks for, given the last levels: a cold
    one when VCC goes away, a warm one when RST becomes active. *)
Definition reset_edge (vcc rst : bool) (sps : SlotPhysStatus_t) : option bool :=
  match vccPresent sps with
  | Some 0 => if vcc then Some true else None
  | _ => if negb (resetActive sps =? 0) && negb rst then Some false else None
  end.

Definition new_levels (sps : SlotPhysStatus_t) (w : bankd_worker) : bankd_worker :=
  set_w_last match vccPresent sps with Some v => negb (v =? 0) | None => last_vccPresent w end
    (negb (resetActive sps =? 0)) w.

Definition on_worker (i : nat) (f : bankd_worker → bankd_worker) (b : bankd) : bankd :=
  set_workers (alter f i (workers b)) b.

Lemma slot_status_eq i w b sps :
  workers b !! i = Some w →
  worker_handle_clientSlotStatusInd i sps b =
    (rc ← match reset_edge (last_vccPresent w) (last_resetActive w) sps with
          | Some cold => pcsc_reset_card i cold
          | None => mret 0
          end;
     worker_upd i (new_levels sps) ;; mret rc) b.
Proof.
  intros Hw. unfold worker_handle_clientSlotStatusInd. etransitivity.
  { eapply (mbind_done (worker_at i)). unfold worker_at, mbind, M_bind, gets. by rewrite Hw. }
  unfold new_levels, reset_edge. destruct (vccPresent sps) as [[|v|v]|]; cbn [negb Z.eqb andb];
    destruct (negb (resetActive sps =? 0)), (last_vccPresent w), (last_resetActive w); reflexivity.
Qed.

Lemma worker_upd_levels i sps rc b : is_Some (workers b !! i) →
  (worker_upd i (new_levels sps) ;; mret rc : M bankd Z) b = Done (rc, on_worker i (new_levels sps) b).
Proof. intros [w1 Hw1]. unfold worker_upd, worker_at, mbind, M_bind, gets. by rewrite Hw1. Qed.

(** An indication that repeats the levels does nothing. *)
Lemma slot_status_repeat i sps w b :
  workers b !! i = Some (new_levels sps w) → worker_handle_clientSlotStatusInd i sps b = Done (0, b).
Proof.
  intros Hw. rewrite (slot_status_eq _ _ _ _ Hw).
  assert (reset_edge (last_vccPresent (new_levels sps w)) (last_resetActive (new_levels sps w)) sps
    = None) as ->.
  { unfold reset_edge, new_levels. cbn. rewrite andb_negb_r. by destruct (vccPresent sps) as [[]|]. }
  change ((worker_upd i (new_levels sps) ;; mret 0 : M bankd Z) b = Done (0, b)).
  rewrite worker_upd_levels by (by eexists). unfold on_worker.
  rewrite (list_alter_same _ _ _ _ Hw); [by rewrite set_workers_id|].
  unfold new_levels. destruct w; cbn. by destruct (vccPresent sps).
Qed.

(** Resets follow the edges of the levels the modem reports: a card is reset
    (cold) when VCC disappears and (warm) when RST becomes active with VCC not
    absent, and by nothing else; the levels are remembered, so that an
    indication that repeats them does nothing.  A worker starts as if VCC had
    been present and RST inactive. *)
Theorem slot_status_edges i w b sps :
  workers b !! i = Some w →
  (reset_edge (last_vccPresent w) (last_resetActive w) sps = None →
     worker_handle_clientSlotStatusInd i sps b = Done (0, on_worker i (new_levels sps) b)) ∧
  (∀ cold rc b', reset_edge (last_vccPresent w) (last_resetActive w) sps = Some cold →
     pcsc_reset_card i cold b = Done (rc, b') → is_Some (workers b' !! i) →
     worker_handle_clientSlotStatusInd i sps b = Done (rc, on_worker i (new_levels sps) b')) ∧
  (∀ b' w', workers b' !! i = Some (new_levels sps w') →
     worker_handle_clientSlotStatusInd i sps b' = Done (0, b')) ∧
  (∀ n, last_vccPresent (new_worker n) = true ∧ last_resetActive (new_worker n) = false).
Proof.
  intros Hw. split; [|split; [|split]]; [| | |done].
  - intros Hn. rewrite (slot_status_eq _ _ _ _ Hw), Hn. apply worker_upd_levels. by eexists.
  - intros cold rc b' Hc Hr Hb'. rewrite (slot_status_eq _ _ _ _ Hw), Hc.
    rewrite (mbind_done _ _ _ _ _ Hr). by apply worker_upd_levels.
  - intros b' w'. apply slot_status_repeat.
Qed.
End clients.

(** ** Ki proxy *)

Section ki.
Context `{OsmoLib, StreamCliLib, RsproCodec, IpaBtsLib, Talloc, Pcsc}.

Abbreviation num b := (srvc_num_slots (srvc_cfg (srvc b))).
Abbreviation pool b := (proxy_slots (ki_proxy (bd_cfg b))).
Abbreviation next b := (next_slot_idx (ki_proxy (bd_cfg b))).

(** The [k]-th slot of the pool from the present index on, cyclically. *)
Definition pool_slot (b : bankd) (k : Z) : option Z :=
  pool b !! Z.to_nat ((next b + k) `mod` Z.of_nat (length (pool b))).

(** What a selection among [n] slots finds: the first one that exists. *)
Definition selected (n : nat) (b : bankd) (r : option Z) (b' : bankd) : Prop :=
  workers b' = workers b ∧ bd_scard b' = bd_scard b ∧ pool b' = pool b ∧ num b' = num b ∧
  match r with
  | Some s => ∃ k, 0 ≤ k < Z.of_nat n ∧ pool_slot b k = Some s ∧ s < num b ∧
      (∀ j s', 0 ≤ j < k → pool_slot b j = Some s' → num b ≤ s') ∧
      next b' = (next b + k + 1) `mod` Z.of_nat (length (pool b))
  | None => ∀ j s', 0 ≤ j < Z.of_nat n → pool_slot b j = Some s' → num b ≤ s'
  end.

Lemma wp_select {E} n b :
  0 ≤ next b < Z.of_nat (length (pool b)) →
  wpe E (select_proxy_slot n) b (selected n b).
Proof.
  revert b. induction n as [|n IH]; intros b Hn; cbn [select_proxy_slot].
  { apply wp_ret. repeat split; [done..|]. intros j s' Hj. lia. }
  apply wp_bind, wp_gets, wp_bind. destruct (Z.ltb_spec (next b) 0); [lia|].
  apply wp_deref; [intros ?%lookup_ge_None; lia|]. intros s Hs.
  apply wp_bind, wp_modify, wp_bind, wp_gets. cbn beta.
  match goal with |- wpe _ _ ?x _ => set (b1 := x) end.
  assert (pool_slot b 0 = Some s) as Hs0.
  { unfold pool_slot. rewrite Z.add_0_r, Z.mod_small by done. done. }
  assert (next b1 = (next b + 1) `mod` Z.of_nat (length (pool b))) as Hnext by done.
  assert (∀ k, pool_slot b1 k = pool_slot b (k + 1)) as Hshift.
  { intros k. unfold pool_slot. rewrite Hnext. change (pool b1) with (pool b).
    rewrite Zplus_mod_idemp_l. do 3 f_equal. lia. }
  change (num b1) with (num b). destruct (Z.leb_spec (num b) s) as [Hle|Hlt].
  - eapply wp_mono.
    { apply IH. rewrite Hnext. change (pool b1) with (pool b). apply Z.mod_pos_bound. lia. }
    intros r b2 (E1 & E2 & E3 & E4 & Hr). do 4 (split; [done|]).
    change (num b1) with (num b) in Hr. change (pool b1) with (pool b) in Hr.
    assert (∀ m, (∀ j s', 0 ≤ j < m → pool_slot b1 j = Some s' → num b ≤ s') →
      ∀ j s', 0 ≤ j < m + 1 → pool_slot b j = Some s' → num b ≤ s') as Hext.
    { intros m Hm j s' Hj Hjs. destruct (decide (j = 0)) as [->|]; [by simplify_eq|].
      apply (Hm (j - 1)); [lia|]. rewrite Hshift. by replace (j - 1 + 1) with j by lia. }
    destruct r as [s'|].
    + destruct Hr as (k & Hk & Hks & Hlt & Hbefore & Hnx). exists (k + 1). split; [lia|].
      rewrite <-Hshift. split; [done|]. split; [done|]. split; [by apply Hext|].
      rewrite Hnx, Hnext. rewrite <-Z.add_assoc, Zplus_mod_idemp_l. f_equal. lia.
    + intros j s' Hj. apply (Hext (Z.of_nat n)); [done|lia].
  - apply wp_ret. do 4 (split; [done|]). exists 0. split; [lia|]. split; [done|]. split; [done|].
    split; [intros; lia|]. rewrite Hnext. f_equal. lia.
Qed.

(** Every slot of the pool is reached within one round. *)
Lemma pool_slot_surj b i s :
  0 ≤ next b < Z.of_nat (length (pool b)) → pool b !! i = Some s →
  ∃ k, 0 ≤ k < Z.of_nat (length (pool b)) ∧ pool_slot b k = Some s.
Proof.
  intros Hn Hi. pose proof (lookup_lt_Some _ _ _ Hi) as Hlt.
  set (L := Z.of_nat (length (pool b))) in *. exists ((Z.of_nat i - next b) `mod` L).
  split; [apply Z.mod_pos_bound; lia|]. unfold pool_slot. fold L.
  rewrite Zplus_mod_idemp_r. replace (next b + (Z.of_nat i - next b)) with (Z.of_nat i) by lia.
  rewrite Z.mod_small by lia. by rewrite Nat2Z.id.
Qed.

(** The Ki proxy selects round-robin: in every reachable state with a pool,
    the selection ends with the first slot that exists, counted cyclically from
    where the previous selection stopped, and moves on behind it; it fails
    exactly if no slot of the pool exists. *)
Theorem ki_selection t b :
  bankd_reachable t b → pool b ≠ [] →
  ∃ r b', select_proxy_slot (length (pool b)) b = Done (r, b') ∧
    selected (length (pool b)) b r b' ∧
    (r = None ↔ Forall (λ s, num b ≤ s) (pool b)).
Proof.
  intros Hr Hne. pose proof (bankd_run_inv False _ _ _ (λ _ _, False_ind _) Hr) as Hinv.
  destruct (bi_ki _ _ _ Hinv) as [?|Hn]; [done|].
  pose proof (wp_select (E:=no_abort) (length (pool b)) b Hn) as Hwp.
  apply wp_done in Hwp as (r & b' & Hrun & Hsel). exists r, b'. split; [done|]. split; [done|].
  destruct Hsel as (_ & _ & _ & _ & Hsel). split.
  - intros ->. apply Forall_lookup. intros i s Hi.
    destruct (pool_slot_surj b i s Hn Hi) as (k & Hk & Hks). by eapply Hsel.
  - intros Hall. destruct r as [s|]; [|done]. destruct Hsel as (k & Hk & Hks & Hlt & _).
    pose proof (Forall_lookup_1 _ _ _ _ Hall Hks) as Hge. cbn beta in Hge. lia.
Qed.

(** ** Which card a TPDU reaches *)

(** The slot that the Ki proxy selects. *)
Definition proxy_choice (b : bankd) (r : option Z) (b' : bankd) : Prop :=
  if decide (pool b = []) then
    b' = b ∧ r = (if num b <=? proxy_slot (ki_proxy (bd_cfg b)) then None
                  else Some (proxy_slot (ki_proxy (bd_cfg b))))
  else selected (length (pool b)) b r b'.

Definition first_worker (P : bankd_worker → bool) (ws : list bankd_worker) : option nat :=
  option_map fst (list_find P ws).

(** The first worker with an open card that holds this slot of the bank. *)
Definition proxy_worker (b : bankd) (w : bankd_worker) (s : Z) : option nat :=
  first_worker (λ w', bank_slot_equals (w_slot w') (BankSlot (bank_id (w_slot w)) (u16 s)) &&
                      is_state BW_ST_CONN_CLIENT_MAPPED_CARD w') (workers b).

(** The card to which an accepted TPDU of worker [i] is transmitted, if any, and
    the state then: that of the worker itself, unless the Ki proxy takes the
    TPDU, which then goes to the card of the worker that serves the selected
    slot, and nowhere if there is none or it is [i] itself. *)
Inductive tpdu_route (b : bankd) (i : nat) (w : bankd_worker) (data : octets) : bankd → option Z → Prop :=
| route_own :
    ki_intercepts (ki_proxy (bd_cfg b)) (bslot_nr (w_slot w)) data = false →
    tpdu_route b i w data b (Some (hCard (w_reader w)))
| route_proxy b' s j wj :
    ki_intercepts (ki_proxy (bd_cfg b)) (bslot_nr (w_slot w)) data = true →
    proxy_choice b (Some s) b' → proxy_worker b w s = Some j → j ≠ i → workers b !! j = Some wj →
    tpdu_route b i w data b' (Some (hCard (w_reader wj)))
| route_nowhere b' r :
    ki_intercepts (ki_proxy (bd_cfg b)) (bslot_nr (w_slot w)) data = true →
    proxy_choice b r b' → (∀ s, r = Some s → proxy_worker b w s = None ∨ proxy_worker b w s = Some i) →
    tpdu_route b i w data b' None.

(** The client is disconnected and the worker waits for the next one; it keeps
    the number of its last slot. *)
Definition disconnected (i : nat) (w : bankd_worker) (b1 : bankd) (r : outcome (() * bankd)) : Prop :=
  ∃ b' w', r = Done ((), b') ∧ frame i b1 b' ∧ workers b' !! i = Some w' ∧
    w_state w' = BW_ST_ACCEPTING ∧ w_client w' = WorkerClient (- 1) (ClientSlot 0 0) ∧
    reader_name (w_reader w') = None ∧ w_slot w' = w_slot w ∧ w_sent w' = w_sent w.

(** A response that was not delivered. *)
Definition tpdu_lost (s : scard) (data rx : octets) (wanted : bool) (b : bankd) : bankd :=
  let b := set_bd_scard s b in
  if wanted then set_gsmtap_log (gsmtap_log b ++ [GsmtapPkt GSMTAP_SIM_APDU (data ++ rx)]) b else b.

(** The response of the card goes to the client, once: it is lost if it cannot be
    encoded or is not written as a whole, and the program ends if the client has
    closed the connection. *)
Definition answered (we : worker_env) (i : nat) (from : ClientSlot_t) (to : BankSlot_t) (data rx : octets)
    (s : scard) (wanted : bool) (b : bankd) : outcome (() * bankd) :=
  match rspro_enc_msg (rspro_gen_TpduCard2Modem to from rx) with
  | None => Done ((), tpdu_lost s data rx wanted b)
  | Some m =>
      match write_res we (TxRspro m) with
      | None => Panic
      | Some n => Done ((), if n =? Z.of_nat (length m) + 4 then tpdu_done i s m data rx wanted b
                            else tpdu_lost s data rx wanted b)
      end
  end.

Lemma transceive_eq j wj data n b :
  workers b !! j = Some wj →
  pcsc_transceive j data n b =
    let '(rc, rx, s) := SCardTransmit (hCard (w_reader wj)) data n (bd_scard b) in
    Done ((swrap 32 rc, rx), set_bd_scard s b).
Proof.
  intros Hj. unfold pcsc_transceive, worker_at, pcsc_call, mbind, M_bind, gets, deref, mret, M_ret.
  rewrite Hj. by destruct (SCardTransmit _ _ _ _) as [[rc rx] s].
Qed.

(** The part of the handler that chooses the card and transmits. *)
Lemma routed t i w b data :
  bankd_inv False t b → workers b !! i = Some w →
  ∃ b1 h, tpdu_route b i w data b1 h ∧ frame i b b1 ∧ workers b1 = workers b ∧ bd_scard b1 = bd_scard b ∧
    (if ki_intercepts (ki_proxy (bd_cfg b)) (bslot_nr (w_slot w)) data
     then worker_handle_ki_proxy i data RX_BUF_LEN else pcsc_transceive i data RX_BUF_LEN) b =
    match h with
    | None => Done ((- 1, []), b1)
    | Some h => let '(rc, rx, s) := SCardTransmit h data RX_BUF_LEN (bd_scard b) in
                Done ((swrap 32 rc, rx), set_bd_scard s b1)
    end.
Proof.
  intros Hinv Hw. pose proof (bi_ki _ _ _ Hinv) as Hki. destruct (ki_intercepts _ _ _) eqn:Hint.
  2:{ exists b, (Some (hCard (w_reader w))). split; [by apply route_own|]. split; [apply frame_refl|].
      split; [done|]. split; [done|]. by apply transceive_eq. }
  assert (data ≠ []) as Hne.
  { intros ->. unfold ki_intercepts in Hint. by destruct (ki_enabled _). }
  assert (∃ r b1, (if bool_decide (pool b = []) then
      mret (if num b <=? proxy_slot (ki_proxy (bd_cfg b)) then None else Some (proxy_slot (ki_proxy (bd_cfg b))))
      else select_proxy_slot (length (pool b))) b = Done (r, b1) ∧
    proxy_choice b r b1 ∧ frame i b b1 ∧ workers b1 = workers b ∧ bd_scard b1 = bd_scard b) as
    (r & b1 & Hsel & Hch & Hf & Hws & Hsc).
  { unfold proxy_choice. case_bool_decide as Hp.
    - eexists _, b. split; [reflexivity|]. split; [by destruct (decide _)|]. split; [apply frame_refl|done].
    - pose proof Hki as [?|Hn]; [done|].
      assert (wp (select_proxy_slot (length (pool b))) b (λ r b1, selected (length (pool b)) b r b1 ∧
        frame i b b1)) as Hwp.
      { apply wp_and; [by apply wp_select|].
        eapply wp_mono; [apply (wp_select_proxy _ False i b); [done|done|by eapply thread_of]|].
        by intros r b1 []. }
      apply wp_done in Hwp as (r & b1 & Hrun & Hs & Hf). exists r, b1. split; [done|].
      split; [by destruct (decide _)|]. split; [done|]. by destruct Hs as (? & ? & _). }
  unfold worker_handle_ki_proxy. rewrite bool_decide_false by done.
  rewrite (mbind_done _ _ _ (bd_cfg b) b) by done. rewrite (mbind_done _ _ _ (num b) b) by done.
  rewrite (mbind_done _ _ _ r b1) by exact Hsel.
  assert (∀ s, r = Some s → (w' ← worker_at i;
      p ← find_worker (λ w1, bank_slot_equals (w_slot w1) (BankSlot (bank_id (w_slot w')) (u16 s)) &&
                             is_state BW_ST_CONN_CLIENT_MAPPED_CARD w1);
      match p with
      | None => mret (- 1, [])
      | Some j => if (j =? i)%nat then mret (- 1, []) else pcsc_transceive j data RX_BUF_LEN
      end) b1 =
    match proxy_worker b w s with
    | None => Done ((- 1, []), b1)
    | Some j => if (j =? i)%nat then Done ((- 1, []), b1) else pcsc_transceive j data RX_BUF_LEN b1
    end) as Hrest.
  { intros s _. unfold proxy_worker. set (P := λ w', _ && _).
    rewrite (mbind_done _ _ _ w b1); [|unfold worker_at, mbind, M_bind, gets; by rewrite Hws, Hw].
    rewrite (mbind_done _ _ _ (first_worker P (workers b)) b1); [|unfold find_worker, gets; by rewrite Hws].
    destruct (first_worker P (workers b)) as [j|];
      [by destruct (j =? i)%nat|done]. }
  destruct r as [s|].
  2:{ exists b1, None. split; [by eapply route_nowhere|done]. }
  rewrite (Hrest s eq_refl). destruct (proxy_worker b w s) as [j|] eqn:Hpw.
  2:{ exists b1, None. split; [|done]. eapply route_nowhere; [done..|]. intros ? [= <-]. by left. }
  destruct (Nat.eqb_spec j i) as [->|Hji].
  { exists b1, None. split; [|done]. eapply route_nowhere; [done..|]. intros ? [= <-]. by right. }
  assert (∃ wj, workers b !! j = Some wj) as [wj Hj].
  { unfold proxy_worker, first_worker in Hpw. destruct (list_find _ _) as [[j' wj]|] eqn:Hfi; [|done]. injection Hpw as ->.
    apply list_find_Some in Hfi as [? _]. by eexists. }
  exists b1, (Some (hCard (w_reader wj))). split; [by eapply route_proxy|]. split; [done|]. split; [done|].
  split; [done|]. rewrite <-Hsc. apply transceive_eq. by rewrite Hws.
Qed.

(** The handler behind its checks. *)
Lemma accepted_eq we i w b from to data :
  workers b !! i = Some w → tpdu_accepted w from to →
  worker_handle_tpduModemToCard we i from to data b =
    (res ← (if ki_intercepts (ki_proxy (bd_cfg b)) (bslot_nr (w_slot w)) data
            then worker_handle_ki_proxy i data RX_BUF_LEN else pcsc_transceive i data RX_BUF_LEN);
     let '(rc, rx) := res in
     if rc <? 0 then mret rc
     else
       worker_send_rspro we i (rspro_gen_TpduCard2Modem to from rx) ;;
       when (gsmtap_wanted (bd_cfg b) (bslot_nr (w_slot w)))
         (bankd_gsmtap_send_apdu GSMTAP_SIM_APDU data rx) ;;
       mret 0) b.
Proof.
  intros Hw (Hst & Hsl & Hcl). unfold worker_handle_tpduModemToCard.
  rewrite (mbind_done _ _ _ w b).
  2:{ unfold worker_at, mbind, M_bind, gets. by rewrite Hw. }
  unfold is_state. rewrite (bool_decide_eq_true_2 _ Hst), (proj2 (bank_slot_equals_eq _ _) Hsl),
    (proj2 (client_slot_equals_eq _ _) Hcl). cbn [negb].
  by rewrite (mbind_done _ _ _ (bd_cfg b) b).
Qed.

Lemma answer_eq we i w b from to data rx s wanted :
  workers b !! i = Some w →
  (worker_send_rspro we i (rspro_gen_TpduCard2Modem to from rx) ;;
   when wanted (bankd_gsmtap_send_apdu GSMTAP_SIM_APDU data rx) ;; mret 0) (set_bd_scard s b) =
  match answered we i from to data rx s wanted b with
  | Done (_, b') => Done (0, b')
  | Panic => Panic | Undef => Undef | NoFuel => NoFuel
  end.
Proof.
  intros Hw. unfold answered, worker_send_rspro, tpdu_lost, tpdu_done.
  destruct (rspro_enc_msg _) as [m|]; [|by destruct wanted].
  destruct (write_res we (TxRspro m)) as [n|]; [|done].
  destruct (n =? _); [|by destruct wanted].
  unfold worker_upd, worker_at, mbind, M_bind, gets, deref, mret, M_ret, modify. cbn [workers set_bd_scard].
  rewrite Hw. by destruct wanted.
Qed.

(** The rest of the event after an answer. *)
Lemma answered_run we i w b b1 d pdu e from to data rx s wanted :
  workers b1 !! i = Some w → w_state w = BW_ST_CONN_CLIENT_MAPPED_CARD →
  fits d → rspro_dec_msg d = Some pdu →
  worker_handle_rspro we i pdu b =
    match answered we i from to data rx s wanted b1 with
    | Done (_, b') => Done (0, b')
    | Panic => Panic | Undef => Undef | NoFuel => NoFuel
    end →
  run_bankd_event e (BeWorker i we [WaitReady] (pdu_frame d)) b = answered we i from to data rx s wanted b1.
Proof.
  intros Hw Hst Hfit Hdec Hh. cbn [run_bankd_event].
  assert (∀ b', answered we i from to data rx s wanted b1 = Done ((), b') →
    ∃ w', workers b' !! i = Some w' ∧ w_state w' = BW_ST_CONN_CLIENT_MAPPED_CARD) as Hkeep.
  { intros b'. unfold answered, tpdu_lost, tpdu_done. destruct (rspro_enc_msg _) as [m|].
    - destruct (write_res _ _) as [n|]; [|done]. intros [= <-].
      destruct (n =? _), wanted; cbn; rewrite ?list_lookup_alter_eq, Hw; eexists; split; reflexivity || done.
    - intros [= <-]. destruct wanted; cbn; eauto. }
  destruct (answered we i from to data rx s wanted b1) as [[[] b']| | |] eqn:Ha.
  - destruct (Hkeep b' eq_refl) as (w' & Hw' & Hst').
    unfold worker_main_loop. rewrite (mbind_done _ _ _ _ _ (loop_pdu we i d pdu b _ _ Hfit Hdec Hh)).
    change (0 <? 0) with false. cbn beta iota. rewrite (mbind_done _ _ _ w' b').
    + unfold is_state. rewrite Hst'. done.
    + unfold worker_at, mbind, M_bind, gets. by rewrite Hw'.
  - unfold worker_main_loop. cbn [worker_transceive_loop]. unfold mbind, M_bind.
    pose proof (rx_pdu_frame we i d pdu b Hfit Hdec) as Hrx. unfold mbind, M_bind in Hrx. by rewrite Hrx, Hh.
  - unfold worker_main_loop. cbn [worker_transceive_loop]. unfold mbind, M_bind.
    pose proof (rx_pdu_frame we i d pdu b Hfit Hdec) as Hrx. unfold mbind, M_bind in Hrx. by rewrite Hrx, Hh.
  - unfold worker_main_loop. cbn [worker_transceive_loop]. unfold mbind, M_bind.
    pose proof (rx_pdu_frame we i d pdu b Hfit Hdec) as Hrx. unfold mbind, M_bind in Hrx. by rewrite Hrx, Hh.
Qed.

Lemma refused_code we i w b from to data :
  workers b !! i = Some w → ¬ tpdu_accepted w from to →
  ∃ rc, rc < 0 ∧ rc ∈ [- 104; - 105; - 106] ∧ worker_handle_tpduModemToCard we i from to data b = Done (rc, b).
Proof.
  intros Hw Hno. unfold worker_handle_tpduModemToCard, worker_at.
  unfold mbind, M_bind, gets. rewrite Hw. unfold deref, mret, M_ret, is_state. unfold tpdu_accepted in Hno.
  case_bool_decide as Hst; [|exists (- 104); split; [lia|]; split; [set_solver|done]]. cbn [negb].
  destruct (bank_slot_equals _ _) eqn:Hsl; [|exists (- 105); split; [lia|]; split; [set_solver|done]].
  cbn [negb]. destruct (client_slot_equals _ _) eqn:Hcl;
    [|exists (- 106); split; [lia|]; split; [set_solver|done]].
  apply bank_slot_equals_eq in Hsl. apply client_slot_equals_eq in Hcl. by destruct Hno.
Qed.

(** C18. What becomes of a TPDU of a client, in every case.  If the worker has
    opened a card and both slots of the message are the worker's, the TPDU is
    transmitted at most once: to the card of this worker, or, if the Ki proxy
    takes it, to the card of the worker that serves the selected slot of the
    pool ([tpdu_route]; nowhere if there is none).  When the card answers, the
    response goes back to this client with the two slots exchanged, and nothing
    else changes but the trace and the index of the Ki proxy; when no card is
    found or the transmission fails, the client is disconnected.  If the worker
    has no open card or one of the slots is not its own, no card is touched and
    the client is disconnected; its worker keeps the number of its last slot. *)
Theorem tpdu_relayed_or_refused t b e we i w d pdu from to f data :
  bankd_reachable t b → workers b !! i = Some w → fits d → rspro_dec_msg d = Some pdu →
  msg pdu = PR_tpduModemToCard from to f data →
  let run := run_bankd_event e (BeWorker i we [WaitReady] (pdu_frame d)) b in
  (tpdu_accepted w from to →
     ∃ b1 h, tpdu_route b i w data b1 h ∧
       frame i b b1 ∧ workers b1 = workers b ∧ bd_scard b1 = bd_scard b ∧
       match h with
       | None => disconnected i w b1 run
       | Some h =>
           let '(rc, rx, s) := SCardTransmit h data RX_BUF_LEN (bd_scard b) in
           if swrap 32 rc <? 0 then disconnected i w (set_bd_scard s b1) run
           else run = answered we i from to data rx s (gsmtap_wanted (bd_cfg b) (bslot_nr (w_slot w))) b1
       end) ∧
  (¬ tpdu_accepted w from to →
     (∃ rc, rc ∈ [- 104; - 105; - 106] ∧ worker_handle_rspro we i pdu b = Done (rc, b)) ∧
     disconnected i w b run).
Proof.
  intros Hr Hw Hfit Hdec Hm run.
  pose proof (bankd_run_inv False _ _ _ (λ _ _, False_ind _) Hr) as Hinv.
  assert (∀ rc b1, rc < 0 → workers b1 !! i = Some w → worker_handle_rspro we i pdu b = Done (rc, b1) →
    disconnected i w b1 run) as Hdis.
  { intros rc b1 Hrc Hw1 Hh. pose proof (loop_pdu we i d pdu b _ _ Hfit Hdec Hh) as Hloop.
    rewrite (proj2 (Z.ltb_lt _ _) Hrc) in Hloop.
    pose proof (recycled we i rc _ _ b b1 w Hw1 Hloop Hrc) as Hwp.
    apply wp_done in Hwp as ([] & b' & Hrun & Hf & w' & Hrest). exists b', w'. by split. }
  assert (worker_handle_rspro we i pdu b = worker_handle_tpduModemToCard we i from to data b) as Hh
    by (unfold worker_handle_rspro; by rewrite Hm). split.
  - intros Hacc. rewrite (accepted_eq we i w b) in Hh by done.
    destruct (routed t i w b data Hinv Hw) as (b1 & h & Hroute & Hf & Hws & Hsc & Hrun).
    exists b1, h. do 4 (split; [done|]). unfold mbind, M_bind in Hh. rewrite Hrun in Hh. destruct h as [h|].
    2:{ apply (Hdis (- 1)); [lia|by rewrite Hws|exact Hh]. }
    destruct (SCardTransmit h data RX_BUF_LEN (bd_scard b)) as [[rc rx] s].
    destruct (Z.ltb_spec (swrap 32 rc) 0) as [Hneg|Hpos].
    { apply (Hdis (swrap 32 rc)); [lia|by cbn; rewrite Hws|]. by rewrite Hh. }
    apply (answered_run we i w b b1 d pdu); [by rewrite Hws|apply Hacc|done|done|]. rewrite Hh. apply (answer_eq we i w). by rewrite Hws.
  - intros Hno. destruct (refused_code we i w b from to data Hw Hno) as (rc & Hrc & Hin & Hcode).
    rewrite <-Hh in Hcode. split; [by exists rc|]. by apply (Hdis rc).
Qed.
End ki.

(** ** Start-up *)

(** The options never fill more than the 1024 elements of the array of slots,
    and every slot of the pool of the Ki proxy is between 0 and 1023. *)
Theorem proxy_slots_bounds tokens slots :
  parse_slots tokens [] = Some slots →
  (length slots ≤ MAX_PROXY_SLOTS)%nat ∧ Forall (λ s, 0 ≤ s ≤ 1023) slots.
Proof.
  assert (∀ tokens temp slots, parse_slots tokens temp = Some slots →
    (length temp ≤ MAX_PROXY_SLOTS)%nat → Forall (λ s, 0 ≤ s ≤ 1023) temp →
    (length slots ≤ MAX_PROXY_SLOTS)%nat ∧ Forall (λ s, 0 ≤ s ≤ 1023) slots) as Hgen.
  { clear. intros tokens. induction tokens as [|tok tokens IH]; intros temp slots Hp Hl Hf;
      cbn [parse_slots] in Hp; [by simplify_eq|].
    destruct (Nat.ltb_spec (length temp) MAX_PROXY_SLOTS); [|by simplify_eq].
    destruct (add_slots tok temp) as [temp'|] eqn:Ha; [|done]. apply (IH _ _ Hp); unfold add_slots in Ha.
    - destruct (str_split DASH tok) as [[x y]|].
      + destruct (_ || _); [done|]. injection Ha as <-. rewrite length_app, length_take. lia.
      + destruct (_ || _); [done|]. injection Ha as <-. rewrite length_app. cbn. lia.
    - destruct (str_split DASH tok) as [[x y]|].
      + destruct ((atoi x <? 0) || (1023 <? atoi y) || (atoi y <? atoi x)) eqn:Hc; [done|].
        apply orb_false_iff in Hc as [[Hx Hy]%orb_false_iff Hxy]. injection Ha as <-.
        apply Forall_app. split; [done|]. apply Forall_take, Forall_seqZ. intros z Hz. lia.
      + destruct ((atoi tok <? 0) || (1023 <? atoi tok)) eqn:Hc; [done|].
        apply orb_false_iff in Hc as [Hx Hy]. injection Ha as <-.
        apply Forall_app. split; [done|]. apply Forall_singleton. lia. }
  intros Hp. apply (Hgen tokens [] slots Hp); [cbn; unfold MAX_PROXY_SLOTS; lia|constructor].
Qed.

(** A row of the file with the fields in their order. *)
Definition csv_row (r : octets * octets * octets) : list csv_event :=
  let '(b, s, n) := r in [CsvField b; CsvField s; CsvField n; CsvRow].

Definition row_slot (r : octets * octets * octets) : bank_slot :=
  BankSlot (u16 (atoi r.1.1)) (u16 (atoi r.1.2)).

Section csv.
Context `{Pcsc}.

Definition row_entry (r : octets * octets * octets) : option (bank_slot * octets) :=
  match regcomp r.2 with Some _ => Some (row_slot r, r.2) | None => None end.

(** Reading the names of the readers: of rows with three fields exactly those
    whose name is a regular expression are stored, in order, so that a slot is
    given the name of its first such row; a row that ends before its name makes
    the program use a NULL pointer. *)
Theorem csv_rows_read rows names slot :
  bankd_pcsc_read_slotnames (flat_map csv_row rows) parser_state_init names =
    Done (names ++ omap row_entry rows) ∧
  find_slot_name slot (omap row_entry rows) =
    snd <$> head (filter (λ p, p.1 = slot) (omap row_entry rows)) ∧
  (∀ f rest, bankd_pcsc_read_slotnames (flat_map csv_row rows ++ CsvField f :: CsvRow :: rest)
     parser_state_init names = Undef) ∧
  (∀ f g rest, bankd_pcsc_read_slotnames
     (flat_map csv_row rows ++ CsvField f :: CsvField g :: CsvRow :: rest)
     parser_state_init names = Undef).
Proof.
  assert (∀ rows rest names, bankd_pcsc_read_slotnames (flat_map csv_row rows ++ rest)
    parser_state_init names =
    bankd_pcsc_read_slotnames rest parser_state_init (names ++ omap row_entry rows)) as Happ.
  { clear. intros rows. induction rows as [|[[b s] n] rows IH]; intros rest names; cbn.
    - by rewrite app_nil_r.
    - unfold row_entry at 1, row_slot. cbn [fst snd].
      destruct (regcomp n); rewrite IH; [|done]. by rewrite <-app_assoc. }
  split; [|split; [|split]].
  - rewrite <-(app_nil_r (flat_map _ _)), Happ. done.
  - clear. induction (omap row_entry rows) as [|[s n] k IH]; [done|]. cbn [find_slot_name].
    rewrite bank_slot_equals_dec. case_bool_decide as Hs.
    + by rewrite filter_cons_True.
    + by rewrite filter_cons_False.
  - intros f rest. by rewrite Happ.
  - intros f g rest. by rewrite Happ.
Qed.
End csv.

(** ** Interleavings *)

Section race.
Context `{OsmoLib, StreamCliLib, RsproCodec, IpaBtsLib, Talloc, Pcsc}.

(** A worker uses the mapping it found after it has given up the lock: if the
    main thread removes the mapping in between, the worker reads freed memory. *)
Theorem lookup_race i b w l :
  slotmaps_wf (bd_slotmaps b) → workers b !! i = Some w →
  slotmap_by_client (wc_clslot (w_client w)) (bd_slotmaps b) = Done (Some l, bd_slotmaps b) →
  ∃ b', bankd_srvc_remove_mapping l b = Done ((), b') ∧ worker_use_slotmap i (Some l) b' = Undef.
Proof.
  intros Hwf Hw Hl.
  pose proof (wp_done_inv _ _ _ _ _ (wp_slotmap_by_client (E:=no_abort) _ Hwf _) Hl)
    as [_ (m & Hin & Hm & _)].
  assert (wp (bankd_srvc_remove_mapping l) b (λ _ b', heap (bd_slotmaps b') !! l = None)) as Hwp.
  { apply wp_bind. eapply wp_maps_at; [done|]. apply wp_bind, wp_zoom.
    eapply wp_slotmap_del; [done|]. apply wp_send_signal. cbn. by rewrite lookup_delete_eq. }
  apply wp_done in Hwp as ([] & b' & Hrun & Hfree). exists b'. split; [done|].
  cbn [worker_use_slotmap]. unfold on_slotmaps, zoom, map_at, mbind, M_bind, gets. by rewrite Hfree.
Qed.

(** Whatever the main thread does between the look-up and the use: if the
    mapping is gone the worker reads freed memory, and if it is still there the
    worker does what it would do had it looked it up after the main thread. *)
Theorem lookup_interleaved we i b b' w w' l :
  slotmaps_wf (bd_slotmaps b) → slotmaps_wf (bd_slotmaps b') →
  workers b !! i = Some w → workers b' !! i = Some w' →
  wc_clslot (w_client w') = wc_clslot (w_client w) → removed_meanwhile we = false →
  slotmap_by_client (wc_clslot (w_client w)) (bd_slotmaps b) = Done (Some l, bd_slotmaps b) →
  (heap (bd_slotmaps b') !! l = None → worker_use_slotmap i (Some l) b' = Undef) ∧
  (l ∈ mappings (bd_slotmaps b') → heap (bd_slotmaps b') !! l = heap (bd_slotmaps b) !! l →
     worker_use_slotmap i (Some l) b' = worker_try_slotmap we i b').
Proof.
  intros Hwf Hwf' Hw Hw' Hc Hrm Hl.
  pose proof (wp_done_inv _ _ _ _ _ (wp_slotmap_by_client (E:=no_abort) _ Hwf _) Hl)
    as [_ (m & Hin & Hm & Hmc)]. split.
  - intros Hfree. cbn [worker_use_slotmap]. unfold on_slotmaps, zoom, map_at, mbind, M_bind, gets. by rewrite Hfree.
  - intros Hin' Hsame. rewrite Hm in Hsame.
    assert (slotmap_by_client (wc_clslot (w_client w')) (bd_slotmaps b') = Done (Some l, bd_slotmaps b')) as Hl'.
    { pose proof (wp_slotmap_by_client (E:=no_abort) _ Hwf' (wc_clslot (w_client w'))) as Hwp.
      apply wp_done in Hwp as (r & s' & Hrun & -> & Hr). rewrite Hrun. destruct r as [l'|].
      - destruct Hr as (m' & Hl' & Hm' & Hc'). do 3 f_equal.
        assert (m' = m) as ->.
        { apply (entries_client_inj (bd_slotmaps b')); [done|apply elem_of_entries; eauto..|congruence]. }
        by apply (mapping_bank_inj (bd_slotmaps b') Hwf' l' l m m).
      - destruct Hr. apply list_elem_of_fmap. exists m. split; [congruence|].
        apply elem_of_entries. by exists l. }
    unfold worker_try_slotmap, worker_at, on_slotmaps, zoom, mbind, M_bind, gets, deref, mret, M_ret.
    rewrite Hw'. cbn beta iota. rewrite Hl', Hrm, andb_false_r.
    by destruct b'.
Qed.
End race.

(** ** Concrete runs *)

Section traces.
Context `{OsmoLib, StreamCliLib, RsproCodec, IpaBtsLib, Talloc, Pcsc}.
Context (C : bankd → Prop) `{!∀ b, Decision (C b)}.

(** Runs with the condition [C]. *)
Fixpoint run_bankd_trace (tr : list (srvc_env * bankd_event)) (s : Z * bankd) : option (Z * bankd) :=
  match tr with
  | [] => Some s
  | (e, v) :: tr =>
      if decide (s.1 ≤ get_monotonic_ms e ∧ be_possible s.2 v ∧ C s.2) then
        match run_bankd_event e v s.2 with
        | Done (_, b) => run_bankd_trace tr (get_monotonic_ms e, b)
        | _ => None
        end
      else None
  end.

Lemma bankd_trace_run tr t b s' :
  bankd_run C t b → run_bankd_trace tr (t, b) = Some s' → bankd_run C s'.1 s'.2.
Proof.
  revert t b. induction tr as [|[e v] tr IH]; intros t b Hr Htr; cbn [run_bankd_trace] in Htr.
  - by injection Htr as <-.
  - case_decide as Hd; [|done]. destruct Hd as (Ht & Hpos & HC). cbn [fst snd] in *.
    destruct (run_bankd_event e v b) as [[[] b']| | |] eqn:Hrun; try done.
    eapply IH; [|exact Htr]. by eapply br_event.
Qed.

(** The last time and state of a run. *)
Definition run_time (s : option (Z * bankd)) : Z := from_option fst 0 s.
Definition run_state (b0 : bankd) (s : option (Z * bankd)) : bankd := from_option snd b0 s.

Lemma bankd_trace_state tr t b b0 :
  bankd_run C t b →
  (if run_bankd_trace tr (t, b) is Some _ then true else false) = true →
  bankd_run C (run_time (run_bankd_trace tr (t, b))) (run_state b0 (run_bankd_trace tr (t, b))).
Proof.
  intros Hr Hs. destruct (run_bankd_trace tr (t, b)) as [s'|] eqn:Htr; [|done].
  by apply (bankd_trace_run tr t b s').
Qed.
End traces.

(** The readers "0" and "1" for the slots 0 and 1 of bank 1. *)
Definition example_se : start_env :=
  StartEnv [104] [49] (Some (flat_map csv_row [([49], [48], [48]); ([49], [49], [49])]))
    true true true (λ _, true).

Definition example_main : outcome (() * bankd) :=
  bankd_main example_se (ok_env 1000)
    [OptServerHost "10.0.0.1"; OptNumSlots [50]; OptKiSlots [48; 45; 49]] (bankd_init example_se).

Definition example_bankd : bankd :=
  match example_main with Done (_, b) => b | _ => bankd_init example_se end.

(** Every [write] to a client succeeds. *)
Definition ok_write : worker_env :=
  WorkerEnv (λ m, Some match m with TxRspro b => Z.of_nat (length b) + 4 | _ => 0 end) 0 false.

Definition from_server (m : RsproPDUchoice) : bankd_event := BeServer (CvRead 1 (rspro_frame m)).

Definition from_client (i : nat) (m : RsproPDUchoice) : bankd_event :=
  BeWorker i ok_write [WaitReady] (pdu_frame (default [] (rspro_enc_msg (pdu_v2 m)))).

Definition no_input : ipa_input := IpaInput 0 None 0 None.

(** The client closes its connection. *)
Definition client_gone (i : nat) : bankd_event :=
  BeWorker i ok_write [WaitReady] (IpaInput 0 (Some []) 0 None).

Definition C7 : ClientSlot_t := MkClientSlot 7 0.
Definition connect_C7 : RsproPDUchoice :=
  PR_connectClientReq (example_ident ComponentType_remsimClient) (Some C7).
Definition tpdu_to (bank : BankSlot_t) (data : octets) : RsproPDUchoice :=
  PR_tpduModemToCard C7 bank (TpduFlags 255 255 0 0) data.

Definition at_time (tr : list (Z * bankd_event)) : list (srvc_env * bankd_event) :=
  map (λ p, (ok_env p.1, p.2)) tr.

(** The connection to the server is up and two workers wait for clients. *)
Definition example_up : list (Z * bankd_event) :=
  [(1001, BeServer CvTimer); (1002, BeServer CvUp);
   (1003, from_server (PR_connectBankRes (example_ident ComponentType_remsimServer) ResultCode_ok));
   (1004, BeStart 0); (1004, BeStart 1)].

(** The APDUs each card has seen, by the handle of the card, and what the
    client of a worker was sent. *)
Definition seen (s : option (Z * bankd)) : option (list (Z * octets)) := option_map (λ s, bd_scard s.2) s.
Definition sent_by (i : nat) (s : option (Z * bankd)) : option (list (option Z)) :=
  s ≫= λ s, (λ w, map (option_map RsproPDUchoice_PR) (msgs_of (w_sent w))) <$> workers s.2 !! i.
Definition state_of (i : nat) (s : option (Z * bankd)) : option (bankd_worker_state * bank_slot) :=
  s ≫= λ s, (λ w, (w_state w, w_slot w)) <$> workers s.2 !! i.
Definition run_example (tr : list (Z * bankd_event)) : option (Z * bankd) :=
  run_bankd_trace (λ _, True) (at_time (example_up ++ tr)) (1000, example_bankd).

(** The whole life of a mapping: a client that connects before its mapping
    exists waits; when the server creates it, the signal makes the worker open
    the card of the slot; a TPDU is exchanged; and when the server removes the
    mapping, the worker drops the client. *)
Theorem bankd_life_cycle :
  let connect := [(2000, BeAccept 0 5); (2001, from_client 0 connect_C7)] in
  let create := connect ++ [(2002, from_server (PR_createMappingReq C7 (MkBankSlot 1 1)));
                            (2003, BeWorker 0 ok_write [WaitIntr] no_input)] in
  let use := create ++ [(2004, from_client 0 (tpdu_to (MkBankSlot 1 1) [0; 164; 0; 0; 2]))] in
  let remove := use ++ [(2005, from_server (PR_removeMappingReq C7 (MkBankSlot 1 1)));
                        (2006, BeWorker 0 ok_write [WaitIntr] no_input)] in
  state_of 0 (run_example connect) = Some (BW_ST_CONN_CLIENT_WAIT_MAP, no_slot) ∧
  state_of 0 (run_example create) = Some (BW_ST_CONN_CLIENT_MAPPED_CARD, BankSlot 1 1) ∧
  seen (run_example use) = Some [(59, [0; 164; 0; 0; 2])] ∧
  sent_by 0 (run_example use) = Some [Some 4; Some 19] ∧
  state_of 0 (run_example remove) = Some (BW_ST_ACCEPTING, no_slot) ∧
  option_map (λ s, map (option_map RsproPDUchoice_PR) (msgs_of (srvc_sent (srvc s.2))))
    (run_example remove) = Some [Some 1; Some 6; Some 8].
Proof. repeat split; vm_compute; reflexivity. Qed.

(** A worker whose client disconnected keeps the number of its last slot.  When
    the client comes back to another worker and the server removes the mapping,
    SIGMAPDEL goes to the idle worker; the mapped one keeps its client and its
    card.  If the server then maps the client to slot 1, its TPDUs for slot 1 are
    executed by the card of slot 0 (reader "0", handle 58). *)
Theorem stale_slot_misdirects_signal :
  let again := [(2000, BeAccept 0 5);
    (2001, from_server (PR_createMappingReq C7 (MkBankSlot 1 0)));
    (2002, from_client 0 connect_C7); (2003, client_gone 0);
    (2004, BeAccept 1 6); (2005, from_client 1 connect_C7)] in
  let removed := again ++ [(2006, from_server (PR_removeMappingReq C7 (MkBankSlot 1 0)))] in
  let remapped := removed ++ [(2007, from_server (PR_createMappingReq C7 (MkBankSlot 1 1)));
    (2008, BeWorker 1 ok_write [WaitIntr] no_input);
    (2009, from_client 1 (tpdu_to (MkBankSlot 1 1) [0; 164; 0; 0; 2]))] in
  option_map (λ s, map w_signals (take 2 (workers s.2))) (run_example removed) = Some [[SIGMAPDEL]; []] ∧
  state_of 1 (run_example removed) = Some (BW_ST_CONN_CLIENT_MAPPED_CARD, BankSlot 1 0) ∧
  option_map (λ s, abs (bd_slotmaps s.2)) (run_example removed) = Some ∅ ∧
  state_of 1 (run_example remapped) = Some (BW_ST_CONN_CLIENT_MAPPED_CARD, BankSlot 1 1) ∧
  seen (run_example remapped) = Some [(58, [0; 164; 0; 0; 2])] ∧
  sent_by 1 (run_example remapped) = Some [Some 4; Some 16; Some 19].
Proof. repeat split; vm_compute; reflexivity. Qed.

(** A signal that interrupts a worker before its client has identified itself
    (such as the memory report of SIGUSR1) makes it look up the mapping of
    C(0:0) and leave CONN_WAIT_ID; the identification of the client is then
    refused and the client disconnected. *)
Theorem signal_before_identification :
  let interrupted := [(2000, BeAccept 0 5); (2001, BeUsr1);
                      (2002, BeWorker 0 ok_write [WaitIntr] no_input)] in
  let connect := interrupted ++ [(2003, from_client 0 connect_C7)] in
  state_of 0 (run_example interrupted) = Some (BW_ST_CONN_CLIENT_WAIT_MAP, no_slot) ∧
  state_of 0 (run_example connect) = Some (BW_ST_ACCEPTING, no_slot) ∧
  (run_example connect ≫= λ s, w ← workers s.2 !! 0%nat;
     Some (msgs_of (w_sent w))) =
    Some [Some (PR_connectClientRes (fill_comp_id (bankd_comp_id example_se)) ResultCode_illegalClientId)].
Proof. repeat split; vm_compute; reflexivity. Qed.

(** ** Witnesses *)

(** A client is mapped to slot 1 of the bank and has a card. *)
Definition mapped_trace : list (Z * bankd_event) :=
  [(2000, BeAccept 0 5); (2001, from_server (PR_createMappingReq C7 (MkBankSlot 1 1)));
   (2002, from_client 0 connect_C7)].

Definition mapped_run : option (Z * bankd) :=
  run_bankd_trace (λ b, slots_unique (workers b)) (at_time (example_up ++ mapped_trace))
    (1000, example_bankd).

Definition mapped_state : bankd := run_state example_bankd mapped_run.
Definition mapped_time : Z := run_time mapped_run.




Lemma example_started C : bankd_run C 1000 example_bankd.
Proof.
  apply (br_main C example_se (ok_env 1000) [OptServerHost "10.0.0.1"; OptNumSlots [50];
    OptKiSlots [48; 45; 49]] (bankd_init example_se)); [done|vm_compute; reflexivity].
Qed.

Lemma bankd_run_weaken (C D : bankd → Prop) t b :
  (∀ b, C b → D b) → bankd_run C t b → bankd_run D t b.
Proof. intros HCD. induction 1; [by eapply br_main|eapply br_event; eauto]. Qed.

Lemma mapped_run_ok : bankd_run (λ b, slots_unique (workers b)) mapped_time mapped_state.
Proof. apply bankd_trace_state; [apply example_started|vm_compute; reflexivity]. Qed.


Lemma mapped_reachable : bankd_reachable mapped_time mapped_state.
Proof. eapply bankd_run_weaken; [|exact mapped_run_ok]. done. Qed.

Lemma bankd_reachable_inv_witness : bankd_inv False mapped_time mapped_state.
Proof. apply bankd_reachable_inv. exact mapped_reachable. Defined.

(** A SELECT of the master file through the mapping. *)
Definition select_mf : octets := [0; 164; 0; 0; 2; 63; 0].
Definition select_event : bankd_event := from_client 0 (tpdu_to (MkBankSlot 1 1) select_mf).


Definition worker_of (b : bankd) (i : nat) : bankd_worker := default (new_worker 0) (workers b !! i).


Definition remove_spec_at (b : bankd) : option RsproPDU * pinj * list bankd_worker :=
  server_spec true (srvc_cfg (srvc b)) (PR_removeMappingReq C7 (MkBankSlot 1 1))
    (abs (bd_slotmaps b)) (workers b).

Lemma remove_spec_resp b resp :
  (remove_spec_at b).1.1 = Some resp →
  server_spec true (srvc_cfg (srvc b)) (PR_removeMappingReq C7 (MkBankSlot 1 1))
    (abs (bd_slotmaps b)) (workers b) = (Some resp, (remove_spec_at b).1.2, (remove_spec_at b).2).
Proof.
  fold (remove_spec_at b). destruct (remove_spec_at b) as [[r a] ws]. cbn [fst snd]. by intros ->.
Qed.

Lemma server_requests_refine_witness :
  ∃ b', run_bankd_event (ok_env 3000) (from_server (PR_removeMappingReq C7 (MkBankSlot 1 1)))
      mapped_state = Done ((), b') ∧
    abs (bd_slotmaps b') = (remove_spec_at mapped_state).1.2 ∧
    workers b' = (remove_spec_at mapped_state).2 ∧ slotmaps_wf (bd_slotmaps b') ∧
    srvc b' = with_sent (rspro_gen_RemoveMappingRes ResultCode_ok) (srvc mapped_state).
Proof.
  apply (server_requests_refine mapped_time mapped_state (ok_env 3000) 1
    (rspro_frame (PR_removeMappingReq C7 (MkBankSlot 1 1)))
    (pdu_v2 (PR_removeMappingReq C7 (MkBankSlot 1 1)))).
  - exact mapped_reachable.
  - vm_compute. discriminate.
  - intros X. eexists. reflexivity.
  - reflexivity.
  - reflexivity.
  - reflexivity.
  - vm_compute. reflexivity.
  - cbn [msg pdu_v2]. apply remove_spec_resp. vm_compute. reflexivity.
Defined.

Lemma ipa_read_bounds_witness :
  blocking_ipa_read 0 BUF_SIZE (whole_frame IPAC_PROTO_OSMO [1; 2]) mapped_state =
    Done (inr (IPAC_PROTO_OSMO, [1; 2]), mapped_state).
Proof.
  destruct (ipa_read_bounds mapped_time 0 mapped_state) as [Hread _].
  - exact mapped_reachable.
  - vm_compute. by eexists.
  - apply Hread. vm_compute. discriminate.
Defined.

Definition mapped_worker : bankd_worker := worker_of mapped_state 0.
Definition select_res : octets :=
  default [] (rspro_enc_msg (rspro_gen_TpduCard2Modem (MkBankSlot 1 1) C7 [144; 0])).

(** The TPDU of another client slot is refused. *)
Definition foreign_tpdu : RsproPDUchoice :=
  PR_tpduModemToCard (MkClientSlot 8 0) (MkBankSlot 1 1) (TpduFlags 255 255 0 0) select_mf.

Lemma mapped_worker_at : workers mapped_state !! 0%nat = Some mapped_worker.
Proof. vm_compute. reflexivity. Qed.

Lemma tpdu_relayed_or_refused_witness :
  run_bankd_event (ok_env 3000) select_event mapped_state =
    Done ((), tpdu_done 0 (bd_scard mapped_state ++ [(hCard (w_reader mapped_worker), select_mf)])
      select_res select_mf [144; 0] (gsmtap_wanted (bd_cfg mapped_state) 1) mapped_state) ∧
  disconnected 0 mapped_worker mapped_state
    (run_bankd_event (ok_env 3000) (from_client 0 foreign_tpdu) mapped_state).
Proof.
  split.
  - destruct (tpdu_relayed_or_refused mapped_time mapped_state (ok_env 3000) ok_write 0 mapped_worker
      (default [] (rspro_enc_msg (pdu_v2 (tpdu_to (MkBankSlot 1 1) select_mf))))
      (pdu_v2 (tpdu_to (MkBankSlot 1 1) select_mf)) C7 (MkBankSlot 1 1) (TpduFlags 255 255 0 0) select_mf)
      as [Hacc _].
    + exact mapped_reachable.
    + exact mapped_worker_at.
    + vm_compute. reflexivity.
    + vm_compute. reflexivity.
    + reflexivity.
    + destruct Hacc as (b1 & h & Hroute & _ & _ & _ & Hrun); [vm_compute; repeat split|].
      assert (Hno : ki_intercepts (ki_proxy (bd_cfg mapped_state)) (bslot_nr (w_slot mapped_worker)) select_mf = false)
        by (vm_compute; reflexivity).
      destruct Hroute as [_|? ? ? ? Hki|? ? Hki]; [|rewrite Hno in Hki; discriminate Hki..].
      assert (Htx : SCardTransmit (hCard (w_reader mapped_worker)) select_mf RX_BUF_LEN (bd_scard mapped_state) =
        (0, [144; 0], bd_scard mapped_state ++ [(hCard (w_reader mapped_worker), select_mf)])) by reflexivity.
      assert (Henc : rspro_enc_msg (rspro_gen_TpduCard2Modem (MkBankSlot 1 1) C7 [144; 0]) = Some select_res)
        by (vm_compute; reflexivity).
      assert (Hwr : write_res ok_write (TxRspro select_res) = Some (Z.of_nat (length select_res) + 4))
        by reflexivity.
      assert (Hslot : bslot_nr (w_slot mapped_worker) = 1) by (vm_compute; reflexivity).
      rewrite Htx in Hrun. unfold answered in Hrun. rewrite Henc, Hwr, Z.eqb_refl, Hslot in Hrun.
      exact Hrun.
  - apply (tpdu_relayed_or_refused mapped_time mapped_state (ok_env 3000) ok_write 0 mapped_worker
      (default [] (rspro_enc_msg (pdu_v2 foreign_tpdu))) (pdu_v2 foreign_tpdu) (MkClientSlot 8 0)
      (MkBankSlot 1 1) (TpduFlags 255 255 0 0) select_mf).
    + exact mapped_reachable.
    + exact mapped_worker_at.
    + vm_compute. reflexivity.
    + vm_compute. reflexivity.
    + reflexivity.
    + intros (_ & _ & Hcl). vm_compute in Hcl. discriminate.
Defined.

(** VCC goes away: a cold reset, and none when the indication is repeated. *)
Definition vcc_off : SlotPhysStatus_t := SlotPhysStatus 1 (Some 0) None (Some 0).

Lemma reset_succeeds i cold b :
  match pcsc_reset_card i cold b with
  | Done (rc, b') => (rc =? 0) && bool_decide (is_Some (workers b' !! i))
  | _ => false
  end = true →
  ∃ b', pcsc_reset_card i cold b = Done (0, b') ∧ is_Some (workers b' !! i).
Proof.
  destruct (pcsc_reset_card i cold b) as [[rc b']| | |]; [|done..].
  intros [->%Z.eqb_eq Hw%bool_decide_eq_true_1]%andb_prop. eauto.
Qed.

Lemma slot_status_edges_witness :
  ∃ b', pcsc_reset_card 0 true mapped_state = Done (0, b') ∧
    worker_handle_clientSlotStatusInd 0 vcc_off mapped_state =
      Done (0, on_worker 0 (new_levels vcc_off) b').
Proof.
  destruct (slot_status_edges 0 mapped_worker mapped_state vcc_off mapped_worker_at) as (_ & Hedge & _).
  destruct (reset_succeeds 0 true mapped_state) as (b' & Hr & Hb'); [vm_compute; reflexivity|].
  exists b'. split; [exact Hr|]. apply (Hedge true); [vm_compute; reflexivity|exact Hr|exact Hb'].
Defined.

Lemma ki_selection_witness :
  ∃ r b', select_proxy_slot (length (proxy_slots (ki_proxy (bd_cfg mapped_state)))) mapped_state =
      Done (r, b') ∧
    selected (length (proxy_slots (ki_proxy (bd_cfg mapped_state)))) mapped_state r b' ∧
    (r = None ↔ Forall (λ s, srvc_num_slots (srvc_cfg (srvc mapped_state)) ≤ s)
                  (proxy_slots (ki_proxy (bd_cfg mapped_state)))).
Proof.
  apply (ki_selection mapped_time mapped_state).
  - exact mapped_reachable.
  - vm_compute. discriminate.
Defined.

Lemma proxy_slots_bounds_witness :
  (length [3; 5; 6; 7]%Z ≤ MAX_PROXY_SLOTS)%nat ∧ Forall (λ s, 0 ≤ s ≤ 1023) [3; 5; 6; 7].
Proof.
  apply (proxy_slots_bounds (strtok COMMA [51; 44; 53; 45; 55] [])). vm_compute. reflexivity.
Defined.

Lemma lookup_succeeds s c :
  slotmaps_wf s → match slotmap_by_client c s with Done (Some _, _) => true | _ => false end = true →
  ∃ l, slotmap_by_client c s = Done (Some l, s).
Proof.
  intros Hwf. pose proof (wp_slotmap_by_client (E:=no_abort) _ Hwf c) as Hwp.
  apply wp_done in Hwp as (r & s' & Hrun & -> & _). rewrite Hrun. destruct r as [l|]; [|done].
  by exists l.
Qed.

Lemma lookup_race_witness :
  ∃ l b', slotmap_by_client (ClientSlot 7 0) (bd_slotmaps mapped_state) =
      Done (Some l, bd_slotmaps mapped_state) ∧
    bankd_srvc_remove_mapping l mapped_state = Done ((), b') ∧ worker_use_slotmap 0 (Some l) b' = Undef.
Proof.
  assert (slotmaps_wf (bd_slotmaps mapped_state)) as Hwf
    by apply (bankd_run_inv False _ _ _ (λ _ _, False_ind _) mapped_reachable).
  destruct (lookup_succeeds (bd_slotmaps mapped_state) (ClientSlot 7 0) Hwf) as [l Hrun];
    [vm_compute; reflexivity|]. exists l.
  destruct (lookup_race 0 mapped_state mapped_worker l) as (b' & Hb').
  - exact Hwf.
  - exact mapped_worker_at.
  - exact Hrun.
  - exists b'. by split.
Defined.
