(* ===== verification/RemsimClient.v ===== *)
(** * remsim-client ([src/client/main_fsm.c], [src/client/remsim_client.c])

    The client keeps a connection to remsim-server, which tells it the bankd
    and slot of its card, and a connection to that bankd, over which the TPDUs
    of the modem are exchanged.  The main machine [CLIENT_MAIN] is the parent
    of the machines of both connections.

    The state [bankd_client] holds both connections, the main machine and what
    was asked of the frontend (the modem interface: one of the
    [src/client/user_*.c]) and of the event script, in order.  The three
    machines dispatch events to each other, so they are tied together by one
    nesting budget.  The allocations of talloc are taken to succeed. *)

From S2P Require Import Prelude OsmoFsm Slotmap RsproPdu RsproUtil Ipa ClientConn.

(** ** States and events of the main machine *)

Inductive main_fsm_state :=
| MF_ST_INIT
| MF_ST_UNCONFIGURED
| MF_ST_WAIT_BANKD
| MF_ST_OPERATIONAL.

Inductive main_fsm_event :=
| MF_E_SRVC_CONNECTED
| MF_E_SRVC_LOST
| MF_E_SRVC_CONFIG_BANK
| MF_E_SRVC_RESET_REQ
| MF_E_BANKD_CONNECTED
| MF_E_BANKD_LOST
| MF_E_BANKD_TPDU
| MF_E_BANKD_ATR
| MF_E_BANKD_SLOT_STATUS
| MF_E_MDM_STATUS_IND
| MF_E_MDM_PTS_IND
| MF_E_MDM_TPDU.

#[global] Instance mf_st_eq_dec : EqDecision main_fsm_state.
Proof. solve_decision. Defined.

#[global] Instance mf_e_eq_dec : EqDecision main_fsm_event.
Proof. solve_decision. Defined.

#[global] Instance mf_st_enum : Enum main_fsm_state := λ st,
  match st with
  | MF_ST_INIT => 0
  | MF_ST_UNCONFIGURED => 1
  | MF_ST_WAIT_BANKD => 2
  | MF_ST_OPERATIONAL => 3
  end.

#[global] Instance mf_e_enum : Enum main_fsm_event := λ ev,
  match ev with
  | MF_E_SRVC_CONNECTED => 0
  | MF_E_SRVC_LOST => 1
  | MF_E_SRVC_CONFIG_BANK => 2
  | MF_E_SRVC_RESET_REQ => 3
  | MF_E_BANKD_CONNECTED => 4
  | MF_E_BANKD_LOST => 5
  | MF_E_BANKD_TPDU => 6
  | MF_E_BANKD_ATR => 7
  | MF_E_BANKD_SLOT_STATUS => 8
  | MF_E_MDM_STATUS_IND => 9
  | MF_E_MDM_PTS_IND => 10
  | MF_E_MDM_TPDU => 11
  end.

(** ** The state *)

(** [flags] of [struct frontend_phys_status] *)
Record phys_flags := PhysFlags {
  reset_active : Z;
  vcc_present : Z;
  clk_active : Z;
  card_present : Z;
}.

#[global] Instance phys_flags_eq_dec : EqDecision phys_flags.
Proof. solve_decision. Defined.

Record frontend_phys_status := PhysStatus {
  ps_flags : phys_flags;
  voltage_mv : Z;
  ps_fi : Z;
  ps_di : Z;
  ps_wi : Z;
  waiting_time : Z;
}.

(** The data of an event of the main machine. *)
Inductive main_data :=
| MdNone
| MdPdu (pdu : RsproPDU)
| MdPhysStatus (s : frontend_phys_status)
| MdPts (buf : octets)
| MdTpdu (buf : octets).

(** [struct client_config], without the options of the USB frontends. *)
Record client_config := ClientConfig {
  cfg_server_host : option string;
  cfg_server_port : Z;
  cfg_client_id : Z;
  cfg_client_slot : Z;
  cfg_gsmtap_host : option string;
  keep_running : bool;
  event_script : option string;
  cfg_atr : octets;
  atr_ignore_rspro : bool;
}.

(** A call into the frontend or an execution of the event script with its
    command line and additional environment. *)
Inductive frontend_call :=
| frontend_request_card_insert
| frontend_request_card_remove
| frontend_request_sim_remote
| frontend_request_sim_local
| frontend_request_modem_reset
| frontend_handle_card2modem (data : octets)
| frontend_handle_set_atr (data : octets)
| frontend_handle_slot_status (sts : SlotPhysStatus_t)
| osmo_system_nowait (cmd : string) (env : list string).

Record bankd_client := BankdClient {
  srv_conn : rspro_server_conn;
  bankd_conn : rspro_server_conn;
  main_fi : option (fsm_inst main_fsm_state);
  bankd_slot : bank_slot;
  bc_cfg : client_config;
  last_status : frontend_phys_status;
  frontend_log : list frontend_call;
}.

Definition set_srv_conn (c : rspro_server_conn) (bc : bankd_client) : bankd_client :=
  BankdClient c (bankd_conn bc) (main_fi bc) (bankd_slot bc) (bc_cfg bc) (last_status bc)
    (frontend_log bc).
Definition set_bankd_conn (c : rspro_server_conn) (bc : bankd_client) : bankd_client :=
  BankdClient (srv_conn bc) c (main_fi bc) (bankd_slot bc) (bc_cfg bc) (last_status bc)
    (frontend_log bc).
Definition set_main_fi (fi : option (fsm_inst main_fsm_state)) (bc : bankd_client) : bankd_client :=
  BankdClient (srv_conn bc) (bankd_conn bc) fi (bankd_slot bc) (bc_cfg bc) (last_status bc)
    (frontend_log bc).
Definition set_bankd_slot (b : bank_slot) (bc : bankd_client) : bankd_client :=
  BankdClient (srv_conn bc) (bankd_conn bc) (main_fi bc) b (bc_cfg bc) (last_status bc)
    (frontend_log bc).
Definition set_last_status (s : frontend_phys_status) (bc : bankd_client) : bankd_client :=
  BankdClient (srv_conn bc) (bankd_conn bc) (main_fi bc) (bankd_slot bc) (bc_cfg bc) s
    (frontend_log bc).
Definition set_frontend_log (k : list frontend_call) (bc : bankd_client) : bankd_client :=
  BankdClient (srv_conn bc) (bankd_conn bc) (main_fi bc) (bankd_slot bc) (bc_cfg bc)
    (last_status bc) k.

Definition srv_lens : conn_lens bankd_client := ConnLens srv_conn set_srv_conn.
Definition bankd_lens : conn_lens bankd_client := ConnLens bankd_conn set_bankd_conn.

#[global] Instance srv_lens_laws : LensLaws srv_lens.
Proof. by split; intros; repeat match goal with x : bankd_client |- _ => destruct x end. Qed.
#[global] Instance bankd_lens_laws : LensLaws bankd_lens.
Proof. by split; intros; repeat match goal with x : bankd_client |- _ => destruct x end. Qed.

(** What is fixed when the program is built: the version string and the
    environment variables the frontend adds for the script. *)
Class ClientBuild := {
  VERSION : string;
  PACKAGE_VERSION : octets;
  frontend_append_script_env : bankd_client → list string;
}.

#[global] Instance client_build_ref : ClientBuild := {
  VERSION := "1.0";
  PACKAGE_VERSION := [49; 46; 48; 0];
  frontend_append_script_env _ := [];
}.

Section client.
Context `{OsmoLib, StreamCliLib, RsproCodec, IpaBtsLib, InetNtop, ClientBuild}.

Abbreviation Cl := (M bankd_client).

Definition main_fi_ref : fi_ref bankd_client main_fsm_state :=
  FiRef main_fi (λ fi, set_main_fi (Some fi)) (set_main_fi None).

(** The calls into the FSM library for the three machines. *)
Record client_calls := ClientCalls {
  main_dispatch : main_fsm_event → main_data → Cl Z;
  main_state_chg : main_fsm_state → Z → Z → Cl Z;
  srv_calls : srvc_calls (W:=bankd_client);
  bankd_calls : srvc_calls (W:=bankd_client);
}.

(** ** The event script *)

(** [%s] of a pointer that may be NULL, as the C library prints it. *)
Definition str_or_null (s : option string) : string := default "(null)" s.

Definition osmo_fsm_inst_state_name (fi : option (fsm_inst server_conn_fsm_state)) : string :=
  match fi with Some fi => srvc_state_name (fi_state fi) | None => "NULL" end.

Definition build_script_env (bc : bankd_client) (cause : string) : list string :=
  let addr c := str_or_null (server_host (srvc_cfg c)) +:+ ":" +:+ pretty (server_port (srvc_cfg c)) in
  let flags := ps_flags (last_status bc) in
  ["REMSIM_CLIENT_VERSION=" +:+ VERSION;
   "REMSIM_SERVER_ADDR=" +:+ addr (srv_conn bc);
   "REMSIM_SERVER_STATE=" +:+ osmo_fsm_inst_state_name (srvc_fi (srv_conn bc));
   "REMSIM_BANKD_ADDR=" +:+ addr (bankd_conn bc);
   "REMSIM_BANKD_STATE=" +:+ osmo_fsm_inst_state_name (srvc_fi (bankd_conn bc))] ++
  match clslot (srvc_cfg (srv_conn bc)) with
  | Some s => ["REMSIM_CLIENT_SLOT=" +:+ pretty (wrap 64 (clientId s)) +:+ ":" +:+ pretty (wrap 64 (cl_slotNr s))]
  | None => []
  end ++
  ["REMSIM_BANKD_SLOT=" +:+ pretty (bank_id (bankd_slot bc)) +:+ ":" +:+ pretty (bslot_nr (bankd_slot bc));
   "REMSIM_SIM_VCC=" +:+ pretty (u32 (vcc_present flags));
   "REMSIM_SIM_RST=" +:+ pretty (u32 (reset_active flags));
   "REMSIM_SIM_CLK=" +:+ pretty (u32 (clk_active flags));
   "REMSIM_CAUSE=" +:+ cause] ++
  frontend_append_script_env bc.

Definition call_frontend (f : frontend_call) : Cl () :=
  modify (λ bc, set_frontend_log (frontend_log bc ++ [f]) bc).

Definition call_script (cause : string) : Cl () :=
  bc ← gets id;
  match event_script (bc_cfg bc) with
  | None => mret ()
  | Some script =>
      call_frontend (osmo_system_nowait (script +:+ " " +:+ cause) (build_script_env bc cause))
  end.

(** ** Actions of the main machine *)

Section handlers.
Context (K : client_calls).

Abbreviation ev := main_fsm_event.
Abbreviation st := main_fsm_state.

Definition main_st_init (event : ev) (data : main_data) : Cl () :=
  match event with
  | MF_E_SRVC_CONNECTED =>
      main_state_chg K MF_ST_UNCONFIGURED 0 0 ;;
      call_script "event-server-connect"
  | _ => panic
  end.

Definition main_st_unconfigured_onenter (prev_state : st) : Cl () :=
  sk_dispatch (bankd_calls K) SRVC_E_DISCONNECT None ;; mret ().

(** [MF_E_SRVC_CONFIG_BANK]: the server assigns a bankd and a slot. *)
Definition config_bank (data : main_data) : Cl () :=
  match data with
  | MdPdu pdu_rx =>
      match msg pdu_rx with
      | PR_configClientBankReq bslot addr =>
          host ← lift_outcome (rspro_IpAddr2str (ip addr));
          srvc_upd bankd_lens
            (λ c, set_srvc_cfg (set_cfg_addr host (u16 (port addr)) (srvc_cfg c)) c) ;;
          modify (set_bankd_slot (rspro2bank_slot bslot)) ;;
          p ← gets (λ bc, server_port (srvc_cfg (bankd_conn bc)));
          (if p =? 0 then main_state_chg K MF_ST_UNCONFIGURED 0 0
           else
             main_state_chg K MF_ST_WAIT_BANKD 0 0 ;;
             sk_dispatch (bankd_calls K) SRVC_E_ESTABLISH None) ;;
          server_conn_send_rspro (srv_calls K) (Some (rspro_gen_ConfigClientBankRes ResultCode_ok)) ;;
          call_script "event-config-bankd"
      | _ => panic
      end
  | _ => panic
  end.

Definition send_to_bankd (resp : RsproPDU) : Cl () :=
  server_conn_send_rspro (bankd_calls K) (Some resp) ;; mret ().

(** [rspro_gen_*] assert that the pointer to the client slot is not NULL. *)
Definition client_clslot : Cl ClientSlot_t :=
  c ← gets (λ bc, clslot (srvc_cfg (srv_conn bc)));
  match c with Some s => mret s | None => panic end.

Definition main_st_operational (event : ev) (data : main_data) : Cl () :=
  match event with
  | MF_E_BANKD_LOST => main_state_chg K MF_ST_WAIT_BANKD 0 0 ;; mret ()
  | MF_E_SRVC_CONFIG_BANK => config_bank data
  | MF_E_BANKD_TPDU =>
      match data with
      | MdPdu (MkRsproPDU _ _ (PR_tpduCardToModem _ _ _ d)) =>
          call_frontend (frontend_handle_card2modem d)
      | _ => panic
      end
  | MF_E_BANKD_ATR =>
      match data with
      | MdPdu (MkRsproPDU _ _ (PR_setAtrReq _ atr)) =>
          ignore ← gets (λ bc, atr_ignore_rspro (bc_cfg bc));
          when (negb ignore) (call_frontend (frontend_handle_set_atr atr)) ;;
          send_to_bankd (rspro_gen_SetAtrRes ResultCode_ok)
      | _ => panic
      end
  | MF_E_BANKD_SLOT_STATUS =>
      match data with
      | MdPdu (MkRsproPDU _ _ (PR_bankSlotStatusInd _ _ sts)) =>
          call_frontend (frontend_handle_slot_status sts)
      | _ => panic
      end
  | MF_E_MDM_STATUS_IND =>
      match data with
      | MdPhysStatus pstatus =>
          let f := ps_flags pstatus in
          b ← gets bankd_slot;
          slot ← client_clslot;
          send_to_bankd (rspro_gen_ClientSlotStatusInd slot (bank_slot2rspro b)
            (negb (reset_active f =? 0)) (vcc_present f) (clk_active f) (card_present f)) ;;
          last ← gets last_status;
          when (bool_decide (ps_flags last = f)) (call_script "event-modem-status") ;;
          modify (set_last_status pstatus)
      | _ => panic
      end
  | MF_E_MDM_PTS_IND =>
      match data with MdPts _ => mret () | _ => panic end
  | MF_E_MDM_TPDU =>
      match data with
      | MdTpdu buf =>
          b ← gets bankd_slot;
          slot ← client_clslot;
          send_to_bankd (rspro_gen_TpduModem2Card slot (bank_slot2rspro b) buf)
      | _ => panic
      end
  | _ => panic
  end.

Definition main_st_unconfigured (event : ev) (data : main_data) : Cl () :=
  match event with
  | MF_E_SRVC_CONFIG_BANK => main_st_operational event data
  | _ => panic
  end.

Definition main_st_wait_bankd (event : ev) (data : main_data) : Cl () :=
  match event with
  | MF_E_SRVC_CONFIG_BANK => main_st_operational event data
  | MF_E_BANKD_CONNECTED =>
      main_state_chg K MF_ST_OPERATIONAL 0 0 ;;
      call_script "event-bankd-connect"
  | _ => panic
  end.

Definition main_st_operational_onenter (prev_state : st) : Cl () :=
  call_frontend frontend_request_sim_remote ;;
  call_script "request-sim-remote" ;;
  atr ← gets (λ bc, cfg_atr (bc_cfg bc));
  call_frontend (frontend_handle_set_atr atr) ;;
  call_frontend frontend_request_card_insert ;;
  call_script "request-card-insert" ;;
  call_frontend frontend_request_modem_reset ;;
  call_script "request-modem-reset".

Definition main_st_operational_onleave (next_state : st) : Cl () :=
  call_frontend frontend_request_card_remove ;;
  call_script "request-card-remove" ;;
  call_frontend frontend_request_sim_local ;;
  call_script "request-sim-local" ;;
  call_frontend frontend_request_modem_reset ;;
  call_script "request-modem-reset".

Definition main_allstate_action (event : ev) (data : main_data) : Cl () :=
  match event with
  | MF_E_SRVC_LOST => mret ()
  | MF_E_SRVC_RESET_REQ => main_state_chg K MF_ST_UNCONFIGURED 0 0 ;; mret ()
  | _ => panic
  end.

Definition main_fsm_states (s : st) : osmo_fsm_state bankd_client st ev main_data :=
  let nop := λ _ : st, mret () in
  match s with
  | MF_ST_INIT =>
      FsmState (S_ MF_E_SRVC_CONNECTED) (S_ MF_ST_UNCONFIGURED) main_st_init nop nop
  | MF_ST_UNCONFIGURED =>
      FsmState (S_ MF_E_SRVC_CONFIG_BANK) (Z.lor (S_ MF_ST_INIT) (S_ MF_ST_WAIT_BANKD))
        main_st_unconfigured main_st_unconfigured_onenter nop
  | MF_ST_WAIT_BANKD =>
      FsmState (Z.lor (S_ MF_E_SRVC_CONFIG_BANK) (S_ MF_E_BANKD_CONNECTED))
        (Z.lor (S_ MF_ST_INIT) (Z.lor (S_ MF_ST_UNCONFIGURED) (S_ MF_ST_OPERATIONAL)))
        main_st_wait_bankd nop nop
  | MF_ST_OPERATIONAL =>
      FsmState (Z.lor (S_ MF_E_SRVC_CONFIG_BANK) (Z.lor (S_ MF_E_BANKD_LOST)
         (Z.lor (S_ MF_E_BANKD_TPDU) (Z.lor (S_ MF_E_BANKD_ATR) (Z.lor (S_ MF_E_BANKD_SLOT_STATUS)
         (Z.lor (S_ MF_E_MDM_STATUS_IND) (Z.lor (S_ MF_E_MDM_PTS_IND) (S_ MF_E_MDM_TPDU))))))))
        (Z.lor (S_ MF_ST_INIT) (Z.lor (S_ MF_ST_UNCONFIGURED) (S_ MF_ST_WAIT_BANKD)))
        main_st_operational main_st_operational_onenter main_st_operational_onleave
  end.

Definition client_main_fsm : osmo_fsm bankd_client st ev main_data :=
  Fsm main_fsm_states (Z.lor (S_ MF_E_SRVC_LOST) (S_ MF_E_SRVC_RESET_REQ))
    main_allstate_action (mret ()) (λ _, panic).

(** The events the connections send to their parent. *)
Definition srv_parent : srvc_parent bankd_client :=
  SrvcParent (Some (main_dispatch K MF_E_SRVC_CONNECTED MdNone ;; mret ()))
             (Some (main_dispatch K MF_E_SRVC_LOST MdNone ;; mret ())).
Definition bankd_parent : srvc_parent bankd_client :=
  SrvcParent (Some (main_dispatch K MF_E_BANKD_CONNECTED MdNone ;; mret ()))
             (Some (main_dispatch K MF_E_BANKD_LOST MdNone ;; mret ())).

(** ** Reception *)

Definition store_peer (L : conn_lens bankd_client) (ident : ComponentIdentity_t) : Cl () :=
  srvc_upd L (λ c, set_srvc_cfg (set_cfg_peer (rspro_comp_id_retrieve ident) (srvc_cfg c)) c).

Definition bankd_handle_rx (pdu : RsproPDU) : Cl Z :=
  match msg pdu with
  | PR_connectClientRes ident _ =>
      if negb (ci_type ident =? ComponentType_remsimBankd) then
        sk_dispatch (bankd_calls K) SRVC_E_DISCONNECT None ;; mret (- 1)
      else
        store_peer bankd_lens ident ;;
        sk_dispatch (bankd_calls K) SRVC_E_CLIENT_CONN_RES (Some pdu) ;;
        mret 0
  | PR_tpduCardToModem _ _ _ _ => main_dispatch K MF_E_BANKD_TPDU (MdPdu pdu)
  | PR_setAtrReq _ _ => main_dispatch K MF_E_BANKD_ATR (MdPdu pdu)
  | PR_bankSlotStatusInd _ _ _ => main_dispatch K MF_E_BANKD_SLOT_STATUS (MdPdu pdu)
  | _ => mret (- 1)
  end.

Definition store_clslot (s : ClientSlot_t) : Cl () :=
  let upd := λ c, set_srvc_cfg (set_cfg_clslot (Some s) (srvc_cfg c)) c in
  srvc_upd srv_lens upd ;; srvc_upd bankd_lens upd.

Definition srvc_handle_rx (pdu : RsproPDU) : Cl Z :=
  match msg pdu with
  | PR_connectClientRes ident _ =>
      if negb (ci_type ident =? ComponentType_remsimServer) then
        sk_dispatch (srv_calls K) SRVC_E_DISCONNECT None ;; mret (- 1)
      else
        store_peer srv_lens ident ;;
        sk_dispatch (srv_calls K) SRVC_E_CLIENT_CONN_RES (Some pdu) ;;
        mret 0
  | PR_configClientIdReq s =>
      store_clslot s ;;
      server_conn_send_rspro (srv_calls K) (Some (rspro_gen_ConfigClientIdRes ResultCode_ok)) ;;
      mret 0
  | PR_configClientBankReq _ _ =>
      main_dispatch K MF_E_SRVC_CONFIG_BANK (MdPdu pdu) ;;
      mret 0
  | _ => mret (- 1)
  end.
End handlers.

(** ** The three machines *)

Record client_fsms := ClientFsms {
  cf_main : osmo_fsm bankd_client main_fsm_state main_fsm_event main_data;
  cf_srv : osmo_fsm bankd_client server_conn_fsm_state server_conn_fsm_event (option RsproPDU);
  cf_bankd : osmo_fsm bankd_client server_conn_fsm_state server_conn_fsm_event (option RsproPDU);
}.

Definition calls_into (k : client_fsms) : client_calls :=
  ClientCalls (osmo_fsm_inst_dispatch (cf_main k) main_fi_ref)
              (osmo_fsm_inst_state_chg (cf_main k) main_fi_ref)
              (conn_calls srv_lens (cf_srv k)) (conn_calls bankd_lens (cf_bankd k)).

Definition main_exhausted : osmo_fsm bankd_client main_fsm_state main_fsm_event main_data :=
  Fsm (λ _, FsmState 0 (-1) (λ _ _, nofuel) (λ _, nofuel) (λ _, nofuel))
      (-1) (λ _ _, nofuel) nofuel (λ _, nofuel).

Fixpoint client_fsm (e : srvc_env) (n : nat) : client_fsms :=
  match n with
  | O => ClientFsms main_exhausted conn_exhausted conn_exhausted
  | S n =>
      let k := client_fsm e n in
      let K := calls_into k in
      ClientFsms (client_main_fsm K)
        (rspro_client_server_fsm srv_lens e (srv_parent K) (conn_calls srv_lens (cf_srv k)))
        (rspro_client_server_fsm bankd_lens e (bankd_parent K) (conn_calls bankd_lens (cf_bankd k)))
  end.

Definition CLIENT_DEPTH : nat := 10.
Definition client_K (e : srvc_env) : client_calls := calls_into (client_fsm e CLIENT_DEPTH).

(** ** Creation *)

Definition client_config_init : client_config :=
  ClientConfig (Some "127.0.0.1") 9998 (- 1) (- 1) (Some "127.0.0.1") false None [59; 0] false.

Definition zero_bc (cfg : client_config) : bankd_client :=
  BankdClient zero_srvc zero_srvc None (BankSlot 0 0) cfg
    (PhysStatus (PhysFlags 0 0 0 0) 0 0 0 0 0) [].

(** The slot of one connection after [remsim_client_set_clslot]. *)
Definition updated_clslot (client_id slot_nr : Z) (s : option ClientSlot_t) : ClientSlot_t :=
  let s := default (MkClientSlot 0 0) s in
  MkClientSlot (if 0 <=? client_id then client_id else clientId s)
               (if 0 <=? slot_nr then slot_nr else cl_slotNr s).

Definition remsim_client_set_clslot (client_id slot_nr : Z) : Cl () :=
  let upd := λ c, set_srvc_cfg (set_cfg_clslot
    (Some (updated_clslot client_id slot_nr (clslot (srvc_cfg c)))) (srvc_cfg c)) c in
  srvc_upd srv_lens upd ;; srvc_upd bankd_lens upd.

Definition own_id (name software : octets) : app_comp_id :=
  AppCompId ComponentType_remsimClient (strlcpy_array name) (strlcpy_array software)
    (strlcpy_array PACKAGE_VERSION) zeros zeros zeros zeros zeros.

(** [fi_ok]: whether the three state machines can be allocated. *)
Definition remsim_client_create (name software : octets) (cfg : client_config)
    (fi_ok : bool * bool * bool) : Cl () :=
  let '(main_ok, srv_ok, bankd_ok) := fi_ok in
  modify (λ _, zero_bc cfg) ;;
  (if main_ok then modify (set_main_fi (Some (FsmInst MF_ST_INIT 0 None))) else panic) ;;
  remsim_client_set_clslot (cfg_client_id cfg) (cfg_client_slot cfg) ;;
  let id := own_id name software in
  srvc_upd srv_lens (λ c, set_srvc_cfg (SrvcConfig id (peer_comp_id (srvc_cfg c))
    (clslot (srvc_cfg c)) (cfg_server_host cfg) (u16 (cfg_server_port cfg)) 0 0) c) ;;
  rc ← server_conn_fsm_alloc srv_lens srv_ok;
  (if rc <? 0 then panic else mret ()) ;;
  srvc_upd bankd_lens (λ c, set_srvc_cfg (SrvcConfig id (peer_comp_id (srvc_cfg c))
    (clslot (srvc_cfg c)) (server_host (srvc_cfg c)) (server_port (srvc_cfg c)) 0 0) c) ;;
  rc ← server_conn_fsm_alloc bankd_lens bankd_ok;
  if rc <? 0 then panic else mret ().

(** ** Events

    What reaches the client: of a connection, the outcome of a connection
    attempt, a message or its loss, its timer and its keep-alive time-out; and
    the indications of the modem. *)

Inductive client_event :=
| CeStart
| CeServer (v : conn_event)
| CeBankd (v : conn_event)
| CeStatus (s : frontend_phys_status)
| CePts (buf : octets)
| CeTpdu (buf : octets).

Definition run_client_event (e : srvc_env) (v : client_event) : Cl () :=
  let K := client_K e in
  let F := client_fsm e CLIENT_DEPTH in
  match v with
  | CeStart => sk_dispatch (srv_calls K) SRVC_E_ESTABLISH None ;; mret ()
  | CeServer v => run_conn_event srv_lens (cf_srv F) (srvc_handle_rx K) v
  | CeBankd v => run_conn_event bankd_lens (cf_bankd F) (bankd_handle_rx K) v
  | CeStatus s => main_dispatch K MF_E_MDM_STATUS_IND (MdPhysStatus s) ;; mret ()
  | CePts b => main_dispatch K MF_E_MDM_PTS_IND (MdPts b) ;; mret ()
  | CeTpdu b => main_dispatch K MF_E_MDM_TPDU (MdTpdu b) ;; mret ()
  end.
End client.
