(* ===== verification/ClientInv.v ===== *)
(** * The invariant of remsim-client

    [client_inv]: what holds of the client between events.  Both connections
    satisfy their invariant; the main machine is OPERATIONAL exactly while the
    connection to the bankd is; and the frontend has seen balanced sessions: a
    remote SIM selected and a card inserted exactly while the client is
    operational, card data only in between.

    The rules of [ConnInv] are instantiated with the parent events of the two
    connections; the rules here are those of the main machine. *)

From S2P Require Import Prelude OsmoFsm Slotmap RsproPdu RsproUtil Ipa ClientConn ConnInv.
From S2P Require Import RemsimClient.

(** ** Sessions of the frontend *)

Definition is_script (f : frontend_call) : bool :=
  match f with osmo_system_nowait _ _ => true | _ => false end.

(** The calls into the frontend, without the executions of the script. *)
Definition frontend_calls (log : list frontend_call) : list frontend_call :=
  filter (λ f, is_script f = false) log.

(** The calls that concern an inserted card. *)
Definition is_card_data (f : frontend_call) : bool :=
  match f with
  | frontend_handle_card2modem _ | frontend_handle_set_atr _ | frontend_handle_slot_status _ => true
  | _ => false
  end.

(** [session k up]: the calls [k] are sequences of complete sessions, the last
    of which is still open if [up]. *)
Inductive session : list frontend_call → bool → Prop :=
| session_nil : session [] false
| session_enter k atr :
    session k false →
    session (k ++ [frontend_request_sim_remote; frontend_handle_set_atr atr;
                   frontend_request_card_insert; frontend_request_modem_reset]) true
| session_data k f : session k true → is_card_data f = true → session (k ++ [f]) true
| session_leave k :
    session k true →
    session (k ++ [frontend_request_card_remove; frontend_request_sim_local;
                   frontend_request_modem_reset]) false.

(** ** The invariant *)

Definition operational (st : main_fsm_state) : bool := bool_decide (st = MF_ST_OPERATIONAL).

(** The main machine in a state that satisfies [A]. *)
Definition main_at (A : main_fsm_state → Prop) (bc : bankd_client) : Prop :=
  ∃ fi, main_fi bc = Some fi ∧ fi_timer fi = None ∧ A (fi_state fi) ∧
        session (frontend_calls (frontend_log bc)) (operational (fi_state fi)).

(** The state of the main machine and that of the connection to the bankd. *)
Definition main_bankd (c : rspro_server_conn) (st : main_fsm_state) : Prop :=
  match st with
  | MF_ST_INIT | MF_ST_UNCONFIGURED => conn_state c = Some SRVC_ST_INIT
  | MF_ST_WAIT_BANKD => connected c = false
  | MF_ST_OPERATIONAL => connected c = true
  end.

Record client_inv (t : Z) (bc : bankd_client) : Prop := {
  ci_srv : conn_inv t (srv_conn bc);
  ci_bankd : conn_inv t (bankd_conn bc);
  ci_slot : is_Some (clslot (srvc_cfg (srv_conn bc)));
  ci_main : main_at (main_bankd (bankd_conn bc)) bc;
}.

(** ** Frame conditions *)

Lemma main_at_mono (A A' : main_fsm_state → Prop) bc :
  main_at A bc → (∀ st, A st → A' st) → main_at A' bc.
Proof. intros (fi & ? & ? & ? & ?) HA. exists fi. auto. Qed.

Lemma main_at_conn A bc c : main_at A bc → main_at A (set_srv_conn c bc).
Proof. done. Qed.
Lemma main_at_bconn A bc c : main_at A bc → main_at A (set_bankd_conn c bc).
Proof. done. Qed.

Lemma frontend_calls_app k k' : frontend_calls (k ++ k') = frontend_calls k ++ frontend_calls k'.
Proof. apply filter_app. Qed.

(** What belongs neither to the main machine nor to the connection to the bankd. *)
Definition rest (bc : bankd_client) :=
  (srv_conn bc, bankd_slot bc, bc_cfg bc, last_status bc).

Lemma rest_srv bc bc' : rest bc' = rest bc → srv_conn bc' = srv_conn bc.
Proof. by intros [= ? ? ? ?]. Qed.

(** Only the log is longer, by the calls [k]. *)
Record logged (k : list frontend_call) (bc bc' : bankd_client) : Prop := {
  lg_srv : rest bc' = rest bc;
  lg_bankd : bankd_conn bc' = bankd_conn bc;
  lg_main : main_fi bc' = main_fi bc;
  lg_log : frontend_calls (frontend_log bc') = frontend_calls (frontend_log bc) ++ k;
}.

Lemma logged_trans k k' a b c : logged k a b → logged k' b c → logged (k ++ k') a c.
Proof. intros [????] [????]. split; try congruence. by rewrite app_assoc; congruence. Qed.

Lemma logged_main_at A bc bc' : logged [] bc bc' → main_at A bc → main_at A bc'.
Proof.
  intros [? ? Hm Hl] (fi & ? & ? & ? & ?). exists fi. rewrite Hm, Hl, app_nil_r. done.
Qed.

(** ** Rules of the main machine *)

Section client.
Context `{OsmoLib, StreamCliLib, RsproCodec, IpaBtsLib, InetNtop, ClientBuild}.
Context (e : srvc_env) (E : abort → Prop).

Abbreviation K n := (calls_into (client_fsm e n)).
Abbreviation now := (get_monotonic_ms e).

Lemma wp_call_frontend f bc (Q : () → bankd_client → Prop) :
  is_script f = false → (∀ bc', logged [f] bc bc' → Q () bc') → wpe E (call_frontend f) bc Q.
Proof.
  intros Hf HQ. apply wp_modify, HQ. split; try done. cbn.
  rewrite frontend_calls_app. f_equal. unfold frontend_calls. by rewrite filter_cons_True.
Qed.

Lemma wp_call_script cause bc (Q : () → bankd_client → Prop) :
  (∀ bc', logged [] bc bc' → Q () bc') → wpe E (call_script cause) bc Q.
Proof.
  intros HQ. unfold call_script. apply wp_bind, wp_gets. cbn [id].
  destruct (event_script (bc_cfg bc)) as [s|].
  - apply wp_modify, HQ. split; try done. cbn. rewrite frontend_calls_app. f_equal.
  - apply wp_ret, HQ. split; try done. by rewrite app_nil_r.
Qed.

Lemma wp_main_dispatch n ev d bc fi (Q : Z → bankd_client → Prop) :
  main_fi bc = Some fi →
  (if Z.testbit (allstate_event_mask (client_main_fsm (K n))) (enum ev)
   then wpe E (main_allstate_action (K n) ev d) bc (λ _, Q 0)
   else if Z.testbit (in_event_mask (main_fsm_states (K n) (fi_state fi))) (enum ev)
   then wpe E (action (main_fsm_states (K n) (fi_state fi)) ev d) bc (λ _, Q 0)
   else Q (- 1) bc) →
  wpe E (main_dispatch (K (S n)) ev d) bc Q.
Proof.
  intros Hfi HQ. eapply wp_eq; [apply dispatch_eq|]. unfold ref_dispatch.
  apply wp_bind, wp_gets. cbn [fi_get main_fi_ref]. rewrite Hfi.
  cbn [client_fsm cf_main]. destruct (Z.testbit (allstate_event_mask _) _).
  - apply wp_bind. eapply wp_mono; [exact HQ|]. intros [] s' H'. by apply wp_ret.
  - change (states (client_main_fsm (K n))) with (main_fsm_states (K n)).
    destruct (Z.testbit (in_event_mask _) _); [|by apply wp_ret].
    apply wp_bind. eapply wp_mono; [exact HQ|]. intros [] s' H'. by apply wp_ret.
Qed.

Lemma wp_main_chg n new bc fi (Q : Z → bankd_client → Prop) :
  main_fi bc = Some fi →
  (if Z.testbit (out_state_mask (main_fsm_states (K n) (fi_state fi))) (enum new)
   then wpe E (onleave (main_fsm_states (K n) (fi_state fi)) new)
     (set_main_fi (Some (fi_stop_timer fi)) bc)
     (λ _ b1, is_Some (main_fi b1) ∧
        wpe E (onenter (main_fsm_states (K n) new) (fi_state fi))
          (set_main_fi (Some (FsmInst new 0 None)) b1) (λ _, Q 0))
   else Q (- EPERM) bc) →
  wpe E (main_state_chg (K (S n)) new 0 0) bc Q.
Proof.
  intros Hfi HQ. cbn [main_state_chg calls_into]. unfold osmo_fsm_inst_state_chg.
  eapply wp_eq; [apply state_chg_eq|]. unfold ref_state_chg.
  apply wp_bind, wp_gets. cbn [fi_get main_fi_ref]. rewrite Hfi. apply wp_bind, wp_ret.
  cbn [client_fsm cf_main]. change (states (client_main_fsm (K n))) with (main_fsm_states (K n)).
  destruct (Z.testbit _ _); [|by apply wp_ret].
  apply wp_bind. unfold fi_update at 1. apply wp_bind, wp_gets. cbn [fi_get main_fi_ref].
  rewrite Hfi. apply wp_bind, wp_ret, wp_modify. cbn [fi_set main_fi_ref].
  apply wp_bind. eapply wp_mono; [exact HQ|]. intros [] b1 [[fi1 Hf1] H'].
  apply wp_bind. unfold fi_update. apply wp_bind, wp_gets. cbn [fi_get main_fi_ref].
  rewrite Hf1. apply wp_bind, wp_ret, wp_modify. cbn [fi_set main_fi_ref].
  apply wp_bind. eapply wp_mono; [exact H'|]. intros [] b2 HQ2. by apply wp_ret.
Qed.

Lemma wp_onenter_operational prev bc (Q : () → bankd_client → Prop) :
  (∀ bc' atr, logged [frontend_request_sim_remote; frontend_handle_set_atr atr;
      frontend_request_card_insert; frontend_request_modem_reset] bc bc' → Q () bc') →
  wpe E (main_st_operational_onenter prev) bc Q.
Proof.
  intros HQ. unfold main_st_operational_onenter.
  apply wp_bind, wp_call_frontend; [done|]. intros b1 Hl1.
  apply wp_bind, wp_call_script. intros b2 Hl2.
  apply wp_bind, wp_gets, wp_bind, wp_call_frontend; [done|]. intros b3 Hl3.
  apply wp_bind, wp_call_frontend; [done|]. intros b4 Hl4.
  apply wp_bind, wp_call_script. intros b5 Hl5.
  apply wp_bind, wp_call_frontend; [done|]. intros b6 Hl6.
  apply wp_call_script. intros b7 Hl7.
  eapply HQ. exact (logged_trans _ _ _ _ _ Hl1 (logged_trans _ _ _ _ _ Hl2 (logged_trans _ _ _ _ _ Hl3
    (logged_trans _ _ _ _ _ Hl4 (logged_trans _ _ _ _ _ Hl5 (logged_trans _ _ _ _ _ Hl6 Hl7)))))).
Qed.

Lemma wp_onleave_operational next bc (Q : () → bankd_client → Prop) :
  (∀ bc', logged [frontend_request_card_remove; frontend_request_sim_local;
      frontend_request_modem_reset] bc bc' → Q () bc') →
  wpe E (main_st_operational_onleave next) bc Q.
Proof.
  intros HQ. unfold main_st_operational_onleave.
  apply wp_bind, wp_call_frontend; [done|]. intros b1 Hl1.
  apply wp_bind, wp_call_script. intros b2 Hl2.
  apply wp_bind, wp_call_frontend; [done|]. intros b3 Hl3.
  apply wp_bind, wp_call_script. intros b4 Hl4.
  apply wp_bind, wp_call_frontend; [done|]. intros b5 Hl5.
  apply wp_call_script. intros b6 Hl6.
  eapply HQ. exact (logged_trans _ _ _ _ _ Hl1 (logged_trans _ _ _ _ _ Hl2 (logged_trans _ _ _ _ _ Hl3
    (logged_trans _ _ _ _ _ Hl4 (logged_trans _ _ _ _ _ Hl5 Hl6))))).
Qed.

(** Leaving a state, with the open session closed. *)
Lemma wp_main_onleave n new bc fi (Q : () → bankd_client → Prop) :
  session (frontend_calls (frontend_log bc)) (operational (fi_state fi)) →
  (∀ bc', rest bc' = rest bc → bankd_conn bc' = bankd_conn bc → main_fi bc' = main_fi bc →
     session (frontend_calls (frontend_log bc')) false → Q () bc') →
  wpe E (onleave (main_fsm_states (K n) (fi_state fi)) new) bc Q.
Proof.
  intros Hs HQ. destruct (fi_state fi); cbn [main_fsm_states onleave];
    try (apply wp_ret, HQ; done).
  apply wp_onleave_operational. intros bc' []. apply HQ; try done.
  rewrite lg_log0. by apply session_leave.
Qed.

Lemma wp_chg_wait n bc fi (Q : Z → bankd_client → Prop) :
  main_fi bc = Some fi →
  session (frontend_calls (frontend_log bc)) (operational (fi_state fi)) →
  fi_state fi = MF_ST_UNCONFIGURED ∨ fi_state fi = MF_ST_OPERATIONAL →
  (∀ bc', rest bc' = rest bc → bankd_conn bc' = bankd_conn bc →
     main_at (.= MF_ST_WAIT_BANKD) bc' → Q 0 bc') →
  wpe E (main_state_chg (K (S n)) MF_ST_WAIT_BANKD 0 0) bc Q.
Proof.
  intros Hfi Hs Hst HQ. eapply wp_main_chg; [done|].
  assert (Z.testbit (out_state_mask (main_fsm_states (K n) (fi_state fi)))
    (enum MF_ST_WAIT_BANKD) = true) as -> by (by destruct Hst as [-> | ->]).
  apply wp_main_onleave; [done|]. intros bc' E1 E2 E3 Hs'. split; [by rewrite E3|].
  apply wp_ret, HQ; [done..|]. by eexists.
Qed.

Lemma wp_chg_wait_refused n bc fi (Q : Z → bankd_client → Prop) :
  main_fi bc = Some fi → fi_state fi = MF_ST_WAIT_BANKD → Q (- EPERM) bc →
  wpe E (main_state_chg (K (S n)) MF_ST_WAIT_BANKD 0 0) bc Q.
Proof. intros Hfi Hst HQ. eapply wp_main_chg; [done|]. by rewrite Hst. Qed.

(** ** The parent events of the connection to the bankd *)

(** What the rest of the client promises to this connection. *)
Definition frame (A : bool → main_fsm_state → Prop) (bc0 : bankd_client) (up : bool)
    (bc : bankd_client) : Prop :=
  rest bc = rest bc0 ∧ main_at (A up) bc.

(** Between events, during the disconnection of an unconfigured client, and
    while a new bankd is being configured. *)
Definition in_step (up : bool) (st : main_fsm_state) : Prop :=
  st = if up then MF_ST_OPERATIONAL else MF_ST_WAIT_BANKD.
Definition unconfigured (up : bool) (st : main_fsm_state) : Prop := st = MF_ST_UNCONFIGURED.
Definition reconfigured (up : bool) (st : main_fsm_state) : Prop :=
  st = MF_ST_WAIT_BANKD ∨ up = true ∧ st = MF_ST_OPERATIONAL.

Lemma wp_bankd_lost n bc fi (Q : Z → bankd_client → Prop) :
  main_fi bc = Some fi → fi_timer fi = None →
  session (frontend_calls (frontend_log bc)) (operational (fi_state fi)) →
  (fi_state fi = MF_ST_OPERATIONAL → ∀ bc', rest bc' = rest bc →
     bankd_conn bc' = bankd_conn bc → main_at (.= MF_ST_WAIT_BANKD) bc' → Q 0 bc') →
  (fi_state fi ≠ MF_ST_OPERATIONAL → Q (- 1) bc) →
  wpe E (main_dispatch (K (S (S n))) MF_E_BANKD_LOST MdNone) bc Q.
Proof.
  intros Hfi Ht Hs Hop Hno. eapply wp_main_dispatch; [done|].
  match goal with |- if ?b then _ else _ => change b with false end. cbn iota.
  destruct (decide (fi_state fi = MF_ST_OPERATIONAL)) as [Hst|Hst];
    [|specialize (Hno Hst); by destruct (fi_state fi)].
  rewrite Hst. match goal with |- if ?b then _ else _ => change b with true end. cbn iota.
  cbn [main_fsm_states action main_st_operational]. apply wp_bind.
  eapply wp_chg_wait; [done|done|by right|]. intros. apply wp_ret. by apply Hop.
Qed.

Lemma wp_bankd_connected n bc fi (Q : Z → bankd_client → Prop) :
  main_fi bc = Some fi → fi_timer fi = None →
  session (frontend_calls (frontend_log bc)) (operational (fi_state fi)) →
  (fi_state fi = MF_ST_WAIT_BANKD → ∀ bc', rest bc' = rest bc →
     bankd_conn bc' = bankd_conn bc → main_at (.= MF_ST_OPERATIONAL) bc' → Q 0 bc') →
  (fi_state fi ≠ MF_ST_WAIT_BANKD → Q (- 1) bc) →
  wpe E (main_dispatch (K (S (S n))) MF_E_BANKD_CONNECTED MdNone) bc Q.
Proof.
  intros Hfi Ht Hs Hwait Hno. eapply wp_main_dispatch; [done|].
  match goal with |- if ?b then _ else _ => change b with false end. cbn iota.
  destruct (decide (fi_state fi = MF_ST_WAIT_BANKD)) as [Hst|Hst];
    [|specialize (Hno Hst); by destruct (fi_state fi)].
  rewrite Hst in *. match goal with |- if ?b then _ else _ => change b with true end. cbn iota.
  cbn [main_fsm_states action main_st_wait_bankd]. apply wp_bind.
  eapply wp_main_chg; [done|]. rewrite Hst.
  match goal with |- if ?b then _ else _ => change b with true end. cbn iota.
  apply wp_ret. split; [by eexists|]. cbn [main_fsm_states onenter].
  apply wp_onenter_operational. intros b1 atr [E1 E2 E3 E4].
  apply wp_call_script. intros b2 [E5 E6 E7 E8]. apply Hwait; [done|..].
  - by rewrite E5, E1.
  - by rewrite E6, E2.
  - eexists. rewrite E7, E3. split; [done|]. split; [done|]. split; [done|].
    rewrite E8, E4, app_nil_r. cbn. by apply session_enter.
Qed.

(** [A] follows the main machine when the connection goes down or up. *)
Definition follows (A : bool → main_fsm_state → Prop) : Prop :=
  (∀ st, A true st → A false (if operational st then MF_ST_WAIT_BANKD else st)) ∧
  (∀ st, A false st → A true (if bool_decide (st = MF_ST_WAIT_BANKD) then MF_ST_OPERATIONAL else st)).

Lemma follows_in_step : follows in_step.
Proof. by split; intros st ->. Qed.
Lemma follows_unconfigured : follows unconfigured.
Proof. by split; intros st ->. Qed.
Lemma follows_reconfigured : follows reconfigured.
Proof.
  split; intros st [->|[? ->]]; try done; by (left + right).
Qed.

Lemma frame_lset A bc0 b c bc : frame A bc0 b bc → frame A bc0 b (lset bankd_lens c bc).
Proof. done. Qed.

Lemma bankd_parent_ok A bc0 n :
  follows A → (2 ≤ n)%nat → parent_ok bankd_lens E (frame A bc0) (bankd_parent (K n)).
Proof.
  intros [Hdown Hup] Hn. destruct n as [|[|n]]; [lia|lia|].
  split; intros bc [Hr0 (fi & Hfi & Ht & HA & Hs)]; cbn [default bankd_parent parent_disc parent_conn];
    apply wp_bind.
  - specialize (Hdown _ HA). eapply wp_bankd_lost; [done..| |].
    + intros Hst bc' E1 E2 Hm. rewrite Hst in Hdown. apply wp_ret.
      split; [done|]. split; [by rewrite E1|]. eapply main_at_mono; [done|]. by intros ? ->.
    + intros Hst. apply wp_ret. split; [done|]. split; [done|]. exists fi.
      unfold operational in Hdown at 1. by rewrite bool_decide_eq_false_2 in Hdown.
  - specialize (Hup _ HA). eapply wp_bankd_connected; [done..| |].
    + intros Hst bc' E1 E2 Hm. rewrite Hst in Hup. apply wp_ret.
      split; [done|]. split; [by rewrite E1|]. eapply main_at_mono; [done|]. by intros ? ->.
    + intros Hst. apply wp_ret. split; [done|]. split; [done|]. exists fi.
      by rewrite bool_decide_eq_false_2 in Hup.
Qed.

(** ** Commands to the connection to the bankd *)

Lemma bankd_fsm_S n : cf_bankd (client_fsm e (S n)) =
  rspro_client_server_fsm bankd_lens e (bankd_parent (K n))
    (conn_calls bankd_lens (cf_bankd (client_fsm e n))).
Proof. done. Qed.
Lemma srv_fsm_S n : cf_srv (client_fsm e (S n)) =
  rspro_client_server_fsm srv_lens e (srv_parent (K n))
    (conn_calls srv_lens (cf_srv (client_fsm e n))).
Proof. done. Qed.

Lemma wp_bankd_disconnect A n bc (Q : Z → bankd_client → Prop) :
  follows A → conn_inv now (bankd_conn bc) → main_at (A (connected (bankd_conn bc))) bc →
  (∀ bc', rest bc' = rest bc → conn_inv now (bankd_conn bc') →
     conn_state (bankd_conn bc') = Some SRVC_ST_INIT →
     srvc_cfg (bankd_conn bc') = srvc_cfg (bankd_conn bc) → main_at (A false) bc' → Q 0 bc') →
  wpe E (sk_dispatch (bankd_calls (K (S (S (S (S (S n))))))) SRVC_E_DISCONNECT None) bc Q.
Proof.
  intros HA [Hwf (fi & Hfi & Hok)] Hm HQ.
  replace bc with (lset bankd_lens (bankd_conn bc) bc) by (by destruct bc).
  eapply (wp_disconnect bankd_lens e (λ n, cf_bankd (client_fsm e n)) (λ n, bankd_parent (K n))
    bankd_fsm_S E (frame A bc) (frame_lset _ _) 2);
    [intros; by apply bankd_parent_ok|lia|done|done|done|by split|].
  intros c' bc' Hti [E1 Hm']. destruct (to_init_inv _ _ _ Hwf Hti) as [Hinv _].
  destruct Hti as [Hfi' ? ? ? ? Hcfg ?]. apply HQ; [by destruct bc'|by destruct bc'| |done|done].
  unfold conn_state. cbn. by rewrite Hfi'.
Qed.

Lemma wp_bankd_establish A n bc (Q : Z → bankd_client → Prop) :
  follows A → conn_inv now (bankd_conn bc) → 0 ≤ now → main_at (A (connected (bankd_conn bc))) bc →
  (∀ bc', rest bc' = rest bc → conn_inv now (bankd_conn bc') →
     conn_state (bankd_conn bc') = Some SRVC_ST_REESTABLISH_DELAY →
     srvc_cfg (bankd_conn bc') = srvc_cfg (bankd_conn bc) → main_at (A false) bc' → Q 0 bc') →
  wpe E (sk_dispatch (bankd_calls (K (S (S (S (S (S n))))))) SRVC_E_ESTABLISH None) bc Q.
Proof.
  intros HA [Hwf (fi & Hfi & Hok)] Hnow Hm HQ.
  replace bc with (lset bankd_lens (bankd_conn bc) bc) by (by destruct bc).
  eapply (wp_establish bankd_lens e (λ n, cf_bankd (client_fsm e n)) (λ n, bankd_parent (K n))
    bankd_fsm_S E (frame A bc) (frame_lset _ _) 2);
    [intros; by apply bankd_parent_ok|lia|done|done|done|done|by split|].
  intros c' bc' [Hst Hinv Hcfg _] [E1 Hm'].
  by apply HQ; [destruct bc'|destruct bc'|..].
Qed.

(** The main machine gives up its bankd. *)
Lemma wp_chg_unconfigured n bc fi (Q : Z → bankd_client → Prop) :
  main_fi bc = Some fi → fi_timer fi = None →
  session (frontend_calls (frontend_log bc)) (operational (fi_state fi)) →
  conn_inv now (bankd_conn bc) → fi_state fi ≠ MF_ST_UNCONFIGURED →
  (∀ bc', rest bc' = rest bc → conn_inv now (bankd_conn bc') →
     conn_state (bankd_conn bc') = Some SRVC_ST_INIT →
     srvc_cfg (bankd_conn bc') = srvc_cfg (bankd_conn bc) →
     main_at (.= MF_ST_UNCONFIGURED) bc' → Q 0 bc') →
  wpe E (main_state_chg (K (S (S (S (S (S (S n))))))) MF_ST_UNCONFIGURED 0 0) bc Q.
Proof.
  intros Hfi Ht Hs Hinv Hst HQ. eapply wp_main_chg; [done|].
  assert (Z.testbit (out_state_mask (main_fsm_states (K (S (S (S (S (S n)))))) (fi_state fi)))
    (enum MF_ST_UNCONFIGURED) = true) as -> by (by destruct (fi_state fi)).
  apply wp_main_onleave; [done|]. intros b1 E1 E2 E3 Hs'. split; [by rewrite E3|].
  cbn [main_fsm_states onenter]. unfold main_st_unconfigured_onenter. apply wp_bind.
  eapply (wp_bankd_disconnect unconfigured); [apply follows_unconfigured|cbn; by rewrite E2|by eexists|].
  intros b2 F1 F2 F3 F4 F5. cbn [bankd_conn set_main_fi] in F4.
  apply wp_ret, HQ; [by rewrite F1; exact E1|done|done|by rewrite F4, E2|done].
Qed.

(** ** Transmissions *)

Lemma wp_send_bankd n pdu bc (Q : Z → bankd_client → Prop) :
  conn_inv now (bankd_conn bc) →
  (∀ rc, Q rc (set_bankd_conn (with_sent pdu (bankd_conn bc)) bc)) →
  wpe E (server_conn_send_rspro (bankd_calls (K (S n))) (Some pdu)) bc Q.
Proof.
  intros [Hwf (fi & Hfi & Hok)] HQ.
  replace bc with (lset bankd_lens (bankd_conn bc) bc) by (by destruct bc).
  eapply (wp_server_conn_send_rspro bankd_lens e (λ n, cf_bankd (client_fsm e n))
    (λ n, bankd_parent (K n)) bankd_fsm_S E); [done|done|intros Hst|intros Hst].
  - specialize (HQ (- EPERM)). erewrite with_sent_down in HQ by done. by destruct bc.
  - specialize (HQ 0). by erewrite with_sent_connected in HQ by done.
Qed.

Lemma wp_send_srv n pdu bc (Q : Z → bankd_client → Prop) :
  conn_inv now (srv_conn bc) →
  (∀ rc, Q rc (set_srv_conn (with_sent pdu (srv_conn bc)) bc)) →
  wpe E (server_conn_send_rspro (srv_calls (K (S n))) (Some pdu)) bc Q.
Proof.
  intros [Hwf (fi & Hfi & Hok)] HQ.
  replace bc with (lset srv_lens (srv_conn bc) bc) by (by destruct bc).
  eapply (wp_server_conn_send_rspro srv_lens e (λ n, cf_srv (client_fsm e n))
    (λ n, srv_parent (K n)) srv_fsm_S E); [done|done|intros Hst|intros Hst].
  - specialize (HQ (- EPERM)). erewrite with_sent_down in HQ by done. by destruct bc.
  - specialize (HQ 0). by erewrite with_sent_connected in HQ by done.
Qed.

Lemma inv_set_bankd_sent bc pdu :
  client_inv now bc → client_inv now (set_bankd_conn (with_sent pdu (bankd_conn bc)) bc).
Proof. intros [Hs Hb Hsl Hm]. split; [done|by apply conn_inv_sent|done|done]. Qed.

Lemma inv_logged_data f bc bc' :
  logged [f] bc bc' → is_card_data f = true →
  main_at (.= MF_ST_OPERATIONAL) bc → client_inv now bc → client_inv now bc'.
Proof.
  intros [E1 E2 E3 E4] Hf (fi & Hfi & Ht & Hst & Hs) [Hsv Hb Hsl (fi' & Hfi' & Ht' & Hst' & Hs')].
  simplify_eq. split; [by rewrite E1|by rewrite E2|by rewrite E1|].
  exists fi. rewrite E2, E3, E4. split; [done|]. split; [done|]. split; [done|].
  rewrite Hst in *. by apply session_data.
Qed.

Lemma inv_logged bc bc' : logged [] bc bc' → client_inv now bc → client_inv now bc'.
Proof.
  intros Hl [Hsv Hb Hsl Hm]. pose proof Hl as [E1%rest_srv E2 _ _].
  split; [by rewrite E1|by rewrite E2|by rewrite E1|]. rewrite E2. by eapply logged_main_at.
Qed.

Lemma inv_last_status s bc : client_inv now bc → client_inv now (set_last_status s bc).
Proof. intros []. by split. Qed.

(** The address of a bankd that the client can read. *)
Definition addr_ok (i : IpAddress_t) : bool :=
  match rspro_IpAddr2str i with Done _ => true | _ => false end.

(** What a configuration by the server leads to. *)
Record configured (slot : BankSlot_t) (addr : IpPort_t) (bc bc' : bankd_client) : Prop := {
  cf_addr : Done (server_host (srvc_cfg (bankd_conn bc'))) = rspro_IpAddr2str (ip addr);
  cf_port : server_port (srvc_cfg (bankd_conn bc')) = u16 (port addr);
  cf_slot : bankd_slot bc' = rspro2bank_slot slot;
  cf_state : if u16 (port addr) =? 0
             then main_at (.= MF_ST_UNCONFIGURED) bc' ∧
                  conn_state (bankd_conn bc') = Some SRVC_ST_INIT
             else main_at (.= MF_ST_WAIT_BANKD) bc' ∧
                  conn_state (bankd_conn bc') = Some SRVC_ST_REESTABLISH_DELAY;
  cf_sent : srvc_sent (srv_conn bc') = srvc_sent (srv_conn bc) ++
    (if connected (srv_conn bc) then sent_rspro (rspro_gen_ConfigClientBankRes ResultCode_ok) else []);
}.

Lemma wp_config_bank n bc pdu slot addr (Q : () → bankd_client → Prop) :
  msg pdu = PR_configClientBankReq slot addr →
  client_inv now bc → 0 ≤ now →
  (∃ fi, main_fi bc = Some fi ∧ fi_state fi ≠ MF_ST_INIT) →
  (addr_ok (ip addr) = false → E AUndef) →
  (∀ bc', client_inv now bc' → configured slot addr bc bc' → Q () bc') →
  wpe E (config_bank (K (S (S (S (S (S (S n))))))) (MdPdu pdu)) bc Q.
Proof.
  intros Hp [Hsv Hb Hsl (fi & Hfi & Ht & Hmb & Hs)] Hnow (fi' & Hfi' & Hni) Hbad HQ.
  simplify_eq. unfold config_bank. rewrite Hp. unfold addr_ok in Hbad.
  apply wp_bind. destruct (rspro_IpAddr2str (ip addr)) as [host| | |] eqn:Ha;
    [apply wp_ret|by unfold rspro_IpAddr2str in Ha; repeat case_match|by apply wp_undef, Hbad|
     by unfold rspro_IpAddr2str in Ha; repeat case_match].
  replace bc with (lset bankd_lens (bankd_conn bc) bc) at 1 by (by destruct bc).
  apply wp_bind, wp_upd; [apply _|]. apply wp_bind, wp_modify, wp_bind, wp_gets.
  match goal with |- wpe _ _ ?b _ => set (b1 := b) end.
  assert (conn_inv now (bankd_conn b1)) as Hb1 by (by apply conn_inv_cfg).
  assert (∀ b2, rest b2 = rest b1 → conn_inv now (bankd_conn b2) →
    srvc_cfg (bankd_conn b2) = srvc_cfg (bankd_conn b1) →
    main_at (main_bankd (bankd_conn b2)) b2 →
    (if u16 (port addr) =? 0
     then main_at (.= MF_ST_UNCONFIGURED) b2 ∧ conn_state (bankd_conn b2) = Some SRVC_ST_INIT
     else main_at (.= MF_ST_WAIT_BANKD) b2 ∧
          conn_state (bankd_conn b2) = Some SRVC_ST_REESTABLISH_DELAY) →
    wpe E (server_conn_send_rspro (srv_calls (K (S (S (S (S (S (S n))))))))
             (Some (rspro_gen_ConfigClientBankRes ResultCode_ok)) ;;
           call_script "event-config-bankd") b2 Q) as Hend.
  { intros b2 [= E1 E2 E3 E4] Hi2 Hcfg Hm2 Hout. apply wp_bind, wp_send_srv; [by rewrite E1|].
    intros rc. apply wp_call_script. intros b3 Hl. pose proof Hl as [[= F1 F2 F3 F4] F5 _ _].
    cbn in F1, F5. apply HQ.
    - eapply inv_logged; [exact Hl|].
      split; cbn; rewrite ?E1; [by apply conn_inv_sent|done|done|done].
    - split; rewrite ?F5, ?Hcfg; [by rewrite Ha|done|by rewrite F2; cbn; rewrite E2| |].
      + destruct (u16 (port addr) =? 0); (split; [|apply Hout]);
          (eapply logged_main_at; [exact Hl|apply Hout]).
      + rewrite F1. cbn. by rewrite E1. }
  change (server_port (srvc_cfg (bankd_conn b1))) with (u16 (port addr)).
  destruct (u16 (port addr) =? 0).
  - apply wp_bind. destruct (decide (fi_state fi = MF_ST_UNCONFIGURED)) as [Hst|Hst].
    + eapply wp_main_chg; [done|]. rewrite Hst.
      match goal with |- if ?b then _ else _ => change b with false end. cbn iota.
      rewrite Hst in Hmb, Hs. apply Hend; [done|done|done| |].
      * exists fi. by rewrite Hst.
      * split; [|done]. exists fi. by rewrite Hst.
    + eapply wp_chg_unconfigured; [done..|]. intros b2 E1 Hi2 Hst2 Hcfg2 Hm2.
      apply Hend; [done|done|done| |done]. eapply main_at_mono; [done|]. by intros ? ->.
  - assert (∀ b2, rest b2 = rest b1 → bankd_conn b2 = bankd_conn b1 →
      main_at (.= MF_ST_WAIT_BANKD) b2 →
      wpe E (sk_dispatch (bankd_calls (K (S (S (S (S (S (S n)))))))) SRVC_E_ESTABLISH None) b2
        (λ _ s', wpe E (server_conn_send_rspro (srv_calls (K (S (S (S (S (S (S n))))))))
             (Some (rspro_gen_ConfigClientBankRes ResultCode_ok)) ;;
           call_script "event-config-bankd") s' Q)) as Hest.
    { intros b2 E1 E2 Hm2. eapply (wp_bankd_establish reconfigured);
        [apply follows_reconfigured|by rewrite E2|done| |].
      - eapply main_at_mono; [done|]. intros ? ->. by left.
      - intros b3 F1 F2 F3 F4 F5.
        assert (main_at (.= MF_ST_WAIT_BANKD) b3) as Hw.
        { eapply main_at_mono; [done|]. by intros st [->|[? _]]. }
        apply Hend; [by rewrite F1|done|by rewrite F4, E2| |done].
        eapply main_at_mono; [exact Hw|]. intros ? ->. cbn. unfold connected. by rewrite F3. }
    apply wp_bind, wp_bind. destruct (decide (fi_state fi = MF_ST_WAIT_BANKD)) as [Hst|Hst].
    + eapply wp_chg_wait_refused; [done..|]. apply Hest; [done|done|]. exists fi.
      by rewrite Hst in *.
    + eapply wp_chg_wait; [done|done|by destruct (fi_state fi); auto|].
      intros b2 E1 E2 Hm2. by apply Hest.
Qed.

(** The events with their data, as the program dispatches them. *)
Definition event_data (ev : main_fsm_event) (d : main_data) : bool :=
  match ev, d with
  | MF_E_SRVC_CONFIG_BANK, MdPdu (MkRsproPDU _ _ (PR_configClientBankReq _ _))
  | MF_E_BANKD_TPDU, MdPdu (MkRsproPDU _ _ (PR_tpduCardToModem _ _ _ _))
  | MF_E_BANKD_ATR, MdPdu (MkRsproPDU _ _ (PR_setAtrReq _ _))
  | MF_E_BANKD_SLOT_STATUS, MdPdu (MkRsproPDU _ _ (PR_bankSlotStatusInd _ _ _))
  | MF_E_MDM_STATUS_IND, MdPhysStatus _ | MF_E_MDM_PTS_IND, MdPts _ | MF_E_MDM_TPDU, MdTpdu _ => true
  | _, _ => false
  end.

Definition data_addr_ok (d : main_data) : bool :=
  match d with
  | MdPdu (MkRsproPDU _ _ (PR_configClientBankReq _ addr)) => addr_ok (ip addr)
  | _ => true
  end.

Lemma wp_operational_event n ev d bc (Q : () → bankd_client → Prop) :
  event_data ev d = true → ev ≠ MF_E_SRVC_CONFIG_BANK →
  client_inv now bc → main_at (.= MF_ST_OPERATIONAL) bc →
  (∀ bc', client_inv now bc' → Q () bc') →
  wpe E (main_st_operational (K (S n)) ev d) bc Q.
Proof.
  intros Hd Hev Hinv Hop HQ. pose proof Hinv as [Hsv Hb [slot Hsl] Hm].
  destruct ev, d as [|[v tg m]| | |]; try done; try (destruct m; try done); cbn [main_st_operational].
  - apply wp_call_frontend; [done|]. intros bc' Hl. apply HQ. by apply (inv_logged_data _ _ _ Hl).
  - apply wp_bind, wp_gets, wp_bind, wp_when; intros _.
    + apply wp_call_frontend; [done|]. intros b1 Hl.
      assert (client_inv now b1) as Hinv1 by (by apply (inv_logged_data _ _ _ Hl)).
      apply wp_bind, wp_send_bankd; [apply Hinv1|]. intros rc.
      by apply wp_ret, HQ, inv_set_bankd_sent.
    + apply wp_bind, wp_send_bankd; [done|]. intros rc. by apply wp_ret, HQ, inv_set_bankd_sent.
  - apply wp_call_frontend; [done|]. intros bc' Hl. apply HQ. by apply (inv_logged_data _ _ _ Hl).
  - apply wp_bind, wp_gets, wp_bind. unfold client_clslot. apply wp_bind, wp_gets. rewrite Hsl.
    apply wp_ret, wp_bind, wp_bind, wp_send_bankd; [done|]. intros rc. apply wp_ret.
    match goal with |- context [with_sent ?p] => pose proof (inv_set_bankd_sent _ p Hinv) as Hinv1 end.
    apply wp_bind, wp_gets, wp_bind, wp_when; intros _; [apply wp_call_script; intros b2 Hl|];
      apply wp_modify, HQ, inv_last_status; [by eapply inv_logged|done].
  - by apply wp_ret, HQ.
  - apply wp_bind, wp_gets, wp_bind. unfold client_clslot. apply wp_bind, wp_gets. rewrite Hsl.
    apply wp_ret, wp_bind, wp_send_bankd; [done|]. intros rc.
    by apply wp_ret, HQ, inv_set_bankd_sent.
Qed.

Lemma wp_main_event n ev d bc (Q : Z → bankd_client → Prop) :
  event_data ev d = true → client_inv now bc → 0 ≤ now →
  (data_addr_ok d = false → E AUndef) →
  (∀ rc bc', client_inv now bc' → Q rc bc') →
  wpe E (main_dispatch (K (S (S (S (S (S (S (S n)))))))) ev d) bc Q.
Proof.
  intros Hd Hinv Hnow Hbad HQ. pose proof Hinv as [Hsv Hb Hsl (fi & Hfi & Ht & Hmb & Hs)].
  eapply wp_main_dispatch; [done|].
  destruct (decide (ev = MF_E_SRVC_CONFIG_BANK)) as [->|Hev].
  - match goal with |- if ?b then _ else _ => change b with false end. cbn iota.
    destruct d as [|[v tg m]| | |]; try done. destruct m as [| | | | | | | | | | |slot addr| | | | | | | | | |];
      try done. cbn [data_addr_ok] in Hbad.
    assert (fi_state fi ≠ MF_ST_INIT →
      wpe E (config_bank (K (S (S (S (S (S (S n))))))) (MdPdu (MkRsproPDU v tg
        (PR_configClientBankReq slot addr)))) bc (λ _, Q 0)) as Hcfg.
    { intros Hst. eapply wp_config_bank; [done|done|done|by exists fi|done|]. intros. by apply HQ. }
    destruct (fi_state fi) eqn:Hst; cbn [main_fsm_states in_event_mask action];
      match goal with |- if ?b then _ else _ => (change b with true || change b with false) end;
      cbn iota; [by apply HQ|by apply Hcfg..].
  - destruct (decide (fi_state fi = MF_ST_OPERATIONAL)) as [Hst|Hst].
    + assert (main_at (.= MF_ST_OPERATIONAL) bc) as Hop by (by exists fi).
      rewrite Hst.
      assert (Z.testbit (allstate_event_mask (client_main_fsm (K (S (S (S (S (S (S n))))))))) (enum ev)
        = false) as -> by (by destruct ev, d).
      assert (Z.testbit (in_event_mask (main_fsm_states (K (S (S (S (S (S (S n)))))))
        MF_ST_OPERATIONAL)) (enum ev) = true) as -> by (by destruct ev, d).
      cbn [main_fsm_states action].
      apply wp_operational_event; [done|done|done|done|]. intros. by apply HQ.
    + assert (Z.testbit (allstate_event_mask (client_main_fsm (K (S (S (S (S (S (S n))))))))) (enum ev)
        = false) as -> by (by destruct ev, d).
      assert (Z.testbit (in_event_mask (main_fsm_states (K (S (S (S (S (S (S n)))))))
        (fi_state fi))) (enum ev) = false) as -> by (by destruct ev, d, (fi_state fi)).
      by apply HQ.
Qed.

(** ** The parent events of the connection to the server *)

Definition srv_frame (up : bool) (bc : bankd_client) : Prop :=
  conn_inv now (bankd_conn bc) ∧ main_at (main_bankd (bankd_conn bc)) bc.

Lemma srv_parent_ok n : (7 ≤ n)%nat → parent_ok srv_lens E srv_frame (srv_parent (K n)).
Proof.
  intros Hn. do 7 (destruct n as [|n]; [lia|]).
  split; intros bc [Hi (fi & Hfi & Ht & Hmb & Hs)]; cbn [default srv_parent parent_disc parent_conn];
    apply wp_bind; (eapply wp_main_dispatch; [done|]).
  - match goal with |- if ?b then _ else _ => change b with true end. cbn iota.
    cbn [main_allstate_action]. apply wp_ret, wp_ret. split; [done|]. split; [done|]. by exists fi.
  - match goal with |- if ?b then _ else _ => change b with false end. cbn iota.
    destruct (fi_state fi) eqn:Hst; cbn [main_fsm_states in_event_mask action];
      match goal with |- if ?b then _ else _ => (change b with true || change b with false) end;
      cbn iota; [|apply wp_ret; split; [done|]; split; [done|]; exists fi; by rewrite Hst..].
    cbn [main_st_init]. apply wp_bind.
    eapply wp_chg_unconfigured; [done|done|by rewrite Hst|done|congruence|].
    intros b1 E1%rest_srv Hi1 Hst1 _ Hm1. apply wp_call_script. intros b2 Hl. apply wp_ret.
    pose proof Hl as [F1%rest_srv F2 _ _]. split; [cbn; congruence|]. split; [by rewrite F2|].
    rewrite F2. eapply logged_main_at; [done|]. eapply main_at_mono; [done|]. by intros ? ->.
Qed.
End client.
