(* ===== verification/ClientProps.v ===== *)
(** * Properties of remsim-client

    Every event preserves the invariant of [ClientInv] and ends the program only
    in the ways [client_abort] lists; hence the invariant holds in every
    reachable state. *)

From S2P Require Import Prelude OsmoFsm Slotmap RsproPdu RsproUtil Ipa ClientConn Examples.
From S2P Require Import ConnInv.
From S2P Require Import RemsimClient ClientInv.

(** ** From the invariant to the frame of a connection and back *)

Lemma in_step_of_inv t bc :
  client_inv t bc → conn_state (bankd_conn bc) ≠ Some SRVC_ST_INIT →
  main_at (in_step (connected (bankd_conn bc))) bc.
Proof.
  intros [_ _ _ Hm] Hst. eapply main_at_mono; [done|]. intros st Hmb. unfold in_step.
  destruct st; cbn in Hmb; try done; by rewrite Hmb.
Qed.

Lemma main_bankd_in_step c bc : main_at (in_step (connected c)) bc → main_at (main_bankd c) bc.
Proof.
  intros Hm. eapply main_at_mono; [done|]. intros st ->. by destruct (connected c) eqn:E.
Qed.

Lemma connected_cfg c g : connected (set_srvc_cfg g c) = connected c.
Proof. done. Qed.

Lemma client_inv_later t t' bc : client_inv t bc → t ≤ t' → client_inv t' bc.
Proof. intros [] ?. split; eauto using conn_inv_later. Qed.

Section client.
Context `{OsmoLib, StreamCliLib, RsproCodec, IpaBtsLib, InetNtop, ClientBuild}.
Context (e : srvc_env) (E : abort → Prop).

Abbreviation K := (client_K e).
Abbreviation now := (get_monotonic_ms e).

(** The address in a configuration message of the server. *)
Definition pdu_addr_ok (pdu : RsproPDU) : bool := data_addr_ok (MdPdu pdu).

(** ** Handlers of received messages *)

Lemma wp_bankd_handle_rx pdu bc (Q : bankd_client → Prop) :
  client_inv now bc → 0 ≤ now → conn_state (bankd_conn bc) ≠ Some SRVC_ST_INIT →
  (∀ bc', client_inv now bc' → Q bc') →
  wpe E (bankd_handle_rx K pdu) bc (λ _, Q).
Proof.
  intros Hinv Hnow Hst HQ. pose proof Hinv as [Hsv Hb Hsl Hm].
  pose proof (in_step_of_inv _ _ Hinv Hst) as Hm'.
  assert (∀ ev, event_data ev (MdPdu pdu) = true → data_addr_ok (MdPdu pdu) = true →
    wpe E (main_dispatch K ev (MdPdu pdu)) bc (λ _, Q)) as Hdata.
  { intros ev Hd Ha. eapply (wp_main_event e E 3); [done|done|done| |].
    - rewrite Ha. done.
    - intros _ bc' Hi. by apply HQ. }
  unfold bankd_handle_rx. destruct pdu as [v tg m].
  destruct m as [| | | | ident r | | | | | | | | | | | | | | | | | ];
    cbn [msg]; try (by apply wp_ret, HQ); try (by apply Hdata).
  destruct (negb _).
  - apply wp_bind. eapply (wp_bankd_disconnect e E in_step 5); [apply follows_in_step|done|done|].
    intros bc' E1%rest_srv Hi' Hst' _ Hm2. apply wp_ret, HQ. split; [by rewrite E1|done|by rewrite E1|].
    eapply main_at_mono; [done|]. intros ? ->. cbn. unfold connected. by rewrite Hst'.
  - apply wp_bind. unfold store_peer.
    replace bc with (lset bankd_lens (bankd_conn bc) bc) by (by destruct bc).
    apply wp_upd; [apply _|]. apply wp_bind. cbn [lset bankd_lens].
    match goal with |- wpe _ _ (set_bankd_conn ?c _) _ => set (c1 := c) end.
    assert (conn_inv now c1) as Hi1 by (by apply conn_inv_cfg).
    destruct Hi1 as [Hwf (fi & Hfi & Hok)].
    eapply (wp_conn_res bankd_lens e (λ n, cf_bankd (client_fsm e n))
      (λ n, bankd_parent (calls_into (client_fsm e n))) (bankd_fsm_S e) E
      (frame in_step bc) (frame_lset _ _) 2) with (n := 6%nat) (c := c1) (w := bc) (r := r);
      [intros; apply bankd_parent_ok; [apply follows_in_step|done]|lia|done|done|done|by split|done|..].
    + intros _. apply wp_ret, HQ. split; [done|by split; [|exists fi]|done|done].
    + intros Hes Hr c' bc' Hd [E1%rest_srv Hm2]. apply wp_ret, HQ.
      destruct (to_delay_inv _ _ _ Hwf Hd) as [Hi' Hc'].
      split; [by cbn; rewrite E1|done|by cbn; rewrite E1|].
      apply main_bankd_in_step. cbn [lset bankd_lens bankd_conn set_bankd_conn]. by rewrite Hc'.
    + intros Hes Hr bc' [E1%rest_srv Hm2] Hl. apply wp_ret, HQ. cbn [lget bankd_lens] in Hl.
      unfold state_ok in Hok. rewrite Hes in Hok. destruct Hok as (? & ? & ? & _ & _).
      split; [by rewrite E1| |by rewrite E1|].
      * rewrite Hl. split; [by destruct Hwf; split|]. eexists. split; [done|]. unfold state_ok; cbn. done.
      * rewrite Hl. apply main_bankd_in_step. done.
Qed.

Lemma wp_srv_handle_rx pdu bc (Q : bankd_client → Prop) :
  client_inv now bc → 0 ≤ now → (pdu_addr_ok pdu = false → E AUndef) →
  (∀ bc', client_inv now bc' → Q bc') →
  wpe E (srvc_handle_rx K pdu) bc (λ _, Q).
Proof.
  intros Hinv Hnow Hbad HQ. pose proof Hinv as [Hsv Hb Hsl Hm].
  unfold srvc_handle_rx.
  destruct pdu as [v tg m].
  destruct m as [| | | | ident r | | | | | s | | slot addr | | | | | | | | | | ];
    cbn [msg]; try (by apply wp_ret, HQ).
  - destruct (negb _).
    + apply wp_bind. destruct Hsv as [Hwf (fi & Hfi & Hok)].
      replace bc with (lset srv_lens (srv_conn bc) bc) by (by destruct bc).
      eapply (wp_disconnect srv_lens e (λ n, cf_srv (client_fsm e n))
        (λ n, srv_parent (calls_into (client_fsm e n))) (srv_fsm_S e) E (srv_frame e)
        (λ _ _ _ Hf, Hf) 7) with (n := 6%nat);
        [intros; by apply srv_parent_ok|lia|done|done|done|by split|].
      intros c' bc' Hti [Hb' Hm']. destruct (to_init_inv _ _ _ Hwf Hti) as [Hi' _].
      apply wp_ret, HQ. split; [done|done|by cbn; rewrite (ti_cfg _ _ Hti)|done].
    + apply wp_bind. unfold store_peer.
      replace bc with (lset srv_lens (srv_conn bc) bc) by (by destruct bc).
      apply wp_upd; [apply _|]. apply wp_bind. cbn [lset srv_lens].
      match goal with |- wpe _ _ (set_srv_conn ?c _) _ => set (c1 := c) end.
      assert (conn_inv now c1) as Hi1 by (by apply conn_inv_cfg).
      destruct Hi1 as [Hwf (fi & Hfi & Hok)].
      eapply (wp_conn_res srv_lens e (λ n, cf_srv (client_fsm e n))
        (λ n, srv_parent (calls_into (client_fsm e n))) (srv_fsm_S e) E (srv_frame e)
        (λ _ _ _ Hf, Hf) 7) with (n := 6%nat) (c := c1) (w := bc) (r := r);
        [intros; by apply srv_parent_ok|lia|done|done|done|by split|done|..].
      * intros _. apply wp_ret, HQ. split; [by split; [|exists fi]|done|done|done].
      * intros Hes Hr c' bc' Hd [Hb' Hm']. apply wp_ret, HQ.
        destruct (to_delay_inv _ _ _ Hwf Hd) as [Hi' Hc'].
        split; [done|done|by cbn; rewrite (td_cfg _ _ _ _ Hd)|done].
      * intros Hes Hr bc' [Hb' Hm'] Hl. apply wp_ret, HQ. cbn [lget srv_lens] in Hl.
        unfold state_ok in Hok. rewrite Hes in Hok. destruct Hok as (? & ? & ? & _ & _).
        split; [|done|by rewrite Hl|done].
        rewrite Hl. split; [by destruct Hwf; split|]. eexists. split; [done|].
        unfold state_ok; cbn. done.
  - apply wp_bind. unfold store_clslot.
    replace bc with (lset srv_lens (srv_conn bc) bc) by (by destruct bc).
    apply wp_bind, wp_upd; [apply _|]. cbn [lset srv_lens].
    match goal with |- wpe _ _ ?b _ => set (b1 := b);
      replace b1 with (lset bankd_lens (bankd_conn b1) b1) by (by destruct bc) end.
    apply wp_upd; [apply _|]. apply wp_bind.
    eapply (wp_send_srv e E 9); [by apply conn_inv_cfg|]. intros rc. apply wp_ret, HQ.
    split; [by apply conn_inv_sent, conn_inv_cfg|by apply conn_inv_cfg|by eexists|done].
  - apply wp_bind. eapply (wp_main_event e E 3); [done|done|done|exact Hbad|].
    intros _ bc' Hi. by apply wp_ret, HQ.
Qed.

(** ** Events of the client *)

(** The events that can happen; the program starts with [CeStart], and nothing
    in it depends on when that is. *)
Definition ce_possible (bc : bankd_client) (v : client_event) : Prop :=
  match v with
  | CeServer v => cv_possible (srv_conn bc) v
  | CeBankd v => cv_possible (bankd_conn bc) v
  | _ => True
  end.

(** The ways in which an event can end the program: those of a connection, and
    a bankd address that is shorter than its kind demands. *)
Definition ce_abort (bc : bankd_client) (v : client_event) (a : abort) : Prop :=
  match v with
  | CeServer v =>
      cv_abort e (srv_conn bc) v a ∨
      a = AUndef ∧ ∃ res m pdu,
        v = CvRead res m ∧ rspro_dec_msg (l2_data m) = Some pdu ∧ pdu_addr_ok pdu = false
  | CeBankd v => cv_abort e (bankd_conn bc) v a
  | _ => False
  end.

Lemma cv_possible_not_init t c v :
  conn_inv t c → cv_possible c v → conn_state c ≠ Some SRVC_ST_INIT.
Proof.
  intros [[_ _ Hw] (fi & Hfi & Hok)] Hpos. unfold conn_state. rewrite Hfi. intros [= Hst].
  unfold state_ok in Hok. rewrite Hst in Hok. destruct Hok as [Hc Htm].
  specialize (Hw Hc). destruct v; cbn in Hpos; try congruence.
  - rewrite Hfi in Hpos. destruct Hpos as [? Hms]. cbn in Hms. congruence.
  - destruct Hpos; congruence.
Qed.

Lemma wp_srv_conn_event v bc (Q : bankd_client → Prop) :
  client_inv now bc → 0 ≤ now → cv_possible (srv_conn bc) v →
  (∀ a, ce_abort bc (CeServer v) a → E a) → (∀ bc', client_inv now bc' → Q bc') →
  wpe E (run_conn_event srv_lens (cf_srv (client_fsm e CLIENT_DEPTH)) (srvc_handle_rx K) v) bc
    (λ _, Q).
Proof.
  intros Hinv Hnow Hpos Hab HQ. pose proof Hinv as [Hsv Hb Hsl Hm].
  replace bc with (lset srv_lens (srv_conn bc) bc) by (by destruct bc).
  eapply (wp_conn_event srv_lens e (λ n, cf_srv (client_fsm e n))
    (λ n, srv_parent (calls_into (client_fsm e n))) (srv_fsm_S e) E (srv_frame e)
    (λ _ _ _ Hf, Hf) 7) with (n := 6%nat);
    [intros; by apply srv_parent_ok|lia|done|by split|done|..].
  - intros a Ha. apply Hab. by left.
  - intros c' bc' Hi' Hcfg [Hb' Hm']. apply HQ. split; [done|done|by cbn; rewrite Hcfg|done].
  - intros res m pdu -> Hdec. replace (lset srv_lens (srv_conn bc) bc) with bc by (by destruct bc).
    apply wp_srv_handle_rx; [done|done| |done]. intros Ha. apply Hab. right. split; [done|]. by exists res, m, pdu.
Qed.

Lemma wp_bankd_conn_event v bc (Q : bankd_client → Prop) :
  client_inv now bc → 0 ≤ now → cv_possible (bankd_conn bc) v →
  (∀ a, ce_abort bc (CeBankd v) a → E a) → (∀ bc', client_inv now bc' → Q bc') →
  wpe E (run_conn_event bankd_lens (cf_bankd (client_fsm e CLIENT_DEPTH)) (bankd_handle_rx K) v) bc
    (λ _, Q).
Proof.
  intros Hinv Hnow Hpos Hab HQ. pose proof Hinv as [Hsv Hb Hsl Hm].
  assert (conn_state (bankd_conn bc) ≠ Some SRVC_ST_INIT) as Hst
    by (by eapply cv_possible_not_init).
  replace bc with (lset bankd_lens (bankd_conn bc) bc) by (by destruct bc).
  eapply (wp_conn_event bankd_lens e (λ n, cf_bankd (client_fsm e n))
    (λ n, bankd_parent (calls_into (client_fsm e n))) (bankd_fsm_S e) E (frame in_step bc)
    (frame_lset _ _) 2) with (n := 6%nat);
    [intros; apply bankd_parent_ok; [apply follows_in_step|done]|lia|done| |done|..].
  - split; [done|]. by eapply in_step_of_inv.
  - done.
  - intros c' bc' Hi' Hcfg [E1%rest_srv Hm']. apply HQ.
    split; [by cbn; rewrite E1|done|by cbn; rewrite E1|by apply main_bankd_in_step].
  - intros res m pdu -> Hdec.
    replace (lset bankd_lens (bankd_conn bc) bc) with bc by (by destruct bc).
    by apply wp_bankd_handle_rx.
Qed.

Lemma wp_client_event v bc (Q : bankd_client → Prop) :
  client_inv now bc → 0 ≤ now → ce_possible bc v →
  (∀ a, ce_abort bc v a → E a) → (∀ bc', client_inv now bc' → Q bc') →
  wpe E (run_client_event e v) bc (λ _, Q).
Proof.
  intros Hinv Hnow Hpos Hab HQ. pose proof Hinv as [Hsv Hb Hsl Hm].
  destruct v as [|v|v|s|b|b]; cbn [run_client_event].
  - apply wp_bind. destruct Hsv as [Hwf (fi & Hfi & Hok)].
    replace bc with (lset srv_lens (srv_conn bc) bc) by (by destruct bc).
    eapply (wp_establish srv_lens e (λ n, cf_srv (client_fsm e n))
      (λ n, srv_parent (calls_into (client_fsm e n))) (srv_fsm_S e) E (srv_frame e)
      (λ _ _ _ Hf, Hf) 7) with (n := 7%nat);
      [intros; by apply srv_parent_ok|lia|done|done|done|done|by split|].
    intros c' bc' [_ Hi' Hcfg _] [Hb' Hm']. apply wp_ret, HQ.
    split; [done|done|by cbn; rewrite Hcfg|done].
  - by apply wp_srv_conn_event.
  - by apply wp_bankd_conn_event.
  - apply wp_bind. eapply (wp_main_event e E 3); [done..|]. intros rc bc' Hi. by apply wp_ret, HQ.
  - apply wp_bind. eapply (wp_main_event e E 3); [done..|]. intros rc bc' Hi. by apply wp_ret, HQ.
  - apply wp_bind. eapply (wp_main_event e E 3); [done..|]. intros rc bc' Hi. by apply wp_ret, HQ.
Qed.
End client.

(** ** Reachable states *)

Section reachable.
Context `{OsmoLib, StreamCliLib, RsproCodec, IpaBtsLib, InetNtop, ClientBuild}.

(** [client_reachable t bc]: the program can be in [bc] after an event at time
    [t] (in ms since the boot). *)
Inductive client_reachable : Z → bankd_client → Prop :=
| cr_create name software cfg oks bc0 bc :
    remsim_client_create name software cfg oks bc0 = Done ((), bc) → client_reachable 0 bc
| cr_event t e v bc bc' :
    client_reachable t bc → t ≤ get_monotonic_ms e → ce_possible bc v →
    run_client_event e v bc = Done ((), bc') → client_reachable (get_monotonic_ms e) bc'.

#[local] Opaque own_id updated_clslot zeros.

Lemma create_fresh name software cfg oks bc0 bc :
  remsim_client_create name software cfg oks bc0 = Done ((), bc) →
  client_inv 0 bc ∧ conn_state (srv_conn bc) = Some SRVC_ST_INIT ∧ frontend_log bc = [].
Proof.
  assert (wlp (remsim_client_create name software cfg oks) bc0 (λ _ bc, client_inv 0 bc ∧
    conn_state (srv_conn bc) = Some SRVC_ST_INIT ∧ frontend_log bc = [])) as Hwp;
    [|intros Hc; exact (wp_done_inv _ _ _ _ _ Hwp Hc)].
  destruct oks as [[main_ok srv_ok] bankd_ok]. unfold remsim_client_create, remsim_client_set_clslot,
    server_conn_fsm_alloc, srvc_upd.
  apply wp_bind, wp_modify, wp_bind.
  destruct main_ok; [apply wp_modify|by apply wp_panic]. do 2 apply wp_bind. apply wp_modify.
  apply wp_modify, wp_bind, wp_modify, wp_bind.
  destruct srv_ok; cbn [negb]; [|by apply wp_ret, wp_bind, wp_panic].
  do 3 (apply wp_bind, wp_modify). apply wp_ret, wp_bind, wp_ret, wp_bind, wp_modify, wp_bind.
  destruct bankd_ok; cbn [negb]; [|by apply wp_ret, wp_panic].
  do 3 (apply wp_bind, wp_modify). apply wp_ret, wp_ret. split; [|by split]. split.
  - apply conn_inv_init; reflexivity.
  - apply conn_inv_init; reflexivity.
  - eexists; reflexivity.
  - eexists. split; [reflexivity|]. split; [done|]. split; [reflexivity|]. apply session_nil.
Qed.

Lemma create_inv name software cfg oks bc0 bc :
  remsim_client_create name software cfg oks bc0 = Done ((), bc) → client_inv 0 bc.
Proof. by intros [? _]%create_fresh. Qed.

#[local] Transparent own_id updated_clslot zeros.

Lemma client_inv_reachable t bc : client_reachable t bc → 0 ≤ t ∧ client_inv t bc.
Proof.
  induction 1 as [? ? ? ? ? ? Hc|t e v bc bc' Hr [Ht IH] Hte Hpos Hrun].
  - split; [done|]. by eapply create_inv.
  - split; [lia|].
    assert (wlp (run_client_event e v) bc (λ _, client_inv (get_monotonic_ms e))) as Hwp.
    { apply wp_client_event; [by eapply client_inv_later|lia|done|done|done]. }
    exact (wp_done_inv _ _ _ _ _ Hwp Hrun).
Qed.

(** Runs of events, each with its time. *)
#[export] Instance ce_possible_dec bc v : Decision (ce_possible bc v).
Proof. destruct v; cbn; apply _. Defined.

Fixpoint run_client_trace (tr : list (srvc_env * client_event)) (s : Z * bankd_client)
    : option (Z * bankd_client) :=
  match tr with
  | [] => Some s
  | (e, v) :: tr =>
      if decide (s.1 ≤ get_monotonic_ms e ∧ ce_possible s.2 v) then
        match run_client_event e v s.2 with
        | Done (_, bc) => run_client_trace tr (get_monotonic_ms e, bc)
        | _ => None
        end
      else None
  end.

Lemma trace_reachable tr t bc s' :
  client_reachable t bc → run_client_trace tr (t, bc) = Some s' → client_reachable s'.1 s'.2.
Proof.
  revert t bc. induction tr as [|[e v] tr IH]; intros t bc Hr Htr; cbn [run_client_trace] in Htr.
  - by injection Htr as <-.
  - case_decide as Hd; [|done]. destruct Hd as [Ht Hpos]. cbn [fst snd] in *.
    destruct (run_client_event e v bc) as [[[] bc']| | |] eqn:Hrun; try done.
    eapply IH; [|exact Htr]. by eapply cr_event.
Qed.

(** C27. In every state remsim-client can reach, both connections are consistent
    (state, socket, keep-alive machine, timer and delay index), the main machine
    is OPERATIONAL exactly while the connection to the bankd is CONNECTED, an
    unconfigured client has no bankd connection, and the frontend has seen
    complete sessions (remote SIM, ATR, card inserted; card removed, local SIM),
    of which one is open exactly while the client is OPERATIONAL. *)
Theorem client_reachable_inv t bc : client_reachable t bc → client_inv t bc.
Proof. intros Hr. by apply client_inv_reachable. Qed.

Lemma client_event_defined t bc e v :
  client_reachable t bc → t ≤ get_monotonic_ms e → ce_possible bc v →
  match run_client_event e v bc with
  | Done (_, bc') => client_reachable (get_monotonic_ms e) bc'
  | Panic => ce_abort e bc v APanic
  | Undef => ce_abort e bc v AUndef
  | NoFuel => False
  end.
Proof.
  intros Hr Ht Hpos. destruct (client_inv_reachable _ _ Hr) as [H0t Hinv].
  assert (wpe (ce_abort e bc v) (run_client_event e v) bc (λ _ _, True)) as Hwp.
  { apply wp_client_event; [by eapply client_inv_later|lia|done|done|done]. }
  rewrite wpe_outcome in Hwp. destruct (run_client_event e v bc) as [[[] bc']| | |] eqn:Hrun; try done.
  - by eapply cr_event.
  - destruct v as [|v|v| | |]; cbn in Hwp; try done. by destruct Hwp as [|[? _]].
Qed.

(** C28. From every reachable state every event that can happen is processed to
    the end, by machines whose nesting never exceeds [CLIENT_DEPTH], except that
    the program exits if a connection attempt cannot be made, fails an assertion
    on an empty message of the IPA connection management, and accesses freed or
    foreign memory after one it cannot handle or a bankd address that is too short. *)
Theorem client_events_defined t bc e v :
  client_reachable t bc → t ≤ get_monotonic_ms e → ce_possible bc v →
  match run_client_event e v bc with
  | Done (_, bc') => client_reachable (get_monotonic_ms e) bc'
  | Panic => ce_abort e bc v APanic
  | Undef => ce_abort e bc v AUndef
  | NoFuel => False
  end.
Proof. apply client_event_defined. Qed.

(** The connection to the bankd is up exactly while the main machine is OPERATIONAL. *)
Lemma connected_operational t bc fi :
  client_inv t bc → main_fi bc = Some fi → connected (bankd_conn bc) = operational (fi_state fi).
Proof.
  intros [_ _ _ (fi' & Hfi' & _ & Hmb & _)] Hfi. rewrite Hfi in Hfi'. injection Hfi' as <-.
  unfold main_bankd, connected in *. destruct (fi_state fi); cbn; try done; by rewrite Hmb.
Qed.

(** A TPDU that arrives from the bankd. *)
Lemma bankd_tpdu_event e bc res m v tg b c f d :
  client_inv (get_monotonic_ms e) bc → 0 < res → ipa_proto m = IPAC_PROTO_OSMO →
  ipa_proto_ext m = IPAC_PROTO_EXT_RSPRO →
  rspro_dec_msg (l2_data m) = Some (MkRsproPDU v tg (PR_tpduCardToModem b c f d)) →
  run_client_event e (CeBankd (CvRead res m)) bc =
    Done ((), if connected (bankd_conn bc)
              then set_frontend_log (frontend_log bc ++ [frontend_handle_card2modem d]) bc else bc).
Proof.
  intros Hinv Hres Hp1 Hp2 Hdec. pose proof Hinv as [Hsv Hb _ (fi & Hfi & Htm & Hmb & Hs)].
  pose proof (connected_operational _ _ _ Hinv Hfi) as Hcon.
  enough (wp (run_client_event e (CeBankd (CvRead res m))) bc (λ _ bc', bc' =
    if connected (bankd_conn bc)
    then set_frontend_log (frontend_log bc ++ [frontend_handle_card2modem d]) bc else bc)) as Hwp.
  { apply wp_done in Hwp as ([] & bc' & Hrun & ->). exact Hrun. }
  cbn [run_client_event run_conn_event]. apply wp_bind. eapply wp_read_rspro; [done..|].
  cbn [bankd_handle_rx msg]. eapply (wp_main_dispatch e _ 9); [done|]. rewrite Hcon.
  destruct (decide (fi_state fi = MF_ST_OPERATIONAL)) as [Hst|Hst].
  - rewrite Hst. match goal with |- if ?b then _ else _ => change b with false end. cbn iota.
    match goal with |- if ?b then _ else _ => change b with true end. cbn iota.
    cbn [main_fsm_states action main_st_operational]. apply wp_modify. by apply wp_ret.
  - unfold operational. rewrite bool_decide_eq_false_2 by done.
    match goal with |- if ?b then _ else _ => change b with false end. cbn iota.
    assert (Z.testbit (in_event_mask (main_fsm_states (calls_into (client_fsm e 9)) (fi_state fi)))
      (enum MF_E_BANKD_TPDU) = false) as -> by (by destruct (fi_state fi)).
    by apply wp_ret.
Qed.

(** A TPDU of the modem. *)
Lemma modem_tpdu_event e bc buf :
  client_inv (get_monotonic_ms e) bc → ∃ slot, clslot (srvc_cfg (srv_conn bc)) = Some slot ∧
    run_client_event e (CeTpdu buf) bc =
      Done ((), set_bankd_conn (with_sent
        (rspro_gen_TpduModem2Card slot (bank_slot2rspro (bankd_slot bc)) buf) (bankd_conn bc)) bc).
Proof.
  intros Hinv. pose proof Hinv as [Hsv Hb [slot Hsl] (fi & Hfi & Htm & Hmb & Hs)].
  pose proof (connected_operational _ _ _ Hinv Hfi) as Hcon. exists slot. split; [done|].
  enough (wp (run_client_event e (CeTpdu buf)) bc (λ _ bc', bc' = set_bankd_conn (with_sent
    (rspro_gen_TpduModem2Card slot (bank_slot2rspro (bankd_slot bc)) buf) (bankd_conn bc)) bc)) as Hwp.
  { apply wp_done in Hwp as ([] & bc' & Hrun & ->). exact Hrun. }
  cbn [run_client_event]. apply wp_bind. eapply (wp_main_dispatch e _ 9); [done|].
  destruct (decide (fi_state fi = MF_ST_OPERATIONAL)) as [Hst|Hst].
  - rewrite Hst. match goal with |- if ?b then _ else _ => change b with false end. cbn iota.
    match goal with |- if ?b then _ else _ => change b with true end. cbn iota.
    cbn [main_fsm_states action main_st_operational].
    apply wp_bind, wp_gets, wp_bind. unfold client_clslot. apply wp_bind, wp_gets. rewrite Hsl.
    apply wp_ret, wp_bind, (wp_send_bankd e _ 8); [done|]. intros rc. by apply wp_ret, wp_ret.
  - unfold operational in Hcon. rewrite bool_decide_eq_false_2 in Hcon by done.
    match goal with |- if ?b then _ else _ => change b with false end. cbn iota.
    assert (Z.testbit (in_event_mask (main_fsm_states (calls_into (client_fsm e 9)) (fi_state fi)))
      (enum MF_E_MDM_TPDU) = false) as -> by (by destruct (fi_state fi)).
    apply wp_ret. unfold with_sent. rewrite Hcon, app_nil_r. by destruct bc as [? [] ? ? ? ? ?].
Qed.

(** What a status indication of the modem is sent to the bankd as. *)
Definition modem_status_pdu (slot : ClientSlot_t) (bc : bankd_client) (st : frontend_phys_status) : RsproPDU :=
  let f := ps_flags st in
  rspro_gen_ClientSlotStatusInd slot (bank_slot2rspro (bankd_slot bc))
    (negb (reset_active f =? 0)) (vcc_present f) (clk_active f) (card_present f).

(** A status indication of the modem while the client is OPERATIONAL. *)
Lemma modem_status_event e bc st :
  client_inv (get_monotonic_ms e) bc → connected (bankd_conn bc) = true →
  ∃ slot bc', clslot (srvc_cfg (srv_conn bc)) = Some slot ∧
    run_client_event e (CeStatus st) bc = Done ((), bc') ∧
    srv_conn bc' = srv_conn bc ∧ bankd_slot bc' = bankd_slot bc ∧
    frontend_calls (frontend_log bc') = frontend_calls (frontend_log bc) ∧
    bankd_conn bc' = with_sent (modem_status_pdu slot bc st) (bankd_conn bc).
Proof.
  intros Hinv Hcon. pose proof Hinv as [Hsv Hb [slot Hsl] (fi & Hfi & Htm & Hmb & Hs)].
  rewrite (connected_operational _ _ _ Hinv Hfi) in Hcon. unfold operational in Hcon.
  apply bool_decide_eq_true_1 in Hcon. exists slot. set (sent := with_sent _ _).
  set (Q bc' := srv_conn bc' = srv_conn bc ∧ bankd_slot bc' = bankd_slot bc ∧
    frontend_calls (frontend_log bc') = frontend_calls (frontend_log bc) ∧ bankd_conn bc' = sent).
  enough (wp (run_client_event e (CeStatus st)) bc (λ _, Q)) as Hwp.
  { apply wp_done in Hwp as ([] & bc' & Hrun & HP). by exists bc'. }
  cbn [run_client_event]. apply wp_bind. eapply (wp_main_dispatch e _ 9); [done|]. rewrite Hcon.
  match goal with |- if ?b then _ else _ => change b with false end. cbn iota.
  match goal with |- if ?b then _ else _ => change b with true end. cbn iota.
  cbn [main_fsm_states action main_st_operational]. apply wp_bind, wp_gets, wp_bind.
  unfold client_clslot. apply wp_bind, wp_gets. rewrite Hsl. apply wp_ret, wp_bind. unfold send_to_bankd.
  apply wp_bind, (wp_send_bankd e _ 8); [done|]. intros rc. apply wp_ret, wp_bind, wp_gets, wp_bind.
  fold (modem_status_pdu slot bc st) sent.
  assert (∀ bc1, logged [] (set_bankd_conn sent bc) bc1 →
    wp (modify (set_last_status st)) bc1 (λ _ bc', wp (mret ()) bc' (λ _, Q))) as Hend.
  { intros bc1 [Hr Hbk Hmf Hl]. apply wp_modify, wp_ret. unfold rest in Hr. rewrite app_nil_r in Hl.
    by simplify_eq/=. }
  apply wp_when; intros _.
  - apply wp_call_script. intros bc1 Hl. apply (Hend _ Hl).
  - apply Hend. split; try done. by rewrite app_nil_r.
Qed.

(** C29. While the client is OPERATIONAL (its bankd connection CONNECTED), a TPDU
    of the modem is sent to the bankd exactly once, with the client slot and the
    bank slot of the client, and a TPDU, ATR or slot status of the bankd is given
    to the frontend exactly once; otherwise both are dropped.  Nothing else
    changes but the answer to an ATR. *)
Theorem tpdu_relay t bc e :
  client_reachable t bc → t ≤ get_monotonic_ms e →
  (∀ buf, ∃ slot, clslot (srvc_cfg (srv_conn bc)) = Some slot ∧
     run_client_event e (CeTpdu buf) bc =
       Done ((), set_bankd_conn (with_sent
         (rspro_gen_TpduModem2Card slot (bank_slot2rspro (bankd_slot bc)) buf) (bankd_conn bc)) bc)) ∧
  (∀ res m v tg b c f d, 0 < res → ipa_proto m = IPAC_PROTO_OSMO →
     ipa_proto_ext m = IPAC_PROTO_EXT_RSPRO →
     rspro_dec_msg (l2_data m) = Some (MkRsproPDU v tg (PR_tpduCardToModem b c f d)) →
     run_client_event e (CeBankd (CvRead res m)) bc =
       Done ((), if connected (bankd_conn bc)
                 then set_frontend_log (frontend_log bc ++ [frontend_handle_card2modem d]) bc else bc)).
Proof.
  intros Hr Ht. destruct (client_inv_reachable _ _ Hr) as [H0t Hinv]. apply client_inv_later with
    (t' := get_monotonic_ms e) in Hinv; [|done]. split.
  - intros buf. by apply modem_tpdu_event.
  - intros res m v tg b c f d Hres Hp1 Hp2 Hdec. by apply (bankd_tpdu_event e bc res m v tg b c f d).
Qed.

(** C30. When the server assigns a bankd, the client (once connected) stores its
    address and the bank slot, gives up its present bankd, closes the session of
    the frontend and either starts a new connection (port not 0) or stays
    unconfigured (port 0), and confirms the assignment to the server. *)
Theorem server_assigns_bankd t bc e res m v tg slot addr fi :
  client_reachable t bc → t ≤ get_monotonic_ms e →
  main_fi bc = Some fi → fi_state fi ≠ MF_ST_INIT →
  0 < res → ipa_proto m = IPAC_PROTO_OSMO → ipa_proto_ext m = IPAC_PROTO_EXT_RSPRO →
  rspro_dec_msg (l2_data m) = Some (MkRsproPDU v tg (PR_configClientBankReq slot addr)) →
  addr_ok (ip addr) = true →
  ∃ bc', run_client_event e (CeServer (CvRead res m)) bc = Done ((), bc') ∧
         configured slot addr bc bc'.
Proof.
  intros Hr Ht Hfi Hst Hres Hp1 Hp2 Hdec Haddr. destruct (client_inv_reachable _ _ Hr) as [H0t Hinv].
  apply client_inv_later with (t' := get_monotonic_ms e) in Hinv; [|done].
  enough (wp (run_client_event e (CeServer (CvRead res m))) bc
    (λ _ bc', configured slot addr bc bc')) as Hwp.
  { apply wp_done in Hwp as ([] & bc' & Hrun & Hcf). eauto. }
  cbn [run_client_event run_conn_event]. apply wp_bind. eapply wp_read_rspro; [done..|].
  cbn [srvc_handle_rx msg]. apply wp_bind. eapply (wp_main_dispatch e _ 9); [done|].
  match goal with |- if ?b then _ else _ => change b with false end. cbn iota.
  assert (Z.testbit (in_event_mask (main_fsm_states (calls_into (client_fsm e 9)) (fi_state fi)))
    (enum MF_E_SRVC_CONFIG_BANK) = true) as -> by (by destruct (fi_state fi)).
  assert (action (main_fsm_states (calls_into (client_fsm e 9)) (fi_state fi)) MF_E_SRVC_CONFIG_BANK
    (MdPdu (MkRsproPDU v tg (PR_configClientBankReq slot addr))) =
    config_bank (calls_into (client_fsm e 9)) (MdPdu (MkRsproPDU v tg (PR_configClientBankReq slot addr))))
    as -> by (by destruct (fi_state fi)).
  eapply (wp_config_bank e _ 3); [done|done|lia|by exists fi|by rewrite Haddr|].
  intros bc' _ Hcf. by apply wp_ret, wp_ret.
Qed.
End reachable.

(** ** A concrete run *)

(** The client connects to the server, is assigned bank slot B2:1 of the bankd
    at 10.0.0.5:9999, and connects to it. *)
Definition example_start : list (srvc_env * client_event) :=
  [(ok_env 50000, CeStart);
   (ok_env 50001, CeServer CvTimer);
   (ok_env 50010, CeServer CvUp);
   (ok_env 50020, CeServer (CvRead 1 (rspro_frame
      (PR_connectClientRes (example_ident ComponentType_remsimServer) ResultCode_ok))));
   (ok_env 50030, CeServer (CvRead 1 (rspro_frame
      (PR_configClientBankReq (MkBankSlot 2 1) (IpPort (IpAddress_PR_ipv4 [10; 0; 0; 5]) 9999)))));
   (ok_env 50031, CeBankd CvTimer);
   (ok_env 50040, CeBankd CvUp);
   (ok_env 50050, CeBankd (CvRead 1 (rspro_frame
      (PR_connectClientRes (example_ident ComponentType_remsimBankd) ResultCode_ok))))].

Definition example_config : client_config :=
  ClientConfig (Some "127.0.0.1") 9998 7 0 None false None [59; 0] false.

Definition example_create : outcome (() * bankd_client) :=
  remsim_client_create [99] [100] example_config (true, true, true) (zero_bc example_config).

Definition example_created : bankd_client :=
  match example_create with Done (_, bc) => bc | _ => zero_bc example_config end.

Definition example_client : option (Z * bankd_client) :=
  run_client_trace example_start (0, example_created).

(** What an observer sees of a client: the messages to the server (by their
    kind) and to the bankd, and the calls into the frontend. *)
Definition observe (bc : bankd_client)
    : list (option Z) * list (option RsproPDUchoice) * list frontend_call * option main_fsm_state :=
  (map (option_map RsproPDUchoice_PR) (msgs_of (srvc_sent (srv_conn bc))),
   drop 1 (msgs_of (srvc_sent (bankd_conn bc))), frontend_log bc,
   option_map fi_state (main_fi bc)).

Definition observe_run (s : option (Z * bankd_client)) := option_map (λ s, observe s.2) s.

(** An exchange of TPDUs with the card, an ATR from the bankd, and the loss of
    the connection to the bankd; a TPDU after that is dropped. *)
Definition example_session : list (srvc_env * client_event) :=
  [(ok_env 60000, CeTpdu [160; 164; 0; 0]);
   (ok_env 60050, CeBankd (CvRead 1 (rspro_frame
      (PR_tpduCardToModem (MkBankSlot 2 1) (MkClientSlot 7 0) (TpduFlags 255 255 0 0) [144; 0]))));
   (ok_env 60060, CeBankd (CvRead 1 (rspro_frame (PR_setAtrReq (MkClientSlot 7 0) [59; 159]))));
   (ok_env 61000, CeBankd (CvRead 0 (rspro_frame PR_NOTHING)));
   (ok_env 61001, CeTpdu [160; 176; 0; 0])].

(** The whole life of a session: the messages to the server and to the bankd
    and the calls into the frontend, in order, when the client connects, is
    assigned a bankd, exchanges TPDUs with the card and loses the bankd. *)
Theorem client_life_cycle :
  observe_run example_client =
    Some ([Some 3; Some 12], [],
      [frontend_request_sim_remote; frontend_handle_set_atr [59; 0];
       frontend_request_card_insert; frontend_request_modem_reset], Some MF_ST_OPERATIONAL) ∧
  observe_run (example_client ≫= run_client_trace example_session) =
    Some ([Some 3; Some 12],
      [Some (PR_tpduModemToCard (MkClientSlot 7 0) (MkBankSlot 2 1) (TpduFlags 0 0 0 0)
               [160; 164; 0; 0]);
       Some (PR_setAtrRes ResultCode_ok)],
      [frontend_request_sim_remote; frontend_handle_set_atr [59; 0];
       frontend_request_card_insert; frontend_request_modem_reset;
       frontend_handle_card2modem [144; 0]; frontend_handle_set_atr [59; 159];
       frontend_request_card_remove; frontend_request_sim_local; frontend_request_modem_reset],
      Some MF_ST_WAIT_BANKD).
Proof. split; vm_compute; reflexivity. Qed.

(** ** Witnesses *)

Definition example_state : Z * bankd_client := default (0, zero_bc example_config) example_client.

Lemma example_reachable : client_reachable example_state.1 example_state.2.
Proof.
  eapply (trace_reachable example_start 0 example_created).
  - apply (cr_create [99] [100] example_config (true, true, true) (zero_bc example_config)).
    vm_compute. reflexivity.
  - vm_compute. reflexivity.
Qed.

Lemma client_reachable_inv_witness : client_inv example_state.1 example_state.2.
Proof. apply client_reachable_inv. exact example_reachable. Defined.

Definition lost_event : client_event := CeBankd (CvRead 0 (rspro_frame PR_NOTHING)).

Lemma client_events_defined_witness :
  match run_client_event (ok_env 70000) lost_event example_state.2 with
  | Done (_, bc') => client_reachable 70000 bc'
  | Panic => ce_abort (ok_env 70000) example_state.2 lost_event APanic
  | Undef => ce_abort (ok_env 70000) example_state.2 lost_event AUndef
  | NoFuel => False
  end.
Proof.
  apply (client_events_defined example_state.1 example_state.2 (ok_env 70000) lost_event).
  - exact example_reachable.
  - vm_compute. discriminate.
  - vm_compute. reflexivity.
Defined.

Lemma tpdu_relay_witness :
  ∃ slot, clslot (srvc_cfg (srv_conn example_state.2)) = Some slot ∧
    run_client_event (ok_env 70000) (CeTpdu [0; 164]) example_state.2 =
      Done ((), set_bankd_conn (with_sent (rspro_gen_TpduModem2Card slot
        (bank_slot2rspro (bankd_slot example_state.2)) [0; 164]) (bankd_conn example_state.2))
        example_state.2).
Proof.
  apply (tpdu_relay example_state.1 example_state.2 (ok_env 70000)).
  - exact example_reachable.
  - vm_compute. discriminate.
Defined.

Lemma server_assigns_bankd_witness :
  ∃ bc', run_client_event (ok_env 70000) (CeServer (CvRead 1 (rspro_frame
      (PR_configClientBankReq (MkBankSlot 3 4) (IpPort (IpAddress_PR_ipv4 [10; 0; 0; 6]) 0)))))
      example_state.2 = Done ((), bc') ∧
    configured (MkBankSlot 3 4) (IpPort (IpAddress_PR_ipv4 [10; 0; 0; 6]) 0) example_state.2 bc'.
Proof.
  eapply (server_assigns_bankd example_state.1 example_state.2 (ok_env 70000));
    [exact example_reachable|vm_compute; discriminate|vm_compute; reflexivity|vm_compute; discriminate
    |reflexivity|reflexivity|reflexivity|vm_compute; reflexivity|reflexivity].
Defined.
