(* ===== verification/IfdHandler.v ===== *)
(** * The reader driver of remsim-client ([src/client/user_ifdhandler.c])

    A driver for the PC/SC service: a local application uses a remote card
    through it.  The service calls the functions [IFDH*] from one thread at a
    time (the IFD thread: the driver reports that it is not thread-safe); each
    open slot of the reader has a thread of its own that runs a remsim-client.
    Both exchange messages over a pair of sockets that keeps message boundaries.

    An [IFDH*] function is a program [ifd_prog] that sends requests to a
    client thread and blocks for the reply; the pointers the service passes are
    taken to be valid.  The state [ifd_state] is the table of the client threads,
    each with its queue and the messages in both directions of its sockets, and
    the call the IFD thread is blocked in.  Writing to the sockets is taken to
    succeed.  Threads that were replaced in or removed from the table are
    no longer part of the state. *)

From S2P Require Import Prelude OsmoFsm Slotmap RsproPdu RsproUtil Ipa ClientConn RemsimClient.

(** ** Messages between the threads *)

Inductive itmsg_type :=
| ITMSG_TYPE_NONE
| ITMSG_TYPE_CARD_PRES_REQ
| ITMSG_TYPE_CARD_PRES_RESP
| ITMSG_TYPE_ATR_REQ
| ITMSG_TYPE_ATR_RESP
| ITMSG_TYPE_C_APDU_REQ
| ITMSG_TYPE_R_APDU_IND
| ITMSG_TYPE_POWER_OFF_REQ
| ITMSG_TYPE_POWER_OFF_RESP
| ITMSG_TYPE_POWER_ON_REQ
| ITMSG_TYPE_POWER_ON_RESP
| ITMSG_TYPE_RESET_REQ
| ITMSG_TYPE_RESET_RESP.

#[global] Instance itmsg_type_eq_dec : EqDecision itmsg_type.
Proof. solve_decision. Defined.

(** [struct itmsg]; its [len] is the length of [im_data]. *)
Record itmsg := Itmsg {
  im_type : itmsg_type;
  im_status : Z;
  im_data : octets;
}.

(** [len] is converted to 16 bits at the call.  So is the size of the buffer: a
    message whose header and data exceed it does not fit into what was allocated,
    and [msgb_put] ends the process.  Only the C-APDU of a caller can be that
    long ([msgb_fits]); what the bankd sends came in a message of at most 65535
    octets and is shorter. *)
Definition itmsg_alloc (type : itmsg_type) (status : Z) (data : octets) (len : Z) : itmsg :=
  Itmsg type (u16 status) (take (Z.to_nat (u16 len)) data).

(** The size of the header, and of the buffers that both threads read into. *)
Definition ITMSG_HDR : Z := 8.
Definition IT_BUF_SIZE : Z := 1024.

Definition msgb_fits (len : Z) : bool := ITMSG_HDR + u16 len <? 65536.

(** A received message; a longer one is cut off, which both threads notice. *)
Definition read_itmsg (m : itmsg) : option itmsg :=
  if ITMSG_HDR + Z.of_nat (length (im_data m)) <=? IT_BUF_SIZE then Some m else None.

(** ** The thread of a client *)

(** [struct client_thread], with the messages in its sockets. *)
Record client_thread := ClientThread {
  ct_bc : bankd_client;
  ct_atr : octets;
  ct_atr_len : Z;
  it_msgq : list itmsg;
  it_when_write : bool;
  to_client : list itmsg;
  to_ifd : list itmsg;
}.

Definition set_ct_bc (b : bankd_client) (c : client_thread) : client_thread :=
  ClientThread b (ct_atr c) (ct_atr_len c) (it_msgq c) (it_when_write c) (to_client c) (to_ifd c).
Definition set_ct_atr (a : octets) (n : Z) (c : client_thread) : client_thread :=
  ClientThread (ct_bc c) a n (it_msgq c) (it_when_write c) (to_client c) (to_ifd c).
Definition set_it_msgq (q : list itmsg) (wr : bool) (c : client_thread) : client_thread :=
  ClientThread (ct_bc c) (ct_atr c) (ct_atr_len c) q wr (to_client c) (to_ifd c).
Definition set_to_client (q : list itmsg) (c : client_thread) : client_thread :=
  ClientThread (ct_bc c) (ct_atr c) (ct_atr_len c) (it_msgq c) (it_when_write c) q (to_ifd c).
Definition set_to_ifd (q : list itmsg) (c : client_thread) : client_thread :=
  ClientThread (ct_bc c) (ct_atr c) (ct_atr_len c) (it_msgq c) (it_when_write c) (to_client c) q.

Definition ATR_SIZE_MAX : nat := 55.

Section ifd.
Context `{OsmoLib, StreamCliLib, RsproCodec, IpaBtsLib, InetNtop, ClientBuild}.

Abbreviation Ct := (M client_thread).

Definition enqueue_to_ifd (msg : itmsg) : Ct () :=
  modify (λ c, set_it_msgq (it_msgq c ++ [msg]) true c).

(** ** Front end of the client *)

Definition ifd_handle_card2modem (data : octets) : Ct () :=
  enqueue_to_ifd (itmsg_alloc ITMSG_TYPE_R_APDU_IND 0 data (Z.of_nat (length data))).

Definition ifd_handle_set_atr (data : octets) : Ct () :=
  let atr := take ATR_SIZE_MAX data in
  modify (λ c, set_ct_atr (overwrite atr (ct_atr c)) (Z.of_nat (length atr)) c).

Definition ifd_frontend (f : frontend_call) : Ct () :=
  match f with
  | frontend_handle_card2modem data => ifd_handle_card2modem data
  | frontend_handle_set_atr data => ifd_handle_set_atr data
  | _ => mret ()
  end.

(** An event of the client, with the calls into the front end it makes. *)
Definition ct_event (e : srvc_env) (v : client_event) : Ct () :=
  n ← gets (λ c, length (frontend_log (ct_bc c)));
  zoom ct_bc set_ct_bc (run_client_event e v) ;;
  calls ← gets (λ c, drop n (frontend_log (ct_bc c)));
  for_each ifd_frontend calls.

(** ** Requests of the IFD thread *)

Definition send_slot_status (e : srvc_env) (rst : bool) (vcc clk card : Z) : Ct () :=
  slot ← zoom ct_bc set_ct_bc client_clslot;
  b ← gets (λ c, bankd_slot (ct_bc c));
  zoom ct_bc set_ct_bc (server_conn_send_rspro (bankd_calls (client_K e))
    (Some (rspro_gen_ClientSlotStatusInd slot (bank_slot2rspro b) rst vcc clk card))) ;;
  mret ().

Definition handle_it_msg (e : srvc_env) (m : itmsg) : Ct () :=
  match im_type m with
  | ITMSG_TYPE_CARD_PRES_REQ =>
      o ← gets (λ c, srvc_fi (bankd_conn (ct_bc c)));
      fi ← deref o;
      enqueue_to_ifd (itmsg_alloc ITMSG_TYPE_CARD_PRES_RESP
        (if enum (fi_state fi) =? 2 then 0 else 65535) [] 0)
  | ITMSG_TYPE_ATR_REQ =>
      c ← gets id;
      enqueue_to_ifd (itmsg_alloc ITMSG_TYPE_ATR_RESP 0 (ct_atr c) (ct_atr_len c))
  | ITMSG_TYPE_POWER_OFF_REQ =>
      send_slot_status e true 0 0 1 ;;
      enqueue_to_ifd (itmsg_alloc ITMSG_TYPE_POWER_OFF_RESP 0 [] 0)
  | ITMSG_TYPE_POWER_ON_REQ =>
      send_slot_status e false 1 1 1 ;;
      enqueue_to_ifd (itmsg_alloc ITMSG_TYPE_POWER_ON_RESP 0 [] 0)
  | ITMSG_TYPE_RESET_REQ =>
      send_slot_status e true 1 1 1 ;;
      send_slot_status e false 1 1 1 ;;
      enqueue_to_ifd (itmsg_alloc ITMSG_TYPE_RESET_RESP 0 [] 0)
  | ITMSG_TYPE_C_APDU_REQ =>
      s ← gets (λ c, clslot (srvc_cfg (srv_conn (ct_bc c))));
      b ← gets (λ c, bankd_slot (ct_bc c));
      match s with
      | None => mret ()
      | Some slot =>
          zoom ct_bc set_ct_bc (server_conn_send_rspro (bankd_calls (client_K e))
            (Some (rspro_gen_TpduModem2Card slot (bank_slot2rspro b) (im_data m)))) ;;
          mret ()
      end
  | _ => mret ()
  end.

(** The socket is readable and/or writable. *)
Definition it_sock_read (e : srvc_env) : Ct () :=
  q ← gets to_client;
  match q with
  | [] => mret ()
  | m :: q =>
      modify (set_to_client q) ;;
      match read_itmsg m with
      | None => mret ()
      | Some m => handle_it_msg e m
      end
  end.

Definition it_sock_write : Ct () :=
  q ← gets it_msgq;
  match q with
  | [] => modify (set_it_msgq [] false)
  | m :: q => modify (λ c, set_to_ifd (to_ifd c ++ [m]) (set_it_msgq q (it_when_write c) c))
  end.

Definition it_sock_fd_cb (e : srvc_env) (rd wr : bool) : Ct () :=
  when rd (it_sock_read e) ;; when wr it_sock_write.

(** ** Start of a client *)

Record client_thread_cfg := ClientThreadCfg {
  tc_server_host : string;
  tc_server_port : Z;
  tc_client_id : Z;
  tc_client_slot : Z;
}.

Definition client_thread_zero (ccfg : client_config) : client_thread :=
  ClientThread (zero_bc ccfg) (replicate ATR_SIZE_MAX 0) 0 [] false [] [].

Definition thread_config (cfg : client_thread_cfg) : client_config :=
  let c := client_config_init in
  ClientConfig (Some (tc_server_host cfg))
    (if 0 <=? tc_server_port cfg then tc_server_port cfg else cfg_server_port c)
    (tc_client_id cfg) (tc_client_slot cfg) (cfg_gsmtap_host c) (keep_running c) (event_script c)
    (cfg_atr c) (atr_ignore_rspro c).

(** Up to the main loop of the thread. *)
Definition client_pthread_main (e : srvc_env) (hostname : octets) (oks : bool * bool * bool)
    (cfg : client_thread_cfg) : Ct () :=
  zoom ct_bc set_ct_bc
    (remsim_client_create hostname (str_octets "remsim_ifdhandler") (thread_config cfg) oks) ;;
  ct_event e CeStart.

(** ** Functions of the reader *)

Inductive RESPONSECODE :=
| IFD_SUCCESS
| IFD_ERROR_TAG
| IFD_ERROR_NOT_SUPPORTED
| IFD_COMMUNICATION_ERROR
| IFD_NOT_SUPPORTED
| IFD_ICC_NOT_PRESENT
| IFD_NO_SUCH_DEVICE.

#[global] Instance responsecode_eq_dec : EqDecision RESPONSECODE.
Proof. solve_decision. Defined.

(** The result of a call: its code, and what it stores in the buffer of the
    caller, whose length it reports. *)
Record ifd_result := IfdResult { ifd_code : RESPONSECODE; ifd_out : octets }.

(** What a call does: it returns, it exchanges a message with a client, or it ends
    the process because a message does not fit into its buffer. *)
Inductive ifd_prog :=
| IfdRet (r : ifd_result)
| IfdAbort
| ifd_xceive_client (slot : nat) (tx : itmsg) (k : option itmsg → ifd_prog).

Definition IfdErr (r : RESPONSECODE) : ifd_prog := IfdRet (IfdResult r []).

Definition MAX_SLOTS : nat := 256.
Definition LUN2SLOT (lun : Z) : Z := Z.land lun 65535.
Definition LUN2RDR (lun : Z) : Z := Z.shiftr lun 16.

(** The slot of a logical unit. *)
Definition lun_slot (lun : Z) : option nat :=
  if negb (LUN2RDR lun =? 0) then None
  else if Z.of_nat MAX_SLOTS <=? LUN2SLOT lun then None
  else Some (Z.to_nat (LUN2SLOT lun)).

Inductive ifd_tag :=
| TAG_IFD_ATR
| TAG_IFD_SIMULTANEOUS_ACCESS
| TAG_IFD_SLOTS_NUMBER
| TAG_IFD_THREAD_SAFE
| TAG_IFD_SLOT_THREAD_SAFE
| TAG_IFD_OTHER.

Inductive ifd_action := IFD_POWER_DOWN | IFD_POWER_UP | IFD_RESET | IFD_ACTION_OTHER.

Section calls.
(** Which slots of the table have a client. *)
Context (open : nat → bool).

(** The common start of the functions that need a client. *)
Definition with_client (lun : Z) (f : nat → ifd_prog) : ifd_prog :=
  match lun_slot lun with
  | None => IfdErr IFD_NO_SUCH_DEVICE
  | Some s => if open s then f s else IfdErr IFD_NO_SUCH_DEVICE
  end.

Definition IFDHGetCapabilities (lun : Z) (tag : ifd_tag) (length : Z) : ifd_prog :=
  let byte v := if length <? 1 then IfdErr IFD_COMMUNICATION_ERROR
                else IfdRet (IfdResult IFD_SUCCESS [v]) in
  with_client lun (λ s,
    match tag with
    | TAG_IFD_ATR =>
        ifd_xceive_client s (itmsg_alloc ITMSG_TYPE_ATR_REQ 0 [] 0) (λ rx,
          match rx with
          | None => IfdErr IFD_NO_SUCH_DEVICE
          | Some m => IfdRet (IfdResult IFD_SUCCESS (take (Z.to_nat length) (im_data m)))
          end)
    | TAG_IFD_SIMULTANEOUS_ACCESS => byte 1
    | TAG_IFD_SLOTS_NUMBER => byte 1
    | TAG_IFD_THREAD_SAFE => byte 0
    | TAG_IFD_SLOT_THREAD_SAFE => byte 0
    | TAG_IFD_OTHER => IfdErr IFD_ERROR_TAG
    end).

Definition IFDHPowerICC (lun : Z) (action : ifd_action) (atr_length : Z) : ifd_prog :=
  with_client lun (λ s,
    let xceive type :=
      ifd_xceive_client s (itmsg_alloc type 0 [] 0) (λ rx,
        match rx with
        | None => IfdErr IFD_NO_SUCH_DEVICE
        | Some _ => IFDHGetCapabilities lun TAG_IFD_ATR atr_length
        end) in
    match action with
    | IFD_POWER_DOWN => xceive ITMSG_TYPE_POWER_OFF_REQ
    | IFD_POWER_UP => xceive ITMSG_TYPE_POWER_ON_REQ
    | IFD_RESET => xceive ITMSG_TYPE_RESET_REQ
    | IFD_ACTION_OTHER => IfdErr IFD_NOT_SUPPORTED
    end).

Definition IFDHTransmitToICC (lun : Z) (tx_buffer : octets) (rx_length : Z) : ifd_prog :=
  with_client lun (λ s,
    if negb (msgb_fits (Z.of_nat (length tx_buffer))) then IfdAbort
    else
      ifd_xceive_client s
        (itmsg_alloc ITMSG_TYPE_C_APDU_REQ 0 tx_buffer (Z.of_nat (length tx_buffer))) (λ rx,
        match rx with
        | None => IfdErr IFD_NO_SUCH_DEVICE
        | Some m => IfdRet (IfdResult IFD_SUCCESS (take (Z.to_nat rx_length) (im_data m)))
        end)).

Definition IFDHICCPresence (lun : Z) : ifd_prog :=
  with_client lun (λ s,
    ifd_xceive_client s (itmsg_alloc ITMSG_TYPE_CARD_PRES_REQ 0 [] 0) (λ rx,
      match rx with
      | None => IfdErr IFD_NO_SUCH_DEVICE
      | Some m => IfdErr (if im_status m =? 0 then IFD_SUCCESS else IFD_ICC_NOT_PRESENT)
      end)).
End calls.

Definition IFDHControl (lun : Z) : ifd_prog :=
  match lun_slot lun with
  | None => IfdErr IFD_NO_SUCH_DEVICE
  | Some _ => IfdErr IFD_ERROR_NOT_SUPPORTED
  end.

Definition IFDHSetCapabilities (lun : Z) : ifd_prog :=
  match lun_slot lun with
  | None => IfdErr IFD_NO_SUCH_DEVICE
  | Some _ => IfdErr IFD_NOT_SUPPORTED
  end.

Definition IFDHSetProtocolParameters (lun : Z) : ifd_prog :=
  match lun_slot lun with
  | None => IfdErr IFD_NO_SUCH_DEVICE
  | Some _ => IfdErr IFD_SUCCESS
  end.

(** ** The driver *)

(** [ifd_wait]: the slot, the request and the rest of the call that the IFD
    thread is blocked in; [ifd_results]: what the calls returned so far. *)
Record ifd_state := IfdState {
  ifd_client : list (option client_thread);
  ifd_wait : option (nat * itmsg * (option itmsg → ifd_prog));
  ifd_results : list ifd_result;
}.

Definition set_ifd_client (k : list (option client_thread)) (s : ifd_state) : ifd_state :=
  IfdState k (ifd_wait s) (ifd_results s).
Definition set_ifd_wait (w : option (nat * itmsg * (option itmsg → ifd_prog))) (s : ifd_state)
    : ifd_state := IfdState (ifd_client s) w (ifd_results s).
Definition set_ifd_results (k : list ifd_result) (s : ifd_state) : ifd_state :=
  IfdState (ifd_client s) (ifd_wait s) k.

Abbreviation Ifd := (M ifd_state).

Definition ifd_init : ifd_state := IfdState (replicate MAX_SLOTS None) None [].

(** The client of an open slot. *)
Definition ct_at (s : nat) : Ifd client_thread :=
  o ← gets (λ st, ifd_client st !! s);
  match o with Some (Some c) => mret c | _ => undef end.

Definition on_ct {A} (s : nat) (m : Ct A) : Ifd A :=
  c ← ct_at s;
  r ← lift_outcome (m c);
  let '(a, c) := r in
  modify (λ st, set_ifd_client (<[s := Some c]> (ifd_client st)) st) ;;
  mret a.

Definition ifd_open (st : ifd_state) (s : nat) : bool :=
  match ifd_client st !! s with Some (Some _) => true | _ => false end.

(** After a request has been written its length is read from the message that was
    already freed.  That read is undefined; it may also find a value, which exceeds
    the number of bytes written or does not. *)
Inductive freed_read :=
| FreedFaults
| FreedLength (exceeds : bool).
#[global] Coercion FreedLength : bool >-> freed_read.

(** Runs a call until it blocks or returns. *)
Fixpoint run_ifd_prog (freed : freed_read) (p : ifd_prog) : Ifd () :=
  match p with
  | IfdAbort => panic
  | IfdRet r =>
      modify (set_ifd_wait None) ;;
      modify (λ st, set_ifd_results (ifd_results st ++ [r]) st)
  | ifd_xceive_client s tx k =>
      on_ct s (modify (λ c, set_to_client (to_client c ++ [tx]) c)) ;;
      match freed with
      | FreedFaults => undef
      | FreedLength exceeds =>
          if exceeds then run_ifd_prog freed (k None) else modify (set_ifd_wait (Some (s, tx, k)))
      end
  end.

(** The reply of the client is there. *)
Definition ifd_read_reply (freed : freed_read) : Ifd () :=
  w ← gets ifd_wait;
  match w with
  | None => mret ()
  | Some (s, _, k) =>
      c ← ct_at s;
      match to_ifd c with
      | [] => mret ()
      | m :: q =>
          on_ct s (modify (set_to_ifd q)) ;;
          run_ifd_prog freed (k (read_itmsg m))
      end
  end.

Definition COLON : Z := 58.

(** The configuration in a device name; [None] is [atoi] of a NULL pointer. *)
Definition parse_device_name (name : octets) : option client_thread_cfg :=
  let cfg host port id slot := Some (ClientThreadCfg host port id slot) in
  match strtok COLON name [] with
  | [] => cfg "127.0.0.1" (- 1) 0 0
  | [id] => cfg "127.0.0.1" (- 1) (atoi id) 0
  | [id; slot] => cfg "127.0.0.1" (- 1) (atoi id) (atoi slot)
  | [id; slot; host] => None
  | id :: slot :: host :: port :: _ => cfg (octets_str host) (atoi port) (atoi id) (atoi slot)
  end.

(** [thread_ok]: the sockets and the thread can be created. *)
Definition IFDHCreateChannelByName (e : srvc_env) (lun : Z) (device_name hostname : octets)
    (oks : bool * bool * bool) (thread_ok : bool) : Ifd RESPONSECODE :=
  match lun_slot lun with
  | None => mret IFD_NO_SUCH_DEVICE
  | Some s =>
      cfg ← deref (parse_device_name device_name);
      if negb thread_ok then mret IFD_COMMUNICATION_ERROR
      else
        r ← lift_outcome (client_pthread_main e hostname oks cfg
                            (client_thread_zero (thread_config cfg)));
        modify (λ st, set_ifd_client (<[s := Some r.2]> (ifd_client st)) st) ;;
        mret IFD_SUCCESS
  end.

Definition IFDHCloseChannel (lun : Z) : Ifd RESPONSECODE :=
  match lun_slot lun with
  | None => mret IFD_NO_SUCH_DEVICE
  | Some s => modify (λ st, set_ifd_client (<[s := None]> (ifd_client st)) st) ;; mret IFD_SUCCESS
  end.

(** ** Events *)

Inductive ifd_call :=
| CallGetCapabilities (lun : Z) (tag : ifd_tag) (length : Z)
| CallPowerICC (lun : Z) (action : ifd_action) (atr_length : Z)
| CallTransmitToICC (lun : Z) (tx_buffer : octets) (rx_length : Z)
| CallICCPresence (lun : Z)
| CallControl (lun : Z)
| CallSetCapabilities (lun : Z)
| CallSetProtocolParameters (lun : Z).

Definition ifd_call_prog (open : nat → bool) (c : ifd_call) : ifd_prog :=
  match c with
  | CallGetCapabilities lun tag n => IFDHGetCapabilities open lun tag n
  | CallPowerICC lun a n => IFDHPowerICC open lun a n
  | CallTransmitToICC lun b n => IFDHTransmitToICC open lun b n
  | CallICCPresence lun => IFDHICCPresence open lun
  | CallControl lun => IFDHControl lun
  | CallSetCapabilities lun => IFDHSetCapabilities lun
  | CallSetProtocolParameters lun => IFDHSetProtocolParameters lun
  end.

Inductive ifd_event :=
| IeCreate (lun : Z) (name hostname : octets) (oks : bool * bool * bool) (thread_ok : bool)
| IeClose (lun : Z)
| IeCall (c : ifd_call) (freed : freed_read)
| IeReply (freed : freed_read)
| IeClient (s : nat) (v : client_event)
| IeSock (s : nat) (rd wr : bool).

Definition run_ifd_event (e : srvc_env) (v : ifd_event) : Ifd () :=
  match v with
  | IeCreate lun name host oks ok => IFDHCreateChannelByName e lun name host oks ok ;; mret ()
  | IeClose lun => IFDHCloseChannel lun ;; mret ()
  | IeCall c freed => st ← gets id; run_ifd_prog freed (ifd_call_prog (ifd_open st) c)
  | IeReply freed => ifd_read_reply freed
  | IeClient s v => on_ct s (ct_event e v)
  | IeSock s rd wr => on_ct s (it_sock_fd_cb e rd wr)
  end.
End ifd.
