(* ===== verification/IfdInv.v ===== *)
(** * Rules and invariants of the reader driver

    [handled m c]: what a client thread does with a request, as a function;
    [ct_inv]: the invariant of a client thread; [ifd_inv]: that of the driver,
    whose calls only send proper requests to open slots ([prog_ok]).
    [ifd_run C]: the runs in which a condition [C] holds of every event. *)

From S2P Require Import Prelude OsmoFsm Slotmap RsproPdu RsproUtil Ipa ClientConn ConnInv.
From S2P Require Import RemsimClient ClientInv ClientProps IfdHandler.

(** ** Requests and replies *)

Definition reply_type (t : itmsg_type) : itmsg_type :=
  match t with
  | ITMSG_TYPE_CARD_PRES_REQ => ITMSG_TYPE_CARD_PRES_RESP
  | ITMSG_TYPE_ATR_REQ => ITMSG_TYPE_ATR_RESP
  | ITMSG_TYPE_C_APDU_REQ => ITMSG_TYPE_R_APDU_IND
  | ITMSG_TYPE_POWER_OFF_REQ => ITMSG_TYPE_POWER_OFF_RESP
  | ITMSG_TYPE_POWER_ON_REQ => ITMSG_TYPE_POWER_ON_RESP
  | ITMSG_TYPE_RESET_REQ => ITMSG_TYPE_RESET_RESP
  | _ => ITMSG_TYPE_NONE
  end.

Definition is_request (t : itmsg_type) : bool :=
  bool_decide (t ∈ [ITMSG_TYPE_CARD_PRES_REQ; ITMSG_TYPE_ATR_REQ; ITMSG_TYPE_C_APDU_REQ;
    ITMSG_TYPE_POWER_OFF_REQ; ITMSG_TYPE_POWER_ON_REQ; ITMSG_TYPE_RESET_REQ]).

(** A request that a client thread receives whole, unless it is a C-APDU. *)
Definition request_ok (tx : itmsg) : Prop :=
  is_request (im_type tx) = true ∧ (im_type tx ≠ ITMSG_TYPE_C_APDU_REQ → im_data tx = []).

(** The program of a call sends proper requests to open slots, and it does not end
    the process. *)
Inductive prog_ok (open : nat → bool) : ifd_prog → Prop :=
| po_ret r : prog_ok open (IfdRet r)
| po_xceive s tx k :
    open s = true → request_ok tx → (∀ rx, prog_ok open (k rx)) →
    prog_ok open (ifd_xceive_client s tx k).

Lemma prog_ok_mono open open' p :
  (∀ s, open s = true → open' s = true) → prog_ok open p → prog_ok open' p.
Proof. intros Ho. induction 1; constructor; auto. Qed.

Lemma with_client_ok open lun f :
  (∀ s, open s = true → prog_ok open (f s)) → prog_ok open (with_client open lun f).
Proof.
  intros Hf. unfold with_client. destruct (lun_slot lun) as [s|]; [|constructor].
  destruct (open s) eqn:Ho; [by apply Hf|constructor].
Qed.

Lemma request_alloc_ok t : is_request t = true → request_ok (itmsg_alloc t 0 [] 0).
Proof. by split. Qed.

Lemma get_capabilities_ok open lun tag n : prog_ok open (IFDHGetCapabilities open lun tag n).
Proof.
  apply with_client_ok. intros s Ho.
  destruct tag; [|destruct (n <? 1); apply po_ret..|apply po_ret].
  apply po_xceive; [done|by split|]. intros [m|]; apply po_ret.
Qed.

Lemma call_prog_ok open c : ifd_call_prog open c ≠ IfdAbort → prog_ok open (ifd_call_prog open c).
Proof.
  intros Hna.
  destruct c as [lun tag n|lun a n|lun b n|lun|lun|lun|lun]; cbn [ifd_call_prog] in *.
  - apply get_capabilities_ok.
  - apply with_client_ok. intros s Ho.
    assert (∀ t, is_request t = true → t ≠ ITMSG_TYPE_C_APDU_REQ → prog_ok open
      (ifd_xceive_client s (itmsg_alloc t 0 [] 0) (λ rx, match rx with
       | None => IfdErr IFD_NO_SUCH_DEVICE
       | Some _ => IFDHGetCapabilities open lun TAG_IFD_ATR n
       end))) as Hx.
    { intros t Ht _. apply po_xceive; [done|by split|]. intros [m|]; [apply get_capabilities_ok|apply po_ret]. }
    destruct a; [by apply Hx..|apply po_ret].
  - unfold IFDHTransmitToICC, with_client in *. destruct (lun_slot lun) as [s|]; [|constructor].
    destruct (open s) eqn:Ho; [|constructor]. destruct (negb _); [done|].
    constructor; [done|by split|]. intros [m|]; constructor.
  - apply with_client_ok. intros s Ho. constructor; [done|by split|]. intros [m|]; constructor.
  - unfold IFDHControl. destruct (lun_slot lun); constructor.
  - unfold IFDHSetCapabilities. destruct (lun_slot lun); constructor.
  - unfold IFDHSetProtocolParameters. destruct (lun_slot lun); constructor.
Qed.

(** ** What a client thread does with a request *)

(** The PDUs handed to the connection to the bankd, in order. *)
Definition send_all `{RsproCodec, StreamCliLib} (pdus : list RsproPDU) (bc : bankd_client) : bankd_client :=
  foldl (λ bc p, set_bankd_conn (with_sent p (bankd_conn bc)) bc) bc pdus.

Definition ct_clslot (c : client_thread) : ClientSlot_t :=
  default (MkClientSlot 0 0) (clslot (srvc_cfg (srv_conn (ct_bc c)))).

Definition status_pdu (c : client_thread) (rst : bool) (vcc clk card : Z) : RsproPDU :=
  rspro_gen_ClientSlotStatusInd (ct_clslot c) (bank_slot2rspro (bankd_slot (ct_bc c))) rst vcc clk card.

Definition request_pdus (m : itmsg) (c : client_thread) : list RsproPDU :=
  match im_type m with
  | ITMSG_TYPE_POWER_OFF_REQ => [status_pdu c true 0 0 1]
  | ITMSG_TYPE_POWER_ON_REQ => [status_pdu c false 1 1 1]
  | ITMSG_TYPE_RESET_REQ => [status_pdu c true 1 1 1; status_pdu c false 1 1 1]
  | ITMSG_TYPE_C_APDU_REQ =>
      [rspro_gen_TpduModem2Card (ct_clslot c) (bank_slot2rspro (bankd_slot (ct_bc c))) (im_data m)]
  | _ => []
  end.

Definition request_reply (m : itmsg) (c : client_thread) : option itmsg :=
  match im_type m with
  | ITMSG_TYPE_CARD_PRES_REQ =>
      Some (itmsg_alloc ITMSG_TYPE_CARD_PRES_RESP
        (if connected (bankd_conn (ct_bc c)) then 0 else 65535) [] 0)
  | ITMSG_TYPE_ATR_REQ => Some (itmsg_alloc ITMSG_TYPE_ATR_RESP 0 (ct_atr c) (ct_atr_len c))
  | ITMSG_TYPE_POWER_OFF_REQ => Some (itmsg_alloc ITMSG_TYPE_POWER_OFF_RESP 0 [] 0)
  | ITMSG_TYPE_POWER_ON_REQ => Some (itmsg_alloc ITMSG_TYPE_POWER_ON_RESP 0 [] 0)
  | ITMSG_TYPE_RESET_REQ => Some (itmsg_alloc ITMSG_TYPE_RESET_RESP 0 [] 0)
  | _ => None
  end.

Definition queue_reply (r : option itmsg) (c : client_thread) : client_thread :=
  match r with Some m => set_it_msgq (it_msgq c ++ [m]) true c | None => c end.

Definition handled `{RsproCodec, StreamCliLib} (m : itmsg) (c : client_thread) : client_thread :=
  queue_reply (request_reply m c) (set_ct_bc (send_all (request_pdus m c) (ct_bc c)) c).

(** The messages for the IFD thread among the calls into the front end. *)
Definition r_apdus (calls : list frontend_call) : list itmsg :=
  omap (λ f, match f with
             | frontend_handle_card2modem d =>
                 Some (itmsg_alloc ITMSG_TYPE_R_APDU_IND 0 d (Z.of_nat (length d)))
             | _ => None
             end) calls.

Lemma r_apdus_type calls m : m ∈ r_apdus calls → im_type m = ITMSG_TYPE_R_APDU_IND.
Proof. intros ([] & ? & ?)%list_elem_of_omap; by simplify_eq. Qed.

Section ifd.
Context `{OsmoLib, StreamCliLib, RsproCodec, IpaBtsLib, InetNtop, ClientBuild}.
Context (e : srvc_env).

Abbreviation now := (get_monotonic_ms e).

Record ct_inv (t : Z) (c : client_thread) : Prop := {
  cti_client : client_inv t (ct_bc c);
  cti_atr : length (ct_atr c) = ATR_SIZE_MAX;
  cti_len : 0 ≤ ct_atr_len c ≤ Z.of_nat ATR_SIZE_MAX;
}.

Lemma ct_inv_later t t' c : ct_inv t c → t ≤ t' → ct_inv t' c.
Proof. intros [] ?. split; eauto using client_inv_later. Qed.

Lemma client_inv_sent t p bc : client_inv t bc →
  client_inv t (set_bankd_conn (with_sent p (bankd_conn bc)) bc).
Proof. intros [Hs Hb Hsl Hm]. split; [done|by apply conn_inv_sent|done|done]. Qed.

Lemma send_all_inv t pdus bc : client_inv t bc → client_inv t (send_all pdus bc).
Proof.
  revert bc. induction pdus as [|p pdus IH]; intros bc Hi; [done|].
  cbn. by apply IH, client_inv_sent.
Qed.

Lemma wp_send_status E rst vcc clk card c (Q : () → client_thread → Prop) :
  ct_inv now c →
  Q () (set_ct_bc (send_all [status_pdu c rst vcc clk card] (ct_bc c)) c) →
  wpe E (send_slot_status e rst vcc clk card) c Q.
Proof.
  intros [[Hs Hb [sl Hsl] Hm] _ _] HQ. apply wp_bind, wp_zoom. unfold client_clslot.
  apply wp_bind, wp_gets. rewrite Hsl. apply wp_ret, wp_bind, wp_gets, wp_bind, wp_zoom.
  apply (wp_send_bankd e E 9); [by destruct c|]. intros rc. apply wp_ret.
  unfold status_pdu, ct_clslot in HQ. rewrite Hsl in HQ. by destruct c.
Qed.

Lemma wp_handle_it_msg E m c (Q : () → client_thread → Prop) :
  ct_inv now c → Q () (handled m c) → wpe E (handle_it_msg e m) c Q.
Proof.
  intros Hi HQ. pose proof Hi as [[Hs Hb [sl Hsl] Hm] Ha Hl].
  assert (set_ct_bc (ct_bc c) c = c) as Hid by (by destruct c).
  unfold handled, request_reply, request_pdus in HQ. unfold handle_it_msg.
  destruct (im_type m); cbn [queue_reply send_all foldl] in HQ; rewrite ?Hid in HQ;
    try (by apply wp_ret).
  - apply wp_bind, wp_gets, wp_bind. destruct Hb as [_ (fi & Hfi & _)]. rewrite Hfi.
    apply wp_ret, wp_modify.
    replace (enum (fi_state fi) =? 2) with (connected (bankd_conn (ct_bc c))); [done|].
    unfold connected, conn_state. rewrite Hfi. cbn. by destruct (fi_state fi).
  - apply wp_bind, wp_gets. by apply wp_modify.
  - apply wp_bind, wp_gets, wp_bind, wp_gets. rewrite Hsl. apply wp_bind, wp_zoom.
    apply (wp_send_bankd e E 9); [done|]. intros rc. apply wp_ret.
    unfold ct_clslot in HQ. by rewrite Hsl in HQ.
  - apply wp_bind, wp_send_status; [done|]. apply wp_modify. by destruct c.
  - apply wp_bind, wp_send_status; [done|]. apply wp_modify. by destruct c.
  - apply wp_bind, wp_send_status; [done|].
    apply wp_bind, wp_send_status; [split; [by apply client_inv_sent; split|done|done]|].
    apply wp_modify. by destruct c.
Qed.

Lemma handled_inv t m c : ct_inv t c → ct_inv t (handled m c).
Proof.
  intros [Hc Ha Hl]. unfold handled. apply (send_all_inv _ (request_pdus m c)) in Hc.
  destruct (request_reply m c); by split.
Qed.

(** ** Front end *)

(** The state after some calls into the front end. *)
Record frontend_done (calls : list frontend_call) (c c' : client_thread) : Prop := {
  fd_bc : ct_bc c' = ct_bc c;
  fd_client : to_client c' = to_client c;
  fd_ifd : to_ifd c' = to_ifd c;
  fd_msgq : it_msgq c' = it_msgq c ++ r_apdus calls;
  fd_atr : length (ct_atr c') = length (ct_atr c);
  fd_len : ct_atr_len c' = ct_atr_len c ∨ 0 ≤ ct_atr_len c' ≤ Z.of_nat ATR_SIZE_MAX;
}.

Lemma wp_frontend E calls c (Q : () → client_thread → Prop) :
  length (ct_atr c) = ATR_SIZE_MAX → (∀ c', frontend_done calls c c' → Q () c') →
  wpe E (for_each ifd_frontend calls) c Q.
Proof.
  revert c. induction calls as [|f calls IH]; intros c Hlen HQ; cbn [for_each].
  { apply wp_ret, HQ. split; try done; [by rewrite app_nil_r|by left]. }
  assert (∀ c1, frontend_done [f] c c1 → wpe E (for_each ifd_frontend calls) c1 Q) as Hrest.
  { intros c1 [B1 C1 I1 M1 A1 L1]. apply IH; [congruence|]. intros c' [B C I M A L]. apply HQ.
    split; [congruence|congruence|congruence| | |].
    - rewrite M, M1, <-app_assoc. unfold r_apdus. cbn. by destruct f.
    - congruence.
    - destruct L as [L|L]; [|by right]. rewrite L. done. }
  apply wp_bind. destruct f as [| | | | |d|d|s|s l]; cbn [ifd_frontend];
    try (apply wp_ret, Hrest; split; try done; [by rewrite app_nil_r|by left]).
  - apply wp_modify, Hrest. split; try done. by left.
  - apply wp_modify, Hrest. split; cbn; try done; [by rewrite app_nil_r| |right].
    + unfold overwrite. rewrite length_app, length_drop, length_take. unfold ATR_SIZE_MAX in *. lia.
    + rewrite length_take. unfold ATR_SIZE_MAX. lia.
Qed.

Lemma wp_ct_event E v c (Q : () → client_thread → Prop) :
  ct_inv now c → 0 ≤ now → ce_possible (ct_bc c) v → (∀ a, ce_abort e (ct_bc c) v a → E a) →
  (∀ bc' c', run_client_event e v (ct_bc c) = Done ((), bc') →
     frontend_done (drop (length (frontend_log (ct_bc c))) (frontend_log bc')) (set_ct_bc bc' c) c' →
     ct_inv now c' → Q () c') →
  wpe E (ct_event e v) c Q.
Proof.
  intros [Hc Ha Hl] Hnow Hpos Hab HQ. apply wp_bind, wp_gets, wp_bind, wp_zoom.
  assert (wpe E (run_client_event e v) (ct_bc c) (λ _ bc', client_inv now bc' ∧
    run_client_event e v (ct_bc c) = Done ((), bc'))) as Hwp.
  { assert (wpe E (run_client_event e v) (ct_bc c) (λ _, client_inv now)) as Hwp
      by (by apply wp_client_event).
    rewrite wpe_outcome in Hwp. apply wpe_outcome.
    destruct (run_client_event e v (ct_bc c)) as [[[] bc']| | |] eqn:Hrun; done. }
  eapply wp_mono; [exact Hwp|]. intros [] bc' [Hi Hrun]. apply wp_bind, wp_gets.
  apply wp_frontend; [done|]. intros c' Hd. apply (HQ bc'); [done|done|].
  destruct Hd as [B _ _ _ A L]. split; [by rewrite B|by rewrite A|]. cbn in L. lia.
Qed.

(** ** The driver *)

Definition open_ct (s : ifd_state) (i : nat) (c : client_thread) : Prop :=
  ifd_client s !! i = Some (Some c).

Lemma ifd_open_ct s i : ifd_open s i = true → ∃ c, open_ct s i c.
Proof. unfold ifd_open, open_ct. destruct (ifd_client s !! i) as [[c|]|]; [|done..]. eauto. Qed.

Lemma open_ct_open s i c : open_ct s i c → ifd_open s i = true.
Proof. unfold ifd_open, open_ct. by intros ->. Qed.

Definition upd_ct (i : nat) (c : client_thread) (s : ifd_state) : ifd_state :=
  set_ifd_client (<[i := Some c]> (ifd_client s)) s.

Lemma open_upd_eq s i c c' : open_ct s i c → open_ct (upd_ct i c' s) i c'.
Proof. intros Hc. apply list_lookup_insert_eq. by eapply lookup_lt_Some. Qed.

Lemma open_upd s i c' j d :
  open_ct (upd_ct i c' s) j d → (j = i ∧ d = c') ∨ (j ≠ i ∧ open_ct s j d).
Proof.
  unfold open_ct, upd_ct. cbn. intros Hd. destruct (decide (j = i)) as [->|Hne].
  - left. split; [done|]. destruct (decide (i < length (ifd_client s))%nat).
    + rewrite list_lookup_insert_eq in Hd by done. by injection Hd.
    + rewrite list_insert_ge in Hd by lia. apply lookup_lt_Some in Hd. lia.
  - right. by rewrite list_lookup_insert_ne in Hd by done.
Qed.

Lemma ifd_open_upd s i c c' j : open_ct s i c → ifd_open (upd_ct i c' s) j = ifd_open s j.
Proof.
  intros Hc. unfold ifd_open, upd_ct. cbn.
  destruct (decide (j = i)) as [->|Hne].
  - rewrite list_lookup_insert_eq by (by eapply lookup_lt_Some). unfold open_ct in Hc. by rewrite Hc.
  - by rewrite list_lookup_insert_ne by done.
Qed.

Lemma wp_on_ct {A} E i (m : M client_thread A) c s (Q : A → ifd_state → Prop) :
  open_ct s i c → wpe E m c (λ a c', Q a (upd_ct i c' s)) → wpe E (on_ct i m) s Q.
Proof.
  unfold open_ct. intros Hc Hm. unfold on_ct, ct_at. apply wp_bind, wp_bind, wp_gets. rewrite Hc.
  apply wp_ret, wp_bind. rewrite wpe_outcome in Hm. unfold lift_outcome.
  destruct (m c) as [[a c']| | |]; [|by apply wp_panic|by apply wp_undef|by apply wp_nofuel].
  apply wp_ret, wp_bind, wp_modify. by apply wp_ret.
Qed.

(** ** The invariant of the driver *)

Record ifd_inv (t : Z) (s : ifd_state) : Prop := {
  ifi_time : 0 ≤ t;
  ifi_length : length (ifd_client s) = MAX_SLOTS;
  ifi_ct : ∀ i c, open_ct s i c → ct_inv t c;
  ifi_wait : match ifd_wait s with
             | Some (i, tx, k) =>
                 ifd_open s i = true ∧ request_ok tx ∧ ∀ rx, prog_ok (ifd_open s) (k rx)
             | None => True
             end;
}.

Lemma ifd_inv_later t t' s : ifd_inv t s → t ≤ t' → ifd_inv t' s.
Proof. intros [] ?. split; [lia|done| |done]. eauto using ct_inv_later. Qed.

Lemma ifd_inv_upd t s i c c' :
  ifd_inv t s → open_ct s i c → ct_inv t c' → ifd_inv t (upd_ct i c' s).
Proof.
  intros [Ht Hlen Hct Hw] Hc Hc'. split; [done|by cbn; rewrite length_insert| |].
  - intros j d [[-> ->]|[_ Hd]]%open_upd; [done|by eapply Hct].
  - cbn [upd_ct ifd_wait set_ifd_client]. destruct (ifd_wait s) as [[[j tx] k]|]; [|done].
    destruct Hw as (Ho & Hr & Hk). split; [by erewrite ifd_open_upd|]. split; [done|].
    intros rx. eapply prog_ok_mono; [|apply Hk]. intros l Hl. by erewrite ifd_open_upd.
Qed.

Lemma ct_inv_to_client t q c : ct_inv t c → ct_inv t (set_to_client q c).
Proof. by intros []. Qed.
Lemma ct_inv_to_ifd t q c : ct_inv t c → ct_inv t (set_to_ifd q c).
Proof. by intros []. Qed.

Definition is_xceive (p : ifd_prog) : Prop :=
  match p with ifd_xceive_client _ _ _ => True | _ => False end.

(** Running a call: it returns, or blocks in a request it has sent. *)
Lemma wp_run_prog E open freed p t s :
  prog_ok open p → (freed = FreedFaults → is_xceive p → E AUndef) → (∀ l, open l = true → ifd_open s l = true) → ifd_inv t s →
  wpe E (run_ifd_prog freed p) s (λ _, ifd_inv t).
Proof.
  intros Hp HE. revert s. induction Hp as [r|i tx k Hi Htx Hk IH]; intros s Ho Hs; cbn [run_ifd_prog].
  - apply wp_bind, wp_modify, wp_modify. by destruct Hs.
  - destruct (ifd_open_ct s i) as [c Hc]; [by apply Ho|]. apply wp_bind.
    eapply wp_on_ct; [done|]. apply wp_modify.
    set (s' := upd_ct i _ s).
    assert (ifd_inv t s') as Hs'.
    { eapply ifd_inv_upd; [done|done|]. apply ct_inv_to_client. by eapply ifi_ct. }
    assert (∀ l, open l = true → ifd_open s' l = true) as Hopen.
    { intros l Hl. unfold s'. erewrite ifd_open_upd; [|done]. by apply Ho. }
    destruct freed as [|[]]; [by apply wp_undef, HE|by apply IH|].
    apply wp_modify. destruct Hs' as [T1 L1 C1 W1]. split; [done|done|done|].
    cbn. split; [by apply Hopen|]. split; [done|].
    intros rx. eapply prog_ok_mono; [exact Hopen|]. apply Hk.
Qed.

(** ** Events *)

(** The events that can happen: the IFD thread makes no call while it is
    blocked in one. *)
Definition ie_possible (s : ifd_state) (v : ifd_event) : Prop :=
  match v with
  | IeCreate _ _ _ _ _ | IeClose _ | IeCall _ _ => ifd_wait s = None
  | IeReply _ =>
      match ifd_wait s with
      | Some (i, _, _) =>
          match ifd_client s !! i with Some (Some c) => to_ifd c ≠ [] | _ => False end
      | None => False
      end
  | IeClient i v =>
      match ifd_client s !! i with Some (Some c) => ce_possible (ct_bc c) v | _ => False end
  | IeSock i _ _ => ifd_open s i = true
  end.

(** The event writes a request to a client thread. *)
Definition writes_request (s : ifd_state) (v : ifd_event) : Prop :=
  match v with
  | IeCall call _ => is_xceive (ifd_call_prog (ifd_open s) call)
  | IeReply _ => ∃ i tx k c m q,
      ifd_wait s = Some (i, tx, k) ∧ open_ct s i c ∧ to_ifd c = m :: q ∧ is_xceive (k (read_itmsg m))
  | _ => False
  end.

(** How an event may end the process: a device name without a port, a client
    that cannot be created, the read of the freed request, a C-APDU that is too
    long for its buffer, and what ends a client. *)
Definition ie_abort (s : ifd_state) (v : ifd_event) (a : abort) : Prop :=
  match v with
  | IeCreate _ name _ oks _ =>
      a = AUndef ∧ parse_device_name name = None ∨ a = APanic ∧ oks ≠ (true, true, true)
  | IeCall call freed =>
      a = AUndef ∧ freed = FreedFaults ∧ writes_request s v ∨
      a = APanic ∧ ifd_call_prog (ifd_open s) call = IfdAbort
  | IeReply freed => a = AUndef ∧ freed = FreedFaults ∧ writes_request s v
  | IeClient i v => ∃ c, open_ct s i c ∧ ce_abort e (ct_bc c) v a
  | _ => False
  end.

Lemma wp_create_client E hostname cfg oks bc0 :
  (oks ≠ (true, true, true) → E APanic) →
  wpe E (remsim_client_create hostname (str_octets "remsim_ifdhandler") cfg oks) bc0
    (λ _, client_inv 0).
Proof.
  intros HE. rewrite wpe_outcome.
  destruct (remsim_client_create _ _ _ _ _) as [[[] bc]| | |] eqn:Hrun.
  - by eapply create_inv.
  - destruct oks as [[[] []] []]; [done|by apply HE..].
  - by destruct oks as [[[] []] []].
  - by destruct oks as [[[] []] []].
Qed.

Lemma wp_client_main E hostname oks cfg c :
  0 ≤ now → length (ct_atr c) = ATR_SIZE_MAX → ct_atr_len c = 0 →
  (oks ≠ (true, true, true) → E APanic) →
  wpe E (client_pthread_main e hostname oks cfg) c (λ _, ct_inv now).
Proof.
  intros Hnow Ha Hl HE. apply wp_bind, wp_zoom.
  eapply wp_mono; [by apply wp_create_client|]. intros [] bc Hbc.
  apply wp_ct_event; [|done|done|done|done].
  split; [by eapply client_inv_later|done|]. cbn. rewrite Hl. unfold ATR_SIZE_MAX. lia.
Qed.

Lemma lun_slot_lt lun i : lun_slot lun = Some i → (i < MAX_SLOTS)%nat.
Proof.
  unfold lun_slot. destruct (negb _); [done|]. destruct (Z.leb_spec (Z.of_nat MAX_SLOTS) (LUN2SLOT lun)); [done|].
  intros [= <-]. unfold MAX_SLOTS in *. lia.
Qed.

Lemma ifd_inv_set t s i o :
  ifd_inv t s → ifd_wait s = None → (∀ c, o = Some c → ct_inv t c) →
  ifd_inv t (set_ifd_client (<[i := o]> (ifd_client s)) s).
Proof.
  intros [Ht Hlen Hct Hw] Hn Ho. split; [done|by cbn; rewrite length_insert| |by cbn; rewrite Hn].
  intros j c Hj. unfold open_ct in Hj. cbn in Hj. destruct (decide (i = j)) as [->|Hne].
  - destruct (decide (j < length (ifd_client s))%nat).
    + rewrite list_lookup_insert_eq in Hj by done. injection Hj as Hj. by apply Ho.
    + rewrite list_insert_ge in Hj by lia. apply lookup_lt_Some in Hj. lia.
  - rewrite list_lookup_insert_ne in Hj by done. by eapply Hct.
Qed.

Lemma wp_ifd_event v s :
  ifd_inv now s → ie_possible s v →
  wpe (ie_abort s v) (run_ifd_event e v) s (λ _, ifd_inv now).
Proof.
  intros Hi Hpos. pose proof (ifi_time _ _ Hi) as Hnow.
  destruct v as [lun name host oks ok|lun|call freed|freed|i v|i rd wr]; cbn [run_ifd_event ie_possible] in *.
  - apply wp_bind. unfold IFDHCreateChannelByName. destruct (lun_slot lun) as [i|]; [|by apply wp_ret, wp_ret].
    apply wp_bind. destruct (parse_device_name name) as [cfg|] eqn:Hn; [|by apply wp_undef; left].
    apply wp_ret. destruct ok; cbn [negb]; [|by apply wp_ret, wp_ret].
    pose proof (wp_client_main (ie_abort s (IeCreate lun name host oks true)) host oks cfg
      (client_thread_zero (thread_config cfg)) Hnow eq_refl eq_refl ltac:(intros Hno; by right)) as Hwp.
    rewrite wpe_outcome in Hwp. apply wp_bind. unfold lift_outcome.
    destruct (client_pthread_main _ _ _ _ _) as [[[] c]| | |];
      [|by apply wp_panic|by apply wp_undef|by apply wp_nofuel].
    apply wp_ret, wp_bind, wp_modify, wp_ret, wp_ret. apply ifd_inv_set; [done|done|].
    by intros ? [= <-].
  - apply wp_bind. unfold IFDHCloseChannel. destruct (lun_slot lun) as [i|]; [|by apply wp_ret, wp_ret].
    apply wp_bind, wp_modify, wp_ret, wp_ret. by apply ifd_inv_set.
  - apply wp_bind, wp_gets. cbn [id].
    assert (ifd_call_prog (ifd_open s) call = IfdAbort ∨ ifd_call_prog (ifd_open s) call ≠ IfdAbort) as [Hab|Hna]
      by (destruct (ifd_call_prog (ifd_open s) call); first [by left|by right]).
    + rewrite Hab. apply wp_panic. by right.
    + eapply wp_run_prog; [by apply call_prog_ok| |done|done]. intros -> Hx. by left.
  - apply wp_bind, wp_gets. destruct (ifd_wait s) as [[[i tx] k]|] eqn:Hw; [|done].
    pose proof (ifi_wait _ _ Hi) as Hwait. rewrite Hw in Hwait. destruct Hwait as (Ho & _ & Hk).
    destruct (ifd_open_ct _ _ Ho) as [c Hc]. apply wp_bind. unfold ct_at.
    apply wp_bind, wp_gets. rewrite Hc. apply wp_ret. destruct (to_ifd c) as [|m q] eqn:Hto; [by apply wp_ret|].
    apply wp_bind. eapply wp_on_ct; [done|]. apply wp_modify.
    eapply wp_run_prog; [apply Hk| | |].
    + intros -> Hx. split; [done|]. split; [done|]. by eexists i, tx, k, c, m, q.
    + intros l Hl. by erewrite ifd_open_upd.
    + eapply ifd_inv_upd; [done|done|]. apply ct_inv_to_ifd. by eapply ifi_ct.
  - destruct (ifd_client s !! i) as [[c|]|] eqn:Hc; try done.
    eapply wp_on_ct; [done|]. apply wp_ct_event; [by eapply ifi_ct|done|done| |].
    + intros a Ha. by exists c.
    + intros bc' c' _ _ Hc'. by eapply ifd_inv_upd.
  - destruct (ifd_open_ct _ _ Hpos) as [c Hc]. eapply wp_on_ct; [done|].
    apply wp_bind.
    assert (∀ c', ct_inv now c' → wpe (ie_abort s (IeSock i rd wr)) (when wr it_sock_write) c'
      (λ _ c'', ifd_inv now (upd_ct i c'' s))) as Hwr.
    { intros c' Hc'. apply wp_when; intros _; [|by eapply ifd_inv_upd].
      apply wp_bind, wp_gets. destruct (it_msgq c'); apply wp_modify; eapply ifd_inv_upd; try done;
        by destruct Hc'. }
    assert (ct_inv now c) as Hci by (by eapply ifi_ct).
    apply wp_when; intros _; [|by apply Hwr].
    apply wp_bind, wp_gets. destruct (to_client c) as [|m q]; [by apply wp_ret, Hwr|].
    apply wp_bind, wp_modify. destruct (read_itmsg m) as [m'|]; [|by apply wp_ret, Hwr, ct_inv_to_client].
    apply wp_handle_it_msg; [by apply ct_inv_to_client|]. apply Hwr, handled_inv. by apply ct_inv_to_client.
Qed.
End ifd.

(** ** Runs *)

Section runs.
Context `{OsmoLib, StreamCliLib, RsproCodec, IpaBtsLib, InetNtop, ClientBuild}.

(** The states the driver reaches from [s0] while a condition [C] holds of each
    event. *)
Inductive ifd_from (C : ifd_state → srvc_env → ifd_event → Prop) (t0 : Z) (s0 : ifd_state)
    : Z → ifd_state → Prop :=
| ir_init : ifd_from C t0 s0 t0 s0
| ir_event t e v s s' :
    ifd_from C t0 s0 t s → t ≤ get_monotonic_ms e → ie_possible s v → C s e v →
    run_ifd_event e v s = Done ((), s') → ifd_from C t0 s0 (get_monotonic_ms e) s'.

Definition ifd_run (C : ifd_state → srvc_env → ifd_event → Prop) : Z → ifd_state → Prop :=
  ifd_from C 0 ifd_init.

Definition ifd_reachable : Z → ifd_state → Prop := ifd_run (λ _ _ _, True).

Lemma ifd_inv_init : ifd_inv 0 ifd_init.
Proof.
  split; [done|done| |done]. intros i c Hc. unfold open_ct, ifd_init in Hc. cbn [ifd_client] in Hc.
  by apply lookup_replicate in Hc as [? _].
Qed.

Lemma ifd_from_inv C t0 s0 t s : ifd_inv t0 s0 → ifd_from C t0 s0 t s → ifd_inv t s.
Proof.
  intros Hi. induction 1 as [|t e v s s' Hr IH Ht Hpos _ Hrun]; [done|].
  refine (wp_done_inv _ _ _ _ _ (wp_ifd_event e v s _ Hpos) Hrun). by eapply ifd_inv_later.
Qed.

Lemma ifd_run_inv C t s : ifd_run C t s → ifd_inv t s.
Proof. apply ifd_from_inv, ifd_inv_init. Qed.

Lemma ifd_run_weaken (C D : ifd_state → srvc_env → ifd_event → Prop) t s :
  (∀ s e v, C s e v → D s e v) → ifd_run C t s → ifd_run D t s.
Proof. intros HCD. induction 1; [apply ir_init|eapply ir_event; eauto]. Qed.
End runs.
