(* ===== verification/IfdProps.v ===== *)
(** * Properties of the reader driver

    Which reply a call gets ([replies_match], with the runs in which it does
    not), which C-APDUs are lost and block the service, what the requests do to
    the card, and the device names. *)

From S2P Require Import Prelude OsmoFsm Slotmap RsproPdu RsproUtil Ipa ClientConn Examples ConnInv.
From S2P Require Import RemsimClient ClientInv ClientProps IfdHandler IfdInv.

Section ifd.
Context `{OsmoLib, StreamCliLib, RsproCodec, IpaBtsLib, InetNtop, ClientBuild}.

(** C21. From every reachable state of the reader driver every event of the IFD
    thread and of the client threads that can happen is processed to the end.
    The exceptions: after a request has been written its length is read from the
    message that was already freed ([FreedFaults]); a C-APDU that with its header
    exceeds the 16 bits of a buffer's size ends the process; a device name that
    ends behind the host (the missing port is read through a NULL pointer); a
    client whose machines cannot be allocated; and what ends a client
    ([ce_abort]). *)
Theorem ifd_events_defined t s e v :
  ifd_reachable t s → t ≤ get_monotonic_ms e → ie_possible s v →
  match run_ifd_event e v s with
  | Done (_, s') => ifd_reachable (get_monotonic_ms e) s'
  | Panic => ie_abort e s v APanic
  | Undef => ie_abort e s v AUndef
  | NoFuel => False
  end.
Proof.
  intros Hr Ht Hpos.
  assert (wpe (ie_abort e s v) (run_ifd_event e v) s (λ _ _, True)) as Hwp.
  { eapply wp_mono; [apply wp_ifd_event; [|done]|done].
    eapply ifd_inv_later; [by eapply ifd_run_inv|done]. }
  rewrite wpe_outcome in Hwp. destruct (run_ifd_event e v s) as [[[] s']| | |] eqn:Hrun; try done.
  - by eapply ir_event.
  - destruct v as [| | | |i v|]; cbn in Hwp; try done.
    + by destruct Hwp as [[? _]|[? _]].
    + by destruct Hwp as [[? _]|[? _]].
    + by destruct Hwp.
    + destruct Hwp as (c & _ & Hab). destruct v as [|v|v| | |]; cbn in Hab; try done.
      by destruct Hab as [|[? _]].
Qed.

(** ** Which reply a call gets *)

Definition queues (c : client_thread) : list itmsg * list itmsg * list itmsg :=
  (to_client c, it_msgq c, to_ifd c).

(** No message is between the threads. *)
Definition quiet (c : client_thread) : Prop := queues c = ([], [], []).

(** The request [tx] is on its way, a C-APDU is with the bankd (or lost), or the
    reply is on its way. *)
Inductive expects (tx : itmsg) (c : client_thread) : Prop :=
| ex_request : queues c = ([tx], [], []) → expects tx c
| ex_bankd : im_type tx = ITMSG_TYPE_C_APDU_REQ → quiet c → expects tx c
| ex_queued m : queues c = ([], [m], []) → im_type m = reply_type (im_type tx) → expects tx c
| ex_reply m : queues c = ([], [], [m]) → im_type m = reply_type (im_type tx) → expects tx c.

(** A slot, as the IFD thread sees it. *)
Definition in_order (s : ifd_state) : Prop :=
  ∀ i c, open_ct s i c →
    match ifd_wait s with
    | Some (j, tx, _) => if decide (i = j) then expects tx c else quiet c
    | None => quiet c
    end.

(** The IFD thread waits for the response to a C-APDU of slot [i] that is with
    the bankd. *)
Definition outstanding (s : ifd_state) (i : nat) : Prop :=
  match ifd_wait s with
  | Some (j, tx, _) => i = j ∧ im_type tx = ITMSG_TYPE_C_APDU_REQ ∧ ∀ c, open_ct s i c → quiet c
  | None => False
  end.

(** The bankd sends a response only for an outstanding C-APDU, and one; and what
    is read from freed memory does not exceed the length of a request. *)
Definition well_behaved (s : ifd_state) (e : srvc_env) (v : ifd_event) : Prop :=
  match v with
  | IeClient i v => ∀ c c', open_ct s i c → ct_event e v c = Done ((), c') →
      it_msgq c' = it_msgq c ∨ outstanding s i ∧ (length (it_msgq c') ≤ 1)%nat
  | IeCall _ freed | IeReply freed => freed = false
  | _ => True
  end.

Lemma quiet_handled tx c :
  request_ok tx → quiet c →
  ∃ c', match read_itmsg tx with Some m => c' = handled m c | None => c' = c end ∧ expects tx c'.
Proof.
  intros [Hreq Hdata] Hq. unfold quiet, queues in Hq. injection Hq as Q1 Q2 Q3.
  destruct (read_itmsg tx) as [m|] eqn:Hread.
  - assert (m = tx) as -> by (unfold read_itmsg in Hread; destruct (_ <=? _); congruence).
    eexists. split; [done|]. unfold handled. unfold request_reply.
    destruct (im_type tx) eqn:Ht; try done; cbn [queue_reply];
      try (eapply ex_queued; [unfold queues; cbn; by rewrite Q1, Q2, Q3|by rewrite Ht]).
    apply ex_bankd; [done|]. unfold quiet, queues. cbn. by rewrite Q1, Q2, Q3.
  - eexists. split; [done|]. apply ex_bankd.
    + destruct (decide (im_type tx = ITMSG_TYPE_C_APDU_REQ)) as [|Hne]; [done|].
      unfold read_itmsg in Hread. by rewrite (Hdata Hne) in Hread.
    + unfold quiet, queues. by rewrite Q1, Q2, Q3.
Qed.

Lemma in_order_upd s i c c' :
  in_order s → open_ct s i c →
  (match ifd_wait s with
   | Some (j, tx, _) => if decide (i = j) then expects tx c else quiet c
   | None => quiet c
   end →
   match ifd_wait s with
   | Some (j, tx, _) => if decide (i = j) then expects tx c' else quiet c'
   | None => quiet c'
   end) → in_order (upd_ct i c' s).
Proof.
  intros Ho Hc Hstep j d [[-> ->]|[_ Hd]]%open_upd; [by apply Hstep, Ho|by apply Ho].
Qed.

(** The call runs on in a state in which all slots are quiet. *)
Lemma in_order_run open p s s' :
  prog_ok open p → (∀ i c, open_ct s i c → quiet c) →
  (∀ l, open l = true → ifd_open s l = true) →
  run_ifd_prog false p s = Done ((), s') → in_order s'.
Proof.
  intros Hp Hq Hopen Hrun.
  enough (wp (run_ifd_prog false p) s (λ _, in_order)) as Hwp by exact (wp_done_inv _ _ _ _ _ Hwp Hrun).
  destruct Hp as [r|i tx k Hi Htx Hk]; cbn [run_ifd_prog].
  - apply wp_bind, wp_modify, wp_modify. intros i c Hc. cbn. by eapply Hq.
  - destruct (ifd_open_ct s i) as [c Hc]; [by apply Hopen|].
    apply wp_bind. eapply wp_on_ct; [done|]. apply wp_modify, wp_modify.
    intros j d Hd. cbn [ifd_wait set_ifd_wait].
    change (open_ct (upd_ct i (set_to_client (to_client c ++ [tx]) c) s) j d) in Hd.
    apply open_upd in Hd as [[-> ->]|[Hne Hd]].
    + rewrite decide_True by done. apply ex_request. specialize (Hq _ _ Hc).
      unfold quiet, queues in *. cbn. by injection Hq as -> -> ->.
    + rewrite decide_False by done. by eapply Hq.
Qed.

Lemma in_order_sock e i rd wr s c s' t :
  ifd_inv t s → t ≤ get_monotonic_ms e → in_order s → open_ct s i c →
  run_ifd_event e (IeSock i rd wr) s = Done ((), s') → in_order s'.
Proof.
  intros Hi Ht Ho Hc Hrun. apply (ifd_inv_later _ (get_monotonic_ms e)) in Hi; [|done].
  pose proof (ifi_ct _ _ Hi _ _ Hc) as Hci. specialize (Ho _ _ Hc) as Hio.
  pose proof (ifi_wait _ _ Hi) as Hw.
  set (P c := match ifd_wait s with
    | Some (j, tx, _) => if decide (i = j) then expects tx c else quiet c
    | None => quiet c
    end) in *.
  enough (wp (run_ifd_event e (IeSock i rd wr)) s (λ _, in_order)) as Hwp
    by exact (wp_done_inv _ _ _ _ _ Hwp Hrun).
  eapply wp_on_ct; [done|]. apply wp_bind.
  assert (∀ c', P c' → wp (when wr it_sock_write) c' (λ _ c'', in_order (upd_ct i c'' s))) as Hwr.
  { intros c' Hc'.
    assert (∀ c'', P c'' → in_order (upd_ct i c'' s)) as Hdone
      by (intros c'' Hc''; by eapply in_order_upd).
    apply wp_when; intros _; [|by apply Hdone]. apply wp_bind, wp_gets.
    assert (∀ q c', quiet c' → quiet (set_it_msgq [] q c')) as Hqq.
    { intros q d Hd. unfold quiet, queues in *. cbn. congruence. }
    destruct (it_msgq c') as [|m q] eqn:Hmq; apply wp_modify, Hdone; unfold P in *.
    - destruct (ifd_wait s) as [[[j tx] k]|]; [|by apply Hqq]. destruct (decide (i = j)); [|by apply Hqq].
      destruct Hc' as [E|E1 E2|m E E1|m E E1]; unfold queues in *.
      + apply ex_request. unfold queues; cbn. congruence.
      + apply ex_bankd; [done|by apply Hqq].
      + congruence.
      + eapply ex_reply; [|done]. unfold queues; cbn. congruence.
    - destruct (ifd_wait s) as [[[j tx] k]|]; [|unfold quiet, queues in *; congruence].
      destruct (decide (i = j)); [|unfold quiet, queues in *; congruence].
      destruct Hc' as [E|E1 E2|m' E E1|m' E E1]; unfold quiet, queues in *; try congruence.
      rewrite Hmq in E. injection E as E3 -> -> E5.
      eapply ex_reply; [|done]. unfold queues. cbn. by rewrite E3, E5. }
  apply wp_when; intros _; [|by apply Hwr].
  apply wp_bind, wp_gets. destruct (to_client c) as [|m q] eqn:Hto; [by apply wp_ret, Hwr|].
  apply wp_bind, wp_modify. unfold P in Hio, Hwr.
  destruct (ifd_wait s) as [[[j tx] k]|] eqn:Hwait; [|unfold quiet, queues in Hio; congruence].
  destruct (decide (i = j)) as [->|]; [|unfold quiet, queues in Hio; congruence].
  destruct Hw as (_ & Hreq & _).
  destruct Hio as [E|E1 E|m' E E1|m' E E1]; unfold quiet, queues in E; try congruence.
  rewrite Hto in E. injection E as -> -> E2 E3.
  destruct (quiet_handled tx (set_to_client [] c)) as (c' & Hc' & Hex);
    [done|unfold quiet, queues; cbn; congruence|].
  destruct (read_itmsg tx) as [m|]; [|by apply wp_ret, Hwr; subst c'].
  apply wp_handle_it_msg; [by apply ct_inv_to_client|]. rewrite <-Hc'. by apply Hwr.
Qed.

(** A client thread that has just been started is quiet. *)
Lemma start_log e bc bc' :
  client_inv (get_monotonic_ms e) bc → 0 ≤ get_monotonic_ms e →
  conn_state (srv_conn bc) = Some SRVC_ST_INIT →
  run_client_event e CeStart bc = Done ((), bc') → frontend_log bc' = frontend_log bc.
Proof.
  intros [[Hwf (fi & Hfi & _)] _ _ _] Hnow Hst. unfold conn_state in Hst. rewrite Hfi in Hst.
  injection Hst as Hst. intros Hrun.
  refine (wp_done_inv _ bc (λ _ bc', frontend_log bc' = frontend_log bc) () bc' _ Hrun).
  apply wp_bind. replace bc with (lset srv_lens (srv_conn bc) bc) at 1 by (by destruct bc).
  eapply (wp_establish_init srv_lens e (λ n, cf_srv (client_fsm e n))
    (λ n, srv_parent (calls_into (client_fsm e n))) (srv_fsm_S e) (λ _, False)) with (n := 7%nat); [done..|].
  intros c'. by apply wp_ret.
Qed.

Lemma client_main_quiet e host oks cfg ccfg c :
  0 ≤ get_monotonic_ms e →
  client_pthread_main e host oks cfg (client_thread_zero ccfg) = Done ((), c) → quiet c.
Proof.
  intros Hnow Hrun. unfold client_pthread_main in Hrun. apply mbind_Done_inv in Hrun as ([] & c1 & Hz & Hrun).
  unfold zoom in Hz. destruct (remsim_client_create _ _ _ _ _) as [[[] bc]| | |] eqn:Hc; try done.
  injection Hz as <-. apply create_fresh in Hc as (Hi & Hst & Hlog).
  assert (ct_inv (get_monotonic_ms e) (set_ct_bc bc (client_thread_zero ccfg))) as Hct.
  { split; [by eapply client_inv_later|done|by cbn]. }
  refine (wp_done_inv _ _ (λ _, quiet) _ _ _ Hrun).
  apply wp_ct_event; [done|done|done|done|]. intros bc' c' Hst' [_ C I M _ _] _.
  apply start_log in Hst'; [|apply Hct|done|done]. cbn [ct_bc set_ct_bc] in *.
  unfold quiet, queues. rewrite C, I, M, Hst', drop_all. done.
Qed.

Lemma on_ct_done {A} i (m : M client_thread A) s a s' :
  on_ct i m s = Done (a, s') → ∃ c c', open_ct s i c ∧ m c = Done (a, c') ∧ s' = upd_ct i c' s.
Proof.
  unfold on_ct, ct_at. intros Hrun. apply mbind_Done_inv in Hrun as (c & s1 & Hc & Hrun).
  apply mbind_Done_inv in Hc as (o & s2 & Ho & Hc). injection Ho as <- <-.
  destruct (ifd_client s !! i) as [[c0|]|] eqn:Hl; try done. injection Hc as -> ->.
  apply mbind_Done_inv in Hrun as (r & s2 & Hr & Hrun). unfold lift_outcome in Hr.
  destruct (m c) as [[a' c']| | |] eqn:Hm; try done. injection Hr as <- <-.
  apply mbind_Done_inv in Hrun as ([] & s3 & Hs & Hrun). injection Hs as <-. injection Hrun as <- <-.
  by exists c, c'.
Qed.

Lemma in_order_reply s s' t :
  ifd_inv t s → in_order s → ie_possible s (IeReply false) →
  ifd_read_reply false s = Done ((), s') → in_order s'.
Proof.
  intros Hi Ho Hpos Hrun. apply mbind_Done_inv in Hrun as (w & s1 & Hw & Hrun). injection Hw as <- <-.
  pose proof (ifi_wait _ _ Hi) as Hw. cbn [ie_possible] in Hpos.
  destruct (ifd_wait s) as [[[i tx] k]|] eqn:Hwait; [|done]. destruct Hw as (Hop & _ & Hk).
  destruct (ifd_open_ct _ _ Hop) as [c Hc]. pose proof (Ho _ _ Hc) as Hx. rewrite Hwait in Hx.
  rewrite decide_True in Hx by done. pose proof Hc as Hl. unfold open_ct in Hl. rewrite Hl in Hpos.
  apply mbind_Done_inv in Hrun as (c' & s1 & Hc' & Hrun). unfold ct_at in Hc'.
  apply mbind_Done_inv in Hc' as (o & s2 & Heq & Hc'). injection Heq as <- <-. rewrite Hl in Hc'.
  injection Hc' as <- <-.
  destruct Hx as [E|_ E|m E _|m E _]; unfold quiet, queues in E; injection E as E1 E2 E3; try congruence.
  rewrite E3 in Hrun. apply mbind_Done_inv in Hrun as ([] & s1 & Hon & Hrun).
  apply on_ct_done in Hon as (d & d' & Hd & Hm & ->). unfold open_ct in Hd.
  assert (d = c) as -> by congruence. injection Hm as <-.
  eapply in_order_run; [apply Hk| | |exact Hrun].
  - intros j d [[-> ->]|[Hne Hj]]%open_upd; [unfold quiet, queues; cbn; congruence|].
    specialize (Ho _ _ Hj). rewrite Hwait in Ho. by rewrite decide_False in Ho by congruence.
  - intros l Hl'. by erewrite ifd_open_upd.
Qed.

Lemma in_order_client s i c c' e v t :
  ct_inv t c → 0 ≤ t → t ≤ get_monotonic_ms e → in_order s → open_ct s i c →
  ce_possible (ct_bc c) v → ct_event e v c = Done ((), c') →
  it_msgq c' = it_msgq c ∨ outstanding s i ∧ (length (it_msgq c') ≤ 1)%nat →
  in_order (upd_ct i c' s).
Proof.
  intros Hct Ht Hte Ho Hc Hpos Hrun Hq.
  assert (∃ calls, to_client c' = to_client c ∧ to_ifd c' = to_ifd c ∧
    it_msgq c' = it_msgq c ++ r_apdus calls) as (calls & C & I & M).
  { refine (wp_done_inv _ c (λ _ c', ∃ calls, to_client c' = to_client c ∧ to_ifd c' = to_ifd c ∧
      it_msgq c' = it_msgq c ++ r_apdus calls) () c' _ Hrun).
    apply wp_ct_event; [by eapply ct_inv_later|lia|done|done|].
    intros bc' c'' _ [_ C I M _ _] _. by eexists. }
  apply (in_order_upd _ _ c); [done|done|]. specialize (Ho _ _ Hc).
  destruct Hq as [Hq|[Hout Hlen]].
  - assert (queues c' = queues c) as Hqs by (unfold queues; congruence). intros Hx.
    unfold quiet in *. destruct (ifd_wait s) as [[[j tx] k]|]; [|congruence].
    destruct (decide (i = j)); [|congruence].
    destruct Hx as [E|E1 E|m E E1|m E E1]; unfold quiet in *; rewrite <-Hqs in E;
      [by apply ex_request|by apply ex_bankd|by eapply ex_queued|by eapply ex_reply].
  - unfold outstanding in Hout. destruct (ifd_wait s) as [[[j tx] k]|]; [|done].
    destruct Hout as (-> & Hty & Hquiet). intros _. rewrite decide_True by done.
    specialize (Hquiet _ Hc). unfold quiet, queues in Hquiet. injection Hquiet as Q1 Q2 Q3.
    rewrite Q2 in M. destruct (r_apdus calls) as [|m [|m' l]] eqn:Hr.
    + apply ex_bankd; [done|]. unfold quiet, queues. by rewrite C, I, M, Q1, Q3.
    + apply (ex_queued _ _ m); [unfold queues; by rewrite C, I, M, Q1, Q3|].
      rewrite Hty. apply (r_apdus_type calls). rewrite Hr. by left.
    + rewrite M in Hlen. cbn in Hlen. lia.
Qed.

Lemma in_order_event t e v s s' :
  ifd_inv t s → t ≤ get_monotonic_ms e → ie_possible s v → in_order s → well_behaved s e v →
  run_ifd_event e v s = Done ((), s') → in_order s'.
Proof.
  intros Hi Ht Hpos Ho Hwb Hrun.
  assert (∀ i o, ifd_wait s = None → (∀ c, o = Some c → quiet c) →
    in_order (set_ifd_client (<[i := o]> (ifd_client s)) s)) as Hset.
  { intros i o Hn Hc j d Hd. cbn. rewrite Hn. unfold open_ct in Hd. cbn in Hd.
    destruct (decide (i = j)) as [->|Hne].
    - destruct (decide (j < length (ifd_client s))%nat).
      + rewrite list_lookup_insert_eq in Hd by done. injection Hd as Hd. by apply Hc.
      + rewrite list_insert_ge in Hd by lia. apply lookup_lt_Some in Hd. lia.
    - rewrite list_lookup_insert_ne in Hd by done. specialize (Ho _ _ Hd). by rewrite Hn in Ho. }
  destruct v as [lun name host oks ok|lun|call freed|freed|i v|i rd wr]; cbn [ie_possible well_behaved] in *.
  - apply mbind_Done_inv in Hrun as (rc & s1 & Hrun & Hs). injection Hs as ->.
    unfold IFDHCreateChannelByName in Hrun. destruct (lun_slot lun) as [i|]; [|by injection Hrun as _ <-].
    apply mbind_Done_inv in Hrun as (cfg & s2 & Hd & Hrun).
    destruct (parse_device_name name) as [cfg'|]; [|done]. injection Hd as <- <-.
    destruct ok; cbn [negb] in Hrun; [|by injection Hrun as _ <-].
    apply mbind_Done_inv in Hrun as (r & s2 & Hd & Hrun). unfold lift_outcome in Hd.
    destruct (client_pthread_main _ _ _ _ _) as [[[] c]| | |] eqn:Hc; try done. injection Hd as <- <-.
    injection Hrun as _ <-. apply Hset; [done|]. intros ? [= <-].
    eapply client_main_quiet; [|exact Hc]. pose proof (ifi_time _ _ Hi). lia.
  - apply mbind_Done_inv in Hrun as (rc & s1 & Hrun & Hs). injection Hs as ->.
    unfold IFDHCloseChannel in Hrun. destruct (lun_slot lun) as [i|]; [|by injection Hrun as _ <-].
    injection Hrun as _ <-. by apply Hset.
  - subst freed. eapply in_order_run; [apply call_prog_ok| |done|exact Hrun].
    { intros Hab. cbn [run_ifd_event] in Hrun. unfold mbind, M_bind, gets, id in *. by rewrite Hab in Hrun. }
    intros i c Hc. specialize (Ho _ _ Hc). by rewrite Hpos in Ho.
  - subst freed. by eapply in_order_reply.
  - apply on_ct_done in Hrun as (c & c' & Hc & Hrun & ->). specialize (Hwb _ _ Hc Hrun).
    unfold open_ct in Hc. rewrite Hc in Hpos. destruct Hi as [H0t _ Hct _].
    by eapply in_order_client; [by eapply Hct|..].
  - destruct (ifd_open_ct _ _ Hpos) as [c Hc]. by eapply in_order_sock.
Qed.

Lemma in_order_from C t0 s0 t s :
  (∀ s e v, C s e v → well_behaved s e v) → ifd_inv t0 s0 → in_order s0 →
  ifd_from C t0 s0 t s → in_order s.
Proof.
  intros HC Hi Ho. induction 1 as [|t e v s s' Hr IH Ht Hpos Hwb Hrun]; [done|].
  eapply in_order_event; [by eapply ifd_from_inv|done|done|done|by apply HC|done].
Qed.

Lemma in_order_init : in_order ifd_init.
Proof.
  intros i c Hc. unfold open_ct, ifd_init in Hc. cbn [ifd_client] in Hc.
  by apply lookup_replicate in Hc as [? _].
Qed.

Lemma in_order_reachable t s : ifd_run well_behaved t s → in_order s.
Proof. intros Hr. exact (in_order_from _ _ _ _ _ (λ _ _ _ Hwb, Hwb) ifd_inv_init in_order_init Hr). Qed.

Lemma idle_quiet t s i c : ifd_run well_behaved t s → ifd_wait s = None → open_ct s i c → quiet c.
Proof. intros Hr%in_order_reachable Hw Hc. specialize (Hr _ _ Hc). by rewrite Hw in Hr. Qed.

(** C22. The type of a reply is not compared with the request.  As long as the
    bankd answers each C-APDU once and sends no other response, a message that
    waits for the blocked IFD thread is the reply to the request of its slot, and
    no other message is between the threads, of that slot and of all others. *)
Theorem replies_match t s i tx k c m q :
  ifd_run well_behaved t s → ifd_wait s = Some (i, tx, k) → open_ct s i c → to_ifd c = m :: q →
  im_type m = reply_type (im_type tx) ∧ queues c = ([], [], [m]) ∧
  ∀ j d, open_ct s j d → j ≠ i → quiet d.
Proof.
  intros Hr Hw Hc Hq.
  pose proof (in_order_reachable _ _ Hr) as Ho. pose proof (Ho _ _ Hc) as Hx. rewrite Hw, decide_True in Hx by done.
  split; [|split].
  - destruct Hx as [E|_ E|m' E _|m' E Ht]; unfold quiet, queues in E; injection E; intros; congruence.
  - destruct Hx as [E|_ E|m' E _|m' E Ht]; unfold quiet, queues in *; injection E; intros; congruence.
  - intros j d Hd Hne. specialize (Ho _ _ Hd). rewrite Hw in Ho. by rewrite decide_False in Ho.
Qed.

(** ** The calls that need no card *)

(** Events with their environments, in order. *)
Definition run_ifd_events (tr : list (srvc_env * ifd_event)) : M ifd_state () :=
  for_each (λ p, run_ifd_event p.1 p.2) tr.

(** The two events that answer a request to slot [i]. *)
Definition exchange (i : nat) : list ifd_event := [IeSock i true true; IeReply false].

(** A thread that sent [pdus] for [n] requests, and is quiet again. *)
Definition after_requests (n : nat) (pdus : list RsproPDU) (c : client_thread) : client_thread :=
  match n with
  | O => c
  | S _ => set_it_msgq [] true (set_ct_bc (send_all pdus (ct_bc c)) c)
  end.

Lemma on_ct_eq {A} i (m : M client_thread A) s c a c' :
  open_ct s i c → m c = Done (a, c') → on_ct i m s = Done (a, upd_ct i c' s).
Proof.
  unfold open_ct. intros Hc Hm. unfold on_ct, ct_at, mbind, M_bind, gets, lift_outcome. rewrite Hc.
  unfold mret, M_ret. by rewrite Hm.
Qed.

Lemma handle_eq e t m c :
  ct_inv t c → t ≤ get_monotonic_ms e → handle_it_msg e m c = Done ((), handled m c).
Proof.
  intros Hc Ht. enough (wp (handle_it_msg e m) c (λ _ c', c' = handled m c)) as Hwp.
  { by apply wp_done in Hwp as ([] & c' & Hrun & ->). }
  apply wp_handle_it_msg; [by eapply ct_inv_later|done].
Qed.

(** The socket becomes readable and writable while [tx] is in it. *)
Definition served (tx : itmsg) (c : client_thread) : client_thread :=
  match read_itmsg tx with
  | Some m =>
      match request_reply m c with
      | Some r => set_to_ifd [r] (set_it_msgq [] true (set_ct_bc (send_all (request_pdus m c) (ct_bc c)) c))
      | None => set_it_msgq [] false (set_ct_bc (send_all (request_pdus m c) (ct_bc c)) c)
      end
  | None => set_it_msgq [] false c
  end.

Lemma serve_eq e t tx s i c :
  ct_inv t c → t ≤ get_monotonic_ms e → open_ct s i (set_to_client [tx] c) → quiet c →
  run_ifd_event e (IeSock i true true) s = Done ((), upd_ct i (served tx c) s).
Proof.
  intros Hct Ht Hs Hq. unfold quiet, queues in Hq. injection Hq as Q1 Q2 Q3.
  eapply on_ct_eq; [exact Hs|].
  assert (set_to_client [] (set_to_client [tx] c) = c) as Hid by (unfold set_to_client; destruct c; cbn in *; congruence).
  unfold it_sock_fd_cb, it_sock_read, mbind, M_bind, gets, when, modify. cbn [to_client set_to_client].
  unfold served.
  destruct (read_itmsg tx) as [m|].
  - assert (handle_it_msg e m (set_to_client [] (set_to_client [tx] c)) = Done ((), handled m c)) as Hh
      by (rewrite Hid; by eapply handle_eq).
    cbn in Hh. rewrite Hh. unfold it_sock_write, mbind, M_bind, gets, handled.
    destruct (request_reply m c) as [r|]; cbn; rewrite ?Q2; unfold modify; cbn; by rewrite ?Q3.
  - unfold it_sock_write, mbind, M_bind, gets, mret, M_ret. cbn. rewrite Hid. by rewrite Q2.
Qed.

Lemma reply_eq e s i tx k c m q :
  ifd_wait s = Some (i, tx, k) → open_ct s i c → to_ifd c = m :: q →
  run_ifd_event e (IeReply false) s = run_ifd_prog false (k (read_itmsg m)) (upd_ct i (set_to_ifd q c) s).
Proof.
  intros Hw Hc Hq. cbn [run_ifd_event]. unfold ifd_read_reply, mbind, M_bind at 1, gets. rewrite Hw.
  unfold ct_at, mbind, M_bind, gets at 1. unfold open_ct in Hc. rewrite Hc. unfold mret, M_ret. rewrite Hq.
  by erewrite on_ct_eq.
Qed.

Lemma upd_upd i a b w s : upd_ct i a (set_ifd_wait w (upd_ct i b s)) = set_ifd_wait w (upd_ct i a s).
Proof. unfold upd_ct, set_ifd_client, set_ifd_wait. cbn. by rewrite list_insert_insert_eq. Qed.

Lemma send_eq i tx k c w s :
  open_ct s i c → quiet c →
  run_ifd_prog false (ifd_xceive_client i tx k) (set_ifd_wait w s) =
    Done ((), set_ifd_wait (Some (i, tx, k)) (upd_ct i (set_to_client [tx] c) s)).
Proof.
  intros Hc Hq. unfold quiet, queues in Hq. injection Hq as Q1 _ _. cbn [run_ifd_prog].
  unfold mbind, M_bind. erewrite on_ct_eq; [|exact Hc|reflexivity]. by rewrite Q1.
Qed.

Lemma after_quiet n pdus c : quiet c → quiet (after_requests n pdus c).
Proof. unfold quiet, queues. by destruct n; cbn; [|intros [= -> _ ->]]. Qed.

Lemma exchange_eq e e' t tx k m s i c :
  ct_inv t c → t ≤ get_monotonic_ms e → open_ct s i c → quiet c →
  read_itmsg tx = Some tx → request_reply tx c = Some m → read_itmsg m = Some m →
  run_ifd_events [(e, IeSock i true true); (e', IeReply false)]
    (set_ifd_wait (Some (i, tx, k)) (upd_ct i (set_to_client [tx] c) s)) =
  run_ifd_prog false (k (Some m))
    (set_ifd_wait (Some (i, tx, k)) (upd_ct i (after_requests 1 (request_pdus tx c) c) s)).
Proof.
  intros Hct Ht Hc Hq Htx Hm Hrm. unfold run_ifd_events. cbn [for_each fst snd].
  set (s1 := set_ifd_wait _ _).
  assert (open_ct s1 i (set_to_client [tx] c)) as Hs1 by exact (open_upd_eq _ _ _ _ Hc).
  rewrite (mbind_done _ _ _ _ _ (serve_eq e t tx s1 i c Hct Ht Hs1 Hq)).
  assert (open_ct (upd_ct i (served tx c) s1) i (served tx c)) as Hs2 by exact (open_upd_eq _ _ _ _ Hs1).
  assert (∀ s', run_ifd_event e' (IeReply false) (upd_ct i (served tx c) s1) = s' →
    (run_ifd_event e' (IeReply false) ;; mret ()) (upd_ct i (served tx c) s1) = s') as Hret.
  { intros s' <-. unfold mbind, M_bind, mret, M_ret. by destruct (run_ifd_event _ _ _) as [[[] ?]| | |]. }
  apply Hret. unfold s1 in Hs2 |- *. rewrite upd_upd in Hs2 |- *. unfold served in Hs2 |- *.
  rewrite Htx, Hm in Hs2 |- *.
  erewrite reply_eq; [|reflexivity|exact Hs2|reflexivity]. rewrite Hrm, upd_upd. do 3 f_equal.
  unfold quiet, queues in Hq. injection Hq as Q1 Q2 Q3. destruct c; cbn in *. by subst.
Qed.

(** What a call returns that needs no card, how many requests it makes of a
    client thread, and what this one sends to the bankd. *)
Definition call_spec (c : client_thread) (call : ifd_call) : option (nat * list RsproPDU * ifd_result) :=
  let ret n pdus code out := Some (n, pdus, IfdResult code out) in
  let atr n := take (Z.to_nat n) (take (Z.to_nat (ct_atr_len c)) (ct_atr c)) in
  let byte n v := if n <? 1 then ret 0%nat [] IFD_COMMUNICATION_ERROR [] else ret 0%nat [] IFD_SUCCESS [v] in
  match call with
  | CallGetCapabilities _ TAG_IFD_ATR n => ret 1%nat [] IFD_SUCCESS (atr n)
  | CallGetCapabilities _ TAG_IFD_SIMULTANEOUS_ACCESS n => byte n 1
  | CallGetCapabilities _ TAG_IFD_SLOTS_NUMBER n => byte n 1
  | CallGetCapabilities _ TAG_IFD_THREAD_SAFE n => byte n 0
  | CallGetCapabilities _ TAG_IFD_SLOT_THREAD_SAFE n => byte n 0
  | CallGetCapabilities _ TAG_IFD_OTHER _ => ret 0%nat [] IFD_ERROR_TAG []
  | CallPowerICC _ IFD_POWER_DOWN n => ret 2%nat [status_pdu c true 0 0 1] IFD_SUCCESS (atr n)
  | CallPowerICC _ IFD_POWER_UP n => ret 2%nat [status_pdu c false 1 1 1] IFD_SUCCESS (atr n)
  | CallPowerICC _ IFD_RESET n =>
      ret 2%nat [status_pdu c true 1 1 1; status_pdu c false 1 1 1] IFD_SUCCESS (atr n)
  | CallPowerICC _ IFD_ACTION_OTHER _ => ret 0%nat [] IFD_NOT_SUPPORTED []
  | CallICCPresence _ =>
      ret 1%nat [] (if connected (bankd_conn (ct_bc c)) then IFD_SUCCESS else IFD_ICC_NOT_PRESENT) []
  | CallControl _ => ret 0%nat [] IFD_ERROR_NOT_SUPPORTED []
  | CallSetCapabilities _ => ret 0%nat [] IFD_NOT_SUPPORTED []
  | CallSetProtocolParameters _ => ret 0%nat [] IFD_SUCCESS []
  | CallTransmitToICC _ _ _ => None
  end.

Definition call_lun (call : ifd_call) : Z :=
  match call with
  | CallGetCapabilities lun _ _ | CallPowerICC lun _ _ | CallTransmitToICC lun _ _
  | CallICCPresence lun | CallControl lun | CallSetCapabilities lun
  | CallSetProtocolParameters lun => lun
  end.

(** A call as the service sees it: the requests it makes, and its result. *)
Inductive answers (i : nat) (c : client_thread) : ifd_prog → nat → list RsproPDU → ifd_result → Prop :=
| an_ret r : answers i c (IfdRet r) 0 [] r
| an_request tx k m n pdus r :
    read_itmsg tx = Some tx → read_itmsg m = Some m → request_reply tx c = Some m →
    answers i (after_requests 1 (request_pdus tx c) c) (k (Some m)) n pdus r →
    answers i c (ifd_xceive_client i tx k) (S n) (request_pdus tx c ++ pdus) r.

Lemma send_all_app p q bc : send_all (p ++ q) bc = send_all q (send_all p bc).
Proof. unfold send_all. by rewrite foldl_app. Qed.

Lemma run_events_app a b s : run_ifd_events (a ++ b) s = (run_ifd_events a ;; run_ifd_events b) s.
Proof.
  revert s. induction a as [|p a IH]; intros s; [done|]. unfold run_ifd_events in *.
  cbn [app for_each]. unfold mbind, M_bind in *.
  destruct (run_ifd_event p.1 p.2 s) as [[[] s']| | |]; [apply IH|done..].
Qed.

Lemma mbind_cong {S A B} (m : M S A) (m' : M S A) (f : A → M S B) s s' :
  m s = m' s' → (m ≫= f) s = (m' ≫= f) s'.
Proof. unfold mbind, M_bind. by intros ->. Qed.

Lemma answers_run t i p n pdus r c tr s w :
  answers i c p n pdus r → ct_inv t c → open_ct s i c → quiet c →
  map snd tr = concat (replicate n (exchange i)) → Forall (λ p, t ≤ get_monotonic_ms p.1) tr →
  (run_ifd_prog false p ;; run_ifd_events tr) (set_ifd_wait w s) =
    Done ((), set_ifd_results (ifd_results s ++ [r]) (set_ifd_wait None
      (upd_ct i (after_requests n pdus c) s))).
Proof.
  intros Han. revert tr s w. induction Han as [c r|c tx k m n pdus r Htx Hrm Hm Han IH]; intros tr s w Hct Hc Hq Htr Hte.
  - destruct tr as [|]; [|done]. cbn. unfold upd_ct, set_ifd_client. unfold open_ct in Hc.
    rewrite list_insert_id by done. by destruct s.
  - destruct tr as [|[e1 v1] [|[e2 v2] tr]]; try done. cbn in Htr. injection Htr as -> -> Htr.
    apply Forall_cons in Hte as [Ht1 Hte]. apply Forall_cons in Hte as [_ Hte]. cbn [fst] in Ht1.
    rewrite (mbind_done _ _ _ _ _ (send_eq i tx k c w s Hc Hq)).
    pose proof (exchange_eq e1 e2 t tx k m s i c Hct Ht1 Hc Hq Htx Hm Hrm) as Hx.
    set (c1 := after_requests 1 (request_pdus tx c) c) in *.
    assert (ct_inv t c1) as Hct1.
    { destruct Hct as [Hb Ha Hl]. split; [by apply send_all_inv|done|done]. }
    specialize (IH tr (upd_ct i c1 s) (Some (i, tx, k)) Hct1 (open_upd_eq _ _ _ _ Hc)
      (after_quiet _ _ _ Hq) Htr Hte).
    assert (after_requests n pdus c1 = after_requests (S n) (request_pdus tx c ++ pdus) c) as Haft.
    { destruct n as [|n]; [inversion Han; subst; by rewrite app_nil_r|].
      cbn [after_requests]. by rewrite (send_all_app (request_pdus tx c)). }
    transitivity ((run_ifd_prog false (k (Some m)) ;; run_ifd_events tr)
      (set_ifd_wait (Some (i, tx, k)) (upd_ct i c1 s))).
    + etransitivity; [apply (run_events_app [_; _])|]. by rewrite (mbind_cong _ _ _ _ _ Hx).
    + rewrite IH, Haft. unfold upd_ct. cbn. unfold set_ifd_client. cbn. rewrite list_insert_insert_eq. done.
Qed.

Lemma with_client_eq open lun i f : lun_slot lun = Some i → open i = true → with_client open lun f = f i.
Proof. unfold with_client. by intros -> ->. Qed.

Lemma atr_alloc t c : ct_inv t c →
  im_data (itmsg_alloc ITMSG_TYPE_ATR_RESP 0 (ct_atr c) (ct_atr_len c)) =
    take (Z.to_nat (ct_atr_len c)) (ct_atr c) ∧
  read_itmsg (itmsg_alloc ITMSG_TYPE_ATR_RESP 0 (ct_atr c) (ct_atr_len c)) =
    Some (itmsg_alloc ITMSG_TYPE_ATR_RESP 0 (ct_atr c) (ct_atr_len c)).
Proof.
  intros [_ Ha Hl]. unfold ATR_SIZE_MAX in *. cbn [itmsg_alloc im_data].
  assert (u16 (ct_atr_len c) = ct_atr_len c) as Hu by (apply wrap_small; lia).
  split; [by rewrite Hu|]. unfold read_itmsg, ITMSG_HDR, IT_BUF_SIZE. cbn [itmsg_alloc im_data].
  rewrite length_take. destruct (Z.leb_spec (8 + Z.of_nat (Z.to_nat (u16 (ct_atr_len c)) `min` length (ct_atr c))) 1024); [done|lia].
Qed.

Lemma atr_answers open lun i t c n :
  lun_slot lun = Some i → open i = true → ct_inv t c →
  answers i c (IFDHGetCapabilities open lun TAG_IFD_ATR n) 1 []
    (IfdResult IFD_SUCCESS (take (Z.to_nat n) (take (Z.to_nat (ct_atr_len c)) (ct_atr c)))).
Proof.
  intros Hl Ho Hct. unfold IFDHGetCapabilities. erewrite with_client_eq by done.
  destruct (atr_alloc _ _ Hct) as [Hd Hr].
  eapply (an_request i c (itmsg_alloc ITMSG_TYPE_ATR_REQ 0 [] 0) _ _ 0 []); [done|exact Hr|done|].
  rewrite Hd. apply an_ret.
Qed.

Lemma power_answers open lun i t c n type pdus :
  lun_slot lun = Some i → open i = true → ct_inv t c →
  request_pdus (itmsg_alloc type 0 [] 0) c = pdus →
  (∃ m, request_reply (itmsg_alloc type 0 [] 0) c = Some m ∧ read_itmsg m = Some m) →
  answers i c (ifd_xceive_client i (itmsg_alloc type 0 [] 0) (λ rx,
      match rx with
      | None => IfdErr IFD_NO_SUCH_DEVICE
      | Some _ => IFDHGetCapabilities open lun TAG_IFD_ATR n
      end)) 2 pdus
    (IfdResult IFD_SUCCESS (take (Z.to_nat n) (take (Z.to_nat (ct_atr_len c)) (ct_atr c)))).
Proof.
  intros Hl Ho Hct <- (m & Hm & Hrm). rewrite <-(app_nil_r (request_pdus _ _)).
  eapply an_request; [done|exact Hrm|done|].
  apply (atr_answers open lun i t (after_requests 1 _ c)); [done|done|].
  destruct Hct as [Hb Ha Hlen]. split; [by apply send_all_inv|done|done].
Qed.

Lemma call_answers open call i t c n pdus r :
  lun_slot (call_lun call) = Some i → open i = true → ct_inv t c →
  call_spec c call = Some (n, pdus, r) → answers i c (ifd_call_prog open call) n pdus r.
Proof.
  intros Hl Ho Hct Hspec.
  destruct call as [lun tag len|lun a len|lun b len|lun|lun|lun|lun]; cbn [ifd_call_prog call_lun] in *.
  - destruct tag; cbn [call_spec] in Hspec; [injection Hspec as <- <- <-; by eapply atr_answers|..];
      unfold IFDHGetCapabilities; rewrite (with_client_eq _ _ i) by done;
      try destruct (len <? 1); injection Hspec as <- <- <-; apply an_ret.
  - unfold IFDHPowerICC. rewrite (with_client_eq _ _ i) by done.
    destruct a; cbn [call_spec] in Hspec; injection Hspec as <- <- <-;
      [eapply power_answers; [done..|by eexists]..|apply an_ret].
  - done.
  - unfold IFDHICCPresence. rewrite (with_client_eq _ _ i) by done. injection Hspec as <- <- <-.
    eapply (an_request i c (itmsg_alloc ITMSG_TYPE_CARD_PRES_REQ 0 [] 0) _ _ 0 []); [done| |done|].
    + done.
    + destruct (connected _); apply an_ret.
  - unfold IFDHControl. rewrite Hl. injection Hspec as <- <- <-. apply an_ret.
  - unfold IFDHSetCapabilities. rewrite Hl. injection Hspec as <- <- <-. apply an_ret.
  - unfold IFDHSetProtocolParameters. rewrite Hl. injection Hspec as <- <- <-. apply an_ret.
Qed.

(** C23. The calls that do not need the card are answered by the client thread, as
    long as the bankd has sent no response that belongs to no C-APDU (with one the
    replies are shifted: [stray_response_shifts_replies]) and the reads of the freed
    requests find no larger length; [tr] is the exchanges of the two threads.
    After at most two of them the call has returned what [call_spec] says; the
    bankd was sent the slot status that the change of power or the reset stands
    for (a reset: reset asserted, then released), once and in order, if it was
    connected; and nothing else of the driver has changed. *)
Theorem calls_answered t s e i c call n pdus r tr :
  ifd_run well_behaved t s → ifd_wait s = None → open_ct s i c →
  lun_slot (call_lun call) = Some i → call_spec c call = Some (n, pdus, r) →
  map snd tr = concat (replicate n (exchange i)) → Forall (λ p, t ≤ get_monotonic_ms p.1) tr →
  run_ifd_events ((e, IeCall call false) :: tr) s =
    Done ((), set_ifd_results (ifd_results s ++ [r]) (upd_ct i (after_requests n pdus c) s)).
Proof.
  intros Hr Hw Hc Hl Hspec Htr Hte. pose proof (ifd_run_inv _ _ _ Hr) as Hi.
  pose proof (idle_quiet _ _ _ _ Hr Hw Hc) as Hq. pose proof (ifi_ct _ _ Hi _ _ Hc) as Hct.
  assert (set_ifd_wait None s = s) as Hs by (destruct s; cbn in *; by subst).
  pose proof (answers_run t i _ n pdus r c tr s None
    (call_answers (ifd_open s) call i t c n pdus r Hl (open_ct_open _ _ _ Hc) Hct Hspec) Hct Hc Hq Htr Hte) as Hrun.
  rewrite Hs in Hrun. unfold run_ifd_events in *. cbn [for_each fst snd run_ifd_event].
  etransitivity; [|etransitivity; [exact Hrun|]].
  - done.
  - do 3 f_equal. unfold upd_ct, set_ifd_client, set_ifd_wait. cbn. by rewrite Hw.
Qed.

(** ** C-APDUs *)

(** What the IFD thread waits for after a C-APDU. *)
Definition apdu_wait (i : nat) (apdu : octets) (n : Z) : nat * itmsg * (option itmsg → ifd_prog) :=
  (i, itmsg_alloc ITMSG_TYPE_C_APDU_REQ 0 apdu (Z.of_nat (length apdu)), λ rx,
    match rx with
    | None => IfdErr IFD_NO_SUCH_DEVICE
    | Some m => IfdRet (IfdResult IFD_SUCCESS (take (Z.to_nat n) (im_data m)))
    end).

(** The most that fits into the buffer of either thread. *)
Definition IT_MAX : nat := 1016.

Definition apdu_pdu (c : client_thread) (apdu : octets) : RsproPDU :=
  rspro_gen_TpduModem2Card (ct_clslot c) (bank_slot2rspro (bankd_slot (ct_bc c))) apdu.

(** A thread that was given a C-APDU, and then the response of the bankd. *)
Definition asked (apdu : octets) (c : client_thread) : client_thread :=
  set_it_msgq [] false (set_ct_bc (send_all [apdu_pdu c apdu] (ct_bc c)) c).
Definition told (d : octets) (c : client_thread) : client_thread :=
  set_it_msgq [] true
    (set_ct_bc (set_frontend_log (frontend_log (ct_bc c) ++ [frontend_handle_card2modem d]) (ct_bc c)) c).

Lemma alloc_small type d : (length d ≤ IT_MAX)%nat →
  itmsg_alloc type 0 d (Z.of_nat (length d)) = Itmsg type 0 d ∧
  read_itmsg (Itmsg type 0 d) = Some (Itmsg type 0 d).
Proof.
  unfold IT_MAX. intros Hd. split.
  - unfold itmsg_alloc. assert (u16 (Z.of_nat (length d)) = Z.of_nat (length d)) as ->
      by (apply wrap_small; lia). by rewrite Nat2Z.id, firstn_all.
  - unfold read_itmsg, ITMSG_HDR, IT_BUF_SIZE. cbn [im_data].
    by destruct (Z.leb_spec (8 + Z.of_nat (length d)) 1024); [|lia].
Qed.

Lemma alloc_large type d : (IT_MAX < length d)%nat → Z.of_nat (length d) < 65536 →
  read_itmsg (itmsg_alloc type 0 d (Z.of_nat (length d))) = None.
Proof.
  unfold IT_MAX. intros Hd Hl. unfold itmsg_alloc, read_itmsg, ITMSG_HDR, IT_BUF_SIZE. cbn [im_data].
  assert (u16 (Z.of_nat (length d)) = Z.of_nat (length d)) as -> by (apply wrap_small; lia).
  rewrite Nat2Z.id, firstn_all. by destruct (Z.leb_spec (8 + Z.of_nat (length d)) 1024); [lia|].
Qed.

Lemma apdu_eq t e1 e2 s i c lun apdu n :
  ifd_inv t s → t ≤ get_monotonic_ms e2 → ifd_wait s = None → open_ct s i c → quiet c →
  lun_slot lun = Some i → msgb_fits (Z.of_nat (length apdu)) = true →
  run_ifd_events [(e1, IeCall (CallTransmitToICC lun apdu n) false); (e2, IeSock i true true)] s =
    Done ((), set_ifd_wait (Some (apdu_wait i apdu n)) (upd_ct i (served (apdu_wait i apdu n).1.2 c) s)).
Proof.
  intros Hi Ht Hw Hc Hq Hl Hfit. unfold run_ifd_events. cbn [for_each fst snd run_ifd_event ifd_call_prog].
  assert (set_ifd_wait None s = s) as Hs by (destruct s; cbn in *; by subst).
  set (tx := (apdu_wait i apdu n).1.2). set (k := (apdu_wait i apdu n).2).
  assert (IFDHTransmitToICC (ifd_open s) lun apdu n = ifd_xceive_client i tx k) as Hp.
  { unfold IFDHTransmitToICC. rewrite (with_client_eq _ _ i) by (done || by eapply open_ct_open). by rewrite Hfit. }
  pose proof (send_eq i tx k c None s Hc Hq) as Hsend. rewrite Hs in Hsend.
  rewrite (mbind_done _ _ _ () (set_ifd_wait (Some (i, tx, k)) (upd_ct i (set_to_client [tx] c) s)));
    [|unfold mbind, M_bind, gets; cbn [id]; by rewrite Hp].
  set (s1 := set_ifd_wait _ _).
  assert (open_ct s1 i (set_to_client [tx] c)) as Hs1 by exact (open_upd_eq _ _ _ _ Hc).
  rewrite (mbind_done _ _ _ _ _ (serve_eq e2 t tx s1 i c (ifi_ct _ _ Hi _ _ Hc) Ht Hs1 Hq)).
  unfold mret, M_ret, s1. by rewrite upd_upd.
Qed.

Lemma ct_event_tpdu e i c res m v tg b cs f d s :
  client_inv (get_monotonic_ms e) (ct_bc c) → connected (bankd_conn (ct_bc c)) = true →
  0 < res → ipa_proto m = IPAC_PROTO_OSMO → ipa_proto_ext m = IPAC_PROTO_EXT_RSPRO →
  rspro_dec_msg (l2_data m) = Some (MkRsproPDU v tg (PR_tpduCardToModem b cs f d)) →
  open_ct s i c → (length d ≤ IT_MAX)%nat → it_msgq c = [] →
  run_ifd_event e (IeClient i (CeBankd (CvRead res m))) s =
    Done ((), upd_ct i (set_it_msgq [Itmsg ITMSG_TYPE_R_APDU_IND 0 d] true (told d c)) s).
Proof.
  intros Hci Hcon Hres Hp1 Hp2 Hdec Hc Hd Hq. eapply on_ct_eq; [exact Hc|].
  pose proof (bankd_tpdu_event e (ct_bc c) res m v tg b cs f d Hci Hres Hp1 Hp2 Hdec) as Hev.
  rewrite Hcon in Hev. unfold ct_event, mbind, M_bind, gets, zoom. rewrite Hev. cbn [ct_bc set_ct_bc].
  cbn [frontend_log set_frontend_log]. rewrite drop_app_length. cbn [for_each ifd_frontend].
  unfold ifd_handle_card2modem, enqueue_to_ifd. destruct (alloc_small ITMSG_TYPE_R_APDU_IND d Hd) as [-> _].
  unfold mbind, M_bind, modify, mret, M_ret. cbn. by rewrite Hq.
Qed.

Lemma write_eq e s i c m q :
  open_ct s i c → it_msgq c = m :: q →
  run_ifd_event e (IeSock i false true) s =
    Done ((), upd_ct i (set_to_ifd (to_ifd c ++ [m]) (set_it_msgq q (it_when_write c) c)) s).
Proof.
  intros Hc Hq. eapply on_ct_eq; [exact Hc|].
  unfold it_sock_fd_cb, when, it_sock_write, mbind, M_bind, gets, mret, M_ret. by rewrite Hq.
Qed.

Lemma asked_inv t apdu c : ct_inv t c → ct_inv t (asked apdu c).
Proof. intros [Hb Ha Hl]. split; [by apply send_all_inv|done|done]. Qed.

Lemma response_eq s i c d w n e4 e5 :
  open_ct s i c → ifd_wait s = Some w → w.1.1 = i → w.2 = (apdu_wait i [] n).2 →
  it_msgq c = [Itmsg ITMSG_TYPE_R_APDU_IND 0 d] → to_ifd c = [] → (length d ≤ IT_MAX)%nat →
  run_ifd_events [(e4, IeSock i false true); (e5, IeReply false)] s =
    Done ((), set_ifd_results (ifd_results s ++ [IfdResult IFD_SUCCESS (take (Z.to_nat n) d)])
      (set_ifd_wait None (upd_ct i (set_it_msgq [] (it_when_write c) c) s))).
Proof.
  intros Hc Hw <- Hk Hq Hto Hd. unfold run_ifd_events. cbn [for_each fst snd].
  rewrite (mbind_done _ _ _ _ _ (write_eq e4 s _ c _ _ Hc Hq)), Hto. cbn [app].
  destruct w as [[i tx] k]. cbn [fst snd] in *.
  set (c1 := set_to_ifd _ _). set (s1 := upd_ct i c1 s).
  assert (open_ct s1 i c1) as Hs1 by exact (open_upd_eq _ _ _ _ Hc).
  destruct (alloc_small ITMSG_TYPE_R_APDU_IND d Hd) as [_ Hread].
  unfold mbind, M_bind. rewrite (reply_eq e5 s1 i tx k c1 _ [] Hw Hs1 eq_refl), Hread, Hk.
  cbn. unfold mbind, M_bind, modify, mret, M_ret, s1, upd_ct, set_ifd_client, set_ifd_wait. cbn.
  rewrite list_insert_insert_eq. do 4 f_equal. unfold c1. destruct c; cbn in *. by subst.
Qed.

Lemma apdu_steps t s i c lun apdu n e1 e2 e3 e4 e5 res m v tg b cs f d :
  ifd_run well_behaved t s → ifd_wait s = None → open_ct s i c → lun_slot lun = Some i →
  connected (bankd_conn (ct_bc c)) = true → (length apdu ≤ IT_MAX)%nat → (length d ≤ IT_MAX)%nat →
  t ≤ get_monotonic_ms e2 → t ≤ get_monotonic_ms e3 →
  0 < res → ipa_proto m = IPAC_PROTO_OSMO → ipa_proto_ext m = IPAC_PROTO_EXT_RSPRO →
  rspro_dec_msg (l2_data m) = Some (MkRsproPDU v tg (PR_tpduCardToModem b cs f d)) →
  let s1 := set_ifd_wait (Some (apdu_wait i apdu n)) (upd_ct i (asked apdu c) s) in
  srvc_sent (bankd_conn (ct_bc (asked apdu c))) =
    srvc_sent (bankd_conn (ct_bc c)) ++ sent_rspro (apdu_pdu c apdu) ∧
  run_ifd_events [(e1, IeCall (CallTransmitToICC lun apdu n) false); (e2, IeSock i true true)] s =
    Done ((), s1) ∧
  run_ifd_events [(e3, IeClient i (CeBankd (CvRead res m))); (e4, IeSock i false true);
                  (e5, IeReply false)] s1 =
    Done ((), set_ifd_results (ifd_results s ++ [IfdResult IFD_SUCCESS (take (Z.to_nat n) d)])
      (upd_ct i (told d (asked apdu c)) s)).
Proof.
  intros Hr Hw Hc Hl Hcon Hapdu Hd Ht2 Ht3 Hres Hp1 Hp2 Hdec s1.
  pose proof (ifd_run_inv _ _ _ Hr) as Hi. pose proof (ifi_ct _ _ Hi _ _ Hc) as Hct.
  pose proof (idle_quiet _ _ _ _ Hr Hw Hc) as Hq. split; [|split].
  - cbn. by rewrite Hcon.
  - assert (msgb_fits (Z.of_nat (length apdu)) = true) as Hfit.
    { unfold msgb_fits, ITMSG_HDR, IT_MAX in *. rewrite wrap_small by lia. lia. }
    rewrite (apdu_eq t _ _ _ _ c) by done. unfold served, s1. cbn [apdu_wait fst snd].
    destruct (alloc_small ITMSG_TYPE_C_APDU_REQ apdu Hapdu) as [-> ->]. done.
  - set (c1 := asked apdu c). assert (open_ct s1 i c1) as Hs1 by exact (open_upd_eq _ _ _ _ Hc).
    assert (ct_inv (get_monotonic_ms e3) c1) as [Hci _ _] by (by eapply asked_inv, ct_inv_later).
    etransitivity; [apply (run_events_app [_])|].
    rewrite (mbind_done _ _ _ () (upd_ct i (set_it_msgq [Itmsg ITMSG_TYPE_R_APDU_IND 0 d] true (told d c1)) s1)).
    2:{ unfold run_ifd_events. cbn [for_each fst snd].
        rewrite (mbind_done _ _ _ _ _ (ct_event_tpdu e3 i c1 res m v tg b cs f d s1 Hci Hcon Hres Hp1 Hp2
          Hdec Hs1 Hd eq_refl)). done. }
    assert (to_ifd c = []) as Hto by (unfold quiet, queues in Hq; congruence).
    set (c2 := set_it_msgq _ _ (told d c1)). set (s2 := upd_ct i c2 s1).
    rewrite (response_eq s2 i c2 d (apdu_wait i apdu n) n e4 e5);
      [|exact (open_upd_eq _ _ _ _ Hs1)|done|done|done|done|done|done].
    unfold s2, s1, upd_ct, set_ifd_client, set_ifd_wait. cbn. rewrite !list_insert_insert_eq, Hw. done.
Qed.

(** A C-APDU for a connected client is sent to the bankd exactly once, with the
    client slot and the bank slot of the client; and when the bankd's response
    arrives, the call of the service returns its data (cut to the buffer of the
    caller), and the driver is ready for the next call. *)
Theorem apdu_round_trip t s i c lun apdu n e1 e2 e3 e4 e5 res m v tg b cs f d :
  ifd_run well_behaved t s → ifd_wait s = None → open_ct s i c → lun_slot lun = Some i →
  connected (bankd_conn (ct_bc c)) = true → (length apdu ≤ IT_MAX)%nat → (length d ≤ IT_MAX)%nat →
  t ≤ get_monotonic_ms e2 → t ≤ get_monotonic_ms e3 →
  0 < res → ipa_proto m = IPAC_PROTO_OSMO → ipa_proto_ext m = IPAC_PROTO_EXT_RSPRO →
  rspro_dec_msg (l2_data m) = Some (MkRsproPDU v tg (PR_tpduCardToModem b cs f d)) →
  let s1 := set_ifd_wait (Some (apdu_wait i apdu n)) (upd_ct i (asked apdu c) s) in
  srvc_sent (bankd_conn (ct_bc (asked apdu c))) =
    srvc_sent (bankd_conn (ct_bc c)) ++ sent_rspro (apdu_pdu c apdu) ∧
  run_ifd_events [(e1, IeCall (CallTransmitToICC lun apdu n) false); (e2, IeSock i true true)] s =
    Done ((), s1) ∧
  run_ifd_events [(e3, IeClient i (CeBankd (CvRead res m))); (e4, IeSock i false true);
                  (e5, IeReply false)] s1 =
    Done ((), set_ifd_results (ifd_results s ++ [IfdResult IFD_SUCCESS (take (Z.to_nat n) d)])
      (upd_ct i (told d (asked apdu c)) s)).
Proof. apply apdu_steps. Qed.

(** The client of slot [i] hands no response to the IFD thread. *)
Definition no_answer (i : nat) (s : ifd_state) (e : srvc_env) (v : ifd_event) : Prop :=
  ∀ w c c', v = IeClient i w → open_ct s i c → ct_event e w c = Done ((), c') →
    it_msgq c' = it_msgq c.

(** The IFD thread waits for slot [i], and no message is on its way. *)
Definition blocked (i : nat) (w : itmsg * (option itmsg → ifd_prog)) (k : list ifd_result)
    (s : ifd_state) : Prop :=
  ifd_wait s = Some (i, w.1, w.2) ∧ ifd_results s = k ∧ ∃ c, open_ct s i c ∧ quiet c.

Lemma blocked_upd i w k s j d c :
  open_ct s j d → blocked i w k s → (j = i → quiet d → quiet c) → blocked i w k (upd_ct j c s).
Proof.
  intros Hd (Hw & Hk & c0 & Hc0 & Hq) Hj. split; [done|]. split; [done|].
  destruct (decide (j = i)) as [->|Hne].
  - exists c. split; [by eapply open_upd_eq|]. apply Hj; [done|]. unfold open_ct in *. congruence.
  - exists c0. split; [|done]. unfold open_ct, upd_ct in *. cbn. by rewrite list_lookup_insert_ne.
Qed.

Lemma ct_event_queues t e v c c' :
  ct_inv t c → 0 ≤ t → t ≤ get_monotonic_ms e → ce_possible (ct_bc c) v →
  ct_event e v c = Done ((), c') → to_client c' = to_client c ∧ to_ifd c' = to_ifd c.
Proof.
  intros Hct Ht Hte Hpos Hrun.
  refine (wp_done_inv _ c (λ _ c', to_client c' = to_client c ∧ to_ifd c' = to_ifd c) () c' _ Hrun).
  apply wp_ct_event; [by eapply ct_inv_later|lia|done|done|]. by intros bc' c'' _ [_ C I _ _ _] _.
Qed.

Lemma quiet_sock e rd wr c c' : quiet c → it_sock_fd_cb e rd wr c = Done ((), c') → quiet c'.
Proof.
  unfold quiet, queues. intros [= Q1 Q2 Q3] Hrun.
  unfold it_sock_fd_cb, it_sock_read, it_sock_write, when, mbind, M_bind, gets, modify, mret, M_ret in Hrun.
  destruct rd, wr; cbn in Hrun; rewrite ?Q1, ?Q2 in Hrun; cbn in Hrun; injection Hrun as <-; cbn; congruence.
Qed.

Lemma blocked_event t i w k e v s s' :
  ifd_inv t s → t ≤ get_monotonic_ms e → ie_possible s v → no_answer i s e v → blocked i w k s →
  run_ifd_event e v s = Done ((), s') → blocked i w k s'.
Proof.
  intros Hi Ht Hpos Hno Hb Hrun. pose proof Hb as (Hw & _ & c & Hc & Hq).
  assert (ifd_wait s ≠ None) as Hbusy by congruence.
  destruct v as [lun name host oks ok|lun|call short|short|j v|j rd wr]; cbn [ie_possible run_ifd_event] in *;
    [done..| | |].
  - rewrite Hw in Hpos. pose proof Hc as Hl. unfold open_ct in Hl. rewrite Hl in Hpos.
    unfold quiet, queues in Hq. congruence.
  - apply on_ct_done in Hrun as (d & d' & Hd & Hrun & ->). eapply blocked_upd; [done|done|].
    intros -> Hqd. pose proof Hd as Hl. unfold open_ct in Hl. rewrite Hl in Hpos.
    destruct (ct_event_queues t e v d d') as [E1 E2]; [by eapply ifi_ct|by eapply ifi_time|done..|].
    pose proof (Hno v d d' eq_refl Hd Hrun) as E3. unfold quiet, queues in *. congruence.
  - apply on_ct_done in Hrun as (d & d' & Hd & Hrun & ->). eapply blocked_upd; [done|done|].
    intros _ Hqd. by eapply quiet_sock.
Qed.

Lemma blocked_from t0 s0 i w k t s :
  ifd_inv t0 s0 → blocked i w k s0 → ifd_from (no_answer i) t0 s0 t s → blocked i w k s.
Proof.
  intros Hi Hb. induction 1 as [|t e v s s' Hr IH Ht Hpos Hno Hrun]; [done|].
  eapply blocked_event; [by eapply ifd_from_inv|done|done|done|exact IH|exact Hrun].
Qed.

(** C24. A C-APDU (that does not exceed the size of any buffer) is lost without a
    reply if the client has no connection to the bankd, or if it is longer than
    what the buffer of the client thread leaves:
    nothing is sent, and the service stays blocked in the call, whatever happens,
    until the bankd sends a response that belongs to no request. *)
Theorem lost_apdu_blocks t s i c lun apdu n e1 e2 :
  ifd_run well_behaved t s → ifd_wait s = None → open_ct s i c → lun_slot lun = Some i →
  t ≤ get_monotonic_ms e1 ≤ get_monotonic_ms e2 → msgb_fits (Z.of_nat (length apdu)) = true →
  connected (bankd_conn (ct_bc c)) = false ∨ (IT_MAX < length apdu)%nat ∧ Z.of_nat (length apdu) < 65536 →
  ∃ s1,
    run_ifd_events [(e1, IeCall (CallTransmitToICC lun apdu n) false); (e2, IeSock i true true)] s =
      Done ((), s1) ∧
    (∃ c1, open_ct s1 i c1 ∧ srvc_sent (bankd_conn (ct_bc c1)) = srvc_sent (bankd_conn (ct_bc c))) ∧
    ∀ t' s', ifd_from (no_answer i) (get_monotonic_ms e2) s1 t' s' →
      ifd_wait s' = Some (apdu_wait i apdu n) ∧ ifd_results s' = ifd_results s.
Proof.
  intros Hr Hw Hc Hl [Ht1 Ht2] Hfit Hlost. pose proof (ifd_run_inv _ _ _ Hr) as Hi.
  pose proof (idle_quiet _ _ _ _ Hr Hw Hc) as Hq. pose proof (ifi_ct _ _ Hi _ _ Hc) as Hct.
  set (c1 := served (apdu_wait i apdu n).1.2 c). set (s1 := upd_ct i c1 s).
  assert (srvc_sent (bankd_conn (ct_bc c1)) = srvc_sent (bankd_conn (ct_bc c)) ∧ quiet c1 ∧ ct_inv t c1)
    as (Hsent & Hq1 & Hct1).
  { unfold c1, served. cbn [apdu_wait fst snd]. unfold quiet, queues in Hq. injection Hq as Q1 Q2 Q3.
    destruct (read_itmsg _) as [m|] eqn:Hread.
    - assert (im_type m = ITMSG_TYPE_C_APDU_REQ) as Hty.
      { unfold read_itmsg in Hread. destruct (_ <=? _); [by injection Hread as <-|done]. }
      assert (connected (bankd_conn (ct_bc c)) = false) as Hcon.
      { destruct Hlost as [|[Hlen Hsm]]; [done|]. by rewrite alloc_large in Hread. }
      unfold request_reply, request_pdus. rewrite Hty. split; [|split].
      + cbn. by rewrite Hcon, app_nil_r.
      + unfold quiet, queues. cbn. by rewrite Q1, Q3.
      + destruct Hct as [Hb Ha Hlen]. split; [by apply send_all_inv|done|done].
    - split; [done|]. split; [unfold quiet, queues; cbn; by rewrite Q1, Q3|]. by destruct Hct. }
  exists (set_ifd_wait (Some (apdu_wait i apdu n)) s1). split; [by apply (apdu_eq t); try lia|].
  split. { exists c1. split; [exact (open_upd_eq _ _ _ _ Hc)|done]. }
  intros t' s' Hfrom.
  assert (blocked i ((apdu_wait i apdu n).1.2, (apdu_wait i apdu n).2) (ifd_results s) s') as (Hw' & Hk' & _);
    [|by split].
  eapply blocked_from; [| |exact Hfrom].
  - assert (ifd_inv (get_monotonic_ms e2) s1) as [T1 L1 C1 _].
    { eapply ifd_inv_later; [by eapply ifd_inv_upd|lia]. }
    split; [done|done|done|]. cbn.
    split; [exact (open_ct_open _ _ _ (open_upd_eq _ _ _ c1 Hc))|].
    split; [by split|]. intros [m|]; apply po_ret.
  - split; [done|]. split; [done|]. exists c1. split; [exact (open_upd_eq _ _ _ _ Hc)|done].
Qed.
End ifd.

(** ** Concrete runs *)

#[export] Instance itmsg_eq_dec : EqDecision itmsg.
Proof. solve_decision. Defined.

Section traces.
Context `{OsmoLib, StreamCliLib, RsproCodec, IpaBtsLib, InetNtop, ClientBuild}.

#[export] Instance ie_possible_dec s v : Decision (ie_possible s v).
Proof.
  assert (Decision (ifd_wait s = None)) as Hd by (destruct (ifd_wait s); [by right|by left]).
  destruct v as [lun name host oks ok|lun|call freed|freed|i v|i rd wr]; cbn [ie_possible]; try exact Hd.
  - destruct (ifd_wait s) as [[[i tx] k]|]; [|apply _].
    destruct (ifd_client s !! i) as [[c|]|]; apply _.
  - destruct (ifd_client s !! i) as [[c|]|]; apply _.
  - apply _.
Defined.

(** [well_behaved] as a function. *)
Definition quietb (c : client_thread) : bool := bool_decide (queues c = ([], [], [])).

Definition outstandingb (s : ifd_state) (i : nat) : bool :=
  match ifd_wait s with
  | Some (j, tx, _) =>
      bool_decide (i = j) && bool_decide (im_type tx = ITMSG_TYPE_C_APDU_REQ) &&
      match ifd_client s !! i with Some (Some c) => quietb c | _ => true end
  | None => false
  end.

Definition well_behavedb (s : ifd_state) (e : srvc_env) (v : ifd_event) : bool :=
  match v with
  | IeClient i v =>
      match ifd_client s !! i with
      | Some (Some c) =>
          match ct_event e v c with
          | Done (_, c') => bool_decide (it_msgq c' = it_msgq c) ||
                            outstandingb s i && bool_decide (length (it_msgq c') ≤ 1)%nat
          | _ => true
          end
      | _ => true
      end
  | IeCall _ freed | IeReply freed => match freed with FreedLength false => true | _ => false end
  | _ => true
  end.

Lemma outstandingb_ok s i : outstandingb s i = true → outstanding s i.
Proof.
  unfold outstandingb, outstanding. destruct (ifd_wait s) as [[[j tx] k]|]; [|done].
  rewrite !andb_true_iff, !bool_decide_eq_true. intros [[-> Ht] Hq]. split; [done|]. split; [done|].
  intros c Hc. unfold open_ct in Hc. rewrite Hc in Hq. by apply bool_decide_eq_true in Hq.
Qed.

Lemma well_behavedb_ok s e v : well_behavedb s e v = true → well_behaved s e v.
Proof.
  destruct v as [| |call freed|freed|i v|]; cbn; try done; try by destruct freed as [|[]].
  intros Hb c c' Hc Hrun. unfold open_ct in Hc. rewrite Hc, Hrun in Hb.
  apply orb_true_iff in Hb as [Hb|[Ho Hl]%andb_true_iff]; [left; by apply bool_decide_eq_true in Hb|].
  right. split; [by apply outstandingb_ok|]. by apply bool_decide_eq_true in Hl.
Qed.

(** Runs of events, each with its time, that a function [C] allows. *)
Fixpoint run_ifd_trace (C : ifd_state → srvc_env → ifd_event → bool) (tr : list (srvc_env * ifd_event))
    (s : Z * ifd_state) : option (Z * ifd_state) :=
  match tr with
  | [] => Some s
  | (e, v) :: tr =>
      if bool_decide (s.1 ≤ get_monotonic_ms e) && bool_decide (ie_possible s.2 v) && C s.2 e v then
        match run_ifd_event e v s.2 with
        | Done (_, s') => run_ifd_trace C tr (get_monotonic_ms e, s')
        | _ => None
        end
      else None
  end.

Lemma ifd_trace_from tr t0 s0 t s s' :
  ifd_from well_behaved t0 s0 t s → run_ifd_trace well_behavedb tr (t, s) = Some s' →
  ifd_from well_behaved t0 s0 s'.1 s'.2.
Proof.
  revert t s. induction tr as [|[e v] tr IH]; intros t s Hr Htr; cbn [run_ifd_trace] in Htr.
  - by injection Htr as <-.
  - cbn [fst snd] in Htr. destruct (bool_decide (t ≤ _)) eqn:Ht; [|done].
    destruct (bool_decide (ie_possible s v)) eqn:Hp; [|done].
    destruct (well_behavedb s e v) eqn:Hb; [|done]. cbn [andb] in Htr.
    apply bool_decide_eq_true in Ht, Hp. destruct (run_ifd_event e v s) as [[[] s1]| | |] eqn:Hrun; try done.
    eapply IH; [|exact Htr]. eapply ir_event; [exact Hr|done|done|by apply well_behavedb_ok|exact Hrun].
Qed.

Lemma ifd_trace_run tr :
  (if run_ifd_trace well_behavedb tr (0, ifd_init) is Some _ then true else false) = true →
  ifd_run well_behaved (from_option fst 0 (run_ifd_trace well_behavedb tr (0, ifd_init)))
    (from_option snd ifd_init (run_ifd_trace well_behavedb tr (0, ifd_init))).
Proof.
  intros Hs. destruct (run_ifd_trace well_behavedb tr (0, ifd_init)) as [s'|] eqn:Htr; [|done].
  eapply ifd_trace_from; [apply ir_init|exact Htr].
Qed.
End traces.

(** The service opens slot 0; its client connects to the server, is assigned bank
    slot B2:1 and connects to the bankd, as in [example_start]. *)
Definition ifd_up : list (srvc_env * ifd_event) :=
  (ok_env 50000, IeCreate 0 (str_octets "7:0:127.0.0.1:9998") [99] (true, true, true) true) ::
  map (λ p, (p.1, IeClient 0 p.2)) (drop 1 example_start).

(** The bankd sends a response. *)
Definition from_bankd (d : octets) : ifd_event :=
  IeClient 0 (CeBankd (CvRead 1 (rspro_frame
    (PR_tpduCardToModem (MkBankSlot 2 1) (MkClientSlot 7 0) (TpduFlags 255 255 0 0) d)))).

Definition transmit (apdu : octets) : ifd_event := IeCall (CallTransmitToICC 0 apdu 300) false.

Definition ifd_at (tr : list (Z * ifd_event)) : list (srvc_env * ifd_event) :=
  ifd_up ++ map (λ p, (ok_env p.1, p.2)) tr.

Definition outputs (s : option (Z * ifd_state)) : option (list (RESPONSECODE * octets)) :=
  option_map (λ s, map (λ r, (ifd_code r, ifd_out r)) (ifd_results s.2)) s.

(** A response that belongs to no request (here [6F 00]) is taken for the reply
    to the next call: each C-APDU is then answered with the response to the one
    before. *)
Theorem stray_response_shifts_replies :
  outputs (run_ifd_trace (λ _ _ _, true) (ifd_at
    [(60000, from_bankd [111; 0]); (60001, IeSock 0 false true);
     (60010, transmit [0; 164; 0; 0]); (60011, IeReply false);
     (60012, IeSock 0 true true); (60013, from_bankd [144; 0]); (60014, IeSock 0 false true);
     (60020, transmit [0; 176; 0; 0]); (60021, IeReply false);
     (60022, IeSock 0 true true); (60023, from_bankd [106; 130]); (60024, IeSock 0 false true);
     (60030, IeCall (CallICCPresence 0) false); (60031, IeReply false)]) (0, ifd_init)) =
  Some [(IFD_SUCCESS, [111; 0]); (IFD_SUCCESS, [144; 0]); (IFD_SUCCESS, [])].
Proof. vm_compute. reflexivity. Qed.

(** ** Witnesses *)

Definition ifd_reach (tr : list (Z * ifd_event)) : option (Z * ifd_state) :=
  run_ifd_trace well_behavedb (ifd_at tr) (0, ifd_init).
Definition last_time (r : option (Z * ifd_state)) : Z := from_option fst 0 r.
Definition last_state (r : option (Z * ifd_state)) : ifd_state := from_option snd ifd_init r.
Definition up_time : Z := last_time (ifd_reach []).
Definition up_state : ifd_state := last_state (ifd_reach []).
Definition thread_at (s : ifd_state) : client_thread :=
  match ifd_client s !! 0%nat with Some (Some c) => c | _ => client_thread_zero client_config_init end.

Lemma ifd_reach_run tr :
  (if ifd_reach tr is Some _ then true else false) = true →
  ifd_run well_behaved (last_time (ifd_reach tr)) (last_state (ifd_reach tr)).
Proof. unfold last_time, last_state, ifd_reach. apply ifd_trace_run. Qed.

Lemma ifd_open_thread s :
  (if ifd_client s !! 0%nat is Some (Some _) then true else false) = true →
  open_ct s 0 (thread_at s).
Proof. unfold open_ct, thread_at. by destruct (ifd_client s !! 0%nat) as [[c|]|]. Qed.

Lemma up_run : ifd_run well_behaved up_time up_state.
Proof. unfold up_time, up_state. apply (ifd_reach_run []). vm_compute. reflexivity. Qed.

(** The response to a C-APDU is there for the service. *)
Definition replied_run : list (Z * ifd_event) :=
  [(60000, transmit [0; 164; 0; 0]); (60001, IeSock 0 true true); (60002, from_bankd [144; 0]);
   (60003, IeSock 0 false true)].
Definition replied_time : Z := last_time (ifd_reach replied_run).
Definition replied_state : ifd_state := last_state (ifd_reach replied_run).

Lemma replied_reached : ifd_run well_behaved replied_time replied_state.
Proof. unfold replied_time, replied_state. apply (ifd_reach_run replied_run). vm_compute. reflexivity. Qed.

Lemma ifd_events_defined_witness :
  match run_ifd_event (ok_env 60004) (IeReply false) replied_state with
  | Done (_, s') => ifd_reachable 60004 s'
  | Panic => ie_abort (ok_env 60004) replied_state (IeReply false) APanic
  | Undef => ie_abort (ok_env 60004) replied_state (IeReply false) AUndef
  | NoFuel => False
  end.
Proof.
  apply (ifd_events_defined replied_time replied_state (ok_env 60004) (IeReply false)).
  - eapply ifd_run_weaken; [|exact replied_reached]. by intros.
  - vm_compute. discriminate.
  - vm_compute. discriminate.
Defined.

(** Every exchange reads the freed request; if that faults the call never returns. *)
Example freed_request_faults :
  run_ifd_event (ok_env 60000) (IeCall (CallICCPresence 0) FreedFaults) up_state = Undef.
Proof. vm_compute. reflexivity. Qed.

Definition wait_of (s : ifd_state) : nat * itmsg * (option itmsg → ifd_prog) :=
  default (apdu_wait 0 [] 0) (ifd_wait s).

Lemma wait_at s : (if ifd_wait s is Some _ then true else false) = true → ifd_wait s = Some (wait_of s).
Proof. unfold wait_of. by destruct (ifd_wait s). Qed.

Lemma replies_match_witness :
  im_type (Itmsg ITMSG_TYPE_R_APDU_IND 0 [144; 0]) = reply_type (im_type (wait_of replied_state).1.2) ∧
  queues (thread_at replied_state) = ([], [], [Itmsg ITMSG_TYPE_R_APDU_IND 0 [144; 0]]) ∧
  ∀ j d, open_ct replied_state j d → j ≠ 0%nat → quiet d.
Proof.
  apply (replies_match replied_time replied_state 0 (wait_of replied_state).1.2 (wait_of replied_state).2
    (thread_at replied_state) _ []).
  - exact replied_reached.
  - etransitivity; [apply wait_at; vm_compute; reflexivity|]. vm_compute. reflexivity.
  - apply ifd_open_thread. vm_compute. reflexivity.
  - vm_compute. reflexivity.
Defined.

(** A reset of the card, and the ATR of the client's default. *)
Lemma calls_answered_witness :
  run_ifd_events ((ok_env 60000, IeCall (CallPowerICC 0 IFD_RESET 33) false) ::
    map (λ v, (ok_env 60001, v)) (exchange 0 ++ exchange 0)) up_state =
  Done ((), set_ifd_results (ifd_results up_state ++
      [IfdResult IFD_SUCCESS (take 33 (take (Z.to_nat (ct_atr_len (thread_at up_state))) (ct_atr (thread_at up_state))))])
    (upd_ct 0 (after_requests 2 [status_pdu (thread_at up_state) true 1 1 1;
                                 status_pdu (thread_at up_state) false 1 1 1] (thread_at up_state)) up_state)).
Proof.
  apply (calls_answered up_time up_state (ok_env 60000) 0 (thread_at up_state)
    (CallPowerICC 0 IFD_RESET 33) 2).
  - exact up_run.
  - vm_compute. reflexivity.
  - apply ifd_open_thread. vm_compute. reflexivity.
  - vm_compute. reflexivity.
  - reflexivity.
  - reflexivity.
  - repeat constructor; vm_compute; discriminate.
Defined.

Lemma apdu_round_trip_witness :
  run_ifd_events [(ok_env 60003, from_bankd [144; 0]); (ok_env 60004, IeSock 0 false true);
      (ok_env 60005, IeReply false)]
    (set_ifd_wait (Some (apdu_wait 0 [0; 164; 0; 0] 300))
       (upd_ct 0 (asked [0; 164; 0; 0] (thread_at up_state)) up_state)) =
  Done ((), set_ifd_results (ifd_results up_state ++ [IfdResult IFD_SUCCESS [144; 0]])
    (upd_ct 0 (told [144; 0] (asked [0; 164; 0; 0] (thread_at up_state))) up_state)).
Proof.
  apply (apdu_round_trip up_time up_state 0 (thread_at up_state) 0 [0; 164; 0; 0] 300 (ok_env 60000)
    (ok_env 60001) (ok_env 60003) (ok_env 60004) (ok_env 60005) 1 _ 2 0 (MkBankSlot 2 1)
    (MkClientSlot 7 0) (TpduFlags 255 255 0 0) [144; 0]).
  - exact up_run.
  - vm_compute. reflexivity.
  - apply ifd_open_thread. vm_compute. reflexivity.
  - reflexivity.
  - vm_compute. reflexivity.
  - unfold IT_MAX. cbn. lia.
  - unfold IT_MAX. cbn. lia.
  - vm_compute. discriminate.
  - vm_compute. discriminate.
  - lia.
  - reflexivity.
  - reflexivity.
  - vm_compute. reflexivity.
Defined.

(** The slot of a client that is not connected yet. *)
Definition down_run : option (Z * ifd_state) := run_ifd_trace well_behavedb (take 1 ifd_up) (0, ifd_init).
Definition down_time : Z := last_time down_run.
Definition down_state : ifd_state := last_state down_run.

Lemma lost_apdu_blocks_witness :
  ∃ s1, run_ifd_events [(ok_env 60000, transmit [0; 164; 0; 0]); (ok_env 60001, IeSock 0 true true)] down_state =
      Done ((), s1) ∧
    (∃ c1, open_ct s1 0 c1 ∧
       srvc_sent (bankd_conn (ct_bc c1)) = srvc_sent (bankd_conn (ct_bc (thread_at down_state)))) ∧
    ∀ t' s', ifd_from (no_answer 0) 60001 s1 t' s' →
      ifd_wait s' = Some (apdu_wait 0 [0; 164; 0; 0] 300) ∧ ifd_results s' = ifd_results down_state.
Proof.
  apply (lost_apdu_blocks down_time down_state 0 (thread_at down_state) 0 [0; 164; 0; 0] 300 (ok_env 60000)
    (ok_env 60001)).
  - unfold down_time, down_state, last_time, last_state, down_run. apply ifd_trace_run. vm_compute. reflexivity.
  - vm_compute. reflexivity.
  - apply ifd_open_thread. vm_compute. reflexivity.
  - reflexivity.
  - vm_compute. by split.
  - reflexivity.
  - left. vm_compute. reflexivity.
Defined.
