(* ===== verification/EndToEnd.v ===== *)
(** * The programs together

    A call of the PC/SC service into the reader driver is executed by the card in
    the reader of a bankd: what the client sends is what the worker of the bankd
    receives, and what this one sends back is what the client hands to the
    service.  Last, a run of the server, a bankd and a client in which every
    message that arrives is one the sender has sent. *)

From S2P Require Import Prelude OsmoFsm Slotmap RsproPdu RsproDer RsproUtil Ipa ClientConn Examples ConnInv.
From S2P Require Import RsproServer RestApi ServerProps.
From S2P Require Import BankdPcsc BankdThread BankdMain BankdStart BankdSystem BankdInv BankdProps.
From S2P Require Import RemsimClient ClientInv ClientProps IfdHandler IfdInv IfdProps.

Section apdu.
Context `{OsmoLib, StreamCliLib, RsproCodec, !RsproRoundtrip, IpaBtsLib, InetNtop, ClientBuild}.
Context `{Talloc, Pcsc}.

(** A message of the multiplex with an RSPRO PDU. *)
Definition rspro_ipa (d : octets) : ipa_msg := IpaMsg IPAC_PROTO_OSMO IPAC_PROTO_EXT_RSPRO d.

(** The worker [w] is mapped for the client of [c], with its card. *)
Definition serves (w : bankd_worker) (c : client_thread) : Prop :=
  tpdu_accepted w (ct_clslot c) (bank_slot2rspro (bankd_slot (ct_bc c))).

(** C1. A C-APDU that the service gives to the reader driver is executed, exactly
    once and unchanged, by the card of the worker that serves the client, and the
    call returns the response of the card: the client sends one message [d]; on
    receiving it the worker transmits the C-APDU to the card and sends one message
    [r]; and on receiving that the call returns the data of the card. *)
Theorem apdu_end_to_end t s i c lun apdu n b j w we rc rx sc d r e1 e2 e3 e4 e5 e6 :
  ifd_run well_behaved t s → ifd_wait s = None → open_ct s i c → lun_slot lun = Some i →
  connected (bankd_conn (ct_bc c)) = true →
  workers b !! j = Some w → serves w c →
  ki_intercepts (ki_proxy (bd_cfg b)) (bslot_nr (w_slot w)) apdu = false →
  SCardTransmit (hCard (w_reader w)) apdu RX_BUF_LEN (bd_scard b) = (rc, rx, sc) → 0 ≤ swrap 32 rc →
  (length apdu ≤ IT_MAX)%nat → (length rx ≤ IT_MAX)%nat →
  pdu_in_range (apdu_pdu c apdu) →
  pdu_in_range (rspro_gen_TpduCard2Modem (bank_slot2rspro (bankd_slot (ct_bc c))) (ct_clslot c) rx) →
  rspro_enc_msg (apdu_pdu c apdu) = Some d → fits d →
  rspro_enc_msg (rspro_gen_TpduCard2Modem (bank_slot2rspro (bankd_slot (ct_bc c))) (ct_clslot c) rx)
    = Some r →
  write_res we (TxRspro r) = Some (Z.of_nat (length r) + 4) →
  t ≤ get_monotonic_ms e2 → t ≤ get_monotonic_ms e4 →
  ∃ s1 c1 b' s2 c2,
    run_ifd_events [(e1, IeCall (CallTransmitToICC lun apdu n) false); (e2, IeSock i true true)] s =
      Done ((), s1) ∧ open_ct s1 i c1 ∧
    srvc_sent (bankd_conn (ct_bc c1)) = srvc_sent (bankd_conn (ct_bc c)) ++ [TxRspro d] ∧
    run_bankd_event e3 (BeWorker j we [WaitReady] (pdu_frame d)) b = Done ((), b') ∧
    bd_scard b' = sc ∧ w_sent <$> (workers b' !! j) = Some (w_sent w ++ [TxRspro r]) ∧
    run_ifd_events [(e4, IeClient i (CeBankd (CvRead 1 (rspro_ipa r)))); (e5, IeSock i false true);
                    (e6, IeReply false)] s1 = Done ((), s2) ∧
    ifd_results s2 = ifd_results s ++ [IfdResult IFD_SUCCESS (take (Z.to_nat n) rx)] ∧
    ifd_wait s2 = None ∧ open_ct s2 i c2 ∧ quiet c2.
Proof.
  intros Hr Hw Hc Hl Hcon Hwk Hsv Hki Htx Hrc Hapdu Hrx Hra Hrr Hd Hfit Hencr Hwr Ht2 Ht4.
  destruct (apdu_steps t s i c lun apdu n e1 e2 e4 e5 e6 1 (rspro_ipa r) 2 0
    (bank_slot2rspro (bankd_slot (ct_bc c))) (ct_clslot c) (TpduFlags 0 0 0 0) rx)
    as (Hsent & Hrun1 & Hrun2); try done.
  { cbn [rspro_ipa l2_data]. by rewrite (rspro_dec_enc _ _ Hrr Hencr). }
  pose proof (tpdu_event b e3 we j w d (apdu_pdu c apdu) (ct_clslot c)
    (bank_slot2rspro (bankd_slot (ct_bc c))) (TpduFlags 0 0 0 0) apdu rc rx sc r Hwk Hfit
    (rspro_dec_enc _ _ Hra Hd) eq_refl Hsv Hki Htx Hrc Hencr Hwr) as Hb.
  eexists _, (asked apdu c), _, _, _. split; [exact Hrun1|]. split; [exact (open_upd_eq _ _ _ _ Hc)|].
  split; [rewrite Hsent; unfold sent_rspro; by rewrite Hd|]. split; [exact Hb|].
  split; [by unfold tpdu_done; destruct (gsmtap_wanted _ _)|].
  split. { unfold tpdu_done; destruct (gsmtap_wanted _ _); cbn; by rewrite list_lookup_alter_eq, Hwk. }
  split; [exact Hrun2|]. split; [done|]. split; [exact Hw|]. split; [exact (open_upd_eq _ _ _ _ Hc)|].
  pose proof (idle_quiet _ _ _ _ Hr Hw Hc) as Hq. unfold quiet, queues in *. cbn. congruence.
Qed.
End apdu.

(** ** A run of all three programs

    The server, a bankd and a reader driver with one client, connected by the
    messages that each has handed to its sockets; those on a connection arrive in
    order, and [sy_got] counts the ones that have.  Worker 0 of the bankd serves
    the client. *)

Inductive link := SrvToClient | ClientToSrv | SrvToBankd | BankdToSrv | ClientToBankd | BankdToClient.

#[export] Instance link_eq_dec : EqDecision link.
Proof. solve_decision. Defined.

Record sys := Sys {
  sy_server : srv_sys;
  sy_bankd : bankd;
  sy_ifd : ifd_state;
  sy_got : link → nat;
}.

(** The sockets of the server to the client and to the bankd. *)
Definition peer_client : loc := 11%positive.
Definition peer_bankd : loc := 22%positive.

Definition rspro_sent (k : list tx_msg) : list octets :=
  omap (λ m, match m with TxRspro b => Some b | _ => None end) k.

Definition server_sent_to (p : loc) (s : rspro_server) : list tx_msg :=
  omap (λ x, if decide (x.1 = p) then Some x.2 else None) (sent s).

Definition link_log (l : link) (y : sys) : list octets :=
  rspro_sent match l with
    | SrvToClient => server_sent_to peer_client (sy_server y)
    | SrvToBankd => server_sent_to peer_bankd (sy_server y)
    | ClientToSrv => srvc_sent (srv_conn (ct_bc (thread_at (sy_ifd y))))
    | ClientToBankd => srvc_sent (bankd_conn (ct_bc (thread_at (sy_ifd y))))
    | BankdToSrv => srvc_sent (srvc (sy_bankd y))
    | BankdToClient => from_option w_sent [] (workers (sy_bankd y) !! 0%nat)
    end.

Inductive sys_action :=
| OnServer (v : srv_event)
| OnBankd (v : bankd_event)
| OnIfd (v : ifd_event)
| Deliver (l : link).

(** What happens to a program without a message of the others. *)
Definition no_rspro (v : conn_event) : bool := match v with CvRead _ _ => false | _ => true end.
Definition is_local (a : sys_action) : bool :=
  match a with
  | OnServer (EvRead _ _ _) => false
  | OnBankd (BeServer v) => no_rspro v
  | OnBankd (BeWorker _ _ waits _) => forallb (λ r, match r with WaitReady => false | _ => true end) waits
  | OnIfd (IeClient _ (CeServer v)) | OnIfd (IeClient _ (CeBankd v)) => no_rspro v
  | _ => true
  end.

(** An event of one of the programs, at the time [t]. *)
Definition sys_event (t : Z) (a : sys_action) (y : sys) : option sys :=
  match a with
  | OnServer v =>
      if ev_possible (sy_server y) v then
        match run_event v (sy_server y) with
        | Done (_, s) => Some (Sys s (sy_bankd y) (sy_ifd y) (sy_got y))
        | _ => None
        end
      else None
  | OnBankd v =>
      if decide (be_possible (sy_bankd y) v) then
        match run_bankd_event (ok_env t) v (sy_bankd y) with
        | Done (_, b) => Some (Sys (sy_server y) b (sy_ifd y) (sy_got y))
        | _ => None
        end
      else None
  | OnIfd v =>
      if decide (ie_possible (sy_ifd y) v) then
        match run_ifd_event (ok_env t) v (sy_ifd y) with
        | Done (_, s) => Some (Sys (sy_server y) (sy_bankd y) s (sy_got y))
        | _ => None
        end
      else None
  | Deliver _ => None
  end.

(** The event that a message [m] is for its receiver. *)
Definition arrival (l : link) (m : octets) : sys_action :=
  match l with
  | SrvToClient => OnIfd (IeClient 0 (CeServer (CvRead 1 (rspro_ipa m))))
  | BankdToClient => OnIfd (IeClient 0 (CeBankd (CvRead 1 (rspro_ipa m))))
  | ClientToSrv => OnServer (EvRead peer_client 1 (rspro_ipa m))
  | BankdToSrv => OnServer (EvRead peer_bankd 1 (rspro_ipa m))
  | SrvToBankd => OnBankd (BeServer (CvRead 1 (rspro_ipa m)))
  | ClientToBankd => OnBankd (BeWorker 0 ok_write [WaitReady] (pdu_frame m))
  end.

Definition sys_step (t : Z) (a : sys_action) (y : sys) : option sys :=
  match a with
  | Deliver l =>
      m ← link_log l y !! sy_got y l;
      y' ← sys_event t (arrival l m) y;
      Some (Sys (sy_server y') (sy_bankd y') (sy_ifd y')
        (λ k, if decide (k = l) then S (sy_got y l) else sy_got y k))
  | _ => if is_local a then sys_event t a y else None
  end.

Fixpoint run_sys (tr : list sys_action) (t : Z) (y : sys) : option sys :=
  match tr with
  | [] => Some y
  | a :: tr => y' ← sys_step t a y; run_sys tr (t + 1) y'
  end.

Definition sys_init : sys := Sys (srv_start ex_srv) example_bankd ifd_init (λ _, 0%nat).

(** The bankd and the client connect to the server. *)
Definition sys_connect : list sys_action :=
  [OnServer (EvAccept (Some peer_bankd) true true); OnBankd (BeServer CvTimer); OnBankd (BeServer CvUp);
   Deliver BankdToSrv; Deliver SrvToBankd; OnBankd (BeStart 0);
   OnIfd (IeCreate 0 (str_octets "7:0:127.0.0.1:9998") [99] (true, true, true) true);
   OnServer (EvAccept (Some peer_client) true true);
   OnIfd (IeClient 0 (CeServer CvTimer)); OnIfd (IeClient 0 (CeServer CvUp));
   Deliver ClientToSrv; Deliver SrvToClient].

(** A REST client maps bank slot 1:1 to the client, which connects to the bankd. *)
Definition sys_map : list sys_action :=
  map OnServer (ex_post (BankSlot 1 1) (ClientSlot 7 0)) ++
  [OnServer (EvEventFd 8); Deliver SrvToBankd; Deliver BankdToSrv; Deliver SrvToClient; Deliver ClientToSrv;
   OnIfd (IeClient 0 (CeBankd CvTimer)); OnIfd (IeClient 0 (CeBankd CvUp)); OnBankd (BeAccept 0 5);
   Deliver ClientToBankd; Deliver BankdToClient; Deliver BankdToClient; Deliver ClientToBankd].

(** An application uses the card. *)
Definition sys_use : list sys_action :=
  [OnIfd (transmit [0; 164; 0; 0; 2]); OnIfd (IeSock 0 true true); Deliver ClientToBankd;
   Deliver BankdToClient; OnIfd (IeSock 0 false true); OnIfd (IeReply false)].

Definition sys_run (tr : list sys_action) : option sys := run_sys tr 50000 sys_init.

(** The kinds of the PDUs on a connection. *)
Definition kinds (m : list octets) : list (option Z) :=
  map (λ b, RsproPDUchoice_PR ∘ msg <$> rspro_dec_msg b) m.

Definition all_links : list link :=
  [BankdToSrv; SrvToBankd; ClientToSrv; SrvToClient; ClientToBankd; BankdToClient].

(** The whole system: the bankd and the client connect to the server; a REST
    client maps bank slot 1:1 to the client; the server tells the bankd and, when
    this one has confirmed, the client, which connects to the bankd; the worker
    opens the card and sends its ATR; and a C-APDU of an application is executed
    by that card, whose response the application gets.  Every message arrives,
    and these are all (by their kinds). *)
Theorem system_life_cycle :
  option_map (λ y,
    (entries (srv_slotmaps (sy_server y)), abs (bd_slotmaps (sy_bankd y)),
     bd_scard (sy_bankd y), outputs (Some (0, sy_ifd y))))
    (sys_run (sys_connect ++ sys_map ++ sys_use)) =
  Some ([SlotMapping (BankSlot 1 1) (ClientSlot 7 0) SLMAP_S_ACTIVE],
        {[BankSlot 1 1 := ClientSlot 7 0]}, [(59, [0; 164; 0; 0; 2])], Some [(IFD_SUCCESS, [144; 0])]) ∧
  option_map (λ y, map (λ l, (kinds (link_log l y), bool_decide (sy_got y l = length (link_log l y)))) all_links)
    (sys_run (sys_connect ++ sys_map ++ sys_use)) =
  Some [([Some 1; Some 6], true); ([Some 2; Some 5], true); ([Some 3; Some 12], true);
        ([Some 4; Some 11], true); ([Some 3; Some 17; Some 18], true); ([Some 4; Some 16; Some 19], true)].
Proof. split; vm_compute; reflexivity. Qed.

(** ** Witnesses *)

(** The client of the driver is assigned bank slot 1:1, for which the bankd of
    [mapped_state] has a worker. *)
Definition e2e_up : list (srvc_env * ifd_event) :=
  take 4 ifd_up ++
  [(ok_env 50030, IeClient 0 (CeServer (CvRead 1 (rspro_frame
      (PR_configClientBankReq (MkBankSlot 1 1) (IpPort (IpAddress_PR_ipv4 [10; 0; 0; 5]) 9999))))))] ++
  drop 5 ifd_up.

Definition e2e_run : option (Z * ifd_state) := run_ifd_trace well_behavedb e2e_up (0, ifd_init).
Definition e2e_time : Z := last_time e2e_run.
Definition e2e_state : ifd_state := last_state e2e_run.
Definition e2e_thread : client_thread := thread_at e2e_state.
Definition e2e_apdu : octets := default [] (rspro_enc_msg (apdu_pdu e2e_thread select_mf)).

Lemma apdu_end_to_end_witness :
  ∃ s1 c1 b' s2 c2,
    run_ifd_events [(ok_env 60000, transmit select_mf); (ok_env 60001, IeSock 0 true true)] e2e_state =
      Done ((), s1) ∧ open_ct s1 0 c1 ∧
    srvc_sent (bankd_conn (ct_bc c1)) = srvc_sent (bankd_conn (ct_bc e2e_thread)) ++ [TxRspro e2e_apdu] ∧
    run_bankd_event (ok_env 60002) (BeWorker 0 ok_write [WaitReady] (pdu_frame e2e_apdu)) mapped_state =
      Done ((), b') ∧
    bd_scard b' = bd_scard mapped_state ++ [(hCard (w_reader mapped_worker), select_mf)] ∧
    w_sent <$> (workers b' !! 0%nat) = Some (w_sent mapped_worker ++ [TxRspro select_res]) ∧
    run_ifd_events [(ok_env 60003, IeClient 0 (CeBankd (CvRead 1 (rspro_ipa select_res))));
      (ok_env 60004, IeSock 0 false true); (ok_env 60005, IeReply false)] s1 = Done ((), s2) ∧
    ifd_results s2 = ifd_results e2e_state ++ [IfdResult IFD_SUCCESS (take 300 [144; 0])] ∧
    ifd_wait s2 = None ∧ open_ct s2 0 c2 ∧ quiet c2.
Proof.
  apply (apdu_end_to_end e2e_time e2e_state 0 e2e_thread 0 select_mf 300 mapped_state 0 mapped_worker
    ok_write 0 [144; 0] (bd_scard mapped_state ++ [(hCard (w_reader mapped_worker), select_mf)]) e2e_apdu
    select_res (ok_env 60000) (ok_env 60001) (ok_env 60002) (ok_env 60003) (ok_env 60004) (ok_env 60005)).
  - apply (ifd_trace_run e2e_up). vm_compute. reflexivity.
  - vm_compute. reflexivity.
  - apply ifd_open_thread. vm_compute. reflexivity.
  - reflexivity.
  - vm_compute. reflexivity.
  - exact mapped_worker_at.
  - vm_compute. by repeat split.
  - vm_compute. reflexivity.
  - vm_compute. reflexivity.
  - vm_compute. discriminate.
  - vm_compute. lia.
  - vm_compute. lia.
  - vm_compute. repeat (discriminate || constructor).
  - vm_compute. repeat (discriminate || constructor).
  - vm_compute. reflexivity.
  - vm_compute. reflexivity.
  - vm_compute. reflexivity.
  - vm_compute. reflexivity.
  - vm_compute. discriminate.
  - vm_compute. discriminate.
Defined.
