(* ===== verification/CString.v ===== *)
(** * Strings of the C library

    What the front ends use to read text: [sscanf] as a list of directives,
    [strtol], [strstr], [strcasecmp] and [fgets], on bytes (a C string is the bytes
    before its NUL), with printing of decimal and hexadecimal numbers and the
    laws that relate the two. *)

From S2P Require Import Prelude.

Abbreviation bytes := (list Z).

(** The longest prefix of at most [n] bytes that satisfy [P], and the rest. *)
Fixpoint span (n : nat) (P : Z → bool) (s : bytes) : bytes * bytes :=
  match n, s with
  | S n, c :: s' => if P c then let '(a, b) := span n P s' in (c :: a, b) else ([], s)
  | _, _ => ([], s)
  end.

Definition isspace (c : Z) : bool := (c =? 32) || ((9 <=? c) && (c <=? 13)).
Definition isdigit (c : Z) : bool := (48 <=? c) && (c <=? 57).

(** The C string in a buffer. *)
Definition c_str (s : bytes) : bytes := (span (length s) (λ c, negb (c =? 0)) s).1.

(** ** Numbers *)

Definition LONG_MAX : Z := 2 ^ 63 - 1.

(** [strtol(s, &end, 10)]: the value and [end]. *)
Definition strtol10 (str : bytes) : Z * bytes :=
  let s := skip_space str in
  let '(neg, s) := match s with
                   | c :: s' => if c =? 45 then (true, s') else if c =? 43 then (false, s') else (false, s)
                   | [] => (false, [])
                   end in
  let '(d, rest) := span (length s) isdigit s in
  if bool_decide (d = []) then (0, str)
  else let v := digits d 0 in
       (if neg : bool then Z.max (- v) (- 2 ^ 63) else Z.min v LONG_MAX, rest).

Definition hex_val (c : Z) : option Z :=
  if isdigit c then Some (c - 48)
  else if (65 <=? c) && (c <=? 70) then Some (c - 55)
  else if (97 <=? c) && (c <=? 102) then Some (c - 87)
  else None.

Fixpoint hex_digits (s : bytes) (acc : Z) : Z :=
  match s with
  | c :: s' => match hex_val c with Some v => hex_digits s' (16 * acc + v) | None => acc end
  | [] => acc
  end.

(** [strtol(s, NULL, 16)] *)
Definition strtol16 (str : bytes) : Z :=
  let s := skip_space str in
  let '(neg, s) := match s with
                   | c :: s' => if c =? 45 then (true, s') else if c =? 43 then (false, s') else (false, s)
                   | [] => (false, [])
                   end in
  let s := match s with
           | z :: x :: s' => if (z =? 48) && ((x =? 120) || (x =? 88)) then s' else s
           | _ => s
           end in
  let v := hex_digits s 0 in
  if neg : bool then Z.max (- v) (- 2 ^ 63) else Z.min v LONG_MAX.

(** [%2hhx]: the value and the rest.  A sign counts as one of the two characters;
    the prefix [0x] without a digit behind it does not match. *)
Definition scan_hex2 (str : bytes) : option (Z * bytes) :=
  let s := skip_space str in
  match s with
  | [] => None
  | c :: s' =>
      if (c =? 43) || (c =? 45) then
        match s' with
        | d :: s'' => match hex_val d with
                      | Some v => Some (u8 (if c =? 45 then - v else v), s'')
                      | None => None
                      end
        | [] => None
        end
      else
        match hex_val c with
        | None => None
        | Some v =>
            match s' with
            | d :: s'' =>
                if (c =? 48) && ((d =? 120) || (d =? 88)) then None
                else match hex_val d with
                     | Some v' => Some (16 * v + v', s'')
                     | None => Some (v, s')
                     end
            | [] => Some (v, s')
            end
        end
  end.

(** ** [sscanf]

    The directives that occur; [%d] stores the value as the C library does. *)

Inductive scan_dir :=
| DLit (c : Z)
| DSpace
| DWord (n : nat)
| DNot (n : nat) (c : Z)
| DInt.

Inductive scan_val := VStr (s : bytes) | VInt (z : Z).

(** The characters of a format; a blank matches any white space. *)
Definition lit (s : string) : list scan_dir :=
  map (λ c, if isspace c then DSpace else DLit c) (str_octets s).

Definition scan_int (s : bytes) : option (Z * bytes) :=
  let '(v, rest) := strtol10 s in
  if bool_decide (rest = s) then None else Some (swrap 32 v, rest).

(** The values of the conversions that succeed; their number is the result. *)
Fixpoint sscanf (fmt : list scan_dir) (s : bytes) : list scan_val :=
  match fmt with
  | [] => []
  | DLit c :: fmt =>
      match s with x :: s => if x =? c then sscanf fmt s else [] | [] => [] end
  | DSpace :: fmt => sscanf fmt (skip_space s)
  | DWord n :: fmt =>
      match span n (λ c, negb (isspace c)) (skip_space s) with
      | ([], _) => []
      | (w, s) => VStr w :: sscanf fmt s
      end
  | DNot n c :: fmt =>
      match span n (λ x, negb (x =? c)) s with
      | ([], _) => []
      | (w, s) => VStr w :: sscanf fmt s
      end
  | DInt :: fmt =>
      match scan_int s with
      | None => []
      | Some (v, s) => VInt v :: sscanf fmt s
      end
  end.

(** ** Searching and comparing *)

Fixpoint is_prefix (p s : bytes) : bool :=
  match p, s with
  | [], _ => true
  | x :: p, y :: s => (x =? y) && is_prefix p s
  | _ :: _, [] => false
  end.

(** What follows the first occurrence of [p], as [strstr(s, p) + strlen(p)]. *)
Fixpoint strstr_behind (p s : bytes) : option bytes :=
  if is_prefix p s then Some (drop (length p) s)
  else match s with [] => None | _ :: s => strstr_behind p s end.

Definition contains (p s : bytes) : bool :=
  match strstr_behind p s with Some _ => true | None => false end.

Definition tolower (c : Z) : Z := if (65 <=? c) && (c <=? 90) then c + 32 else c.
Definition strcaseeq (a b : bytes) : bool := bool_decide (map tolower a = map tolower b).

(** The lines [fgets] reads into a buffer of [S n] bytes. *)
Fixpoint fgets_lines (n : nat) (s cur : bytes) : list bytes :=
  match s with
  | [] => if bool_decide (cur = []) then [] else [cur]
  | c :: s =>
      let cur := cur ++ [c] in
      if (c =? 10) || (n <=? length cur)%nat then cur :: fgets_lines n s []
      else fgets_lines n s cur
  end.

(** ** Printing *)

(** [%d] of a number that is not negative and has at most [n] digits. *)
Fixpoint dec_go (n : nat) (z : Z) (acc : bytes) : bytes :=
  match n with
  | O => acc
  | S n =>
      let acc := (48 + z `mod` 10) :: acc in
      if z / 10 =? 0 then acc else dec_go n (z / 10) acc
  end.
Definition dec (z : Z) : bytes := dec_go 20 z [].

(** [%02X] *)
Definition hex_digit (v : Z) : Z := if v <? 10 then 48 + v else 55 + v.
Definition hex2 (b : Z) : bytes := [hex_digit (b / 16); hex_digit (b `mod` 16)].

(** ** Laws *)

Lemma span_app n P a s :
  Forall (λ c, P c = true) a → (length a ≤ n)%nat →
  match s with c :: _ => P c = false | [] => True end ∨ length a = n →
  span n P (a ++ s) = (a, s).
Proof.
  revert n. induction a as [|c a IH]; intros n Ha Hn Hs; cbn in *.
  - destruct n; [done|]. destruct s as [|c s]; [done|]. cbn. by destruct Hs as [->|].
  - apply Forall_cons in Ha as [Hc Ha]. destruct n as [|n]; [lia|]. cbn. rewrite Hc.
    rewrite IH; [done|done|lia|]. destruct Hs; [by left|right; lia].
Qed.

Lemma span_all n P a : Forall (λ c, P c = true) a → (length a ≤ n)%nat → span n P a = (a, []).
Proof. intros Ha Hn. rewrite <-(app_nil_r a) at 1. by apply span_app; [| |left]. Qed.

Lemma skip_space_stop s : match s with c :: _ => isspace c = false | [] => True end → skip_space s = s.
Proof. destruct s as [|c s]; [done|]. unfold isspace. cbn. by intros ->. Qed.

Lemma digits_app d s a :
  Forall (λ c, isdigit c = true) d → digits (d ++ s) a = digits s (digits d a).
Proof.
  revert a. induction d as [|c d IH]; intros a Hd; [done|]. apply Forall_cons in Hd as [Hc Hd].
  unfold isdigit in Hc. cbn. rewrite Hc. by apply IH.
Qed.

Lemma isdigit_digit r : 0 ≤ r < 10 → isdigit (48 + r) = true.
Proof.
  intros Hr. unfold isdigit. destruct (Z.leb_spec 48 (48 + r)); [|lia].
  by destruct (Z.leb_spec (48 + r) 57); [|lia].
Qed.

Lemma dec_go_digits n z acc :
  0 ≤ z → Forall (λ c, isdigit c = true) acc → Forall (λ c, isdigit c = true) (dec_go n z acc).
Proof.
  revert z acc. induction n as [|n IH]; intros z acc Hz Ha; [done|]. cbn [dec_go].
  pose proof (Z.mod_pos_bound z 10 ltac:(lia)).
  assert (Forall (λ c, isdigit c = true) ((48 + z `mod` 10) :: acc)) as Hacc
    by (constructor; [by apply isdigit_digit|done]).
  destruct (z / 10 =? 0); [done|]. apply IH; [by apply Z.div_pos|done].
Qed.

Lemma dec_go_value n z acc :
  0 ≤ z < 10 ^ Z.of_nat n → (0 < n)%nat → digits (dec_go n z acc) 0 = digits acc z.
Proof.
  revert z acc. induction n as [|n IH]; intros z acc Hz Hn; [lia|]. cbn [dec_go].
  pose proof (Z.mod_pos_bound z 10 ltac:(lia)) as Hm. pose proof (Z.div_mod z 10 ltac:(lia)) as Hdm.
  assert (∀ a, digits ((48 + z `mod` 10) :: acc) a = digits acc (10 * a + z `mod` 10)) as Hd.
  { intros a. cbn [digits]. pose proof (isdigit_digit _ Hm) as Hc. unfold isdigit in Hc. rewrite Hc.
    f_equal. lia. }
  destruct (Z.eqb_spec (z / 10) 0) as [E|E].
  - rewrite Hd. f_equal. lia.
  - rewrite IH, Hd; [f_equal; lia| |].
    + split; [by apply Z.div_pos; lia|]. apply Z.div_lt_upper_bound; [lia|].
      rewrite Nat2Z.inj_succ, Z.pow_succ_r in Hz by lia. lia.
    + destruct n; [|lia]. cbn in Hz. assert (z / 10 = 0) by (apply Z.div_small; lia). lia.
Qed.

Lemma dec_digits z : 0 ≤ z → Forall (λ c, isdigit c = true) (dec z).
Proof. intros Hz. by apply dec_go_digits. Qed.

Lemma dec_value z : 0 ≤ z < 10 ^ 20 → digits (dec z) 0 = z.
Proof.
  intros Hz. unfold dec. rewrite dec_go_value; [reflexivity| |lia].
  replace (Z.of_nat 20) with 20 by reflexivity. exact Hz.
Qed.

Lemma dec_go_nonempty n z acc : (0 < n)%nat → dec_go n z acc ≠ [].
Proof.
  revert z acc. induction n as [|n IH]; intros z acc Hn; [lia|]. cbn [dec_go].
  destruct (z / 10 =? 0); [done|]. destruct n; [done|]. apply IH. lia.
Qed.

Lemma dec_go_length n z acc : (length (dec_go n z acc) ≤ n + length acc)%nat.
Proof.
  revert z acc. induction n as [|n IH]; intros z acc; [done|]. cbn [dec_go].
  destruct (z / 10 =? 0); cbn; [lia|]. specialize (IH (z / 10) ((48 + z `mod` 10) :: acc)). cbn in IH. lia.
Qed.

Lemma isdigit_not_space c : isdigit c = true → isspace c = false.
Proof.
  unfold isdigit, isspace. rewrite andb_true_iff, !Z.leb_le. intros [? ?].
  destruct (Z.eqb_spec c 32); [lia|]. destruct (Z.leb_spec c 13); [lia|]. by rewrite andb_false_r.
Qed.

(** A printed number is read back. *)
Lemma strtol_dec z s :
  0 ≤ z < 2 ^ 63 → match s with c :: _ => isdigit c = false | [] => True end →
  strtol10 (dec z ++ s) = (z, s).
Proof.
  intros Hz Hs. assert (2 ^ 63 < 10 ^ 20) by reflexivity.
  pose proof (dec_digits z ltac:(lia)) as Hd. pose proof (dec_value z ltac:(lia)) as Hv.
  pose proof (dec_go_nonempty 20 z [] ltac:(lia)) as Hne. fold (dec z) in Hne.
  unfold strtol10. destruct (dec z) as [|c d]; [destruct (Hne eq_refl)|]. pose proof Hd as Hd'.
  apply Forall_cons in Hd' as [Hc _]. cbn [app].
  rewrite (skip_space_stop (c :: d ++ s)) by (by apply isdigit_not_space).
  assert (c ≠ 45 ∧ c ≠ 43) as [H1 H2].
  { unfold isdigit in Hc. rewrite andb_true_iff, !Z.leb_le in Hc. lia. }
  apply Z.eqb_neq in H1, H2. rewrite H1, H2.
  change (c :: d ++ s) with ((c :: d) ++ s). rewrite span_app; [|done|rewrite length_app; lia|by left].
  rewrite Hv. cbn [bool_decide]. rewrite bool_decide_eq_false_2 by done. f_equal.
  unfold LONG_MAX. lia.
Qed.

Lemma hex_val_digit v : 0 ≤ v < 16 → hex_val (hex_digit v) = Some v.
Proof.
  intros Hv. unfold hex_digit, hex_val, isdigit. destruct (Z.ltb_spec v 10).
  - destruct (Z.leb_spec 48 (48 + v)); [|lia]. destruct (Z.leb_spec (48 + v) 57); [|lia]. cbn. f_equal. lia.
  - destruct (Z.leb_spec 48 (55 + v)); [|lia]. destruct (Z.leb_spec (55 + v) 57); [lia|]. cbn.
    destruct (Z.leb_spec 65 (55 + v)); [|lia]. destruct (Z.leb_spec (55 + v) 70); [|lia]. cbn. f_equal. lia.
Qed.

Lemma hex_digit_range v : 0 ≤ v < 16 → 48 ≤ hex_digit v ≤ 70 ∧ isspace (hex_digit v) = false.
Proof.
  intros Hv. unfold hex_digit. assert (∀ x, 48 ≤ x → isspace x = false) as Hsp.
  { intros x Hx. unfold isspace. destruct (Z.eqb_spec x 32); [lia|]. destruct (Z.leb_spec x 13); [lia|].
    by rewrite andb_false_r. }
  destruct (Z.ltb_spec v 10); (split; [lia|]; apply Hsp; lia).
Qed.

(** A printed byte is read back. *)
Lemma scan_hex2_print b s : 0 ≤ b < 256 → scan_hex2 (hex2 b ++ s) = Some (b, s).
Proof.
  intros Hb. assert (0 ≤ b / 16 < 16) as Hhi.
  { split; [by apply Z.div_pos; lia|]. apply Z.div_lt_upper_bound; lia. }
  pose proof (Z.mod_pos_bound b 16 ltac:(lia)) as Hlo. pose proof (Z.div_mod b 16 ltac:(lia)).
  destruct (hex_digit_range _ Hhi) as [Rhi Shi]. destruct (hex_digit_range _ Hlo) as [Rlo _].
  unfold scan_hex2, hex2. cbn [app]. rewrite skip_space_stop by done.
  destruct (Z.eqb_spec (hex_digit (b / 16)) 43); [lia|]. destruct (Z.eqb_spec (hex_digit (b / 16)) 45); [lia|].
  cbn [orb]. rewrite hex_val_digit by done.
  destruct (Z.eqb_spec (hex_digit (b `mod` 16)) 120); [lia|].
  destruct (Z.eqb_spec (hex_digit (b `mod` 16)) 88); [lia|]. rewrite andb_false_r.
  rewrite hex_val_digit by done. do 2 f_equal. lia.
Qed.
