(* ===== verification/ClientMain.v ===== *)
(** * Start of remsim-client ([src/client/remsim_client_main.c])

    Its options, the parser of the router's configuration file
    [/etc/config/remsim] and the start of the client.  [getopt_long] is the list
    of the options it finds; [osmo_hexparse] is an interface. *)

From S2P Require Import Prelude OsmoFsm Slotmap RsproPdu RsproUtil Ipa ClientConn ConnInv.
From S2P Require Import RemsimClient ClientInv ClientProps CString.

(** libosmocore: the bytes of a string of hexadecimal digits, if it is one and
    there are at most [max_len] of them. *)
Class HexParse := { osmo_hexparse : bytes → nat → option bytes }.

(** ** Configuration *)

(** The options of the USB frontends, in [struct client_config]. *)
Record usb_config := UsbConfig {
  vendor_id : Z;
  product_id : Z;
  config_id : Z;
  if_num : Z;
  altsetting : Z;
  usb_addr : Z;
  usb_path : option bytes;
}.

(** The configuration of the client, with those of the frontends. *)
Record client_opts := ClientOpts {
  co_cfg : client_config;
  co_usb : usb_config;
  co_presence : option Z;
}.

Definition client_opts_init : client_opts :=
  ClientOpts client_config_init (UsbConfig (- 1) (- 1) (- 1) (- 1) 0 (- 1) None) None.

Definition set_host (h : string) (c : client_config) : client_config :=
  ClientConfig (Some h) (cfg_server_port c) (cfg_client_id c) (cfg_client_slot c) (cfg_gsmtap_host c)
    (keep_running c) (event_script c) (cfg_atr c) (atr_ignore_rspro c).
Definition set_port (p : Z) (c : client_config) : client_config :=
  ClientConfig (cfg_server_host c) p (cfg_client_id c) (cfg_client_slot c) (cfg_gsmtap_host c)
    (keep_running c) (event_script c) (cfg_atr c) (atr_ignore_rspro c).
Definition set_client_id (i : Z) (c : client_config) : client_config :=
  ClientConfig (cfg_server_host c) (cfg_server_port c) i (cfg_client_slot c) (cfg_gsmtap_host c)
    (keep_running c) (event_script c) (cfg_atr c) (atr_ignore_rspro c).
Definition set_client_slot (n : Z) (c : client_config) : client_config :=
  ClientConfig (cfg_server_host c) (cfg_server_port c) (cfg_client_id c) n (cfg_gsmtap_host c)
    (keep_running c) (event_script c) (cfg_atr c) (atr_ignore_rspro c).
Definition set_script (s : string) (c : client_config) : client_config :=
  ClientConfig (cfg_server_host c) (cfg_server_port c) (cfg_client_id c) (cfg_client_slot c)
    (cfg_gsmtap_host c) (keep_running c) (Some s) (cfg_atr c) (atr_ignore_rspro c).
Definition set_atr (a : octets) (c : client_config) : client_config :=
  ClientConfig (cfg_server_host c) (cfg_server_port c) (cfg_client_id c) (cfg_client_slot c)
    (cfg_gsmtap_host c) (keep_running c) (event_script c) a (atr_ignore_rspro c).
Definition set_atr_ignore (c : client_config) : client_config :=
  ClientConfig (cfg_server_host c) (cfg_server_port c) (cfg_client_id c) (cfg_client_slot c)
    (cfg_gsmtap_host c) (keep_running c) (event_script c) (cfg_atr c) true.

(** ** Options *)

Inductive client_option :=
| ClHelp
| ClVersion
| ClDebug
| ClServerIp (arg : bytes)
| ClServerPort (arg : bytes)
| ClClientId (arg : bytes)
| ClClientSlot (arg : bytes)
| ClAtr (arg : bytes)
| ClAtrIgnoreRspro
| ClEventScript (arg : bytes)
| ClDisableColor
| ClSimPresence (arg : bytes)
| ClUsbVendor (arg : bytes)
| ClUsbProduct (arg : bytes)
| ClUsbConfig (arg : bytes)
| ClUsbInterface (arg : bytes)
| ClUsbAltsetting (arg : bytes)
| ClUsbAddress (arg : bytes)
| ClUsbPath (arg : bytes)
| ClOther.

Section main.
Context `{OsmoLib, StreamCliLib, RsproCodec, IpaBtsLib, InetNtop, ClientBuild, HexParse}.

Definition cfg_set (f : client_config → client_config) : M client_opts () :=
  modify (λ o, ClientOpts (f (co_cfg o)) (co_usb o) (co_presence o)).
Definition usb_set (f : usb_config → usb_config) : M client_opts () :=
  modify (λ o, ClientOpts (co_cfg o) (f (co_usb o)) (co_presence o)).

Definition client_handle_option (o : client_option) : M client_opts () :=
  match o with
  | ClHelp | ClVersion => panic
  | ClServerIp a => cfg_set (set_host (octets_str a))
  | ClServerPort a => cfg_set (set_port (atoi a))
  | ClClientId a => cfg_set (set_client_id (atoi a))
  | ClClientSlot a => cfg_set (set_client_slot (atoi a))
  | ClAtr a =>
      match osmo_hexparse a 55 with
      | None => panic
      | Some d => if (length d <? 2)%nat || (55 <? length d)%nat then panic else cfg_set (set_atr d)
      end
  | ClAtrIgnoreRspro => cfg_set set_atr_ignore
  | ClEventScript a => cfg_set (set_script (octets_str a))
  | ClSimPresence a =>
      modify (λ o, ClientOpts (co_cfg o) (co_usb o) (Some (if atoi a =? 0 then 0 else 1)))
  | ClUsbVendor a => usb_set (λ u, UsbConfig (swrap 32 (strtol16 a)) (product_id u) (config_id u) (if_num u)
      (altsetting u) (usb_addr u) (usb_path u))
  | ClUsbProduct a => usb_set (λ u, UsbConfig (vendor_id u) (swrap 32 (strtol16 a)) (config_id u) (if_num u)
      (altsetting u) (usb_addr u) (usb_path u))
  | ClUsbConfig a => usb_set (λ u, UsbConfig (vendor_id u) (product_id u) (atoi a) (if_num u)
      (altsetting u) (usb_addr u) (usb_path u))
  | ClUsbInterface a => usb_set (λ u, UsbConfig (vendor_id u) (product_id u) (config_id u) (atoi a)
      (altsetting u) (usb_addr u) (usb_path u))
  | ClUsbAltsetting a => usb_set (λ u, UsbConfig (vendor_id u) (product_id u) (config_id u) (if_num u)
      (atoi a) (usb_addr u) (usb_path u))
  | ClUsbAddress a => usb_set (λ u, UsbConfig (vendor_id u) (product_id u) (config_id u) (if_num u)
      (altsetting u) (atoi a) (usb_path u))
  | ClUsbPath a => usb_set (λ u, UsbConfig (vendor_id u) (product_id u) (config_id u) (if_num u)
      (altsetting u) (usb_addr u) (Some a))
  | ClDebug | ClDisableColor | ClOther => mret ()
  end.

Definition client_handle_options (opts : list client_option) : M client_opts () :=
  for_each client_handle_option opts.

(** ** The configuration file of the router *)

Definition isblank (c : Z) : bool := (c =? 32) || (c =? 9).

Fixpoint skip_blank (s : bytes) : bytes :=
  match s with c :: s' => if isblank c then skip_blank s' else s | [] => [] end.

(** Trailing white space is cut, but never the first character. *)
Fixpoint trim_end_rev (r : bytes) : bytes :=
  match r with
  | c :: r' =>
      match r' with
      | [] => r
      | _ => if isblank c || (c =? 10) then trim_end_rev r' else r
      end
  | [] => []
  end.
Definition trim_end (s : bytes) : bytes := rev (trim_end_rev (rev s)).

Definition NL : Z := 10.
Definition QUOTE : Z := 39.

(** A number that makes up the whole value. *)
Definition whole_number (v : bytes) : option Z :=
  let '(z, rest) := strtol10 v in if bool_decide (rest = []) then Some z else None.

Definition apply_option (section key value : bytes) (c : client_config) : client_config :=
  let value := match str_split NL value with Some (a, _) => a | None => value end in
  let number lo hi set :=
    match whole_number value with
    | Some z => if (lo <=? z) && (z <=? hi) then set (swrap 32 z) c else c
    | None => c
    end in
  if bool_decide (section = str_octets "server") then
    if bool_decide (key = str_octets "host") then
      set_host (octets_str (trim_end (skip_blank value))) c
    else if bool_decide (key = str_octets "port") then number 1 65535 set_port
    else c
  else if bool_decide (section = str_octets "client") then
    if bool_decide (key = str_octets "client_id") then number 0 1023 set_client_id
    else if bool_decide (key = str_octets "client_slot") then number 0 1023 set_client_slot
    else c
  else c.

(** One line: the section it is in, and the configuration. *)
Definition parse_line (line : bytes) (st : option bytes * client_config)
    : option bytes * client_config :=
  let '(section, cfg) := st in
  let p := skip_blank (c_str line) in
  let opt key value :=
    (section, match section with Some s => apply_option s key value cfg | None => cfg end) in
  match p with
  | [] => st
  | c :: _ =>
      if (c =? NL) || (c =? 35) then st
      else if is_prefix (str_octets "config ") p then
        match sscanf (lit "config " ++ [DWord 63] ++ lit " '" ++ [DNot 63 QUOTE]) p with
        | [VStr _; VStr name] => (Some name, cfg)
        | _ => st
        end
      else if is_prefix (str_octets "option ") p then
        match sscanf (lit "option " ++ [DWord 63] ++ lit " '" ++ [DNot 511 QUOTE]) p with
        | [VStr key; VStr value] => opt key value
        | _ =>
            match sscanf (lit "option " ++ [DWord 63] ++ lit " " ++ [DWord 511]) p with
            | [VStr key; VStr value] => opt key value
            | _ => st
            end
        end
      else st
  end.

Definition parse_openwrt_config (file : option bytes) (cfg : client_config) : client_config :=
  match file with
  | None => cfg
  | Some text => (foldl (λ st line, parse_line line st) (None, cfg) (fgets_lines 1023 text [])).2
  end.

(** ** Start *)

(** The configuration the program starts with: the file is read if the name of
    the program contains [openwrt]; the options come after it. *)
Definition client_configure (argv0 : bytes) (file : option bytes) (opts : list client_option)
    : outcome client_opts :=
  let o := client_opts_init in
  let o := if contains (str_octets "openwrt") argv0
           then ClientOpts (parse_openwrt_config file (co_cfg o)) (co_usb o) (co_presence o) else o in
  match client_handle_options opts o with
  | Done (_, o) => Done o
  | Panic => Panic
  | Undef => Undef
  | NoFuel => NoFuel
  end.

(** Up to the frontend's main function; [zombies_ok]: whether the disposition of
    SIGCHLD can be set. *)
Definition client_main (e : srvc_env) (argv0 : bytes) (file : option bytes) (opts : list client_option)
    (hostname : octets) (oks : bool * bool * bool) (zombies_ok : bool) : M bankd_client client_opts :=
  o ← lift_outcome (client_configure argv0 file opts);
  remsim_client_create hostname (str_octets "remsim-client") (co_cfg o) oks ;;
  run_client_event e CeStart ;;
  (if zombies_ok then mret () else panic) ;;
  mret o.
End main.
