(* ===== verification/ClientMainProps.v ===== *)
(** * Properties of the start of remsim-client

    The configuration file of the router: what is written into it is read back
    ([uci_roundtrip]), and whatever it contains, the numbers stay in their ranges
    ([uci_ranges]).  The program starts in a state from which everything of
    [ClientProps] follows ([client_main_reachable]). *)

From S2P Require Import Prelude OsmoFsm Slotmap RsproPdu RsproUtil Ipa ClientConn Examples ConnInv.
From S2P Require Import RemsimClient ClientInv ClientProps CString ClientMain.

(** ** Ranges *)

(** Client id and slot are -1 until they are configured. *)
Record cfg_in_range (c : client_config) : Prop := {
  cr_port : 1 ≤ cfg_server_port c ≤ 65535;
  cr_id : - 1 ≤ cfg_client_id c ≤ 1023;
  cr_slot : - 1 ≤ cfg_client_slot c ≤ 1023;
}.

Lemma apply_option_range s k v c : cfg_in_range c → cfg_in_range (apply_option s k v c).
Proof.
  intros Hc. unfold apply_option. set (v' := match str_split NL v with Some _ => _ | None => _ end).
  assert (∀ lo hi set, (∀ z, lo ≤ z ≤ hi → cfg_in_range (set (swrap 32 z) c)) →
    cfg_in_range match whole_number v' with
                 | Some z => if (lo <=? z) && (z <=? hi) then set (swrap 32 z) c else c
                 | None => c
                 end) as Hnum.
  { intros lo hi set Hset. destruct (whole_number v') as [z|]; [|done].
    destruct (Z.leb_spec lo z); [|done]. destruct (Z.leb_spec z hi); [|done]. by apply Hset. }
  assert (∀ z, 0 ≤ z ≤ 65535 → swrap 32 z = z) as Hsw by (intros z Hz; apply swrap_small; lia).
  destruct Hc as [Hp Hi Hs].
  repeat case_bool_decide; try (by split); apply Hnum; intros z Hz; rewrite Hsw by lia;
    split; cbn; lia.
Qed.

Lemma parse_line_range line st : cfg_in_range st.2 → cfg_in_range (parse_line line st).2.
Proof.
  destruct st as [section cfg]. cbn [snd]. intros Hc. unfold parse_line.
  assert (∀ k v, cfg_in_range (match section with Some s => apply_option s k v cfg | None => cfg end)) as Hopt
    by (intros k v; destruct section; [by apply apply_option_range|done]).
  repeat (case_match; try done); cbn; auto.
Qed.

(** Whatever is in the configuration file, the port the client uses is a TCP
    port, and its id and slot are at most 1023 (or not configured). *)
Theorem uci_ranges file : cfg_in_range (parse_openwrt_config file client_config_init).
Proof.
  assert (cfg_in_range client_config_init) as Hinit by (split; cbn; lia).
  destruct file as [text|]; [|done]. cbn [parse_openwrt_config].
  enough (∀ lines st, cfg_in_range st.2 → cfg_in_range (foldl (λ st l, parse_line l st) st lines).2) as Hl
    by (by apply Hl).
  induction lines as [|l lines IH]; intros st Hst; [done|]. cbn. by apply IH, parse_line_range.
Qed.

(** ** Round trip *)

(** A configuration file with the four options. *)
Definition uci_line (s : bytes) : bytes := s ++ [NL].
Definition uci_section (name : bytes) : bytes :=
  uci_line (str_octets "config " ++ name ++ str_octets " '" ++ name ++ [QUOTE]).
Definition uci_option (key value : bytes) : bytes :=
  uci_line ([9] ++ str_octets "option " ++ key ++ str_octets " '" ++ value ++ [QUOTE]).
Definition uci_text (host : bytes) (port id slot : Z) : bytes :=
  uci_section (str_octets "server") ++ uci_option (str_octets "host") host ++
  uci_option (str_octets "port") (dec port) ++ uci_section (str_octets "client") ++
  uci_option (str_octets "client_id") (dec id) ++ uci_option (str_octets "client_slot") (dec slot).

(** What can be written between quotes. *)
Definition value_ok (v : bytes) : Prop :=
  v ≠ [] ∧ (length v ≤ 511)%nat ∧ Forall (λ c, c ≠ 0 ∧ c ≠ NL ∧ c ≠ QUOTE) v.

(** No white space at either end. *)
Definition trimmed (v : bytes) : Prop := skip_blank v = v ∧ trim_end v = v.

(** A word of a line. *)
Definition word_ok (w : bytes) : Prop :=
  w ≠ [] ∧ (length w ≤ 63)%nat ∧ Forall (λ c, c ≠ 0 ∧ c ≠ QUOTE ∧ isspace c = false) w.

Lemma word_value w : word_ok w → value_ok w.
Proof.
  intros (Hne & Hl & Hw). split; [done|]. split; [lia|]. eapply Forall_impl; [exact Hw|].
  intros c (H0 & Hq & Hs). split; [done|]. split; [|done]. intros ->. by vm_compute in Hs.
Qed.

Lemma fgets_line a s cur :
  Forall (λ c, c ≠ NL) a → (length cur + length a < 1023)%nat →
  fgets_lines 1023 (a ++ NL :: s) cur = (cur ++ a ++ [NL]) :: fgets_lines 1023 s [].
Proof.
  revert cur. induction a as [|c a IH]; intros cur Ha Hlen; cbn [app fgets_lines].
  - by rewrite Z.eqb_refl.
  - apply Forall_cons in Ha as [Hc Ha]. rewrite (proj2 (Z.eqb_neq c 10) Hc). cbn [orb].
    cbn [length] in Hlen. destruct (Nat.leb_spec 1023 (length (cur ++ [c]))) as [Hge|_].
    { rewrite length_app in Hge. cbn in Hge. lia. }
    rewrite IH; [|done|rewrite length_app; cbn; lia]. by rewrite <-!app_assoc.
Qed.

Lemma c_str_id s : Forall (λ c, c ≠ 0) s → c_str s = s.
Proof.
  intros Hs. unfold c_str. rewrite span_all; [done| |done].
  eapply Forall_impl; [exact Hs|]. intros c Hc. by rewrite (proj2 (Z.eqb_neq _ _) Hc).
Qed.

(** Scanning "word 'value'". *)
Lemma scan_word_value w v n m rest :
  word_ok w → (length w ≤ n)%nat → value_ok v → (length v ≤ m)%nat →
  sscanf ([DWord n] ++ lit " '" ++ [DNot m QUOTE]) (w ++ str_octets " '" ++ v ++ QUOTE :: rest) = [VStr w; VStr v].
Proof.
  intros (Hne & _ & Hw) Hn (Hnv & _ & Hv) Hm. cbn [sscanf app].
  assert (skip_space (w ++ str_octets " '" ++ v ++ QUOTE :: rest) = w ++ str_octets " '" ++ v ++ QUOTE :: rest) as ->.
  { apply skip_space_stop. destruct w as [|c w]; [done|]. cbn. apply Forall_cons in Hw as [(_ & _ & Hc) _]. done. }
  rewrite span_app; [|eapply Forall_impl; [exact Hw|]; by intros c (_ & _ & ->)|done|by left].
  destruct w as [|c w]; [done|]. f_equal.
  change (lit " '" ++ [DNot m QUOTE]) with [DSpace; DLit QUOTE; DNot m QUOTE].
  change (str_octets " '" ++ v ++ QUOTE :: rest) with (32 :: QUOTE :: v ++ QUOTE :: rest).
  cbn [sscanf skip_space]. change ((32 =? 32) || _) with true. change ((QUOTE =? 32) || _) with false.
  cbn iota. rewrite Z.eqb_refl. rewrite span_app; [|eapply Forall_impl; [exact Hv|]|done|left; by rewrite Z.eqb_refl].
  - by destruct v.
  - intros d (_ & _ & Hd). cbn. by rewrite (proj2 (Z.eqb_neq _ _) Hd).
Qed.

Lemma scan_line kw w v n m rest :
  kw = str_octets "config " ∨ kw = str_octets "option " →
  word_ok w → (length w ≤ n)%nat → value_ok v → (length v ≤ m)%nat →
  sscanf ((if bool_decide (kw = str_octets "config ") then lit "config " else lit "option ") ++
      [DWord n] ++ lit " '" ++ [DNot m QUOTE]) (kw ++ w ++ str_octets " '" ++ v ++ QUOTE :: rest) =
    [VStr w; VStr v].
Proof.
  intros Hkw Hw Hn Hv Hm. pose proof (scan_word_value w v n m rest Hw Hn Hv Hm) as Hscan.
  assert (skip_space (w ++ str_octets " '" ++ v ++ QUOTE :: rest) = w ++ str_octets " '" ++ v ++ QUOTE :: rest) as Hsk.
  { apply skip_space_stop. destruct Hw as (Hne & _ & Hw). destruct w as [|c w]; [done|].
    by apply Forall_cons in Hw as [(_ & _ & Hc) _]. }
  destruct Hkw as [-> | ->].
  - rewrite bool_decide_eq_true_2 by done.
    transitivity (sscanf ([DWord n] ++ lit " '" ++ [DNot m QUOTE])
      (skip_space (w ++ str_octets " '" ++ v ++ QUOTE :: rest))); [done|]. by rewrite Hsk.
  - rewrite bool_decide_eq_false_2 by done.
    transitivity (sscanf ([DWord n] ++ lit " '" ++ [DNot m QUOTE])
      (skip_space (w ++ str_octets " '" ++ v ++ QUOTE :: rest))); [done|]. by rewrite Hsk.
Qed.

Lemma word_nonzero w : word_ok w → Forall (λ c, c ≠ 0) w.
Proof. intros (_ & _ & Hw). eapply Forall_impl; [exact Hw|]. by intros c (? & _). Qed.
Lemma value_nonzero v : value_ok v → Forall (λ c, c ≠ 0) v.
Proof. intros (_ & _ & Hv). eapply Forall_impl; [exact Hv|]. by intros c (? & _). Qed.
Lemma concrete_nonzero s : forallb (λ c, negb (c =? 0)) s = true → Forall (λ c, c ≠ 0) s.
Proof.
  intros Hs. apply Forall_forall. intros c Hc. rewrite forallb_forall in Hs.
  apply list_elem_of_In in Hc. apply Hs, negb_true_iff, Z.eqb_neq in Hc. done.
Qed.

Lemma parse_section name st : word_ok name → parse_line (uci_section name) st = (Some name, st.2).
Proof.
  intros Hn. destruct st as [section cfg]. unfold parse_line, uci_section, uci_line.
  replace ((str_octets "config " ++ name ++ str_octets " '" ++ name ++ [QUOTE]) ++ [NL]) with
    (str_octets "config " ++ name ++ str_octets " '" ++ name ++ QUOTE :: [NL]) by (by rewrite <-!app_assoc).
  rewrite c_str_id.
  2:{ apply Forall_app; split; [by apply concrete_nonzero|]. apply Forall_app; split; [by apply word_nonzero|].
      apply Forall_app; split; [by apply concrete_nonzero|]. apply Forall_app; split; [by apply word_nonzero|].
      by apply concrete_nonzero. }
  assert (∀ s, skip_blank (str_octets "config " ++ s) = str_octets "config " ++ s) as -> by done.
  pose proof (scan_line (str_octets "config ") name name 63 63 [NL] (or_introl eq_refl) Hn) as Hscan.
  destruct Hn as (Hne & Hl & Hw). rewrite bool_decide_eq_true_2 in Hscan by done.
  specialize (Hscan Hl (word_value _ (conj Hne (conj Hl Hw))) Hl).
  set (line := name ++ _) in *.
  assert (∀ (X : Type) (a b : X), (match str_octets "config " ++ line with [] => a | c :: _ =>
    if (c =? NL) || (c =? 35) then a else b end) = b) as Hm by done.
  rewrite Hm. assert (is_prefix (str_octets "config ") (str_octets "config " ++ line) = true) as -> by done.
  rewrite Hscan. done.
Qed.

Lemma parse_option key value s cfg : word_ok key → value_ok value →
  parse_line (uci_option key value) (Some s, cfg) = (Some s, apply_option s key value cfg).
Proof.
  intros Hn Hv. unfold parse_line, uci_option, uci_line.
  replace (([9] ++ str_octets "option " ++ key ++ str_octets " '" ++ value ++ [QUOTE]) ++ [NL]) with
    ([9] ++ str_octets "option " ++ key ++ str_octets " '" ++ value ++ QUOTE :: [NL])
    by (by rewrite <-!app_assoc).
  rewrite c_str_id.
  2:{ apply Forall_app; split; [by apply concrete_nonzero|].
      apply Forall_app; split; [by apply concrete_nonzero|]. apply Forall_app; split; [by apply word_nonzero|].
      apply Forall_app; split; [by apply concrete_nonzero|]. apply Forall_app; split; [by apply value_nonzero|].
      by apply concrete_nonzero. }
  assert (∀ s, skip_blank ([9] ++ str_octets "option " ++ s) = str_octets "option " ++ s) as -> by done.
  pose proof (scan_line (str_octets "option ") key value 63 511 [NL] (or_intror eq_refl) Hn) as Hscan.
  destruct Hn as (Hne & Hl & Hw). rewrite bool_decide_eq_false_2 in Hscan by done.
  specialize (Hscan Hl Hv (proj1 (proj2 Hv))).
  set (line := key ++ _) in *.
  assert (∀ (X : Type) (a b : X), (match str_octets "option " ++ line with [] => a | c :: _ =>
    if (c =? NL) || (c =? 35) then a else b end) = b) as Hm by done.
  rewrite Hm. assert (is_prefix (str_octets "config ") (str_octets "option " ++ line) = false) as -> by done.
  assert (is_prefix (str_octets "option ") (str_octets "option " ++ line) = true) as -> by done.
  rewrite Hscan. done.
Qed.

Lemma fgets_uci l s :
  Forall (λ c, c ≠ NL) l → (length l < 1023)%nat →
  fgets_lines 1023 (uci_line l ++ s) [] = uci_line l :: fgets_lines 1023 s [].
Proof. intros Hl Hn. unfold uci_line. rewrite <-app_assoc. by apply fgets_line. Qed.

Lemma value_no_nl v : value_ok v → Forall (λ c, c ≠ NL) v.
Proof. intros (_ & _ & Hv). eapply Forall_impl; [exact Hv|]. by intros c (_ & ? & _). Qed.

Lemma concrete_no_nl s : forallb (λ c, negb (c =? NL)) s = true → Forall (λ c, c ≠ NL) s.
Proof.
  intros Hs. apply Forall_forall. intros c Hc. rewrite forallb_forall in Hs.
  apply list_elem_of_In in Hc. apply Hs, negb_true_iff, Z.eqb_neq in Hc. done.
Qed.

Lemma fgets_section name s : word_ok name →
  fgets_lines 1023 (uci_section name ++ s) [] = uci_section name :: fgets_lines 1023 s [].
Proof.
  intros Hn. pose proof (value_no_nl _ (word_value _ Hn)) as Hnl. destruct Hn as (_ & Hl & _).
  apply fgets_uci.
  - apply Forall_app; split; [by apply concrete_no_nl|]. apply Forall_app; split; [done|].
    apply Forall_app; split; [by apply concrete_no_nl|]. apply Forall_app; split; [done|].
    by apply concrete_no_nl.
  - rewrite !length_app. cbn. lia.
Qed.

Lemma fgets_option key value s : word_ok key → value_ok value →
  fgets_lines 1023 (uci_option key value ++ s) [] = uci_option key value :: fgets_lines 1023 s [].
Proof.
  intros Hn Hv. pose proof (value_no_nl _ (word_value _ Hn)) as Hk. pose proof (value_no_nl _ Hv) as Hnl.
  destruct Hn as (_ & Hl & _). destruct Hv as (_ & Hlv & _). apply fgets_uci.
  - apply Forall_app; split; [by apply concrete_no_nl|].
    apply Forall_app; split; [by apply concrete_no_nl|]. apply Forall_app; split; [done|].
    apply Forall_app; split; [by apply concrete_no_nl|]. apply Forall_app; split; [done|].
    by apply concrete_no_nl.
  - rewrite !length_app. cbn. lia.
Qed.

Lemma dec_value_ok z : 0 ≤ z → value_ok (dec z).
Proof.
  intros Hz. split; [by apply dec_go_nonempty; lia|].
  split; [pose proof (dec_go_length 20 z []); cbn in *; unfold dec; lia|].
  eapply Forall_impl; [by apply dec_digits|]. intros c Hc. unfold isdigit in Hc.
  rewrite andb_true_iff, !Z.leb_le in Hc. unfold NL, QUOTE. lia.
Qed.

Lemma split_none c v : Forall (λ x, x ≠ c) v → str_split c v = None.
Proof.
  induction 1 as [|x v Hx _ IH]; [done|]. cbn. by rewrite (proj2 (Z.eqb_neq _ _) Hx), IH.
Qed.

Lemma whole_dec z : 0 ≤ z < 2 ^ 63 → whole_number (dec z) = Some z.
Proof.
  intros Hz. unfold whole_number. pose proof (strtol_dec z [] Hz I) as H. rewrite app_nil_r in H.
  by rewrite H.
Qed.

Lemma apply_number section key z lo hi set c :
  (section, key, lo, hi, set) ∈ [(str_octets "server", str_octets "port", 1, 65535, set_port);
    (str_octets "client", str_octets "client_id", 0, 1023, set_client_id);
    (str_octets "client", str_octets "client_slot", 0, 1023, set_client_slot)] →
  lo ≤ z ≤ hi → apply_option section key (dec z) c = set z c.
Proof.
  intros Hin Hz.
  assert (0 ≤ lo ∧ hi ≤ 65535) as [Hlo Hhi].
  { repeat (apply elem_of_cons in Hin as [Heq|Hin]; [injection Heq as -> -> -> -> ->; lia|]).
    by apply elem_of_nil in Hin. }
  assert (str_split NL (dec z) = None) as Hnl by (apply split_none, value_no_nl, dec_value_ok; lia).
  assert (whole_number (dec z) = Some z) as Hw by (apply whole_dec; lia).
  assert ((lo <=? z) && (z <=? hi) = true) as Hr by (rewrite andb_true_iff, !Z.leb_le; lia).
  assert (swrap 32 z = z) as Hs by (apply swrap_small; lia).
  repeat (apply elem_of_cons in Hin as [Heq|Hin];
    [injection Heq as -> -> -> -> ->; unfold apply_option; rewrite Hnl, Hw, Hr, Hs; reflexivity|]).
  by apply elem_of_nil in Hin.
Qed.

(** The configuration file is read as it is written: a file with the four
    options in the form that the router's configuration tools produce yields
    exactly their values. *)
Theorem uci_roundtrip cfg host port id slot :
  value_ok host → trimmed host → 1 ≤ port ≤ 65535 → 0 ≤ id ≤ 1023 → 0 ≤ slot ≤ 1023 →
  parse_openwrt_config (Some (uci_text host port id slot)) cfg =
    set_client_slot slot (set_client_id id (set_port port (set_host (octets_str host) cfg))).
Proof.
  intros Hh [Hb Ht] Hp Hi Hs. cbn [parse_openwrt_config]. unfold uci_text.
  assert (∀ s, forallb (λ c, negb (isspace c) && negb (c =? 0) && negb (c =? QUOTE)) s &&
    (length s <=? 63)%nat && negb (bool_decide (s = [])) = true → word_ok s) as Hword.
  { intros s. rewrite !andb_true_iff, negb_true_iff, bool_decide_eq_false, Nat.leb_le, forallb_forall.
    intros [[Hall Hlen] Hne]. split; [done|]. split; [done|]. apply Forall_forall. intros c Hc.
    apply list_elem_of_In, Hall in Hc. rewrite !andb_true_iff, !negb_true_iff, !Z.eqb_neq in Hc. tauto. }
  pose proof (dec_value_ok port ltac:(lia)) as Vp. pose proof (dec_value_ok id ltac:(lia)) as Vi.
  pose proof (dec_value_ok slot ltac:(lia)) as Vs.
  pose proof (Hword (str_octets "server") eq_refl) as W1. pose proof (Hword (str_octets "host") eq_refl) as W2.
  pose proof (Hword (str_octets "port") eq_refl) as W3. pose proof (Hword (str_octets "client") eq_refl) as W4.
  pose proof (Hword (str_octets "client_id") eq_refl) as W5.
  pose proof (Hword (str_octets "client_slot") eq_refl) as W6.
  rewrite fgets_section, fgets_option, fgets_option, fgets_section, fgets_option by done.
  rewrite <-(app_nil_r (uci_option (str_octets "client_slot") (dec slot))), fgets_option by done.
  cbn [fgets_lines]. rewrite bool_decide_eq_true_2 by done. cbn [foldl].
  rewrite parse_section by done. cbn [snd]. rewrite !parse_option by done.
  rewrite parse_section by done. cbn [snd]. rewrite !parse_option by done. cbn [snd].
  rewrite !(apply_number _ _ _ _ _ set_port _ (list_elem_of_here _ _)) by lia.
  erewrite (apply_number _ _ id), (apply_number _ _ slot);
    [|apply list_elem_of_further, list_elem_of_further, list_elem_of_here|lia
     |apply list_elem_of_further, list_elem_of_here|lia].
  do 3 f_equal. unfold apply_option. rewrite split_none by (by apply value_no_nl).
  rewrite !bool_decide_eq_true_2 by done. by rewrite Hb, Ht.
Qed.

(** ** Start *)

Section main.
Context `{OsmoLib, StreamCliLib, RsproCodec, IpaBtsLib, InetNtop, ClientBuild, HexParse}.

(** The options that end the program. *)
Definition option_exits (o : client_option) : Prop :=
  match o with
  | ClHelp | ClVersion => True
  | ClAtr a => match osmo_hexparse a 55 with
               | Some d => (length d < 2)%nat ∨ (55 < length d)%nat
               | None => True
               end
  | _ => False
  end.

Lemma wp_option o c (Q : () → client_opts → Prop) :
  (∀ c', Q () c') → wpe (λ a, a = APanic ∧ option_exits o) (client_handle_option o) c Q.
Proof.
  intros HQ. destruct o; cbn [client_handle_option]; try (by apply wp_modify); try (by apply wp_ret);
    try (by apply wp_panic).
  destruct (osmo_hexparse arg 55) as [d|] eqn:Hd; [|apply wp_panic; cbn; by rewrite Hd].
  destruct (Nat.ltb_spec (length d) 2); [apply wp_panic; cbn; rewrite Hd; by split; [|left]|].
  destruct (Nat.ltb_spec 55 (length d)); [apply wp_panic; cbn; rewrite Hd; by split; [|right]|].
  by apply wp_modify.
Qed.

Lemma configure_outcome argv0 file opts :
  match client_configure argv0 file opts with
  | Done _ => True
  | Panic => Exists option_exits opts
  | _ => False
  end.
Proof.
  unfold client_configure. set (o := if contains _ _ then _ else _). clearbody o.
  assert (wpe (λ a, a = APanic ∧ Exists option_exits opts) (client_handle_options opts) o (λ _ _, True)) as Hwp.
  { revert o. unfold client_handle_options. induction opts as [|x opts IH]; intros o; [by apply wp_ret|].
    cbn [for_each]. apply wp_bind. eapply wp_weaken; [apply (wp_option x)|].
    - intros o'. eapply wp_weaken; [apply IH|]. intros a [-> Hx]. split; [done|by apply Exists_cons_tl].
    - intros a [-> Hx]. split; [done|by apply Exists_cons_hd]. }
  rewrite wpe_outcome in Hwp. destruct (client_handle_options opts o) as [[[] c]| | |];
    [done|by destruct Hwp..].
Qed.

(** If no option ends the program and its resources can be allocated, the
    program starts, whatever is in the configuration file, and the client is in
    a reachable state; otherwise it exits. *)
Theorem client_main_reachable e argv0 file opts hostname oks zombies_ok bc0 :
  0 ≤ get_monotonic_ms e →
  match client_main e argv0 file opts hostname oks zombies_ok bc0 with
  | Done (o, bc) => client_configure argv0 file opts = Done o ∧ client_reachable (get_monotonic_ms e) bc
  | Panic => Exists option_exits opts ∨ oks ≠ (true, true, true) ∨ zombies_ok = false
  | _ => False
  end.
Proof.
  intros Hnow. unfold client_main, mbind, M_bind, lift_outcome, mret, M_ret.
  pose proof (configure_outcome argv0 file opts) as Hcfg.
  destruct (client_configure argv0 file opts) as [o| | |]; [|by left|done..].
  destruct (remsim_client_create _ _ _ _ _) as [[[] bc]| | |] eqn:Hc.
  - assert (client_reachable 0 bc) as Hr by (eapply cr_create; exact Hc).
    pose proof (client_event_defined 0 bc e CeStart Hr Hnow I) as Hev.
    destruct (run_client_event e CeStart bc) as [[[] bc']| | |] eqn:Hrun; try done.
    by destruct zombies_ok; [|right; right].
  - right. left. intros ->. by cbn in Hc.
  - by destruct oks as [[[] []] []].
  - by destruct oks as [[[] []] []].
Qed.
End main.

(** ** Concrete runs *)

(** Pairs of digits without anything between them. *)
Fixpoint hexparse_go (s : bytes) : option bytes :=
  match s with
  | [] => Some []
  | a :: b :: s =>
      x ← hex_val a; y ← hex_val b; r ← hexparse_go s; Some (16 * x + y :: r)
  | _ => None
  end.

#[global] Instance hexparse_ref : HexParse := {
  osmo_hexparse s max := r ← hexparse_go s; if (length r <=? max)%nat then Some r else None;
}.

Definition lines_of (l : list string) : bytes := mjoin (map (λ s, str_octets s ++ [NL]) l).

Definition settings (c : client_config) : option string * Z * Z * Z :=
  (cfg_server_host c, cfg_server_port c, cfg_client_id c, cfg_client_slot c).

(** Forms of the file that the parser misunderstands: an empty value between
    quotes is stored with its quotes; a section whose name has no quotes does not
    end the section before it, so that the port of another service is taken for
    that of the server; and an unterminated quote counts as the number 0. *)
Theorem uci_pitfalls :
  settings (parse_openwrt_config (Some (lines_of
    ["config server 'server'"; "	option host ''"])) client_config_init) =
    (Some "''", 9998, - 1, - 1) ∧
  settings (parse_openwrt_config (Some (lines_of
    ["config server 'server'"; "	option host '10.0.0.1'"; "config ionmesh ionmesh";
     "	option host 'ionmesh.example.com'"; "	option port '5000'"])) client_config_init) =
    (Some "ionmesh.example.com", 5000, - 1, - 1) ∧
  settings (parse_openwrt_config (Some (lines_of
    ["config client 'client'"; "	option client_id '"])) client_config_init) =
    (Some "127.0.0.1", 9998, 0, - 1).
Proof. repeat split; vm_compute; reflexivity. Qed.

Lemma uci_roundtrip_witness :
  settings (parse_openwrt_config (Some (uci_text (str_octets "10.0.0.1") 9998 7 3)) client_config_init) =
    (Some "10.0.0.1", 9998, 7, 3).
Proof.
  rewrite (uci_roundtrip client_config_init (str_octets "10.0.0.1") 9998 7 3).
  - reflexivity.
  - split; [done|]. split; [vm_compute; lia|]. repeat constructor; discriminate.
  - by split.
  - lia.
  - lia.
  - lia.
Defined.

Lemma client_main_reachable_witness :
  match client_main (ok_env 5000) (str_octets "/usr/bin/osmo-remsim-client-openwrt")
      (Some (uci_text (str_octets "10.0.0.1") 9998 7 3)) [ClClientSlot [53]] [99] (true, true, true) true
      (zero_bc client_config_init) with
  | Done (o, bc) =>
      client_configure (str_octets "/usr/bin/osmo-remsim-client-openwrt")
        (Some (uci_text (str_octets "10.0.0.1") 9998 7 3)) [ClClientSlot [53]] = Done o ∧
      client_reachable 5000 bc
  | Panic => Exists option_exits [ClClientSlot [53]] ∨ (true, true, true) ≠ (true, true, true) ∨ true = false
  | _ => False
  end.
Proof. apply (client_main_reachable (ok_env 5000)). vm_compute. discriminate. Defined.
