(* ===== verification/ClientShell.v ===== *)
(** * The shell ([src/client/user_shell.c])

    A front end in which the user types C-APDUs: each line of the standard input is
    a command, [RESET] or a C-APDU in hexadecimal digits, and the responses are
    printed.  The calls into the front end are those in the log of the client;
    what they print is a function of it ([shell_printed]).  [osmo_hexparse] is an
    interface. *)

From S2P Require Import Prelude OsmoFsm Slotmap RsproPdu RsproUtil Ipa ClientConn Examples ConnInv.
From S2P Require Import RemsimClient ClientInv ClientProps CString ClientMain ClientMainProps.
From S2P Require Import BankdPcsc BankdMain BankdProps.

(** ** State *)

(** [struct stdin_state], with the client it belongs to; the bytes of the message
    that is being read. *)
Record stdin_state := StdinState {
  ss_bc : bankd_client;
  rx_msg : option bytes;
}.

Definition set_ss_bc (b : bankd_client) (s : stdin_state) : stdin_state := StdinState b (rx_msg s).
Definition set_rx_msg (m : option bytes) (s : stdin_state) : stdin_state := StdinState (ss_bc s) m.

Definition STDIN_BUF : nat := 1024.

(** What the front end prints. *)
Inductive shell_output := OutRApdu (data : octets) | OutSetAtr (data : octets).

Definition frontend_print (f : frontend_call) : option shell_output :=
  match f with
  | frontend_handle_card2modem d => Some (OutRApdu d)
  | frontend_handle_set_atr d => Some (OutSetAtr d)
  | _ => None
  end.

Definition shell_printed (s : stdin_state) : list shell_output :=
  omap frontend_print (frontend_log (ss_bc s)).

Definition is_eol (c : Z) : bool := (c =? 13) || (c =? 10).

Section shell.
Context `{OsmoLib, StreamCliLib, RsproCodec, IpaBtsLib, InetNtop, ClientBuild, HexParse}.

Definition sh_client (e : srvc_env) (v : client_event) : M stdin_state () :=
  zoom ss_bc set_ss_bc (run_client_event e v).

(** ** Commands *)

Definition reset_pstatus : frontend_phys_status :=
  PhysStatus (PhysFlags 1 0 0 1) 0 0 0 0 0.

Definition handle_stdin_command (e : srvc_env) (cmd : bytes) : M stdin_state () :=
  rx ← gets rx_msg;
  osmo_assert (bool_decide (is_Some rx)) ;;
  if strcaseeq cmd (str_octets "RESET") then sh_client e (CeStatus reset_pstatus)
  else
    match osmo_hexparse cmd 1024 with
    | None => mret ()
    | Some buf =>
        slot ← gets (λ s, clslot (srvc_cfg (srv_conn (ss_bc s))));
        match slot with
        | None => mret ()
        | Some _ => sh_client e (CeTpdu buf)
        end
    end.

(** The loop over the bytes of one read: [before] has been passed; after the
    message was freed the next byte is read from freed memory. *)
Fixpoint stdin_loop (e : srvc_env) (before cur : bytes) : M stdin_state () :=
  match cur with
  | [] => mret ()
  | c :: cur =>
      rx ← gets rx_msg;
      match rx with
      | None => undef
      | Some _ =>
          if is_eol c then
            handle_stdin_command e (c_str before) ;;
            modify (set_rx_msg None) ;;
            stdin_loop e (before ++ [0]) cur
          else stdin_loop e (before ++ [c]) cur
      end
  end.

(** The standard input is readable: [None] if reading fails, else what can be
    read (nothing when it was closed). *)
Definition stdin_fd_cb (e : srvc_env) (input : option bytes) : M stdin_state () :=
  rx ← gets rx_msg;
  let msg := default [] rx in
  modify (set_rx_msg (Some msg)) ;;
  match input with
  | None => mret ()
  | Some avail =>
      let cur := take (STDIN_BUF - length msg) avail in
      match cur with
      | [] => panic
      | _ => modify (set_rx_msg (Some (msg ++ cur))) ;; stdin_loop e [] cur
      end
  end.

(** ** Events *)

Inductive shell_event := ShStdin (input : option bytes) | ShServer (v : conn_event) | ShBankd (v : conn_event).

Definition run_shell_event (e : srvc_env) (v : shell_event) : M stdin_state () :=
  match v with
  | ShStdin input => stdin_fd_cb e input
  | ShServer v => sh_client e (CeServer v)
  | ShBankd v => sh_client e (CeBankd v)
  end.

(** [client_user_main]: the loop starts with no message. *)
Definition client_user_main (bc : bankd_client) : stdin_state := StdinState bc None.

Definition shell_possible (s : stdin_state) (v : shell_event) : Prop :=
  match v with
  | ShStdin _ => True
  | ShServer v => ce_possible (ss_bc s) (CeServer v)
  | ShBankd v => ce_possible (ss_bc s) (CeBankd v)
  end.

Inductive shell_reachable : Z → stdin_state → Prop :=
| shr_start t bc : client_reachable t bc → shell_reachable t (client_user_main bc)
| shr_event t e v s s' :
    shell_reachable t s → t ≤ get_monotonic_ms e → shell_possible s v →
    run_shell_event e v s = Done ((), s') → shell_reachable (get_monotonic_ms e) s'.

(** ** One line per read *)

(** The bytes a read takes from the standard input. *)
Definition stdin_chunk (s : stdin_state) (avail : bytes) : bytes :=
  take (STDIN_BUF - length (default [] (rx_msg s))) avail.

Definition no_eol (b : bytes) : Prop := Forall (λ c, is_eol c = false) b.

(** A read either has no end of a line, or the first one, [c], and what is behind. *)
Lemma eol_split b : no_eol b ∨ ∃ a c r, b = a ++ c :: r ∧ no_eol a ∧ is_eol c = true.
Proof.
  induction b as [|c b IH]; [by left; constructor|].
  destruct (is_eol c) eqn:Hc; [right; exists [], c, b; by repeat constructor|].
  destruct IH as [IH|(a & d & r & -> & Ha & Hd)]; [left; by constructor|].
  right. exists (c :: a), d, r. by repeat constructor.
Qed.

Lemma loop_skip e before a cur s :
  no_eol a → is_Some (rx_msg s) →
  stdin_loop e before (a ++ cur) s = stdin_loop e (before ++ a) cur s.
Proof.
  intros Ha [m Hm]. revert before. induction Ha as [|c a Hc Ha IH]; intros before; [by rewrite app_nil_r|].
  cbn [app stdin_loop]. unfold mbind at 1, M_bind at 1, gets at 1. rewrite Hm, Hc, IH.
  by rewrite <-(assoc_L (++)).
Qed.

(** What a read does, by what it contains. *)
Lemma stdin_read e avail s :
  let cur := stdin_chunk s avail in
  cur ≠ [] →
  let s1 := set_rx_msg (Some (default [] (rx_msg s) ++ cur)) s in
  (no_eol cur → stdin_fd_cb e (Some avail) s = Done ((), s1)) ∧
  (∀ a c r, cur = a ++ c :: r → no_eol a → is_eol c = true →
     stdin_fd_cb e (Some avail) s =
       (handle_stdin_command e (c_str a) ;; modify (set_rx_msg None) ;;
        match r with [] => mret () | _ => undef end) s1).
Proof.
  cbn zeta. set (cur := stdin_chunk s avail). set (s1 := set_rx_msg _ _). intros Hne.
  assert (stdin_fd_cb e (Some avail) s = stdin_loop e [] cur s1) as Hcb.
  { unfold stdin_fd_cb, mbind, M_bind, gets, modify. fold (stdin_chunk s avail). fold cur.
    destruct cur; [done|]. by destruct s. }
  split.
  - intros Hn. rewrite Hcb, <-(app_nil_r cur), loop_skip by done. done.
  - intros a c r Hcur Ha Hc. rewrite Hcb, Hcur, loop_skip by done. cbn [app stdin_loop].
    unfold mbind at 1, M_bind at 1, gets at 1. subst s1. cbn [set_rx_msg rx_msg]. rewrite Hc.
    unfold mbind, M_bind. destruct (handle_stdin_command e (c_str a) _) as [[[] s2]| | |]; try done.
    unfold modify. destruct r; [done|]. done.
Qed.

(** What a command makes of the client: an event, or nothing. *)
Definition command_event (cmd : bytes) (bc : bankd_client) : option client_event :=
  if strcaseeq cmd (str_octets "RESET") then Some (CeStatus reset_pstatus)
  else
    match osmo_hexparse cmd 1024, clslot (srvc_cfg (srv_conn bc)) with
    | Some buf, Some _ => Some (CeTpdu buf)
    | _, _ => None
    end.

Definition command_effect (e : srvc_env) (cmd : bytes) (bc bc' : bankd_client) : Prop :=
  match command_event cmd bc with
  | Some v => run_client_event e v bc = Done ((), bc')
  | None => bc' = bc
  end.

Lemma command_done t e cmd s :
  client_reachable t (ss_bc s) → t ≤ get_monotonic_ms e → is_Some (rx_msg s) →
  ∃ bc', handle_stdin_command e cmd s = Done ((), set_ss_bc bc' s) ∧ command_effect e cmd (ss_bc s) bc'.
Proof.
  intros Hr Ht Hm. unfold command_effect, command_event, handle_stdin_command, mbind, M_bind, gets,
    osmo_assert, sh_client, zoom. rewrite bool_decide_eq_true_2 by done. cbn [mret M_ret].
  assert (∀ v, ce_possible (ss_bc s) v → (∀ a, ¬ ce_abort e (ss_bc s) v a) → ∃ bc',
    run_client_event e v (ss_bc s) = Done ((), bc')) as Hev.
  { intros v Hpos Hab. pose proof (client_event_defined t _ e v Hr Ht Hpos) as Hd.
    destruct (run_client_event e v (ss_bc s)) as [[[] bc']| | |]; [by exists bc'|by destruct (Hab _ Hd)..|done]. }
  destruct (strcaseeq _ _).
  - destruct (Hev (CeStatus reset_pstatus)) as (bc' & ->); [done|by intros a Ha|]. by exists bc'.
  - destruct (osmo_hexparse cmd 1024) as [buf|]; [destruct (clslot _)|].
    + destruct (Hev (CeTpdu buf)) as (bc' & ->); [done|by intros a Ha|]. by exists bc'.
    + exists (ss_bc s). by destruct s.
    + exists (ss_bc s). by destruct s.
Qed.

Lemma command_reachable t e cmd bc bc' :
  client_reachable t bc → t ≤ get_monotonic_ms e → command_effect e cmd bc bc' →
  ∃ t', t' ≤ get_monotonic_ms e ∧ client_reachable t' bc'.
Proof.
  unfold command_effect, command_event. intros Hr Ht.
  assert (∀ v, ce_possible bc v → run_client_event e v bc = Done ((), bc') →
    ∃ t', t' ≤ get_monotonic_ms e ∧ client_reachable t' bc') as Hev
    by (intros v Hp Hrun; exists (get_monotonic_ms e); split; [done|by eapply cr_event]).
  destruct (strcaseeq _ _); [by apply Hev|].
  destruct (osmo_hexparse cmd 1024); [|intros ->; by exists t].
  destruct (clslot _); [by apply Hev|intros ->; by exists t].
Qed.

(** The outcome of a read.  A read that yields nothing ends the program (the exit is
    [Panic]); it cannot be taken for one without an end of a line. *)
Definition stdin_result (e : srvc_env) (s : stdin_state) (avail : bytes) (o : outcome (() * stdin_state)) : Prop :=
  let cur := stdin_chunk s avail in
  match o with
  | Done (_, s') =>
      (cur ≠ [] ∧ no_eol cur ∧ s' = set_rx_msg (Some (default [] (rx_msg s) ++ cur)) s) ∨
      (∃ a c bc', cur = a ++ [c] ∧ no_eol a ∧ is_eol c = true ∧
         command_effect e (c_str a) (ss_bc s) bc' ∧ s' = StdinState bc' None)
  | Panic => avail = [] ∨ (STDIN_BUF ≤ length (default [] (rx_msg s)))%nat
  | Undef => ∃ a c r, cur = a ++ c :: r ∧ no_eol a ∧ is_eol c = true ∧ r ≠ []
  | NoFuel => False
  end.

Lemma stdin_outcome t e avail s :
  client_reachable t (ss_bc s) → t ≤ get_monotonic_ms e →
  stdin_result e s avail (stdin_fd_cb e (Some avail) s).
Proof.
  intros Hr Ht. destruct (decide (stdin_chunk s avail = [])) as [Hnil|Hne].
  { unfold stdin_fd_cb, mbind, M_bind, gets, modify. fold (stdin_chunk s avail). rewrite Hnil.
    change (avail = [] ∨ (STDIN_BUF ≤ length (default [] (rx_msg s)))%nat).
    unfold stdin_chunk in Hnil. apply (f_equal length) in Hnil. rewrite length_take in Hnil. cbn [length] in Hnil.
    destruct avail; [by left|]. right. cbn [length] in Hnil. lia. }
  destruct (stdin_read e avail s Hne) as [Hno Heol].
  destruct (eol_split (stdin_chunk s avail)) as [Hn|(a & c & r & Hcur & Ha & Hcc)].
  - rewrite (Hno Hn). left. by split.
  - rewrite (Heol _ _ _ Hcur Ha Hcc). unfold mbind, M_bind.
    destruct (command_done t e (c_str a) (set_rx_msg (Some (default [] (rx_msg s) ++ stdin_chunk s avail)) s))
      as (bc' & Hcmd & Hbc); [done|done|by eexists|]. rewrite Hcmd. unfold modify. destruct r as [|x r].
    + right. by exists a, c, bc'.
    + by exists a, c, (x :: r).
Qed.

Lemma shell_client_reachable t s :
  shell_reachable t s → ∃ t', t' ≤ t ∧ client_reachable t' (ss_bc s).
Proof.
  induction 1 as [t bc Hr|t e v s s' Hr (t' & Ht' & Hc) Ht Hpos Hrun]; [by exists t|].
  assert (t' ≤ get_monotonic_ms e) as Hte by lia.
  assert (∀ v, ce_possible (ss_bc s) v → sh_client e v s = Done ((), s') →
    ∃ t'', t'' ≤ get_monotonic_ms e ∧ client_reachable t'' (ss_bc s')) as Hcl.
  { intros v' Hp Hrun'. unfold sh_client, zoom in Hrun'. pose proof (client_event_defined t' _ e v' Hc Hte Hp) as Hd.
    destruct (run_client_event e v' (ss_bc s)) as [[[] bc']| | |]; try done. injection Hrun' as <-.
    by exists (get_monotonic_ms e). }
  destruct v as [input|v|v]; [|by apply (Hcl (CeServer v))|by apply (Hcl (CeBankd v))].
  cbn [run_shell_event] in Hrun. destruct input as [avail|].
  - pose proof (stdin_outcome t' e avail s Hc Hte) as Ho. rewrite Hrun in Ho.
    destruct Ho as [(_ & _ & ->)|(a & c & bc' & _ & _ & _ & Hbc & ->)]; [by exists t'|].
    by eapply command_reachable.
  - injection Hrun as <-. by exists t'.
Qed.

(** ** Properties *)

(** C39. A read of the standard input.  If it yields bytes without an end of a line
    they are kept until the buffer is full; a read that ends with its only end of a line executes the
    bytes before it as a command, whatever was read before; if anything is
    behind the end of the line (a second line, or the LF of CR LF), the message
    is used after it was freed; and if nothing was read, because the input was
    closed or the buffer is full, the program exits, in these cases and in no other. *)
Theorem shell_reads t s e avail :
  shell_reachable t s → t ≤ get_monotonic_ms e →
  stdin_result e s avail (stdin_fd_cb e (Some avail) s).
Proof.
  intros (t0 & Ht0 & Hr)%shell_client_reachable Ht. eapply (stdin_outcome t0); [done|]. lia.
Qed.

Lemma shell_line t s e avail a c :
  shell_reachable t s → t ≤ get_monotonic_ms e →
  stdin_chunk s avail = a ++ [c] → no_eol a → is_eol c = true →
  ∃ bc', run_shell_event e (ShStdin (Some avail)) s = Done ((), StdinState bc' None) ∧
    command_effect e (c_str a) (ss_bc s) bc' ∧ client_inv (get_monotonic_ms e) (ss_bc s).
Proof.
  intros (t' & Ht' & Hr)%shell_client_reachable Ht Hcur Ha Hc.
  destruct (client_inv_reachable _ _ Hr) as [H0t Hinv].
  apply client_inv_later with (t' := get_monotonic_ms e) in Hinv; [|lia].
  destruct (stdin_read e avail s) as [_ Heol]; [rewrite Hcur; by destruct a|].
  cbn [run_shell_event]. rewrite (Heol a c [] Hcur Ha Hc). unfold mbind, M_bind.
  destruct (command_done t' e (c_str a) (set_rx_msg (Some (default [] (rx_msg s) ++ stdin_chunk s avail)) s))
    as (bc' & Hcmd & Hbc); [done|lia|by eexists|]. rewrite Hcmd. by exists bc'.
Qed.

(** A line of hexadecimal digits is sent to the bankd as one TPDU (if the
    client has a bankd), and the response of the bankd is printed. *)
Theorem shell_exchange t s e e' avail a c apdu res m v tg b cs f d :
  shell_reachable t s → t ≤ get_monotonic_ms e → get_monotonic_ms e ≤ get_monotonic_ms e' →
  connected (bankd_conn (ss_bc s)) = true →
  stdin_chunk s avail = a ++ [c] → no_eol a → is_eol c = true →
  strcaseeq (c_str a) (str_octets "RESET") = false → osmo_hexparse (c_str a) 1024 = Some apdu →
  0 < res → ipa_proto m = IPAC_PROTO_OSMO → ipa_proto_ext m = IPAC_PROTO_EXT_RSPRO →
  rspro_dec_msg (l2_data m) = Some (MkRsproPDU v tg (PR_tpduCardToModem b cs f d)) →
  ∃ slot s1 s2, clslot (srvc_cfg (srv_conn (ss_bc s))) = Some slot ∧
    run_shell_event e (ShStdin (Some avail)) s = Done ((), s1) ∧
    srvc_sent (bankd_conn (ss_bc s1)) = srvc_sent (bankd_conn (ss_bc s)) ++
      sent_rspro (rspro_gen_TpduModem2Card slot (bank_slot2rspro (bankd_slot (ss_bc s))) apdu) ∧
    shell_printed s1 = shell_printed s ∧
    run_shell_event e' (ShBankd (CvRead res m)) s1 = Done ((), s2) ∧
    srvc_sent (bankd_conn (ss_bc s2)) = srvc_sent (bankd_conn (ss_bc s1)) ∧
    shell_printed s2 = shell_printed s1 ++ [OutRApdu d].
Proof.
  intros Hr Ht Ht' Hcon Hcur Ha Hc Hnr Hhex Hres Hp1 Hp2 Hdec.
  destruct (shell_line t s e avail a c Hr Ht Hcur Ha Hc) as (bc1 & Hrun & Heff & Hinv).
  destruct (modem_tpdu_event e (ss_bc s) apdu Hinv) as (slot & Hsl & Htp).
  unfold command_effect, command_event in Heff. rewrite Hnr, Hhex, Hsl, Htp in Heff. injection Heff as <-.
  set (bc1 := set_bankd_conn _ _) in Hrun.
  assert (client_inv (get_monotonic_ms e') bc1) as Hinv1.
  { eapply client_inv_later; [|exact Ht']. eapply (wp_done_inv _ _ (λ _, client_inv _)); [|exact Htp].
    apply (wp_client_event e any_abort); try done. destruct (shell_client_reachable _ _ Hr) as (t0 & Ht0 & Hr0).
    destruct (client_inv_reachable _ _ Hr0). lia. }
  assert (connected (bankd_conn bc1) = true) as Hcon1 by exact Hcon.
  pose proof (bankd_tpdu_event e' bc1 res m v tg b cs f d Hinv1 Hres Hp1 Hp2 Hdec) as Hrsp.
  rewrite Hcon1 in Hrsp. eexists slot, _, (StdinState _ None). split; [done|]. split; [exact Hrun|].
  split; [by unfold bc1, with_sent; cbn; rewrite Hcon|]. split; [done|].
  split; [cbn [run_shell_event]; unfold sh_client, zoom; cbn [ss_bc]; by rewrite Hrsp|].
  split; [done|]. unfold shell_printed. cbn. by rewrite omap_app.
Qed.

(** RESET asks the bankd for a reset of the card by reporting that the supply is
    off.  Nothing ever reports that it is on again, and a worker that has handled
    the report once ignores its repetition: of all RESET commands only the first
    resets the card. *)
Theorem shell_resets_once `{Talloc, Pcsc} t s e avail a c :
  shell_reachable t s → t ≤ get_monotonic_ms e → connected (bankd_conn (ss_bc s)) = true →
  stdin_chunk s avail = a ++ [c] → no_eol a → is_eol c = true →
  strcaseeq (c_str a) (str_octets "RESET") = true →
  ∃ slot s1 sps, clslot (srvc_cfg (srv_conn (ss_bc s))) = Some slot ∧
    run_shell_event e (ShStdin (Some avail)) s = Done ((), s1) ∧
    srvc_sent (bankd_conn (ss_bc s1)) = srvc_sent (bankd_conn (ss_bc s)) ++ sent_rspro
      (pdu_v2 (PR_clientSlotStatusInd slot (bank_slot2rspro (bankd_slot (ss_bc s))) sps)) ∧
    ∀ i w b b' rc, workers b !! i = Some w →
      worker_handle_clientSlotStatusInd i sps b = Done (rc, b') →
      (if last_vccPresent w
       then ∃ b0, pcsc_reset_card i true b = Done (rc, b0) ∧ b' = on_worker i (new_levels sps) b0
       else b' = on_worker i (new_levels sps) b) ∧
      worker_handle_clientSlotStatusInd i sps b' = Done (0, b').
Proof.
  intros Hr Ht Hcon Hcur Ha Hc Hre.
  destruct (shell_line t s e avail a c Hr Ht Hcur Ha Hc) as (bc1 & Hrun & Heff & Hinv).
  destruct (modem_status_event e (ss_bc s) reset_pstatus Hinv Hcon) as (slot & bc' & Hsl & Hst & _ & _ & _ & Hbk).
  unfold command_effect, command_event in Heff. rewrite Hre, Hst in Heff. injection Heff as <-.
  exists slot, (StdinState bc' None), (phys_status true 0 0 1). split; [done|]. split; [exact Hrun|].
  split; [cbn [ss_bc]; rewrite Hbk; unfold with_sent; by rewrite Hcon|].
  intros i w b b' rc Hw Hh. rewrite (slot_status_eq _ _ _ _ Hw) in Hh.
  apply mbind_Done_inv in Hh as (rc1 & b0 & Hrst & Hupd).
  assert (∃ w0, workers b0 !! i = Some w0) as [w0 Hw0].
  { apply mbind_Done_inv in Hupd as ([] & b1 & Hu & _). unfold worker_upd in Hu.
    apply mbind_Done_inv in Hu as (w0 & b2 & Hat & _). unfold worker_at in Hat.
    apply mbind_Done_inv in Hat as (o & b3 & [= <- <-] & Hd). destruct (workers b0 !! i); [by eexists|done]. }
  rewrite worker_upd_levels in Hupd by (by eexists). injection Hupd as <- <-. split.
  - unfold reset_edge in Hrst. cbn in Hrst. destruct (last_vccPresent w); [by exists b0|by injection Hrst as _ <-].
  - apply (slot_status_repeat i _ w0). unfold on_worker. cbn. by rewrite list_lookup_alter_eq, Hw0.
Qed.
End shell.

(** ** Concrete runs *)

Definition typed (line : string) : bytes := str_octets line ++ [10].

(** The shell with the client of [example_state], which has a bankd. *)
Definition example_shell : stdin_state := client_user_main example_state.2.

Lemma example_shell_reachable : shell_reachable example_state.1 example_shell.
Proof. apply shr_start, example_reachable. Qed.

Lemma shell_reads_witness :
  stdin_result (ok_env 70000) example_shell (str_octets "00a4" ++ [13; 10])
    (stdin_fd_cb (ok_env 70000) (Some (str_octets "00a4" ++ [13; 10])) example_shell) ∧
  stdin_fd_cb (ok_env 70000) (Some (str_octets "00a4" ++ [13; 10])) example_shell = Undef.
Proof.
  split; [apply (shell_reads example_state.1)|vm_compute; reflexivity].
  - exact example_shell_reachable.
  - vm_compute. discriminate.
Defined.

Definition example_rapdu : ipa_msg :=
  rspro_frame (PR_tpduCardToModem (MkBankSlot 2 1) (MkClientSlot 7 0) (TpduFlags 255 255 0 0) [144; 0]).

Lemma shell_exchange_witness :
  ∃ slot s1 s2, clslot (srvc_cfg (srv_conn (ss_bc example_shell))) = Some slot ∧
    run_shell_event (ok_env 70000) (ShStdin (Some (typed "00A40000"))) example_shell = Done ((), s1) ∧
    srvc_sent (bankd_conn (ss_bc s1)) = srvc_sent (bankd_conn (ss_bc example_shell)) ++
      sent_rspro (rspro_gen_TpduModem2Card slot (bank_slot2rspro (bankd_slot (ss_bc example_shell)))
        [0; 164; 0; 0]) ∧
    shell_printed s1 = shell_printed example_shell ∧
    run_shell_event (ok_env 70050) (ShBankd (CvRead 1 example_rapdu)) s1 = Done ((), s2) ∧
    srvc_sent (bankd_conn (ss_bc s2)) = srvc_sent (bankd_conn (ss_bc s1)) ∧
    shell_printed s2 = shell_printed s1 ++ [OutRApdu [144; 0]].
Proof.
  eapply (shell_exchange example_state.1 example_shell (ok_env 70000) (ok_env 70050)
    (typed "00A40000") (str_octets "00A40000") 10).
  - exact example_shell_reachable.
  - vm_compute. discriminate.
  - vm_compute. discriminate.
  - vm_compute. reflexivity.
  - vm_compute. reflexivity.
  - repeat constructor.
  - reflexivity.
  - vm_compute. reflexivity.
  - vm_compute. reflexivity.
  - reflexivity.
  - reflexivity.
  - reflexivity.
  - vm_compute. reflexivity.
Defined.

Lemma shell_resets_once_witness :
  ∃ slot s1 sps, clslot (srvc_cfg (srv_conn (ss_bc example_shell))) = Some slot ∧
    run_shell_event (ok_env 70000) (ShStdin (Some (typed "reset"))) example_shell = Done ((), s1) ∧
    srvc_sent (bankd_conn (ss_bc s1)) = srvc_sent (bankd_conn (ss_bc example_shell)) ++ sent_rspro
      (pdu_v2 (PR_clientSlotStatusInd slot (bank_slot2rspro (bankd_slot (ss_bc example_shell))) sps)) ∧
    ∀ b' rc, worker_handle_clientSlotStatusInd 0 sps mapped_state = Done (rc, b') →
      worker_handle_clientSlotStatusInd 0 sps b' = Done (0, b').
Proof.
  destruct (shell_resets_once example_state.1 example_shell (ok_env 70000)
    (typed "reset") (str_octets "reset") 10) as (slot & s1 & sps & H1 & H2 & H3 & H4).
  - exact example_shell_reachable.
  - vm_compute. discriminate.
  - vm_compute. reflexivity.
  - vm_compute. reflexivity.
  - repeat constructor.
  - reflexivity.
  - vm_compute. reflexivity.
  - exists slot, s1, sps. split; [exact H1|]. split; [exact H2|]. split; [exact H3|].
    intros b' rc Hh. pose proof (H4 0%nat mapped_worker mapped_state b' rc mapped_worker_at) as H5.
    specialize (H5 Hh). apply H5.
Defined.
