(* ===== verification/IonMesh.v ===== *)
(** * IonMesh ([src/client/ionmesh_integration.c], [ionmesh_integration.h])

    The client of an orchestration service for SIM banks: over HTTP the OpenWRT
    front end registers and is told bank, slot and bankd.  The answer is JSON, which
    is searched for its keys as text.  What libcurl returns is an argument; the
    requests that are made are results.  Strings are those of C. *)

From S2P Require Import Prelude CString.

Definition DQ : Z := 34.

(** ["key":] *)
Definition jkey (k : string) : bytes := DQ :: str_octets k ++ [DQ; 58].

(** [struct ionmesh_config]; its [enabled] is not used. *)
Record ionmesh_config := IonmeshConfig {
  im_host : bytes;
  im_port : Z;
  tenant_id : Z;
  im_client_id : bytes;
  im_mapping_mode : bytes;
  mcc_mnc : option bytes;
}.

Record ionmesh_assignment := IonmeshAssignment {
  im_bank_id : Z;
  im_slot_id : Z;
  iccid : bytes;
  imsi : bytes;
  bankd_host : bytes;
  bankd_port : Z;
  mapping_mode : bytes;
}.

(** The sizes of its arrays. *)
Definition ID_SIZE : nat := 32.
Definition HOST_SIZE : nat := 256.
Definition ENDPOINT_SIZE : nat := 256.

Definition zero_assignment : ionmesh_assignment := IonmeshAssignment 0 0 [] [] [] 0 [].

Definition EINVAL : Z := 22.
Definition ENOMEM : Z := 12.
Definition EIO : Z := 5.

(** ** Parsing the answer *)

(** A number behind a key. *)
Definition json_int (key : string) (json : bytes) (old : Z) : Z :=
  match strstr_behind (jkey key) json with
  | Some s => match sscanf [DInt] s with [VInt z] => z | _ => old end
  | None => old
  end.

(** A string behind a key, if it fits into an array of [size] bytes. *)
Definition json_str (key : string) (size : nat) (json : bytes) : option bytes :=
  match strstr_behind (jkey key ++ [DQ]) json with
  | Some s =>
      match str_split DQ s with
      | Some (v, _) => if (length v <? size)%nat then Some v else None
      | None => None
      end
  | None => None
  end.

(** Host and port of [http://host:port] or [host:port]. *)
Definition parse_endpoint (temp : bytes) : bytes * Z :=
  let host_start := default temp (strstr_behind (str_octets "://") temp) in
  match str_split 58 host_start with
  | Some (h, p) => (take (HOST_SIZE - 1) h, atoi p)
  | None => (take (HOST_SIZE - 1) host_start, 9999)
  end.

Definition ionmesh_parse_assignment (json : bytes) (a : ionmesh_assignment) : Z * ionmesh_assignment :=
  if contains (jkey "status" ++ DQ :: str_octets "error" ++ [DQ]) json then (- EIO, a)
  else
    let bank := json_int "bank_id" json (im_bank_id a) in
    let slot := json_int "slot_id" json (im_slot_id a) in
    let ic := default (iccid a) (json_str "iccid" ID_SIZE json) in
    let im := default (imsi a) (json_str "imsi" ID_SIZE json) in
    let '(host, port) := match json_str "bankd_endpoint" ENDPOINT_SIZE json with
                         | Some temp => parse_endpoint temp
                         | None => (bankd_host a, bankd_port a)
                         end in
    let mode := default (mapping_mode a) (json_str "mapping_mode" ID_SIZE json) in
    let a := IonmeshAssignment bank slot ic im host port mode in
    if (bank =? 0) || (slot =? 0) || bool_decide (host = []) || (port =? 0) then (- EINVAL, a)
    else (0, a).

(** ** Requests *)

(** What libcurl does: no handle; the request fails; or the status and the body,
    as it arrives in pieces. *)
Inductive curl_result := CurlNoHandle | CurlFailed | CurlOk (http_code : Z) (chunks : list bytes).

(** [write_callback] as long as memory suffices. *)
Definition write_callback (contents : bytes) (data : option bytes) : option bytes :=
  Some (default [] data ++ contents).

Definition response (chunks : list bytes) : option bytes := foldl (λ d c, write_callback c d) None chunks.

Inductive http_method := HttpPost (body : bytes) | HttpDelete.
Record http_request := HttpRequest { hr_url : bytes; hr_method : http_method }.

(** [snprintf] into an array of [size] bytes. *)
Definition snprintf (size : nat) (s : bytes) : bytes := take (size - 1) s.

(** [%d] *)
Definition pct_d (z : Z) : bytes := str_octets (pretty z).

Definition api_url (cfg : ionmesh_config) (path : bytes) : bytes :=
  snprintf 512 (str_octets "http://" ++ im_host cfg ++ [58] ++ pct_d (im_port cfg) ++
    str_octets "/api/backend/v1/remsim/" ++ path).

(** ["key":"value"] *)
Definition json_member (k : string) (v : bytes) : bytes := jkey k ++ DQ :: v ++ [DQ].

Definition register_body (cfg : ionmesh_config) : bytes :=
  snprintf 1024 (str_octets "{" ++ json_member "client_id" (im_client_id cfg) ++ str_octets "," ++
    json_member "mapping_mode" (im_mapping_mode cfg) ++ str_octets "," ++
    json_member "mcc_mnc" (default [] (mcc_mnc cfg)) ++ str_octets "," ++
    jkey "tenant_id" ++ pct_d (tenant_id cfg) ++ str_octets "}").

Definition ionmesh_register_client (cfg : ionmesh_config) (curl : curl_result) (a : ionmesh_assignment)
    : Z * list http_request * ionmesh_assignment :=
  let req := HttpRequest (api_url cfg (str_octets "register-client")) (HttpPost (register_body cfg)) in
  match curl with
  | CurlNoHandle => (- ENOMEM, [], a)
  | CurlFailed => (- 1, [req], a)
  | CurlOk http_code chunks =>
      if negb (http_code =? 200) then (- 1, [req], a)
      else match response chunks with
           | Some data => let '(rc, a) := ionmesh_parse_assignment (c_str data) a in (rc, [req], a)
           | None => (- 1, [req], a)
           end
  end.

Definition http_rc (curl : curl_result) : Z :=
  match curl with CurlOk http_code _ => if http_code =? 200 then 0 else - 1 | _ => - 1 end.

Definition heartbeat_body (cfg : ionmesh_config) : bytes :=
  snprintf 512 (str_octets "{" ++ json_member "client_id" (im_client_id cfg) ++ str_octets "," ++
    json_member "status" (str_octets "active") ++ str_octets "}").

Definition ionmesh_send_heartbeat (cfg : ionmesh_config) (curl : curl_result) : Z * list http_request :=
  match curl with
  | CurlNoHandle => (- ENOMEM, [])
  | _ => (http_rc curl, [HttpRequest (api_url cfg (str_octets "heartbeat")) (HttpPost (heartbeat_body cfg))])
  end.

Definition ionmesh_unregister_client (cfg : ionmesh_config) (curl : curl_result) : Z * list http_request :=
  match curl with
  | CurlNoHandle => (- ENOMEM, [])
  | _ => (http_rc curl,
          [HttpRequest (api_url cfg (str_octets "unregister/" ++ im_client_id cfg)) HttpDelete])
  end.

Definition ionmesh_config_init : ionmesh_config :=
  IonmeshConfig (str_octets "127.0.0.1") 5000 1 [] (str_octets "ONE_TO_ONE_SWSIM") None.

(** ** Bounds *)

(** Every string of an assignment fits into its array with its NUL. *)
Record assignment_fits (a : ionmesh_assignment) : Prop := {
  af_iccid : (length (iccid a) < ID_SIZE)%nat;
  af_imsi : (length (imsi a) < ID_SIZE)%nat;
  af_host : (length (bankd_host a) < HOST_SIZE)%nat;
  af_mode : (length (mapping_mode a) < ID_SIZE)%nat;
}.

Definition is_int (z : Z) : Prop := - 2 ^ 31 ≤ z < 2 ^ 31.

Lemma swrap_int z : is_int (swrap 32 z).
Proof. unfold is_int, swrap. pose proof (wrap_range 32 (z + 2 ^ (32 - 1)) ltac:(lia)). lia. Qed.

Lemma atoi_int s : is_int (atoi s).
Proof.
  unfold atoi. destruct (match skip_space s with 45 :: s' => _ | 43 :: s' => _ | _ => _ end) as [neg s'].
  apply swrap_int.
Qed.

Lemma json_str_fits k n json v : json_str k n json = Some v → (length v < n)%nat.
Proof.
  unfold json_str. intros Hj. repeat case_match; simplify_eq.
  match goal with H : (_ <? _)%nat = true |- _ => by apply Nat.ltb_lt in H end.
Qed.

Lemma json_str_default_fits k n json d :
  (length d < n)%nat → (length (default d (json_str k n json)) < n)%nat.
Proof. intros Hd. destruct (json_str k n json) eqn:Hj; [by eapply json_str_fits|done]. Qed.

Lemma json_int_range k json d : is_int d → is_int (json_int k json d).
Proof.
  intros Hd. unfold json_int. destruct (strstr_behind _ _); [|done]. cbn [sscanf]. unfold scan_int.
  destruct (strtol10 l) as [v rest]. case_bool_decide; [done|apply swrap_int].
Qed.

Lemma endpoint_fits t : (length (parse_endpoint t).1 < HOST_SIZE)%nat ∧ is_int (parse_endpoint t).2.
Proof.
  unfold parse_endpoint. assert (∀ b : bytes, (length (take (HOST_SIZE - 1) b) < HOST_SIZE)%nat) as Hl.
  { intros b. rewrite length_take. unfold HOST_SIZE. lia. }
  destruct (str_split 58 _) as [[h p]|]; cbn; (split; [apply Hl|]); [apply atoi_int|done].
Qed.

(** Whatever the service answers, no array of the assignment overflows, and an
    assignment is accepted only with a bank, a slot, a host and a port that are
    not zero; an assignment of bank 0 or slot 0 is rejected. *)
Theorem ionmesh_bounds cfg curl a rc reqs a' :
  assignment_fits a → is_int (im_bank_id a) → is_int (im_slot_id a) → is_int (bankd_port a) →
  ionmesh_register_client cfg curl a = (rc, reqs, a') →
  assignment_fits a' ∧ is_int (im_bank_id a') ∧ is_int (im_slot_id a') ∧ is_int (bankd_port a') ∧
  rc ≤ 0 ∧
  (rc = 0 → im_bank_id a' ≠ 0 ∧ im_slot_id a' ≠ 0 ∧ bankd_host a' ≠ [] ∧ bankd_port a' ≠ 0).
Proof.
  intros [Hic Him Hho Hmo] Hb Hs Hp Hreg.
  assert (∀ rc, rc < 0 → assignment_fits a ∧ is_int (im_bank_id a) ∧ is_int (im_slot_id a) ∧
    is_int (bankd_port a) ∧ rc ≤ 0 ∧
    (rc = 0 → im_bank_id a ≠ 0 ∧ im_slot_id a ≠ 0 ∧ bankd_host a ≠ [] ∧ bankd_port a ≠ 0)) as Hfail
    by (intros; split; [by split|]; do 3 (split; [done|]); split; lia).
  assert (∀ data, let '(rc, a1) := ionmesh_parse_assignment data a in
    assignment_fits a1 ∧ is_int (im_bank_id a1) ∧ is_int (im_slot_id a1) ∧ is_int (bankd_port a1) ∧
    rc ≤ 0 ∧ (rc = 0 → im_bank_id a1 ≠ 0 ∧ im_slot_id a1 ≠ 0 ∧ bankd_host a1 ≠ [] ∧ bankd_port a1 ≠ 0)) as Hparse.
  { intros data. unfold ionmesh_parse_assignment. destruct (contains _ _); [by apply Hfail|].
    destruct (match json_str "bankd_endpoint" _ _ with Some temp => _ | None => _ end) as [host port] eqn:Hep.
    assert ((length host < HOST_SIZE)%nat ∧ is_int port) as [Hh' Hp'].
    { destruct (json_str "bankd_endpoint" _ _) as [temp|]; [|by injection Hep as <- <-].
      pose proof (endpoint_fits temp) as He. by rewrite Hep in He. }
    pose proof (json_int_range "bank_id" data (im_bank_id a) Hb).
    pose proof (json_int_range "slot_id" data (im_slot_id a) Hs).
    destruct (Z.eqb_spec (json_int "bank_id" data (im_bank_id a)) 0);
      [|destruct (Z.eqb_spec (json_int "slot_id" data (im_slot_id a)) 0);
      [|case_bool_decide; [|destruct (Z.eqb_spec port 0)]]]; cbn [orb];
      (split; [split; cbn; try apply json_str_default_fits; done|do 3 (split; [done|]); split; [done|by intros]]). }
  unfold ionmesh_register_client in Hreg.
  destruct curl as [| |http chunks]; [injection Hreg as <- <- <-; by apply Hfail..|].
  destruct (negb _); [injection Hreg as <- <- <-; by apply Hfail|].
  destruct (response chunks) as [data|]; [|injection Hreg as <- <- <-; by apply Hfail].
  specialize (Hparse (c_str data)). destruct (ionmesh_parse_assignment _ _) as [rc1 a1].
  injection Hreg as <- <- <-. done.
Qed.

(** ** Round trip *)

(** Text as the pieces between its quotes. *)
Fixpoint quoted (segs : list bytes) : bytes :=
  match segs with
  | [] => []
  | [s] => s
  | s :: segs => s ++ DQ :: quoted segs
  end.

Definition unquoted (s : bytes) : Prop := Forall (λ c, c ≠ DQ) s.

Fixpoint find_piece (k q : bytes) (segs : list bytes) : option bytes :=
  match segs with
  | w :: segs =>
      match segs with
      | [] => None
      | _ => if is_prefix q (quoted segs) && bool_decide (k = w) then Some (drop (length q) (quoted segs))
             else find_piece k q segs
      end
  | [] => None
  end.

Lemma strstr_skip c p a s : Forall (λ x, x ≠ c) a → strstr_behind (c :: p) (a ++ s) = strstr_behind (c :: p) s.
Proof.
  induction 1 as [|x a Hx Ha IH]; [done|]. cbn [app strstr_behind is_prefix].
  destruct (Z.eqb_spec c x); [done|]. exact IH.
Qed.

Lemma is_prefix_word k w q r :
  unquoted k → unquoted w → is_prefix (k ++ DQ :: q) (w ++ DQ :: r) = is_prefix q r && bool_decide (k = w).
Proof.
  intros Hk. revert w. induction Hk as [|c k Hc Hk IH]; intros w Hw.
  - destruct Hw as [|d w Hd Hw]; cbn [app is_prefix].
    + change (DQ =? DQ) with true. by rewrite bool_decide_eq_true_2, andb_true_r by done.
    + rewrite bool_decide_eq_false_2 by done. destruct (Z.eqb_spec DQ d); [done|]. by rewrite andb_false_r.
  - destruct Hw as [|d w Hd Hw]; cbn [app is_prefix].
    + rewrite (bool_decide_eq_false_2 (_ :: _ = _)) by done. destruct (Z.eqb_spec c DQ); [done|]. by rewrite andb_false_r.
    + rewrite IH by done. destruct (Z.eqb_spec c d) as [->|Hcd]; cbn [andb].
      * f_equal. apply bool_decide_ext. naive_solver.
      * rewrite bool_decide_eq_false_2 by naive_solver. by rewrite andb_false_r.
Qed.

Lemma drop_word k q r : drop (length (k ++ DQ :: q)) (k ++ DQ :: r) = drop (length q) r.
Proof. induction k as [|c k IH]; [done|]. exact IH. Qed.

Lemma no_quote_prefix k q w : unquoted w → is_prefix (DQ :: k ++ DQ :: q) (DQ :: w) = true → False.
Proof.
  intros Hw Hp. cbn [is_prefix] in Hp. change (DQ =? DQ) with true in Hp. cbn [andb] in Hp. revert w Hw Hp.
  induction k as [|c k IH]; intros w Hw Hp; destruct Hw as [|d w Hd Hw]; cbn [app is_prefix] in Hp; try done.
  - destruct (Z.eqb_spec DQ d); done.
  - destruct (c =? d); [by eapply IH|done].
Qed.

Lemma strstr_quoted k q segs :
  unquoted k → Forall unquoted segs →
  strstr_behind (DQ :: k ++ DQ :: q) (quoted segs) = find_piece k q (tail segs).
Proof.
  intros Hk. destruct segs as [|s segs]; [done|]. revert s.
  induction segs as [|w segs IH]; intros s [Hs Hsegs]%Forall_cons.
  - cbn [quoted tail find_piece]. rewrite <-(app_nil_r s), strstr_skip by done. done.
  - cbn [tail]. change (quoted (s :: w :: segs)) with (s ++ DQ :: quoted (w :: segs)).
    rewrite strstr_skip by done. specialize (IH w Hsegs). apply Forall_cons in Hsegs as [Hw Hsegs].
    destruct segs as [|w' segs].
    + change (quoted [w]) with w in IH |- *. cbn [find_piece]. cbn [strstr_behind].
      destruct (is_prefix (DQ :: k ++ DQ :: q) (DQ :: w)) eqn:Hp; [|exact IH]. exfalso.
      by eapply (no_quote_prefix k q w).
    + change (quoted (w :: w' :: segs)) with (w ++ DQ :: quoted (w' :: segs)) in IH |- *.
      change (find_piece k q (w :: w' :: segs)) with
        (if is_prefix q (quoted (w' :: segs)) && bool_decide (k = w)
         then Some (drop (length q) (quoted (w' :: segs))) else find_piece k q (w' :: segs)).
      cbn [tail] in IH. rewrite <-IH. cbn [strstr_behind is_prefix]. change (DQ =? DQ) with true. cbn [andb].
      rewrite is_prefix_word by done. destruct (is_prefix q _) eqn:Hq; cbn [andb]; [|done].
      case_bool_decide as Hkw; [|done]. subst w. f_equal.
      change (length (DQ :: k ++ DQ :: q)) with (S (length (k ++ DQ :: q))). cbn [drop]. apply drop_word.
Qed.

(** An answer without white space, as the service writes it. *)
Definition json_answer (a : ionmesh_assignment) : bytes :=
  quoted [str_octets "{"; str_octets "bank_id"; 58 :: dec (im_bank_id a) ++ [44];
    str_octets "slot_id"; 58 :: dec (im_slot_id a) ++ [44];
    str_octets "iccid"; [58]; iccid a; [44]; str_octets "imsi"; [58]; imsi a; [44];
    str_octets "bankd_endpoint"; [58];
    str_octets "http://" ++ bankd_host a ++ 58 :: dec (bankd_port a); [44];
    str_octets "mapping_mode"; [58]; mapping_mode a; str_octets "}"].

Record assignment_ok (a : ionmesh_assignment) : Prop := {
  ao_bank : 0 < im_bank_id a < 2 ^ 31;
  ao_slot : 0 < im_slot_id a < 2 ^ 31;
  ao_iccid : (length (iccid a) < ID_SIZE)%nat ∧ unquoted (iccid a);
  ao_imsi : (length (imsi a) < ID_SIZE)%nat ∧ unquoted (imsi a);
  ao_host : bankd_host a ≠ [] ∧ (length (bankd_host a) < 228)%nat ∧
    Forall (λ c, c ≠ DQ ∧ c ≠ 58) (bankd_host a);
  ao_port : 0 < bankd_port a < 65536;
  ao_mode : (length (mapping_mode a) < ID_SIZE)%nat ∧ unquoted (mapping_mode a);
}.

Lemma unquoted_dec z : 0 ≤ z → unquoted (dec z).
Proof.
  intros Hz. eapply Forall_impl; [by apply dec_digits|]. intros c Hc ->. by vm_compute in Hc.
Qed.

Lemma scan_dec z s :
  0 ≤ z < 2 ^ 31 → match s with c :: _ => isdigit c = false | [] => True end →
  sscanf [DInt] (dec z ++ s) = [VInt z].
Proof.
  intros Hz Hs. cbn [sscanf]. unfold scan_int. rewrite strtol_dec by (done || lia).
  rewrite bool_decide_eq_false_2; [rewrite swrap_small by lia; done|].
  intros Heq. apply (f_equal length) in Heq. rewrite length_app in Heq.
  pose proof (dec_go_nonempty 20 z [] ltac:(lia)) as Hne. fold (dec z) in Hne.
  destruct (dec z); [done|]. cbn in Heq. lia.
Qed.

Lemma atoi_dec z : 0 ≤ z < 2 ^ 31 → atoi (dec z) = z.
Proof.
  intros Hz. pose proof (dec_digits z ltac:(lia)) as Hd. pose proof (dec_value z ltac:(lia)) as Hv.
  unfold atoi. destruct (dec z) as [|c d] eqn:Hdec; [by rewrite <-Hv|].
  apply Forall_cons in Hd as [Hc _]. rewrite skip_space_stop by (by apply isdigit_not_space).
  unfold isdigit in Hc. rewrite andb_true_iff, !Z.leb_le in Hc.
  assert ((match c with 45 => (true, d) | 43 => (false, d) | _ => (false, c :: d) end) = (false, c :: d)) as Hm.
  { destruct c as [|p|p]; try lia. do 6 (destruct p as [p|p|]; try lia; try reflexivity). }
  change (match c :: d with 45 :: s' => (true, s') | 43 :: s' => (false, s') | _ => (false, c :: d) end)
    with (match c with 45 => (true, d) | 43 => (false, d) | _ => (false, c :: d) end).
  rewrite Hm, Hv. rewrite Z.min_l by lia. apply swrap_small; lia.
Qed.

Lemma str_split_app c a s : Forall (λ x, x ≠ c) a → str_split c (a ++ c :: s) = Some (a, s).
Proof.
  induction 1 as [|x a Hx Ha IH]; cbn [app str_split]; [by rewrite Z.eqb_refl|].
  by rewrite (proj2 (Z.eqb_neq _ _) Hx), IH.
Qed.

Lemma dec_length z : (length (dec z) ≤ 20)%nat.
Proof. pose proof (dec_go_length 20 z []) as Hl. cbn [length] in Hl. unfold dec. lia. Qed.

Section roundtrip.
#[local] Opaque dec.

Lemma answer_unquoted a : assignment_ok a → ∀ k q, unquoted k →
  strstr_behind (DQ :: k ++ DQ :: q) (json_answer a) = find_piece k q
   [str_octets "bank_id"; 58 :: dec (im_bank_id a) ++ [44];
    str_octets "slot_id"; 58 :: dec (im_slot_id a) ++ [44];
    str_octets "iccid"; [58]; iccid a; [44]; str_octets "imsi"; [58]; imsi a; [44];
    str_octets "bankd_endpoint"; [58];
    str_octets "http://" ++ bankd_host a ++ 58 :: dec (bankd_port a); [44];
    str_octets "mapping_mode"; [58]; mapping_mode a; str_octets "}"].
Proof.
  intros [Hb Hs [_ Hi] [_ Hm] (_ & _ & Hh) Hp [_ Hmm]] k q Hk. unfold json_answer.
  rewrite strstr_quoted; [done|done|].
  assert (∀ z, 0 < z < 2 ^ 31 → unquoted (58 :: dec z ++ [44])) as Hn.
  { intros z Hz. constructor; [done|]. apply Forall_app. split; [apply unquoted_dec; lia|by repeat constructor]. }
  assert (∀ s, forallb (λ c, negb (c =? DQ)) (str_octets s) = true → unquoted (str_octets s)) as Hlit.
  { intros s. induction (str_octets s) as [|c l IH]; cbn; intros Hf; constructor.
    - apply andb_true_iff in Hf as [Hc _]. intros ->. done.
    - apply IH. by apply andb_true_iff in Hf as [_ ?]. }
  assert (unquoted (str_octets "http://" ++ bankd_host a ++ 58 :: dec (bankd_port a))) as Hep.
  { apply Forall_app. split; [by apply Hlit|]. apply Forall_app. split.
    - eapply Forall_impl; [exact Hh|]. by intros c [? _].
    - constructor; [done|]. apply unquoted_dec. lia. }
  do 21 (apply Forall_cons_2; [first [by apply Hlit|by apply Hn|done|by repeat constructor]|]). by constructor.
Qed.

Lemma find_miss k q w x l :
  is_prefix q (quoted (x :: l)) && bool_decide (k = w) = false →
  find_piece k q (w :: x :: l) = find_piece k q (x :: l).
Proof. intros Hm. cbn [find_piece]. by rewrite Hm. Qed.

Lemma find_hit k q x l :
  is_prefix q (quoted (x :: l)) = true →
  find_piece k q (k :: x :: l) = Some (drop (length q) (quoted (x :: l))).
Proof. intros Hm. cbn [find_piece]. by rewrite Hm, bool_decide_eq_true_2. Qed.

(** The piece behind a key is found at its place. *)
Ltac find_key Hok :=
  match goal with
  | |- context [strstr_behind ?p (json_answer ?a)] =>
      let H := fresh in
      assert (H := answer_unquoted a Hok);
      first [ change p with (DQ :: str_octets "bank_id" ++ DQ :: [58])
            | change p with (DQ :: str_octets "slot_id" ++ DQ :: [58])
            | change p with (DQ :: str_octets "iccid" ++ DQ :: [58; DQ])
            | change p with (DQ :: str_octets "imsi" ++ DQ :: [58; DQ])
            | change p with (DQ :: str_octets "bankd_endpoint" ++ DQ :: [58; DQ])
            | change p with (DQ :: str_octets "mapping_mode" ++ DQ :: [58; DQ])
            | change p with (DQ :: str_octets "status" ++ DQ :: 58 :: DQ :: str_octets "error" ++ [DQ]) ];
      rewrite H by (by repeat constructor); clear H;
      repeat (rewrite find_miss by first [reflexivity|rewrite andb_comm; reflexivity])
  end.

Lemma endpoint_roundtrip host port :
  0 ≤ port < 2 ^ 31 → (length host < 228)%nat → Forall (λ c, c ≠ 58) host →
  parse_endpoint (str_octets "http://" ++ host ++ 58 :: dec port) = (host, port).
Proof.
  intros Hp Hl Hh. unfold parse_endpoint.
  change (strstr_behind (str_octets "://") (str_octets "http://" ++ host ++ 58 :: dec port)) with
    (Some (host ++ 58 :: dec port)). cbv beta iota delta [from_option id]. rewrite str_split_app by done.
  rewrite take_ge by (unfold HOST_SIZE; lia). by rewrite atoi_dec.
Qed.

(** An assignment that the service writes without white space is read back whole. *)
Theorem ionmesh_roundtrip a :
  assignment_ok a → ionmesh_parse_assignment (json_answer a) zero_assignment = (0, a).
Proof.
  intros Hok. pose proof Hok as [Hb Hs [Hil Hi] [Hml Hm] (Hne & Hhl & Hh) Hp [Hmml Hmm]].
  unfold ionmesh_parse_assignment.
  assert (contains (jkey "status" ++ DQ :: str_octets "error" ++ [DQ]) (json_answer a) = false) as ->.
  { unfold contains. find_key Hok. reflexivity. }
  assert (∀ k z old x l, 0 ≤ z < 2 ^ 31 → strstr_behind (jkey k) (json_answer a) =
    Some (drop 1 (quoted ((58 :: dec z ++ [44]) :: x :: l))) → json_int k (json_answer a) old = z) as Hint.
  { intros k z old x l Hz Hf. unfold json_int. rewrite Hf.
    change (drop 1 (quoted ((58 :: dec z ++ [44]) :: x :: l))) with ((dec z ++ [44]) ++ DQ :: quoted (x :: l)).
    rewrite <-app_assoc. by rewrite scan_dec by (done || lia). }
  erewrite (Hint "bank_id"); [| |find_key Hok; by rewrite find_hit by reflexivity]; [|lia].
  erewrite (Hint "slot_id"); [| |find_key Hok; by rewrite find_hit by reflexivity]; [|lia].
  assert (∀ k v n x l, (length v < n)%nat → unquoted v → strstr_behind (jkey k ++ [DQ]) (json_answer a) =
    Some (drop 2 (quoted ([58] :: v :: x :: l))) → json_str k n (json_answer a) = Some v) as Hstr.
  { intros k v n x l Hl Hv Hf. unfold json_str. rewrite Hf.
    change (drop 2 (quoted ([58] :: v :: x :: l))) with (v ++ DQ :: quoted (x :: l)).
    rewrite str_split_app by done. by rewrite (proj2 (Nat.ltb_lt _ _) Hl). }
  erewrite (Hstr "iccid"); [| | |find_key Hok; by rewrite find_hit by reflexivity]; [|exact Hil|exact Hi].
  erewrite (Hstr "imsi"); [| | |find_key Hok; by rewrite find_hit by reflexivity]; [|exact Hml|exact Hm].
  erewrite (Hstr "bankd_endpoint");
    [| | |find_key Hok; by rewrite find_hit by reflexivity].
  erewrite (Hstr "mapping_mode"); [| | |find_key Hok; by rewrite find_hit by reflexivity]; [|exact Hmml|exact Hmm].
  - rewrite endpoint_roundtrip; [|lia|lia|eapply Forall_impl; [exact Hh|]; by intros c [_ ?]].
    rewrite (proj2 (Z.eqb_neq (im_bank_id a) 0)), (proj2 (Z.eqb_neq (im_slot_id a) 0)),
      (proj2 (Z.eqb_neq (bankd_port a) 0)) by lia. rewrite bool_decide_eq_false_2 by done. by destruct a.
  - rewrite !length_app. cbn [length]. pose proof (dec_length (bankd_port a)) as Hd.
    change (length (str_octets "http://")) with 7%nat. unfold ENDPOINT_SIZE. lia.
  - apply Forall_app. split; [by repeat constructor|]. apply Forall_app. split.
    + eapply Forall_impl; [exact Hh|]. by intros c [? _].
    + constructor; [done|]. apply unquoted_dec. lia.
Qed.
End roundtrip.

(** ** Concrete answers *)

Definition example_assignment : ionmesh_assignment :=
  IonmeshAssignment 3 7 (str_octets "8949") (str_octets "26201") (str_octets "10.0.0.5") 9999
    (str_octets "KI_PROXY_SWSIM").

Lemma example_assignment_ok : assignment_ok example_assignment.
Proof.
  split; cbn; try lia; repeat split; try (unfold ID_SIZE; lia); try done; repeat constructor; done.
Qed.

Lemma ionmesh_roundtrip_witness :
  ionmesh_parse_assignment (json_answer example_assignment) zero_assignment = (0, example_assignment).
Proof. apply ionmesh_roundtrip. exact example_assignment_ok. Defined.

Lemma ionmesh_bounds_witness :
  ∃ rc reqs a', ionmesh_register_client ionmesh_config_init (CurlOk 200 [json_answer example_assignment])
      zero_assignment = (rc, reqs, a') ∧ rc = 0 ∧ assignment_fits a'.
Proof.
  do 3 eexists. split; [vm_compute; reflexivity|]. split; [reflexivity|].
  eapply (ionmesh_bounds ionmesh_config_init (CurlOk 200 [json_answer example_assignment]) zero_assignment).
  - split; cbn; unfold ID_SIZE, HOST_SIZE; lia.
  - split; cbn; lia.
  - split; cbn; lia.
  - split; cbn; lia.
  - vm_compute. reflexivity.
Defined.

(** The text of an answer with white space behind the colons. *)
Definition spaced_member (k : string) (v : bytes) : bytes := jkey k ++ 32 :: v.
Definition spaced_string (s : string) : bytes := DQ :: str_octets s ++ [DQ].

(** Answers that are misread: with a blank behind each colon an error status is
    not seen and every string, the address of the bankd among them, is
    missing, so that a proper assignment is rejected; and an assignment of slot
    0 is rejected, although slots count from 0. *)
Theorem ionmesh_pitfalls :
  ionmesh_parse_assignment ([123] ++ spaced_member "status" (spaced_string "error") ++ [125])
    (IonmeshAssignment 3 7 [] [] (str_octets "10.0.0.5") 9999 []) =
    (0, IonmeshAssignment 3 7 [] [] (str_octets "10.0.0.5") 9999 []) ∧
  ionmesh_parse_assignment ([123] ++ spaced_member "bank_id" (str_octets "3, ") ++
      spaced_member "slot_id" (str_octets "7, ") ++
      spaced_member "bankd_endpoint" (spaced_string "http://10.0.0.5:9999") ++ [125]) zero_assignment =
    (- EINVAL, IonmeshAssignment 3 7 [] [] [] 0 []) ∧
  (ionmesh_parse_assignment (json_answer (IonmeshAssignment 3 0 [] [] (str_octets "10.0.0.5") 9999 []))
    zero_assignment).1 = - EINVAL.
Proof. repeat split; vm_compute; reflexivity. Qed.
