(* ===== verification/ClientLog.v ===== *)
(** * The log of the front end only grows

    A relation that every step of a computation respects ([steps]), with the rules
    that carry it through the monad, the FSM library and the connections; for the
    client, no event changes what was already asked of the front end
    ([client_log_grows]). *)

From S2P Require Import Prelude OsmoFsm Slotmap RsproPdu RsproUtil Ipa ClientConn RemsimClient.

(** ** Computations that respect a preorder on states *)

Section steps.
Context {S : Type} (R : S → S → Prop) `{!PreOrder R}.

Definition steps {A} (m : M S A) : Prop := ∀ s a s', m s = Done (a, s') → R s s'.

Lemma steps_ret {A} (a : A) : steps (mret a).
Proof. intros s b s' [= _ <-]. reflexivity. Qed.

Lemma steps_bind {A B} (m : M S A) (f : A → M S B) : steps m → (∀ a, steps (f a)) → steps (m ≫= f).
Proof. intros Hm Hf s b s' (a & s1 & H1 & H2)%mbind_Done_inv. etransitivity; [by eapply Hm|by eapply Hf]. Qed.

Lemma steps_gets {A} (f : S → A) : steps (gets f).
Proof. intros s a s' [= _ <-]. reflexivity. Qed.

Lemma steps_modify (f : S → S) : (∀ s, R s (f s)) → steps (modify f).
Proof. by intros Hf s a s' [= _ <-]. Qed.

Lemma steps_panic {A} : steps (panic (A:=A)).
Proof. done. Qed.
Lemma steps_undef {A} : steps (undef (A:=A)).
Proof. done. Qed.
Lemma steps_nofuel {A} : steps (nofuel (A:=A)).
Proof. done. Qed.

Lemma steps_deref {A} (o : option A) : steps (deref o).
Proof. destruct o; [apply steps_ret|apply steps_undef]. Qed.

Lemma steps_assert b : steps (osmo_assert b).
Proof. destruct b; [apply steps_ret|apply steps_panic]. Qed.

Lemma steps_when b (m : M S ()) : steps m → steps (when b m).
Proof. destruct b; [done|intros _; apply steps_ret]. Qed.

Lemma steps_lift {A} (o : outcome A) : steps (lift_outcome o).
Proof. destruct o; [apply steps_ret|done..]. Qed.

Lemma steps_eq {A} (m m' : M S A) : (∀ s, m s = m' s) → steps m' → steps m.
Proof. intros Heq Hm s a s' Hrun. rewrite Heq in Hrun. by eapply Hm. Qed.

Lemma steps_for_each {A} (f : A → M S ()) l : (∀ x, steps (f x)) → steps (for_each f l).
Proof. intros Hf. induction l; [apply steps_ret|by apply steps_bind]. Qed.
End steps.

Create HintDb steps discriminated.
#[export] Hint Resolve steps_ret steps_gets steps_panic steps_undef steps_nofuel steps_deref
  steps_assert steps_lift : steps.

(** Follows the structure of a computation; what it cannot decide is left. *)
Ltac steps_step :=
  match goal with
  | |- steps _ (mbind _ _) => apply steps_bind; [typeclasses eauto| |intros ?]
  | |- steps _ (when _ _) => apply steps_when; [typeclasses eauto|]
  | |- steps _ (for_each _ _) => apply steps_for_each; [typeclasses eauto|intros ?]
  | |- steps _ (match ?x with _ => _ end) => destruct x
  | |- steps _ (let '_ := ?x in _) => destruct x
  end.
Ltac steps_tac := repeat (first [solve [eauto 2 with steps] | steps_step]; cbn beta).

(** ** Machines *)

Section fsm.
Context `{OsmoLib} {W St Ev D : Type} `{Enum St, Enum Ev} (R : W → W → Prop) `{!PreOrder R}.

Record fsm_steps (f : osmo_fsm W St Ev D) : Prop := {
  fs_action s ev d : steps R (action (states f s) ev d);
  fs_onenter s s' : steps R (onenter (states f s) s');
  fs_onleave s s' : steps R (onleave (states f s) s');
  fs_allstate ev d : steps R (allstate_action f ev d);
  fs_cleanup : steps R (cleanup f);
  fs_timer T : steps R (timer_cb f T);
}.

Record ref_steps (r : fi_ref W St) : Prop := {
  rs_set fi w : R w (fi_set r fi w);
  rs_free w : R w (fi_free r w);
}.

Context (f : osmo_fsm W St Ev D) (r : fi_ref W St) (Hf : fsm_steps f) (Hr : ref_steps r).

Lemma steps_fi_update g : steps R (fi_update r g).
Proof using Hr PreOrder0.
  unfold fi_update. apply steps_bind; [done|apply steps_gets; done|intros o].
  apply steps_bind; [done|by apply steps_deref|intros fi]. apply steps_modify. intros w. apply Hr.
Qed.

Lemma steps_dispatch ev d : steps R (osmo_fsm_inst_dispatch f r ev d).
Proof using Hf PreOrder0.
  apply (steps_eq R _ _ (λ w, dispatch_eq f r ev d w)). unfold ref_dispatch.
  apply steps_bind; [done|by apply steps_gets|]. intros [fi|]; [|by apply steps_ret].
  destruct (Z.testbit _ _); [|destruct (Z.testbit _ _)].
  - apply steps_bind; [done|apply Hf|intros _; by apply steps_ret].
  - apply steps_bind; [done|apply Hf|intros _; by apply steps_ret].
  - by apply steps_ret.
Qed.

Lemma steps_state_chg new ms T : steps R (osmo_fsm_inst_state_chg_ms f r new ms T).
Proof using Hf Hr PreOrder0.
  apply (steps_eq R _ _ (λ w, state_chg_eq f r new ms T w)). unfold ref_state_chg.
  apply steps_bind; [done|by apply steps_gets|intros o]. apply steps_bind; [done|by apply steps_deref|intros fi].
  destruct (Z.testbit _ _); [|by apply steps_ret].
  apply steps_bind; [done|apply steps_fi_update|intros _]. apply steps_bind; [done|apply Hf|intros _].
  apply steps_bind; [done|apply steps_fi_update|intros _]. apply steps_bind; [done|apply Hf|intros _].
  by apply steps_ret.
Qed.

Lemma steps_tmr_cb : steps R (fsm_tmr_cb f r).
Proof using Hf Hr PreOrder0.
  apply (steps_eq R _ _ (λ w, tmr_cb_eq f r w)).
  apply steps_bind; [done|by apply steps_gets|intros o]. apply steps_bind; [done|by apply steps_deref|intros fi].
  apply steps_bind; [done|apply steps_fi_update|intros _]. apply steps_bind; [done|apply Hf|intros rc].
  apply steps_when; [done|]. apply (steps_eq R _ _ (λ w, term_runs_cleanup f r w)).
  apply steps_bind; [done|apply Hf|intros _]. apply steps_modify, Hr.
Qed.
End fsm.

(** ** Connections *)

Section conn.
Context `{OsmoLib, StreamCliLib, RsproCodec, IpaBtsLib} {W : Type} (L : conn_lens W).
Context (R : W → W → Prop) `{!PreOrder R} (HL : ∀ c w, R w (lset L c w)).

Lemma steps_srvc_upd f : steps R (srvc_upd L f).
Proof using HL. apply steps_modify. intros w. apply HL. Qed.

Lemma conn_ref_steps : ref_steps R (srvc_fi_ref L).
Proof using HL. split; intros; apply HL. Qed.

Lemma steps_cli_close cb : steps R cb → steps R (osmo_stream_cli_close (srvc_cli_ref L) cb).
Proof using HL PreOrder0.
  intros Hcb w a w' Hrun.
  assert (steps R (modify (cli_set (srvc_cli_ref L) CliClosed))) as Hset
    by (apply steps_modify; intros; apply HL).
  destruct (cli_get (srvc_cli_ref L) w) eqn:Hst.
  - rewrite close_closed in Hrun by done. injection Hrun as _ <-. reflexivity.
  - rewrite close_connecting in Hrun by done. revert Hrun.
    apply steps_bind; [done|done|intros _]. apply steps_when; [done|].
    apply steps_bind; [done|done|intros _; by apply steps_ret].
  - rewrite close_connected in Hrun by done. revert Hrun.
    apply steps_bind; [done|done|intros _]. apply steps_bind; [done|done|intros _; by apply steps_ret].
Qed.

Lemma steps_cli_destroy cb : steps R cb → steps R (osmo_stream_cli_destroy (srvc_cli_ref L) cb).
Proof using HL PreOrder0.
  intros Hcb. apply (steps_eq R _ _ (λ w, destroy_closes _ _ w)). by apply steps_cli_close.
Qed.

Lemma steps_with_conn {A} (m : M W A) : steps R m → steps R (with_conn L m).
Proof using PreOrder0.
  intros Hm. unfold with_conn. apply steps_bind; [done|by apply steps_gets|intros []]; [done|apply steps_undef].
Qed.

(** The calls into a machine respect [R]. *)
Record calls_steps (K : srvc_calls (W:=W)) : Prop := {
  cks_dispatch ev d : steps R (sk_dispatch K ev d);
  cks_chg st s T : steps R (sk_state_chg K st s T);
  cks_chg_ms st ms T : steps R (sk_state_chg_ms K st ms T);
}.

Lemma conn_calls_steps f : fsm_steps R f → calls_steps (conn_calls L f).
Proof using HL PreOrder0.
  intros Hf. split; intros; cbn.
  - by apply steps_dispatch.
  - apply steps_state_chg; [done|done|apply conn_ref_steps].
  - apply steps_state_chg; [done|done|apply conn_ref_steps].
Qed.

Context (e : srvc_env) (P : srvc_parent W) (K : srvc_calls (W:=W)) (HK : calls_steps K).
Context (HPc : steps R (default (mret ()) (parent_conn P))) (HPd : steps R (default (mret ()) (parent_disc P))).

#[local] Hint Resolve steps_srvc_upd cks_dispatch cks_chg cks_chg_ms steps_with_conn : steps.
#[local] Hint Resolve HK HPc HPd : steps.

Lemma steps_disconnect_cb : steps R (srvc_disconnect_cb L K).
Proof using HL HK PreOrder0. unfold srvc_disconnect_cb. steps_tac. Qed.
#[local] Hint Resolve steps_disconnect_cb : steps.

Lemma steps_close : steps R (cli_close L K).
Proof using HL HK PreOrder0. apply steps_cli_close, steps_disconnect_cb. Qed.
Lemma steps_destroy : steps R (cli_destroy L K).
Proof using HL HK PreOrder0. apply steps_cli_destroy, steps_disconnect_cb. Qed.
#[local] Hint Resolve steps_close steps_destroy : steps.

Lemma steps_delay_entry i : steps R (delay_entry (W:=W) i).
Proof using PreOrder0. unfold delay_entry. steps_tac. Qed.
#[local] Hint Resolve steps_delay_entry : steps.

Lemma steps_reestablish : steps R (srvc_do_reestablish L e K).
Proof using HL HK PreOrder0. unfold srvc_do_reestablish. steps_tac. Qed.
#[local] Hint Resolve steps_reestablish : steps.

Lemma steps_cli_send m : steps R (osmo_stream_cli_send L m).
Proof using HL. apply steps_srvc_upd. Qed.
#[local] Hint Resolve steps_cli_send : steps.

Lemma steps_send_rspro pdu : steps R (_server_conn_send_rspro L pdu).
Proof using HL PreOrder0. unfold _server_conn_send_rspro, cli_conn_send_rspro. steps_tac. Qed.
#[local] Hint Resolve steps_send_rspro : steps.

Lemma steps_server_send pdu : steps R (server_conn_send_rspro K pdu).
Proof using HK PreOrder0. unfold server_conn_send_rspro. steps_tac. Qed.

Lemma conn_fsm_steps : fsm_steps R (rspro_client_server_fsm L e P K).
Proof using HL HK HPc HPd PreOrder0.
  split; cbn.
  - intros [] ev d; cbn; unfold srvc_st_init, srvc_st_established, srvc_st_connected,
      srvc_st_reestablish_delay, srvc_st_reestablish; steps_tac.
  - intros [] s'; cbn; unfold srvc_st_established_onenter, srvc_st_connected_onenter,
      srvc_st_reestablish_delay_onenter, srvc_st_reestablish_onenter; steps_tac.
  - intros [] s'; cbn; unfold srvc_st_connected_onleave; steps_tac.
  - intros ev d. unfold srvc_allstate_action. steps_tac.
  - steps_tac.
  - intros T. unfold server_conn_fsm_timer_cb. steps_tac.
Qed.

Lemma steps_handle_ccm m : steps R (_ipaccess_bts_handle_ccm L m).
Proof using HL PreOrder0. unfold _ipaccess_bts_handle_ccm. steps_tac. Qed.
#[local] Hint Resolve steps_handle_ccm : steps.

Lemma steps_read_cb handle_rx res m :
  (∀ pdu, steps R (handle_rx pdu)) → steps R (srvc_read_cb L K handle_rx res m).
Proof using HL HK PreOrder0. intros Hrx. unfold srvc_read_cb. steps_tac. Qed.
End conn.

(** An event of a connection. *)
Lemma steps_conn_event `{OsmoLib, StreamCliLib, RsproCodec, IpaBtsLib} {W} (L : conn_lens W)
    (R : W → W → Prop) `{!PreOrder R} f handle_rx v :
  (∀ c w, R w (lset L c w)) → fsm_steps R f → (∀ pdu, steps R (handle_rx pdu)) →
  steps R (run_conn_event L f handle_rx v).
Proof.
  intros HL Hf Hrx. pose proof (conn_calls_steps L R HL f Hf) as HK. destruct v; cbn [run_conn_event].
  - apply steps_bind; [done|by apply steps_srvc_upd|intros _].
    apply steps_bind; [done| |intros _; by apply steps_ret].
    apply steps_bind; [done|by apply cks_dispatch|intros _; by apply steps_ret].
  - by apply steps_close.
  - apply steps_bind; [done|by apply steps_read_cb|intros _; by apply steps_ret].
  - apply steps_tmr_cb; [done|done|by apply conn_ref_steps].
  - apply steps_bind; [done| |intros _; by apply steps_ret].
    apply steps_bind; [done|by apply cks_dispatch|intros _; by apply steps_ret].
Qed.

(** ** The client *)

Section client.
Context `{OsmoLib, StreamCliLib, RsproCodec, IpaBtsLib, InetNtop, ClientBuild}.
Context (e : srvc_env).

Definition log_grows (a b : bankd_client) : Prop := frontend_log a `prefix_of` frontend_log b.

#[local] Instance log_grows_preorder : PreOrder log_grows.
Proof.
  split; [intros a; unfold log_grows; reflexivity|]. intros a b c Hab Hbc. unfold log_grows in *. by etrans.
Qed.

Lemma log_srv c w : log_grows w (lset srv_lens c w).
Proof. unfold log_grows. cbn. reflexivity. Qed.
Lemma log_bankd c w : log_grows w (lset bankd_lens c w).
Proof. unfold log_grows. cbn. reflexivity. Qed.
#[local] Hint Resolve log_srv log_bankd log_grows_preorder : steps.

Lemma main_ref_steps : ref_steps log_grows main_fi_ref.
Proof. split; intros; unfold log_grows; reflexivity. Qed.

Record client_calls_steps (K : client_calls) : Prop := {
  ccs_dispatch ev d : steps log_grows (main_dispatch K ev d);
  ccs_chg st s T : steps log_grows (main_state_chg K st s T);
  ccs_srv : calls_steps log_grows (srv_calls K);
  ccs_bankd : calls_steps log_grows (bankd_calls K);
}.

Lemma steps_call_frontend f : steps log_grows (call_frontend f).
Proof. apply steps_modify. intros bc. red. cbn. by apply prefix_app_r. Qed.
#[local] Hint Resolve steps_call_frontend : steps.

Lemma steps_call_script c : steps log_grows (call_script c).
Proof. unfold call_script. steps_tac. Qed.
#[local] Hint Resolve steps_call_script ccs_dispatch ccs_chg ccs_srv ccs_bankd cks_dispatch : steps.

Section handlers.
Context (K : client_calls) (HK : client_calls_steps K).
#[local] Hint Resolve HK : steps.

Lemma steps_upd_bankd f : steps log_grows (srvc_upd bankd_lens f).
Proof. apply steps_srvc_upd, log_bankd. Qed.
Lemma steps_upd_srv f : steps log_grows (srvc_upd srv_lens f).
Proof. apply steps_srvc_upd, log_srv. Qed.
Lemma steps_send_bankd pdu : steps log_grows (send_to_bankd K pdu).
Proof using HK. unfold send_to_bankd. apply steps_bind; [apply _|apply steps_server_send; [apply _|apply HK]|eauto with steps]. Qed.
#[local] Hint Resolve steps_upd_bankd steps_upd_srv steps_send_bankd : steps.

Lemma steps_send_srv pdu : steps log_grows (server_conn_send_rspro (srv_calls K) pdu).
Proof using HK. apply steps_server_send; [apply _|apply HK]. Qed.
Lemma steps_client_clslot : steps log_grows client_clslot.
Proof. unfold client_clslot. steps_tac. Qed.
#[local] Hint Resolve steps_send_srv steps_client_clslot : steps.

Lemma steps_bankd_dispatch ev d : steps log_grows (sk_dispatch (bankd_calls K) ev d).
Proof using HK. apply cks_dispatch, HK. Qed.
Lemma steps_srv_dispatch ev d : steps log_grows (sk_dispatch (srv_calls K) ev d).
Proof using HK. apply cks_dispatch, HK. Qed.
#[local] Hint Resolve steps_bankd_dispatch steps_srv_dispatch : steps.

Lemma steps_modify_same f : (∀ bc, frontend_log (f bc) = frontend_log bc) → steps log_grows (modify f).
Proof. intros Hf. apply steps_modify. intros bc. unfold log_grows. by rewrite Hf. Qed.

Lemma steps_config_bank d : steps log_grows (config_bank K d).
Proof using HK.
  unfold config_bank. steps_tac; try (apply steps_modify_same; done).
Qed.
#[local] Hint Resolve steps_config_bank : steps.

Lemma steps_operational ev d : steps log_grows (main_st_operational K ev d).
Proof using HK. unfold main_st_operational. steps_tac; apply steps_modify_same; done. Qed.
#[local] Hint Resolve steps_operational : steps.

Lemma main_fsm_steps : fsm_steps log_grows (client_main_fsm K).
Proof using HK.
  split; cbn.
  - intros [] ev d; cbn; unfold main_st_init, main_st_unconfigured, main_st_wait_bankd; steps_tac.
  - intros [] s'; cbn; unfold main_st_unconfigured_onenter, main_st_operational_onenter; steps_tac.
  - intros [] s'; cbn; unfold main_st_operational_onleave; steps_tac.
  - intros ev d. unfold main_allstate_action. steps_tac.
  - steps_tac.
  - intros T. steps_tac.
Qed.

Lemma steps_bankd_rx pdu : steps log_grows (bankd_handle_rx K pdu).
Proof using HK. unfold bankd_handle_rx, store_peer. steps_tac. Qed.

Lemma steps_srv_rx pdu : steps log_grows (srvc_handle_rx K pdu).
Proof using HK. unfold srvc_handle_rx, store_peer, store_clslot. steps_tac. Qed.
End handlers.

Lemma client_fsm_steps n :
  fsm_steps log_grows (cf_main (client_fsm e n)) ∧ fsm_steps log_grows (cf_srv (client_fsm e n)) ∧
  fsm_steps log_grows (cf_bankd (client_fsm e n)).
Proof.
  induction n as [|n (Hm & Hs & Hb)]; [by split_and!; split; intros|].
  assert (client_calls_steps (calls_into (client_fsm e n))) as HK.
  { split; intros; cbn [calls_into main_dispatch main_state_chg srv_calls bankd_calls].
    - by apply steps_dispatch; [apply _|].
    - apply steps_state_chg; [apply _|done|apply main_ref_steps].
    - apply conn_calls_steps; [apply _|apply log_srv|done].
    - apply conn_calls_steps; [apply _|apply log_bankd|done]. }
  cbn [client_fsm cf_main cf_srv cf_bankd]. split_and!.
  - by apply main_fsm_steps.
  - apply conn_fsm_steps; [apply _|apply log_srv|by apply conn_calls_steps; [apply _|apply log_srv|]|..];
      (apply steps_bind; [apply _|by apply (ccs_dispatch _ HK)|intros; apply steps_ret; apply _]).
  - apply conn_fsm_steps; [apply _|apply log_bankd|by apply conn_calls_steps; [apply _|apply log_bankd|]|..];
      (apply steps_bind; [apply _|by apply (ccs_dispatch _ HK)|intros; apply steps_ret; apply _]).
Qed.

Lemma client_K_steps : client_calls_steps (client_K e).
Proof.
  destruct (client_fsm_steps CLIENT_DEPTH) as (Hm & Hs & Hb). unfold client_K.
  split; intros; cbn [calls_into main_dispatch main_state_chg srv_calls bankd_calls].
  - by apply steps_dispatch; [apply _|].
  - apply steps_state_chg; [apply _|done|apply main_ref_steps].
  - apply conn_calls_steps; [apply _|apply log_srv|done].
  - apply conn_calls_steps; [apply _|apply log_bankd|done].
Qed.

Lemma client_log_grows v bc bc' :
  run_client_event e v bc = Done ((), bc') → ∃ calls, frontend_log bc' = frontend_log bc ++ calls.
Proof.
  pose proof client_K_steps as HK. destruct (client_fsm_steps CLIENT_DEPTH) as (_ & Hs & Hb).
  enough (steps log_grows (run_client_event e v)) as Hst by (intros Hrun; exact (Hst _ _ _ Hrun)).
  destruct v; cbn [run_client_event].
  - apply steps_bind; [apply _|apply cks_dispatch, HK|intros; apply steps_ret; apply _].
  - apply steps_conn_event; [apply _|apply log_srv|done|by apply steps_srv_rx].
  - apply steps_conn_event; [apply _|apply log_bankd|done|by apply steps_bankd_rx].
  - apply steps_bind; [apply _|by apply ccs_dispatch|intros; apply steps_ret; apply _].
  - apply steps_bind; [apply _|by apply ccs_dispatch|intros; apply steps_ret; apply _].
  - apply steps_bind; [apply _|by apply ccs_dispatch|intros; apply steps_ret; apply _].
Qed.
End client.
