(* ===== verification/OpenWrt.v ===== *)
(** * The front end for OpenWRT routers ([src/client/user_openwrt.c])

    It switches the modem of a router between its own SIM and the remote one with
    a GPIO, resets the modem with another, and exchanges TPDUs with the modem
    through AT commands.  GPIOs are files of sysfs: [gpio_log] is what was written
    to them; [modem_out] is what was written to the modem.  The results of system
    calls, the environment variables and the answer of IonMesh are arguments.
    The calls of the client into the front end are taken from its log after each
    event: the front end does not call back. *)

From S2P Require Import Prelude OsmoFsm Slotmap RsproPdu RsproUtil Ipa ClientConn ConnInv.
From S2P Require Import RemsimClient ClientInv ClientProps CString ClientMain IonMesh.

(** ** The system *)

Inductive gpio_file := GpioExport | GpioDirection (gpio : Z) | GpioValue (gpio : Z).

#[global] Instance gpio_file_eq_dec : EqDecision gpio_file.
Proof. solve_decision. Defined.

(** Writing a file: it cannot be opened, or not be written. *)
Inductive file_result := FileOk | FileNoOpen (errno : positive) | FileNoWrite (errno : positive).

(** One [write] to the modem; [WriteAgain]: EINTR or EAGAIN. *)
Inductive write_result := Written (n : nat) | WriteAgain | WriteFailed (errno : positive).

(** What the system does in an event.  Files of sysfs may answer by what was
    written before.  The writes to the modem have the results of the list; after
    these a write takes everything, or, if the modem is blocked, every further
    write is to be repeated. *)
Record ow_env := OwEnv {
  ow_srvc : srvc_env;
  sysfs : list (gpio_file * bytes) → gpio_file → file_result;
  modem_writes : list write_result;
  modem_blocked : bool;
  time_now : Z;
}.

Definition EBUSY : positive := 16.
Definition ENOTCONN : Z := 107.
Definition ENOSPC : Z := 28.
Definition ENODEV : Z := 19.

(** ** State *)

Record modem_config := ModemConfig {
  mc_sim_switch_gpio : Z;
  mc_reset_gpio : Z;
  device_path : option bytes;
  is_primary : bool;
}.

(** [struct openwrt_stats], without the measurements that nothing stores. *)
Record openwrt_stats := OpenwrtStats {
  start_time : Z;
  tpdus_sent : Z;
  tpdus_received : Z;
  errors : Z;
  reconnections : Z;
  sim_switches : Z;
  last_signal_check : Z;
  last_rssi : Z;
}.

Definition set_tpdus_sent (n : Z) (t : openwrt_stats) : openwrt_stats :=
  OpenwrtStats (start_time t) n (tpdus_received t) (errors t) (reconnections t) (sim_switches t)
    (last_signal_check t) (last_rssi t).
Definition set_tpdus_received (n : Z) (t : openwrt_stats) : openwrt_stats :=
  OpenwrtStats (start_time t) (tpdus_sent t) n (errors t) (reconnections t) (sim_switches t)
    (last_signal_check t) (last_rssi t).
Definition set_errors (n : Z) (t : openwrt_stats) : openwrt_stats :=
  OpenwrtStats (start_time t) (tpdus_sent t) (tpdus_received t) n (reconnections t) (sim_switches t)
    (last_signal_check t) (last_rssi t).
Definition set_sim_switches (n : Z) (t : openwrt_stats) : openwrt_stats :=
  OpenwrtStats (start_time t) (tpdus_sent t) (tpdus_received t) (errors t) (reconnections t) n
    (last_signal_check t) (last_rssi t).
Definition set_signal (rssi check : Z) (t : openwrt_stats) : openwrt_stats :=
  OpenwrtStats (start_time t) (tpdus_sent t) (tpdus_received t) (errors t) (reconnections t)
    (sim_switches t) check rssi.

(** [struct openwrt_state], with the client, the options of the USB front ends that
    are used for GPIOs, whether the host name that the connection to the server
    points to was freed, and what was written to GPIOs, modem and IonMesh. *)
Record openwrt_state := OpenwrtState {
  os_bc : bankd_client;
  os_usb : usb_config;
  host_freed : bool;
  sim_switch_gpio : Z;
  modem_reset_gpio : Z;
  modem_device : option bytes;
  gpio_initialized : bool;
  dual_modem_mode : bool;
  modem1 : modem_config;
  modem2 : modem_config;
  atr_buf : octets;
  ionmesh_cfg : option ionmesh_config;
  use_ionmesh : bool;
  modem_fd_registered : bool;
  os_stats : openwrt_stats;
  signal_monitoring_enabled : bool;
  signal_check_interval : Z;
  signal_timer : option Z;
  gpio_log : list (gpio_file * bytes);
  modem_out : bytes;
  http_log : list http_request;
}.

Definition set_os_bc (x : bankd_client) (o : openwrt_state) : openwrt_state :=
    OpenwrtState x (os_usb o) (host_freed o) (sim_switch_gpio o) (modem_reset_gpio o) (modem_device
    o) (gpio_initialized o) (dual_modem_mode o) (modem1 o) (modem2 o) (atr_buf o) (ionmesh_cfg o)
    (use_ionmesh o) (modem_fd_registered o) (os_stats o) (signal_monitoring_enabled o)
    (signal_check_interval o) (signal_timer o) (gpio_log o) (modem_out o) (http_log o).
Definition set_host_freed (x : bool) (o : openwrt_state) : openwrt_state :=
    OpenwrtState (os_bc o) (os_usb o) x (sim_switch_gpio o) (modem_reset_gpio o) (modem_device o)
    (gpio_initialized o) (dual_modem_mode o) (modem1 o) (modem2 o) (atr_buf o) (ionmesh_cfg o)
    (use_ionmesh o) (modem_fd_registered o) (os_stats o) (signal_monitoring_enabled o)
    (signal_check_interval o) (signal_timer o) (gpio_log o) (modem_out o) (http_log o).
Definition set_sim_switch_gpio (x : Z) (o : openwrt_state) : openwrt_state :=
    OpenwrtState (os_bc o) (os_usb o) (host_freed o) x (modem_reset_gpio o) (modem_device o)
    (gpio_initialized o) (dual_modem_mode o) (modem1 o) (modem2 o) (atr_buf o) (ionmesh_cfg o)
    (use_ionmesh o) (modem_fd_registered o) (os_stats o) (signal_monitoring_enabled o)
    (signal_check_interval o) (signal_timer o) (gpio_log o) (modem_out o) (http_log o).
Definition set_modem_reset_gpio (x : Z) (o : openwrt_state) : openwrt_state :=
    OpenwrtState (os_bc o) (os_usb o) (host_freed o) (sim_switch_gpio o) x (modem_device o)
    (gpio_initialized o) (dual_modem_mode o) (modem1 o) (modem2 o) (atr_buf o) (ionmesh_cfg o)
    (use_ionmesh o) (modem_fd_registered o) (os_stats o) (signal_monitoring_enabled o)
    (signal_check_interval o) (signal_timer o) (gpio_log o) (modem_out o) (http_log o).
Definition set_modem_device (x : option bytes) (o : openwrt_state) : openwrt_state :=
    OpenwrtState (os_bc o) (os_usb o) (host_freed o) (sim_switch_gpio o) (modem_reset_gpio o) x
    (gpio_initialized o) (dual_modem_mode o) (modem1 o) (modem2 o) (atr_buf o) (ionmesh_cfg o)
    (use_ionmesh o) (modem_fd_registered o) (os_stats o) (signal_monitoring_enabled o)
    (signal_check_interval o) (signal_timer o) (gpio_log o) (modem_out o) (http_log o).
Definition set_gpio_initialized (x : bool) (o : openwrt_state) : openwrt_state :=
    OpenwrtState (os_bc o) (os_usb o) (host_freed o) (sim_switch_gpio o) (modem_reset_gpio o)
    (modem_device o) x (dual_modem_mode o) (modem1 o) (modem2 o) (atr_buf o) (ionmesh_cfg o)
    (use_ionmesh o) (modem_fd_registered o) (os_stats o) (signal_monitoring_enabled o)
    (signal_check_interval o) (signal_timer o) (gpio_log o) (modem_out o) (http_log o).
Definition set_dual_modem_mode (x : bool) (o : openwrt_state) : openwrt_state :=
    OpenwrtState (os_bc o) (os_usb o) (host_freed o) (sim_switch_gpio o) (modem_reset_gpio o)
    (modem_device o) (gpio_initialized o) x (modem1 o) (modem2 o) (atr_buf o) (ionmesh_cfg o)
    (use_ionmesh o) (modem_fd_registered o) (os_stats o) (signal_monitoring_enabled o)
    (signal_check_interval o) (signal_timer o) (gpio_log o) (modem_out o) (http_log o).
Definition set_modem1 (x : modem_config) (o : openwrt_state) : openwrt_state :=
    OpenwrtState (os_bc o) (os_usb o) (host_freed o) (sim_switch_gpio o) (modem_reset_gpio o)
    (modem_device o) (gpio_initialized o) (dual_modem_mode o) x (modem2 o) (atr_buf o) (ionmesh_cfg
    o) (use_ionmesh o) (modem_fd_registered o) (os_stats o) (signal_monitoring_enabled o)
    (signal_check_interval o) (signal_timer o) (gpio_log o) (modem_out o) (http_log o).
Definition set_modem2 (x : modem_config) (o : openwrt_state) : openwrt_state :=
    OpenwrtState (os_bc o) (os_usb o) (host_freed o) (sim_switch_gpio o) (modem_reset_gpio o)
    (modem_device o) (gpio_initialized o) (dual_modem_mode o) (modem1 o) x (atr_buf o) (ionmesh_cfg
    o) (use_ionmesh o) (modem_fd_registered o) (os_stats o) (signal_monitoring_enabled o)
    (signal_check_interval o) (signal_timer o) (gpio_log o) (modem_out o) (http_log o).
Definition set_atr_buf (x : octets) (o : openwrt_state) : openwrt_state :=
    OpenwrtState (os_bc o) (os_usb o) (host_freed o) (sim_switch_gpio o) (modem_reset_gpio o)
    (modem_device o) (gpio_initialized o) (dual_modem_mode o) (modem1 o) (modem2 o) x (ionmesh_cfg
    o) (use_ionmesh o) (modem_fd_registered o) (os_stats o) (signal_monitoring_enabled o)
    (signal_check_interval o) (signal_timer o) (gpio_log o) (modem_out o) (http_log o).
Definition set_ionmesh_cfg (x : option ionmesh_config) (o : openwrt_state) : openwrt_state :=
    OpenwrtState (os_bc o) (os_usb o) (host_freed o) (sim_switch_gpio o) (modem_reset_gpio o)
    (modem_device o) (gpio_initialized o) (dual_modem_mode o) (modem1 o) (modem2 o) (atr_buf o) x
    (use_ionmesh o) (modem_fd_registered o) (os_stats o) (signal_monitoring_enabled o)
    (signal_check_interval o) (signal_timer o) (gpio_log o) (modem_out o) (http_log o).
Definition set_use_ionmesh (x : bool) (o : openwrt_state) : openwrt_state :=
    OpenwrtState (os_bc o) (os_usb o) (host_freed o) (sim_switch_gpio o) (modem_reset_gpio o)
    (modem_device o) (gpio_initialized o) (dual_modem_mode o) (modem1 o) (modem2 o) (atr_buf o)
    (ionmesh_cfg o) x (modem_fd_registered o) (os_stats o) (signal_monitoring_enabled o)
    (signal_check_interval o) (signal_timer o) (gpio_log o) (modem_out o) (http_log o).
Definition set_modem_fd_registered (x : bool) (o : openwrt_state) : openwrt_state :=
    OpenwrtState (os_bc o) (os_usb o) (host_freed o) (sim_switch_gpio o) (modem_reset_gpio o)
    (modem_device o) (gpio_initialized o) (dual_modem_mode o) (modem1 o) (modem2 o) (atr_buf o)
    (ionmesh_cfg o) (use_ionmesh o) x (os_stats o) (signal_monitoring_enabled o)
    (signal_check_interval o) (signal_timer o) (gpio_log o) (modem_out o) (http_log o).
Definition set_os_stats (x : openwrt_stats) (o : openwrt_state) : openwrt_state :=
    OpenwrtState (os_bc o) (os_usb o) (host_freed o) (sim_switch_gpio o) (modem_reset_gpio o)
    (modem_device o) (gpio_initialized o) (dual_modem_mode o) (modem1 o) (modem2 o) (atr_buf o)
    (ionmesh_cfg o) (use_ionmesh o) (modem_fd_registered o) x (signal_monitoring_enabled o)
    (signal_check_interval o) (signal_timer o) (gpio_log o) (modem_out o) (http_log o).
Definition set_signal_monitoring_enabled (x : bool) (o : openwrt_state) : openwrt_state :=
    OpenwrtState (os_bc o) (os_usb o) (host_freed o) (sim_switch_gpio o) (modem_reset_gpio o)
    (modem_device o) (gpio_initialized o) (dual_modem_mode o) (modem1 o) (modem2 o) (atr_buf o)
    (ionmesh_cfg o) (use_ionmesh o) (modem_fd_registered o) (os_stats o) x (signal_check_interval o)
    (signal_timer o) (gpio_log o) (modem_out o) (http_log o).
Definition set_signal_check_interval (x : Z) (o : openwrt_state) : openwrt_state :=
    OpenwrtState (os_bc o) (os_usb o) (host_freed o) (sim_switch_gpio o) (modem_reset_gpio o)
    (modem_device o) (gpio_initialized o) (dual_modem_mode o) (modem1 o) (modem2 o) (atr_buf o)
    (ionmesh_cfg o) (use_ionmesh o) (modem_fd_registered o) (os_stats o) (signal_monitoring_enabled
    o) x (signal_timer o) (gpio_log o) (modem_out o) (http_log o).
Definition set_signal_timer (x : option Z) (o : openwrt_state) : openwrt_state :=
    OpenwrtState (os_bc o) (os_usb o) (host_freed o) (sim_switch_gpio o) (modem_reset_gpio o)
    (modem_device o) (gpio_initialized o) (dual_modem_mode o) (modem1 o) (modem2 o) (atr_buf o)
    (ionmesh_cfg o) (use_ionmesh o) (modem_fd_registered o) (os_stats o) (signal_monitoring_enabled
    o) (signal_check_interval o) x (gpio_log o) (modem_out o) (http_log o).
Definition set_gpio_log (x : list (gpio_file * bytes)) (o : openwrt_state) : openwrt_state :=
    OpenwrtState (os_bc o) (os_usb o) (host_freed o) (sim_switch_gpio o) (modem_reset_gpio o)
    (modem_device o) (gpio_initialized o) (dual_modem_mode o) (modem1 o) (modem2 o) (atr_buf o)
    (ionmesh_cfg o) (use_ionmesh o) (modem_fd_registered o) (os_stats o) (signal_monitoring_enabled
    o) (signal_check_interval o) (signal_timer o) x (modem_out o) (http_log o).
Definition set_modem_out (x : bytes) (o : openwrt_state) : openwrt_state :=
    OpenwrtState (os_bc o) (os_usb o) (host_freed o) (sim_switch_gpio o) (modem_reset_gpio o)
    (modem_device o) (gpio_initialized o) (dual_modem_mode o) (modem1 o) (modem2 o) (atr_buf o)
    (ionmesh_cfg o) (use_ionmesh o) (modem_fd_registered o) (os_stats o) (signal_monitoring_enabled
    o) (signal_check_interval o) (signal_timer o) (gpio_log o) x (http_log o).
Definition set_http_log (x : list http_request) (o : openwrt_state) : openwrt_state :=
    OpenwrtState (os_bc o) (os_usb o) (host_freed o) (sim_switch_gpio o) (modem_reset_gpio o)
    (modem_device o) (gpio_initialized o) (dual_modem_mode o) (modem1 o) (modem2 o) (atr_buf o)
    (ionmesh_cfg o) (use_ionmesh o) (modem_fd_registered o) (os_stats o) (signal_monitoring_enabled
    o) (signal_check_interval o) (signal_timer o) (gpio_log o) (modem_out o) x.

Section openwrt.
Context `{OsmoLib, StreamCliLib, RsproCodec, IpaBtsLib, InetNtop, ClientBuild}.

Abbreviation Ow := (M openwrt_state).

Definition stats_upd (f : openwrt_stats → openwrt_stats) : Ow () :=
  modify (λ o, set_os_stats (f (os_stats o)) o).

(** ** GPIOs *)

Definition gpio_write (f : gpio_file) (data : bytes) : Ow () :=
  modify (λ o, set_gpio_log (gpio_log o ++ [(f, data)]) o).

Definition gpio_export (e : ow_env) (gpio : Z) : Ow Z :=
  log ← gets gpio_log;
  match sysfs e log GpioExport with
  | FileNoOpen errno => mret (Z.neg errno)
  | FileNoWrite errno => mret (if Pos.eqb errno EBUSY then 0 else Z.neg errno)
  | FileOk => gpio_write GpioExport (pct_d gpio) ;; mret 0
  end.

Definition gpio_set_direction (e : ow_env) (gpio : Z) (direction : string) : Ow Z :=
  log ← gets gpio_log;
  match sysfs e log (GpioDirection gpio) with
  | FileNoOpen errno | FileNoWrite errno => mret (Z.neg errno)
  | FileOk => gpio_write (GpioDirection gpio) (str_octets direction) ;; mret 0
  end.

Definition gpio_set_value (e : ow_env) (gpio value : Z) : Ow Z :=
  log ← gets gpio_log;
  match sysfs e log (GpioValue gpio) with
  | FileNoOpen errno | FileNoWrite errno => mret (Z.neg errno)
  | FileOk => gpio_write (GpioValue gpio) (str_octets (if value =? 0 then "0" else "1")) ;; mret 0
  end.

(** [if (rc < 0) return rc;] *)
Definition try_rc (m : Ow Z) (k : Ow Z) : Ow Z := rc ← m; if rc <? 0 then mret rc else k.

Definition export_rc (m : Ow Z) (k : Ow Z) : Ow Z :=
  rc ← m; if (rc <? 0) && negb (rc =? Z.neg EBUSY) then mret rc else k.

Definition openwrt_gpio_init (e : ow_env) : Ow Z :=
  o ← gets id;
  if gpio_initialized o then mret 0
  else
    export_rc (gpio_export e (sim_switch_gpio o))
      (try_rc (gpio_set_direction e (sim_switch_gpio o) "out")
        (export_rc (gpio_export e (modem_reset_gpio o))
          (try_rc (gpio_set_direction e (modem_reset_gpio o) "out")
            (modify (set_gpio_initialized true) ;; mret 0)))).

(** ** The front end *)

Definition switch_sim (e : ow_env) (value : Z) : Ow Z :=
  try_rc (openwrt_gpio_init e)
    (stats_upd (λ t, set_sim_switches (u32 (sim_switches t + 1)) t) ;;
     gpio ← gets sim_switch_gpio;
     gpio_set_value e gpio value).

Definition ow_request_card_insert (e : ow_env) : Ow Z := switch_sim e 1.
Definition ow_request_card_remove (e : ow_env) : Ow Z := switch_sim e 0.
Definition ow_request_sim_remote (e : ow_env) : Ow Z := ow_request_card_insert e.
Definition ow_request_sim_local (e : ow_env) : Ow Z := ow_request_card_remove e.

Definition ow_request_modem_reset (e : ow_env) : Ow Z :=
  try_rc (openwrt_gpio_init e)
    (gpio ← gets modem_reset_gpio;
     try_rc (gpio_set_value e gpio 1)
       (try_rc (gpio_set_value e gpio 0) (mret 0))).

Definition bin_to_hex_str (data : octets) : option bytes :=
  if (512 <? length data)%nat then None else Some (mjoin (map hex2 data)).

(** The loop that writes a command: what was written, and the error; [None]: it
    repeats a write for ever. *)
Fixpoint write_loop (blocked : bool) (ws : list write_result) (rest : bytes) : option (bytes * option positive) :=
  match rest with
  | [] => Some ([], None)
  | _ =>
      match ws with
      | [] => if blocked then None else Some (rest, None)
      | WriteAgain :: ws => write_loop blocked ws rest
      | WriteFailed errno :: _ => Some ([], Some errno)
      | Written n :: ws =>
          '(w, err) ← write_loop blocked ws (drop n rest); Some (take n rest ++ w, err)
      end
  end.

Definition AT_CMD_SIZE : nat := 2048.

Definition at_csim (hex : bytes) (len : Z) : bytes :=
  str_octets "AT+CSIM=" ++ dec (len * 2) ++ [44; DQ] ++ hex ++ [DQ; 13; 10].

Definition openwrt_send_tpdu_to_modem (e : ow_env) (data : octets) : Ow Z :=
  reg ← gets modem_fd_registered;
  if negb reg then mret (- ENOTCONN)
  else
    match bin_to_hex_str data with
    | None => mret (- EINVAL)
    | Some hex =>
        let at_cmd := at_csim hex (Z.of_nat (length data)) in
        if (AT_CMD_SIZE <=? length at_cmd)%nat then mret (- ENOSPC)
        else
          match write_loop (modem_blocked e) (modem_writes e) at_cmd with
          | None => nofuel
          | Some (w, err) =>
              modify (λ o, set_modem_out (modem_out o ++ w) o) ;;
              mret match err with Some errno => Z.neg errno | None => 0 end
          end
    end.

Definition ow_handle_card2modem (e : ow_env) (data : octets) : Ow Z :=
  rc ← openwrt_send_tpdu_to_modem e data;
  (if rc =? 0 then stats_upd (λ t, set_tpdus_sent (wrap 64 (tpdus_sent t + 1)) t)
   else stats_upd (λ t, set_errors (wrap 64 (errors t + 1)) t)) ;;
  mret rc.

Definition ow_handle_set_atr (data : octets) : Ow Z :=
  if (55 <? length data)%nat then mret (- EINVAL) else modify (set_atr_buf data) ;; mret 0.

(** What the front end adds to the environment of the event script. *)
Definition ow_append_script_env (o : openwrt_state) (idx max_env : Z) : list bytes :=
  if max_env - 1 <=? idx then []
  else match modem_device o with
       | Some d => [str_octets "OPENWRT_MODEM_DEVICE=" ++ d]
       | None => []
       end.

Definition ow_frontend (e : ow_env) (f : frontend_call) : Ow () :=
  match f with
  | frontend_request_card_insert => ow_request_card_insert e ;; mret ()
  | frontend_request_card_remove => ow_request_card_remove e ;; mret ()
  | frontend_request_sim_remote => ow_request_sim_remote e ;; mret ()
  | frontend_request_sim_local => ow_request_sim_local e ;; mret ()
  | frontend_request_modem_reset => ow_request_modem_reset e ;; mret ()
  | frontend_handle_card2modem d => ow_handle_card2modem e d ;; mret ()
  | frontend_handle_set_atr d => ow_handle_set_atr d ;; mret ()
  | frontend_handle_slot_status _ | osmo_system_nowait _ _ => mret ()
  end.

(** An event of the client, with the calls into the front end it makes.  The only
    event the connection to the server can have while its host name is freed is
    the timer that starts the first attempt, which reads it. *)
Definition ow_client (e : ow_env) (v : client_event) : Ow () :=
  freed ← gets host_freed;
  match v with
  | CeServer _ => if freed : bool then undef else mret ()
  | _ => mret ()
  end ;;
  n ← gets (λ o, length (frontend_log (os_bc o)));
  zoom os_bc set_os_bc (run_client_event (ow_srvc e) v) ;;
  calls ← gets (λ o, drop n (frontend_log (os_bc o)));
  for_each (ow_frontend e) calls.

(** ** Responses of the modem *)

(** The bytes of pairs of digits. *)
Fixpoint hex_pairs (n : nat) (s : bytes) : option octets :=
  match n with
  | O => Some []
  | S n => '(b, _) ← scan_hex2 s; r ← hex_pairs n (drop 2 s); Some (b :: r)
  end.

Definition hex_str_to_bin (hex : bytes) (buf_len : nat) : Z + octets :=
  if negb (Nat.even (length hex)) then inl (- EINVAL)
  else if (buf_len <? Nat.div2 (length hex))%nat then inl (- ENOSPC)
  else match hex_pairs (Nat.div2 (length hex)) hex with Some d => inr d | None => inl (- EINVAL) end.

Definition openwrt_parse_csq_response (e : ow_env) (response : bytes) : Ow () :=
  match sscanf (lit "+CSQ: " ++ [DInt] ++ lit "," ++ [DInt]) response with
  | [VInt rssi; VInt _] =>
      t ← gets os_stats;
      stats_upd (set_signal
        (if (0 <=? rssi) && (rssi <=? 31) then - 113 + rssi * 2 else last_rssi t) (time_now e))
  | _ => mret ()
  end.

(** From the first occurrence of [p] on. *)
Definition strstr (p s : bytes) : option bytes := option_map (app p) (strstr_behind p s).

Definition handle_csim (e : ow_env) (csim : bytes) : Ow () :=
  match sscanf (lit "+CSIM: " ++ [DInt] ++ [DLit 44; DLit DQ; DNot 1023 DQ; DLit DQ]) csim with
  | [VInt _; VStr hex] =>
      match hex_str_to_bin hex 512 with
      | inr (b :: apdu) =>
          stats_upd (λ t, set_tpdus_received (wrap 64 (tpdus_received t + 1)) t) ;;
          ow_client e (CeTpdu (b :: apdu))
      | _ => mret ()
      end
  | _ => mret ()
  end.

(** The modem is readable: [None] if reading fails, else what can be read. *)
Definition modem_fd_cb (e : ow_env) (input : option bytes) : Ow () :=
  match input with
  | None | Some [] => mret ()
  | Some avail =>
      let buf := c_str (take 2047 avail) in
      match strstr (str_octets "+CSQ:") buf with
      | Some csq => openwrt_parse_csq_response e csq
      | None => mret ()
      end ;;
      match strstr (str_octets "+CSIM:") buf with
      | Some csim => handle_csim e csim
      | None => mret ()
      end
  end.

(** ** Signal strength and statistics *)

Definition AT_CSQ : bytes := str_octets "AT+CSQ" ++ [13; 10].

(** A single [write]. *)
Definition openwrt_query_signal_strength (e : ow_env) : Ow Z :=
  reg ← gets modem_fd_registered;
  if negb reg then mret (- ENOTCONN)
  else
    match modem_writes e with
    | WriteAgain :: _ => mret (- 11)
    | WriteFailed errno :: _ => mret (Z.neg errno)
    | Written n :: _ => modify (λ o, set_modem_out (modem_out o ++ take n AT_CSQ) o) ;; mret 0
    | [] =>
        if modem_blocked e then mret (- 11)
        else modify (λ o, set_modem_out (modem_out o ++ AT_CSQ) o) ;; mret 0
    end.

Definition openwrt_signal_timer_cb (e : ow_env) : Ow () :=
  modify (set_signal_timer None) ;;
  on ← gets signal_monitoring_enabled;
  if negb on then mret ()
  else
    openwrt_query_signal_strength e ;;
    n ← gets signal_check_interval;
    when (0 <? n) (modify (set_signal_timer (Some n))).

(** Hours, minutes and seconds, and the counters, as they are logged. *)
Definition openwrt_print_statistics (now : Z) (o : openwrt_state)
    : (Z * Z * Z) * openwrt_stats * option Z :=
  let t := os_stats o in
  let uptime := now - start_time t in
  ((swrap 32 (uptime `quot` 3600), swrap 32 ((uptime `rem` 3600) `quot` 60), swrap 32 (uptime `rem` 60)),
   t, if 0 <? last_signal_check t then Some (last_rssi t) else None).

(** SIGINT and SIGTERM, up to [exit(0)]. *)
Definition openwrt_handle_shutdown (e : ow_env) : Ow () := ow_request_sim_local e ;; mret ().

(** ** Start *)

(** What is asked of the system at the start. *)
Record ow_start := OwStart {
  os_getenv : string → option bytes;
  os_access : bytes → bool;
  os_open : bytes → option positive;
  os_fd_register : bool;
  os_model : option bytes;
  os_hostname : bytes;
  os_curl : curl_result;
}.

Definition openwrt_open_modem_device (st : ow_start) : Ow Z :=
  dev ← gets modem_device;
  match dev with
  | None => mret (- ENODEV)
  | Some d =>
      match os_open st d with
      | Some errno => mret (Z.neg errno)
      | None =>
          if negb (os_fd_register st) then mret (- EIO)
          else modify (set_modem_fd_registered true) ;; mret 0
      end
  end.

(** The first of two devices that exists, if none is configured. *)
Definition detect (st : ow_start) (a b : string) (dev : option bytes) : option bytes :=
  match dev with
  | Some d => Some d
  | None => if os_access st (str_octets a) then Some (str_octets a)
            else if os_access st (str_octets b) then Some (str_octets b) else None
  end.

Definition with_device (d : option bytes) (m : modem_config) : modem_config :=
  ModemConfig (mc_sim_switch_gpio m) (mc_reset_gpio m) d (is_primary m).

Definition openwrt_init_modem (e : ow_env) (st : ow_start) : Ow Z :=
  dual ← gets dual_modem_mode;
  (if dual : bool then
     modify (λ o, set_modem1 (with_device (detect st "/dev/ttyUSB2" "/dev/cdc-wdm0"
       (device_path (modem1 o))) (modem1 o)) o) ;;
     modify (λ o, set_modem2 (with_device (detect st "/dev/ttyUSB5" "/dev/cdc-wdm1"
       (device_path (modem2 o))) (modem2 o)) o) ;;
     gpio ← gets (λ o, mc_sim_switch_gpio (modem2 o));
     when (0 <? gpio)
       (gpio_export e gpio ;; gpio_set_direction e gpio "out" ;; gpio_set_value e gpio 0 ;; mret ())
   else
     modify (λ o, set_modem_device (detect st "/dev/ttyUSB2" "/dev/cdc-wdm0" (modem_device o)) o)) ;;
  dev ← gets modem_device;
  match dev with
  | Some _ => openwrt_open_modem_device st ;; mret 0
  | None => mret 0
  end.

Definition is_zbt_z8102ax (st : ow_start) : bool :=
  match os_model st with
  | None => false
  | Some text =>
      match fgets_lines 255 text [] with
      | line :: _ => contains (str_octets "ZBT-Z8102AX") (c_str line) ||
                     contains (str_octets "zbt-z8102ax") (c_str line)
      | [] => false
      end
  end.

(** A GPIO that an environment variable does not set. *)
Definition unless_env (st : ow_start) (var : string) (dflt old : Z) : Z :=
  match os_getenv st var with None => dflt | Some _ => old end.

Definition apply_zbt_z8102ax_config (e : ow_env) (st : ow_start) : Ow () :=
  dual ← gets dual_modem_mode;
  (if dual : bool then
     modify (λ o, set_modem1 (ModemConfig
       (unless_env st "MODEM1_SIM_GPIO" 6 (mc_sim_switch_gpio (modem1 o)))
       (unless_env st "MODEM1_RESET_GPIO" 4 (mc_reset_gpio (modem1 o)))
       (device_path (modem1 o)) (is_primary (modem1 o))) o) ;;
     modify (λ o, set_modem2 (ModemConfig
       (unless_env st "MODEM2_SIM_GPIO" 7 (mc_sim_switch_gpio (modem2 o)))
       (unless_env st "MODEM2_RESET_GPIO" 5 (mc_reset_gpio (modem2 o)))
       (device_path (modem2 o)) (is_primary (modem2 o))) o) ;;
     modify (λ o, set_sim_switch_gpio (mc_sim_switch_gpio (modem1 o)) o) ;;
     modify (λ o, set_modem_reset_gpio (mc_reset_gpio (modem1 o)) o)
   else
     modify (set_sim_switch_gpio 6) ;; modify (set_modem_reset_gpio 4)) ;;
  gpio_export e 3 ;; gpio_set_direction e 3 "out" ;; gpio_set_value e 3 1 ;;
  mret ().

(** A GPIO from an environment variable. *)
Definition env_gpio (st : ow_start) (var : string) (dflt : Z) : Z :=
  match os_getenv st var with Some s => atoi s | None => dflt end.

Definition config_modems (st : ow_start) : Ow () :=
  if bool_decide (os_getenv st "OPENWRT_DUAL_MODEM" = Some (str_octets "1")) then
    modify (set_dual_modem_mode true) ;;
    modify (set_modem1 (ModemConfig (env_gpio st "MODEM1_SIM_GPIO" 20) (env_gpio st "MODEM1_RESET_GPIO" 21)
      (os_getenv st "MODEM1_DEVICE") true)) ;;
    modify (set_modem2 (ModemConfig (env_gpio st "MODEM2_SIM_GPIO" 22) (env_gpio st "MODEM2_RESET_GPIO" 23)
      (os_getenv st "MODEM2_DEVICE") false)) ;;
    modify (λ o, set_sim_switch_gpio (mc_sim_switch_gpio (modem1 o)) o) ;;
    modify (λ o, set_modem_reset_gpio (mc_reset_gpio (modem1 o)) o) ;;
    modify (λ o, match device_path (modem1 o) with
                 | Some d => set_modem_device (Some d) o
                 | None => o
                 end)
  else
    modify (set_dual_modem_mode false) ;;
    modify (λ o, set_sim_switch_gpio
      (if 0 <? vendor_id (os_usb o) then vendor_id (os_usb o) else 20) o) ;;
    modify (λ o, set_modem_reset_gpio
      (if 0 <? product_id (os_usb o) then product_id (os_usb o) else 21) o) ;;
    modify (λ o, match usb_path (os_usb o) with
                 | Some d => set_modem_device (Some d) o
                 | None => o
                 end).

Definition config_signal (st : ow_start) : Ow () :=
  match os_getenv st "OPENWRT_SIGNAL_INTERVAL" with
  | Some s =>
      modify (set_signal_check_interval (atoi s)) ;;
      modify (set_signal_monitoring_enabled (0 <? atoi s))
  | None =>
      modify (set_signal_check_interval 60) ;;
      modify (set_signal_monitoring_enabled true)
  end.

(** *** IonMesh *)

Definition config_ionmesh (st : ow_start) (client_slot : Z) : ionmesh_config :=
  let c := ionmesh_config_init in
  IonmeshConfig (default (im_host c) (os_getenv st "IONMESH_HOST"))
    (match os_getenv st "IONMESH_PORT" with Some s => atoi s | None => im_port c end)
    (match os_getenv st "IONMESH_TENANT_ID" with Some s => atoi s | None => tenant_id c end)
    (os_hostname st ++ str_octets "-slot" ++ pct_d client_slot)
    (default (im_mapping_mode c) (os_getenv st "IONMESH_MAPPING_MODE"))
    (match os_getenv st "IONMESH_MCC_MNC" with Some s => Some s | None => mcc_mnc c end).

Definition set_bc_cfg (c : client_config) (bc : bankd_client) : bankd_client :=
  BankdClient (srv_conn bc) (bankd_conn bc) (main_fi bc) (bankd_slot bc) c (last_status bc)
    (frontend_log bc).

(** [server_host] of the connection still points to the name that is freed. *)
Definition apply_assignment (a : ionmesh_assignment) : Ow () :=
  modify (set_host_freed true) ;;
  zoom os_bc set_os_bc
    (modify (λ bc, set_bc_cfg (set_port (bankd_port a)
       (set_host (octets_str (bankd_host a)) (bc_cfg bc))) bc) ;;
     remsim_client_set_clslot (im_bank_id a) (im_slot_id a)).

Definition start_ionmesh (st : ow_start) : Ow () :=
  cfg ← gets (λ o, bc_cfg (os_bc o));
  match event_script cfg with
  | Some script =>
      if contains (str_octets "ionmesh") (str_octets script) then
        let c := config_ionmesh st (cfg_client_slot cfg) in
        let '(rc, reqs, a) := ionmesh_register_client c (os_curl st) zero_assignment in
        modify (set_ionmesh_cfg (Some c)) ;;
        modify (λ o, set_http_log (http_log o ++ reqs) o) ;;
        if rc <? 0 then modify (set_use_ionmesh false)
        else modify (set_use_ionmesh true) ;; apply_assignment a
      else mret ()
  | None => mret ()
  end.

Definition openwrt_zero (usb : usb_config) (bc : bankd_client) (now : Z) : openwrt_state :=
  let m := ModemConfig 0 0 None false in
  OpenwrtState bc usb false 0 0 None false false m m [] None false false
    (OpenwrtStats now 0 0 0 0 0 0 0) false 0 None [] [] [].

(** Up to the main loop. *)
Definition openwrt_user_main (e : ow_env) (st : ow_start) : Ow () :=
  config_signal st ;;
  config_modems st ;;
  when (is_zbt_z8102ax st) (apply_zbt_z8102ax_config e st) ;;
  openwrt_init_modem e st ;;
  start_ionmesh st ;;
  o ← gets id;
  when (signal_monitoring_enabled o && (0 <? signal_check_interval o))
    (modify (set_signal_timer (Some (signal_check_interval o)))).

(** ** Events *)

Inductive ow_event :=
| OwServer (v : conn_event)
| OwBankd (v : conn_event)
| OwModem (input : option bytes)
| OwTimer.

Definition run_ow_event (e : ow_env) (v : ow_event) : Ow () :=
  match v with
  | OwServer v => ow_client e (CeServer v)
  | OwBankd v => ow_client e (CeBankd v)
  | OwModem input => modem_fd_cb e input
  | OwTimer => openwrt_signal_timer_cb e
  end.
End openwrt.
