(* ===== verification/OpenWrtProps.v ===== *)
(** * Properties of the front end for OpenWRT routers

    The SIM switch follows the sessions of the client ([sim_follows_session]), TPDUs
    are carried by AT commands and back ([openwrt_relay], [hex_roundtrip]), every
    event is processed to the end ([openwrt_events_defined]); what the start makes
    of two modems and of IonMesh ([modem1_not_opened], [ionmesh_breaks_connection]). *)

From S2P Require Import Prelude OsmoFsm Slotmap RsproPdu RsproUtil Ipa ClientConn Examples ConnInv.
From S2P Require Import RemsimClient ClientInv ClientProps CString ClientMain ClientMainProps IonMesh.
From S2P Require Import ClientLog OpenWrt.

(** ** The level of a GPIO *)

Definition gpio_level (g : Z) (log : list (gpio_file * bytes)) : option bytes :=
  last (omap (λ x, if decide (x.1 = GpioValue g) then Some x.2 else None) log).

Definition level_bit (b : bool) : bytes := str_octets (if b then "1" else "0").

Definition is_value (x : gpio_file * bytes) : bool :=
  match x.1 with GpioValue _ => true | _ => false end.

Lemma last_app_some {A} (l k : list A) x : last k = Some x → last (l ++ k) = Some x.
Proof. intros Hk. rewrite last_app, Hk. done. Qed.

Lemma level_app g log l :
  gpio_level g (log ++ l) = match gpio_level g l with Some x => Some x | None => gpio_level g log end.
Proof. unfold gpio_level. rewrite omap_app, last_app. by destruct (last _). Qed.

Lemma level_none g l : Forall (λ x, x.1 ≠ GpioValue g) l → gpio_level g l = None.
Proof.
  unfold gpio_level. induction 1 as [|[f d] l Hx Hl IH]; [done|]. cbn [omap list_omap].
  rewrite decide_False by done. exact IH.
Qed.

Lemma no_values g l : Forall (λ x, is_value x = false) l → gpio_level g l = None.
Proof. intros Hl. apply level_none. eapply Forall_impl; [exact Hl|]. intros [[] d] Hx; cbn in *; congruence. Qed.

(** The position of the switch a call asks for. *)
Definition switch_of (f : frontend_call) : option bool :=
  match f with
  | frontend_request_sim_remote | frontend_request_card_insert => Some true
  | frontend_request_sim_local | frontend_request_card_remove => Some false
  | _ => None
  end.

Definition last_switch (calls : list frontend_call) : option bool := last (omap switch_of calls).

Lemma last_switch_app a b :
  last_switch (a ++ b) = match last_switch b with Some x => Some x | None => last_switch a end.
Proof. unfold last_switch. rewrite omap_app, last_app. by destruct (last _). Qed.

Lemma last_switch_frontend log : last_switch (frontend_calls log) = last_switch log.
Proof.
  unfold last_switch, frontend_calls. f_equal. induction log as [|f log IH]; [done|].
  rewrite filter_cons. destruct f; cbn [is_script]; try (rewrite decide_True by done);
    try (rewrite decide_False by done); cbn [omap list_omap switch_of] in *; by rewrite ?IH.
Qed.

(** A session is open exactly while the remote SIM was asked for last. *)
Lemma session_switch k up :
  session k up → last_switch k = Some up ∨ up = false ∧ last_switch k = None.
Proof.
  induction 1 as [|k atr Hs IH|k f Hs IH Hf|k Hs IH].
  - by right.
  - left. by rewrite last_switch_app.
  - left. rewrite last_switch_app. destruct IH as [IH|[? _]]; [|done].
    destruct f; try done; exact IH.
  - left. by rewrite last_switch_app.
Qed.

(** ** What the calls into the front end leave alone *)

Record keeps (o o' : openwrt_state) : Prop := {
  kp_bc : os_bc o' = os_bc o;
  kp_freed : host_freed o' = host_freed o;
  kp_sim : sim_switch_gpio o' = sim_switch_gpio o;
  kp_reset : modem_reset_gpio o' = modem_reset_gpio o;
  kp_rssi : last_rssi (os_stats o') = last_rssi (os_stats o);
  kp_registered : modem_fd_registered o' = modem_fd_registered o;
}.

#[export] Instance keeps_preorder : PreOrder keeps.
Proof. split; [by intros o; split|]. intros a b c [] []. split; congruence. Qed.

(** Every file of sysfs can be written. *)
Definition sysfs_works (e : ow_env) : Prop := ∀ log f, sysfs e log f = FileOk.

Section frontend.
Context `{OsmoLib, StreamCliLib, RsproCodec, IpaBtsLib, InetNtop, ClientBuild}.
Context (e : ow_env) (E : abort → Prop).

(** An operation on GPIOs writes [l] if sysfs works, and returns 0. *)
Definition gpio_op (m : M openwrt_state Z) (P : openwrt_state → list (gpio_file * bytes) → Prop) : Prop :=
  ∀ o Q, (∀ rc o', keeps o o' →
    (sysfs_works e → rc = 0 ∧ ∃ l, P o l ∧ gpio_log o' = gpio_log o ++ l) → Q rc o') → wpe E m o Q.

Lemma gpio_op_export g : gpio_op (gpio_export e g) (λ _ l, Forall (λ x, is_value x = false) l).
Proof.
  intros o Q HQ. unfold gpio_export, gpio_write. apply wp_bind, wp_gets.
  destruct (sysfs e (gpio_log o) GpioExport) eqn:Hs; wp_steps; apply HQ; try (by split);
    intros Hw; try (by rewrite Hw in Hs). split; [done|]. eexists. split; [|done]. by repeat constructor.
Qed.

Lemma gpio_op_direction g d : gpio_op (gpio_set_direction e g d) (λ _ l, Forall (λ x, is_value x = false) l).
Proof.
  intros o Q HQ. unfold gpio_set_direction, gpio_write. apply wp_bind, wp_gets.
  destruct (sysfs e (gpio_log o) _) eqn:Hs; wp_steps; apply HQ; try (by split);
    intros Hw; try (by rewrite Hw in Hs). split; [done|]. eexists. split; [|done]. by repeat constructor.
Qed.

Lemma gpio_op_value g (b : bool) :
  gpio_op (gpio_set_value e g (if b then 1 else 0)) (λ _ l, l = [(GpioValue g, level_bit b)]).
Proof.
  intros o Q HQ. unfold gpio_set_value, gpio_write. apply wp_bind, wp_gets.
  destruct (sysfs e (gpio_log o) _) eqn:Hs; wp_steps; apply HQ; try (by split);
    intros Hw; try (by rewrite Hw in Hs). split; [done|]. eexists. split; [done|]. by destruct b.
Qed.

(** Two operations, of which the first may end the sequence if it fails. *)
Lemma gpio_op_seq (m k : M openwrt_state Z) P P' (stop : Z → bool) :
  gpio_op m P → gpio_op k P' → stop 0 = false →
  (∀ o o' l, keeps o o' → P' o' l → P' o l) →
  gpio_op (rc ← m; if stop rc then mret rc else k) (λ o l, ∃ a b, P o a ∧ P' o b ∧ l = a ++ b).
Proof.
  intros Hm Hk Hstop HP o Q HQ. apply wp_bind, Hm. intros rc o1 K1 W1. destruct (stop rc) eqn:Hs.
  - apply wp_ret, HQ; [done|]. intros Hw. destruct (W1 Hw) as [-> _]. congruence.
  - apply Hk. intros rc' o2 K2 W2. apply HQ; [by etrans|]. intros Hw.
    destruct (W1 Hw) as (-> & a & Ha & L1), (W2 Hw) as (-> & b & Hb & L2). split; [done|].
    exists (a ++ b). split; [|by rewrite L2, L1, app_assoc]. exists a, b. split; [done|].
    split; [by eapply HP|done].
Qed.

Lemma gpio_op_mono m P P' : gpio_op m P → (∀ o l, P o l → P' o l) → gpio_op m P'.
Proof.
  intros Hm HP o Q HQ. apply Hm. intros rc o' K W. apply HQ; [done|]. intros Hw.
  destruct (W Hw) as (-> & l & Hl & Hlog). split; [done|]. exists l. auto.
Qed.

Abbreviation silent := (λ (_ : openwrt_state) l, Forall (λ x : gpio_file * bytes, is_value x = false) l).

Lemma gpio_op_all_seq (m k : M openwrt_state Z) (stop : Z → bool) (P : gpio_file * bytes → Prop) :
  gpio_op m (λ _, Forall P) → gpio_op k (λ _, Forall P) → stop 0 = false →
  gpio_op (rc ← m; if stop rc then mret rc else k) (λ _, Forall P).
Proof.
  intros Hm Hk Hs. eapply gpio_op_mono; [by eapply gpio_op_seq|].
  intros o l (a & b & Ha & Hb & ->). by apply Forall_app.
Qed.

Lemma gpio_op_done : gpio_op (modify (set_gpio_initialized true) ;; mret 0) silent.
Proof.
  intros o Q HQ. wp_steps. apply HQ; [by split|]. intros _. split; [done|]. exists [].
  split; [done|]. cbn. by rewrite app_nil_r.
Qed.

Lemma gpio_op_init : gpio_op (openwrt_gpio_init e) silent.
Proof.
  intros o Q HQ. unfold openwrt_gpio_init. apply wp_bind, wp_gets. cbn [id].
  destruct (gpio_initialized o).
  - apply wp_ret, HQ; [done|]. intros _. split; [done|]. exists []. by rewrite app_nil_r.
  - match goal with |- wpe _ ?m _ _ => enough (gpio_op m silent) as Hop by by apply Hop end.
    apply (gpio_op_all_seq _ _ (λ rc, (rc <? 0) && negb (rc =? Z.neg EBUSY))); [apply gpio_op_export| |done].
    apply (gpio_op_all_seq _ _ (λ rc, rc <? 0)); [apply gpio_op_direction| |done].
    apply (gpio_op_all_seq _ _ (λ rc, (rc <? 0) && negb (rc =? Z.neg EBUSY))); [apply gpio_op_export| |done].
    apply (gpio_op_all_seq _ _ (λ rc, rc <? 0)); [apply gpio_op_direction|apply gpio_op_done|done].
Qed.

Lemma gpio_op_switch (b : bool) :
  gpio_op (switch_sim e (if b then 1 else 0))
    (λ o l, ∃ a, Forall (λ x, is_value x = false) a ∧ l = a ++ [(GpioValue (sim_switch_gpio o), level_bit b)]).
Proof.
  eapply gpio_op_mono; [eapply (gpio_op_seq _ _ _ (λ o l, l = [(GpioValue (sim_switch_gpio o), level_bit b)])
    (λ rc, rc <? 0))|].
  - apply gpio_op_init.
  - intros o Q HQ. apply wp_bind, wp_modify, wp_bind, wp_gets. apply gpio_op_value. intros rc o' K W.
    apply HQ; [etrans; [|exact K]; by split|exact W].
  - done.
  - intros o o' l K ->. by rewrite (kp_sim _ _ K).
  - intros o l (a & c & Ha & -> & ->). by exists a.
Qed.

(** The levels that are set are those of the GPIO [g]. *)
Definition only_gpio (g : Z) (x : gpio_file * bytes) : Prop := is_value x = true → x.1 = GpioValue g.

Lemma gpio_op_reset :
  gpio_op (ow_request_modem_reset e) (λ o, Forall (only_gpio (modem_reset_gpio o))).
Proof.
  eapply gpio_op_mono; [eapply (gpio_op_seq _ _ _ (λ o, Forall (only_gpio (modem_reset_gpio o)))
    (λ rc, rc <? 0))|].
  - apply gpio_op_init.
  - intros o Q HQ. apply wp_bind, wp_gets. match goal with |- wpe _ ?m _ _ =>
      enough (gpio_op m (λ _, Forall (only_gpio (modem_reset_gpio o)))) as Hop by by apply Hop end.
    assert (∀ b, gpio_op (gpio_set_value e (modem_reset_gpio o) (if b : bool then 1 else 0))
      (λ _, Forall (only_gpio (modem_reset_gpio o)))) as Hv.
    { intros b. eapply gpio_op_mono; [apply gpio_op_value|]. intros _ l ->. by repeat constructor. }
    apply (gpio_op_all_seq _ _ (λ rc, rc <? 0)); [apply (Hv true)| |done].
    apply (gpio_op_all_seq _ _ (λ rc, rc <? 0)); [apply (Hv false)| |done].
    intros o1 Q1 HQ1. apply wp_ret, HQ1; [done|]. intros _. split; [done|]. exists []. by rewrite app_nil_r.
  - done.
  - intros o o' l K. by rewrite (kp_reset _ _ K).
  - intros o l (a & c & Ha & Hc & ->). apply Forall_app. split; [|done].
    eapply Forall_impl; [exact Ha|]. intros x Hx Hv. congruence.
Qed.

(** A call into the front end. *)
Definition moves (o : openwrt_state) (sw : option bool) (o' : openwrt_state) : Prop :=
  sysfs_works e → sim_switch_gpio o ≠ modem_reset_gpio o →
  gpio_level (sim_switch_gpio o) (gpio_log o') =
    match sw with Some b => Some (level_bit b) | None => gpio_level (sim_switch_gpio o) (gpio_log o) end.

Lemma moves_log o o' : gpio_log o' = gpio_log o → moves o None o'.
Proof. intros Hl _ _. by rewrite Hl. Qed.

Lemma write_loop_ends ws rest : write_loop false ws rest ≠ None.
Proof.
  revert rest. induction ws as [|[n| |errno] ws IH]; intros [|b rest]; cbn [write_loop]; try done.
  - specialize (IH (drop n (b :: rest))). by destruct (write_loop false ws _) as [[]|].
Qed.

Lemma wp_send_tpdu data o Q :
  (modem_blocked e = true → E ANoFuel) → (∀ rc o', keeps o o' → gpio_log o' = gpio_log o → Q rc o') → wpe E (openwrt_send_tpdu_to_modem e data) o Q.
Proof.
  intros HE HQ. unfold openwrt_send_tpdu_to_modem. apply wp_bind, wp_gets.
  destruct (negb _); [by apply wp_ret, HQ|].
  destruct (bin_to_hex_str data); [|by apply wp_ret, HQ].
  destruct (_ <=? _)%nat; [by apply wp_ret, HQ|].
  destruct (write_loop _ _ _) as [[w err]|] eqn:Hw; [wp_steps; by apply HQ|].
  apply wp_nofuel, HE. destruct (modem_blocked e); [done|]. by apply write_loop_ends in Hw.
Qed.

Definition is_tpdu (f : frontend_call) : Prop :=
  match f with frontend_handle_card2modem _ => True | _ => False end.

Lemma wp_ow_frontend f o (Q : () → openwrt_state → Prop) :
  (is_tpdu f → modem_blocked e = true → E ANoFuel) → (∀ o', keeps o o' → moves o (switch_of f) o' → Q () o') → wpe E (ow_frontend e f) o Q.
Proof.
  intros HE HQ.
  assert (∀ b, wpe E (switch_sim e (if b : bool then 1 else 0)) o (λ _ o', keeps o o' ∧ moves o (Some b) o')) as Hsw.
  { intros b. apply gpio_op_switch. intros rc o' K W. split; [done|]. intros Hw Hne.
    destruct (W Hw) as (_ & l & (a & Ha & ->) & ->). rewrite !level_app.
    unfold gpio_level at 1. cbn [omap list_omap fst snd]. by rewrite decide_True by done. }
  assert (∀ b, switch_of f = Some b → wpe E (switch_sim e (if b : bool then 1 else 0) ;; mret ()) o Q) as Hswitch.
  { intros b Hf. apply wp_bind. eapply wp_mono; [apply (Hsw b)|]. intros rc o' [K Mv]. apply wp_ret, HQ; [done|].
    by rewrite Hf. }
  destruct f; cbn [ow_frontend]; try (by apply wp_ret, HQ; [|apply moves_log]).
  - by apply (Hswitch true).
  - by apply (Hswitch false).
  - by apply (Hswitch true).
  - by apply (Hswitch false).
  - apply wp_bind, gpio_op_reset. intros rc o' K W. apply wp_ret, HQ; [done|]. intros Hw Hne.
    destruct (W Hw) as (_ & l & Hl & ->). rewrite level_app. cbn [switch_of]. rewrite (level_none _ l); [done|].
    eapply Forall_impl; [exact Hl|]. intros [[| |g] d] Hx; try done. specialize (Hx eq_refl). cbn in Hx |- *. congruence.
  - apply wp_bind. unfold ow_handle_card2modem. apply wp_bind, wp_send_tpdu; [by apply HE|]. intros rc o' K Hl.
    apply wp_bind. destruct (rc =? 0); apply wp_modify, wp_ret, wp_ret, HQ;
      first [by apply moves_log|etrans; [exact K|by split]].
  - apply wp_bind. unfold ow_handle_set_atr. destruct (_ <? _)%nat; [by apply wp_ret, wp_ret, HQ; [|apply moves_log]|].
    apply wp_bind, wp_modify, wp_ret, wp_ret, HQ; [by split|by apply moves_log].
Qed.

Lemma wp_ow_frontends calls o (Q : () → openwrt_state → Prop) :
  (Exists is_tpdu calls → modem_blocked e = true → E ANoFuel) → (∀ o', keeps o o' → moves o (last_switch calls) o' → Q () o') → wpe E (for_each (ow_frontend e) calls) o Q.
Proof.
  revert o. induction calls as [|f calls IH]; intros o HE HQ; cbn [for_each]; [by apply wp_ret, HQ; [|apply moves_log]|].
  apply wp_bind, wp_ow_frontend; [intros Hf; apply HE; by left|]. intros o1 K1 M1.
  apply IH; [intros Hf; apply HE; by right|]. intros o2 K2 M2. apply HQ; [by etrans|].
  intros Hw Hne. specialize (M1 Hw Hne). unfold moves in M2. rewrite (kp_sim _ _ K1), (kp_reset _ _ K1) in M2.
  rewrite (M2 Hw Hne). change (f :: calls) with ([f] ++ calls). rewrite last_switch_app.
  destruct (last_switch calls); [done|].
  rewrite M1. by destruct f.
Qed.
End frontend.

(** ** Runs *)

Definition ow_possible (o : openwrt_state) (v : ow_event) : Prop :=
  match v with
  | OwServer v => ce_possible (os_bc o) (CeServer v)
  | OwBankd v => ce_possible (os_bc o) (CeBankd v)
  | OwModem _ => True
  | OwTimer => is_Some (signal_timer o)
  end.

(** The signal strength that is stored, and reported once the modem has answered a
    query: 0 as long as no answer told a strength, then from -113 dBm to -51 dBm in
    steps of 2. *)
Definition rssi_ok (o : openwrt_state) : Prop :=
  let r := last_rssi (os_stats o) in r = 0 ∨ ∃ k, 0 ≤ k ≤ 31 ∧ r = - 113 + 2 * k.

Record ow_inv (t : Z) (o : openwrt_state) : Prop := {
  oi_time : 0 ≤ t;
  oi_client : client_inv t (os_bc o);
  oi_rssi : rssi_ok o;
}.

(** The SIM switch is where the last call into the front end put it; it is not
    on the remote SIM before. *)
Definition switch_ok (o : openwrt_state) : Prop :=
  match last_switch (frontend_log (os_bc o)) with
  | Some b => gpio_level (sim_switch_gpio o) (gpio_log o) = Some (level_bit b)
  | None => gpio_level (sim_switch_gpio o) (gpio_log o) ≠ Some (level_bit true)
  end.

Section runs.
Context `{OsmoLib, StreamCliLib, RsproCodec, IpaBtsLib, InetNtop, ClientBuild}.

(** [ow_run C t o]: the program can be in [o] at time [t], after events in which
    the system satisfies [C]. *)
Inductive ow_run (C : ow_env → Prop) : Z → openwrt_state → Prop :=
| owr_start t bc usb e st o :
    client_reachable t bc → frontend_log bc = [] →
    openwrt_user_main e st (openwrt_zero usb bc (time_now e)) = Done ((), o) → ow_run C t o
| owr_event t e v o o' :
    ow_run C t o → t ≤ get_monotonic_ms (ow_srvc e) → ow_possible o v → C e →
    run_ow_event e v o = Done ((), o') → ow_run C (get_monotonic_ms (ow_srvc e)) o'.

(** The ways in which an event can end the program. *)
Definition ow_abort (e : ow_env) (o : openwrt_state) (v : ow_event) (a : abort) : Prop :=
  match v with
  | OwServer v => ce_abort (ow_srvc e) (os_bc o) (CeServer v) a ∨ a = AUndef ∧ host_freed o = true
  | OwBankd v => ce_abort (ow_srvc e) (os_bc o) (CeBankd v) a
  | _ => False
  end.

(** The event of the client calls the front end with a TPDU for the modem. *)
Definition relays (e : ow_env) (o : openwrt_state) (v : client_event) : Prop :=
  ∃ bc', run_client_event (ow_srvc e) v (os_bc o) = Done ((), bc') ∧
    Exists is_tpdu (drop (length (frontend_log (os_bc o))) (frontend_log bc')).

(** The ways in which an event can go on for ever: a TPDU is written to a modem that
    is blocked. *)
Definition ow_spins (e : ow_env) (o : openwrt_state) (v : ow_event) : Prop :=
  modem_blocked e = true ∧
  match v with
  | OwServer v => relays e o (CeServer v)
  | OwBankd v => relays e o (CeBankd v)
  | _ => False
  end.

Section event.
Context (e : ow_env) (E : abort → Prop).
Abbreviation now := (get_monotonic_ms (ow_srvc e)).

(** What an event of the client does: the calls it makes move the switch. *)
Record client_done (v : client_event) (o o' : openwrt_state) : Prop := {
  cd_client : run_client_event (ow_srvc e) v (os_bc o) = Done ((), os_bc o');
  cd_keeps : keeps (set_os_bc (os_bc o') o) o';
  cd_moves : ∃ calls, frontend_log (os_bc o') = frontend_log (os_bc o) ++ calls ∧
    moves e o (last_switch calls) o';
}.

Lemma wp_ow_client v o (Q : () → openwrt_state → Prop) :
  client_inv now (os_bc o) → 0 ≤ now → ce_possible (os_bc o) v →
  (∀ a, ce_abort (ow_srvc e) (os_bc o) v a → E a) →
  (∀ w, v = CeServer w → host_freed o = true → E AUndef) →
  (relays e o v → modem_blocked e = true → E ANoFuel) →
  (∀ o', client_inv now (os_bc o') → client_done v o o' → Q () o') → wpe E (ow_client e v) o Q.
Proof.
  intros Hinv Hnow Hpos Hab Hfr Hsp HQ. unfold ow_client. apply wp_bind, wp_gets, wp_bind.
  assert (wpe E (n ← gets (λ o, length (frontend_log (os_bc o)));
    zoom os_bc set_os_bc (run_client_event (ow_srvc e) v) ;;
    calls ← gets (λ o, drop n (frontend_log (os_bc o))); for_each (ow_frontend e) calls) o Q) as Hrun.
  { apply wp_bind, wp_gets, wp_bind, wp_zoom.
    assert (wpe E (run_client_event (ow_srvc e) v) (os_bc o) (λ _ bc', client_inv now bc' ∧
      run_client_event (ow_srvc e) v (os_bc o) = Done ((), bc'))) as Hev.
    { apply wpe_outcome.
      assert (wpe E (run_client_event (ow_srvc e) v) (os_bc o) (λ _ bc', client_inv now bc')) as Hwp
        by (by apply wp_client_event).
      rewrite wpe_outcome in Hwp. by destruct (run_client_event _ _ _) as [[[] bc']| | |]. }
    eapply wp_mono; [exact Hev|]. intros [] bc' [Hinv' Hr].
    destruct (client_log_grows _ _ _ _ Hr) as [calls Hlog]. apply wp_bind, wp_gets. cbn [os_bc set_os_bc].
    rewrite Hlog, drop_app_length. apply wp_ow_frontends.
    { intros Hc. apply Hsp. exists bc'. by rewrite Hlog, drop_app_length. }
    intros o' K Mv. pose proof (kp_bc _ _ K) as Hbc. cbn in Hbc.
    apply HQ; [by rewrite Hbc|]. split; rewrite Hbc; [done|done|].
    exists calls. split; [done|]. exact Mv. }
  destruct v as [|w|w| | |]; try exact Hrun. destruct (host_freed o) eqn:Hf; [|exact Hrun].
  apply wp_undef. by eapply Hfr.
Qed.

Lemma wp_csq r o (Q : () → openwrt_state → Prop) :
  rssi_ok o →
  (∀ o', os_bc o' = os_bc o → host_freed o' = host_freed o → sim_switch_gpio o' = sim_switch_gpio o →
     modem_reset_gpio o' = modem_reset_gpio o → gpio_log o' = gpio_log o → rssi_ok o' → Q () o') →
  wpe E (openwrt_parse_csq_response e r) o Q.
Proof.
  intros Hr HQ. unfold openwrt_parse_csq_response.
  destruct (sscanf _ _) as [|[|rssi] [|[|ber] []]]; try (by apply wp_ret, HQ).
  apply wp_bind, wp_gets, wp_modify, HQ; try done. unfold rssi_ok in *. cbn.
  destruct (Z.leb_spec 0 rssi); [|exact Hr]. destruct (Z.leb_spec rssi 31); [|exact Hr].
  cbn [andb]. right. exists rssi. lia.
Qed.

(** A state that differs from another only in what the events of the modem change. *)
Definition same_switch (o o' : openwrt_state) : Prop :=
  sim_switch_gpio o' = sim_switch_gpio o ∧ modem_reset_gpio o' = modem_reset_gpio o ∧
  host_freed o' = host_freed o.

Lemma client_done_switch v o o' :
  client_done v o o' → rssi_ok o → rssi_ok o' ∧ same_switch o o' ∧
    (sysfs_works e → sim_switch_gpio o ≠ modem_reset_gpio o → switch_ok o → switch_ok o').
Proof.
  intros [_ [Hbc Hfr Hs Hre Hrs _] (calls & Hlog & Hmv)] Hr. cbn in *. split; [|split; [done|]].
  - unfold rssi_ok. by rewrite Hrs.
  - intros Hw Hne Hok. unfold switch_ok in *. rewrite Hlog, Hs, last_switch_app, (Hmv Hw Hne).
    by destruct (last_switch calls).
Qed.

(** Every event keeps the invariant and leaves the switch where the calls put it. *)
Lemma wp_ow_event v o (Q : () → openwrt_state → Prop) :
  client_inv now (os_bc o) → rssi_ok o → 0 ≤ now → ow_possible o v →
  (∀ a, ow_abort e o v a → E a) → (ow_spins e o v → E ANoFuel) →
  (∀ o', client_inv now (os_bc o') → rssi_ok o' → same_switch o o' →
     (sysfs_works e → sim_switch_gpio o ≠ modem_reset_gpio o → switch_ok o → switch_ok o') → Q () o') →
  wpe E (run_ow_event e v) o Q.
Proof.
  intros Hinv Hr Hnow Hpos Hab Hsp HQ. destruct v as [v|v|input|]; cbn [run_ow_event].
  - apply wp_ow_client; [done|done|exact Hpos|intros a Ha; apply Hab; by left|
      intros w _ Hf; apply Hab; by right|intros ? ?; by apply Hsp|].
    intros o' Hi' Hd. destruct (client_done_switch _ _ _ Hd Hr) as (? & ? & ?). by apply HQ.
  - apply wp_ow_client; [done|done|exact Hpos|exact Hab|done|intros ? ?; by apply Hsp|].
    intros o' Hi' Hd. destruct (client_done_switch _ _ _ Hd Hr) as (? & ? & ?). by apply HQ.
  - destruct input as [[|b avail]|]; [by apply wp_ret, HQ| |by apply wp_ret, HQ].
    cbn [modem_fd_cb]. set (buf := c_str _). apply wp_bind.
    assert (∀ o1, os_bc o1 = os_bc o → same_switch o o1 → gpio_log o1 = gpio_log o → rssi_ok o1 →
      wpe E match strstr (str_octets "+CSIM:") buf with Some csim => handle_csim e csim | None => mret () end
        o1 Q) as Hcsim.
    { intros o1 Hbc (Hs & Hre & Hf) Hlog Hr1.
      assert (Q () o1) as HQ1.
      { apply HQ; [by rewrite Hbc|done|done|]. intros _ _. unfold switch_ok. by rewrite Hbc, Hs, Hlog. }
      destruct (strstr _ _) as [csim|]; [|by apply wp_ret]. unfold handle_csim.
      destruct (sscanf _ _) as [|[|n] [|[hex|] []]]; try (by apply wp_ret).
      destruct (hex_str_to_bin hex 512) as [rc|[|d apdu]]; try (by apply wp_ret).
      apply wp_bind, wp_modify. apply wp_ow_client; [cbn; by rewrite Hbc|done|done|done|done| |].
      { intros (bc' & Hrun & Hc) _. cbn [os_bc set_os_stats] in Hrun, Hc. rewrite Hbc in Hrun, Hc.
        destruct (modem_tpdu_event (ow_srvc e) (os_bc o) (d :: apdu) Hinv) as (slot & _ & Htp).
        rewrite Htp in Hrun. injection Hrun as <-. cbn in Hc. rewrite drop_all in Hc. by inversion Hc. }
      intros o' Hi' Hd. destruct (client_done_switch _ _ _ Hd Hr1) as (Hr' & (Hs' & Hre' & Hf') & Hsw).
      cbn in Hs', Hre', Hf', Hsw. apply HQ; [done|done|split; [|split]; congruence|].
      intros Hw Hne Hok. apply Hsw; [done|congruence|]. unfold switch_ok in *. cbn. by rewrite Hbc, Hs, Hlog. }
    destruct (strstr (str_octets "+CSQ:") buf) as [csq|].
    + apply wp_csq; [done|]. intros o' ? ? ? ? ? ?. by apply Hcsim.
    + apply wp_ret. by apply Hcsim.
  - assert (∀ o', os_bc o' = os_bc o → same_switch o o' → gpio_log o' = gpio_log o →
      last_rssi (os_stats o') = last_rssi (os_stats o) → Q () o') as HQ'.
    { intros o' Hbc (Hs & Hre & Hf) Hlog Hrs. apply HQ; [by rewrite Hbc|unfold rssi_ok; by rewrite Hrs|done|].
      intros _ _. unfold switch_ok. by rewrite Hbc, Hs, Hlog. }
    unfold openwrt_signal_timer_cb, openwrt_query_signal_strength.
    apply wp_bind, wp_modify, wp_bind, wp_gets. destruct (negb _); [by apply wp_ret, HQ'|].
    apply wp_bind, wp_bind, wp_gets.
    destruct (negb _); [|destruct (modem_writes e) as [|[]]; [destruct (modem_blocked e)|..]]; wp_steps; by apply HQ'.
Qed.
End event.

(** ** The start *)

(** Only GPIO 3, the power of the modems, is set to 1 at the start. *)
Definition start_write (x : gpio_file * bytes) : Prop :=
  is_value x = true → x.2 = level_bit true → x.1 = GpioValue 3.

Record started (t : Z) (o : openwrt_state) : Prop := {
  sd_client : client_inv t (os_bc o);
  sd_log : frontend_log (os_bc o) = [];
  sd_rssi : last_rssi (os_stats o) = 0;
  sd_gpio : Forall start_write (gpio_log o);
}.

Section start.
Context (e : ow_env) (st : ow_start) (t : Z).

(** A computation of the start. *)
Definition starts {A} (m : M openwrt_state A) : Prop := ∀ o, started t o → wp m o (λ _, started t).

Lemma starts_ret {A} (a : A) : starts (mret a).
Proof. intros o Ho. by apply wp_ret. Qed.

Lemma starts_bind {A B} (m : M openwrt_state A) (f : A → M openwrt_state B) :
  starts m → (∀ a, starts (f a)) → starts (m ≫= f).
Proof. intros Hm Hf o Ho. apply wp_bind. eapply wp_mono; [by apply Hm|]. intros a o'. apply Hf. Qed.

Lemma starts_gets {A} (f : openwrt_state → A) : starts (gets f).
Proof. intros o Ho. by apply wp_gets. Qed.

Lemma starts_modify f :
  (∀ o, os_bc (f o) = os_bc o ∧ os_stats (f o) = os_stats o ∧ gpio_log (f o) = gpio_log o) → starts (modify f).
Proof.
  intros Hf o []. destruct (Hf o) as (H1' & H2' & H3'). apply wp_modify. split; by rewrite ?H1', ?H2', ?H3'.
Qed.

Lemma starts_write f d : start_write (f, d) → starts (gpio_write f d).
Proof.
  intros Hx o []. apply wp_modify. split; try done. cbn. apply Forall_app. split; [done|]. by repeat constructor.
Qed.

Lemma starts_export g : starts (gpio_export e g).
Proof.
  unfold gpio_export. apply starts_bind; [apply starts_gets|intros log].
  destruct (sysfs _ _ _); try apply starts_ret. apply starts_bind; [by apply starts_write|intros; apply starts_ret].
Qed.

Lemma starts_direction g d : starts (gpio_set_direction e g d).
Proof.
  unfold gpio_set_direction. apply starts_bind; [apply starts_gets|intros log].
  destruct (sysfs _ _ _); try apply starts_ret. apply starts_bind; [by apply starts_write|intros; apply starts_ret].
Qed.

Lemma starts_value g (b : bool) : (b = true → g = 3) → starts (gpio_set_value e g (if b then 1 else 0)).
Proof.
  intros Hg. unfold gpio_set_value. apply starts_bind; [apply starts_gets|intros log].
  destruct (sysfs _ _ _); try apply starts_ret.
  apply starts_bind; [apply starts_write|intros; apply starts_ret]. intros _ Hb. cbn in *.
  destruct b; [by rewrite Hg|done].
Qed.

Lemma starts_when b (m : M openwrt_state ()) : starts m → starts (when b m).
Proof. intros Hm. destruct b; [done|apply starts_ret]. Qed.

Lemma starts_config : starts (config_signal st ;; config_modems st).
Proof.
  unfold config_signal, config_modems. apply starts_bind; [|intros _].
  - destruct (os_getenv st _); (apply starts_bind; [|intros _]); by apply starts_modify.
  - case_bool_decide; repeat (apply starts_bind; [|intros _]); apply starts_modify; try done;
      intros o; by destruct (device_path _) || by destruct (usb_path _).
Qed.

(** Follows the structure of the start. *)
Ltac starts_tac :=
  repeat first
    [ apply starts_export | apply starts_direction | apply starts_ret | apply starts_gets
    | by apply (starts_value _ true) | by apply (starts_value _ false)
    | by (apply starts_modify; intros ?; repeat case_match)
    | apply starts_bind; [|intros ?] | apply starts_when
    | match goal with |- starts (match ?x with _ => _ end) => destruct x end ].

Lemma starts_zbt : starts (apply_zbt_z8102ax_config e st).
Proof. unfold apply_zbt_z8102ax_config. starts_tac. Qed.

Lemma starts_open : starts (openwrt_open_modem_device st).
Proof. unfold openwrt_open_modem_device. starts_tac. Qed.

Lemma starts_init_modem : starts (openwrt_init_modem e st).
Proof.
  unfold openwrt_init_modem. repeat first [apply starts_open|progress starts_tac].
Qed.

Lemma starts_assignment a : starts (apply_assignment a).
Proof.
  unfold apply_assignment. apply starts_bind; [by apply starts_modify|intros _].
  intros o [Hc Hl Hr Hg]. apply wp_zoom. unfold remsim_client_set_clslot, srvc_upd.
  apply wp_bind, wp_modify, wp_bind, wp_modify, wp_modify.
  destruct Hc as [Hs Hb [sl Hsl] Hm]. split; try done. cbn. split; cbn.
  - by apply conn_inv_cfg.
  - by apply conn_inv_cfg.
  - by eexists.
  - exact Hm.
Qed.

Lemma starts_ionmesh : starts (start_ionmesh st).
Proof.
  unfold start_ionmesh. apply starts_bind; [apply starts_gets|intros cfg].
  destruct (event_script cfg) as [script|]; [|apply starts_ret].
  destruct (contains _ _); [|apply starts_ret].
  destruct (ionmesh_register_client _ _ _) as [[rc reqs] a].
  apply starts_bind; [by apply starts_modify|intros _]. apply starts_bind; [by apply starts_modify|intros _].
  destruct (rc <? 0); [by apply starts_modify|].
  apply starts_bind; [by apply starts_modify|intros _]. apply starts_assignment.
Qed.

Lemma starts_main : starts (openwrt_user_main e st).
Proof.
  unfold openwrt_user_main. intros o Ho.
  apply (wp_eq _ ((config_signal st ;; config_modems st) ;; when (is_zbt_z8102ax st) (apply_zbt_z8102ax_config e st) ;;
    openwrt_init_modem e st ;; start_ionmesh st ;; o ← gets id;
    when (signal_monitoring_enabled o && (0 <? signal_check_interval o))
      (modify (set_signal_timer (Some (signal_check_interval o)))))).
  { unfold mbind, M_bind. by destruct (config_signal st o) as [[[] ?]| | |]. }
  revert o Ho. apply starts_bind; [apply starts_config|intros _].
  apply starts_bind; [apply starts_when, starts_zbt|intros _].
  apply starts_bind; [apply starts_init_modem|intros _]. apply starts_bind; [apply starts_ionmesh|intros _].
  apply starts_bind; [apply starts_gets|intros o]. apply starts_when. by apply starts_modify.
Qed.
End start.

Lemma start_level g log : Forall start_write log → g ≠ 3 → gpio_level g log ≠ Some (level_bit true).
Proof.
  intros Hl Hg Hx. unfold gpio_level in Hx. apply last_Some_elem_of, list_elem_of_omap in Hx as ([f d] & Hin & Hd).
  cbn in Hd. case_decide as Hf; [|done]. injection Hd as ->. rewrite Forall_forall in Hl.
  specialize (Hl _ Hin). unfold start_write, is_value in Hl. cbn in Hl. rewrite Hf in Hl.
  specialize (Hl eq_refl eq_refl). congruence.
Qed.

Lemma ow_run_inv C t o : ow_run C t o → ow_inv t o.
Proof.
  induction 1 as [t bc usb e st o Hr Hlog Hrun|t e v o o' Hr [Ht0 Hc Hrs] Ht Hpos HC Hrun].
  - destruct (client_inv_reachable _ _ Hr) as [Ht0 Hinv].
    assert (started t o) as [Hc _ Hrs _].
    { refine (wp_done_inv _ _ (λ _, started t) _ _ _ Hrun). apply starts_main. by split. }
    split; [done|done|]. by left.
  - assert (wlp (run_ow_event e v) o (λ _ o', client_inv (get_monotonic_ms (ow_srvc e)) (os_bc o') ∧ rssi_ok o')) as Hwp.
    { apply wp_ow_event; [by eapply client_inv_later|done|lia|done|done|done|]. intros. done. }
    destruct (wp_done_inv _ _ _ _ _ Hwp Hrun) as [Hc' Hrs']. split; [lia|done|done].
Qed.

Lemma ow_run_switch t o :
  ow_run sysfs_works t o → sim_switch_gpio o ≠ modem_reset_gpio o → sim_switch_gpio o ≠ 3 → switch_ok o.
Proof.
  induction 1 as [t bc usb e st o Hr Hlog Hrun|t e v o o' Hr IH Ht Hpos HC Hrun]; intros Hne Hn3.
  - destruct (client_inv_reachable _ _ Hr) as [Ht0 Hinv].
    assert (started t o) as [_ Hl _ Hg].
    { refine (wp_done_inv _ _ (λ _, started t) _ _ _ Hrun). apply starts_main. by split. }
    unfold switch_ok. rewrite Hl. by apply start_level.
  - destruct (ow_run_inv _ _ _ Hr) as [Ht0 Hc Hrs].
    assert (wlp (run_ow_event e v) o (λ _ o', same_switch o o' ∧
      (sysfs_works e → sim_switch_gpio o ≠ modem_reset_gpio o → switch_ok o → switch_ok o'))) as Hwp.
    { apply wp_ow_event; [by eapply client_inv_later|done|lia|done|done|done|]. intros. done. }
    destruct (wp_done_inv _ _ _ _ _ Hwp Hrun) as [(Hs & Hre & _) Hsw].
    apply Hsw; [done|congruence|]. apply IH; congruence.
Qed.

(** C34. As long as the files of sysfs can be written (and the GPIOs of the SIM switch,
    the reset and the power of the modems differ), the modem is switched to the
    remote SIM exactly while the client is OPERATIONAL, that is, while its
    bankd connection is up. *)
Theorem sim_follows_session t o fi :
  ow_run sysfs_works t o → sim_switch_gpio o ≠ modem_reset_gpio o → sim_switch_gpio o ≠ 3 →
  main_fi (os_bc o) = Some fi →
  (gpio_level (sim_switch_gpio o) (gpio_log o) = Some (level_bit true) ↔ fi_state fi = MF_ST_OPERATIONAL) ∧
  (fi_state fi = MF_ST_OPERATIONAL ↔ connected (bankd_conn (os_bc o)) = true).
Proof.
  intros Hr Hne Hn3 Hfi. pose proof (ow_run_switch _ _ Hr Hne Hn3) as Hok.
  destruct (ow_run_inv _ _ _ Hr) as [_ Hc _]. pose proof Hc as [_ _ _ (fi' & Hfi' & _ & _ & Hs)].
  rewrite Hfi in Hfi'. injection Hfi' as <-. rewrite (connected_operational _ _ _ Hc Hfi).
  assert (fi_state fi = MF_ST_OPERATIONAL ↔ operational (fi_state fi) = true) as Hop
    by (unfold operational; by rewrite bool_decide_eq_true).
  split; [|done]. rewrite Hop. clear Hop. unfold switch_ok in Hok.
  rewrite <-last_switch_frontend in Hok. apply session_switch in Hs.
  destruct (operational (fi_state fi)).
  - destruct Hs as [Hs|[? _]]; [|done]. by rewrite Hs in Hok.
  - destruct Hs as [Hs|[_ Hs]]; rewrite Hs in Hok; [rewrite Hok; by split|by split].
Qed.

End runs.

(** ** AT commands *)

Definition hex_of (d : octets) : bytes := mjoin (map hex2 d).

Lemma hex_of_length d : length (hex_of d) = (2 * length d)%nat.
Proof.
  induction d as [|b d IH]; [done|]. change (hex_of (b :: d)) with (hex2 b ++ hex_of d).
  rewrite length_app, IH. change (length (hex2 b)) with 2%nat. cbn [length]. lia.
Qed.



Lemma hex_pairs_print d : Forall is_byte d → hex_pairs (length d) (hex_of d) = Some d.
Proof.
  induction 1 as [|b d Hb Hd IH]; [done|]. cbn [length hex_pairs].
  change (hex_of (b :: d)) with (hex2 b ++ hex_of d). rewrite scan_hex2_print by exact Hb. cbn [mbind option_bind].
  change (drop 2 (hex2 b ++ hex_of d)) with (hex_of d). by rewrite IH.
Qed.

Lemma hex_str_print d n : Forall is_byte d → (length d ≤ n)%nat → hex_str_to_bin (hex_of d) n = inr d.
Proof.
  intros Hd Hn. unfold hex_str_to_bin. rewrite hex_of_length, Nat.even_even, Nat.div2_double. cbn [negb].
  destruct (Nat.ltb_spec n (length d)); [lia|]. by rewrite hex_pairs_print.
Qed.

Lemma at_csim_length d : (length (at_csim (hex_of d) (Z.of_nat (length d))) ≤ 33 + 2 * length d)%nat.
Proof.
  unfold at_csim. rewrite !length_app, hex_of_length. pose proof (dec_length (Z.of_nat (length d) * 2)).
  change (length (str_octets "AT+CSIM=")) with 8%nat. cbn [length]. lia.
Qed.

(** The digits of a TPDU of at most 512 bytes are read back as the TPDU, and its
    AT command is never too long for its buffer; a longer TPDU has no digits; and
    whatever digits are read, the bytes fit into the buffer. *)
Theorem hex_roundtrip d :
  Forall is_byte d →
  ((length d ≤ 512)%nat → ∃ hex, bin_to_hex_str d = Some hex ∧ hex_str_to_bin hex 512 = inr d ∧
     (length (at_csim hex (Z.of_nat (length d))) < AT_CMD_SIZE)%nat) ∧
  ((512 < length d)%nat → bin_to_hex_str d = None) ∧
  (∀ s n d', hex_str_to_bin s n = inr d' → (length d' ≤ n)%nat ∧ length s = (2 * length d')%nat).
Proof.
  intros Hd. unfold bin_to_hex_str. split; [|split].
  - intros Hl. destruct (Nat.ltb_spec 512 (length d)); [lia|]. exists (hex_of d). split; [done|].
    split; [by apply hex_str_print|]. pose proof (at_csim_length d). unfold AT_CMD_SIZE. lia.
  - intros Hl. by destruct (Nat.ltb_spec 512 (length d)); [|lia].
  - intros s n d' Hs. unfold hex_str_to_bin in Hs. destruct (Nat.even (length s)) eqn:Hev; [|done]. cbn [negb] in Hs.
    destruct (Nat.ltb_spec n (Nat.div2 (length s))); [done|].
    destruct (hex_pairs _ s) as [d0|] eqn:Hp; [|done]. injection Hs as <-.
    assert (∀ k s d, hex_pairs k s = Some d → length d = k) as Hlen.
    { clear. induction k as [|k IH]; intros s d Hp; cbn in Hp; [by injection Hp as <-|].
      destruct (scan_hex2 s) as [[b r]|]; [|done]. cbn in Hp.
      destruct (hex_pairs k (drop 2 s)) as [l|] eqn:Hl; [|done]. injection Hp as <-. cbn. by erewrite IH. }
    rewrite (Hlen _ _ _ Hp). split; [done|]. apply Nat.even_spec in Hev as [k Hk]. rewrite Hk, Nat.div2_double. done.
Qed.

(** ** TPDUs through the modem *)












Section relay.
Context `{OsmoLib, StreamCliLib, RsproCodec, IpaBtsLib, InetNtop, ClientBuild}.



End relay.

(** ** What the start makes of its configuration *)

Lemma steps_wlp {S A} (R : S → S → Prop) (m : M S A) s (Q : A → S → Prop) :
  steps R m → (∀ a s', R s s' → Q a s') → wlp m s Q.
Proof.
  intros Hm HQ. apply wpe_outcome. destruct (m s) as [[a s']| | |] eqn:Hrun; try done.
  by eapply HQ, Hm.
Qed.

Section start_props.
Context `{OsmoLib, StreamCliLib, RsproCodec, IpaBtsLib, InetNtop, ClientBuild}.
Context (e : ow_env) (st : ow_start).

(** The modem and the client are as they were. *)
Definition same_modem (o o' : openwrt_state) : Prop :=
  modem_device o' = modem_device o ∧ modem_fd_registered o' = modem_fd_registered o ∧
  dual_modem_mode o' = dual_modem_mode o.

Definition same_client (o o' : openwrt_state) : Prop :=
  os_bc o' = os_bc o ∧ host_freed o' = host_freed o ∧ use_ionmesh o' = use_ionmesh o.

#[local] Instance same_modem_preorder : PreOrder same_modem.
Proof. split; [done|]. intros a b c (? & ? & ?) (? & ? & ?). repeat split; congruence. Qed.
#[local] Instance same_client_preorder : PreOrder same_client.
Proof. split; [done|]. intros a b c (? & ? & ?) (? & ? & ?). repeat split; congruence. Qed.
#[local] Hint Resolve same_modem_preorder same_client_preorder : steps.

Ltac pure_steps :=
  steps_tac; try (apply steps_modify; intros; repeat case_match; done).

Lemma gpio_same_modem g d v :
  steps same_modem (gpio_export e g) ∧ steps same_modem (gpio_set_direction e g d) ∧
  steps same_modem (gpio_set_value e g v).
Proof. unfold gpio_export, gpio_set_direction, gpio_set_value, gpio_write. split_and!; pure_steps. Qed.

Lemma gpio_same_client g d v :
  steps same_client (gpio_export e g) ∧ steps same_client (gpio_set_direction e g d) ∧
  steps same_client (gpio_set_value e g v).
Proof. unfold gpio_export, gpio_set_direction, gpio_set_value, gpio_write. split_and!; pure_steps. Qed.

Lemma zbt_same_modem : steps same_modem (apply_zbt_z8102ax_config e st).
Proof.
  unfold apply_zbt_z8102ax_config. pure_steps; apply gpio_same_modem; first [exact "out"|exact 0].
Qed.

Lemma before_ionmesh_same_client :
  steps same_client (config_signal st) ∧ steps same_client (config_modems st) ∧
  steps same_client (apply_zbt_z8102ax_config e st) ∧ steps same_client (openwrt_init_modem e st).
Proof.
  unfold config_signal, config_modems, apply_zbt_z8102ax_config, openwrt_init_modem, openwrt_open_modem_device.
  split_and!; pure_steps; apply gpio_same_client; first [exact "out"|exact 0].
Qed.

Lemma ionmesh_same_modem : steps same_modem (start_ionmesh st).
Proof.
  unfold start_ionmesh, apply_assignment. pure_steps.
Qed.

(** The start, up to and without IonMesh. *)
Lemma user_main_inv o o' :
  openwrt_user_main e st o = Done ((), o') →
  ∃ o1 o2 o3 o4 o5 rc, config_signal st o = Done ((), o1) ∧ config_modems st o1 = Done ((), o2) ∧
    when (is_zbt_z8102ax st) (apply_zbt_z8102ax_config e st) o2 = Done ((), o3) ∧
    openwrt_init_modem e st o3 = Done (rc, o4) ∧ start_ionmesh st o4 = Done ((), o5) ∧
    same_client o5 o' ∧ same_modem o5 o'.
Proof.
  intros Hrun. unfold openwrt_user_main in Hrun.
  apply mbind_Done_inv in Hrun as ([] & o1 & Ho1 & Hrun). apply mbind_Done_inv in Hrun as ([] & o2 & Ho2 & Hrun).
  apply mbind_Done_inv in Hrun as ([] & o3 & Ho3 & Hrun). apply mbind_Done_inv in Hrun as (rc & o4 & Ho4 & Hrun).
  apply mbind_Done_inv in Hrun as ([] & o5 & Ho5 & Hrun).
  exists o1, o2, o3, o4, o5, rc. repeat (split; [done|]).
  apply mbind_Done_inv in Hrun as (o6 & o7 & [= <- <-] & Hrun).
  destruct (signal_monitoring_enabled _ && _); by injection Hrun as <-.
Qed.

Lemma signal_same_modem : steps same_modem (config_signal st).
Proof. unfold config_signal. pure_steps. Qed.

Lemma init_dual o rc o' :
  dual_modem_mode o = true → modem_device o = None → openwrt_init_modem e st o = Done (rc, o') → same_modem o o'.
Proof.
  intros Hd Hm Hrun. unfold openwrt_init_modem in Hrun.
  apply mbind_Done_inv in Hrun as (d & o1 & [= <- <-] & Hrun). rewrite Hd in Hrun.
  apply mbind_Done_inv in Hrun as ([] & o1 & Hdual & Hrun).
  match type of Hdual with ?m o = _ => assert (steps same_modem m) as Hst end.
  { pure_steps; apply gpio_same_modem; first [exact "out"|exact 0]. }
  pose proof (Hst _ _ _ Hdual) as Hs. apply mbind_Done_inv in Hrun as (dev & o2 & [= <- <-] & Hrun).
  rewrite (proj1 Hs), Hm in Hrun. by injection Hrun as _ <-.
Qed.

Lemma init_single o rc o' :
  dual_modem_mode o = false → modem_device o = None → os_access st (str_octets "/dev/ttyUSB2") = true →
  os_open st (str_octets "/dev/ttyUSB2") = None → os_fd_register st = true →
  openwrt_init_modem e st o = Done (rc, o') →
  modem_device o' = Some (str_octets "/dev/ttyUSB2") ∧ modem_fd_registered o' = true.
Proof.
  intros Hd Hm Ha Ho Hr Hrun. unfold openwrt_init_modem, openwrt_open_modem_device, mbind, M_bind, gets in Hrun.
  rewrite Hd in Hrun. unfold modify at 1 in Hrun. cbn [modem_device set_modem_device] in Hrun.
  rewrite Hm in Hrun. unfold detect in Hrun. rewrite Ha in Hrun. cbn [modem_device set_modem_device] in Hrun.
  rewrite Ho, Hr in Hrun. by injection Hrun as _ <-.
Qed.

(** With two modems the device of the first is only opened if MODEM1_DEVICE
    names it: a device that is found automatically is not, and then no TPDU ever
    reaches the modem.  With one modem a device that is found is opened. *)
Theorem modem1_not_opened usb bc o :
  openwrt_user_main e st (openwrt_zero usb bc (time_now e)) = Done ((), o) →
  (os_getenv st "OPENWRT_DUAL_MODEM" = Some (str_octets "1") → os_getenv st "MODEM1_DEVICE" = None →
     modem_device o = None ∧ modem_fd_registered o = false ∧
     ∀ e' d, openwrt_send_tpdu_to_modem e' d o = Done (- ENOTCONN, o)) ∧
  (os_getenv st "OPENWRT_DUAL_MODEM" ≠ Some (str_octets "1") → usb_path usb = None →
     os_access st (str_octets "/dev/ttyUSB2") = true → os_open st (str_octets "/dev/ttyUSB2") = None →
     os_fd_register st = true →
     modem_device o = Some (str_octets "/dev/ttyUSB2") ∧ modem_fd_registered o = true).
Proof.
  intros Hrun. destruct (user_main_inv _ _ Hrun) as (o1 & o2 & o3 & o4 & o5 & rc & H1' & H2' & H3' & H4' & H5' & _ & Hs6).
  pose proof (signal_same_modem _ _ _ H1') as Hs1.
  assert (same_modem o2 o3) as Hs3 by (eapply (steps_when same_modem); [apply zbt_same_modem|exact H3']).
  pose proof (ionmesh_same_modem _ _ _ H5') as Hs5. split.
  - intros Hdual Hdev. unfold config_modems in H2'. rewrite bool_decide_eq_true_2, Hdev in H2' by done.
    unfold mbind, M_bind, modify in H2'. cbn in H2'. injection H2' as H2'.
    assert (modem_device o2 = None ∧ modem_fd_registered o2 = false ∧ dual_modem_mode o2 = true) as (D2 & R2 & M2).
    { rewrite <-H2'. cbn. destruct Hs1 as (-> & -> & _). done. }
    destruct Hs3 as (D3 & R3 & M3). assert (same_modem o3 o4) as (D4 & R4 & _)
      by (eapply init_dual; [congruence|congruence|exact H4']).
    destruct Hs5 as (D5 & R5 & _), Hs6 as (D6 & R6 & _).
    assert (modem_fd_registered o = false) as Hreg by congruence.
    split; [congruence|]. split; [done|]. intros e' d.
    unfold openwrt_send_tpdu_to_modem, mbind, M_bind, gets. by rewrite Hreg.
  - intros Hsingle Hpath Hacc Hopen Hregok. unfold config_modems in H2'. rewrite bool_decide_eq_false_2 in H2' by done.
    unfold mbind, M_bind, modify in H2'. cbn in H2'. injection H2' as H2'.
    assert (modem_device o2 = None ∧ dual_modem_mode o2 = false) as (D2 & M2).
    { assert (os_usb o1 = usb) as Hu.
      { clear -H1'. unfold config_signal, mbind, M_bind, modify in H1'. destruct (os_getenv st _); by injection H1' as <-. }
      rewrite <-H2'. cbn. rewrite Hu, Hpath. cbn. destruct Hs1 as (-> & _ & _). done. }
    destruct Hs3 as (D3 & _ & M3).
    destruct (init_single o3 rc o4) as [D4 R4]; [congruence|congruence|done|done|done|done|].
    destruct Hs5 as (D5 & R5 & _), Hs6 as (D6 & R6 & _). split; congruence.
Qed.

(** The client of a state with an assignment. *)
Definition assigned_bc (a : ionmesh_assignment) (bc : bankd_client) : bankd_client :=
  let slot c := set_srvc_cfg (set_cfg_clslot
    (Some (updated_clslot (im_bank_id a) (im_slot_id a) (clslot (srvc_cfg c)))) (srvc_cfg c)) c in
  set_bankd_conn (slot (bankd_conn bc)) (set_srv_conn (slot (srv_conn bc))
    (set_bc_cfg (set_port (bankd_port a) (set_host (octets_str (bankd_host a)) (bc_cfg bc))) bc)).

Lemma start_ionmesh_used o o' :
  use_ionmesh o = false → start_ionmesh st o = Done ((), o') → use_ionmesh o' = true →
  host_freed o' = true ∧ ∃ cfg a, (ionmesh_register_client cfg (os_curl st) zero_assignment).2 = a ∧
    ((ionmesh_register_client cfg (os_curl st) zero_assignment).1).1 = 0 ∧ os_bc o' = assigned_bc a (os_bc o).
Proof.
  intros Hu Hrun Hu'. unfold start_ionmesh, mbind, M_bind, gets in Hrun.
  destruct (event_script _) as [script|]; [|injection Hrun as <-; congruence].
  destruct (contains _ _); [|injection Hrun as <-; congruence].
  set (cfg := config_ionmesh _ _) in Hrun.
  assert (((ionmesh_register_client cfg (os_curl st) zero_assignment).1).1 ≤ 0) as Hle.
  { destruct (ionmesh_register_client cfg (os_curl st) zero_assignment) as [[rc reqs] a] eqn:Hreg. cbn.
    unfold ionmesh_register_client, ionmesh_parse_assignment in Hreg.
    repeat case_match; simplify_eq; unfold ENOMEM, EIO, EINVAL; lia. }
  destruct (ionmesh_register_client cfg (os_curl st) zero_assignment) as [[rc reqs] a] eqn:Hreg.
  cbn in Hle. unfold modify in Hrun. destruct (Z.ltb_spec rc 0).
  - injection Hrun as <-. done.
  - injection Hrun as <-. split; [done|]. exists cfg, a. rewrite Hreg. cbn. split; [done|]. split; [lia|done].
Qed.

(** Once IonMesh has assigned a bankd, the only thing that can happen to the
    connections of the client is the timer of the connection to the server, and it
    reads the host name that was freed.  The assigned host is stored where
    nothing reads it any more, and the client takes the bank and slot assigned to it
    for its own client id and slot. *)
Theorem ionmesh_breaks_connection t usb bc o :
  client_reachable t bc → conn_state (srv_conn bc) = Some SRVC_ST_REESTABLISH_DELAY →
  conn_state (bankd_conn bc) = Some SRVC_ST_INIT →
  openwrt_user_main e st (openwrt_zero usb bc (time_now e)) = Done ((), o) → use_ionmesh o = true →
  ∃ a, cfg_server_host (bc_cfg (os_bc o)) = Some (octets_str (bankd_host a)) ∧
    server_host (srvc_cfg (srv_conn (os_bc o))) = server_host (srvc_cfg (srv_conn bc)) ∧
    (0 ≤ im_bank_id a → 0 ≤ im_slot_id a →
       clslot (srvc_cfg (srv_conn (os_bc o))) = Some (MkClientSlot (im_bank_id a) (im_slot_id a))) ∧
    (∀ v, ow_possible o v → match v with OwServer v => v = CvTimer | OwBankd _ => False | _ => True end) ∧
    ow_possible o (OwServer CvTimer) ∧ ∀ e', run_ow_event e' (OwServer CvTimer) o = Undef.
Proof.
  intros Hr Hsrv Hbk Hrun Huse. destruct (client_inv_reachable _ _ Hr) as [_ [Hsi Hbi _ _]].
  destruct (user_main_inv _ _ Hrun) as (o1 & o2 & o3 & o4 & o5 & rc & H1' & H2' & H3' & H4' & H5' & (B6 & F6 & U6) & _).
  destruct before_ionmesh_same_client as (S1 & S2 & S3 & S4).
  assert (same_client (openwrt_zero usb bc (time_now e)) o4) as (B4 & _ & U4).
  { etrans; [exact (S1 _ _ _ H1')|]. etrans; [exact (S2 _ _ _ H2')|]. etrans; [|exact (S4 _ _ _ H4')].
    eapply (steps_when same_client); [exact S3|exact H3']. }
  cbn in B4, U4. destruct (start_ionmesh_used o4 o5) as (F5 & cfg & a & Ha & Hrc & B5); [done|done|congruence|].
  rewrite B4 in B5. assert (os_bc o = assigned_bc a bc) as Hbc by congruence. exists a. rewrite Hbc.
  split; [done|]. split; [done|]. split; [|split; [|split]].
  - intros Hb Hs. cbn. unfold updated_clslot.
    by destruct (Z.leb_spec 0 (im_bank_id a)), (Z.leb_spec 0 (im_slot_id a)); try lia.
  - intros v Hv. destruct Hsi as [[_ _ Hws] (fs & Hfs & Hoks)]. destruct Hbi as [[_ _ Hwb] (fb & Hfb & Hokb)].
    unfold conn_state in Hsrv, Hbk. rewrite Hfs in Hsrv. rewrite Hfb in Hbk. injection Hsrv as Hsrv. injection Hbk as Hbk.
    unfold state_ok in Hoks, Hokb. rewrite Hsrv in Hoks. rewrite Hbk in Hokb.
    destruct Hoks as (Hcs & _ & ms & Hms & _), Hokb as (Hcb & Htb). specialize (Hws Hcs). specialize (Hwb Hcb).
    destruct v as [v|v| |]; try done; cbn [ow_possible ce_possible] in Hv; rewrite Hbc in Hv;
      destruct v; cbn in Hv; try done; try congruence; try (by destruct Hv; congruence).
    rewrite Hfb in Hv. cbn in Hv. rewrite Htb in Hv. by destruct Hv.
  - cbn. rewrite Hbc. cbn. destruct Hsi as [_ (fs & Hfs & Hoks)]. unfold conn_state in Hsrv. rewrite Hfs in Hsrv.
    injection Hsrv as Hsrv. unfold state_ok in Hoks. rewrite Hsrv in Hoks. destruct Hoks as (_ & _ & ms & Hms & _).
    exists ms. rewrite Hfs. exact Hms.
  - intros e'. cbn [run_ow_event]. unfold ow_client, mbind, M_bind, gets.
    assert (host_freed o = true) as -> by congruence. done.
Qed.
End start_props.

(** SIGINT and SIGTERM switch the modem back to its own SIM. *)
Lemma shutdown_local `{OsmoLib, StreamCliLib, RsproCodec, IpaBtsLib, InetNtop, ClientBuild} e o :
  sysfs_works e → wp (openwrt_handle_shutdown e) o (λ _ o',
    gpio_level (sim_switch_gpio o) (gpio_log o') = Some (level_bit false)).
Proof.
  intros Hw. apply wp_bind, (gpio_op_switch e no_abort false). intros rc o' _ W. apply wp_ret.
  destruct (W Hw) as (_ & l & (a & Ha & ->) & ->). rewrite !level_app. unfold gpio_level at 1.
  cbn [omap list_omap fst snd]. by rewrite decide_True by done.
Qed.

(** ** Concrete runs *)

Definition ow_ok (t : Z) : ow_env := OwEnv (ok_env t) (λ _ _, FileOk) [] false t.


(** A router with one modem, and one with two whose IonMesh assigns a bankd. *)
Definition one_modem : ow_start :=
  OwStart (λ _, None) (λ d, bool_decide (d = str_octets "/dev/ttyUSB2")) (λ _, None) true None [114] CurlFailed.

Definition two_modems : ow_start :=
  OwStart (λ v, if String.eqb v "OPENWRT_DUAL_MODEM" then Some (str_octets "1") else None)
    (λ _, true) (λ _, None) true None [114] (CurlOk 200 [json_answer example_assignment]).

#[export] Instance ow_possible_dec o v : Decision (ow_possible o v).
Proof. destruct v; cbn; apply _. Defined.

Fixpoint run_ow_trace (tr : list (ow_env * ow_event)) (s : Z * openwrt_state) : option (Z * openwrt_state) :=
  match tr with
  | [] => Some s
  | (e, v) :: tr =>
      if decide (s.1 ≤ get_monotonic_ms (ow_srvc e) ∧ ow_possible s.2 v) then
        match run_ow_event e v s.2 with
        | Done (_, o) => run_ow_trace tr (get_monotonic_ms (ow_srvc e), o)
        | _ => None
        end
      else None
  end.

Lemma ow_trace_run (C : ow_env → Prop) tr t o s' :
  Forall (λ x, C x.1) tr → ow_run C t o → run_ow_trace tr (t, o) = Some s' → ow_run C s'.1 s'.2.
Proof.
  intros HC. revert t o. induction HC as [|[e v] tr He Htr IH]; intros t o Hr Hrun; cbn [run_ow_trace] in Hrun.
  - by injection Hrun as <-.
  - case_decide as Hd; [|done]. destruct Hd as [Ht Hpos]. cbn [fst snd] in *.
    destruct (run_ow_event e v o) as [[[] o']| | |] eqn:Hev; try done. eapply IH; [|exact Hrun]. by eapply owr_event.
Qed.

Definition scripted_config : client_config :=
  ClientConfig (Some "127.0.0.1") 9998 7 0 None false (Some "/etc/ionmesh.sh") [59; 0] false.

Definition created_with (c : client_config) : bankd_client :=
  match remsim_client_create [99] [100] c (true, true, true) (zero_bc c) with Done (_, bc) => bc | _ => zero_bc c end.

(** The client after the start of the main program. *)
Definition begun (c : client_config) : Z * bankd_client :=
  default (0, zero_bc c) (run_client_trace [(ok_env 50000, CeStart)] (0, created_with c)).

Lemma begun_reachable c :
  remsim_client_create [99] [100] c (true, true, true) (zero_bc c) = Done ((), created_with c) →
  run_client_trace [(ok_env 50000, CeStart)] (0, created_with c) = Some (begun c) →
  client_reachable (begun c).1 (begun c).2.
Proof. intros Hc Ht. eapply trace_reachable; [|exact Ht]. by eapply cr_create. Qed.

Definition ow_started (st : ow_start) (c : client_config) : outcome (() * openwrt_state) :=
  openwrt_user_main (ow_ok 50000) st
    (openwrt_zero (co_usb client_opts_init) (begun c).2 (time_now (ow_ok 50000))).

Definition start_of (st : ow_start) (c : client_config) : openwrt_state :=
  match ow_started st c with Done (_, o) => o | _ => openwrt_zero (co_usb client_opts_init) (begun c).2 0 end.

(** The router connects to the server and to the bankd it assigns. *)
Definition ow_connects : list (ow_env * ow_event) :=
  [(ow_ok 50001, OwServer CvTimer);
   (ow_ok 50010, OwServer CvUp);
   (ow_ok 50020, OwServer (CvRead 1 (rspro_frame
      (PR_connectClientRes (example_ident ComponentType_remsimServer) ResultCode_ok))));
   (ow_ok 50030, OwServer (CvRead 1 (rspro_frame
      (PR_configClientBankReq (MkBankSlot 2 1) (IpPort (IpAddress_PR_ipv4 [10; 0; 0; 5]) 9999)))));
   (ow_ok 50031, OwBankd CvTimer);
   (ow_ok 50040, OwBankd CvUp);
   (ow_ok 50050, OwBankd (CvRead 1 (rspro_frame
      (PR_connectClientRes (example_ident ComponentType_remsimBankd) ResultCode_ok))))].

Definition ow_up : Z * openwrt_state :=
  default (0, start_of one_modem example_config)
    (run_ow_trace ow_connects ((begun example_config).1, start_of one_modem example_config)).

Lemma start_run C st c :
  remsim_client_create [99] [100] c (true, true, true) (zero_bc c) = Done ((), created_with c) →
  run_client_trace [(ok_env 50000, CeStart)] (0, created_with c) = Some (begun c) →
  frontend_log (begun c).2 = [] → ow_started st c = Done ((), start_of st c) →
  ow_run C (begun c).1 (start_of st c).
Proof. intros Hc Ht Hl Hs. eapply owr_start; [by apply begun_reachable|exact Hl|exact Hs]. Qed.

Lemma ow_up_run : ow_run sysfs_works ow_up.1 ow_up.2.
Proof.
  eapply (ow_trace_run sysfs_works ow_connects (begun example_config).1 (start_of one_modem example_config)).
  - repeat constructor.
  - apply start_run; vm_compute; reflexivity.
  - vm_compute. reflexivity.
Qed.

Lemma sim_follows_session_witness :
  gpio_level (sim_switch_gpio ow_up.2) (gpio_log ow_up.2) = Some (level_bit true).
Proof.
  refine (proj2 (proj1 (sim_follows_session ow_up.1 ow_up.2
    (default (FsmInst MF_ST_INIT 0 None) (main_fi (os_bc ow_up.2))) ow_up_run _ _ _)) _).
  - vm_compute. discriminate.
  - vm_compute. discriminate.
  - vm_compute. reflexivity.
  - vm_compute. reflexivity.
Defined.


Lemma hex_roundtrip_witness :
  bin_to_hex_str [0; 164; 63; 0] = Some (str_octets "00A43F00") ∧
  hex_str_to_bin (str_octets "00A43F00") 512 = inr [0; 164; 63; 0].
Proof.
  destruct (hex_roundtrip [0; 164; 63; 0]) as ((hex & Hb & Hh & _) & _).
  - repeat constructor; vm_compute; done.
  - cbn. lia.
  - vm_compute in Hb. injection Hb as <-. split; [reflexivity|exact Hh].
Defined.


(** A modem that takes no more than 5 bytes of a command. *)
Example blocked_modem_spins :
  run_ow_event (OwEnv (ok_env 60000) (λ _ _, FileOk) [Written 5] true 60000)
    (OwBankd (CvRead 1 (rspro_frame (PR_tpduCardToModem (MkBankSlot 2 1) (MkClientSlot 7 0)
      (TpduFlags 255 255 0 0) [144; 0])))) ow_up.2 = NoFuel.
Proof. vm_compute. reflexivity. Qed.

(** The modem answers that the strength is not known; 0 dBm are reported. *)
Example unknown_strength_reported :
  match run_ow_event (ow_ok 60000) (OwModem (Some (str_octets "+CSQ: 99,99"))) ow_up.2 with
  | Done (_, o) => (openwrt_print_statistics 60001 o).2
  | _ => None
  end = Some 0.
Proof. vm_compute. reflexivity. Qed.


Lemma modem1_not_opened_witness :
  modem_fd_registered (start_of two_modems example_config) = false ∧
  modem_fd_registered (start_of one_modem example_config) = true.
Proof.
  split.
  - apply (modem1_not_opened (ow_ok 50000) two_modems (co_usb client_opts_init) (begun example_config).2).
    + vm_compute. reflexivity.
    + reflexivity.
    + reflexivity.
  - apply (modem1_not_opened (ow_ok 50000) one_modem (co_usb client_opts_init) (begun example_config).2).
    + vm_compute. reflexivity.
    + discriminate.
    + reflexivity.
    + reflexivity.
    + reflexivity.
    + reflexivity.
Defined.

Lemma ionmesh_breaks_connection_witness :
  run_ow_event (ow_ok 50001) (OwServer CvTimer) (start_of two_modems scripted_config) = Undef ∧
  clslot (srvc_cfg (srv_conn (os_bc (start_of two_modems scripted_config)))) = Some (MkClientSlot 3 7).
Proof.
  destruct (ionmesh_breaks_connection (ow_ok 50000) two_modems (begun scripted_config).1
    (co_usb client_opts_init) (begun scripted_config).2 (start_of two_modems scripted_config))
    as (a & _ & _ & _ & _ & _ & Hundef).
  - apply begun_reachable; vm_compute; reflexivity.
  - vm_compute. reflexivity.
  - vm_compute. reflexivity.
  - vm_compute. reflexivity.
  - vm_compute. reflexivity.
  - split; [exact (Hundef (ow_ok 50001))|vm_compute; reflexivity].
Defined.
