(* ===== verification/SimTrace2.v ===== *)
(** * The SIMtrace2 front end ([src/client/user_simtrace2.c])

    A SIMtrace2 board emulates the card towards the modem.  Its messages arrive in
    the buffers of USB transfers: a bulk transfer is one of four, the interrupt
    transfer has a buffer of its own, and what a transfer does not overwrite stays.
    The calls into libosmo-simtrace2 that make the board do something are the list
    [usb_out]; the layouts of the firmware's messages ([SimtraceProt]) and the
    segmentation of APDUs ([ApduLib]) are that library's and interfaces here.  The
    calls of the client into the front end are taken from its log after each
    event: the front end does not call back. *)

From S2P Require Import Prelude OsmoFsm Slotmap RsproPdu RsproUtil Ipa ClientConn Examples ConnInv.
From S2P Require Import RemsimClient ClientInv ClientProps CString ClientMain.

(** ** libosmo-simtrace2 *)

(** The messages of the firmware ([simtrace_prot.h]): the size of a structure up to
    its flexible part, and its members as functions of the memory it is in. *)
Class SimtraceProt := {
  sizeof_msg_hdr : nat;
  hdr_msg_type : bytes → Z;
  SIMTRACE_MSGT_BD_CEMU_STATUS : Z;
  SIMTRACE_MSGT_DO_CEMU_PTS : Z;
  SIMTRACE_MSGT_DO_CEMU_RX_DATA : Z;
  SIMTRACE_MSGT_BD_CEMU_CONFIG : Z;
  sizeof_pts_info : nat;
  pts_req : bytes → bytes;
  sizeof_rx_data : nat;
  rx_flags : bytes → Z;
  rx_data_len : bytes → nat;
  CEMU_DATA_F_TPDU_HDR : Z;
  sizeof_status : nat;
  status_flags : bytes → Z;
  status_voltage_mv : bytes → Z;
  status_fi : bytes → Z;
  status_di : bytes → Z;
  status_wi : bytes → Z;
  status_waiting_time : bytes → Z;
  CEMU_STATUS_F_VCC_PRESENT : Z;
  CEMU_STATUS_F_CLK_ACTIVE : Z;
  CEMU_STATUS_F_RESET_ACTIVE : Z;
  CEMU_FEAT_F_STATUS_IRQ : Z;
  CEMU_CONFIG_PRES_POL_PRES_H : Z;
  CEMU_CONFIG_PRES_POL_VALID : Z;
}.

(** [struct osmo_apdu_context]: the header of the APDU and its data from the modem,
    of which [lc_cur] of [lc_tot] bytes are there; [ac_rest] are the other members. *)
Record osmo_apdu_context := ApduContext {
  ac_hdr : octets;
  ac_dc : octets;
  lc_tot : nat;
  lc_cur : nat;
  ac_sw : octets;
  ac_rest : octets;
}.

Class ApduLib := {
  apdu_context_zero : osmo_apdu_context;
  hdr_ins : octets → Z;
  osmo_apdu_segment_in : osmo_apdu_context → octets → bool → Z * osmo_apdu_context;
  APDU_ACT_TX_CAPDU_TO_CARD : Z;
}.

(** The data of an APDU is in the array for it. *)
Definition apdu_wf (ac : osmo_apdu_context) : Prop := (lc_tot ac ≤ length (ac_dc ac))%nat.

(** The sizes of the buffers, which the front end allocates. *)
Definition IN_XFER_LENGTH : nat := Nat.mul 16 256.
Definition IRQ_XFER_LENGTH : nat := 64.
Definition NUM_IN_XFERS : nat := 4.

(** The types of messages differ; their fixed parts fit the buffers; the segmentation keeps to
    the array. *)
Class SimtraceLaws `{SimtraceProt, ApduLib} : Prop := {
  msgt_distinct : NoDup [SIMTRACE_MSGT_BD_CEMU_STATUS; SIMTRACE_MSGT_DO_CEMU_PTS;
    SIMTRACE_MSGT_DO_CEMU_RX_DATA; SIMTRACE_MSGT_BD_CEMU_CONFIG];
  pts_fits : (sizeof_msg_hdr + sizeof_pts_info ≤ IN_XFER_LENGTH)%nat;
  rx_fits : (sizeof_msg_hdr + sizeof_rx_data ≤ IN_XFER_LENGTH)%nat;
  status_fits : (sizeof_msg_hdr + sizeof_status ≤ IRQ_XFER_LENGTH)%nat;
  apdu_zero_wf : apdu_wf apdu_context_zero;
  apdu_segment_wf ac d new : apdu_wf ac → apdu_wf (osmo_apdu_segment_in ac d new).2;
}.

(** What the board is told to do, and the configuration of its firmware. *)
Record cardemu_usb_msg_config := CardemConfig { features : Z; pres_pol : Z }.

Inductive st2_request :=
| St2CardInsert (inserted : bool)
| St2SimSelectRemote
| St2SimSelectLocal
| St2ResetPulse (duration_ms : Z)
| St2PbAndRx (pb le : Z)
| St2PbAndTx (pb : Z) (data : octets)
| St2SwTx (sw : octets)
| St2SetAtr (atr : octets)
| St2Config (cfg : cardemu_usb_msg_config).

(** ** State *)

(** The client with the board's SIM card emulation: the APDU in progress ([ac]),
    the buffers of the transfers, and the requests to the board. *)
Record st2_state := St2State {
  st_bc : bankd_client;
  st_ac : osmo_apdu_context;
  in_bufs : list bytes;
  irq_buf : bytes;
  usb_out : list st2_request;
}.

Definition set_st_bc (b : bankd_client) (s : st2_state) : st2_state :=
  St2State b (st_ac s) (in_bufs s) (irq_buf s) (usb_out s).
Definition set_st_ac (ac : osmo_apdu_context) (s : st2_state) : st2_state :=
  St2State (st_bc s) ac (in_bufs s) (irq_buf s) (usb_out s).
Definition set_in_bufs (b : list bytes) (s : st2_state) : st2_state :=
  St2State (st_bc s) (st_ac s) b (irq_buf s) (usb_out s).
Definition set_irq_buf (b : bytes) (s : st2_state) : st2_state :=
  St2State (st_bc s) (st_ac s) (in_bufs s) b (usb_out s).
Definition set_usb_out (o : list st2_request) (s : st2_state) : st2_state :=
  St2State (st_bc s) (st_ac s) (in_bufs s) (irq_buf s) o.

Definition set_ac_sw (sw : octets) (ac : osmo_apdu_context) : osmo_apdu_context :=
  ApduContext (ac_hdr ac) (ac_dc ac) (lc_tot ac) (lc_cur ac) sw (ac_rest ac).

(** How a transfer ended: with the bytes that were received. *)
Inductive xfer_result := XferCompleted (data : bytes) | XferNoDevice | XferFailed (status : Z).

(** What the device wrote over the buffer. *)
Definition overwrite (data buf : bytes) : bytes := data ++ drop (length data) buf.

Section simtrace2.
Context `{OsmoLib, StreamCliLib, RsproCodec, IpaBtsLib, InetNtop, ClientBuild, SimtraceProt, ApduLib}.

Abbreviation St := (M st2_state).

Definition st2_request_out (r : st2_request) : St () :=
  modify (λ s, set_usb_out (usb_out s ++ [r]) s).

(** ** The calls of the client *)

Definition st2_request_card_insert : St () := st2_request_out (St2CardInsert true).
Definition st2_request_card_remove : St () := st2_request_out (St2CardInsert false).
Definition st2_request_sim_remote : St () := st2_request_out St2SimSelectRemote.
Definition st2_request_sim_local : St () := st2_request_out St2SimSelectLocal.
Definition st2_request_modem_reset : St () := st2_request_out (St2ResetPulse 300).

(** The status word is taken from the last two bytes, which are in front of the
    data if there are fewer. *)
Definition st2_handle_card2modem (data : octets) : St () :=
  let n := length data in
  if (n <? 2)%nat then undef
  else
    let sw := drop (n - 2) data in
    modify (λ s, set_st_ac (set_ac_sw sw (st_ac s)) s) ;;
    ac ← gets st_ac;
    when (2 <? n)%nat (st2_request_out (St2PbAndTx (hdr_ins (ac_hdr ac)) (take (n - 2) data))) ;;
    st2_request_out (St2SwTx (ac_sw ac)).

Definition st2_handle_set_atr (data : octets) : St () := st2_request_out (St2SetAtr data).

Definition st2_handle_slot_status (sts : SlotPhysStatus_t) : St () := mret ().

Definition st2_frontend (f : frontend_call) : St () :=
  match f with
  | frontend_request_card_insert => st2_request_card_insert
  | frontend_request_card_remove => st2_request_card_remove
  | frontend_request_sim_remote => st2_request_sim_remote
  | frontend_request_sim_local => st2_request_sim_local
  | frontend_request_modem_reset => st2_request_modem_reset
  | frontend_handle_card2modem d => st2_handle_card2modem d
  | frontend_handle_set_atr d => st2_handle_set_atr d
  | frontend_handle_slot_status sts => st2_handle_slot_status sts
  | osmo_system_nowait _ _ => mret ()
  end.

(** An event of the client, and the calls it makes. *)
Definition st2_client (e : srvc_env) (v : client_event) : St () :=
  n ← gets (λ s, length (frontend_log (st_bc s)));
  zoom st_bc set_st_bc (run_client_event e v) ;;
  calls ← gets (λ s, drop n (frontend_log (st_bc s)));
  for_each st2_frontend calls.

(** ** Messages of the firmware *)

(** The memory behind the header, if [n] bytes are there. *)
Definition st2_payload (n : nat) (buf : bytes) : St bytes :=
  if (sizeof_msg_hdr + n <=? length buf)%nat then mret (drop sizeof_msg_hdr buf) else undef.

(** Only logged. *)
Definition process_do_status (buf : bytes) : St Z := mret 0.

Definition process_do_pts (e : srvc_env) (buf : bytes) : St Z :=
  p ← st2_payload sizeof_pts_info buf;
  st2_client e (CePts (pts_req p)) ;;
  mret 0.

Definition process_do_rx_da (e : srvc_env) (buf : bytes) : St Z :=
  p ← st2_payload sizeof_rx_data buf;
  let data := drop sizeof_rx_data p in
  if (length data <? rx_data_len p)%nat then undef
  else
    ac ← gets st_ac;
    let '(rc, ac) := osmo_apdu_segment_in ac (take (rx_data_len p) data)
                       (negb (Z.land (rx_flags p) CEMU_DATA_F_TPDU_HDR =? 0)) in
    modify (set_st_ac ac) ;;
    (if negb (Z.land rc APDU_ACT_TX_CAPDU_TO_CARD =? 0) then
       if (length (ac_dc ac) <? lc_tot ac)%nat then undef
       else st2_client e (CeTpdu (ac_hdr ac ++ take (lc_tot ac) (ac_dc ac)))
     else
       when (lc_cur ac <? lc_tot ac)%nat
         (st2_request_out (St2PbAndRx (hdr_ins (ac_hdr ac)) (Z.of_nat (lc_tot ac - lc_cur ac))))) ;;
    mret 0.

Definition process_usb_msg (e : srvc_env) (buf : bytes) : St Z :=
  let t := hdr_msg_type buf in
  if t =? SIMTRACE_MSGT_BD_CEMU_STATUS then process_do_status buf
  else if t =? SIMTRACE_MSGT_DO_CEMU_PTS then process_do_pts e buf
  else if t =? SIMTRACE_MSGT_DO_CEMU_RX_DATA then process_do_rx_da e buf
  else if t =? SIMTRACE_MSGT_BD_CEMU_CONFIG then mret 0
  else mret (- 1).

(** The flags are the masked bits; the presence of a card is not known. *)
Definition irq_phys_status (p : bytes) : frontend_phys_status :=
  PhysStatus
    (PhysFlags (swrap 32 (Z.land (status_flags p) CEMU_STATUS_F_RESET_ACTIVE))
       (swrap 32 (Z.land (status_flags p) CEMU_STATUS_F_VCC_PRESENT))
       (swrap 32 (Z.land (status_flags p) CEMU_STATUS_F_CLK_ACTIVE)) (- 1))
    (u16 (status_voltage_mv p)) (u8 (status_fi p)) (u8 (status_di p)) (u8 (status_wi p))
    (u8 (status_waiting_time p)).

Definition process_irq_status (e : srvc_env) (buf : bytes) : St Z :=
  p ← st2_payload sizeof_status buf;
  st2_client e (CeStatus (irq_phys_status p)) ;;
  mret 0.

Definition process_usb_msg_irq (e : srvc_env) (buf : bytes) : St Z :=
  if hdr_msg_type buf =? SIMTRACE_MSGT_BD_CEMU_STATUS then process_irq_status e buf else mret (- 1).

(** ** Transfers *)

(** The end of a transfer; [resubmit]: whether it can be submitted again. *)
Definition usb_in_xfer_cb (e : srvc_env) (k : nat) (x : xfer_result) (resubmit : bool) : St () :=
  match x with
  | XferCompleted data =>
      bufs ← gets in_bufs;
      buf ← deref (bufs !! k);
      modify (set_in_bufs (<[k := overwrite data buf]> bufs)) ;;
      process_usb_msg e (overwrite data buf) ;;
      osmo_assert resubmit
  | XferNoDevice | XferFailed _ => panic
  end.

Definition usb_irq_xfer_cb (e : srvc_env) (x : xfer_result) (resubmit : bool) : St () :=
  match x with
  | XferCompleted data =>
      buf ← gets irq_buf;
      modify (set_irq_buf (overwrite data buf)) ;;
      process_usb_msg_irq e (overwrite data buf) ;;
      osmo_assert resubmit
  | XferNoDevice | XferFailed _ => panic
  end.

(** ** Events *)

Inductive st2_event :=
| StUsbIn (k : nat) (x : xfer_result) (resubmit : bool)
| StUsbIrq (x : xfer_result) (resubmit : bool)
| StServer (v : conn_event)
| StBankd (v : conn_event).

Definition run_st2_event (e : srvc_env) (v : st2_event) : St () :=
  match v with
  | StUsbIn k x resubmit => usb_in_xfer_cb e k x resubmit
  | StUsbIrq x resubmit => usb_irq_xfer_cb e x resubmit
  | StServer v => st2_client e (CeServer v)
  | StBankd v => st2_client e (CeBankd v)
  end.

(** What can happen: no more is received than the buffers hold. *)
Definition xfer_possible (n : nat) (x : xfer_result) : Prop :=
  match x with XferCompleted data => (length data ≤ n)%nat | _ => True end.

Definition st2_possible (s : st2_state) (v : st2_event) : Prop :=
  match v with
  | StUsbIn k x _ => (k < NUM_IN_XFERS)%nat ∧ xfer_possible IN_XFER_LENGTH x
  | StUsbIrq x _ => xfer_possible IRQ_XFER_LENGTH x
  | StServer v => ce_possible (st_bc s) (CeServer v)
  | StBankd v => ce_possible (st_bc s) (CeBankd v)
  end.

(** ** Start *)

(** What libusb answers: to its initialisation, to opening the device, claiming
    the interface and asking for its end points, and to the submission of the
    transfers; [usb_memory]: what is in the memory of their buffers (the buffer
    of the interrupt transfer is the first). *)
Record usb_start := UsbStart {
  libusb_init_rc : Z;
  usb_open : usb_config → bool;
  dev_path : option bytes;
  claim_rc : Z;
  ep_addrs_rc : Z;
  ep_out : Z;
  ep_in : Z;
  ep_irq_in : Z;
  submit_ok : nat → bool;
  usb_memory : nat → nat → Z;
}.

(** What was done with libusb. *)
Inductive usb_action := UsbInit | UsbOpen | UsbClaim | UsbSubmitIrq | UsbSubmitIn | UsbClose | UsbExit.

#[export] Instance usb_action_eq_dec : EqDecision usb_action.
Proof. solve_decision. Defined.

Definition usb_do (a : usb_action) : M (list usb_action) () := modify (λ l, l ++ [a]).

Definition new_buffer (u : usb_start) (k len : nat) : bytes := map (usb_memory u k) (seq 0 len).

Definition allocate_and_submit_irq (u : usb_start) : M (list usb_action) bytes :=
  osmo_assert (submit_ok u 0) ;; usb_do UsbSubmitIrq ;; mret (new_buffer u 0 IRQ_XFER_LENGTH).

Definition allocate_and_submit_in (u : usb_start) (k : nat) : M (list usb_action) bytes :=
  osmo_assert (submit_ok u k) ;; usb_do UsbSubmitIn ;; mret (new_buffer u k IN_XFER_LENGTH).

(** The polarity of the presence pin, if it is configured. *)
Definition cardem_config (o : client_opts) : cardemu_usb_msg_config :=
  CardemConfig CEMU_FEAT_F_STATUS_IRQ
    match co_presence o with
    | Some pol => Z.lor (if pol =? 0 then 0 else CEMU_CONFIG_PRES_POL_PRES_H) CEMU_CONFIG_PRES_POL_VALID
    | None => 0
    end.

Definition close_exit : M (list usb_action) (Z + st2_state) :=
  usb_do UsbClose ;; usb_do UsbExit ;; mret (inl (- 1)).

(** [client_user_main] up to the loop, in the state it starts in; else what is
    returned. *)
Definition st2_user_main (u : usb_start) (o : client_opts) (bc : bankd_client)
    : M (list usb_action) (Z + st2_state) :=
  if libusb_init_rc u <? 0 then mret (inl (libusb_init_rc u))
  else
    usb_do UsbInit ;;
    if negb (usb_open u (co_usb o)) then mret (inl (- 1))
    else
      usb_do UsbOpen ;;
      if claim_rc u <? 0 then close_exit
      else
        usb_do UsbClaim ;;
        if ep_addrs_rc u <? 0 then close_exit
        else if (ep_in u =? 0) || (ep_out u =? 0) || (ep_irq_in u =? 0) then close_exit
        else
          irq ← allocate_and_submit_irq u;
          b1 ← allocate_and_submit_in u 1;
          b2 ← allocate_and_submit_in u 2;
          b3 ← allocate_and_submit_in u 3;
          b4 ← allocate_and_submit_in u 4;
          mret (inr (St2State bc apdu_context_zero [b1; b2; b3; b4] irq [St2Config (cardem_config o)])).

Inductive st2_reachable : Z → st2_state → Prop :=
| st2r_start t u o bc s acts :
    client_reachable t bc → frontend_log bc = [] →
    st2_user_main u o bc [] = Done (inr s, acts) → st2_reachable t s
| st2r_event t e v s s' :
    st2_reachable t s → t ≤ get_monotonic_ms e → st2_possible s v →
    run_st2_event e v s = Done ((), s') → st2_reachable (get_monotonic_ms e) s'.
End simtrace2.

(** ** The event script *)

(** The variables for the script, at index [i] of [max_env] left. *)
Definition st2_append_script_env (path : option bytes) (interface max_env : Z) : Z + list string :=
  if max_env <? 4 then inl (- 28)
  else inr ["REMSIM_USB_PATH=" +:+ str_or_null (octets_str <$> path);
            "REMSIM_USB_INTERFACE=" +:+ pretty (u32 interface)].

(** The client built with this front end; the environment has 256 places, of
    which at most eleven are taken. *)
Definition simtrace2_build (version : string) (package : octets) (u : usb_start) (o : client_opts)
    : ClientBuild := {|
  VERSION := version;
  PACKAGE_VERSION := package;
  frontend_append_script_env _ :=
    match st2_append_script_env (dev_path u) (if_num (co_usb o)) (256 - 11 - 1) with inr env => env | inl _ => [] end;
|}.

(** ** The layouts and a segmentation, for runs *)

Definition le_at (off n : nat) (b : bytes) : Z :=
  foldr (λ x acc, x + 256 * acc) 0 (take n (drop off b)).

Definition simtrace_prot_ref : SimtraceProt := {|
  sizeof_msg_hdr := 8;
  hdr_msg_type b := le_at 1 1 b;
  SIMTRACE_MSGT_BD_CEMU_STATUS := 5;
  SIMTRACE_MSGT_DO_CEMU_PTS := 7;
  SIMTRACE_MSGT_DO_CEMU_RX_DATA := 8;
  SIMTRACE_MSGT_BD_CEMU_CONFIG := 9;
  sizeof_pts_info := 13;
  pts_req b := take 6 (drop 1 b);
  sizeof_rx_data := 6;
  rx_flags b := le_at 0 4 b;
  rx_data_len b := Z.to_nat (le_at 4 2 b);
  CEMU_DATA_F_TPDU_HDR := 1;
  sizeof_status := 13;
  status_flags b := le_at 0 4 b;
  status_voltage_mv b := le_at 4 2 b;
  status_fi b := le_at 6 1 b;
  status_di b := le_at 7 1 b;
  status_wi b := le_at 8 1 b;
  status_waiting_time b := le_at 9 4 b;
  CEMU_STATUS_F_VCC_PRESENT := 1;
  CEMU_STATUS_F_CLK_ACTIVE := 2;
  CEMU_STATUS_F_RESET_ACTIVE := 8;
  CEMU_FEAT_F_STATUS_IRQ := 1;
  CEMU_CONFIG_PRES_POL_PRES_H := 1;
  CEMU_CONFIG_PRES_POL_VALID := 2;
|}.

(** An APDU whose instruction is one of those that send data has as many bytes
    of it as P3 says. *)
Definition segment_ref (ac : osmo_apdu_context) (d : octets) (new : bool) : Z * osmo_apdu_context :=
  let ac :=
    if new then
      let lc := if bool_decide (nth 1 d 0 ∈ [32; 136; 164; 194; 214; 220]) then Z.to_nat (nth 4 d 0) else 0%nat in
      ApduContext (take 5 d) (take lc (drop 5 d)) lc (length (take lc (drop 5 d))) [] []
    else
      let dc := take (lc_cur ac) (ac_dc ac) ++ take (lc_tot ac - lc_cur ac) d in
      ApduContext (ac_hdr ac) dc (lc_tot ac) (length dc) [] [] in
  (if (lc_tot ac <=? length (ac_dc ac))%nat then 1 else 2,
   ApduContext (ac_hdr ac) (ac_dc ac ++ replicate (lc_tot ac - length (ac_dc ac)) 0) (lc_tot ac)
     (lc_cur ac) [] []).

Definition apdu_lib_ref : ApduLib := {|
  apdu_context_zero := ApduContext [] [] 0 0 [] [];
  hdr_ins hdr := nth 1 hdr 0;
  osmo_apdu_segment_in := segment_ref;
  APDU_ACT_TX_CAPDU_TO_CARD := 1;
|}.

Lemma simtrace_laws_ref : @SimtraceLaws simtrace_prot_ref apdu_lib_ref.
Proof.
  split; [cbn; by apply (bool_decide_unpack _)|..]; try (unfold apdu_wf, IN_XFER_LENGTH, IRQ_XFER_LENGTH; cbn; lia).
  intros ac d new _. unfold apdu_wf. cbn [osmo_apdu_segment_in apdu_lib_ref]. unfold segment_ref.
  cbv zeta. cbn [snd lc_tot ac_dc]. match goal with |- context [replicate (_ - length (ac_dc ?x))] => generalize x end. intros a.
  rewrite length_app, length_replicate. lia.
Qed.
