(* ===== verification/SimTrace2Props.v ===== *)
(** * Properties of the SIMtrace2 front end

    What the board is told follows the sessions of the client
    ([board_follows_session]); a command of the modem and the response of the card
    are carried over ([simtrace2_exchange]); every event is processed to the end
    ([simtrace2_events_defined]); the start ([simtrace2_start]); and a short message
    is completed by the message before it ([stale_message_repeated]). *)

From S2P Require Import Prelude OsmoFsm Slotmap RsproPdu RsproUtil Ipa ClientConn Examples ConnInv.
From S2P Require Import RemsimClient ClientInv ClientProps CString ClientMain ClientLog SimTrace2.

(** ** What the calls of the client make the board do *)

(** Requests that open or close a session, not those that exchange APDUs. *)
Definition session_request (r : st2_request) : bool :=
  match r with
  | St2PbAndRx _ _ | St2PbAndTx _ _ | St2SwTx _ | St2Config _ => false
  | _ => true
  end.

(** A response without a status word. *)
Definition bad_rapdu (f : frontend_call) : Prop :=
  match f with frontend_handle_card2modem d => (length d < 2)%nat | _ => False end.

#[export] Instance bad_rapdu_dec f : Decision (bad_rapdu f).
Proof. destruct f; cbn; apply _. Defined.

Section requests.
Context `{OsmoLib, StreamCliLib, RsproCodec, IpaBtsLib, InetNtop, ClientBuild, SimtraceProt, ApduLib}.

Definition call_requests (hdr : octets) (f : frontend_call) : list st2_request :=
  match f with
  | frontend_request_card_insert => [St2CardInsert true]
  | frontend_request_card_remove => [St2CardInsert false]
  | frontend_request_sim_remote => [St2SimSelectRemote]
  | frontend_request_sim_local => [St2SimSelectLocal]
  | frontend_request_modem_reset => [St2ResetPulse 300]
  | frontend_handle_card2modem d =>
      (if (2 <? length d)%nat then [St2PbAndTx (hdr_ins hdr) (take (length d - 2) d)] else []) ++
      [St2SwTx (drop (length d - 2) d)]
  | frontend_handle_set_atr d => [St2SetAtr d]
  | frontend_handle_slot_status _ | osmo_system_nowait _ _ => []
  end.

Definition call_ac (ac : osmo_apdu_context) (f : frontend_call) : osmo_apdu_context :=
  match f with
  | frontend_handle_card2modem d => set_ac_sw (drop (length d - 2) d) ac
  | _ => ac
  end.

(** The state after calls. *)
Definition after_calls (calls : list frontend_call) (s : st2_state) : st2_state :=
  set_usb_out (usb_out s ++ (calls ≫= call_requests (ac_hdr (st_ac s))))
    (set_st_ac (foldl call_ac (st_ac s) calls) s).

Lemma frontend_call_eq f s :
  st2_frontend f s = if decide (bad_rapdu f) then Undef else Done ((), after_calls [f] s).
Proof.
  assert (∀ r, st2_request_out r s = Done ((), set_usb_out (usb_out s ++ [r]) (set_st_ac (st_ac s) s))) as Hout
    by (intros r; by destruct s).
  destruct f as [| | | | |d|d|sts|c env]; cbn [bad_rapdu];
    try (rewrite decide_False by auto); try exact (Hout _);
    try (unfold after_calls; cbn; rewrite app_nil_r; by destruct s).
  unfold st2_frontend, st2_handle_card2modem.
  destruct (Nat.ltb_spec (length d) 2); [by rewrite decide_True by done|]. rewrite decide_False by lia.
  unfold after_calls, st2_request_out, mbind, M_bind, list_bind, modify, gets, when.
  cbn [foldl call_ac call_requests]. destruct (2 <? length d)%nat; destruct s; cbn; [|done].
  unfold set_usb_out. cbn. by rewrite <-app_assoc.
Qed.

Lemma call_ac_hdr calls ac : ac_hdr (foldl call_ac ac calls) = ac_hdr ac.
Proof. revert ac. induction calls as [|f calls IH]; intros ac; [done|]. cbn. rewrite IH. by destruct f. Qed.

Lemma call_ac_wf calls ac : apdu_wf ac → apdu_wf (foldl call_ac ac calls).
Proof. revert ac. induction calls as [|f calls IH]; intros ac Hw; [done|]. cbn. apply IH. by destruct f. Qed.

Lemma after_calls_nil s : after_calls [] s = s.
Proof. unfold after_calls. cbn. rewrite app_nil_r. by destruct s. Qed.

Lemma after_calls_cons f calls s : after_calls calls (after_calls [f] s) = after_calls (f :: calls) s.
Proof.
  unfold after_calls. cbn [foldl usb_out set_usb_out st_ac set_st_ac].
  assert (ac_hdr (call_ac (st_ac s) f) = ac_hdr (st_ac s)) as -> by exact (call_ac_hdr [f] (st_ac s)).
  rewrite bind_cons. change ([f] ≫= ?g) with (g f ++ []). by rewrite app_nil_r, <-app_assoc.
Qed.

(** What the board is told is a function of the calls, and of the APDU in progress. *)
Lemma frontend_calls_eq calls s :
  for_each st2_frontend calls s =
    if decide (Exists bad_rapdu calls) then Undef else Done ((), after_calls calls s).
Proof.
  revert s. induction calls as [|f calls IH]; intros s.
  - rewrite decide_False by (by intros ?%Exists_nil). by rewrite after_calls_nil.
  - cbn [for_each]. unfold mbind, M_bind. rewrite frontend_call_eq. destruct (decide (bad_rapdu f)) as [Hb|Hb].
    + by rewrite decide_True by (by left).
    + rewrite IH, after_calls_cons. apply decide_ext. rewrite Exists_cons. tauto.
Qed.

(** The events by which the modem reaches the client call nothing but the script. *)
Definition from_modem (v : client_event) : Prop :=
  match v with CeStatus _ | CePts _ | CeTpdu _ => True | _ => False end.

Lemma modem_dropped (E : abort → Prop) e bc fi ev d (Q : Z → bankd_client → Prop) :
  main_fi bc = Some fi → fi_state fi ≠ MF_ST_OPERATIONAL →
  match ev with MF_E_MDM_STATUS_IND | MF_E_MDM_PTS_IND | MF_E_MDM_TPDU => True | _ => False end → Q (- 1) bc →
  wpe E (main_dispatch (client_K e) ev d) bc Q.
Proof.
  intros Hfi Hst Hev HQ. eapply (wp_main_dispatch e _ 9); [done|].
  destruct ev; try done; destruct (fi_state fi); done.
Qed.

Lemma from_modem_calls e v bc bc' :
  client_inv (get_monotonic_ms e) bc → from_modem v → run_client_event e v bc = Done ((), bc') →
  frontend_calls (frontend_log bc') = frontend_calls (frontend_log bc).
Proof.
  intros Hinv Hv Hrun. pose proof Hinv as [_ _ _ (fi & Hfi & _)].
  pose proof (connected_operational _ _ _ Hinv Hfi) as Hcon.
  assert (wlp (run_client_event e v) bc (λ _ bc', bc' = bc) →
    frontend_calls (frontend_log bc') = frontend_calls (frontend_log bc)) as Hsame.
  { intros Hwp. pose proof (wp_done_inv _ _ (λ _ b, b = bc) _ _ Hwp Hrun) as Heq. cbn in Heq. by rewrite Heq. }
  destruct v as [|w|w|st|buf|buf]; [done|done|done|..].
  - destruct (connected (bankd_conn bc)) eqn:Hc.
    + destruct (modem_status_event e bc st Hinv Hc) as (slot & bc1 & _ & Hst & _ & _ & Hcalls & _).
      rewrite Hst in Hrun. injection Hrun as <-. exact Hcalls.
    + apply Hsame. cbn [run_client_event]. apply wp_bind. eapply modem_dropped; [exact Hfi| |exact I|apply wp_ret; reflexivity].
      intros Hst. by rewrite Hst in Hcon.
  - apply Hsame. cbn [run_client_event]. apply wp_bind.
    destruct (decide (fi_state fi = MF_ST_OPERATIONAL)) as [Hst|Hst].
    + eapply (wp_main_dispatch e _ 9); [done|]. rewrite Hst. by apply wp_ret, wp_ret.
    + eapply modem_dropped; [exact Hfi|exact Hst|exact I|apply wp_ret; reflexivity].
  - destruct (modem_tpdu_event e bc buf Hinv) as (slot & _ & Htp). rewrite Htp in Hrun. injection Hrun as <-. reflexivity.
Qed.

Lemma from_modem_scripts e v bc bc' calls :
  client_inv (get_monotonic_ms e) bc → from_modem v → run_client_event e v bc = Done ((), bc') →
  frontend_log bc' = frontend_log bc ++ calls → frontend_calls calls = [].
Proof.
  intros Hinv Hv Hrun Hlog. pose proof (from_modem_calls _ _ _ _ Hinv Hv Hrun) as Hc.
  rewrite Hlog, frontend_calls_app in Hc. apply (app_inv_head (frontend_calls (frontend_log bc))).
  by rewrite app_nil_r.
Qed.

(** Calls of the script alone leave the board alone. *)
Lemma scripts_only calls : frontend_calls calls = [] → ∀ s, after_calls calls s = s.
Proof.
  induction calls as [|f calls IH]; intros Hf s; [apply after_calls_nil|].
  rewrite <-after_calls_cons. unfold frontend_calls in Hf. rewrite filter_cons in Hf.
  destruct f; try (by rewrite decide_True in Hf by (by cbn)).
  rewrite decide_False in Hf by (cbn; auto). rewrite IH by exact Hf.
  unfold after_calls. cbn. rewrite app_nil_r. by destruct s.
Qed.

Lemma scripts_not_bad calls : frontend_calls calls = [] → ¬ Exists bad_rapdu calls.
Proof.
  intros Hf Hb. apply Exists_exists in Hb as (f & Hin & Hbad).
  assert (f ∈ frontend_calls calls) as Hc; [|rewrite Hf in Hc; by apply not_elem_of_nil in Hc].
  unfold frontend_calls. apply list_elem_of_filter. split; [|done]. by destruct f.
Qed.
End requests.

(** ** Sessions *)

(** The position of the SIM switch of the board, and of the presence pin. *)
Definition select_of (r : st2_request) : option bool :=
  match r with St2SimSelectRemote => Some true | St2SimSelectLocal => Some false | _ => None end.
Definition insert_of (r : st2_request) : option bool :=
  match r with St2CardInsert b => Some b | _ => None end.

Definition last_of (g : st2_request → option bool) (out : list st2_request) : bool :=
  default false (last (omap g out)).

Lemma last_of_app g a b :
  last_of g (a ++ b) = match last (omap g b) with Some x => x | None => last_of g a end.
Proof. unfold last_of. rewrite omap_app, last_app. by destruct (last (omap g b)). Qed.

(** Only requests of sessions count. *)
Lemma last_of_session g out :
  (∀ r, session_request r = false → g r = None) →
  last_of g (filter (λ r, session_request r = true) out) = last_of g out.
Proof.
  intros Hg. unfold last_of. f_equal. f_equal. induction out as [|r out IH]; [done|]. rewrite filter_cons.
  destruct (session_request r) eqn:Hr; [rewrite decide_True by done|rewrite decide_False by done]; cbn.
  - by rewrite IH.
  - rewrite Hg by done. exact IH.
Qed.

Section session.
Context `{OsmoLib, StreamCliLib, RsproCodec, IpaBtsLib, InetNtop, ClientBuild, SimtraceProt, ApduLib}.

(** What a call means for the session of the board. *)
Definition call_session (f : frontend_call) : list st2_request :=
  filter (λ r, session_request r = true) (call_requests [] f).

Lemma card_session d : call_session (frontend_handle_card2modem d) = [].
Proof. unfold call_session. cbn [call_requests]. by destruct (2 <? length d)%nat. Qed.

Lemma call_session_hdr hdr f :
  filter (λ r, session_request r = true) (call_requests hdr f) = call_session f.
Proof. destruct f; try done. unfold call_session. cbn [call_requests]. by destruct (2 <? length data)%nat. Qed.

Lemma calls_session hdr calls :
  filter (λ r, session_request r = true) (calls ≫= call_requests hdr) = calls ≫= call_session.
Proof.
  induction calls as [|f calls IH]; [done|]. rewrite !bind_cons, filter_app, IH. by rewrite call_session_hdr.
Qed.

Lemma calls_session_scripts calls : frontend_calls calls ≫= call_session = calls ≫= call_session.
Proof.
  induction calls as [|f calls IH]; [done|]. unfold frontend_calls. rewrite filter_cons.
  destruct f; try (rewrite decide_True by done; rewrite !bind_cons; by rewrite <-IH).
  rewrite decide_False by (cbn; auto). exact IH.
Qed.

(** A session is open exactly while the remote SIM is selected and the card is there. *)
Lemma session_board k up :
  session k up → last_of select_of (k ≫= call_session) = up ∧ last_of insert_of (k ≫= call_session) = up.
Proof.
  assert (∀ g k l b, last (omap g l) = Some b → last_of g (k ++ l) = b) as Hlast
    by (intros g k0 l b Hl; by rewrite last_of_app, Hl).
  induction 1 as [|k atr Hs IH|k f Hs IH Hf|k Hs IH]; rewrite ?bind_app.
  - done.
  - split; by apply Hlast.
  - rewrite !last_of_app. destruct IH as [-> ->].
    destruct f; try done. by rewrite bind_cons, card_session.
  - split; by apply Hlast.
Qed.
End session.

(** ** Reachable states *)

Section reachable.
Context `{OsmoLib, StreamCliLib, RsproCodec, IpaBtsLib, InetNtop, ClientBuild, SimtraceLaws}.

(** The client is in a state it can reach, the APDU in progress and the buffers
    have their sizes, and the board was told what the client asked for. *)
Record st2_inv (t : Z) (s : st2_state) : Prop := {
  si_client : ∃ t', t' ≤ t ∧ client_reachable t' (st_bc s);
  si_ac : apdu_wf (st_ac s);
  si_bufs : length (in_bufs s) = NUM_IN_XFERS ∧ Forall (λ b, length b = IN_XFER_LENGTH) (in_bufs s);
  si_irq : length (irq_buf s) = IRQ_XFER_LENGTH;
  si_session : filter (λ r, session_request r = true) (usb_out s) = frontend_log (st_bc s) ≫= call_session;
}.

(** How an event of the client can end the program. *)
Definition st2_client_abort (e : srvc_env) (s : st2_state) (v : client_event) (a : abort) : Prop :=
  ce_abort e (st_bc s) v a ∨
  a = AUndef ∧ ∃ bc' calls, run_client_event e v (st_bc s) = Done ((), bc') ∧
    frontend_log bc' = frontend_log (st_bc s) ++ calls ∧ Exists bad_rapdu calls.

Lemma st2_client_done e v s bc' calls :
  run_client_event e v (st_bc s) = Done ((), bc') → frontend_log bc' = frontend_log (st_bc s) ++ calls →
  st2_client e v s = if decide (Exists bad_rapdu calls) then Undef
                     else Done ((), after_calls calls (set_st_bc bc' s)).
Proof.
  intros Hrun Hlog. unfold st2_client, mbind, M_bind, gets, zoom. rewrite Hrun.
  cbn [st_bc set_st_bc]. rewrite Hlog, drop_app_length. apply frontend_calls_eq.
Qed.

Lemma si_reach t s e : st2_inv t s → t ≤ get_monotonic_ms e →
  0 ≤ get_monotonic_ms e ∧ client_inv (get_monotonic_ms e) (st_bc s).
Proof.
  intros [(t' & Ht' & Hc) _ _ _ _] Ht. destruct (client_inv_reachable _ _ Hc) as [H0t Hinv].
  split; [lia|]. eapply client_inv_later; [done|lia].
Qed.

Lemma wp_st2_client (E : abort → Prop) t e v s (Q : () → st2_state → Prop) :
  st2_inv t s → t ≤ get_monotonic_ms e → ce_possible (st_bc s) v →
  (∀ a, st2_client_abort e s v a → E a) → (∀ s', st2_inv (get_monotonic_ms e) s' → Q () s') →
  wpe E (st2_client e v) s Q.
Proof.
  intros [(t' & Ht' & Hc) Hac Hb Hi Hse] Ht Hpos Hab HQ. rewrite wpe_outcome.
  pose proof (client_event_defined t' (st_bc s) e v Hc ltac:(lia) Hpos) as Hd.
  destruct (run_client_event e v (st_bc s)) as [[[] bc']| | |] eqn:Hrun.
  - destruct (client_log_grows e v _ _ Hrun) as [calls Hlog]. rewrite (st2_client_done _ _ _ _ _ Hrun Hlog).
    case_decide as Hbad; [apply Hab; right; split; [done|by exists bc', calls]|].
    apply HQ. split; cbn; [by exists (get_monotonic_ms e)|by apply call_ac_wf|done|done|].
    by rewrite filter_app, calls_session, Hse, Hlog, bind_app.
  - unfold st2_client, mbind, M_bind, gets, zoom. rewrite Hrun. apply Hab. by left.
  - unfold st2_client, mbind, M_bind, gets, zoom. rewrite Hrun. apply Hab. by left.
  - done.
Qed.

(** Events of the modem cannot end the client. *)
Lemma from_modem_no_abort t e v s a :
  st2_inv t s → t ≤ get_monotonic_ms e → from_modem v → ¬ st2_client_abort e s v a.
Proof.
  intros Hinv Ht Hv [Ha|(_ & bc' & calls & Hrun & Hlog & Hbad)]; [by destruct v|].
  destruct (si_reach _ _ _ Hinv Ht) as [_ Hci].
  apply (scripts_not_bad calls); [|done]. by eapply from_modem_scripts.
Qed.

Lemma wp_from_modem (E : abort → Prop) t e v s (Q : () → st2_state → Prop) :
  st2_inv t s → t ≤ get_monotonic_ms e → from_modem v →
  (∀ s', st2_inv (get_monotonic_ms e) s' → Q () s') → wpe E (st2_client e v) s Q.
Proof.
  intros Hinv Ht Hv HQ. eapply wp_st2_client; [done|done| | |done].
  - by destruct v.
  - intros a Ha. exfalso. by eapply from_modem_no_abort.
Qed.

(** A message of data whose length is that of more than the buffer holds. *)
Definition rx_overrun (buf : bytes) : Prop :=
  hdr_msg_type buf = SIMTRACE_MSGT_DO_CEMU_RX_DATA ∧
  (length buf - sizeof_msg_hdr - sizeof_rx_data < rx_data_len (drop sizeof_msg_hdr buf))%nat.

(** How an event can end the program. *)
Definition st2_abort (e : srvc_env) (s : st2_state) (v : st2_event) (a : abort) : Prop :=
  match v with
  | StUsbIn k (XferCompleted data) resubmit =>
      a = APanic ∧ resubmit = false ∨
      a = AUndef ∧ ∃ buf, in_bufs s !! k = Some buf ∧ rx_overrun (overwrite data buf)
  | StUsbIrq (XferCompleted _) resubmit => a = APanic ∧ resubmit = false
  | StUsbIn _ _ _ | StUsbIrq _ _ => a = APanic
  | StServer v => st2_client_abort e s (CeServer v) a
  | StBankd v => st2_client_abort e s (CeBankd v) a
  end.

Lemma overwrite_length data buf n :
  length buf = n → (length data ≤ n)%nat → length (overwrite data buf) = n.
Proof. intros Hb Hd. unfold overwrite. rewrite length_app, length_drop. lia. Qed.

Lemma payload_eq n buf (s : st2_state) :
  (sizeof_msg_hdr + n ≤ length buf)%nat → st2_payload n buf s = Done (drop sizeof_msg_hdr buf, s).
Proof. intros Hn. unfold st2_payload. by destruct (Nat.leb_spec (sizeof_msg_hdr + n) (length buf)); [|lia]. Qed.

Lemma inv_set_ac t s ac : st2_inv t s → apdu_wf ac → st2_inv t (set_st_ac ac s).
Proof. intros [] Hw. by split. Qed.

Lemma inv_request t s r : st2_inv t s → session_request r = false → st2_inv t (set_usb_out (usb_out s ++ [r]) s).
Proof.
  intros [? ? ? ? Hse] Hr. split; try done. cbn. rewrite filter_app, filter_cons.
  rewrite decide_False by (by rewrite Hr). by rewrite app_nil_r.
Qed.

Lemma inv_later t t' s : st2_inv t s → t ≤ t' → st2_inv t' s.
Proof. intros [(t0 & ? & ?) ? ? ? ?] Ht. split; try done. exists t0. split; [lia|done]. Qed.

Lemma wp_rx_da (E : abort → Prop) t e buf s (Q : Z → st2_state → Prop) :
  st2_inv t s → t ≤ get_monotonic_ms e → length buf = IN_XFER_LENGTH →
  hdr_msg_type buf = SIMTRACE_MSGT_DO_CEMU_RX_DATA → (rx_overrun buf → E AUndef) →
  (∀ s', st2_inv (get_monotonic_ms e) s' → Q 0 s') →
  wpe E (process_do_rx_da e buf) s Q.
Proof.
  intros Hinv Ht Hlen Hty Hover HQ. pose proof rx_fits as Hfit. unfold process_do_rx_da. apply wp_bind.
  eapply wp_run; [apply payload_eq; lia|]. destruct (Nat.ltb_spec (length (drop sizeof_rx_data
    (drop sizeof_msg_hdr buf))) (rx_data_len (drop sizeof_msg_hdr buf))) as [Hlt|Hge].
  { apply wp_undef, Hover. split; [done|]. rewrite !length_drop in Hlt. lia. }
  apply wp_bind, wp_gets. set (seg := osmo_apdu_segment_in _ _ _).
  assert (apdu_wf seg.2) as Hwf by (apply apdu_segment_wf, Hinv). destruct seg as [rc ac].
  apply wp_bind, wp_modify. assert (st2_inv t (set_st_ac ac s)) as Hinv1 by (by apply inv_set_ac).
  apply wp_bind. destruct (negb _).
  - destruct (Nat.ltb_spec (length (ac_dc ac)) (lc_tot ac)) as [Hl|_]; [unfold apdu_wf in Hwf; cbn in Hwf; lia|].
    eapply wp_from_modem; [done|done|done|]. intros s' Hs'. by apply wp_ret, HQ.
  - apply wp_when; intros _.
    + apply wp_modify, wp_ret, HQ. apply inv_request; [|done]. by eapply inv_later.
    + apply wp_ret, HQ. by eapply inv_later.
Qed.

Lemma wp_usb_msg (E : abort → Prop) t e buf s (Q : Z → st2_state → Prop) :
  st2_inv t s → t ≤ get_monotonic_ms e → length buf = IN_XFER_LENGTH → (rx_overrun buf → E AUndef) →
  (∀ rc s', st2_inv (get_monotonic_ms e) s' → Q rc s') → wpe E (process_usb_msg e buf) s Q.
Proof.
  intros Hinv Ht Hlen Hover HQ. assert (st2_inv (get_monotonic_ms e) s) as Hinv' by (by eapply inv_later).
  unfold process_usb_msg.
  destruct (_ =? SIMTRACE_MSGT_BD_CEMU_STATUS); [by apply wp_ret, HQ|].
  destruct (_ =? SIMTRACE_MSGT_DO_CEMU_PTS).
  { pose proof pts_fits as Hfit. unfold process_do_pts. apply wp_bind. eapply wp_run; [apply payload_eq; lia|].
    apply wp_bind. eapply wp_from_modem; [done|done|done|]. intros s' Hs'. by apply wp_ret, HQ. }
  destruct (Z.eqb_spec (hdr_msg_type buf) SIMTRACE_MSGT_DO_CEMU_RX_DATA) as [Hty|_].
  { eapply wp_rx_da; [done..|]. intros s' Hs'. by apply HQ. }
  destruct (_ =? SIMTRACE_MSGT_BD_CEMU_CONFIG); by apply wp_ret, HQ.
Qed.

Lemma wp_st2_event (E : abort → Prop) t e v s (Q : () → st2_state → Prop) :
  st2_inv t s → t ≤ get_monotonic_ms e → st2_possible s v → (∀ a, st2_abort e s v a → E a) →
  (∀ s', st2_inv (get_monotonic_ms e) s' → Q () s') → wpe E (run_st2_event e v) s Q.
Proof.
  intros Hinv Ht Hpos Hab HQ. destruct v as [k x r|x r|v|v]; cbn [run_st2_event].
  - destruct x as [data| |]; [|by apply wp_panic, Hab..]. destruct Hpos as [Hk Hd]. cbn in Hd.
    destruct (si_bufs _ _ Hinv) as [Hn Hbufs]. unfold usb_in_xfer_cb. apply wp_bind, wp_gets, wp_bind.
    destruct (lookup_lt_is_Some_2 (in_bufs s) k) as [buf Hbuf]; [by rewrite Hn|]. rewrite Hbuf.
    apply wp_ret. pose proof (Forall_lookup_1 _ _ _ _ Hbufs Hbuf) as Hlen. cbn in Hlen.
    pose proof (overwrite_length _ _ _ Hlen Hd) as Hlen1. apply wp_bind, wp_modify, wp_bind.
    eapply wp_usb_msg; [|exact Ht|done| |].
    + destruct Hinv. split; try done. cbn. split; [by rewrite length_insert|]. by apply Forall_insert.
    + intros Hov. apply Hab. right. split; [done|]. by exists buf.
    + intros rc s' Hs'. apply wp_assert; [|intros _; by apply HQ]. intros Hr. apply Hab. by left.
  - destruct x as [data| |]; [|by apply wp_panic, Hab..]. cbn in Hpos. unfold usb_irq_xfer_cb.
    apply wp_bind, wp_gets, wp_bind, wp_modify, wp_bind.
    set (s1 := set_irq_buf _ s). pose proof (overwrite_length _ _ _ (si_irq _ _ Hinv) Hpos) as Hlen.
    assert (st2_inv t s1) as Hinv1 by (destruct Hinv; by split).
    assert (∀ s', st2_inv (get_monotonic_ms e) s' → wpe E (osmo_assert r) s' Q) as Hend.
    { intros s' Hs'. apply wp_assert; [|intros _; by apply HQ]. intros Hr. by apply Hab. }
    unfold process_usb_msg_irq. destruct (_ =? _); [|apply wp_ret, Hend; by eapply inv_later].
    unfold process_irq_status. pose proof status_fits as Hfit. apply wp_bind.
    eapply wp_run; [apply payload_eq; lia|]. apply wp_bind. eapply wp_from_modem; [exact Hinv1|done|done|].
    intros s' Hs'. by apply wp_ret, Hend.
  - by eapply wp_st2_client.
  - by eapply wp_st2_client.
Qed.

(** ** Properties *)

Definition usb_up : list usb_action :=
  [UsbInit; UsbOpen; UsbClaim; UsbSubmitIrq; UsbSubmitIn; UsbSubmitIn; UsbSubmitIn; UsbSubmitIn].

(** A start that failed left nothing open. *)
Lemma failed rc acts :
  rc < 0 → acts ∈ [[]; [UsbInit]; [UsbInit; UsbOpen; UsbClose; UsbExit];
                   [UsbInit; UsbOpen; UsbClaim; UsbClose; UsbExit]] →
  rc < 0 ∧ (UsbOpen ∈ acts ↔ UsbClose ∈ acts) ∧
  acts ∈ [[]; [UsbInit]; [UsbInit; UsbOpen; UsbClose; UsbExit];
          [UsbInit; UsbOpen; UsbClaim; UsbClose; UsbExit]].
Proof.
  intros Hrc Hin. split; [done|]. split; [|done].
  rewrite !list_elem_of_In in *. cbn in Hin. decompose [or] Hin; subst; cbn; intuition congruence.
Qed.

Ltac failed_tac := apply failed; [lia|rewrite list_elem_of_In; cbn; tauto].

(** The state the loop starts in. *)
Definition st2_init (u : usb_start) (o : client_opts) (bc : bankd_client) : st2_state :=
  St2State bc apdu_context_zero (map (λ k, new_buffer u k IN_XFER_LENGTH) [1; 2; 3; 4]%nat)
    (new_buffer u 0 IRQ_XFER_LENGTH) [St2Config (cardem_config o)].

Lemma start_outcome u o bc :
  match st2_user_main u o bc [] with
  | Done (inr s, acts) => s = st2_init u o bc ∧ acts = usb_up ∧ 0 ≤ libusb_init_rc u ∧
      usb_open u (co_usb o) = true ∧ 0 ≤ claim_rc u ∧ 0 ≤ ep_addrs_rc u ∧
      ep_in u ≠ 0 ∧ ep_out u ≠ 0 ∧ ep_irq_in u ≠ 0
  | Done (inl rc, acts) => rc < 0 ∧ (UsbOpen ∈ acts ↔ UsbClose ∈ acts) ∧
      acts ∈ [[]; [UsbInit]; [UsbInit; UsbOpen; UsbClose; UsbExit];
              [UsbInit; UsbOpen; UsbClaim; UsbClose; UsbExit]]
  | Panic => ∃ k, (k ≤ NUM_IN_XFERS)%nat ∧ submit_ok u k = false
  | Undef | NoFuel => False
  end.
Proof.
  enough (wpe (λ a, a = APanic ∧ ∃ k, (k ≤ NUM_IN_XFERS)%nat ∧ submit_ok u k = false)
    (st2_user_main u o bc) [] (λ r acts, match r with
    | inr s => s = st2_init u o bc ∧ acts = usb_up ∧ 0 ≤ libusb_init_rc u ∧
        usb_open u (co_usb o) = true ∧ 0 ≤ claim_rc u ∧ 0 ≤ ep_addrs_rc u ∧
        ep_in u ≠ 0 ∧ ep_out u ≠ 0 ∧ ep_irq_in u ≠ 0
    | inl rc => rc < 0 ∧ (UsbOpen ∈ acts ↔ UsbClose ∈ acts) ∧
        acts ∈ [[]; [UsbInit]; [UsbInit; UsbOpen; UsbClose; UsbExit];
                [UsbInit; UsbOpen; UsbClaim; UsbClose; UsbExit]] end)) as Hwp.
  { rewrite wpe_outcome in Hwp. destruct (st2_user_main u o bc []) as [[[] ?]| | |]; try done.
    - by destruct Hwp.
    - by destruct Hwp.
    - by destruct Hwp. }
  unfold st2_user_main, close_exit, usb_do.
  destruct (Z.ltb_spec (libusb_init_rc u) 0) as [?|Hi]; [apply wp_ret; failed_tac|].
  apply wp_bind, wp_modify. destruct (usb_open u (co_usb o)) eqn:Ho; cbn [negb];
    [|apply wp_ret; failed_tac].
  apply wp_bind, wp_modify. destruct (Z.ltb_spec (claim_rc u) 0) as [?|Hc]; [wp_steps; failed_tac|].
  apply wp_bind, wp_modify. destruct (Z.ltb_spec (ep_addrs_rc u) 0) as [?|He]; [wp_steps; failed_tac|].
  destruct (Z.eqb_spec (ep_in u) 0); [cbn [orb]; wp_steps; failed_tac|].
  destruct (Z.eqb_spec (ep_out u) 0); [cbn [orb]; wp_steps; failed_tac|].
  destruct (Z.eqb_spec (ep_irq_in u) 0); [cbn [orb]; wp_steps; failed_tac|]. cbn [orb].
  unfold allocate_and_submit_irq, allocate_and_submit_in, usb_do.
  wp_steps; try (split; [done|]; eexists; split; [|eassumption]; unfold NUM_IN_XFERS; lia).
  by split_and!.
Qed.

(** The start ([client_user_main]).  The loop is reached with the five transfers submitted and the
    firmware configured if libusb is available, the device can be opened and
    claimed, and it has its three end points; otherwise a device that was opened
    is closed again (but libusb is not shut down if it could not be opened), and
    an error is returned.  A transfer that cannot be submitted fails an
    assertion. *)
Theorem simtrace2_start u o bc :
  match st2_user_main u o bc [] with
  | Done (inr s, acts) => s = st2_init u o bc ∧ acts = usb_up ∧ 0 ≤ libusb_init_rc u ∧
      usb_open u (co_usb o) = true ∧ 0 ≤ claim_rc u ∧ 0 ≤ ep_addrs_rc u ∧
      ep_in u ≠ 0 ∧ ep_out u ≠ 0 ∧ ep_irq_in u ≠ 0
  | Done (inl rc, acts) => rc < 0 ∧ (UsbOpen ∈ acts ↔ UsbClose ∈ acts) ∧
      acts ∈ [[]; [UsbInit]; [UsbInit; UsbOpen; UsbClose; UsbExit];
              [UsbInit; UsbOpen; UsbClaim; UsbClose; UsbExit]]
  | Panic => ∃ k, (k ≤ NUM_IN_XFERS)%nat ∧ submit_ok u k = false
  | Undef | NoFuel => False
  end.
Proof. apply start_outcome. Qed.

Lemma new_buffer_length u k n : length (new_buffer u k n) = n.
Proof. unfold new_buffer. by rewrite length_map, length_seq. Qed.

Lemma started u o bc s acts : st2_user_main u o bc [] = Done (inr s, acts) → s = st2_init u o bc.
Proof. intros Hrun. pose proof (start_outcome u o bc) as Hs. rewrite Hrun in Hs. by destruct Hs. Qed.

Lemma st2_reachable_inv t s : st2_reachable t s → st2_inv t s.
Proof.
  induction 1 as [t u o bc s acts Hr Hlog Hrun|t e v s s' Hr Hinv Ht Hpos Hrun].
  - apply started in Hrun as ->. split; cbn [st2_init st_bc st_ac in_bufs irq_buf usb_out map].
    + by exists t.
    + apply apdu_zero_wf.
    + split; [done|]. repeat (apply Forall_cons_2; [apply new_buffer_length|]). apply Forall_nil_2.
    + apply new_buffer_length.
    + by rewrite Hlog.
  - eapply (wp_done_inv _ _ (λ _, st2_inv (get_monotonic_ms e))); [|exact Hrun].
    eapply (wp_st2_event any_abort); [done..|]. auto.
Qed.

(** C37. From every state the program can reach every event is processed to the end,
    except that it exits if a transfer fails or cannot be submitted again, and
    that it reads behind the buffer if a message says it has more data than the
    buffer, and in front of a response of the bankd that has no status word;
    and what ends the client. *)
Theorem simtrace2_events_defined t s e v :
  st2_reachable t s → t ≤ get_monotonic_ms e → st2_possible s v →
  match run_st2_event e v s with
  | Done (_, s') => st2_reachable (get_monotonic_ms e) s'
  | Panic => st2_abort e s v APanic
  | Undef => st2_abort e s v AUndef
  | NoFuel => False
  end.
Proof.
  intros Hr Ht Hpos. pose proof (st2_reachable_inv _ _ Hr) as Hinv.
  assert (wpe (st2_abort e s v) (run_st2_event e v) s (λ _ _, True)) as Hwp by (by eapply wp_st2_event).
  rewrite wpe_outcome in Hwp. destruct (run_st2_event e v s) as [[[] s']| | |] eqn:Hrun; try done.
  - by eapply st2r_event.
  - destruct v as [k [] r|[] r|v|v]; cbn in Hwp; try (by destruct Hwp); try (by destruct Hwp as [[]|[]]);
      destruct Hwp as [Ha|[? _]]; try done; by destruct Ha as [|[? _]].
Qed.

(** C36. The board was told to switch the SIM, to insert and remove the card, to reset
    the modem and which ATR to use exactly as the client asked for, in this
    order; and in every reachable state the remote SIM is selected and the card
    inserted if and only if the client is OPERATIONAL, that is, its connection to
    the bankd is up. *)
Theorem board_follows_session t s fi :
  st2_reachable t s → main_fi (st_bc s) = Some fi →
  filter (λ r, session_request r = true) (usb_out s) = frontend_log (st_bc s) ≫= call_session ∧
  last_of select_of (usb_out s) = operational (fi_state fi) ∧
  last_of insert_of (usb_out s) = operational (fi_state fi) ∧
  operational (fi_state fi) = connected (bankd_conn (st_bc s)).
Proof.
  intros Hr Hfi. pose proof (st2_reachable_inv _ _ Hr) as [(t' & Ht' & Hc) _ _ _ Hse].
  destruct (client_inv_reachable _ _ Hc) as [_ Hinv]. split; [done|].
  pose proof Hinv as [_ _ _ (fi' & Hfi' & _ & _ & Hs)]. rewrite Hfi in Hfi'. injection Hfi' as <-.
  apply session_board in Hs as [Hsel Hins]. rewrite calls_session_scripts, <-Hse in Hsel, Hins.
  rewrite last_of_session in Hsel, Hins by (by intros []).
  split; [done|]. split; [done|]. symmetry. by eapply connected_operational.
Qed.

(** ** Exchanges *)

(** The part of an APDU in a message of data, and whether it is its first. *)
Definition rx_segment (buf : bytes) : octets :=
  let p := drop sizeof_msg_hdr buf in take (rx_data_len p) (drop sizeof_rx_data p).
Definition rx_new (buf : bytes) : bool :=
  negb (Z.land (rx_flags (drop sizeof_msg_hdr buf)) CEMU_DATA_F_TPDU_HDR =? 0).

Definition is_rx_data (buf : bytes) : Prop :=
  hdr_msg_type buf = SIMTRACE_MSGT_DO_CEMU_RX_DATA ∧ ¬ rx_overrun buf.

(** The APDU in the context, and whether it is complete. *)
Definition capdu (ac : osmo_apdu_context) : octets := ac_hdr ac ++ take (lc_tot ac) (ac_dc ac).
Definition is_complete (rc : Z) : bool := negb (Z.land rc APDU_ACT_TX_CAPDU_TO_CARD =? 0).

(** What a message of data makes of a state with slot [slot]. *)
Definition rx_result (slot : ClientSlot_t) (rc : Z) (ac : osmo_apdu_context) (s : st2_state) : st2_state :=
  let bc := st_bc s in
  let s := set_st_ac ac s in
  if is_complete rc then
    set_st_bc (set_bankd_conn (with_sent
      (rspro_gen_TpduModem2Card slot (bank_slot2rspro (bankd_slot bc)) (capdu ac)) (bankd_conn bc)) bc) s
  else if (lc_cur ac <? lc_tot ac)%nat then
    set_usb_out (usb_out s ++ [St2PbAndRx (hdr_ins (ac_hdr ac)) (Z.of_nat (lc_tot ac - lc_cur ac))]) s
  else s.

Lemma rx_data_type e buf s :
  hdr_msg_type buf = SIMTRACE_MSGT_DO_CEMU_RX_DATA → process_usb_msg e buf s = process_do_rx_da e buf s.
Proof.
  intros Hty. pose proof msgt_distinct as Hd. rewrite !NoDup_cons, !not_elem_of_cons in Hd.
  unfold process_usb_msg. rewrite Hty. destruct Hd as ((H1' & H2' & _) & (H3' & _) & _).
  rewrite (proj2 (Z.eqb_neq _ SIMTRACE_MSGT_BD_CEMU_STATUS)) by congruence.
  rewrite (proj2 (Z.eqb_neq _ SIMTRACE_MSGT_DO_CEMU_PTS)) by congruence. by rewrite Z.eqb_refl.
Qed.

(** A message of data: the APDU is sent to the bankd if it is complete; else the
    board is told to ask the modem for the rest, if any is missing. *)
Lemma rx_event t s e k data buf rc ac :
  st2_inv t s → t ≤ get_monotonic_ms e →
  in_bufs s !! k = Some buf → (length data ≤ IN_XFER_LENGTH)%nat → is_rx_data (overwrite data buf) →
  osmo_apdu_segment_in (st_ac s) (rx_segment (overwrite data buf)) (rx_new (overwrite data buf)) = (rc, ac) →
  ∃ slot, clslot (srvc_cfg (srv_conn (st_bc s))) = Some slot ∧
    run_st2_event e (StUsbIn k (XferCompleted data) true) s =
      Done ((), rx_result slot rc ac (set_in_bufs (<[k := overwrite data buf]> (in_bufs s)) s)).
Proof.
  intros Hinv Ht Hbuf Hd [Hty Hnov] Hseg. set (b := overwrite data buf) in *.
  destruct (si_reach _ _ _ Hinv Ht) as [_ Hci]. destruct (si_bufs _ _ Hinv) as [_ Hbufs].
  pose proof (Forall_lookup_1 _ _ _ _ Hbufs Hbuf) as Hlen. cbn in Hlen.
  pose proof (overwrite_length _ _ _ Hlen Hd) as Hlb. fold b in Hlb.
  destruct (modem_tpdu_event e (st_bc s) (capdu ac) Hci) as (slot & Hsl & Htp). exists slot. split; [done|].
  assert (apdu_wf ac) as Hwf by (change ac with (rc, ac).2; rewrite <-Hseg; apply apdu_segment_wf, Hinv).
  set (s1 := set_in_bufs _ s).
  assert (process_do_rx_da e b s1 = Done (0, rx_result slot rc ac s1)) as Hrx.
  { unfold process_do_rx_da, mbind, M_bind. rewrite payload_eq by (rewrite Hlb; apply rx_fits).
    destruct (Nat.ltb_spec (length (drop sizeof_rx_data (drop sizeof_msg_hdr b)))
      (rx_data_len (drop sizeof_msg_hdr b))) as [Hlt|_].
    { exfalso. apply Hnov. split; [done|]. rewrite !length_drop in Hlt. lia. }
    unfold gets. fold (rx_segment b) (rx_new b). cbn [st_ac s1 set_in_bufs]. rewrite Hseg. unfold modify.
    fold (is_complete rc). unfold rx_result. destruct (is_complete rc).
    - destruct (Nat.ltb_spec (length (ac_dc ac)) (lc_tot ac)); [unfold apdu_wf in Hwf; lia|].
      fold (capdu ac). erewrite st2_client_done with (calls := []); [|exact Htp|by rewrite app_nil_r].
      rewrite decide_False by (by intros ?%Exists_nil). by rewrite after_calls_nil.
    - by destruct (lc_cur ac <? lc_tot ac)%nat. }
  cbn [run_st2_event]. unfold usb_in_xfer_cb, mbind, M_bind, gets. rewrite Hbuf. cbn [deref].
  unfold mret, M_ret, modify. fold b s1. by rewrite rx_data_type, Hrx.
Qed.

(** A response of the bankd. *)
Lemma response_event t s e res m v tg b c f d :
  st2_inv t s → t ≤ get_monotonic_ms e → connected (bankd_conn (st_bc s)) = true →
  0 < res → ipa_proto m = IPAC_PROTO_OSMO → ipa_proto_ext m = IPAC_PROTO_EXT_RSPRO →
  rspro_dec_msg (l2_data m) = Some (MkRsproPDU v tg (PR_tpduCardToModem b c f d)) →
  run_st2_event e (StBankd (CvRead res m)) s =
    if (length d <? 2)%nat then Undef
    else Done ((), after_calls [frontend_handle_card2modem d]
      (set_st_bc (set_frontend_log (frontend_log (st_bc s) ++ [frontend_handle_card2modem d]) (st_bc s)) s)).
Proof.
  intros Hinv Ht Hcon Hres Hp1 Hp2 Hdec. destruct (si_reach _ _ _ Hinv Ht) as [_ Hci].
  pose proof (bankd_tpdu_event e (st_bc s) res m v tg b c f d Hci Hres Hp1 Hp2 Hdec) as Hrsp.
  rewrite Hcon in Hrsp. cbn [run_st2_event]. erewrite st2_client_done; [|exact Hrsp|reflexivity].
  destruct (Nat.ltb_spec (length d) 2).
  - by rewrite decide_True by (by left).
  - rewrite decide_False; [done|]. rewrite Exists_cons, Exists_nil. intros [Hb|[]]. unfold bad_rapdu in Hb. lia.
Qed.

(** A command of the modem whose data comes in a second message, and the response
    of the card: after the first message the board asks the modem for what is
    missing and nothing is sent; after the second the whole C-APDU is sent to
    the bankd once; and the response of the bankd is given to the modem as
    procedure byte and data, if there is data, and then its status word.  *)
Theorem simtrace2_exchange t s e1 e2 e3 k1 k2 d1 d2 buf1 buf2 rc1 rc2 ac1 ac2 res m v tg b c f d :
  st2_reachable t s → t ≤ get_monotonic_ms e1 → get_monotonic_ms e1 ≤ get_monotonic_ms e2 →
  get_monotonic_ms e2 ≤ get_monotonic_ms e3 → connected (bankd_conn (st_bc s)) = true →
  in_bufs s !! k1 = Some buf1 → (length d1 ≤ IN_XFER_LENGTH)%nat → is_rx_data (overwrite d1 buf1) →
  osmo_apdu_segment_in (st_ac s) (rx_segment (overwrite d1 buf1)) (rx_new (overwrite d1 buf1)) = (rc1, ac1) →
  is_complete rc1 = false → (lc_cur ac1 < lc_tot ac1)%nat →
  <[k1 := overwrite d1 buf1]> (in_bufs s) !! k2 = Some buf2 → (length d2 ≤ IN_XFER_LENGTH)%nat →
  is_rx_data (overwrite d2 buf2) →
  osmo_apdu_segment_in ac1 (rx_segment (overwrite d2 buf2)) (rx_new (overwrite d2 buf2)) = (rc2, ac2) →
  is_complete rc2 = true →
  0 < res → ipa_proto m = IPAC_PROTO_OSMO → ipa_proto_ext m = IPAC_PROTO_EXT_RSPRO →
  rspro_dec_msg (l2_data m) = Some (MkRsproPDU v tg (PR_tpduCardToModem b c f d)) → (2 ≤ length d)%nat →
  ∃ slot s1 s2 s3, clslot (srvc_cfg (srv_conn (st_bc s))) = Some slot ∧
    run_st2_event e1 (StUsbIn k1 (XferCompleted d1) true) s = Done ((), s1) ∧
    st_bc s1 = st_bc s ∧
    usb_out s1 = usb_out s ++ [St2PbAndRx (hdr_ins (ac_hdr ac1)) (Z.of_nat (lc_tot ac1 - lc_cur ac1))] ∧
    run_st2_event e2 (StUsbIn k2 (XferCompleted d2) true) s1 = Done ((), s2) ∧
    srvc_sent (bankd_conn (st_bc s2)) = srvc_sent (bankd_conn (st_bc s)) ++
      sent_rspro (rspro_gen_TpduModem2Card slot (bank_slot2rspro (bankd_slot (st_bc s))) (capdu ac2)) ∧
    usb_out s2 = usb_out s1 ∧
    run_st2_event e3 (StBankd (CvRead res m)) s2 = Done ((), s3) ∧
    srvc_sent (bankd_conn (st_bc s3)) = srvc_sent (bankd_conn (st_bc s2)) ∧
    usb_out s3 = usb_out s2 ++
      (if (2 <? length d)%nat then [St2PbAndTx (hdr_ins (ac_hdr ac2)) (take (length d - 2) d)] else []) ++
      [St2SwTx (drop (length d - 2) d)].
Proof.
  intros Hr Ht1 Ht2 Ht3 Hcon Hb1 Hl1 Hrx1 Hs1 Hc1 Hm1 Hb2 Hl2 Hrx2 Hs2 Hc2 Hres Hp1 Hp2 Hdec Hlen.
  pose proof (st2_reachable_inv _ _ Hr) as Hinv.
  destruct (rx_event _ _ _ _ _ _ _ _ Hinv Ht1 Hb1 Hl1 Hrx1 Hs1) as (slot & Hsl & Hrun1).
  set (s1 := rx_result slot rc1 ac1 _) in Hrun1.
  assert (s1 = set_usb_out (usb_out s ++ [St2PbAndRx (hdr_ins (ac_hdr ac1)) (Z.of_nat (lc_tot ac1 - lc_cur ac1))])
    (set_st_ac ac1 (set_in_bufs (<[k1 := overwrite d1 buf1]> (in_bufs s)) s))) as Hs1eq.
  { unfold s1, rx_result. rewrite Hc1. by destruct (Nat.ltb_spec (lc_cur ac1) (lc_tot ac1)); [|lia]. }
  clearbody s1. assert (st2_reachable (get_monotonic_ms e1) s1) as Hr1.
  { eapply st2r_event; [exact Hr|done| |exact Hrun1]. split; [|done].
    apply lookup_lt_Some in Hb1. by rewrite (proj1 (si_bufs _ _ Hinv)) in Hb1. }
  pose proof (st2_reachable_inv _ _ Hr1) as Hinv1. subst s1.
  destruct (rx_event _ _ _ _ _ _ _ _ Hinv1 Ht2 Hb2 Hl2 Hrx2 Hs2) as (slot' & Hsl' & Hrun2).
  cbn in Hsl'. rewrite Hsl in Hsl'. injection Hsl' as <-.
  unfold rx_result in Hrun2. rewrite Hc2 in Hrun2. set (s2 := set_st_bc _ _) in Hrun2.
  assert (st2_reachable (get_monotonic_ms e2) s2) as Hr2.
  { eapply st2r_event; [exact Hr1|done| |exact Hrun2]. split; [|done]. cbn in Hb2.
    apply lookup_lt_Some in Hb2. rewrite length_insert, (proj1 (si_bufs _ _ Hinv)) in Hb2. done. }
  pose proof (response_event _ s2 e3 res m v tg b c f d (st2_reachable_inv _ _ Hr2) Ht3 Hcon Hres Hp1 Hp2 Hdec)
    as Hrun3. destruct (Nat.ltb_spec (length d) 2); [lia|].
  eexists slot, _, s2, _. split; [done|]. split; [exact Hrun1|]. split; [done|]. split; [done|].
  split; [exact Hrun2|]. split; [cbn; unfold with_sent; by rewrite Hcon|]. split; [done|].
  split; [exact Hrun3|]. split; [done|]. unfold after_calls, mbind, list_bind. cbn [usb_out set_usb_out call_requests].
  by rewrite app_nil_r.
Qed.

(** A status message on the interrupt end point while the client is connected: the
    bankd is sent the reset, the supply and the clock, never the presence of a
    card; the board and the APDU in progress are left alone. *)
Theorem irq_status_relayed t s e data :
  st2_reachable t s → t ≤ get_monotonic_ms e → connected (bankd_conn (st_bc s)) = true →
  (length data ≤ IRQ_XFER_LENGTH)%nat →
  hdr_msg_type (overwrite data (irq_buf s)) = SIMTRACE_MSGT_BD_CEMU_STATUS →
  let st := irq_phys_status (drop sizeof_msg_hdr (overwrite data (irq_buf s))) in
  ∃ slot s', clslot (srvc_cfg (srv_conn (st_bc s))) = Some slot ∧
    run_st2_event e (StUsbIrq (XferCompleted data) true) s = Done ((), s') ∧
    srvc_sent (bankd_conn (st_bc s')) = srvc_sent (bankd_conn (st_bc s)) ++
      sent_rspro (pdu_v2 (PR_clientSlotStatusInd slot (bank_slot2rspro (bankd_slot (st_bc s)))
        (phys_status (negb (reset_active (ps_flags st) =? 0)) (vcc_present (ps_flags st))
           (clk_active (ps_flags st)) (- 1)))) ∧
    usb_out s' = usb_out s ∧ st_ac s' = st_ac s.
Proof.
  cbn zeta. intros Hr Ht Hcon Hd Hty. set (b := overwrite data (irq_buf s)) in *.
  pose proof (st2_reachable_inv _ _ Hr) as Hinv. destruct (si_reach _ _ _ Hinv Ht) as [_ Hci].
  pose proof (overwrite_length _ _ _ (si_irq _ _ Hinv) Hd) as Hlb. fold b in Hlb.
  set (st := irq_phys_status (drop sizeof_msg_hdr b)).
  destruct (modem_status_event e (st_bc s) st Hci Hcon) as (slot & bc' & Hsl & Hrun & _ & _ & Hcalls & Hbk).
  destruct (client_log_grows _ _ _ _ Hrun) as [calls Hlog].
  pose proof (from_modem_scripts _ (CeStatus st) _ _ calls Hci I Hrun Hlog) as Hscr.
  exists slot, (set_st_bc bc' (set_irq_buf b s)). split; [done|]. split.
  - cbn [run_st2_event]. unfold usb_irq_xfer_cb, process_usb_msg_irq, process_irq_status, mbind, M_bind, gets, modify.
    fold b. rewrite Hty, Z.eqb_refl. rewrite payload_eq by (rewrite Hlb; apply status_fits). fold st.
    erewrite st2_client_done; [|exact Hrun|exact Hlog]. rewrite decide_False by (by apply scripts_not_bad).
    by rewrite scripts_only.
  - split; [|done]. cbn. rewrite Hbk. unfold with_sent. by rewrite Hcon.
Qed.

(** A transfer that brings nothing is handled as the message that is still in its
    buffer: a complete command is sent to the bankd again. *)
Theorem stale_message_repeated t s e k buf rc ac :
  st2_reachable t s → t ≤ get_monotonic_ms e → connected (bankd_conn (st_bc s)) = true →
  in_bufs s !! k = Some buf → is_rx_data buf →
  osmo_apdu_segment_in (st_ac s) (rx_segment buf) (rx_new buf) = (rc, ac) → is_complete rc = true →
  ∃ slot s', clslot (srvc_cfg (srv_conn (st_bc s))) = Some slot ∧
    run_st2_event e (StUsbIn k (XferCompleted []) true) s = Done ((), s') ∧
    srvc_sent (bankd_conn (st_bc s')) = srvc_sent (bankd_conn (st_bc s)) ++
      sent_rspro (rspro_gen_TpduModem2Card slot (bank_slot2rspro (bankd_slot (st_bc s))) (capdu ac)).
Proof.
  intros Hr Ht Hcon Hbuf Hrx Hseg Hc. pose proof (st2_reachable_inv _ _ Hr) as Hinv.
  destruct (rx_event t s e k [] buf rc ac Hinv Ht Hbuf ltac:(cbn; lia) Hrx Hseg) as (slot & Hsl & Hrun).
  eexists slot, _. split; [done|]. split; [exact Hrun|]. unfold rx_result. rewrite Hc. cbn.
  unfold with_sent. by rewrite Hcon.
Qed.

(** A response of the bankd without a status word makes the front end read in
    front of it. *)
Theorem short_response_undefined t s e res m v tg b c f d :
  st2_reachable t s → t ≤ get_monotonic_ms e → connected (bankd_conn (st_bc s)) = true →
  0 < res → ipa_proto m = IPAC_PROTO_OSMO → ipa_proto_ext m = IPAC_PROTO_EXT_RSPRO →
  rspro_dec_msg (l2_data m) = Some (MkRsproPDU v tg (PR_tpduCardToModem b c f d)) → (length d < 2)%nat →
  run_st2_event e (StBankd (CvRead res m)) s = Undef.
Proof.
  intros Hr Ht Hcon Hres Hp1 Hp2 Hdec Hd.
  rewrite (response_event t s e res m v tg b c f d (st2_reachable_inv _ _ Hr) Ht Hcon Hres Hp1 Hp2 Hdec).
  by destruct (Nat.ltb_spec (length d) 2); [|lia].
Qed.
End reachable.

(** ** A concrete run *)

#[local] Existing Instances simtrace_prot_ref apdu_lib_ref simtrace_laws_ref.

(** The device works; its memory is zero. *)
Definition example_usb : usb_start :=
  UsbStart 0 (λ _, true) (Some (str_octets "1-1")) 0 0 1 130 131 (λ _, true) (λ _ _, 0).

Definition example_opts : client_opts :=
  ClientOpts example_config (UsbConfig 7504 24801 1 0 0 (- 1) None) (Some 1).

(** The client after its start, and the front end with it. *)
Definition example_started : Z * bankd_client :=
  default (0, zero_bc example_config) (run_client_trace (take 1 example_start) (0, example_created)).

Definition st2_started : st2_state := st2_init example_usb example_opts example_started.2.

#[local] Instance st2_possible_dec s v : Decision (st2_possible s v).
Proof. destruct v as [k []|[]|v|v]; cbn; apply _. Defined.

Fixpoint run_st2_trace (tr : list (srvc_env * st2_event)) (s : Z * st2_state) : option (Z * st2_state) :=
  match tr with
  | [] => Some s
  | (e, v) :: tr =>
      if decide (s.1 ≤ get_monotonic_ms e ∧ st2_possible s.2 v) then
        match run_st2_event e v s.2 with
        | Done (_, s') => run_st2_trace tr (get_monotonic_ms e, s')
        | _ => None
        end
      else None
  end.

Lemma st2_trace_reachable tr t s s' :
  st2_reachable t s → run_st2_trace tr (t, s) = Some s' → st2_reachable s'.1 s'.2.
Proof.
  revert t s. induction tr as [|[e v] tr IH]; intros t s Hr Htr; cbn [run_st2_trace] in Htr.
  - by injection Htr as <-.
  - case_decide as Hd; [|done]. destruct Hd as [Ht Hpos]. cbn [fst snd] in *.
    destruct (run_st2_event e v s) as [[[] s1]| | |] eqn:Hrun; try done.
    eapply IH; [|exact Htr]. by eapply st2r_event.
Qed.

Definition to_st2 (v : client_event) : st2_event :=
  match v with CeServer v => StServer v | CeBankd v => StBankd v | _ => StUsbIrq XferNoDevice false end.

(** Connected to the server and to a bankd. *)
Definition st2_up : Z * st2_state :=
  default (0, st2_started)
    (run_st2_trace (map (λ x, (x.1, to_st2 x.2)) (drop 1 example_start)) (50000, st2_started)).

Lemma example_started_reachable : client_reachable example_started.1 example_started.2.
Proof.
  eapply (trace_reachable (take 1 example_start) 0 example_created).
  - apply (cr_create [99] [100] example_config (true, true, true) (zero_bc example_config)).
    vm_compute. reflexivity.
  - vm_compute. reflexivity.
Qed.

Lemma st2_up_reachable : st2_reachable st2_up.1 st2_up.2.
Proof.
  eapply (st2_trace_reachable (map (λ x, (x.1, to_st2 x.2)) (drop 1 example_start)) 50000 st2_started).
  - apply (st2r_start 50000 example_usb example_opts example_started.2 st2_started usb_up).
    + exact example_started_reachable.
    + vm_compute. reflexivity.
    + vm_compute. reflexivity.
  - vm_compute. reflexivity.
Qed.

Example st2_up_requests : usb_out st2_up.2 =
  [St2Config (CardemConfig 1 3); St2SimSelectRemote; St2SetAtr [59; 0]; St2CardInsert true; St2ResetPulse 300].
Proof. vm_compute. reflexivity. Qed.

#[local] Opaque st2_up.

(** SELECT of file 3F00 in two messages, and a response with three bytes of data. *)
Definition msg_header : bytes := [1; 8; 0; 0; 0; 0; 0; 0; 1; 0; 0; 0; 5; 0; 0; 164; 0; 0; 2].
Definition msg_data : bytes := [1; 8; 1; 0; 0; 0; 0; 0; 2; 0; 0; 0; 2; 0; 63; 0].
Definition msg_response (d : octets) : ipa_msg :=
  rspro_frame (PR_tpduCardToModem (MkBankSlot 2 1) (MkClientSlot 7 0) (TpduFlags 255 255 0 0) d).
Definition zero_buffer : bytes := replicate IN_XFER_LENGTH 0.

Lemma not_overrun buf :
  (rx_data_len (drop sizeof_msg_hdr buf) <=? length buf - sizeof_msg_hdr - sizeof_rx_data)%nat = true →
  ¬ rx_overrun buf.
Proof. intros Hle%Nat.leb_le [_ Hlt]. lia. Qed.

Definition ac_header : osmo_apdu_context := ApduContext [0; 164; 0; 0; 2] [0; 0] 2 0 [] [].
Definition ac_select : osmo_apdu_context := ApduContext [0; 164; 0; 0; 2] [63; 0] 2 2 [] [].

Lemma simtrace2_exchange_witness :
  ∃ slot s1 s2 s3, clslot (srvc_cfg (srv_conn (st_bc st2_up.2))) = Some slot ∧
    run_st2_event (ok_env 60000) (StUsbIn 0 (XferCompleted msg_header) true) st2_up.2 = Done ((), s1) ∧
    st_bc s1 = st_bc st2_up.2 ∧
    usb_out s1 = usb_out st2_up.2 ++ [St2PbAndRx 164 2] ∧
    run_st2_event (ok_env 60001) (StUsbIn 1 (XferCompleted msg_data) true) s1 = Done ((), s2) ∧
    srvc_sent (bankd_conn (st_bc s2)) = srvc_sent (bankd_conn (st_bc st2_up.2)) ++
      sent_rspro (rspro_gen_TpduModem2Card slot (bank_slot2rspro (bankd_slot (st_bc st2_up.2)))
        [0; 164; 0; 0; 2; 63; 0]) ∧
    usb_out s2 = usb_out s1 ∧
    run_st2_event (ok_env 60050) (StBankd (CvRead 1 (msg_response [98; 1; 2; 144; 0]))) s2 = Done ((), s3) ∧
    srvc_sent (bankd_conn (st_bc s3)) = srvc_sent (bankd_conn (st_bc s2)) ∧
    usb_out s3 = usb_out s2 ++ [St2PbAndTx 164 [98; 1; 2]; St2SwTx [144; 0]].
Proof.
  refine (simtrace2_exchange st2_up.1 st2_up.2 (ok_env 60000) (ok_env 60001) (ok_env 60050) 0 1 msg_header
    msg_data zero_buffer zero_buffer 2 1 ac_header ac_select 1 (msg_response [98; 1; 2; 144; 0]) 2 0
    (MkBankSlot 2 1) (MkClientSlot 7 0) (TpduFlags 255 255 0 0) [98; 1; 2; 144; 0]
    _ _ _ _ _ _ _ _ _ _ _ _ _ _ _ _ _ _ _ _ _).
  - exact st2_up_reachable.
  - vm_compute. discriminate.
  - vm_compute. discriminate.
  - vm_compute. discriminate.
  - vm_compute. reflexivity.
  - vm_compute. reflexivity.
  - apply Nat.leb_le. vm_compute. reflexivity.
  - split; [vm_compute; reflexivity|]. apply not_overrun. vm_compute. reflexivity.
  - vm_compute. reflexivity.
  - vm_compute. reflexivity.
  - apply Nat.ltb_lt. vm_compute. reflexivity.
  - vm_compute. reflexivity.
  - apply Nat.leb_le. vm_compute. reflexivity.
  - split; [vm_compute; reflexivity|]. apply not_overrun. vm_compute. reflexivity.
  - vm_compute. reflexivity.
  - vm_compute. reflexivity.
  - reflexivity.
  - reflexivity.
  - reflexivity.
  - vm_compute. reflexivity.
  - apply Nat.leb_le. vm_compute. reflexivity.
Defined.

Lemma simtrace2_events_defined_witness :
  match run_st2_event (ok_env 60000) (StUsbIn 0 XferNoDevice true) st2_up.2 with
  | Done (_, s') => st2_reachable 60000 s'
  | Panic => st2_abort (ok_env 60000) st2_up.2 (StUsbIn 0 XferNoDevice true) APanic
  | Undef => st2_abort (ok_env 60000) st2_up.2 (StUsbIn 0 XferNoDevice true) AUndef
  | NoFuel => False
  end.
Proof.
  refine (simtrace2_events_defined st2_up.1 st2_up.2 (ok_env 60000) (StUsbIn 0 XferNoDevice true) _ _ _).
  - exact st2_up_reachable.
  - vm_compute. discriminate.
  - split; [unfold NUM_IN_XFERS; lia|exact I].
Defined.

Lemma board_follows_session_witness :
  filter (λ r, session_request r = true) (usb_out st2_up.2) =
    [St2SimSelectRemote; St2SetAtr [59; 0]; St2CardInsert true; St2ResetPulse 300] ∧
  last_of select_of (usb_out st2_up.2) = true.
Proof.
  split; [vm_compute; reflexivity|].
  refine (eq_trans (proj1 (proj2 (board_follows_session st2_up.1 st2_up.2
    (default (FsmInst MF_ST_INIT 0 None) (main_fi (st_bc st2_up.2))) _ _))) _).
  - exact st2_up_reachable.
  - vm_compute. reflexivity.
  - vm_compute. reflexivity.
Defined.

(** Reset active, supply and clock on. *)
Definition msg_status : bytes := [1; 5; 0; 0; 0; 0; 0; 0; 11; 0; 0; 0; 184; 11; 1; 1; 10; 0; 1; 0; 0].

(** The clock is reported as 2, the waiting time is cut to a byte. *)
Example msg_status_fields :
  irq_phys_status (drop 8 msg_status) = PhysStatus (PhysFlags 8 1 2 (- 1)) 3000 1 1 10 0.
Proof. vm_compute. reflexivity. Qed.

Lemma irq_status_relayed_witness :
  let st := irq_phys_status (drop sizeof_msg_hdr (overwrite msg_status (irq_buf st2_up.2))) in
  ∃ slot s', clslot (srvc_cfg (srv_conn (st_bc st2_up.2))) = Some slot ∧
    run_st2_event (ok_env 60000) (StUsbIrq (XferCompleted msg_status) true) st2_up.2 = Done ((), s') ∧
    srvc_sent (bankd_conn (st_bc s')) = srvc_sent (bankd_conn (st_bc st2_up.2)) ++
      sent_rspro (pdu_v2 (PR_clientSlotStatusInd slot (bank_slot2rspro (bankd_slot (st_bc st2_up.2)))
        (phys_status (negb (reset_active (ps_flags st) =? 0)) (vcc_present (ps_flags st))
           (clk_active (ps_flags st)) (- 1)))) ∧
    usb_out s' = usb_out st2_up.2 ∧ st_ac s' = st_ac st2_up.2.
Proof.
  refine (irq_status_relayed st2_up.1 st2_up.2 (ok_env 60000) msg_status _ _ _ _ _).
  - exact st2_up_reachable.
  - vm_compute. discriminate.
  - vm_compute. reflexivity.
  - apply Nat.leb_le. vm_compute. reflexivity.
  - vm_compute. reflexivity.
Defined.

(** An APDU without data, and the same transfer again with nothing. *)
Definition msg_status_cmd : bytes := [1; 8; 0; 0; 0; 0; 0; 0; 1; 0; 0; 0; 5; 0; 0; 242; 0; 0; 22].

Definition st2_sent : Z * st2_state :=
  default st2_up (run_st2_trace [(ok_env 60000, StUsbIn 0 (XferCompleted msg_status_cmd) true)] st2_up).

Lemma st2_sent_reachable : st2_reachable st2_sent.1 st2_sent.2.
Proof.
  eapply (st2_trace_reachable [(ok_env 60000, StUsbIn 0 (XferCompleted msg_status_cmd) true)]).
  - exact st2_up_reachable.
  - vm_compute. reflexivity.
Qed.

#[local] Opaque st2_sent.

Lemma stale_message_repeated_witness :
  ∃ slot s', clslot (srvc_cfg (srv_conn (st_bc st2_sent.2))) = Some slot ∧
    run_st2_event (ok_env 60001) (StUsbIn 0 (XferCompleted []) true) st2_sent.2 = Done ((), s') ∧
    srvc_sent (bankd_conn (st_bc s')) = srvc_sent (bankd_conn (st_bc st2_sent.2)) ++
      sent_rspro (rspro_gen_TpduModem2Card slot (bank_slot2rspro (bankd_slot (st_bc st2_sent.2)))
        [0; 242; 0; 0; 22]).
Proof.
  refine (stale_message_repeated st2_sent.1 st2_sent.2 (ok_env 60001) 0 (overwrite msg_status_cmd zero_buffer)
    1 (ApduContext [0; 242; 0; 0; 22] [] 0 0 [] []) _ _ _ _ _ _ _).
  - exact st2_sent_reachable.
  - vm_compute. discriminate.
  - vm_compute. reflexivity.
  - vm_compute. reflexivity.
  - split; [vm_compute; reflexivity|]. apply not_overrun. vm_compute. reflexivity.
  - vm_compute. reflexivity.
  - vm_compute. reflexivity.
Defined.

Lemma short_response_undefined_witness :
  run_st2_event (ok_env 60000) (StBankd (CvRead 1 (msg_response [144]))) st2_up.2 = Undef.
Proof.
  refine (short_response_undefined st2_up.1 st2_up.2 (ok_env 60000) 1 (msg_response [144]) 2 0
    (MkBankSlot 2 1) (MkClientSlot 7 0) (TpduFlags 255 255 0 0) [144] _ _ _ _ _ _ _ _).
  - exact st2_up_reachable.
  - vm_compute. discriminate.
  - vm_compute. reflexivity.
  - reflexivity.
  - reflexivity.
  - reflexivity.
  - vm_compute. reflexivity.
  - cbn. lia.
Defined.
