(* ===== verification/ModemToCard.v ===== *)
(** * From the modem to the card

    The SIMtrace2 front end with a worker of a bankd: a command of the modem, in
    however many messages the board forwards it, is executed once by the card of
    the worker that serves the client, and the modem gets the response of the
    card.  Only the messages between the two programs connect them. *)

From S2P Require Import Prelude OsmoFsm Slotmap RsproPdu RsproDer RsproUtil Ipa ClientConn Examples ConnInv.
From S2P Require Import BankdPcsc BankdThread BankdMain BankdStart BankdSystem BankdInv BankdProps.
From S2P Require Import RemsimClient ClientInv ClientProps CString ClientMain ClientLog.
From S2P Require Import IfdHandler IfdInv IfdProps EndToEnd SimTrace2 SimTrace2Props.

Section modem_to_card.
Context `{OsmoLib, StreamCliLib, RsproCodec, !RsproRoundtrip, IpaBtsLib, InetNtop, ClientBuild, SimtraceLaws}.
Context `{Talloc, Pcsc}.

(** A bulk transfer that brought [rx_bytes] into buffer [rx_buf]. *)
Record usb_rx := UsbRx { rx_env : srvc_env; rx_buf : nat; rx_bytes : bytes }.

Definition rx_to_event (x : usb_rx) : srvc_env * st2_event :=
  (rx_env x, StUsbIn (rx_buf x) (XferCompleted (rx_bytes x)) true).

Definition run_st2_events (tr : list (srvc_env * st2_event)) : M st2_state () :=
  for_each (λ x, run_st2_event x.1 x.2) tr.

(** From the time [t], with APDU [ac] and buffers [bufs], the transfers bring one
    command of the modem: every message but the last leaves it incomplete, for
    which the board is given the requests [asks]; the last one, at [t'], makes it
    the APDU of [ac']. *)
Inductive command_in (t : Z) (ac : osmo_apdu_context) (bufs : list bytes)
    : list usb_rx → list st2_request → osmo_apdu_context → Z → Prop :=
| command_last x buf rc ac' :
    t ≤ get_monotonic_ms (rx_env x) → bufs !! rx_buf x = Some buf → (length (rx_bytes x) ≤ IN_XFER_LENGTH)%nat →
    is_rx_data (overwrite (rx_bytes x) buf) →
    osmo_apdu_segment_in ac (rx_segment (overwrite (rx_bytes x) buf)) (rx_new (overwrite (rx_bytes x) buf)) =
      (rc, ac') →
    is_complete rc = true →
    command_in t ac bufs [x] [] ac' (get_monotonic_ms (rx_env x))
| command_part x buf rc ac1 xs asks ac' t' :
    t ≤ get_monotonic_ms (rx_env x) → bufs !! rx_buf x = Some buf → (length (rx_bytes x) ≤ IN_XFER_LENGTH)%nat →
    is_rx_data (overwrite (rx_bytes x) buf) →
    osmo_apdu_segment_in ac (rx_segment (overwrite (rx_bytes x) buf)) (rx_new (overwrite (rx_bytes x) buf)) =
      (rc, ac1) →
    is_complete rc = false → (lc_cur ac1 < lc_tot ac1)%nat →
    command_in (get_monotonic_ms (rx_env x)) ac1 (<[rx_buf x := overwrite (rx_bytes x) buf]> bufs) xs asks ac' t' →
    command_in t ac bufs (x :: xs)
      (St2PbAndRx (hdr_ins (ac_hdr ac1)) (Z.of_nat (lc_tot ac1 - lc_cur ac1)) :: asks) ac' t'.

Lemma rx_possible t s x buf :
  st2_reachable t s → in_bufs s !! rx_buf x = Some buf → (length (rx_bytes x) ≤ IN_XFER_LENGTH)%nat →
  st2_possible s (rx_to_event x).2.
Proof.
  intros Hr Hb Hd. split; [|done]. apply lookup_lt_Some in Hb.
  by rewrite (proj1 (si_bufs _ _ (st2_reachable_inv _ _ Hr))) in Hb.
Qed.

(** The client sends the command once, when its last part has arrived, and nothing
    before. *)
Lemma command_received xs t ac bufs asks ac' t' s slot :
  command_in t ac bufs xs asks ac' t' → st2_reachable t s → st_ac s = ac → in_bufs s = bufs →
  clslot (srvc_cfg (srv_conn (st_bc s))) = Some slot →
  ∃ s', run_st2_events (map rx_to_event xs) s = Done ((), s') ∧ st2_reachable t' s' ∧
    st_bc s' = set_bankd_conn (with_sent (rspro_gen_TpduModem2Card slot
      (bank_slot2rspro (bankd_slot (st_bc s))) (capdu ac')) (bankd_conn (st_bc s))) (st_bc s) ∧
    st_ac s' = ac' ∧ usb_out s' = usb_out s ++ asks.
Proof.
  intros Hin. revert s. induction Hin as [t ac bufs x buf rc ac' Ht Hb Hd Hrx Hseg Hc|
    t ac bufs x buf rc ac1 xs asks ac' t' Ht Hb Hd Hrx Hseg Hc Hm Hin IH]; intros s Hr <- <- Hsl.
  all: pose proof (rx_possible _ _ _ _ Hr Hb Hd) as Hpos.
  all: destruct (rx_event _ _ _ _ _ _ _ _ (st2_reachable_inv _ _ Hr) Ht Hb Hd Hrx Hseg) as (sl & Hsl' & Hrun).
  all: rewrite Hsl in Hsl'; injection Hsl' as <-.
  all: pose proof (st2r_event _ _ _ _ _ Hr Ht Hpos Hrun) as Hr1.
  all: unfold rx_result in Hrun, Hr1; rewrite Hc in Hrun, Hr1.
  - eexists. unfold run_st2_events. cbn [map for_each]. unfold mbind, M_bind. cbn [fst snd rx_to_event].
    rewrite Hrun. split; [done|]. split; [exact Hr1|]. split; [done|]. split; [done|]. by rewrite app_nil_r.
  - destruct (Nat.ltb_spec (lc_cur ac1) (lc_tot ac1)) as [_|]; [|lia].
    destruct (IH _ Hr1 eq_refl eq_refl Hsl) as (s' & Hrun' & Hr' & Hbc & Hac & Hout).
    exists s'. unfold run_st2_events in *. cbn [map for_each]. unfold mbind, M_bind in *.
    cbn [fst snd rx_to_event] in *. rewrite Hrun. split; [exact Hrun'|]. split; [done|]. split; [done|].
    split; [done|]. rewrite Hout. cbn. by rewrite <-app_assoc.
Qed.

(** The requests that give the response [d] to the modem. *)
Definition response_requests (hdr : octets) (d : octets) : list st2_request :=
  (if (2 <? length d)%nat then [St2PbAndTx (hdr_ins hdr) (take (length d - 2) d)] else []) ++
  [St2SwTx (drop (length d - 2) d)].

(** C2. A command of the modem, in any number of messages of the board, is executed
    exactly once and unchanged by the card of the worker that serves the client,
    and the board gives the modem the response of the card: the client asks the
    board for the parts that are missing and sends one message [d] when the
    command is complete; on receiving it the worker transmits the C-APDU to the
    card and sends one message [r]; on receiving that the client makes the board
    send the procedure byte and the data, if there is data, and the status word. *)
Theorem modem_command_executed t s xs asks ac t' slot b j w we rc rx sc d r e3 e4 :
  st2_reachable t s → connected (bankd_conn (st_bc s)) = true →
  command_in t (st_ac s) (in_bufs s) xs asks ac t' →
  clslot (srvc_cfg (srv_conn (st_bc s))) = Some slot →
  let bslot := bank_slot2rspro (bankd_slot (st_bc s)) in
  workers b !! j = Some w → tpdu_accepted w slot bslot →
  ki_intercepts (ki_proxy (bd_cfg b)) (bslot_nr (w_slot w)) (capdu ac) = false →
  SCardTransmit (hCard (w_reader w)) (capdu ac) RX_BUF_LEN (bd_scard b) = (rc, rx, sc) → 0 ≤ swrap 32 rc →
  (2 ≤ length rx)%nat →
  pdu_in_range (rspro_gen_TpduModem2Card slot bslot (capdu ac)) →
  pdu_in_range (rspro_gen_TpduCard2Modem bslot slot rx) →
  rspro_enc_msg (rspro_gen_TpduModem2Card slot bslot (capdu ac)) = Some d → fits d →
  rspro_enc_msg (rspro_gen_TpduCard2Modem bslot slot rx) = Some r →
  write_res we (TxRspro r) = Some (Z.of_nat (length r) + 4) →
  t' ≤ get_monotonic_ms e4 →
  ∃ s1 b' s2,
    run_st2_events (map rx_to_event xs) s = Done ((), s1) ∧
    srvc_sent (bankd_conn (st_bc s1)) = srvc_sent (bankd_conn (st_bc s)) ++ [TxRspro d] ∧
    usb_out s1 = usb_out s ++ asks ∧
    run_bankd_event e3 (BeWorker j we [WaitReady] (pdu_frame d)) b = Done ((), b') ∧
    bd_scard b' = sc ∧ w_sent <$> (workers b' !! j) = Some (w_sent w ++ [TxRspro r]) ∧
    run_st2_event e4 (StBankd (CvRead 1 (rspro_ipa r))) s1 = Done ((), s2) ∧
    srvc_sent (bankd_conn (st_bc s2)) = srvc_sent (bankd_conn (st_bc s1)) ∧
    usb_out s2 = usb_out s1 ++ response_requests (ac_hdr ac) rx.
Proof.
  intros Hr Hcon Hin Hsl bslot Hwk Hsv Hki Htx Hrc Hrx Hra Hrr Hd Hfit Hencr Hwr Ht4.
  destruct (command_received _ _ _ _ _ _ _ _ _ Hin Hr eq_refl eq_refl Hsl)
    as (s1 & Hrun1 & Hr1 & Hbc & Hac & Hout).
  pose proof (tpdu_event b e3 we j w d _ slot bslot (TpduFlags 0 0 0 0) (capdu ac) rc rx sc r Hwk Hfit
    (rspro_dec_enc _ _ Hra Hd) eq_refl Hsv Hki Htx Hrc Hencr Hwr) as Hb.
  pose proof (response_event _ s1 e4 1 (rspro_ipa r) 2 0 bslot slot (TpduFlags 0 0 0 0) rx
    (st2_reachable_inv _ _ Hr1) Ht4) as Hrun2.
  destruct (Nat.ltb_spec (length rx) 2) as [|_]; [lia|].
  exists s1. eexists _, _. split; [exact Hrun1|].
  split. { rewrite Hbc. cbn. unfold with_sent, sent_rspro. rewrite Hcon. fold bslot. by rewrite Hd. }
  split; [done|]. split; [exact Hb|].
  split; [by unfold tpdu_done; destruct (gsmtap_wanted _ _)|].
  split. { unfold tpdu_done; destruct (gsmtap_wanted _ _); cbn; by rewrite list_lookup_alter_eq, Hwk. }
  split; [apply Hrun2; try done|].
  - rewrite Hbc. cbn. unfold with_sent. by rewrite Hcon.
  - cbn [rspro_ipa l2_data]. by rewrite (rspro_dec_enc _ _ Hrr Hencr).
  - split; [done|]. unfold after_calls, mbind, list_bind. cbn [usb_out set_usb_out call_requests].
    rewrite app_nil_r. cbn. by rewrite Hac.
Qed.
End modem_to_card.

(** ** A concrete run *)

#[local] Existing Instances simtrace_prot_ref apdu_lib_ref simtrace_laws_ref.

(** The client is assigned bank slot 1:1, for which the bankd of [mapped_state] has a
    worker. *)
Definition st2_bankd_up : list (srvc_env * st2_event) :=
  let tr := map (λ x, (x.1, to_st2 x.2)) (drop 1 example_start) in
  take 3 tr ++
  [(ok_env 50030, StServer (CvRead 1 (rspro_frame
      (PR_configClientBankReq (MkBankSlot 1 1) (IpPort (IpAddress_PR_ipv4 [10; 0; 0; 5]) 9999)))))] ++
  drop 4 tr.

Definition st2_serving : Z * st2_state := default (0, st2_started) (run_st2_trace st2_bankd_up (50000, st2_started)).

Lemma st2_started_reachable : st2_reachable 50000 st2_started.
Proof.
  apply (st2r_start 50000 example_usb example_opts example_started.2 st2_started usb_up).
  - exact example_started_reachable.
  - vm_compute. reflexivity.
  - vm_compute. reflexivity.
Qed.

Lemma st2_serving_reachable : st2_reachable st2_serving.1 st2_serving.2.
Proof.
  eapply (st2_trace_reachable st2_bankd_up 50000 st2_started); [exact st2_started_reachable|].
  vm_compute. reflexivity.
Qed.

(** SELECT of file 3F00 in three messages. *)
Definition msg_byte (x : Z) : bytes := [1; 8; 1; 0; 0; 0; 0; 0; 2; 0; 0; 0; 1; 0; x].
Definition select_rx : list usb_rx :=
  [UsbRx (ok_env 60000) 0 msg_header; UsbRx (ok_env 60001) 1 (msg_byte 63); UsbRx (ok_env 60002) 0 (msg_byte 0)].

Definition select_apdu : octets := [0; 164; 0; 0; 2; 63; 0].
Definition select_tpdu : octets :=
  default [] (rspro_enc_msg (rspro_gen_TpduModem2Card (MkClientSlot 7 0) (MkBankSlot 1 1) select_apdu)).

#[local] Opaque st2_serving.

Lemma select_rx_command :
  command_in st2_serving.1 (st_ac st2_serving.2) (in_bufs st2_serving.2) select_rx
    [St2PbAndRx 164 2; St2PbAndRx 164 1] ac_select 60002.
Proof.
  refine (command_part _ _ _ (UsbRx (ok_env 60000) 0 msg_header) zero_buffer 2 ac_header _ _ _ _
    _ _ _ _ _ _ _ (command_part _ _ _ (UsbRx (ok_env 60001) 1 (msg_byte 63)) zero_buffer 2
      (ApduContext [0; 164; 0; 0; 2] [63; 0] 2 1 [] []) _ _ _ _ _ _ _ _ _ _ _
      (command_last _ _ _ (UsbRx (ok_env 60002) 0 (msg_byte 0)) (overwrite msg_header zero_buffer) 1 ac_select
         _ _ _ _ _ _))).
  all: try (split; [vm_compute; reflexivity|apply not_overrun; vm_compute; reflexivity]).
  all: try (apply Nat.leb_le; vm_compute; reflexivity).
  all: try (apply Nat.ltb_lt; vm_compute; reflexivity).
  all: try (vm_compute; reflexivity).
  all: vm_compute; discriminate.
Qed.

Lemma modem_command_executed_witness :
  ∃ s1 b' s2,
    run_st2_events (map rx_to_event select_rx) st2_serving.2 = Done ((), s1) ∧
    srvc_sent (bankd_conn (st_bc s1)) = srvc_sent (bankd_conn (st_bc st2_serving.2)) ++ [TxRspro select_tpdu] ∧
    usb_out s1 = usb_out st2_serving.2 ++ [St2PbAndRx 164 2; St2PbAndRx 164 1] ∧
    run_bankd_event (ok_env 60003) (BeWorker 0 ok_write [WaitReady] (pdu_frame select_tpdu)) mapped_state =
      Done ((), b') ∧
    bd_scard b' = bd_scard mapped_state ++ [(hCard (w_reader mapped_worker), select_apdu)] ∧
    w_sent <$> (workers b' !! 0%nat) = Some (w_sent mapped_worker ++ [TxRspro select_res]) ∧
    run_st2_event (ok_env 60004) (StBankd (CvRead 1 (rspro_ipa select_res))) s1 = Done ((), s2) ∧
    srvc_sent (bankd_conn (st_bc s2)) = srvc_sent (bankd_conn (st_bc s1)) ∧
    usb_out s2 = usb_out s1 ++ [St2SwTx [144; 0]].
Proof.
  refine (modem_command_executed st2_serving.1 st2_serving.2 select_rx [St2PbAndRx 164 2; St2PbAndRx 164 1]
    ac_select 60002 (MkClientSlot 7 0) mapped_state 0 mapped_worker ok_write 0 [144; 0]
    (bd_scard mapped_state ++ [(hCard (w_reader mapped_worker), select_apdu)]) select_tpdu select_res
    (ok_env 60003) (ok_env 60004) _ _ _ _ _ _ _ _ _ _ _ _ _ _ _ _ _).
  - exact st2_serving_reachable.
  - vm_compute. reflexivity.
  - exact select_rx_command.
  - vm_compute. reflexivity.
  - exact mapped_worker_at.
  - vm_compute. by repeat split.
  - vm_compute. reflexivity.
  - vm_compute. reflexivity.
  - vm_compute. discriminate.
  - apply Nat.leb_le. vm_compute. reflexivity.
  - vm_compute. repeat (discriminate || constructor).
  - vm_compute. repeat (discriminate || constructor).
  - vm_compute. reflexivity.
  - vm_compute. reflexivity.
  - vm_compute. reflexivity.
  - vm_compute. reflexivity.
  - vm_compute. discriminate.
Defined.
