(* ===== verification/MapLink.v ===== *)
(** * The agreement of server and bankd, abstractly

    What the server and one bankd do for each other while they are connected, as
    a protocol over two queues: the server keeps the mappings of the bank in five
    lists ([bview]; the [maps_*] lists of a connection in [server/rspro_server.h]),
    pushes requests, and moves a mapping on when its response arrives; the bankd
    applies the requests to its own mappings in order and answers each of them.
    [link_ok] is what holds at any time; [MapServer] and [MapAgreement] show that
    the programs are an instance. *)

From S2P Require Import Prelude Slotmap.

Abbreviation slot_pair := (bank_slot * client_slot)%type.

Inductive map_request := ReqCreate (p : slot_pair) | ReqRemove (p : slot_pair).
Inductive map_response := ResCreate | ResRemove.

#[export] Instance map_response_eq_dec : EqDecision map_response.
Proof. solve_decision. Defined.

(** ** The server *)

Record bview := BView {
  v_new : list slot_pair;
  v_unack : list slot_pair;
  v_active : list slot_pair;
  v_delreq : list slot_pair;
  v_deleting : list slot_pair;
}.

(** The mappings of which REST clients know. *)
Definition v_known (v : bview) : list slot_pair := v_new v ++ v_unack v ++ v_active v.
(** The mappings the bankd has once all requests have arrived. *)
Definition v_held (v : bview) : list slot_pair := v_unack v ++ v_active v ++ v_delreq v.

(** What the server does of its own, with the requests it sends.  A push while
    mappings wait both to be created and to be deleted does not happen. *)
Inductive bstep : bview → list map_request → bview → Prop :=
| bs_add n u a d g p :
    p.1 ∉ (n ++ u ++ a).*1 → p.2 ∉ (n ++ u ++ a).*2 →
    bstep (BView n u a d g) [] (BView (n ++ [p]) u a d g)
| bs_drop n1 p n2 u a d g :
    bstep (BView (n1 ++ p :: n2) u a d g) [] (BView (n1 ++ n2) u a d g)
| bs_delete n u a1 p a2 d g :
    bstep (BView n u (a1 ++ p :: a2) d g) [] (BView n u (a1 ++ a2) (d ++ [p]) g)
| bs_push n u a d g :
    n = [] ∨ d = [] →
    bstep (BView n u a d g) ((ReqCreate <$> n) ++ (ReqRemove <$> d)) (BView [] (u ++ n) a [] (g ++ d)).

(** Any number of them. *)
Inductive bsteps : bview → list map_request → bview → Prop :=
| bsteps_refl v : bsteps v [] v
| bsteps_step v o v' o' v'' : bstep v o v' → bsteps v' o' v'' → bsteps v (o ++ o') v''.

Lemma bsteps_once v o v' : bstep v o v' → bsteps v o v'.
Proof. intros Hs. rewrite <-(app_nil_r o). eapply bsteps_step; [done|apply bsteps_refl]. Qed.

Lemma bsteps_trans v o v' o' v'' : bsteps v o v' → bsteps v' o' v'' → bsteps v (o ++ o') v''.
Proof.
  induction 1 as [|v o1 v1 o2 v2 Hs _ IH]; intros H2; [done|].
  rewrite <-app_assoc. eapply bsteps_step; [done|auto].
Qed.

(** The first mapping that waits for a response of its kind moves on. *)
Inductive backed : map_response → bview → bview → Prop :=
| backed_create n p u a d g :
    backed ResCreate (BView n (p :: u) a d g) (BView n u (a ++ [p]) d g)
| backed_remove n u a d p g :
    backed ResRemove (BView n u a d (p :: g)) (BView n u a d g).

(** ** The bankd *)

(** Its mappings after a request for a slot it has. *)
Definition bankd_apply (r : map_request) (m : pinj) : pinj :=
  match r with
  | ReqCreate (b, c) =>
      if bool_decide (m !! b = Some c) then m
      else if bool_decide (client_of (delete b m) c = None) then <[b := c]> m else delete b m
  | ReqRemove (b, c) => if bool_decide (m !! b = Some c) then delete b m else m
  end.

Definition response_to (r : map_request) : map_response :=
  match r with ReqCreate _ => ResCreate | ReqRemove _ => ResRemove end.

(** ** Both, and the messages between them *)

Record link_state := LinkState {
  lk_view : bview;
  lk_reqs : list map_request;
  lk_map : pinj;
  lk_ress : list map_response;
}.

Inductive lstep : link_state → link_state → Prop :=
| ls_server v o v' q m r : bsteps v o v' → lstep (LinkState v q m r) (LinkState v' (q ++ o) m r)
| ls_bankd v x q m r :
    lstep (LinkState v (x :: q) m r) (LinkState v q (bankd_apply x m) (r ++ [response_to x]))
| ls_response v x v' q m r : backed x v v' → lstep (LinkState v q m (x :: r)) (LinkState v' q m r).

(** ** What holds at any time *)

Definition creates (q : list map_request) : list slot_pair :=
  omap (λ x, match x with ReqCreate p => Some p | _ => None end) q.
Definition removes (q : list map_request) : list slot_pair :=
  omap (λ x, match x with ReqRemove p => Some p | _ => None end) q.
Definition answers (x : map_response) (r : list map_response) : nat := length (filter (λ y, y = x) r).

(** No two mappings share a slot. *)
Definition slots_apart (k : list slot_pair) : Prop := NoDup k.*1 ∧ NoDup k.*2.

(** The requests are carried out one after the other, none is refused, and the
    mappings in [k] result. *)
Fixpoint replays (q : list map_request) (m : pinj) (k : list slot_pair) : Prop :=
  match q with
  | [] => ∀ b c, m !! b = Some c ↔ (b, c) ∈ k
  | ReqCreate p :: q => m !! p.1 = None ∧ client_of m p.2 = None ∧ replays q (<[p.1 := p.2]> m) k
  | ReqRemove p :: q => m !! p.1 = Some p.2 ∧ replays q (delete p.1 m) k
  end.

Record link_ok (s : link_state) : Prop := {
  lo_known : slots_apart (v_known (lk_view s));
  lo_held : slots_apart (v_held (lk_view s));
  lo_unack : ∃ u, v_unack (lk_view s) = u ++ creates (lk_reqs s) ∧ length u = answers ResCreate (lk_ress s);
  lo_deleting : ∃ g, v_deleting (lk_view s) = g ++ removes (lk_reqs s) ∧
                     length g = answers ResRemove (lk_ress s);
  lo_replay : replays (lk_reqs s) (lk_map s) (v_held (lk_view s));
}.

(** ** Lemmas *)

Lemma client_of_None (m : pinj) c : client_of m c = None ↔ ∀ b, m !! b ≠ Some c.
Proof.
  unfold client_of. destruct (filter _ _) as [|p k] eqn:E; cbn.
  - split; [|done]. intros _ b Hb. apply elem_of_map_to_list in Hb.
    assert ((b, c) ∈ filter (λ p : slot_pair, p.2 = c) (map_to_list m)) as Hin by (by apply list_elem_of_filter).
    rewrite E in Hin. by apply elem_of_nil in Hin.
  - split; [done|]. intros Hn. exfalso.
    assert (p ∈ filter (λ p : slot_pair, p.2 = c) (map_to_list m)) as Hp by (rewrite E; left).
    apply list_elem_of_filter in Hp as [<- Hp]. destruct p as [b c']. by apply elem_of_map_to_list, Hn in Hp.
Qed.

Lemma not_in_fst (k : list slot_pair) b c : b ∉ k.*1 → (b, c) ∉ k.
Proof. intros Hb Hin. apply Hb, list_elem_of_fmap. by exists (b, c). Qed.

Lemma not_in_snd (k : list slot_pair) b c : c ∉ k.*2 → (b, c) ∉ k.
Proof. intros Hc Hin. apply Hc, list_elem_of_fmap. by exists (b, c). Qed.

Lemma slots_apart_perm k k' : k ≡ₚ k' → slots_apart k → slots_apart k'.
Proof. unfold slots_apart. intros Hp. by rewrite Hp. Qed.

Lemma slots_apart_app_l k k' : slots_apart (k ++ k') → slots_apart k.
Proof. unfold slots_apart. rewrite !fmap_app, !NoDup_app. tauto. Qed.

Lemma slots_apart_snoc k p : slots_apart (k ++ [p]) ↔ slots_apart k ∧ (p.1 ∉ k.*1) ∧ p.2 ∉ k.*2.
Proof.
  unfold slots_apart. rewrite !fmap_app, !NoDup_app. cbn. split.
  - intros [(H1 & H2 & _) (H3 & H4 & _)]. split; [done|].
    split; [intros Hin; by destruct (H2 _ Hin); left|intros Hin; by destruct (H4 _ Hin); left].
  - intros ((H1 & H2) & H3 & H4). repeat split; try done; try apply NoDup_singleton;
      intros x Hx ->%list_elem_of_singleton; done.
Qed.

Lemma slots_apart_fst k p q : slots_apart k → p ∈ k → q ∈ k → p.1 = q.1 → p = q.
Proof. intros [Hk _]. apply NoDup_fmap_inj_on. exact Hk. Qed.

(** Only which mappings result matters. *)
Lemma replays_same q m k k' : (∀ p, p ∈ k ↔ p ∈ k') → replays q m k → replays q m k'.
Proof.
  intros Hk. revert m. induction q as [|[p|p] q IH]; intros m; cbn.
  - intros Hm b c. by rewrite Hm, Hk.
  - intros (? & ? & Hr). auto.
  - intros (? & Hr). auto.
Qed.

Lemma replays_create q m k p :
  replays q m k → p.1 ∉ k.*1 → p.2 ∉ k.*2 → replays (q ++ [ReqCreate p]) m (k ++ [p]).
Proof.
  intros Hr H1 H2. revert m Hr. induction q as [|[x|x] q IH]; intros m; cbn.
  - intros Hm. destruct p as [b c]. cbn in *. split.
    { destruct (m !! b) eqn:E; [|done]. apply Hm in E. by apply not_in_fst in E. }
    split. { apply client_of_None. intros b' Hb'%Hm. by apply not_in_snd in Hb'. }
    intros b' c'. rewrite lookup_insert_Some, Hm, elem_of_app, list_elem_of_singleton. split.
    + intros [[<- <-]|[_ ?]]; auto.
    + intros [Hin|[= -> ->]]; [right|by left]. split; [|done]. intros <-. by apply not_in_fst in Hin.
  - intros (? & ? & Hr). auto.
  - intros (? & Hr). auto.
Qed.

Lemma replays_remove q m k1 p k2 :
  replays q m (k1 ++ p :: k2) → slots_apart (k1 ++ p :: k2) →
  replays (q ++ [ReqRemove p]) m (k1 ++ k2).
Proof.
  intros Hr Ha. revert m Hr. induction q as [|[x|x] q IH]; intros m; cbn.
  - intros Hm. destruct p as [b c]. cbn in *.
    assert ((b, c) ∈ k1 ++ (b, c) :: k2) as Hin by (rewrite elem_of_app, elem_of_cons; auto).
    split; [by apply Hm|]. intros b' c'. rewrite lookup_delete_Some, Hm. split.
    + rewrite !elem_of_app, elem_of_cons. intros [Hne [?|[[= -> ->]|?]]]; [by left|done|by right].
    + intros Hin'. assert ((b', c') ∈ k1 ++ (b, c) :: k2) as Hin2
        by (rewrite elem_of_app, elem_of_cons; rewrite elem_of_app in Hin'; tauto).
      split; [|done]. intros <-. pose proof (slots_apart_fst _ _ _ Ha Hin Hin2 eq_refl) as [= <-].
      destruct Ha as [Ha _]. rewrite fmap_app in Ha. cbn in Ha. apply NoDup_app in Ha as (_ & Hd & Hc).
      apply NoDup_cons in Hc as [Hc _]. apply elem_of_app in Hin' as [Hi|Hi].
      * apply (Hd b); [|left]. apply list_elem_of_fmap. by exists (b, c).
      * by apply not_in_fst in Hi.
  - intros (? & ? & Hr). auto.
  - intros (? & Hr). auto.
Qed.

(** A mapping that results without a request for it is there already. *)
Lemma replays_there q m k b c :
  replays q m k → (b, c) ∈ k → (b, c) ∉ creates q → m !! b = Some c.
Proof.
  revert m. induction q as [|[p|p] q IH]; intros m; cbn.
  - intros Hm Hin _. by apply Hm.
  - intros (_ & _ & Hr) Hin [Hne Hq]%not_elem_of_cons. specialize (IH _ Hr Hin Hq).
    apply lookup_insert_Some in IH as [[<- <-]|[_ ?]]; [by destruct p|done].
  - intros (_ & Hr) Hin Hq. specialize (IH _ Hr Hin Hq). by apply lookup_delete_Some in IH as [_ ?].
Qed.

(** A mapping that is there results or is going to be removed. *)
Lemma replays_known q m k b c :
  replays q m k → m !! b = Some c → (b, c) ∈ k ∨ (b, c) ∈ removes q.
Proof.
  revert m. induction q as [|[p|p] q IH]; intros m; cbn.
  - intros Hm Hb. left. by apply Hm.
  - intros (Hn & _ & Hr) Hb. apply (IH _ Hr). rewrite lookup_insert_ne; [done|]. congruence.
  - intros (Hp & Hr) Hb. destruct (decide (p.1 = b)) as [<-|Hne].
    + right. rewrite Hp in Hb. injection Hb as <-. destruct p. by left.
    + destruct (IH _ Hr) as [|]; [by rewrite lookup_delete_ne|by left|by right; right].
Qed.

(** ** The steps keep what holds *)

Lemma creates_app q q' : creates (q ++ q') = creates q ++ creates q'.
Proof. apply omap_app. Qed.
Lemma removes_app q q' : removes (q ++ q') = removes q ++ removes q'.
Proof. apply omap_app. Qed.
Lemma creates_pushed n d : creates ((ReqCreate <$> n) ++ (ReqRemove <$> d)) = n.
Proof.
  rewrite creates_app. assert (creates (ReqRemove <$> d) = []) as -> by (by induction d).
  rewrite app_nil_r. induction n as [|p n IH]; [done|]. cbn. by f_equal.
Qed.
Lemma removes_pushed n d : removes ((ReqCreate <$> n) ++ (ReqRemove <$> d)) = d.
Proof.
  rewrite removes_app. assert (removes (ReqCreate <$> n) = []) as -> by (by induction n).
  induction d as [|p d IH]; [done|]. cbn. by f_equal.
Qed.
Lemma answers_app x r r' : answers x (r ++ r') = (answers x r + answers x r')%nat.
Proof. unfold answers. by rewrite filter_app, length_app. Qed.

Lemma answers_cons x y r : answers x (y :: r) = (if decide (y = x) then S (answers x r) else answers x r).
Proof. unfold answers. rewrite filter_cons. by case_decide. Qed.

Ltac count_answers :=
  repeat match goal with
  | |- context [answers ?x [?y]] => let k := eval vm_compute in (answers x [y]) in change (answers x [y]) with k
  end.

(** All new mappings are created. *)
Lemma replays_creates q m k n :
  replays q m k → slots_apart (k ++ n) → replays (q ++ (ReqCreate <$> n)) m (k ++ n).
Proof.
  revert q k. induction n as [|p n IH]; intros q k Hr Ha; cbn; [by rewrite !app_nil_r|].
  rewrite (cons_middle p), (cons_middle (ReqCreate p)), !app_assoc in *.
  pose proof (slots_apart_app_l _ _ Ha) as (_ & H1 & H2)%slots_apart_snoc.
  apply IH; [by apply replays_create|done].
Qed.

(** All mappings whose deletion was asked for are removed. *)
Lemma replays_removes q m k d :
  replays q m (k ++ d) → slots_apart (k ++ d) → replays (q ++ (ReqRemove <$> d)) m k.
Proof.
  revert q. induction d as [|p d IH]; intros q Hr Ha; cbn; [by rewrite app_nil_r in *|].
  rewrite (cons_middle (ReqRemove p)), app_assoc.
  pose proof (replays_remove _ _ _ _ _ Hr Ha) as Hr'. apply IH; [done|].
  eapply (slots_apart_app_l _ [p]), slots_apart_perm; [|exact Ha].
  rewrite <-app_assoc. apply Permutation_app_head. by rewrite Permutation_cons_append.
Qed.

Ltac view_cbn := cbn [lk_view lk_reqs lk_map lk_ress v_new v_unack v_active v_delreq v_deleting] in *.

Lemma bstep_ok v o v' q m r :
  bstep v o v' → link_ok (LinkState v q m r) → link_ok (LinkState v' (q ++ o) m r).
Proof.
  intros Hs [Hk Hh Hu Hg Hr]. unfold v_known, v_held in *.
  destruct Hs as [n u a d g p H1 H2|n1 p n2 u a d g|n u a1 p a2 d g|n u a d g Hnd]; view_cbn.
  1-3: split; unfold v_known, v_held; view_cbn; rewrite ?app_nil_r; try done.
  - eapply slots_apart_perm; [|by apply (slots_apart_snoc (n ++ u ++ a) p)].
    rewrite <-!app_assoc. apply Permutation_app_head. cbn. by rewrite app_assoc, <-Permutation_cons_append.
  - eapply (slots_apart_app_l _ [p]), slots_apart_perm; [|exact Hk].
    rewrite <-Permutation_cons_append, <-!app_assoc. cbn. by rewrite <-Permutation_middle.
  - eapply (slots_apart_app_l _ [p]), slots_apart_perm; [|exact Hk].
    rewrite <-Permutation_cons_append. rewrite !app_assoc. by rewrite <-Permutation_middle, <-!app_assoc.
  - eapply slots_apart_perm; [|exact Hh]. apply Permutation_app_head.
    rewrite <-!app_assoc. apply Permutation_app_head. cbn. by rewrite Permutation_cons_append, <-app_assoc.
  - eapply replays_same; [|exact Hr]. intros x. rewrite !elem_of_app, elem_of_cons, list_elem_of_singleton. tauto.
  - assert (slots_apart ((u ++ n) ++ a)) as Hk'.
    { eapply slots_apart_perm; [|exact Hk]. by rewrite app_assoc, (Permutation_app_comm n). }
    assert (slots_apart ((u ++ a ++ d) ++ n)) as Hh'.
    { destruct Hnd as [->| ->]; [by rewrite app_nil_r|]. rewrite app_nil_r in *.
      eapply slots_apart_perm; [|exact Hk]. by rewrite Permutation_app_comm. }
    split; unfold v_known, v_held; view_cbn; rewrite ?app_nil_r.
    + done.
    + done.
    + destruct Hu as (u1 & -> & Hl). exists u1. by rewrite creates_app, creates_pushed, app_assoc.
    + destruct Hg as (g1 & -> & Hl). exists g1. by rewrite removes_app, removes_pushed, app_assoc.
    + rewrite app_assoc. apply replays_removes.
      * eapply replays_same; [|apply replays_creates; [exact Hr|exact Hh']].
        intros x. rewrite !elem_of_app. tauto.
      * eapply slots_apart_perm; [|exact Hh']. rewrite <-!app_assoc. apply Permutation_app_head.
        by rewrite (Permutation_app_comm n), <-app_assoc.
Qed.

Lemma bsteps_ok v o v' q m r :
  bsteps v o v' → link_ok (LinkState v q m r) → link_ok (LinkState v' (q ++ o) m r).
Proof.
  intros Hs. revert q. induction Hs as [v|v o v1 o' v2 Hs _ IH]; intros q Hok; [by rewrite app_nil_r|].
  rewrite app_assoc. apply IH. by eapply bstep_ok.
Qed.

Lemma bankd_ok v x q m r :
  link_ok (LinkState v (x :: q) m r) → link_ok (LinkState v q (bankd_apply x m) (r ++ [response_to x])).
Proof.
  intros [Hk Hh Hu Hg Hr]. destruct v as [n u a d g]. view_cbn.
  destruct x as [[b c]|[b c]]; cbn in Hu, Hg, Hr; split; view_cbn; try done; rewrite ?answers_app; cbn [response_to bankd_apply];
    count_answers.
  - destruct Hu as (u1 & -> & Hl). exists (u1 ++ [(b, c)]). rewrite <-app_assoc, length_app. cbn. split; [done|lia].
  - destruct Hg as (g1 & -> & Hl). exists g1. split; [done|lia].
  - destruct Hr as (Hb & Hc & Hr). rewrite bool_decide_eq_false_2 by congruence.
    rewrite delete_id by done. by rewrite bool_decide_eq_true_2.
  - destruct Hu as (u1 & -> & Hl). exists u1. split; [done|lia].
  - destruct Hg as (g1 & -> & Hl). exists (g1 ++ [(b, c)]). rewrite <-app_assoc, length_app. cbn. split; [done|lia].
  - destruct Hr as (Hb & Hr). by rewrite bool_decide_eq_true_2.
Qed.

Lemma response_ok x v v' q m r :
  backed x v v' → link_ok (LinkState v q m (x :: r)) → link_ok (LinkState v' q m r).
Proof.
  intros Hb [Hk Hh Hu Hg Hr]. unfold v_known, v_held in *.
  destruct Hb as [n p u a d g|n u a d p g]; view_cbn; split; unfold v_known, v_held; view_cbn; try done.
  - eapply slots_apart_perm; [|exact Hk]. apply Permutation_app_head. cbn.
    by rewrite (app_assoc u a), <-Permutation_cons_append.
  - eapply slots_apart_perm; [|exact Hh]. cbn. rewrite <-app_assoc. cbn. by rewrite !app_assoc, <-Permutation_middle.
  - destruct Hu as (u1 & He & Hl). rewrite answers_cons in Hl. destruct u1 as [|p' u1]; [done|].
    cbn in He. injection He as <- ->. exists u1. split; [done|]. by injection Hl.
  - eapply replays_same; [|exact Hr]. intros y. rewrite !elem_of_app, !elem_of_cons, elem_of_nil. tauto.
  - destruct Hg as (g1 & He & Hl). rewrite answers_cons in Hl. destruct g1 as [|p' g1]; [done|].
    cbn in He. injection He as <- ->. exists g1. split; [done|]. by injection Hl.
Qed.

Lemma lstep_ok s s' : lstep s s' → link_ok s → link_ok s'.
Proof. destruct 1; [by apply bsteps_ok|apply bankd_ok|by apply response_ok]. Qed.

(** ** What it means *)

(** The response that arrives next finds a mapping that waits for it. *)
Lemma link_awaited v q m x r :
  link_ok (LinkState v q m (x :: r)) →
  match x with ResCreate => v_unack v ≠ [] | ResRemove => v_deleting v ≠ [] end.
Proof.
  intros [_ _ Hu Hg _]. view_cbn. destruct x.
  - destruct Hu as (u & -> & Hl). by destruct u.
  - destruct Hg as (g & -> & Hl). by destruct g.
Qed.

(** What the server shows as active is in force at the bankd. *)
Lemma link_active v q m r b c :
  link_ok (LinkState v q m r) → (b, c) ∈ v_active v → m !! b = Some c.
Proof.
  intros [_ Hh (u & Hu & _) _ Hr] Hin. view_cbn. eapply replays_there; [exact Hr|..].
  - unfold v_held. rewrite !elem_of_app. auto.
  - intros Hc. destruct Hh as [Hh _]. unfold v_held in Hh. rewrite fmap_app in Hh.
    apply NoDup_app in Hh as (_ & Hd & _). apply (Hd b).
    + apply list_elem_of_fmap. exists (b, c). split; [done|]. rewrite Hu, elem_of_app. by right.
    + apply list_elem_of_fmap. exists (b, c). split; [done|]. rewrite elem_of_app. by left.
Qed.

(** What is in force at the bankd the server knows of. *)
Lemma link_known v q m r b c :
  link_ok (LinkState v q m r) → m !! b = Some c → (b, c) ∈ v_held v ++ v_deleting v.
Proof.
  intros [_ _ _ (g & Hg & _) Hr] Hm. view_cbn. rewrite elem_of_app, Hg, elem_of_app.
  destruct (replays_known _ _ _ _ _ Hr Hm) as [|]; [by left|by right; right].
Qed.

(** When no message is under way both agree. *)
Lemma link_quiet v m b c :
  link_ok (LinkState v [] m []) →
  v_unack v = [] ∧ v_deleting v = [] ∧ (m !! b = Some c ↔ (b, c) ∈ v_active v ++ v_delreq v).
Proof.
  intros [_ _ (u & Hu & Hlu) (g & Hg & Hlg) Hr]. view_cbn. destruct u, g; try done.
  split; [done|]. split; [done|]. rewrite (Hr b c). unfold v_held. by rewrite Hu.
Qed.
