(* ===== verification/MapServer.v ===== *)
(** * The server as one side of the agreement on the mappings of a bank

    For one connected bankd, [l] with socket [p]: every event of the server is,
    for the five lists of this connection and the requests sent on its socket, a
    sequence of the steps of [MapLink] ([event_moves]), and so is a response of
    the bankd, which takes the mapping it is for from its list ([wlp_response]).
    All other connections may do what they want; what they do leaves the lists
    alone ([steady]). *)

From S2P Require Import Prelude OsmoFsm Slotmap RsproPdu RsproUtil Ipa RsproServer RestApi.
From S2P Require Import ServerInv ServerSystem ServerProps MapLink.

(** ** What the link sees of the server *)

Definition request_pdu (r : map_request) : RsproPDU :=
  match r with
  | ReqCreate (b, c) => rspro_gen_CreateMappingReq (client_slot2rspro c) (bank_slot2rspro b)
  | ReqRemove (b, c) => rspro_gen_RemoveMappingReq (client_slot2rspro c) (bank_slot2rspro b)
  end.

(** The mappings of a list, by their slots. *)
Definition pairs (sm : slotmaps) (h : list_head) : list slot_pair := omap (slots sm) (bank_list sm h).

Definition lview (l : loc) (sm : slotmaps) : bview :=
  BView (pairs sm (l, maps_new)) (pairs sm (l, maps_unack)) (pairs sm (l, maps_active))
    (pairs sm (l, maps_delreq)) (pairs sm (l, maps_deleting)).

(** The RSPRO messages sent on socket [p]. *)
Definition sent_to (p : loc) (s : rspro_server) : list octets :=
  omap (λ x, match x with
             | (q, TxRspro b) => if decide (q = p) then Some b else None
             | _ => None
             end) (sent s).

(** Two mappings of the global list share no slot. *)
Lemma slots_inj sm x y q q' :
  slotmaps_wf sm → x ∈ mappings sm → y ∈ mappings sm → slots sm x = Some q → slots sm y = Some q' →
  q.1 = q'.1 ∨ q.2 = q'.2 → x = y.
Proof.
  intros Hwf Hx Hy Hq Hq' He. unfold slots in Hq, Hq'.
  destruct (heap sm !! x) as [m|] eqn:Hxm; [|done]. destruct (heap sm !! y) as [m'|] eqn:Hym; [|done].
  injection Hq as <-. injection Hq' as <-. cbn in He. apply (mapping_bank_inj sm Hwf x y m m' Hx Hy Hxm Hym).
  destruct He as [|He]; [done|]. f_equal. apply (entries_client_inj sm); [done|apply elem_of_entries; eauto..|done].
Qed.

Lemma slots_other sm x q (k : list loc) :
  slotmaps_wf sm → x ∈ mappings sm → slots sm x = Some q → (∀ y, y ∈ k → y ∈ mappings sm ∧ y ≠ x) →
  (q.1 ∉ (omap (slots sm) k).*1) ∧ q.2 ∉ (omap (slots sm) k).*2.
Proof.
  intros Hwf Hx Hq Hk.
  split; intros (q' & He & (y & Hy & Hq')%list_elem_of_omap)%list_elem_of_fmap;
    destruct (Hk y Hy) as [Hym Hne]; apply Hne; symmetry; eapply slots_inj; eauto.
Qed.

Lemma slots_apart_mappings sm (k : list loc) :
  slotmaps_wf sm → NoDup k → (∀ x, x ∈ k → x ∈ mappings sm) → slots_apart (omap (slots sm) k).
Proof.
  intros Hwf. induction k as [|x k IH]; intros Hnd Hk; [by split; apply NoDup_nil_2|].
  apply NoDup_cons in Hnd as [Hx Hnd].
  assert (slots_apart (omap (slots sm) k)) as Ha by (apply IH; [done|intros; apply Hk; by right]).
  cbn. destruct (slots sm x) as [q|] eqn:Hq; [|done].
  eapply (slots_apart_perm (omap (slots sm) k ++ [q])); [by rewrite <-Permutation_cons_append|].
  apply slots_apart_snoc. split; [done|]. apply (slots_other sm x q k); [done|apply Hk; left|done|].
  intros y Hy. split; [apply Hk; by right|by intros ->].
Qed.

Section link.
Context `{OsmoLib, Talloc, RsproCodec, IpaLib}.
Context (l p : loc) (k0 : ckey) (fi0 : fsm_inst remsim_server_client_fsm_state).
Context (Hpeer : k_peer k0 = Some p) (Hfi0 : k_fi k0 = Some fi0)
        (Hst0 : fi_state fi0 = CLNTC_ST_CONNECTED_BANKD).

Abbreviation calls n := (calls_of (remsim_server_client_fsm n)).

Record vgood (v : cview) : Prop := {
  vg_key : vc v !! l = Some k0;
  vg_bank : l ∈ vl_bk v;
  vg_own : ∀ l' k', vc v !! l' = Some k' → k_peer k' = Some p → l' = l;
  vg_data : ∀ p', vp v !! p' = Some l → p' = p;
  vg_ids : ∀ l' k', l' ∈ vl_bk v → vc v !! l' = Some k' → k_bank k' = k_bank k0 → l' = l;
}.

Record mgood (sm : slotmaps) : Prop := {
  mg_wf : slotmaps_wf sm;
  mg_bank : ∀ f x, x ∈ bank_list sm (l, f) →
    ∃ m, heap sm !! x = Some m ∧ bank_id (sm_bank m) = k_bank k0;
  mg_global : ∀ f x, listed_state (field_state f) → x ∈ bank_list sm (l, f) → x ∈ mappings sm;
}.

(** The connection is up, and nothing else has its socket, its bank or its
    mappings. *)
Definition good (s : rspro_server) : Prop := vgood (view s) ∧ mgood (srv_slotmaps s).

(** The mappings of the link are the same. *)
Record same_maps (sm sm' : slotmaps) : Prop := {
  sa_lists : ∀ f, bank_list sm' (l, f) = bank_list sm (l, f);
  sa_slots : ∀ f x, x ∈ bank_list sm (l, f) → slots sm' x = slots sm x;
}.

Record steady (s s' : rspro_server) : Prop := {
  sd_good : good s';
  sd_maps : same_maps (srv_slotmaps s) (srv_slotmaps s');
  sd_sent : sent_to p s' = sent_to p s;
}.

Lemma same_maps_refl sm : same_maps sm sm.
Proof. by split. Qed.

Lemma same_maps_trans sm sm' sm'' : same_maps sm sm' → same_maps sm' sm'' → same_maps sm sm''.
Proof.
  intros [L1 S1] [L2 S2]. split; [intros f; by rewrite L2, L1|].
  intros f x Hx. rewrite (S2 f) by (by rewrite L1). by apply (S1 f).
Qed.

Lemma steady_refl s : good s → steady s s.
Proof. intros Hg. split; [done|apply same_maps_refl|done]. Qed.

Lemma steady_trans s s' s'' : steady s s' → steady s' s'' → steady s s''.
Proof. intros [G1 M1 S1] [G2 M2 S2]. split; [done|by eapply same_maps_trans|congruence]. Qed.

Lemma lview_same sm sm' : same_maps sm sm' → lview l sm' = lview l sm.
Proof.
  intros [Hl Hs]. unfold lview, pairs. rewrite !Hl.
  f_equal; apply list_omap_ext, Forall_Forall2_diag, Forall_forall; intros x Hx; eauto.
Qed.

(** ** Computations that leave the link alone *)

Definition holds {A} (m : M rspro_server A) : Prop := ∀ s, good s → wlp m s (λ _ s', steady s s').

Lemma holds_wlp {A} (m : M rspro_server A) s0 s (Q : A → rspro_server → Prop) :
  holds m → steady s0 s → (∀ a s', steady s0 s' → Q a s') → wlp m s Q.
Proof.
  intros Hm Hs HQ. eapply wp_mono; [apply Hm, Hs|]. intros a s' Hs'. apply HQ. by eapply steady_trans.
Qed.

Lemma holds_bind {A B} (m : M rspro_server A) (f : A → M rspro_server B) :
  holds m → (∀ a, holds (f a)) → holds (m ≫= f).
Proof.
  intros Hm Hf s Hg. apply wp_bind. eapply wp_mono; [by apply Hm|]. intros a s' Hs. cbn.
  eapply holds_wlp; [apply Hf|exact Hs|done].
Qed.

Lemma holds_eq {A} (m m' : M rspro_server A) : (∀ s, m s = m' s) → holds m' → holds m.
Proof. intros He Hm s Hg. eapply wp_eq; [apply He|]. by apply Hm. Qed.

Lemma holds_ret {A} (a : A) : holds (mret a).
Proof. intros s Hg. by apply wp_ret, steady_refl. Qed.
Lemma holds_gets {A} (f : rspro_server → A) : holds (gets f).
Proof. intros s Hg. by apply wp_gets, steady_refl. Qed.
Lemma holds_panic {A} : holds (panic (A:=A)).
Proof. intros s Hg. by apply wp_panic. Qed.
Lemma holds_undef {A} : holds (undef (A:=A)).
Proof. intros s Hg. by apply wp_undef. Qed.
Lemma holds_nofuel {A} : holds (nofuel (A:=A)).
Proof. intros s Hg. by apply wp_nofuel. Qed.
Lemma holds_deref {A} (o : option A) : holds (deref o).
Proof. destruct o; [apply holds_ret|apply holds_undef]. Qed.
Lemma holds_assert b : holds (osmo_assert b).
Proof. destruct b; [apply holds_ret|apply holds_panic]. Qed.
Lemma holds_when b (m : M rspro_server ()) : holds m → holds (when b m).
Proof. destruct b; [done|intros _; apply holds_ret]. Qed.

Lemma holds_modify (f : rspro_server → rspro_server) : (∀ s, good s → steady s (f s)) → holds (modify f).
Proof. intros Hf s Hg. by apply wp_modify, Hf. Qed.

Lemma holds_for_each {A} (f : A → M rspro_server ()) k : (∀ x, holds (f x)) → holds (for_each f k).
Proof. intros Hf. induction k as [|x k IH]; [apply holds_ret|]. by apply holds_bind. Qed.

(** An operation on the slot maps. *)
Lemma holds_slotmaps {A} (m : M slotmaps A) :
  (∀ sm, mgood sm → wlp m sm (λ _ sm', mgood sm' ∧ same_maps sm sm')) → holds (on_slotmaps m).
Proof.
  intros Hm s [Hv Hg]. apply wp_zoom. eapply wp_mono; [by apply Hm|]. intros a sm' [Hg' Hs]. by split.
Qed.

(** A look into the slot maps. *)
Lemma pure_map_at x sm (Q : slot_mapping → slotmaps → Prop) :
  (∀ m, heap sm !! x = Some m → Q m sm) → wlp (map_at x) sm Q.
Proof. intros HQ. apply wp_bind, wp_gets, wp_deref; [done|exact HQ]. Qed.

Lemma pure_find_map P k sm (Q : option loc → slotmaps → Prop) : (∀ r, Q r sm) → wlp (find_map P k) sm Q.
Proof.
  intros HQ. induction k as [|x k IH]; cbn [find_map]; [by apply wp_ret|].
  apply wp_bind, pure_map_at. intros m _. destruct (P m); [by apply wp_ret|done].
Qed.

Lemma holds_map_at x : holds (on_slotmaps (map_at x)).
Proof. apply holds_slotmaps. intros sm Hg. apply pure_map_at. intros m _. split; [done|apply same_maps_refl]. Qed.

Lemma holds_by_client c : holds (on_slotmaps (slotmap_by_client c)).
Proof.
  apply holds_slotmaps. intros sm Hg. apply wp_bind, wp_gets, pure_find_map.
  intros r. split; [done|apply same_maps_refl].
Qed.

Lemma holds_conn_at l' : holds (conn_at l').
Proof. apply holds_bind; [apply holds_gets|intros; apply holds_deref]. Qed.

Lemma holds_find_conn P k : holds (find_conn P k).
Proof.
  induction k as [|x k IH]; [apply holds_ret|]. apply holds_bind; [apply holds_conn_at|].
  intros c. destruct (P c); [apply holds_ret|done].
Qed.

(** ** Changes of connections *)

Lemma steady_view s s' :
  good s → vgood (view s') → srv_slotmaps s' = srv_slotmaps s → sent s' = sent s → steady s s'.
Proof.
  intros [Hv Hm] Hv' Hs Ht. split; [split; [done|by rewrite Hs]|rewrite Hs; apply same_maps_refl|].
  unfold sent_to. by rewrite Ht.
Qed.

(** Another connection may change but not take the socket or the bank. *)
Lemma vgood_set v l' k' :
  vgood v → l' ≠ l → k_peer k' ≠ Some p → (l' ∈ vl_bk v → k_bank k' ≠ k_bank k0) → vgood (v_set l' k' v).
Proof.
  intros [Hk Hb Ho Hd Hi] Hne Hp Hbk. split; cbn; [by rewrite lookup_insert_ne|done| |done|].
  - intros y ky [[<- <-]|[_ Hy]]%lookup_insert_Some; [done|by eapply Ho].
  - intros y ky Hy [[<- <-]|[_ Hky]]%lookup_insert_Some; [|by eapply Hi]. intros Hbe. by destruct Hbk.
Qed.

(** Lists may change that do not touch it. *)
Lemma vgood_lists v k cl bk :
  vgood v → l ∈ bk → (∀ y ky, y ∈ bk → y ∉ vl_bk v → vc v !! y = Some ky → k_bank ky ≠ k_bank k0) →
  vgood (CView (vc v) k cl bk (vp v)).
Proof.
  intros [Hk Hb Ho Hd Hi] Hl Hnew. split; cbn; try done. intros y ky Hy Hky Hbe.
  destruct (decide (y ∈ vl_bk v)); [by eapply Hi|]. by destruct (Hnew y ky).
Qed.

Lemma holds_conn_upd l' f :
  l' ≠ l → (∀ c, conn_peer (f c) = conn_peer c ∨ conn_peer (f c) = None) →
  (∀ c, conn_bank_id (f c) = conn_bank_id c) → holds (conn_upd l' f).
Proof.
  intros Hne Hp Hb s Hg. apply wp_bind. unfold conn_at. apply wp_bind, wp_gets, wp_deref; [done|].
  intros c Hc. apply wp_modify. rewrite (alter_insert_Some _ _ _ c) by done.
  pose proof Hg as [Hv _]. apply steady_view; [done| |done|done]. rewrite view_insert.
  pose proof (view_lookup _ _ _ Hc) as Hkc.
  apply vgood_set; [done|done| |]; cbn.
  - intros Hpc. destruct (Hp c) as [He|He]; rewrite He in Hpc; [|done].
    by apply Hne, (vg_own _ Hv _ _ Hkc).
  - intros Hl' Hbe. rewrite Hb in Hbe. by apply Hne, (vg_ids _ Hv _ _ Hl' Hkc).
Qed.

Lemma holds_conn_upd_key l' f : (∀ c, key (f c) = key c) → holds (conn_upd l' f).
Proof.
  intros Hk s Hg. apply wp_bind. unfold conn_at. apply wp_bind, wp_gets, wp_deref; [done|].
  intros c Hc. apply wp_modify. rewrite (alter_insert_Some _ _ _ c) by done.
  destruct (same_upd l' c (f c) s Hc (Hk c)) as [Hv Hm]. apply steady_view; [done| |done|done].
  rewrite Hv. apply Hg.
Qed.

(** Setting and freeing the machine of another connection. *)
Lemma holds_alter_fi l' fi : l' ≠ l → holds (modify (λ s, set_conns (alter (set_conn_fi fi) l' (conns s)) s)).
Proof.
  intros Hne. apply holds_modify. intros s Hg. apply steady_view; [done| |done|done].
  pose proof Hg as [Hv _]. destruct (conns s !! l') as [c|] eqn:Hc.
  - rewrite (alter_insert_Some _ _ _ c), view_insert by done. pose proof (view_lookup _ _ _ Hc) as Hkc.
    apply vgood_set; [done|done| |]; cbn.
    + intros Hpc. by apply Hne, (vg_own _ Hv _ _ Hkc).
    + intros Hl' Hbe. by apply Hne, (vg_ids _ Hv _ _ Hl' Hkc).
  - rewrite alter_id by (intros ?; by rewrite Hc). exact Hv.
Qed.

(** A message to another connection. *)
Lemma sent_to_snoc q m s : q ≠ p → sent_to p (set_sent (sent s ++ [(q, m)]) s) = sent_to p s.
Proof.
  intros Hq. unfold sent_to. cbn. rewrite omap_app. cbn. destruct m; rewrite ?app_nil_r; try done.
  by rewrite decide_False, app_nil_r.
Qed.

Lemma steady_sent q m s : good s → q ≠ p → steady s (set_sent (sent s ++ [(q, m)]) s).
Proof. intros Hg Hq. split; [done|apply same_maps_refl|by apply sent_to_snoc]. Qed.

Lemma own_peer s l' c q : good s → l' ≠ l → conns s !! l' = Some c → conn_peer c = Some q → q ≠ p.
Proof.
  intros [Hv _] Hne Hc Hq ->. apply Hne, (vg_own _ Hv l' (key c)); [by apply view_lookup|done].
Qed.

Lemma holds_send l' pdu : l' ≠ l → holds (client_conn_send l' pdu).
Proof.
  intros Hne s Hg. apply wp_bind. unfold conn_at. apply wp_bind, wp_gets, wp_deref; [done|]. intros c Hc.
  destruct (rspro_enc_msg pdu) as [b|]; [|by apply wp_ret, steady_refl].
  apply wp_bind, wp_deref; [done|]. intros q Hq. apply wp_modify, steady_sent; [done|by eapply own_peer].
Qed.

(** ** State machines of other connections *)

Ltac holds_step :=
  match goal with
  | |- holds (mbind _ _) => apply holds_bind; [|intros ?]
  | |- holds (mret _) => apply holds_ret
  | |- holds (gets _) => apply holds_gets
  | |- holds panic => apply holds_panic
  | |- holds undef => apply holds_undef
  | |- holds nofuel => apply holds_nofuel
  | |- holds (deref _) => apply holds_deref
  | |- holds (osmo_assert _) => apply holds_assert
  | |- holds (when _ _) => apply holds_when
  | |- holds (conn_at _) => apply holds_conn_at
  | |- holds (osmo_stream_srv_get_fd _) => apply holds_deref
  | |- holds (on_slotmaps (map_at _)) => apply holds_map_at
  | |- holds (on_slotmaps (slotmap_by_client _)) => apply holds_by_client
  | |- holds (find_conn _ _) => apply holds_find_conn
  | |- holds (client_conn_by_slot _) => apply holds_bind; [apply holds_gets|intros ?; apply holds_find_conn]
  | |- holds (bankd_conn_by_id _) => apply holds_bind; [apply holds_gets|intros ?; apply holds_find_conn]
  | |- holds (client_conn_send _ _) => apply holds_send; done
  | |- holds (conn_upd _ _) => first [apply holds_conn_upd_key; done | apply holds_conn_upd; [done|auto|done]]
  end.
Ltac holds_steps := repeat (holds_step; cbn beta).

Lemma link_fi s c : good s → conns s !! l = Some c → conn_fi c = Some fi0.
Proof.
  intros [Hv _] Hc%view_lookup. rewrite (vg_key _ Hv) in Hc. injection Hc as Hk.
  rewrite Hk in Hfi0. exact Hfi0.
Qed.

Lemma holds_dispatch0 l' e d : holds (fi_dispatch (calls 0) l' e d).
Proof.
  apply (holds_eq _ (ref_dispatch (remsim_server_client_fsm 0 l') (conn_ref l') e d));
    [intros s; apply dispatch_eq|]. unfold ref_dispatch. holds_steps.
  match goal with |- holds (match ?x with _ => _ end) => destruct x as [fi|] end; [|holds_steps].
  assert (Z.testbit (- 1) (enum e) = true) as Ht by (by destruct e).
  cbn -[enum]. rewrite Ht. holds_steps.
Qed.

Lemma wlp_dispatch n l' e d s :
  good s →
  (∀ c fi, conns s !! l' = Some c → conn_fi c = Some fi →
    Z.testbit (allstate_event_mask (build_fsm (calls n) l')) (enum e) = true →
    wlp (clnt_allstate_action (calls n) l' e d) s (λ _, steady s)) →
  (∀ c fi, conns s !! l' = Some c → conn_fi c = Some fi →
    Z.testbit (in_event_mask (server_client_fsm_states (calls n) l' (fi_state fi))) (enum e) = true →
    wlp (action (server_client_fsm_states (calls n) l' (fi_state fi)) e d) s (λ _, steady s)) →
  wlp (fi_dispatch (calls (S n)) l' e d) s (λ _, steady s).
Proof.
  intros Hg Hall Hin. eapply wp_eq; [apply dispatch_eq|]. unfold ref_dispatch.
  apply wp_bind, wp_gets. cbn [fi_get conn_ref]. destruct (conns s !! l') as [c|] eqn:Hc;
    cbn [mbind option_bind]; [|by apply wp_ret, steady_refl].
  destruct (conn_fi c) as [fi|] eqn:Hfi; [|by apply wp_ret, steady_refl].
  cbn [remsim_server_client_fsm]. destruct (Z.testbit (allstate_event_mask _) _) eqn:Ha.
  { apply wp_bind. eapply wp_mono; [by apply (Hall c fi)|]. intros ? s' Hs'. by apply wp_ret. }
  destruct (Z.testbit (in_event_mask _) _) eqn:Hi; [|by apply wp_ret, steady_refl].
  apply wp_bind. eapply wp_mono; [by apply (Hin c fi)|]. intros ? s' Hs'. by apply wp_ret.
Qed.

Lemma holds_conn_dispatch n l' e d :
  holds (fi_dispatch (calls n) l' e d) → holds (conn_dispatch (calls n) l' e d).
Proof. intros Hd. unfold conn_dispatch. by holds_steps. Qed.

Lemma holds_cfg_bankd n l' : holds (conn_dispatch (calls n) l' CLNTC_E_CL_CFG_BANKD None).
Proof.
  apply holds_conn_dispatch. destruct n as [|n]; [apply holds_dispatch0|]. intros s Hg. apply wlp_dispatch; [done|done|].
  intros c fi Hc Hfi Hin. destruct (fi_state fi) eqn:Hst; try done.
  assert (l' ≠ l) as Hne. { intros ->. pose proof (link_fi _ _ Hg Hc). congruence. }
  cbn [action server_client_fsm_states clnt_st_connected_client].
  assert (holds (clnt_st_connected_client l' CLNTC_E_CL_CFG_BANKD None)) as Hh
    by (cbn [clnt_st_connected_client]; holds_steps).
  by apply Hh.
Qed.

Lemma holds_bankd_addr m b : holds (bankd_addr m b).
Proof. unfold bankd_addr. destruct b; [|holds_steps]. case_decide; holds_steps. Qed.

Lemma holds_update_client n x b : holds (_update_client_for_slotmap (calls n) x b).
Proof.
  unfold _update_client_for_slotmap. holds_step; [holds_steps|]. holds_step; [holds_steps|].
  destruct a0 as [cl|]; [|holds_steps]. holds_step; [holds_steps|]. holds_step; [holds_steps|].
  holds_step; [destruct b; holds_steps|]. holds_step; [apply holds_bankd_addr|].
  destruct a3 as [[ip port]|]; [|holds_steps]. holds_step; [holds_steps|]. apply holds_when.
  holds_step; [apply holds_cfg_bankd|holds_steps].
Qed.

Lemma holds_client_onenter n l' st : holds (clnt_st_connected_client_onenter (calls n) l' st).
Proof.
  unfold clnt_st_connected_client_onenter. holds_step; [holds_steps|]. holds_step; [holds_steps|].
  destruct a0; [apply holds_update_client|holds_steps].
Qed.

(** ** Mappings of other connections *)

Definition apart (x : loc) (sm : slotmaps) : Prop := ∀ f, x ∉ bank_list sm (l, f).

Lemma apart_other sm l' f x : mgood sm → l' ≠ l → x ∈ bank_list sm (l', f) → apart x sm.
Proof.
  intros Hm Hne Hx g Hg. pose proof (wf_list_disjoint _ (mg_wf _ Hm) _ _ _ Hx Hg) as [= -> _]. done.
Qed.

Lemma apart_same sm sm' x : same_maps sm sm' → apart x sm → apart x sm'.
Proof. intros [Hl _] Ha f. rewrite Hl. apply Ha. Qed.

Lemma apart_relink x st ho sm :
  mgood sm → apart x sm → is_Some (heap sm !! x) →
  (∀ h, ho = Some h → st = field_state h.2 ∧ h.1 ≠ l) →
  mgood (relink x st ho sm) ∧ same_maps sm (relink x st ho sm).
Proof.
  intros [Hwf Hb Hg] Ha Hx Hho.
  assert (∀ f, bank_list (relink x st ho sm) (l, f) = bank_list sm (l, f)) as Hl.
  { intros f. rewrite bank_list_relink, decide_False; [by apply unlink_not_in|].
    intros He. by destruct (Hho _ He). }
  split; split.
  - apply wf_relink; [done|done|]. intros h Hh. by destruct (Hho h Hh).
  - intros f y. rewrite Hl. intros Hy. destruct (Hb f y Hy) as (m & Hm & Hid). exists m. split; [|done].
    cbn. rewrite lookup_alter_ne; [done|]. intros ->. by apply (Ha f).
  - intros f y Hf. rewrite Hl. by apply Hg.
  - done.
  - intros f y _. apply slots_relink.
Qed.

Lemma apart_free x sm : mgood sm → apart x sm → mgood (free_map x sm) ∧ same_maps sm (free_map x sm).
Proof.
  intros [Hwf Hb Hg] Ha.
  assert (∀ f, bank_list (free_map x sm) (l, f) = bank_list sm (l, f)) as Hl.
  { intros f. rewrite bank_list_free_map. by apply unlink_not_in. }
  assert (∀ f y, y ∈ bank_list sm (l, f) → y ≠ x) as Hne by (intros f y Hy ->; by apply (Ha f)).
  split; split.
  - by apply wf_free_map.
  - intros f y. rewrite Hl. intros Hy. destruct (Hb f y Hy) as (m & Hm & Hid). exists m. split; [|done].
    cbn. rewrite lookup_delete_ne; [done|]. intros ->. by apply (Hne f y).
  - intros f y Hf. rewrite Hl. intros Hy. cbn. apply elem_of_unlink. split; [by eapply Hne|by eapply Hg].
  - done.
  - intros f y Hy. unfold slots. cbn. rewrite lookup_delete_ne; [done|]. intros <-. by apply (Hne f x).
Qed.

Lemma wlp_relink x st ho sm (Q : () → slotmaps → Prop) :
  (is_Some (heap sm !! x) → Q () (relink x st ho sm)) → wlp (_Slotmap_state_change x st ho) sm Q.
Proof. intros HQ. apply wp_bind, pure_map_at. intros m Hm. by apply wp_modify, HQ; eexists. Qed.

Lemma wlp_free x sm (Q : () → slotmaps → Prop) : Q () (free_map x sm) → wlp (_slotmap_del x) sm Q.
Proof. intros HQ. apply wp_bind, pure_map_at. intros m Hm. by apply wp_modify. Qed.

(** An operation on mappings that are not of the link. *)
Definition leaves (op : loc → M slotmaps ()) : Prop := ∀ x sm,
  mgood sm → apart x sm → wlp (op x) sm (λ _ sm', mgood sm' ∧ same_maps sm sm').

Lemma leaves_relink st ho :
  (∀ h, ho = Some h → st = field_state h.2 ∧ h.1 ≠ l) → leaves (λ x, _Slotmap_state_change x st ho).
Proof. intros Hho x sm Hm Ha. apply wlp_relink. intros Hx. by apply apart_relink. Qed.

Lemma leaves_del : leaves _slotmap_del.
Proof. intros x sm Hm Ha. by apply wlp_free, apart_free. Qed.

Lemma wlp_leaves op x s0 s (Q : () → rspro_server → Prop) :
  leaves op → steady s0 s → apart x (srv_slotmaps s) → (∀ s', steady s0 s' → Q () s') →
  wlp (on_slotmaps (op x)) s Q.
Proof.
  intros Hop Hs Ha HQ. pose proof (sd_good _ _ Hs) as [Hv Hm]. apply wp_zoom.
  eapply wp_mono; [by apply Hop|]. intros [] sm' [Hm' Hsa]. apply HQ.
  eapply steady_trans; [exact Hs|]. by split.
Qed.

(** A loop over the mappings of another connection. *)
Lemma wlp_apart_all (body : loc → M rspro_server ()) k s0 s (Q : () → rspro_server → Prop) :
  (∀ x s, good s → apart x (srv_slotmaps s) → wlp (body x) s (λ _, steady s)) →
  steady s0 s → Forall (λ x, apart x (srv_slotmaps s)) k → (∀ s', steady s0 s' → Q () s') →
  wlp (for_each body k) s Q.
Proof.
  intros Hbody. revert s. induction k as [|x k IH]; intros s Hs Hk HQ; cbn [for_each]; [by apply wp_ret, HQ|].
  apply Forall_cons in Hk as [Hx Hk]. apply wp_bind.
  eapply wp_mono; [apply Hbody; [apply Hs|done]|]. intros [] s' Hs'. apply IH; [|..|done].
  - by eapply steady_trans.
  - eapply Forall_impl; [exact Hk|]. intros y Hy. eapply apart_same; [apply Hs'|exact Hy].
Qed.

Lemma apart_list s l' f : good s → l' ≠ l → Forall (λ x, apart x (srv_slotmaps s)) (bank_list (srv_slotmaps s) (l', f)).
Proof. intros Hg Hne. apply Forall_forall. intros x Hx. eapply apart_other; [apply Hg|exact Hne|exact Hx]. Qed.

Lemma holds_unlink_all l' : l' ≠ l → holds (_unlink_all_slotmaps l').
Proof.
  intros Hne. unfold _unlink_all_slotmaps.
  assert (∀ op f, leaves op → holds (k ← gets (λ s, bank_list (srv_slotmaps s) (l', f));
    for_each (λ map, on_slotmaps (op map)) k)) as Hloop.
  { intros op f Hop s Hg. apply wp_bind, wp_gets.
    eapply wlp_apart_all; [|by apply steady_refl|by apply apart_list|done].
    intros x s' Hg' Ha. eapply wlp_leaves; [done|by apply steady_refl|done..]. }
  do 3 (apply holds_bind; [by apply Hloop, leaves_relink|intros _]).
  apply holds_bind; [apply (Hloop _ _ leaves_del)|intros _; apply (Hloop _ _ leaves_del)].
Qed.

(** ** Teardown of other connections *)

Lemma holds_free_conn l' : l' ≠ l → holds (modify (free_conn l')).
Proof.
  intros Hne. apply holds_modify. intros s Hg. apply steady_view; [done| |done|done].
  destruct Hg as [[Hk Hb Ho Hd Hi] _]. unfold view, free_conn in *. cbn in *. rewrite fmap_delete.
  split; cbn.
  - by rewrite lookup_delete_ne.
  - by apply elem_of_unlink.
  - intros y ky [_ Hy]%lookup_delete_Some. by apply Ho.
  - done.
  - intros y ky [_ Hy]%elem_of_unlink [_ Hky]%lookup_delete_Some. by apply Hi.
Qed.

Lemma holds_peer_gone p' : holds (modify (λ s, set_peer_data (delete p' (peer_data s)) s)).
Proof.
  apply holds_modify. intros s Hg. apply steady_view; [done| |done|done].
  destruct Hg as [[Hk Hb Ho Hd Hi] _]. split; cbn in *; try done.
  intros q [_ Hq]%lookup_delete_Some. by apply Hd.
Qed.

Lemma holds_destroy_sock (m : M rspro_server Z) : holds m → holds (osmo_stream_srv_destroy m).
Proof.
  intros Hm. apply (holds_eq _ (m ;; mret ())); [intros s; apply stream_srv_destroy_closes|]. by holds_steps.
Qed.

(** The call-back of another socket, if another machine can terminate. *)
Lemma holds_closed_of n p' :
  p' ≠ p → (∀ l', l' ≠ l → holds (conn_dispatch (calls n) l' CLNTC_E_TCP_DOWN None)) →
  holds (sock_closed_cb (calls n) p').
Proof.
  intros Hp Hdisp s Hg. unfold sock_closed_cb. apply wp_bind, wp_gets.
  destruct (peer_data s !! p') as [l'|] eqn:Hd; [|by apply wp_panic].
  assert (l' ≠ l) as Hne. { intros ->. apply Hp. by apply (vg_data _ (proj1 Hg)). }
  enough (holds (modify (λ s, set_peer_data (delete p' (peer_data s)) s) ;;
    c ← conn_at l'; when (conn_ka_fi c) (conn_upd l' (set_conn_ka_fi false)) ;;
    when (bool_decide (is_Some (conn_fi c)) && bool_decide (is_Some (conn_peer c)))
      (conn_upd l' (set_conn_peer None) ;; conn_dispatch (calls n) l' CLNTC_E_TCP_DOWN None ;; mret ()) ;;
    mret 0)) as Hh by (by apply Hh).
  holds_step; [apply holds_peer_gone|]. holds_step; [holds_steps|]. holds_step; [holds_steps|].
  holds_step; [|holds_steps]. apply holds_when. holds_step; [holds_steps|].
  holds_step; [by apply Hdisp|holds_steps].
Qed.

Lemma holds_tcp_down n l' :
  (∀ m, (m < n)%nat → holds (fi_term (calls m) l')) → holds (conn_dispatch (calls n) l' CLNTC_E_TCP_DOWN None).
Proof.
  intros Hterm. apply holds_conn_dispatch. destruct n as [|n]; [apply holds_dispatch0|].
  intros s Hg. apply wlp_dispatch; [done|..]; intros c fi _ _ Hin; [|by destruct (fi_state fi)].
  cbn [clnt_allstate_action]. apply Hterm; [lia|done].
Qed.

Lemma holds_term n l' : l' ≠ l → holds (fi_term (calls n) l').
Proof.
  revert l'. induction (lt_wf n) as [n _ IH]. intros l' Hne. cbn [fi_term calls_of].
  apply (holds_eq _ (cleanup (remsim_server_client_fsm n l') ;; modify (fi_free (conn_ref l'))));
    [intros s; apply term_runs_cleanup|].
  apply holds_bind; [|intros _; by apply holds_alter_fi].
  destruct n as [|n]; [apply holds_nofuel|].
  cbn [remsim_server_client_fsm build_fsm cleanup]. unfold server_client_cleanup.
  holds_step; [holds_steps|]. intros s Hg. unfold rspro_client_conn_destroy, conn_at.
  apply wp_bind, wp_bind, wp_gets, wp_deref; [done|]. intros c Hc. destruct (conn_peer c) as [q|] eqn:Hq.
  - assert (q ≠ p) as Hqp by (by eapply own_peer).
    enough (holds (conn_upd l' (set_conn_peer None) ;; osmo_stream_srv_destroy (sock_closed_cb (calls n) q)))
      as Hh by (by apply Hh).
    holds_step; [holds_steps|]. apply holds_destroy_sock, holds_closed_of; [done|].
    intros l2 Hne2. apply holds_tcp_down. intros m Hm. apply IH; [lia|done].
  - enough (holds (_unlink_all_slotmaps l' ;; modify (free_conn l'))) as Hh by (by apply Hh).
    holds_step; [by apply holds_unlink_all|by apply holds_free_conn].
Qed.

Lemma holds_closed n p' : p' ≠ p → holds (sock_closed_cb (calls n) p').
Proof.
  intros Hp. apply holds_closed_of; [done|]. intros l' Hne. apply holds_tcp_down. intros m _. by apply holds_term.
Qed.

(** ** State changes of other connections *)

Lemma holds_fi_update l' f : l' ≠ l → holds (fi_update (conn_ref l') f).
Proof. intros Hne. unfold fi_update. holds_step; [holds_steps|]. holds_step; [holds_steps|]. by apply holds_alter_fi. Qed.

(** A change whose [onenter] leaves the link alone where it is called. *)
Lemma wlp_state_chg n l' new secs T s :
  good s → l' ≠ l →
  (∀ st s', good s' → banks s' = banks s →
     (∀ c', conns s' !! l' = Some c' → ∃ c, conns s !! l' = Some c ∧ conn_bank_id c' = conn_bank_id c) →
     wlp (onenter (server_client_fsm_states (calls n) l' new) st) s' (λ _, steady s')) →
  wlp (fi_state_chg (calls (S n)) l' new secs T) s (λ _, steady s).
Proof.
  intros Hg Hne Hon. cbn [fi_state_chg calls_of]. unfold osmo_fsm_inst_state_chg.
  eapply wp_eq; [apply state_chg_eq|]. unfold ref_state_chg. apply wp_bind, wp_gets.
  cbn [fi_get conn_ref]. apply wp_bind, wp_deref; [done|]. intros fi Hfi.
  apply bind_Some in Hfi as (c & Hc & Hfi). cbn [remsim_server_client_fsm build_fsm states].
  destruct (Z.testbit _ _); [|by apply wp_ret, steady_refl].
  assert (∀ f s' c1 fi1 (Q : () → rspro_server → Prop), steady s s' → banks s' = banks s →
    conns s' !! l' = Some c1 → conn_fi c1 = Some fi1 → conn_bank_id c1 = conn_bank_id c →
    (∀ s2 c2 fi2, steady s s2 → banks s2 = banks s → conns s2 !! l' = Some c2 → conn_fi c2 = Some fi2 →
       conn_bank_id c2 = conn_bank_id c → Q () s2) → wlp (fi_update (conn_ref l') f) s' Q) as Hupd.
  { intros f s' c1 fi1 Q Hs' Hbk Hc1 Hfi1 Hid HQ.
    pose proof (holds_fi_update l' f Hne s' (sd_good _ _ Hs')) as Hwp.
    assert (wlp (fi_update (conn_ref l') f) s' (λ _ s2, s2 = set_conns (<[l' := set_conn_fi (Some (f fi1)) c1]>
      (conns s')) s')) as Hex by (by apply (wp_fi_update _ _ c1 fi1)).
    eapply wp_mono; [exact (wp_and _ _ _ _ Hwp Hex)|]. intros [] s2 [Hs2 ->].
    eapply HQ; [by eapply steady_trans|done|apply lookup_insert_eq|done|done]. }
  apply wp_bind. eapply Hupd; [by apply steady_refl|done|done|done|done|].
  intros s1 c1 fi1 Hs1 Hb1 Hc1 Hf1 Hid1. apply wp_bind.
  replace (onleave (server_client_fsm_states (calls n) l' (fi_state fi)) new) with (mret () : M rspro_server ())
    by (by destruct (fi_state fi)).
  apply wp_ret, wp_bind. eapply Hupd; [done..|]. intros s2 c2 fi2 Hs2 Hb2 Hc2 Hf2 Hid2. apply wp_bind.
  eapply wp_mono; [apply Hon; [apply Hs2|done|]|].
  - intros c' Hc'. exists c. split; [done|]. congruence.
  - intros [] s3 Hs3. apply wp_ret. by eapply steady_trans.
Qed.

Lemma holds_state_chg n l' new secs T :
  l' ≠ l → new ≠ CLNTC_ST_CONNECTED_BANKD → holds (fi_state_chg (calls (S n)) l' new secs T).
Proof.
  intros Hne Hnew s Hg. apply wlp_state_chg; [done|done|]. intros st s' Hg' _ _.
  destruct new; try done; cbn [onenter server_client_fsm_states]; try (by apply holds_ret).
  by apply holds_client_onenter.
Qed.

(** The mappings of another bank are apart. *)
Lemma apart_bank sm x m : mgood sm → heap sm !! x = Some m → bank_id (sm_bank m) ≠ k_bank k0 → apart x sm.
Proof. intros Hm Hx Hne f Hf. destruct (mg_bank _ Hm f x Hf) as (m' & Hm' & Hid). congruence. Qed.

Lemma wlp_bankd_onenter l' st s :
  good s → l' ≠ l → (∀ c, conns s !! l' = Some c → conn_bank_id c ≠ k_bank k0) →
  wlp (clnt_st_connected_bankd_onenter l' st) s (λ _, steady s).
Proof.
  intros Hg Hne Hid. unfold clnt_st_connected_bankd_onenter, conn_at.
  apply wp_bind, wp_bind, wp_gets, wp_deref; [done|]. intros c Hc. specialize (Hid c Hc).
  apply wp_bind, wp_gets. generalize (mappings (srv_slotmaps s)) as k. intros k.
  enough (holds (for_each (λ map, m ← on_slotmaps (map_at map);
    when (bank_id (sm_bank m) =? conn_bank_id c)
      (on_slotmaps (_Slotmap_state_change map SLMAP_S_NEW (Some (l', maps_new))))) k)) as Hh by (by apply Hh).
  apply holds_for_each. intros x s' Hg'. apply wp_bind, wp_zoom, pure_map_at. intros m Hm.
  replace (set_srv_slotmaps (srv_slotmaps s') s') with s' by (by destruct s').
  apply wp_when; [intros Hb%Z.eqb_eq|intros _; by apply steady_refl].
  eapply (wlp_leaves (λ x, _Slotmap_state_change x SLMAP_S_NEW (Some (l', maps_new))));
    [|by apply steady_refl| |done].
  - apply leaves_relink. by intros ? [= <-].
  - eapply apart_bank; [apply Hg'|exact Hm|congruence].
Qed.

(** ** The requests to other bankds *)

Lemma holds_push_list l' from gen to :
  l' ≠ l → holds (push_list l' from gen (field_state to) to).
Proof.
  intros Hne s Hg. unfold push_list. apply wp_bind, wp_gets.
  eapply wlp_apart_all; [|by apply steady_refl|by apply apart_list|done].
  intros x s' Hg' Ha. apply wp_bind, wp_zoom, pure_map_at. intros m Hm.
  replace (set_srv_slotmaps (srv_slotmaps s') s') with s' by (by destruct s').
  apply wp_bind. eapply holds_wlp; [by apply holds_send|by apply steady_refl|]. intros [] s2 Hs2.
  eapply (wlp_leaves (λ x, _Slotmap_state_change x (field_state to) (Some (l', to)))); [|done| |done].
  - apply leaves_relink. by intros ? [= <-].
  - eapply apart_same; [apply Hs2|done].
Qed.

Lemma holds_push l' : l' ≠ l → holds (connected_bankd_push l').
Proof.
  intros Hne. unfold connected_bankd_push. holds_step; [holds_steps|].
  holds_step; [by apply (holds_push_list _ _ _ maps_unack)|by apply (holds_push_list _ _ _ maps_deleting)].
Qed.

(** The first mapping of a list of another connection. *)
Lemma wlp_first_map l' f s (Q : loc → rspro_server → Prop) :
  (∀ x, x ∈ bank_list (srv_slotmaps s) (l', f) → Q x s) → wlp (first_map l' f) s Q.
Proof.
  intros HQ. unfold first_map, conn_at. apply wp_bind, wp_bind, wp_gets, wp_deref; [done|]. intros c _.
  apply wp_bind, wp_gets. destruct (bank_list _ _) as [|x k]; cbn; [by apply wp_undef|].
  apply wp_ret, HQ. left.
Qed.

Lemma holds_create_map_res n l' : l' ≠ l → holds (connected_bankd_create_map_res (calls n) l').
Proof.
  intros Hne s Hg. apply wp_bind, wlp_first_map. intros x Hx.
  assert (apart x (srv_slotmaps s)) as Ha by (eapply apart_other; [apply Hg|done|done]).
  apply wp_bind. eapply (wlp_leaves (λ x, _Slotmap_state_change x SLMAP_S_ACTIVE (Some (l', maps_active))));
    [|by apply steady_refl|done|].
  - apply leaves_relink. by intros ? [= <-].
  - intros s' Hs'. eapply holds_wlp; [apply holds_update_client|exact Hs'|done].
Qed.

Lemma holds_remove_map_res n l' : l' ≠ l → holds (connected_bankd_remove_map_res (calls n) l').
Proof.
  intros Hne s Hg. apply wp_bind, wlp_first_map. intros x Hx.
  assert (apart x (srv_slotmaps s)) as Ha by (eapply apart_other; [apply Hg|done|done]).
  apply wp_bind. eapply holds_wlp; [apply holds_map_at|by apply steady_refl|]. intros m s1 Hs1.
  apply wp_bind. eapply holds_wlp; [apply holds_assert|exact Hs1|]. intros [] s2 Hs2.
  apply wp_bind. eapply holds_wlp; [apply holds_update_client|exact Hs2|]. intros [] s3 Hs3.
  eapply (wlp_leaves _slotmap_del); [apply leaves_del|exact Hs3| |done].
  eapply apart_same; [apply Hs3|done].
Qed.

(** ** Other connections that identify themselves *)

Lemma pure_find_conn P k s (Q : option loc → rspro_server → Prop) :
  (∀ x c, x ∈ k → conns s !! x = Some c → P c = true → Q (Some x) s) →
  ((∀ x c, x ∈ k → conns s !! x = Some c → P c = false) → Q None s) → wlp (find_conn P k) s Q.
Proof.
  revert Q. induction k as [|x k IH]; intros Q HS HN; cbn [find_conn].
  { apply wp_ret, HN. by intros ? ? []%elem_of_nil. }
  unfold conn_at. apply wp_bind, wp_bind, wp_gets, wp_deref; [done|]. intros c Hc.
  destruct (P c) eqn:HP; [eapply wp_ret, HS; [left|done..]|]. apply IH.
  - intros y cy Hy. apply HS. by right.
  - intros Hk. apply HN. intros y cy [->|Hy]%elem_of_cons Hcy; [congruence|eauto].
Qed.

Lemma wlp_send l' pdu s (Q : () → rspro_server → Prop) :
  good s → l' ≠ l →
  (∀ s', steady s s' → conns s' = conns s → banks s' = banks s → srv_slotmaps s' = srv_slotmaps s → Q () s') →
  wlp (client_conn_send l' pdu) s Q.
Proof.
  intros Hg Hne HQ. apply wp_bind. unfold conn_at. apply wp_bind, wp_gets, wp_deref; [done|]. intros c Hc.
  destruct (rspro_enc_msg pdu) as [b|]; [|by apply wp_ret, HQ; [apply steady_refl|..]].
  apply wp_bind, wp_deref; [done|]. intros q Hq. apply wp_modify, HQ; [|done..].
  apply steady_sent; [done|by eapply own_peer].
Qed.

Lemma holds_reparent_client l' : l' ≠ l → holds (modify (reparent_client l')).
Proof.
  intros Hne. apply holds_modify. intros s Hg. apply steady_view; [done| |done|done].
  apply (vgood_lists (view s)); [apply Hg|cbn; apply elem_of_unlink; split; [done|apply Hg]|].
  intros y ky [_ Hy]%elem_of_unlink Hn. done.
Qed.

Lemma holds_established_client n l' d : l' ≠ l → holds (established_client_conn (calls (S n)) l' d).
Proof.
  intros Hne. unfold established_client_conn. holds_step; [holds_steps|]. destruct a as [ident cslot].
  holds_step; [holds_steps|]. destruct (negb _); [by apply holds_term|].
  destruct cslot as [cs|]; [|by apply holds_term].
  holds_step; [holds_steps|]. holds_step; [holds_steps|]. holds_step; [holds_steps|].
  holds_step; [holds_steps|].
  assert (∀ r : Z, holds (modify (reparent_client l') ;;
    client_conn_send l' (rspro_gen_ConnectClientRes a3 r) ;;
    fi_state_chg (calls (S n)) l' CLNTC_ST_CONNECTED_CLIENT 0 0 ;; mret ())) as Hacc.
  { intros r. holds_step; [by apply holds_reparent_client|]. holds_step; [holds_steps|].
    holds_step; [by apply holds_state_chg|holds_steps]. }
  destruct a2 as [pr|]; [|apply Hacc]. case_decide; [apply Hacc|].
  holds_step; [holds_steps|]. holds_step; [holds_steps|]. holds_step; [holds_steps|].
  holds_step; [by apply holds_state_chg|holds_steps].
Qed.

Lemma holds_push_event n l' : l' ≠ l → holds (fi_dispatch (calls n) l' CLNTC_E_PUSH None).
Proof.
  intros Hne. destruct n as [|n]; [apply holds_dispatch0|]. intros s Hg. apply wlp_dispatch; [done|done|].
  intros c fi Hc Hfi Hin. destruct (fi_state fi); try done. by apply holds_push.
Qed.

(** It becomes a bankd. *)
Lemma wlp_accept_bank n l' res s :
  good s → l' ≠ l → (∀ c, conns s !! l' = Some c → conn_bank_id c ≠ k_bank k0) →
  wlp (modify (reparent_bank l') ;; client_conn_send l' res ;;
       fi_state_chg (calls (S n)) l' CLNTC_ST_CONNECTED_BANKD 0 0 ;;
       fi_dispatch (calls (S n)) l' CLNTC_E_PUSH None ;; mret ()) s (λ _, steady s).
Proof.
  intros Hg Hne Hid. apply wp_bind, wp_modify. set (s1 := reparent_bank l' s).
  assert (steady s s1) as Hs1.
  { apply steady_view; [done| |done|done]. apply (vgood_lists (view s)); [apply Hg| |].
    - cbn. apply elem_of_app. left. apply elem_of_unlink. split; [done|apply Hg].
    - intros y ky [[_ Hy]%elem_of_unlink| ->%list_elem_of_singleton]%elem_of_app Hn Hky; [done|].
      apply view_lookup_inv in Hky as (c & Hc & <-). by apply Hid. }
  apply wp_bind, wlp_send; [apply Hs1|done|]. intros s2 Hs2 Hc2 _ _.
  apply wp_bind. eapply wp_mono; [apply wlp_state_chg; [apply Hs2|done|]|].
  - intros st s3 Hg3 _ Hc3. apply wlp_bankd_onenter; [done|done|].
    intros c Hc. destruct (Hc3 c Hc) as (c' & Hc' & ->). rewrite Hc2 in Hc'. by apply Hid.
  - intros r s3 Hs3. apply wp_bind.
    eapply holds_wlp; [by apply holds_push_event|eapply steady_trans; [exact Hs1|by eapply steady_trans]|].
    intros ? s4 Hs4. by apply wp_ret.
Qed.

Lemma wlp_established_bank n l' d s :
  good s → l' ≠ l → l' ∉ banks s → wlp (established_bank_conn (calls (S n)) l' d) s (λ _, steady s).
Proof.
  intros Hg Hne Hnb. unfold established_bank_conn. apply wp_bind, wp_deref; [done|].
  intros [[ident bid] nslots] _. apply wp_bind. unfold conn_upd at 1, conn_at.
  apply wp_bind, wp_bind, wp_gets, wp_deref; [done|]. intros c Hc. apply wp_modify.
  rewrite (alter_insert_Some _ _ _ c) by done. set (c1 := set_conn_comp_id _ c). set (s1 := set_conns _ s).
  assert (steady s s1) as Hs1.
  { pose proof (same_upd l' c c1 s Hc eq_refl) as [Hv Hm]. apply steady_view; [done| |done|done].
    unfold s1. rewrite Hv. apply Hg. }
  assert (conns s1 !! l' = Some c1) as Hc1 by apply lookup_insert_eq.
  destruct (negb _).
  { eapply wp_mono; [by apply holds_term; [|apply Hs1]|]. intros ? s' Hs'. by eapply steady_trans. }
  apply wp_bind, (wp_conn_upd _ _ c1); [done|]. set (c2 := set_conn_bank _ _ c1). set (s2 := set_conns _ s1).
  assert (steady s s2) as Hs2.
  { apply steady_view; [done| |done|done]. unfold s2. rewrite view_insert.
    apply vgood_set; [apply Hs1|done| |done]. cbn. intros Hpc.
    by apply Hne, (vg_own _ (proj1 Hg) l' (key c)); [apply view_lookup|]. }
  assert (conns s2 !! l' = Some c2) as Hc2 by apply lookup_insert_eq.
  apply wp_bind, (wp_conn_upd _ _ c2); [done|]. set (c3 := set_conn_id _ c2). set (s3 := set_conns _ s2).
  assert (steady s s3) as Hs3.
  { pose proof (same_upd l' c2 c3 s2 Hc2 eq_refl) as [Hv Hm]. apply steady_view; [done| |done|done].
    unfold s3. rewrite Hv. apply Hs2. }
  assert (conns s3 !! l' = Some c3) as Hc3 by apply lookup_insert_eq.
  apply wp_bind, wp_bind, wp_gets. apply pure_find_conn.
  - intros x cx Hx _ _. apply wp_bind, wp_gets. case_decide as Hxl; [by subst x|].
    enough (holds (pc ← conn_at x; osmo_stream_srv_get_fd (conn_peer pc) ;;
      client_conn_send l' (rspro_gen_ConnectBankRes (comp_id s3) ResultCode_identityInUse) ;;
      fi_state_chg (calls (S n)) l' CLNTC_ST_REJECTED 1 2 ;; mret ())) as Hh
      by (eapply holds_wlp; [exact Hh|exact Hs3|done]).
    holds_step; [holds_steps|]. holds_step; [holds_steps|]. holds_step; [holds_steps|].
    holds_step; [by apply holds_state_chg|holds_steps].
  - intros Hnone. apply wp_bind, wp_gets.
    eapply wp_mono; [apply wlp_accept_bank; [apply Hs3|done|]|intros ? s' Hs'; by eapply steady_trans].
    intros c' Hc'. rewrite Hc3 in Hc'. injection Hc' as <-. intros Hid.
    destruct (view_lookup_inv l k0 s3) as (cl & Hcl & Hkl); [apply Hs3|].
    assert (l ∈ banks s3) as Hlb by apply Hs3. specialize (Hnone l cl Hlb Hcl). apply Z.eqb_neq in Hnone.
    apply Hnone. rewrite <-Hkl in Hid. cbn in Hid |- *. congruence.
Qed.

(** A message of another connection. *)
Lemma wlp_other_dispatch l' e d s :
  good s → l' ≠ l →
  (∀ c fi, conns s !! l' = Some c → conn_fi c = Some fi → fi_state fi = CLNTC_ST_ESTABLISHED → l' ∉ banks s) →
  wlp (dispatch l' e d) s (λ _, steady s).
Proof.
  intros Hg Hne Hest. unfold dispatch, conn_dispatch, fsm_K, conn_at.
  apply wp_bind, wp_bind, wp_gets, wp_deref; [done|]. intros c _.
  apply wlp_dispatch; [done|..]; intros c' fi Hc' Hfi Hin.
  - destruct e; try done; by apply holds_term.
  - destruct (fi_state fi) eqn:Hst; destruct e; try done;
      cbn [action server_client_fsm_states clnt_st_init clnt_st_wait_cl_conf_res clnt_st_connected_bankd];
      try (by apply holds_push);
      try (by apply holds_create_map_res);
      try (by apply holds_remove_map_res);
      try (by apply wp_ret, steady_refl);
      try (enough (holds (r ← fi_state_chg (calls 3) l' CLNTC_ST_ESTABLISHED 10 1; mret ())) as Hh by (by apply Hh);
           holds_step; [by apply holds_state_chg|holds_steps]);
      try (enough (holds (r ← fi_state_chg (calls 3) l' CLNTC_ST_CONNECTED_CLIENT 0 0; mret ())) as Hh
             by (by apply Hh); holds_step; [by apply holds_state_chg|holds_steps]);
      try (assert (holds (clnt_st_connected_client l' CLNTC_E_CL_CFG_BANKD d)) as Hh
             by (cbn [clnt_st_connected_client]; holds_steps); by apply Hh);
      unfold clnt_st_established, conn_at; apply wp_bind, wp_bind, wp_gets, wp_deref; try done; intros c2 _;
      apply wp_bind, wp_deref; try done; intros q _.
    + by apply holds_established_client.
    + apply wlp_established_bank; [done|done|by eapply Hest].
Qed.
(** ** Events that are not about the link *)

Lemma good_peer {P : PostCalls} z s : srv_inv z None s → good s → peer_data s !! p = Some l.
Proof using Hpeer Hfi0 Hst0.
  intros [Hc _] [Hv _]. apply (ci_peer _ _ _ Hc l k0); [apply Hv|done|by eexists].
Qed.

Lemma peer_ne {P : PostCalls} z s p' l' : srv_inv z None s → good s → peer_data s !! p' = Some l' → p' ≠ p → l' ≠ l.
Proof. intros _ [Hv _] Hd Hne ->. apply Hne. by apply (vg_data _ Hv). Qed.

Lemma holds_ccm_reply l' m : l' ≠ l → (∀ b, m ≠ TxRspro b) → holds (ccm_reply l' m).
Proof.
  intros Hne Hm s Hg. apply wp_bind. unfold conn_at. apply wp_bind, wp_gets, wp_deref; [done|]. intros c Hc.
  apply wp_bind, wp_deref; [done|]. intros q Hq. apply wp_bind, wp_gets.
  destruct (ipa_ccm_send _ _); [|by apply wp_ret, steady_refl].
  apply wp_bind, wp_modify, wp_ret, steady_sent; [done|by eapply own_peer].
Qed.

Lemma holds_ccm l' l2 : l' ≠ l → holds (_ipa_srv_conn_ccm l' l2).
Proof.
  intros Hne. destruct l2 as [|t body]; cbn [_ipa_srv_conn_ccm]; [holds_steps|].
  repeat (case_match; try (by apply holds_ccm_reply); try (by apply holds_ret)).
Qed.

Lemma wlp_handle_rx {P : PostCalls} z l' pdu s :
  srv_inv z None s → good s → l' ≠ l → wlp (handle_rx_rspro l' pdu) s (λ _, steady s).
Proof.
  intros Hinv Hg Hne.
  assert (∀ e, wlp (dispatch l' e (Some pdu) ;; mret 0) s (λ _, steady s)) as Hdisp.
  { intros e. apply wp_bind. eapply wp_mono; [apply wlp_other_dispatch; [done|done|]|].
    - intros c fi Hc Hfi Hst. pose proof (inv_fi_ok (z:=z) _ _ _ _ Hinv Hc Hfi) as Hok.
      unfold fi_ok in Hok. rewrite Hst in Hok. by apply (cinv_in_conn _ _ _ _ (proj1 Hinv) (proj1 Hok)).
    - intros ? s' Hs'. by apply wp_ret. }
  unfold handle_rx_rspro. destruct (msg pdu); first [apply Hdisp|by apply wp_ret, steady_refl].
Qed.

Lemma wlp_read {P : PostCalls} z p' res m s :
  srv_inv z None s → good s → p' ≠ p → wlp (sock_read_cb p' res m) s (λ _, steady s).
Proof.
  intros Hinv Hg Hp. unfold sock_read_cb. apply wp_bind, wp_gets, wp_bind, wp_deref; [done|]. intros l' Hl'.
  assert (l' ≠ l) as Hne by (by eapply peer_ne).
  assert (holds (osmo_stream_srv_destroy (sock_closed_cb fsm_K p') ;; mret (- EBADF))) as Herr.
  { holds_step; [by apply holds_destroy_sock, holds_closed|holds_steps]. }
  destruct (res <=? 0); [by apply Herr|]. destruct (_ =? IPAC_PROTO_IPACCESS).
  { enough (holds (rc ← _ipa_srv_conn_ccm l' (l2_data m);
      if rc <? 0 then osmo_stream_srv_destroy (sock_closed_cb fsm_K p') ;; mret (- EBADF) else mret rc)) as Hh
      by (by apply Hh).
    holds_step; [by apply holds_ccm|]. case_match; [done|holds_steps]. }
  destruct (_ =? IPAC_PROTO_OSMO); [|by apply Herr].
  destruct (_ =? IPAC_PROTO_EXT_RSPRO); [|by apply Herr].
  destruct (rspro_dec_msg _) as [pdu|]; [by eapply wlp_handle_rx|by apply wp_ret, steady_refl].
Qed.

Lemma wlp_ka_timeout {P : PostCalls} z p' s :
  srv_inv z None s → good s → p' ≠ p → wlp (ipa_keepalive_timeout_cb p') s (λ _, steady s).
Proof.
  intros Hinv Hg Hp. unfold ipa_keepalive_timeout_cb.
  apply wp_bind, wp_gets, wp_bind, wp_deref; [done|]. intros l' Hl'.
  assert (l' ≠ l) as Hne by (by eapply peer_ne).
  enough (holds (dispatch l' CLNTC_E_KA_TIMEOUT None ;; mret 0)) as Hh by (by apply Hh).
  holds_step; [|holds_steps]. unfold dispatch, fsm_K. apply holds_conn_dispatch. intros s' Hg'.
  apply wlp_dispatch; [done|..]; intros c fi _ _ Hin; [by apply holds_term|by destruct (fi_state fi)].
Qed.

Lemma holds_tcp_up l' : l' ≠ l → holds (dispatch l' CLNTC_E_TCP_UP None).
Proof.
  intros Hne. unfold dispatch, fsm_K. apply holds_conn_dispatch. intros s Hg.
  apply wlp_dispatch; [done|done|]. intros c fi _ _ Hin. destruct (fi_state fi); try done.
  cbn [action server_client_fsm_states clnt_st_init].
  enough (holds (fi_state_chg (calls 3) l' CLNTC_ST_ESTABLISHED 10 1 ;; mret ())) as Hh by (by apply Hh).
  holds_step; [by apply holds_state_chg|holds_steps].
Qed.

Lemma wlp_timer {P : PostCalls} z l' s :
  srv_inv z None s → good s → l' ≠ l → wlp (server_client_fsm_tmr l') s (λ _, steady s).
Proof.
  intros Hinv Hg Hne. unfold server_client_fsm_tmr. eapply wp_eq; [apply tmr_cb_eq|].
  enough (holds (fi ← gets (fi_get (conn_ref l')); fi ← deref fi; fi_update (conn_ref l') fi_stop_timer ;;
    rc ← timer_cb (remsim_server_client_fsm FSM_DEPTH l') (fi_T fi);
    when (bool_decide (rc = 1)) (fi_term fsm_K l'))) as Hh by (by apply Hh).
  holds_step; [holds_steps|]. holds_step; [holds_steps|]. holds_step; [by apply holds_fi_update|].
  holds_step; [|by apply holds_when, holds_term].
  cbn [FSM_DEPTH remsim_server_client_fsm build_fsm timer_cb]. unfold server_client_fsm_timer_cb.
  repeat (case_match; try (by apply holds_panic); try (by apply holds_ret)).
Qed.

(** A new connection, up to its first event. *)
Lemma steady_new l' p' s :
  good s → l' ≠ l → p' ≠ p → l' ∉ banks s →
  steady s (set_peer_data (<[p' := l']> (peer_data s))
    (set_conns (<[l' := set_conn_fi None (set_conn_ka_fi false (new_conn p'))]> (conns s)) s)).
Proof.
  intros Hg Hne Hp Hb. apply steady_view; [done| |done|done]. destruct Hg as [Hv _].
  assert (vgood (view (set_conns (<[l' := set_conn_fi None (set_conn_ka_fi false (new_conn p'))]> (conns s)) s)))
    as [V1 V2 V3 V4 V5].
  { rewrite view_insert. apply vgood_set; [done|done|by intros [= ->]|done]. }
  split; [done|done|done| |done]. cbn. intros q [[<- ?]|[_ Hq]]%lookup_insert_Some; [done|].
  by apply (vg_data _ Hv).
Qed.

Lemma wlp_accept_other {P : PostCalls} z peer fi_ok ka_ok s :
  srv_inv z None s → good s → (∀ p', peer = Some p' → peer_data s !! p' = None) →
  wlp (accept_cb peer fi_ok ka_ok) s (λ _, steady s).
Proof using Hpeer Hfi0 Hst0.
  intros Hinv Hg Hpe. unfold accept_cb. apply wp_bind, wp_gets. cbn [id].
  destruct (talloc_zero (dom (conns s))) as [l'|] eqn:Ht; [|by apply wp_panic].
  apply talloc_fresh, not_elem_of_dom in Ht. destruct peer as [p'|]; [|by apply wp_ret, steady_refl].
  specialize (Hpe p' eq_refl). pose proof (good_peer _ _ Hinv Hg) as Hpl.
  assert (l' ≠ l) as Hne.
  { intros ->. pose proof (vg_key _ (proj1 Hg)) as Hk. apply view_lookup_inv in Hk as (c & Hc & _). congruence. }
  assert (l' ∉ banks s) as Hnb.
  { intros Hb. destruct (inv_alive (z:=z) None s l' Hinv) as [c Hc]; [by right|congruence]. }
  apply wp_bind, wp_modify. eapply holds_wlp; [|apply steady_new; [done|done|congruence|done]|done].
  assert (∀ q, q ≠ p → holds (osmo_stream_srv_destroy (sock_closed_cb fsm_K q) ;; mret (- 1))) as Herr.
  { intros q Hq. holds_step; [by apply holds_destroy_sock, holds_closed|holds_steps]. }
  destruct fi_ok; cbn [negb]; [|apply Herr; congruence]. holds_step; [holds_steps|].
  destruct ka_ok; cbn [negb].
  - holds_step; [holds_steps|]. holds_step; [|holds_step; [by apply holds_tcp_up|holds_steps]].
    apply holds_modify. intros s' Hg'. apply steady_view; [done| |done|done].
    apply (vgood_lists (view s')); [apply Hg'|apply Hg'|done].
  - holds_step; [by apply holds_term|]. intros s' Hg'.
    unfold conn_at. apply wp_bind, wp_bind, wp_gets, wp_deref; [done|]. intros c Hc.
    apply wp_bind, wp_deref; [done|]. intros q Hq. apply Herr; [by eapply own_peer|done].
Qed.
(** ** What the link does *)

Definition encoded (o : list map_request) : list octets := omap (λ r, rspro_enc_msg (request_pdu r)) o.

Record moves (s s' : rspro_server) : Prop := {
  mv_good : good s';
  mv_steps : ∃ o, bsteps (lview l (srv_slotmaps s)) o (lview l (srv_slotmaps s')) ∧
                  sent_to p s' = sent_to p s ++ encoded o;
}.

Lemma moves_steady s s' : steady s s' → moves s s'.
Proof.
  intros [Hg Hm Ht]. split; [done|]. exists []. rewrite (lview_same _ _ Hm), Ht. cbn.
  rewrite app_nil_r. split; [apply bsteps_refl|done].
Qed.

Lemma moves_trans s s' s'' : moves s s' → moves s' s'' → moves s s''.
Proof.
  intros [_ (o & Hs & Ht)] [Hg' (o' & Hs' & Ht')]. split; [done|]. exists (o ++ o').
  split; [by eapply bsteps_trans|]. unfold encoded. by rewrite Ht', Ht, omap_app, app_assoc.
Qed.

(** The slot maps change, nothing is sent. *)
Lemma moves_maps s sm' :
  good s → mgood sm' → bsteps (lview l (srv_slotmaps s)) [] (lview l sm') → moves s (set_srv_slotmaps sm' s).
Proof.
  intros [Hv _] Hm Hs. split; [by split|]. exists []. split; [done|]. cbn. by rewrite app_nil_r.
Qed.

(** *** The requests *)

Lemma pairs_app sm (k k' : list loc) : omap (slots sm) (k ++ k') = omap (slots sm) k ++ omap (slots sm) k'.
Proof. apply omap_app. Qed.

Lemma pairs_ext sm sm' (k : list loc) : (∀ x, slots sm' x = slots sm x) → omap (slots sm') k = omap (slots sm) k.
Proof. intros Hs. apply list_omap_ext, Forall_Forall2_diag, Forall_forall. intros x _. apply Hs. Qed.

Lemma requests_encoded gen (mk : slot_pair → map_request) sm k :
  (∀ q, gen (SlotMapping q.1 q.2 SLMAP_S_NEW) = request_pdu (mk q)) →
  requests gen sm k = encoded (mk <$> omap (slots sm) k).
Proof.
  intros Hgen. unfold requests, encoded. induction k as [|x k IH]; [done|]. cbn.
  destruct (slots sm x) as [q|]; cbn; [|done]. rewrite Hgen. by destruct (rspro_enc_msg _); cbn; rewrite IH.
Qed.

Lemma sent_to_own s bs : sent_to p (set_sent (sent s ++ ((λ b, (p, TxRspro b)) <$> bs)) s) = sent_to p s ++ bs.
Proof.
  unfold sent_to. cbn. rewrite omap_app. f_equal. induction bs as [|b bs IH]; [done|]. cbn.
  by rewrite decide_True, IH.
Qed.

(** The bank of a mapping is one of its slots. *)
Lemma minv_bank sm sm' x b :
  (∀ y, slots sm' y = slots sm y) → (∃ m, heap sm !! x = Some m ∧ bank_id (sm_bank m) = b) →
  ∃ m, heap sm' !! x = Some m ∧ bank_id (sm_bank m) = b.
Proof.
  intros Hs (m & Hm & Hid). specialize (Hs x). unfold slots in Hs. rewrite Hm in Hs.
  destruct (heap sm' !! x) as [m'|]; [|done]. exists m'. split; [done|]. injection Hs as Hs _. by rewrite Hs.
Qed.

(** A collection with the same mappings and slots, and the lists of the link
    made of its lists. *)
Lemma mgood_moved sm sm' :
  mgood sm → slotmaps_wf sm' → mappings sm' = mappings sm → (∀ x, slots sm' x = slots sm x) →
  (∀ f x, x ∈ bank_list sm' (l, f) → ∃ g, x ∈ bank_list sm (l, g) ∧
     (listed_state (field_state f) → listed_state (field_state g))) → mgood sm'.
Proof.
  intros [Hwf Hb Hgl] Hwf' Hmap Hsl Hli. split; [done|..].
  - intros f x Hx. destruct (Hli f x Hx) as (g & Hg & _). apply (minv_bank sm sm' x); [done|by eapply Hb].
  - intros f x Hf Hx. destruct (Hli f x Hx) as (g & Hg & Hfg). rewrite Hmap. eapply Hgl; [by apply Hfg|done].
Qed.

Lemma link_conn s : good s → ∃ c, conns s !! l = Some c ∧ conn_peer c = Some p ∧ conn_fi c = Some fi0 ∧
  conn_bank_id c = k_bank k0.
Proof.
  intros [Hv _]. destruct (view_lookup_inv l k0 s) as (c & Hc & Hk); [apply Hv|].
  exists c. rewrite <-Hk in Hpeer, Hfi0 |- *. by cbn in *.
Qed.

Lemma wlp_push s :
  good s → bank_list (srv_slotmaps s) (l, maps_new) = [] ∨ bank_list (srv_slotmaps s) (l, maps_delreq) = [] →
  wlp (dispatch l CLNTC_E_PUSH None) s (λ _, moves s).
Proof.
  intros Hg Hnd. pose proof Hg as [Hv Hm]. destruct (link_conn s Hg) as (c & Hc & Hp & Hf & _).
  destruct (push_exact l c p fi0 s Hc Hp Hf Hst0 (mg_wf _ Hm))
    as (sm' & Hrun & Hwf & Hmap & Hsl & Hn & Hd & Hu & Hg' & Ho).
  eapply wp_run; [exact Hrun|]. clear Hrun. cbn zeta in *. set (sm := srv_slotmaps s) in *.
  pose proof (Ho (l, maps_active) (or_intror eq_refl)) as Ha.
  split.
  { split; [done|]. cbn. eapply mgood_moved; [exact Hm|done..|]. intros f x.
    destruct f; rewrite ?Hn, ?Hu, ?Ha, ?Hd, ?Hg', ?elem_of_app, ?elem_of_nil; try done.
    - intros [Hx|Hx]; [by exists maps_unack|]. exists maps_new. split; [done|]. by left.
    - intros Hx. by exists maps_active.
    - intros [Hx|Hx]; [by exists maps_deleting|]. exists maps_delreq. split; [done|]. by intros [|[|]]. }
  eexists. split.
  - cbn [srv_slotmaps set_srv_slotmaps]. unfold lview, pairs. rewrite Hn, Hu, Ha, Hd, Hg'. cbn [omap list_omap].
    rewrite !pairs_app, !(pairs_ext sm sm') by done. apply bsteps_once, bs_push.
    destruct Hnd as [->| ->]; [by left|by right].
  - change (sent_to p (set_srv_slotmaps ?a ?b)) with (sent_to p b). rewrite sent_to_own. f_equal.
    rewrite (requests_encoded _ ReqCreate), (requests_encoded _ ReqRemove) by (by intros []).
    unfold encoded. by rewrite omap_app.
Qed.
Lemma moves_refl s : good s → moves s s.
Proof. intros Hg. by apply moves_steady, steady_refl. Qed.

Lemma holds_moves {A} (m : M rspro_server A) s0 s (Q : A → rspro_server → Prop) :
  holds m → moves s0 s → (∀ a s', moves s0 s' → Q a s') → wlp m s Q.
Proof.
  intros Hm Hs HQ. eapply wp_mono; [apply Hm, Hs|]. intros a s' Hs'.
  apply HQ. eapply moves_trans; [exact Hs|by apply moves_steady].
Qed.

(** Counters of the eventfd. *)
Lemma holds_eventfd n : holds (modify (set_eventfd n)).
Proof. apply holds_modify. intros s Hg. by apply steady_view; [|apply Hg|..]. Qed.

Lemma holds_trigger : holds trigger_main_thread_via_eventfd.
Proof. apply holds_modify. intros s Hg. by apply steady_view; [|apply Hg|..]. Qed.

Lemma wlp_event_fd rc s : good s → wlp (event_fd_cb rc) s (λ _, moves s).
Proof using Hpeer Hfi0 Hst0.
  intros Hg. unfold event_fd_cb. destruct (rc <? 8); [by apply wp_ret, moves_refl|].
  apply wp_bind. eapply holds_moves; [apply holds_eventfd|by apply moves_refl|]. intros [] s1 Hs1.
  apply wp_bind, wp_gets, wp_bind.
  eapply wp_mono; [apply (wp_for_each _ (λ s', moves s s')); [exact Hs1|]|intros [] s' Hs'; by apply wp_ret].
  intros l' s' _ Hs'. pose proof (mv_good _ _ Hs') as Hg'.
  apply wp_bind, (holds_moves _ s s'); [apply holds_conn_at|done|]. intros _ s2 Hs2.
  apply wp_bind, wp_gets, wp_bind, wp_gets. apply wp_when; [intros Hb|done]. apply wp_bind.
  destruct (decide (l' = l)) as [->|Hne].
  - eapply wp_mono; [apply wlp_push; [apply Hs2|]|].
    + by apply orb_true_iff in Hb as [Hb|Hb]; apply bool_decide_eq_true in Hb; [left|right].
    + intros ? s3 Hs3. apply wp_ret. by eapply moves_trans.
  - eapply holds_moves; [|exact Hs2|intros ? s3 Hs3; by apply wp_ret].
    unfold dispatch, fsm_K. by apply holds_conn_dispatch, holds_push_event.
Qed.

(** *** Mappings from the REST clients *)

(** A fresh mapping is in no list. *)
Lemma fresh_apart x sm : mgood sm → x ∉ dom (heap sm) → apart x sm.
Proof.
  intros Hm Hx f Hf. destruct (mg_bank _ Hm f x Hf) as (m & Hxm & _). apply Hx, elem_of_dom. by eexists.
Qed.

Lemma added x b c sm (sm1 := link_new x b c sm) :
  mgood sm → slotmaps_wf sm1 → x ∉ dom (heap sm) → mgood sm1 ∧ same_maps sm sm1 ∧ apart x sm1.
Proof.
  intros Hm Hwf Hx. pose proof (fresh_apart _ _ Hm Hx) as Ha.
  assert (∀ f y, y ∈ bank_list sm (l, f) → y ≠ x) as Hne by (intros f y Hy ->; by apply (Ha f)).
  split; [split; [done|..]|split; [split|]].
  - intros f y Hy. destruct (mg_bank _ Hm f y Hy) as (m & Hym & Hid). exists m. split; [|done].
    cbn. rewrite lookup_insert_ne; [done|]. intros <-. by eapply Hne.
  - intros f y Hf Hy. cbn. apply elem_of_app. left. by eapply mg_global.
  - done.
  - intros f y Hy. unfold slots. cbn. rewrite lookup_insert_ne; [done|]. intros <-. by eapply Hne.
  - exact Ha.
Qed.

(** No other mapping of the link that REST clients see has its slots. *)
Lemma known_apart x q sm (k : list loc) :
  mgood sm → apart x sm → x ∈ mappings sm → slots sm x = Some q →
  (∀ y, y ∈ k → ∃ f, listed_state (field_state f) ∧ y ∈ bank_list sm (l, f)) →
  (q.1 ∉ (omap (slots sm) k).*1) ∧ q.2 ∉ (omap (slots sm) k).*2.
Proof.
  intros Hm Ha Hx Hq Hk. apply (slots_other sm x q k); [apply Hm|done|done|].
  intros y Hy. destruct (Hk y Hy) as (f & Hf & Hyf). split; [by eapply mg_global|]. intros ->. by apply (Ha f).
Qed.

(** It is linked to the bankd of the link. *)
Lemma linked x q sm (sm' := relink x SLMAP_S_NEW (Some (l, maps_new)) sm) :
  mgood sm → apart x sm → x ∈ mappings sm → slots sm x = Some q → bank_id q.1 = k_bank k0 →
  mgood sm' ∧ bsteps (lview l sm) [] (lview l sm').
Proof.
  intros Hm Ha Hx Hq Hid. pose proof (mg_wf _ Hm) as Hwf.
  unfold slots in Hq. destruct (heap sm !! x) as [m|] eqn:Hxm; [|done]. injection Hq as Hq.
  assert (slots sm x = Some q) as Hsx by (unfold slots; rewrite Hxm; cbn; by f_equal).
  assert (∀ f, bank_list sm' (l, f) = if decide (f = maps_new) then bank_list sm (l, f) ++ [x]
                                     else bank_list sm (l, f)) as Hl.
  { intros f. unfold sm'. rewrite bank_list_relink, unlink_not_in by apply Ha.
    destruct f; (rewrite decide_True by done) || (rewrite decide_False by congruence); done. }
  assert (∀ y, slots sm' y = slots sm y) as Hs by (intros y; apply slots_relink).
  split.
  - split.
    + apply wf_relink; [done|by eexists|]. by intros ? [= <-].
    + intros f y. rewrite Hl. intros Hy.
      assert (y ∈ bank_list sm (l, f) ∨ y = x) as [Hy'| ->]
        by (case_decide; [apply elem_of_app in Hy as [|Hy%list_elem_of_singleton]; auto|auto]).
      * destruct (mg_bank _ Hm f y Hy') as (my & Hmy & Hidy). exists my. split; [|done].
        cbn. rewrite lookup_alter_ne; [done|]. intros ->. by apply (Ha f).
      * exists (set_sm_state SLMAP_S_NEW m). cbn. rewrite lookup_alter_eq, Hxm. split; [done|]. by subst q.
    + intros f y Hf. rewrite Hl. cbn. case_decide; [|by apply mg_global].
      rewrite elem_of_app, list_elem_of_singleton. intros [Hy| ->]; [by eapply mg_global|done].
  - unfold lview, pairs. rewrite !Hl. cbn [decide]. repeat case_decide; try done.
    rewrite !(pairs_ext sm sm') by done. rewrite pairs_app. cbn [omap list_omap]. rewrite Hsx.
    pose proof (known_apart x q sm (bank_list sm (l, maps_new) ++ bank_list sm (l, maps_unack) ++
      bank_list sm (l, maps_active)) Hm Ha Hx Hsx) as Hk. rewrite !pairs_app in Hk.
    destruct Hk as [Hk1 Hk2]; [|by apply bsteps_once, bs_add].
    intros y. rewrite !elem_of_app.
    intros [Hy|[Hy|Hy]]; [exists maps_new|exists maps_unack|exists maps_active]; (split; [|done]);
      [by left|by right; left|by right; right].
Qed.
Lemma wlp_post_add b c s :
  good s →
  wlp (slotmaps_post_add b c) s (λ r s', steady s s' ∧ ∀ x, r = Some x →
    apart x (srv_slotmaps s') ∧ x ∈ mappings (srv_slotmaps s') ∧ slots (srv_slotmaps s') x = Some (b, c)).
Proof.
  intros Hg. pose proof Hg as [Hv Hm]. apply wp_zoom.
  eapply wp_mono; [apply wp_slotmap_add, Hm|]. intros [x|] sm [Hwf Hx].
  - destruct Hx as (Hxd & -> & _). destruct (added x b c (srv_slotmaps s) Hm Hwf Hxd) as (Hm' & Hs & Ha).
    split; [by split|]. intros ? [= <-]. split; [exact Ha|]. split; [cbn; apply elem_of_app; right; left|].
    unfold slots. cbn. by rewrite lookup_insert_eq.
  - destruct Hx as [-> _]. split; [|done]. destruct s. by apply steady_refl.
Qed.

Lemma wlp_post_link x b c s :
  good s → apart x (srv_slotmaps s) → x ∈ mappings (srv_slotmaps s) → slots (srv_slotmaps s) x = Some (b, c) →
  wlp (slotmaps_post_link x b) s (λ _, moves s).
Proof.
  intros Hg Ha Hx Hs. unfold slotmaps_post_link. apply wp_bind, wp_gets, wp_bind, pure_find_conn.
  - intros l' c' Hl' Hc' Hid%Z.eqb_eq. destruct (decide (l' = l)) as [->|Hne].
    + apply wp_bind, wp_zoom, wlp_relink. intros _.
      destruct (linked x (b, c) (srv_slotmaps s)) as [Hm' Hst]; [apply Hg|done..| |].
      { destruct (link_conn s Hg) as (cl & Hcl & _ & _ & Hk). cbn. congruence. }
      eapply holds_moves; [apply holds_trigger|by apply moves_maps|done].
    + apply wp_bind.
      eapply (wlp_leaves (λ x, _Slotmap_state_change x SLMAP_S_NEW (Some (l', maps_new))));
        [|by apply steady_refl|exact Ha|].
      * apply leaves_relink. by intros ? [= <-].
      * intros s' Hs'. eapply holds_moves; [apply holds_trigger|by apply moves_steady|done].
  - intros _. by apply wp_ret, moves_refl.
Qed.

Context `{Jansson}.

(** The first two sections of a REST call that adds a mapping. *)
Lemma wlp_post_begin req s : good s → wlp (slotmaps_post_begin req) s (λ _, moves s).
Proof using Hpeer Hfi0 Hst0.
  intros Hg. unfold slotmaps_post_begin.
  destruct (json_body_request req ≫= json2slotmap) as [[b c]|]; [|by apply wp_ret, moves_refl].
  apply wp_bind. eapply wp_mono; [by apply wlp_post_add|]. intros r s1 [Hs1 _].
  by apply wp_ret, moves_steady.
Qed.

Lemma wlp_post_reset x s :
  good s → apart x (srv_slotmaps s) → wlp (slotmaps_post_reset x) s (λ _, moves s).
Proof using Hpeer Hfi0 Hst0.
  intros Hg Ha. apply wp_zoom, wlp_relink. intros Hal.
  destruct (apart_relink x SLMAP_S_NEW None (srv_slotmaps s)) as [Hm2 Hsa2]; [apply Hg|done..|].
  apply moves_steady. split; [split; [apply Hg|done]|done|done].
Qed.
(** *** Mappings that REST clients delete *)

Lemma unlink_middle (x : loc) k1 k2 : NoDup (k1 ++ x :: k2) → unlink x (k1 ++ x :: k2) = k1 ++ k2.
Proof.
  intros (_ & Hd & Hk2)%NoDup_app. unfold unlink. rewrite filter_app.
  change (unlink x k1 ++ unlink x (x :: k2) = k1 ++ k2).
  rewrite (unlink_head x k2) by done. rewrite unlink_not_in; [done|]. intros Hx. apply (Hd x); [done|left].
Qed.

(** A mapping not in the list of its state is in none. *)
Lemma apart_state sm x m f :
  mgood sm → heap sm !! x = Some m → sm_state m = field_state f → x ∉ bank_list sm (l, f) → apart x sm.
Proof.
  intros Hm Hxm Hst Hx g Hg. destruct (wf_list_state _ (mg_wf _ Hm) _ _ Hg) as (m' & Hm' & Hst').
  assert (g = f) as ->; [|done]. rewrite Hxm in Hm'. injection Hm' as <-. cbn in Hst'. rewrite Hst in Hst'.
  by destruct f, g.
Qed.

Lemma apart_unlink_global x sm :
  mgood sm → slotmaps_wf (unlink_global x sm) → apart x sm →
  mgood (unlink_global x sm) ∧ same_maps sm (unlink_global x sm).
Proof.
  intros [Hwf Hb Hgl] Hwf' Ha. split; [|done]. split; [done|exact Hb|].
  intros f y Hf Hy. cbn. apply elem_of_unlink. split; [|by eapply Hgl]. intros ->. by apply (Ha f).
Qed.

(** A mapping of the link disappears. *)
Lemma freed x f k1 k2 sm (sm' := free_map x sm) :
  mgood sm → bank_list sm (l, f) = k1 ++ x :: k2 →
  mgood sm' ∧ pairs sm' (l, f) = omap (slots sm) (k1 ++ k2) ∧
  (∀ g, g ≠ f → pairs sm' (l, g) = pairs sm (l, g)).
Proof.
  intros Hm Hk. pose proof (mg_wf _ Hm) as Hwf.
  assert (x ∈ bank_list sm (l, f)) as Hx by (rewrite Hk; apply elem_of_app; right; left).
  assert (∀ g, bank_list sm' (l, g) = unlink x (bank_list sm (l, g))) as Hl
    by (intros g; apply bank_list_free_map).
  assert (∀ k : list loc, x ∉ k → omap (slots sm') k = omap (slots sm) k) as Hs.
  { intros k Hxk. apply list_omap_ext, Forall_Forall2_diag, Forall_forall. intros y Hy. unfold slots. cbn.
    rewrite lookup_delete_ne; [done|]. by intros ->. }
  assert (∀ g, g ≠ f → x ∉ bank_list sm (l, g)) as Hno.
  { intros g Hg Hxg. apply Hg. by pose proof (wf_list_disjoint _ Hwf _ _ _ Hx Hxg) as [=]. }
  split; [split; [by apply wf_free_map|..]|split].
  - intros g y. rewrite Hl, elem_of_unlink. intros [Hne Hy]. destruct (mg_bank _ Hm g y Hy) as (m & Hym & Hid).
    exists m. split; [|done]. cbn. by rewrite lookup_delete_ne.
  - intros g y Hg. rewrite Hl, elem_of_unlink. intros [Hne Hy]. cbn. apply elem_of_unlink.
    split; [done|by eapply mg_global].
  - unfold pairs. rewrite Hl, Hk. pose proof (wf_list_nodup _ Hwf (l, f)) as Hnd. rewrite Hk in Hnd.
    rewrite unlink_middle by done. apply Hs. apply NoDup_app in Hnd as (_ & Hd & [Hx2 _]%NoDup_cons).
    rewrite elem_of_app. intros [Hy|Hy]; [by apply (Hd x Hy); left|done].
  - intros g Hg. unfold pairs. rewrite Hl, unlink_not_in by auto. auto.
Qed.

(** A mapping of the link moves to the tail of another of its lists; it may
    leave the global list. *)
Lemma moved x f t k1 k2 q sm sm0 (sm' := relink x (field_state t) (Some (l, t)) sm0) :
  mgood sm → slotmaps_wf sm0 → heap sm0 = heap sm → bank_lists sm0 = bank_lists sm →
  (∀ y, y ≠ x → y ∈ mappings sm → y ∈ mappings sm0) → (listed_state (field_state t) → x ∈ mappings sm0) →
  f ≠ t → bank_list sm (l, f) = k1 ++ x :: k2 → slots sm x = Some q →
  mgood sm' ∧ pairs sm' (l, f) = omap (slots sm) (k1 ++ k2) ∧ pairs sm' (l, t) = pairs sm (l, t) ++ [q] ∧
  (∀ g, g ≠ f → g ≠ t → pairs sm' (l, g) = pairs sm (l, g)).
Proof.
  intros Hm Hwf0 Hh Hb Hmap Hxt Hft Hk Hq. pose proof (mg_wf _ Hm) as Hwf.
  assert (x ∈ bank_list sm (l, f)) as Hx by (rewrite Hk; apply elem_of_app; right; left).
  assert (∀ g, g ≠ f → x ∉ bank_list sm (l, g)) as Hno.
  { intros g Hg Hxg. apply Hg. by pose proof (wf_list_disjoint _ Hwf _ _ _ Hx Hxg) as [=]. }
  assert (∀ g, bank_list sm' (l, g) = unlink x (bank_list sm (l, g)) ++ (if decide (g = t) then [x] else [])) as Hl.
  { intros g. unfold sm'. rewrite bank_list_relink. unfold bank_list at 1 2. rewrite Hb.
    destruct (decide (g = t)) as [->|Hg]; [by rewrite decide_True|rewrite decide_False by congruence].
    by rewrite app_nil_r. }
  assert (∀ y, slots sm' y = slots sm y) as Hs
    by (intros y; unfold sm'; rewrite slots_relink; unfold slots; by rewrite Hh).
  split; [split|].
  - apply wf_relink; [done|rewrite Hh|by intros ? [= <-]]. destruct (mg_bank _ Hm f x Hx) as (m & Hxm & _). by eexists.
  - intros g y Hy. apply (minv_bank sm sm' y _ Hs). rewrite Hl, elem_of_app, elem_of_unlink in Hy.
    destruct Hy as [[_ Hy]|Hy]; [by eapply mg_bank|].
    case_decide; [apply list_elem_of_singleton in Hy as ->; by eapply mg_bank|by apply elem_of_nil in Hy].
  - intros g y Hg. rewrite Hl, elem_of_app, elem_of_unlink. cbn. intros [[Hne Hy]|Hy].
    + apply Hmap; [done|by eapply mg_global].
    + case_decide; [subst g; apply list_elem_of_singleton in Hy as ->; auto|by apply elem_of_nil in Hy].
  - unfold pairs. rewrite !(pairs_ext sm sm') by done. rewrite !Hl. split; [|split].
    + rewrite decide_False, app_nil_r by done. rewrite Hk, unlink_middle; [done|].
      rewrite <-Hk. apply Hwf.
    + rewrite decide_True, unlink_not_in by auto. rewrite pairs_app. cbn [omap list_omap]. by rewrite Hq.
    + intros g Hgf Hgt. rewrite !(pairs_ext sm sm') by done. rewrite Hl, decide_False, app_nil_r by done.
      by rewrite unlink_not_in by auto.
Qed.

Lemma in_list sm f x : mgood sm → x ∈ bank_list sm (l, f) →
  ∃ k1 k2 q, bank_list sm (l, f) = k1 ++ x :: k2 ∧ slots sm x = Some q ∧
    pairs sm (l, f) = omap (slots sm) k1 ++ q :: omap (slots sm) k2.
Proof.
  intros Hm Hx. destruct (mg_bank _ Hm f x Hx) as (m & Hxm & _).
  assert (slots sm x = Some (sm_bank m, sm_client m)) as Hq by (unfold slots; by rewrite Hxm).
  apply list_elem_of_split in Hx as (k1 & k2 & Hk). exists k1, k2, (sm_bank m, sm_client m).
  split; [done|]. split; [done|]. unfold pairs. rewrite Hk, pairs_app. cbn. by rewrite Hq.
Qed.

Lemma dropped x sm :
  mgood sm → x ∈ bank_list sm (l, maps_new) →
  mgood (free_map x sm) ∧ bsteps (lview l sm) [] (lview l (free_map x sm)).
Proof.
  intros Hm Hx. destruct (in_list sm maps_new x Hm Hx) as (k1 & k2 & q & Hk & _ & Hp).
  destruct (freed x maps_new k1 k2 sm Hm Hk) as (Hm' & Hf & Ho). split; [done|].
  unfold lview. rewrite Hf, Hp, pairs_app, !Ho by done. apply bsteps_once, bs_drop.
Qed.

Lemma delreq x sm (sm' := relink x SLMAP_S_DELETE_REQ (Some (l, maps_delreq)) (unlink_global x sm)) :
  mgood sm → slotmaps_wf (unlink_global x sm) → x ∈ bank_list sm (l, maps_active) →
  mgood sm' ∧ bsteps (lview l sm) [] (lview l sm').
Proof.
  intros Hm Hwf Hx. destruct (in_list sm maps_active x Hm Hx) as (k1 & k2 & q & Hk & Hq & Hp).
  destruct (moved x maps_active maps_delreq k1 k2 q sm (unlink_global x sm) Hm Hwf eq_refl eq_refl) as (Hm' & Hf & Ht & Ho);
    [intros y Hy Hin; by apply elem_of_unlink|by intros [|[|]]|done|done|done|]. split; [done|].
  unfold lview, sm'. cbn [field_state] in *. rewrite Hf, Ht, Hp, pairs_app, !Ho by done. apply bsteps_once, bs_delete.
Qed.

(** *** Responses of the bankd *)

Lemma acked x k sm (sm' := relink x SLMAP_S_ACTIVE (Some (l, maps_active)) sm) :
  mgood sm → bank_list sm (l, maps_unack) = x :: k → mgood sm' ∧ backed ResCreate (lview l sm) (lview l sm').
Proof.
  intros Hm Hk. assert (x ∈ bank_list sm (l, maps_unack)) as Hx by (rewrite Hk; left).
  assert (∃ q, slots sm x = Some q) as [q Hq].
  { destruct (mg_bank _ Hm _ x Hx) as (m & Hxm & _). unfold slots. rewrite Hxm. by eexists. }
  destruct (moved x maps_unack maps_active [] k q sm sm Hm (mg_wf _ Hm)) as (Hm' & Hf & Ht & Ho);
    [done|done|done|intros _; eapply mg_global; [done| |exact Hx]; right; by left|done|done|done|].
  split; [done|]. unfold lview, sm'. cbn [field_state] in *. rewrite Hf, Ht, !Ho by done.
  unfold pairs at 2. rewrite Hk. cbn [omap list_omap app]. rewrite Hq. apply backed_create.
Qed.

Lemma removed x k sm :
  mgood sm → bank_list sm (l, maps_deleting) = x :: k →
  mgood (free_map x sm) ∧ backed ResRemove (lview l sm) (lview l (free_map x sm)).
Proof.
  intros Hm Hk. assert (x ∈ bank_list sm (l, maps_deleting)) as Hx by (rewrite Hk; left).
  assert (∃ q, slots sm x = Some q) as [q Hq].
  { destruct (mg_bank _ Hm _ x Hx) as (m & Hxm & _). unfold slots. rewrite Hxm. by eexists. }
  destruct (freed x maps_deleting [] k sm Hm Hk) as (Hm' & Hf & Ho).
  split; [done|]. unfold lview. rewrite Hf, !Ho by done.
  unfold pairs at 5. rewrite Hk. cbn [omap list_omap app]. rewrite Hq. apply backed_remove.
Qed.

(** The bankd of a bank, if it is connected. *)
Lemma wlp_bankd_by_id id s (Q : option loc → rspro_server → Prop) :
  (∀ r, (∀ l', r = Some l' → l' ∈ banks s ∧ ∃ c, conns s !! l' = Some c ∧ conn_bank_id c = id) → Q r s) →
  wlp (bankd_conn_by_id id) s Q.
Proof.
  intros HQ. apply wp_bind, wp_gets, pure_find_conn.
  - intros x c Hx Hc Hid%Z.eqb_eq. apply HQ. intros ? [= <-]. eauto.
  - intros _. by apply HQ.
Qed.

Lemma wlp_mark_other {P : PostCalls} z x m s (Q : () → rspro_server → Prop) :
  srv_inv z None s → good s → x ∈ mappings (srv_slotmaps s) → heap (srv_slotmaps s) !! x = Some m →
  apart x (srv_slotmaps s) →
  (∀ s', steady s s' → Q () s') → wlp (_slotmap_mark_deleted x) s Q.
Proof.
  intros Hinv Hg Hx Hxm Ha HQ. unfold _slotmap_mark_deleted.
  apply wp_bind, wp_zoom, pure_map_at. intros m' Hm'. rewrite Hxm in Hm'. injection Hm' as <-.
  replace (set_srv_slotmaps (srv_slotmaps s) s) with s by (by destruct s).
  apply wp_bind, wlp_bankd_by_id. intros r Hr. apply wp_bind, wp_zoom, wp_modify. set (s1 := set_srv_slotmaps _ s).
  pose proof (wf_unlink_global _ x (mi_wf _ _ _ (proj2 Hinv))) as Hwf1.
  destruct (apart_unlink_global x (srv_slotmaps s)) as [Hm1 Hsa1]; [apply Hg|done..|].
  assert (steady s s1) as Hs1 by (split; [split; [apply Hg|done]|done|done]).
  pose proof (apart_same _ _ _ Hsa1 Ha) as Ha1.
  destruct (sm_state m) eqn:Hst; try (by apply wp_ret, HQ).
  - eapply (wlp_leaves _slotmap_del); [apply leaves_del|exact Hs1|done|exact HQ].
  - apply wp_bind, wp_deref; [done|]. intros l' ->. destruct (Hr l' eq_refl) as (Hl' & c & Hc & Hid).
    assert (l' ≠ l) as Hne.
    { intros ->. destruct (mi_listed _ _ _ (proj2 Hinv) x m Hx Hxm) as (l2 & f & Hf); [congruence|].
      destruct (mi_list _ _ _ (proj2 Hinv) l2 f x Hf) as (m2 & Hm2 & Hid2).
      rewrite Hxm in Hm2. injection Hm2 as <-. apply (Ha f).
      rewrite (ids_inj z None (view s) l l2 (bank_id (sm_bank m)) (proj1 Hinv)); [done| |done].
      by rewrite (inv_ids (z:=z) None s l c), Hid. }
    apply wp_bind. eapply (wlp_leaves (λ x, _Slotmap_state_change x SLMAP_S_DELETE_REQ (Some (l', maps_delreq))));
      [|exact Hs1|done|].
    + apply leaves_relink. by intros ? [= <-].
    + intros s2 Hs2. eapply holds_wlp; [apply holds_trigger|exact Hs2|]. intros [] s3. apply HQ.
Qed.

Lemma wlp_mark_own {P : PostCalls} z x m s (Q : () → rspro_server → Prop) f :
  srv_inv z None s → good s → x ∈ mappings (srv_slotmaps s) → heap (srv_slotmaps s) !! x = Some m →
  x ∈ bank_list (srv_slotmaps s) (l, f) → f ≠ maps_unack →
  (∀ s', moves s s' →
     bank_list (srv_slotmaps s') (l, maps_unack) = bank_list (srv_slotmaps s) (l, maps_unack) → Q () s') →
  wlp (_slotmap_mark_deleted x) s Q.
Proof.
  intros Hinv Hg Hx Hxm Hxf Hf HQ. unfold _slotmap_mark_deleted. pose proof Hg as [Hv Hm].
  apply wp_bind, wp_zoom, pure_map_at. intros m' Hm'. rewrite Hxm in Hm'. injection Hm' as <-.
  replace (set_srv_slotmaps (srv_slotmaps s) s) with s by (by destruct s).
  apply wp_bind, wlp_bankd_by_id. intros r Hr. apply wp_bind, wp_zoom, wp_modify. set (s1 := set_srv_slotmaps _ s).
  destruct (wf_list_state _ (mg_wf _ Hm) _ _ Hxf) as (m' & Hxm' & Hst). rewrite Hxm in Hxm'. injection Hxm' as <-.
  cbn in Hst. pose proof (mi_global _ _ _ (proj2 Hinv) x m Hx Hxm) as Hls. rewrite Hst in Hls |- *.
  assert (x ∉ bank_list (srv_slotmaps s) (l, maps_unack)) as Hxu.
  { intros Hxu. apply Hf. by pose proof (wf_list_disjoint _ (mg_wf _ Hm) _ _ _ Hxf Hxu) as [=]. }
  destruct f; try done; cbn [field_state]; [| |by destruct Hls as [|[|]]..].
  - apply wp_zoom, wlp_free. destruct (dropped x (srv_slotmaps s) Hm Hxf) as [Hm' Hs'].
    assert (free_map x (srv_slotmaps s1) = free_map x (srv_slotmaps s)) as ->.
    { unfold free_map. cbn. f_equal. apply unlink_not_in. rewrite elem_of_unlink. by intros []. }
    apply HQ; [by apply (moves_maps s)|]. cbn [srv_slotmaps set_srv_slotmaps].
    by rewrite bank_list_free_map, unlink_not_in.
  - apply wp_bind, wp_deref; [done|]. intros l' ->. destruct (Hr l' eq_refl) as (Hl' & c & Hc & Hid).
    assert (l' = l) as ->.
    { apply (vg_ids _ Hv l' (key c)); [done|by apply view_lookup|]. cbn.
      destruct (mg_bank _ Hm _ _ Hxf) as (m' & Hm' & Hid'). rewrite Hxm in Hm'. injection Hm' as <-. congruence. }
    apply wp_bind, wp_zoom, wlp_relink. intros _.
    destruct (delreq x (srv_slotmaps s) Hm) as [Hm' Hs']; [|done|].
    { exact (wf_unlink_global _ x (mi_wf _ _ _ (proj2 Hinv))). }
    apply wp_modify, HQ; [|cbn [srv_slotmaps set_srv_slotmaps set_eventfd]; rewrite bank_list_relink;
      rewrite decide_False by congruence; by apply unlink_not_in].
    eapply moves_trans; [by apply (moves_maps s)|]. apply moves_steady, steady_view; [by split|done..].
Qed.

Lemma wlp_mark_deleted {P : PostCalls} z x s :
  srv_inv z None s → good s → x ∈ mappings (srv_slotmaps s) →
  x ∉ bank_list (srv_slotmaps s) (l, maps_unack) →
  wlp (_slotmap_mark_deleted x) s (λ _ s', moves s s' ∧
    bank_list (srv_slotmaps s') (l, maps_unack) = bank_list (srv_slotmaps s) (l, maps_unack)).
Proof.
  intros Hinv Hg Hx Hxu. destruct (wf_alloc _ (mi_wf _ _ _ (proj2 Hinv)) x Hx) as [m Hxm].
  pose proof (mi_global _ _ _ (proj2 Hinv) x m Hx Hxm) as Hls.
  assert (∀ f, sm_state m = field_state f → f ≠ maps_unack →
    wlp (_slotmap_mark_deleted x) s (λ _ s', moves s s' ∧
      bank_list (srv_slotmaps s') (l, maps_unack) = bank_list (srv_slotmaps s) (l, maps_unack))) as Hf.
  { intros f Hst Hf. destruct (decide (x ∈ bank_list (srv_slotmaps s) (l, f))) as [Hxf|Hxf].
    - eapply (wlp_mark_own z x m s _ f); [done..|]. auto.
    - eapply (wlp_mark_other z x m s); [done..|by eapply apart_state; [apply Hg|..]|].
      intros s' Hs'. split; [by apply moves_steady|apply (sa_lists _ _ (sd_maps _ _ Hs'))]. }
  destruct Hls as [Hst|[Hst|Hst]]; [by apply (Hf maps_new)| |by apply (Hf maps_active)].
  eapply (wlp_mark_other z x m s); [done..| |].
  - by eapply (apart_state _ _ _ maps_unack); [apply Hg|..].
  - intros s' Hs'. split; [by apply moves_steady|apply (sa_lists _ _ (sd_maps _ _ Hs'))].
Qed.

(** The mappings a REST call deletes. *)
Definition deletes (e : srv_event) (m : slot_mapping) : bool :=
  match e with
  | EvDel en req =>
      match map_url req "slotmap_id" with
      | Some str => slotmap_get_id m =? (strtoul10 en str).1
      | None => false
      end
  | EvReset _ => true
  | _ => false
  end.

Lemma wlp_slotmaps_del {P : PostCalls} z en req s :
  srv_inv z None s → good s →
  (∀ x m, x ∈ bank_list (srv_slotmaps s) (l, maps_unack) → heap (srv_slotmaps s) !! x = Some m →
     deletes (EvDel en req) m = false) →
  wlp (api_cb_slotmaps_del en req) s (λ _, moves s).
Proof using Hpeer Hfi0 Hst0.
  intros Hinv Hg Hun. unfold api_cb_slotmaps_del. cbn [deletes] in Hun.
  destruct (map_url req "slotmap_id") as [str|]; [|by apply wp_ret, moves_refl].
  destruct (strtoul10 en str) as [id en']. destruct (_ && _); [by apply wp_ret, moves_refl|].
  apply wp_bind, wp_gets, wp_bind, wp_zoom.
  eapply wp_mono; [apply wp_find_map, (mi_wf _ _ _ (proj2 Hinv))|]. intros r sm [-> Hr].
  replace (set_srv_slotmaps (srv_slotmaps s) s) with s by (by destruct s).
  apply wp_bind. assert (∀ st s', moves s s' → wlp (trigger_main_thread_via_eventfd ;;
    mret (ulfius_set_empty_body_response st)) s' (λ _, moves s)) as Hend.
  { intros st s' Hs'. apply wp_bind. eapply holds_moves; [apply holds_trigger|exact Hs'|].
    intros [] s2 Hs2. by apply wp_ret. }
  destruct r as [x|]; [|by apply wp_ret, Hend, moves_refl]. destruct Hr as (Hx & m & Hxm & Hid).
  apply wp_bind. eapply wp_mono; [eapply wlp_mark_deleted; [done..|]|].
  - intros Hxu. specialize (Hun x m Hxu Hxm). cbn in Hun. congruence.
  - intros [] s' [Hs' _]. by apply wp_ret, Hend.
Qed.

Lemma wlp_global_reset {P : PostCalls} z req s :
  srv_inv z None s → good s → (undisturbed → pend = []) → bank_list (srv_slotmaps s) (l, maps_unack) = [] →
  wlp (api_cb_global_reset_post req) s (λ _, moves s).
Proof using Hpeer Hfi0 Hst0.
  intros Hinv Hg Hnp Hun. apply wp_bind, wp_gets, wp_bind.
  assert (∀ k s', mappings (srv_slotmaps s') = k → srv_inv z None s' → moves s s' →
    bank_list (srv_slotmaps s') (l, maps_unack) = [] →
    wlp (for_each _slotmap_mark_deleted k) s' (λ _ s2, moves s s2)) as Hloop.
  { induction k as [|x k IH]; intros s' Hk Hinv' Hs' Hun'; cbn [for_each]; [by apply wp_ret|].
    assert (NoDup (x :: k)) as Hnd by (rewrite <-Hk; apply (mi_wf _ _ _ (proj2 Hinv'))).
    assert (x ∈ mappings (srv_slotmaps s')) as Hx by (rewrite Hk; left).
    apply wp_bind. eapply wp_mono; [apply wp_and; [apply (wp_mark_deleted (z:=z) x s' (λ _ s2, srv_inv z None s2 ∧
      mappings (srv_slotmaps s2) = unlink x (mappings (srv_slotmaps s'))));
        [done|done|intros Hu; rewrite (Hnp Hu); by intros ?%elem_of_nil|auto]|
      eapply wlp_mark_deleted; [done|apply Hs'|done|by rewrite Hun'; intros ?%elem_of_nil]]|].
    cbn. intros [] s2 [[Hinv2 Hm2] [Hs2 Hu2]]. apply IH; [|done|by eapply moves_trans|congruence].
    by rewrite Hm2, Hk, unlink_head. }
  eapply wp_mono; [by apply Hloop; [..|apply moves_refl|]|]. intros [] s' Hs'.
  apply wp_bind. eapply holds_moves; [apply holds_trigger|exact Hs'|]. intros [] s2 Hs2. by apply wp_ret.
Qed.
Definition response_of (m : RsproPDUchoice) : option map_response :=
  match m with
  | PR_createMappingRes _ => Some ResCreate
  | PR_removeMappingRes _ => Some ResRemove
  | _ => None
  end.

Record settled (x : map_response) (s s' : rspro_server) : Prop := {
  st_good : good s';
  st_backed : backed x (lview l (srv_slotmaps s)) (lview l (srv_slotmaps s'));
  st_sent : sent_to p s' = sent_to p s;
}.

Lemma settled_steady x s s' s'' : settled x s s' → steady s' s'' → settled x s s''.
Proof.
  intros [_ Hb Ht] [Hg Hm Ht']. split; [done|by rewrite (lview_same _ _ Hm)|congruence].
Qed.

(** The first mapping of a list of the link. *)
Lemma wlp_first_own f s (Q : loc → rspro_server → Prop) :
  (∀ x k, bank_list (srv_slotmaps s) (l, f) = x :: k → Q x s) → wlp (first_map l f) s Q.
Proof.
  intros HQ. unfold first_map, conn_at. apply wp_bind, wp_bind, wp_gets, wp_deref; [done|]. intros c _.
  apply wp_bind, wp_gets. destruct (bank_list _ _) as [|x k]; cbn; [by apply wp_undef|]. by eapply wp_ret, HQ.
Qed.

Lemma wlp_create_res n s : good s → wlp (connected_bankd_create_map_res (calls n) l) s (λ _, settled ResCreate s).
Proof.
  intros Hg. apply wp_bind, wlp_first_own. intros x k Hk. apply wp_bind, wp_zoom, wlp_relink. intros _.
  destruct (acked x k _ (proj2 Hg) Hk) as [Hm Hb]. set (s1 := set_srv_slotmaps _ s).
  assert (settled ResCreate s s1) as Hs1 by (split; [split; [apply Hg|exact Hm]|exact Hb|done]).
  eapply wp_mono; [apply holds_update_client, Hs1|]. intros [] s2. by apply settled_steady.
Qed.

Lemma wlp_remove_res n s : good s → wlp (connected_bankd_remove_map_res (calls n) l) s (λ _, settled ResRemove s).
Proof.
  intros Hg. apply wp_bind, wlp_first_own. intros x k Hk.
  apply wp_bind. eapply holds_wlp; [apply holds_map_at|by apply steady_refl|]. intros m s1 Hs1.
  apply wp_bind. eapply holds_wlp; [apply holds_assert|exact Hs1|]. intros [] s2 Hs2.
  apply wp_bind. eapply holds_wlp; [apply holds_update_client|exact Hs2|]. intros [] s3 [Hg3 Hm3 Ht3].
  apply wp_zoom, wlp_free. pose proof (sa_lists _ _ Hm3 maps_deleting) as Hk3. rewrite Hk in Hk3.
  destruct (removed x k _ (proj2 Hg3) Hk3) as [Hm Hb]. rewrite (lview_same _ _ Hm3) in Hb.
  split; [split; [apply Hg3|exact Hm]|exact Hb|done].
Qed.

(** A response of the bankd. *)
Lemma wlp_response x pdu s :
  good s → response_of (msg pdu) = Some x → wlp (handle_rx_rspro l pdu) s (λ _, settled x s).
Proof.
  intros Hg Hx. destruct (link_conn s Hg) as (c & Hc & _ & Hf & _).
  assert (∀ e, wlp (action (server_client_fsm_states (calls 3) l CLNTC_ST_CONNECTED_BANKD) e (Some pdu)) s
      (λ _, settled x s) →
    Z.testbit (Z.lor (S_ CLNTC_E_TCP_DOWN) (S_ CLNTC_E_KA_TIMEOUT)) (enum e) = false →
    Z.testbit (in_event_mask (server_client_fsm_states (calls 3) l CLNTC_ST_CONNECTED_BANKD)) (enum e) = true →
    wlp (dispatch l e (Some pdu) ;; mret 0) s (λ _, settled x s)) as Hdisp.
  { intros e Hact Ha Hin. apply wp_bind.
    eapply wp_eq; [apply (dispatch_run l c fi0); [done|done|done|by rewrite Hst0]|]. rewrite Hst0.
    apply wp_bind. eapply wp_mono; [exact Hact|]. intros [] s' Hs'. by apply wp_ret, wp_ret. }
  unfold handle_rx_rspro. destruct (msg pdu); try done; injection Hx as <-; apply Hdisp; try done;
    cbn [action server_client_fsm_states clnt_st_connected_bankd]; [by apply wlp_create_res|by apply wlp_remove_res].
Qed.

(** ** The events of the server *)

(** Keep-alive messages of the bankd. *)
Definition keepalive (s : rspro_server) (res : Z) (m : ipa_msg) : bool :=
  (0 <? res) && (ipa_proto m =? IPAC_PROTO_IPACCESS) &&
  match l2_data m with
  | t :: _ => (t =? IPAC_MSGT_PONG) || ((t =? IPAC_MSGT_PING) && ipa_ccm_send p (sent s))
  | [] => false
  end.

(** Events that are not a message on the socket of the link, except for its
    keep-alive, and do not end it. *)
Definition elsewhere (s : rspro_server) (e : srv_event) : bool :=
  match e with
  | EvRead q res m => bool_decide (q ≠ p) || keepalive s res m
  | EvClosed q => bool_decide (q ≠ p)
  | EvKaTimeout q => bool_decide (q ≠ p)
  | _ => true
  end.

(** No mapping of the link is deleted by REST clients between request and
    response. *)
Definition orderly (s : rspro_server) (e : srv_event) : bool :=
  forallb (λ x, match heap (srv_slotmaps s) !! x with Some m => negb (deletes e m) | None => true end)
    (bank_list (srv_slotmaps s) (l, maps_unack)).

Lemma wlp_keepalive {P : PostCalls} z q res m s :
  srv_inv z None s → good s → elsewhere s (EvRead q res m) = true →
  wlp (sock_read_cb q res m) s (λ _, steady s).
Proof using Hpeer Hfi0 Hst0.
  intros Hinv Hg. cbn [elsewhere]. destruct (decide (q = p)) as [->|Hne]; [|intros _; by eapply wlp_read].
  rewrite bool_decide_false by (by intros []). cbn [orb]. unfold keepalive.
  intros [[Hres Hproto]%andb_true_iff Hty]%andb_true_iff. destruct (l2_data m) as [|t body] eqn:Hl2; [done|].
  pose proof (good_peer _ _ Hinv Hg) as Hpl. destruct (link_conn s Hg) as (c & Hc & Hp & _).
  unfold sock_read_cb. apply wp_bind, wp_gets. rewrite Hpl. apply wp_bind, wp_ret.
  apply Z.ltb_lt in Hres. replace (res <=? 0) with false by lia. rewrite Hproto, Hl2. cbn [_ipa_srv_conn_ccm].
  apply wp_bind. destruct (t =? IPAC_MSGT_PING) eqn:Hping.
  - assert (ipa_ccm_send p (sent s) = true) as Hok.
    { apply Z.eqb_eq in Hping as ->. by destruct (ipa_ccm_send p (sent s)). }
    apply wp_bind, (wp_conn_at _ c); [done|]. rewrite Hp. apply wp_bind, wp_ret, wp_bind, wp_gets.
    rewrite Hok. apply wp_bind, wp_modify, wp_ret, wp_ret. split; [exact Hg|apply same_maps_refl|].
    unfold sent_to. cbn. rewrite omap_app. cbn. by rewrite app_nil_r.
  - rewrite orb_false_r in Hty. rewrite Hty. by apply wp_ret, wp_ret, steady_refl.
Qed.

(** Every event is a sequence of steps of the agreement, with its requests
    sent in order. *)
Lemma wlp_on_srv {A} (m : M rspro_server A) (t : srv_sys) (f : A → M srv_sys ()) :
  wlp m t (λ a s', wlp (f a) (SrvSys s' (posts t)) (λ _ t', moves t t')) → wlp (on_srv m ≫= f) t (λ _ t', moves t t').
Proof. intros Hw. by apply wp_bind, wp_on_srv. Qed.

Section one_event.
Context (t : srv_sys) (Hinv : sys_inv True t) (Hg : good t).
#[local] Instance calls_now : PostCalls := pcalls True (posts t).

Lemma call_apart n q :
  posts t !! n = Some q → apart (post_map q) (srv_slotmaps t) ∧ post_map q ∈ mappings (srv_slotmaps t) ∧
    ∃ c, slots (srv_slotmaps t) (post_map q) = Some (post_bank q, c).
Proof.
  intros Hq%list_elem_of_lookup_2. pose proof (proj2 (si_srv _ _ Hinv)) as Hm.
  destruct (mi_pend _ _ _ Hm (post_map q) (post_bank q)) as [Hb Hu].
  { apply elem_of_pend. exists q. split; [done|]. split; [by apply (si_valid _ _ Hinv I)|done]. }
  destruct (Hu I) as [Hx Hn]. split; [by intros f|]. split; [done|].
  destruct (wf_alloc _ (mi_wf _ _ _ Hm) _ Hx) as [m Hxm]. exists (sm_client m).
  unfold slots. rewrite Hxm. cbn. by rewrite (Hb m).
Qed.

Lemma event_moves e :
  ev_possible t e = true → ev_benign t e = true → elsewhere t e = true → orderly t e = true →
  wlp (run_event e) t (λ _ t', moves t t').
Proof using Hpeer Hfi0 Hst0 Hinv Hg.
  intros Hp Hb He Ho. pose proof (si_srv _ _ Hinv) as Hsi.
  assert (∀ x m, x ∈ bank_list (srv_slotmaps t) (l, maps_unack) → heap (srv_slotmaps t) !! x = Some m →
    deletes e m = false) as Hun.
  { intros x m Hx Hxm. unfold orderly in Ho. rewrite forallb_forall in Ho.
    specialize (Ho x (proj1 (list_elem_of_In _ _) Hx)). rewrite Hxm in Ho. by destruct (deletes e m). }
  apply wp_bind. cut (wlp (event_body e) t (λ _ t', moves t t')).
  { intros Hw. eapply wp_mono; [exact Hw|]. intros [] t' Ht'. by apply wp_modify. }
  assert (∀ {A} (m : M rspro_server A), wlp m t (λ _, moves t) → wlp (on_srv m ;; mret ()) t (λ _ t', moves t t')) as Hrun.
  { intros A m Hm. apply wlp_on_srv. eapply wp_mono; [exact Hm|]. intros ? s' Hs'. by apply wp_ret. }
  assert (∀ {A} (m : M rspro_server A), wlp m t (λ _, steady t) → wlp (on_srv m ;; mret ()) t (λ _ t', moves t t')) as Hst.
  { intros A m Hm. apply Hrun. eapply wp_mono; [exact Hm|]. intros ? s'. apply moves_steady. }
  destruct e as [peer f k|q res m|q|q|l'|rc|req|n|n|en req|req]; cbn [event_body].
  - apply Hst. eapply wlp_accept_other; [done..|].
    intros p' ->. cbn in Hp. by apply negb_true_iff, bool_decide_eq_false, eq_None_not_Some in Hp.
  - apply Hst. by eapply wlp_keepalive.
  - apply Hst. apply holds_closed; [by apply bool_decide_eq_true in He|done].
  - apply Hst. eapply wlp_ka_timeout; [done|done|by apply bool_decide_eq_true in He].
  - apply wp_on_srv. eapply wp_mono; [eapply wlp_timer; [done|done|]|intros ? s' Hs'; by apply moves_steady].
    intros ->. cbn in Hp. destruct (link_conn t Hg) as (c & Hc & _ & Hf & _). rewrite Hc, Hf in Hp.
    apply bool_decide_eq_true in Hp as [tm Ht]. pose proof (inv_fi_ok _ _ _ _ Hsi Hc Hf) as Hok.
    unfold fi_ok in Hok. rewrite Hst0 in Hok. destruct Hok. congruence.
  - apply Hrun. by apply wlp_event_fd.
  - apply wlp_on_srv. eapply wp_mono; [by apply wlp_post_begin|]. intros [[x b]|] s' Hs'; by (apply wp_modify || apply wp_ret).
  - cbn in Hp. destruct (posts t !! n) as [q|] eqn:Hn; [|done]. apply wp_bind, wp_bind, wp_gets. rewrite Hn.
    apply wp_ret. rewrite (si_valid _ _ Hinv I q) by (by eapply list_elem_of_lookup_2).
    destruct (call_apart n q Hn) as (Ha & _). apply wlp_on_srv.
    eapply wp_mono; [by apply wlp_post_reset|]. intros ? s' Hs'. by apply wp_modify.
  - cbn in Hp. destruct (posts t !! n) as [q|] eqn:Hn; [|done]. apply wp_bind, wp_bind, wp_gets. rewrite Hn.
    apply wp_ret. rewrite (si_valid _ _ Hinv I q) by (by eapply list_elem_of_lookup_2).
    destruct (call_apart n q Hn) as (Ha & Hx & c & Hc). apply wlp_on_srv.
    eapply wp_mono; [by apply (wlp_post_link _ _ c)|]. intros ? s' Hs'. by apply wp_modify.
  - apply Hrun. by eapply wlp_slotmaps_del.
  - apply Hrun. eapply wlp_global_reset; [done|done| |].
    + intros _. apply bool_decide_eq_true in Hb. cbn. by rewrite Hb.
    + destruct (bank_list _ _) as [|x k] eqn:Hk; [done|]. assert (x ∈ x :: k) as Hx by left.
      rewrite <-Hk in Hx. destruct (mg_bank _ (proj2 Hg) _ x Hx) as (m & Hxm & _).
      by specialize (Hun x m (list_elem_of_here _ _) Hxm).
Qed.
End one_event.
End link.
