(* ===== verification/RsproFits.v ===== *)
(** * Which messages find room in a buffer

    [rspro_enc_msg] encodes into a buffer of fixed size and fails when it is too
    small; the senders then go on without a message.  [value_bound] bounds the
    encoding of a value by its strings, and [small_pdus_encode] shows that every
    message fits whose strings are not too long.  [RsproFits] is what the senders
    rely on. *)

From S2P Require Import Prelude RsproPdu RsproUtil BerTlv AsnTypes RsproTables DerEncoder DerProps RsproDer.

(** ** The length of an encoding *)

Fixpoint members_bound (bounds : list (asn_value → option Z)) (vs : list (option asn_value)) : option Z :=
  match bounds, vs with
  | b :: bounds, v :: vs =>
      n ← match v with Some v => b v | None => Some 0 end;
      rest ← members_bound bounds vs;
      Some (n + rest)
  | [], _ => Some 0
  | _, _ => None
  end.

(** [None] is a value without an encoding. *)
Fixpoint value_bound (td : asn_TYPE_descriptor) (v : asn_value) {struct td} : option Z :=
  let h := header_bound (td_tags td) in
  match td, v with
  | TD_NativeInteger _, VLong _ => Some (h + 8)
  | TD_BOOLEAN _, VBool _ => Some (h + 1)
  | TD_OCTET_STRING _, VString s => Some (h + Z.of_nat (length s))
  | TD_SEQUENCE _ els _, VSeq vs =>
      n ← members_bound (map (λ e, value_bound (m_type e)) els) vs; Some (h + n)
  | TD_CHOICE _ els _, VChoice present (Some v) =>
      b ← map (λ e, value_bound (m_type e)) els !! Z.to_nat (present - 1);
      n ← b v;
      Some (h + n)
  | _, _ => None
  end.

Definition bounded (td : asn_TYPE_descriptor) : Prop := ∀ v n tm tag,
  value_bound td v = Some n → ∃ out, der td v tm tag = Some out ∧ Z.of_nat (length out) ≤ n.

Lemma members_bounded els : Forall (λ e, bounded (m_type e)) els →
  ∀ vs n, members_bound (map (λ e, value_bound (m_type e)) els) vs = Some n →
  ∃ out, der_members els (map (λ e, der (m_type e)) els) vs = Some out ∧ Z.of_nat (length out) ≤ n.
Proof.
  induction 1 as [|e els He _ IH]; intros [|v vs] n; cbn; try done; try (intros [= <-]; by exists []).
  intros (k & Hk & Hn)%bind_Some. apply bind_Some in Hn as (r & Hr & [= <-]).
  destruct (IH vs r Hr) as (rest & -> & Hrest).
  assert (∃ b, match v with Some v => der (m_type e) v (tag_mode e) (m_tag e) | None => Some [] end = Some b ∧
    Z.of_nat (length b) ≤ k) as (b & -> & Hb).
  { destruct v as [v|]; [by apply He|]. injection Hk as <-. by exists []. }
  exists (b ++ rest). split; [done|]. rewrite length_app. lia.
Qed.

Lemma all_bounded td : bounded td.
Proof.
  induction td as [tags|tags|tags|tags els specs IH|tags els specs IH] using asn_TYPE_descriptor_ind';
    intros [z|z|s|vs|present memb] n tm tag Hn; try done; cbn [value_bound td_tags] in Hn.
  - injection Hn as <-. eexists. split; [done|]. pose proof (header_le tags tm tag false (int_octets z)).
    pose proof (drop_sign_extension_le (big_endian 8 (wrap 64 z))) as Hs. rewrite big_endian_length in Hs.
    unfold int_octets in *. cbn [td_tags]. lia.
  - injection Hn as <-. eexists. split; [done|].
    pose proof (header_le tags tm tag false [if z =? 0 then 0 else 255]) as Hh. cbn [length td_tags] in *. lia.
  - injection Hn as <-. eexists. split; [done|]. pose proof (header_le tags tm tag false s). cbn [td_tags]. lia.
  - apply bind_Some in Hn as (k & Hk & [= <-]). destruct (members_bounded els IH vs k Hk) as (out & Hout & Hl).
    eexists. cbn [der]. rewrite Hout. split; [done|]. pose proof (header_le tags tm tag true out). cbn [td_tags]. lia.
  - destruct memb as [v|]; [|done]. apply bind_Some in Hn as (b & Hb & Hn). apply bind_Some in Hn as (k & Hk & [= <-]).
    rewrite list_lookup_fmap in Hb. apply fmap_Some in Hb as (e & He & ->).
    destruct (Forall_lookup_1 _ _ _ _ IH He v k (AsnTypes.tag_mode e) (m_tag e) Hk) as (out & Hout & Hl).
    cbn [der]. rewrite He, list_lookup_fmap, He. cbn [fmap option_fmap option_map mbind option_bind]. rewrite Hout.
    eexists. split; [done|]. cbn [td_tags].
    pose proof (header_le tags tm tag true out). assert (0 ≤ header_bound tags) by (unfold header_bound; lia).
    destruct (_ || _); lia.
Qed.

(** ** PDUs *)

Definition pdu_bound (pdu : RsproPDU) : option Z := value_bound asn_DEF_RsproPDU (asn_of_RsproPDU pdu).

Lemma pdu_encodes pdu n : pdu_in_range pdu → pdu_bound pdu = Some n → n ≤ rspro_msgb_tailroom →
  ∃ m, rspro_enc_msg_der pdu = Done (Some m) ∧ m ≠ [].
Proof.
  intros Hr Hb Hn. rewrite rspro_enc_msg_spec by done.
  destruct (all_bounded _ _ _ 0 0 Hb) as (out & Hout & Hl). rewrite Hout. cbn [mbind option_bind].
  destruct (Z.ltb_spec rspro_msgb_tailroom (Z.of_nat (length out))); [lia|]. exists out. split; [done|].
  intros ->. unfold asn_of_RsproPDU in Hout. cbn [der asn_DEF_RsproPDU] in Hout.
  apply fmap_Some in Hout as (c & _ & Hc). apply (f_equal length) in Hc. cbn -[tlv] in Hc.
  rewrite tlv_length in Hc. destruct (tag_octets_length (asn_tag ASN_TAG_CLASS_UNIVERSAL 16)) as [? _]; [done|]. lia.
Qed.

(** What the strings of a message may take; the arrays of the programs
    ([char[MAX_NAME_LEN+1]] in [struct app_comp_id]) hold 32 octets and the final
    zero. *)
Definition identity_small (i : ComponentIdentity_t) : Prop :=
  Forall (λ s, length s ≤ 32)%nat
    ([ci_name i; ci_software i; ci_swVersion i] ++
     omap id [ci_hwManufacturer i; ci_hwModel i; ci_hwSerialNr i; ci_hwVersion i; ci_fwVersion i]).

Definition PAYLOAD_MAX : nat := 469.

Definition pdu_small (pdu : RsproPDU) : Prop :=
  match msg pdu with
  | PR_NOTHING => False
  | PR_connectBankReq i _ _ | PR_connectBankRes i _ | PR_connectClientReq i _ | PR_connectClientRes i _ =>
      identity_small i
  | PR_configClientBankReq _ a =>
      match ip a with
      | IpAddress_PR_NOTHING => False
      | IpAddress_PR_ipv4 s | IpAddress_PR_ipv6 s => (length s ≤ 16)%nat
      end
  | PR_errorInd _ _ _ _ _ e => (from_option length 0 e ≤ PAYLOAD_MAX)%nat
  | PR_setAtrReq _ d | PR_tpduModemToCard _ _ _ d | PR_tpduCardToModem _ _ _ d => (length d ≤ PAYLOAD_MAX)%nat
  | _ => True
  end.

Ltac bound_cbn :=
  repeat lazymatch goal with
  | |- context [Z.to_nat ?n] => let k := eval vm_compute in (Z.to_nat n) in change (Z.to_nat n) with k
  end;
  cbn -[Z.add Z.mul Z.sub Z.to_nat Z.of_nat header_bound length asn_DEF_ComponentIdentity asn_of_ComponentIdentity];
  unfold header_bound; cbn [td_tags].

Lemma identity_bound i : identity_small i →
  ∃ n, value_bound asn_DEF_ComponentIdentity (asn_of_ComponentIdentity i) = Some n ∧ n ≤ 564.
Proof.
  destruct i; destruct_slots; unfold identity_small; cbn -[length]; rewrite ?Forall_cons; intros Hs; eexists;
    (split; [unfold asn_DEF_ComponentIdentity; bound_cbn; reflexivity|cbn [length]; lia]).
Qed.

Lemma small_bound pdu : pdu_small pdu → ∃ n, pdu_bound pdu = Some n ∧ n ≤ rspro_msgb_tailroom.
Proof.
  destruct pdu as [ver tg m]. unfold pdu_small, PAYLOAD_MAX, rspro_msgb_tailroom in *. cbn [msg].
  destruct m; try done; intros Hs; try match goal with x : SlotPhysStatus_t |- _ => destruct x end;
    destruct_slots; try done;
    try (destruct (identity_bound _ Hs) as (n & Hn & Hle)); eexists;
    (split; [unfold pdu_bound; bound_cbn; bound_cbn; rewrite ?Hn; bound_cbn; reflexivity|cbn -[Z.add Z.mul Z.of_nat length identity_small] in *; cbn [length]; lia]).
Qed.

(** What the senders rely on: such a message is sent. *)
Class RsproFits `{RsproCodec} := {
  rspro_enc_fits : ∀ pdu, pdu_in_range pdu → pdu_small pdu → ∃ m, rspro_enc_msg pdu = Some m ∧ m ≠ [];
}.

#[global] Instance der_codec_fits d : @RsproFits (der_codec d).
Proof.
  constructor. intros pdu Hr Hs. destruct (small_bound pdu Hs) as (n & Hn & Hle).
  destruct (pdu_encodes pdu n Hr Hn Hle) as (m & Hm & Hne). exists m. cbn. by rewrite Hm.
Qed.

(** C32. A message finds room in the buffer of the encoder, and the receiver
    decodes it to the same message but for its BOOLEANs, the true ones of which
    arrive as 255 ([canonical_pdu]), if its values are in the ranges of their types
    and its strings are short enough: a message without strings always; one with
    the identity of a component if the strings have at most 32 octets, which is
    what the arrays of the programs hold; one with an address of at most 16 octets;
    one with an error text, an ATR or a TPDU of at most 469 octets. *)
Theorem small_pdus_encode d pdu :
  (6 ≤ d)%nat → pdu_in_range pdu → pdu_small pdu →
  ∃ m, rspro_enc_msg_der pdu = Done (Some m) ∧ m ≠ [] ∧ rspro_dec_msg_der d m = Done (Some (canonical_pdu pdu)).
Proof.
  intros Hd Hr Hs. destruct (small_bound pdu Hs) as (n & Hn & Hle).
  destruct (pdu_encodes pdu n Hr Hn Hle) as (m & Hm & Hne). exists m. split; [done|]. split; [done|].
  by apply rspro_dec_enc_der.
Qed.

Lemma small_pdus_encode_witness :
  let pdu := pdu_v2 (PR_tpduModemToCard (MkClientSlot 1023 7) (MkBankSlot 1 0) (TpduFlags 1 1 0 0)
               (replicate 469 255)) in
  ∃ m, rspro_enc_msg_der pdu = Done (Some m) ∧ m ≠ [] ∧ rspro_dec_msg_der 6 m = Done (Some (canonical_pdu pdu)).
Proof.
  intros pdu. apply (small_pdus_encode 6 pdu); [lia| |unfold pdu_small, PAYLOAD_MAX; cbn [msg pdu_v2 pdu]; rewrite length_replicate; lia]. unfold pdu_in_range.
  solve_in_range. apply (Forall_replicate is_byte 469 255). unfold is_byte. lia.
Defined.

(** The longest identity the programs can hold fits as well. *)
Example longest_identity :
  let name := replicate 32 65 in
  let pdu := pdu_v2 (PR_connectBankReq
               (ComponentIdentity ComponentType_remsimBankd name name name (Some name) (Some name) (Some name)
                  (Some name) (Some name)) 1023 1023) in
  option_map (length (A := Z)) (match rspro_enc_msg_der pdu with Done o => o | _ => None end) = Some 305%nat.
Proof. vm_compute. reflexivity. Qed.
