(* ===== verification/AsnConstraints.v ===== *)
(** * The check of constraints ([rspro/constraints.c], [constr_SEQUENCE.c],
    [constr_CHOICE.c], [IA5String.c] and the generated types of RSPRO)

    [asn_check_constraints] calls through the pointer [check_constraints] of a
    descriptor, and the functions it gets to change such pointers: a type that
    is made from another one overwrites its own with those of that type whenever
    a codec function of it is called ([X_inherit_TYPE_descriptor]), and
    SEQUENCE and CHOICE keep what they called for a member in
    [memb_constraints].  So the pointers are a state here ([td_ptrs]), and a
    descriptor is known by its address ([td_addr]).

    Before anything is decoded or encoded the check is the one of the ASN.1
    module ([constraints_checked]); once the types of a value have been decoded
    or encoded it accepts every number and every length ([constraints_lost]), unless
    another one had been checked before ([constraints_kept]).

    The text that the call-back prepares for the caller is left out. *)

From stdpp Require Import functions.
From S2P Require Import Prelude RsproPdu RsproUtil AsnTypes RsproTables RsproDer.

(** ** Descriptors by address *)

Inductive td_addr :=
| T_NativeInteger | T_BOOLEAN | T_OCTET_STRING | T_OperationTag | T_BankId | T_ClientId | T_SlotNumber | T_PortNumber
| T_ComponentType | T_ResultCode | T_ErrorCode | T_ErrorSeverity | T_ComponentName | T_ErrorString
| T_ATR | T_Ipv4Address | T_Ipv6Address
| T_ComponentIdentity | T_ClientSlot | T_BankSlot | T_IpAddress | T_IpPort | T_TpduFlags | T_SlotPhysStatus
| T_ConnectBankReq | T_ConnectBankRes | T_ConnectClientReq | T_ConnectClientRes
| T_CreateMappingReq | T_CreateMappingRes | T_RemoveMappingReq | T_RemoveMappingRes
| T_ConfigClientIdReq | T_ConfigClientIdRes | T_ConfigClientBankReq | T_ConfigClientBankRes
| T_ErrorInd | T_ResetStateReq | T_ResetStateRes | T_SetAtrReq | T_SetAtrRes
| T_TpduModemToCard | T_TpduCardToModem | T_ClientSlotStatusInd | T_BankSlotStatusInd
| T_RsproPDUchoice | T_RsproPDU.

#[global] Instance td_addr_eq_dec : EqDecision td_addr.
Proof. solve_decision. Defined.

Definition descriptor (t : td_addr) : asn_TYPE_descriptor :=
  match t with
  | T_NativeInteger => asn_DEF_NativeInteger
  | T_BOOLEAN => asn_DEF_BOOLEAN
  | T_OCTET_STRING => asn_DEF_OCTET_STRING
  | T_OperationTag => asn_DEF_OperationTag
  | T_BankId => asn_DEF_BankId
  | T_ClientId => asn_DEF_ClientId
  | T_SlotNumber => asn_DEF_SlotNumber
  | T_PortNumber => asn_DEF_PortNumber
  | T_ComponentType => asn_DEF_ComponentType
  | T_ResultCode => asn_DEF_ResultCode
  | T_ErrorCode => asn_DEF_ErrorCode
  | T_ErrorSeverity => asn_DEF_ErrorSeverity
  | T_ComponentName => asn_DEF_ComponentName
  | T_ErrorString => asn_DEF_ErrorString
  | T_ATR => asn_DEF_ATR
  | T_Ipv4Address => asn_DEF_Ipv4Address
  | T_Ipv6Address => asn_DEF_Ipv6Address
  | T_ComponentIdentity => asn_DEF_ComponentIdentity
  | T_ClientSlot => asn_DEF_ClientSlot
  | T_BankSlot => asn_DEF_BankSlot
  | T_IpAddress => asn_DEF_IpAddress
  | T_IpPort => asn_DEF_IpPort
  | T_TpduFlags => asn_DEF_TpduFlags
  | T_SlotPhysStatus => asn_DEF_SlotPhysStatus
  | T_ConnectBankReq => asn_DEF_ConnectBankReq
  | T_ConnectBankRes => asn_DEF_ConnectBankRes
  | T_ConnectClientReq => asn_DEF_ConnectClientReq
  | T_ConnectClientRes => asn_DEF_ConnectClientRes
  | T_CreateMappingReq => asn_DEF_CreateMappingReq
  | T_CreateMappingRes => asn_DEF_CreateMappingRes
  | T_RemoveMappingReq => asn_DEF_RemoveMappingReq
  | T_RemoveMappingRes => asn_DEF_RemoveMappingRes
  | T_ConfigClientIdReq => asn_DEF_ConfigClientIdReq
  | T_ConfigClientIdRes => asn_DEF_ConfigClientIdRes
  | T_ConfigClientBankReq => asn_DEF_ConfigClientBankReq
  | T_ConfigClientBankRes => asn_DEF_ConfigClientBankRes
  | T_ErrorInd => asn_DEF_ErrorInd
  | T_ResetStateReq => asn_DEF_ResetStateReq
  | T_ResetStateRes => asn_DEF_ResetStateRes
  | T_SetAtrReq => asn_DEF_SetAtrReq
  | T_SetAtrRes => asn_DEF_SetAtrRes
  | T_TpduModemToCard => asn_DEF_TpduModemToCard
  | T_TpduCardToModem => asn_DEF_TpduCardToModem
  | T_ClientSlotStatusInd => asn_DEF_ClientSlotStatusInd
  | T_BankSlotStatusInd => asn_DEF_BankSlotStatusInd
  | T_RsproPDUchoice => asn_DEF_RsproPDUchoice
  | T_RsproPDU => asn_DEF_RsproPDU
  end.

(** The types of the members, by address. *)
Definition elm_types (t : td_addr) : list td_addr :=
  match t with
  | T_ComponentIdentity => T_ComponentType :: replicate 8 T_ComponentName
  | T_ClientSlot => [T_ClientId; T_SlotNumber]
  | T_BankSlot => [T_BankId; T_SlotNumber]
  | T_IpAddress => [T_Ipv4Address; T_Ipv6Address]
  | T_IpPort => [T_IpAddress; T_PortNumber]
  | T_TpduFlags | T_SlotPhysStatus => replicate 4 T_BOOLEAN
  | T_ConnectBankReq => [T_ComponentIdentity; T_BankId; T_SlotNumber]
  | T_ConnectBankRes | T_ConnectClientRes => [T_ComponentIdentity; T_ResultCode]
  | T_ConnectClientReq => [T_ComponentIdentity; T_ClientSlot]
  | T_CreateMappingReq | T_RemoveMappingReq => [T_ClientSlot; T_BankSlot]
  | T_CreateMappingRes | T_RemoveMappingRes | T_ConfigClientIdRes | T_ConfigClientBankRes | T_ResetStateRes
  | T_SetAtrRes => [T_ResultCode]
  | T_ConfigClientIdReq => [T_ClientSlot]
  | T_ConfigClientBankReq => [T_BankSlot; T_IpPort]
  | T_ErrorInd => [T_ComponentType; T_ErrorSeverity; T_ErrorCode; T_BankSlot; T_ClientSlot; T_ErrorString]
  | T_SetAtrReq => [T_ClientSlot; T_ATR]
  | T_TpduModemToCard => [T_ClientSlot; T_BankSlot; T_TpduFlags; T_OCTET_STRING]
  | T_TpduCardToModem => [T_BankSlot; T_ClientSlot; T_TpduFlags; T_OCTET_STRING]
  | T_ClientSlotStatusInd => [T_ClientSlot; T_BankSlot; T_SlotPhysStatus]
  | T_BankSlotStatusInd => [T_BankSlot; T_ClientSlot; T_SlotPhysStatus]
  | T_RsproPDUchoice =>
      [T_ConnectBankReq; T_ConnectBankRes; T_ConnectClientReq; T_ConnectClientRes; T_CreateMappingReq;
       T_CreateMappingRes; T_RemoveMappingReq; T_RemoveMappingRes; T_ConfigClientIdReq; T_ConfigClientIdRes;
       T_ConfigClientBankReq; T_ConfigClientBankRes; T_ErrorInd; T_ResetStateReq; T_ResetStateRes; T_SetAtrReq;
       T_SetAtrRes; T_TpduModemToCard; T_TpduCardToModem; T_ClientSlotStatusInd; T_BankSlotStatusInd]
  | T_RsproPDU => [T_NativeInteger; T_OperationTag; T_RsproPDUchoice]
  | _ => []
  end.

Definition elements_of (td : asn_TYPE_descriptor) : list (asn_TYPE_member asn_TYPE_descriptor) :=
  match td with TD_SEQUENCE _ els _ | TD_CHOICE _ els _ => els | _ => [] end.

(** The addresses are those of the tables. *)
Lemma elm_types_ok t : m_type <$> elements_of (descriptor t) = descriptor <$> elm_types t.
Proof. by destruct t. Qed.

(** ** Pointers to functions that check *)

Inductive check_fn :=
| F_own (t : td_addr)
| F_SEQUENCE
| F_CHOICE
| F_IA5String
| F_generic_no_constraint.

#[global] Instance check_fn_eq_dec : EqDecision check_fn.
Proof. solve_decision. Defined.

Record td_ptrs := TdPtrs {
  check_constraints : td_addr → check_fn;
  memb_constraints : td_addr * nat → option check_fn;
}.

Definition set_check (t : td_addr) (f : check_fn) (s : td_ptrs) : td_ptrs :=
  TdPtrs (<[t := f]> (check_constraints s)) (memb_constraints s).
Definition set_memb (t : td_addr) (edx : nat) (f : check_fn) (s : td_ptrs) : td_ptrs :=
  TdPtrs (check_constraints s) (<[(t, edx) := Some f]> (memb_constraints s)).

(** The pointers as they are compiled into the program: all members defer
    to their type. *)
Definition check_compiled (t : td_addr) : check_fn :=
  match t with
  | T_NativeInteger | T_BOOLEAN | T_OCTET_STRING => F_generic_no_constraint
  | _ => match descriptor t with
         | TD_SEQUENCE _ _ _ => F_SEQUENCE
         | TD_CHOICE _ _ _ => F_CHOICE
         | _ => F_own t
         end
  end.
Definition ptrs_compiled : td_ptrs := TdPtrs check_compiled (λ _, None).

Abbreviation Ck := (M td_ptrs).

(** ** The functions that check

    [sptr] is a structure of the type, or NULL.  The result is 0 or -1. *)

Definition asn_generic_no_constraint (sptr : option asn_value) : Ck Z := mret 0.

(** [value = *(const long * )sptr] *)
Definition load_long (v : asn_value) : Ck Z := match v with VLong value => mret value | _ => undef end.

(** [st->buf], [st->size] *)
Definition load_string (v : asn_value) : Ck octets := match v with VString buf => mret buf | _ => undef end.

Definition verdict (b : bool) : Ck Z := mret (if b then 0 else - 1).

Definition IA5String_constraint (sptr : option asn_value) : Ck Z :=
  match sptr with
  | None => mret (- 1)
  | Some st => buf ← load_string st; verdict (forallb (λ b, negb (0x7F <? b)) buf)
  end.

Definition OperationTag_constraint (sptr : option asn_value) : Ck Z :=
  match sptr with
  | None => mret (- 1)
  | Some v => value ← load_long v; verdict ((0 <=? value) && (value <=? 2147483647))
  end.

Definition BankId_constraint (sptr : option asn_value) : Ck Z :=
  match sptr with
  | None => mret (- 1)
  | Some v => value ← load_long v; verdict ((0 <=? value) && (value <=? 1023))
  end.

Definition ClientId_constraint (sptr : option asn_value) : Ck Z :=
  match sptr with
  | None => mret (- 1)
  | Some v => value ← load_long v; verdict ((0 <=? value) && (value <=? 1023))
  end.

Definition SlotNumber_constraint (sptr : option asn_value) : Ck Z :=
  match sptr with
  | None => mret (- 1)
  | Some v => value ← load_long v; verdict ((0 <=? value) && (value <=? 1023))
  end.

Definition PortNumber_constraint (sptr : option asn_value) : Ck Z :=
  match sptr with
  | None => mret (- 1)
  | Some v => value ← load_long v; verdict ((0 <=? value) && (value <=? 65535))
  end.

Definition ATR_constraint (sptr : option asn_value) : Ck Z :=
  match sptr with
  | None => mret (- 1)
  | Some v => buf ← load_string v; let size := Z.of_nat (length buf) in verdict ((1 <=? size) && (size <=? 55))
  end.

Definition Ipv4Address_constraint (sptr : option asn_value) : Ck Z :=
  match sptr with
  | None => mret (- 1)
  | Some v => buf ← load_string v; let size := Z.of_nat (length buf) in verdict (size =? 4)
  end.

Definition Ipv6Address_constraint (sptr : option asn_value) : Ck Z :=
  match sptr with
  | None => mret (- 1)
  | Some v => buf ← load_string v; let size := Z.of_nat (length buf) in verdict (size =? 16)
  end.

(** [check_permitted_alphabet_1], 0 for a permitted string. *)
Fixpoint check_permitted_alphabet_1 (ch : octets) : Z :=
  match ch with
  | [] => 0
  | cv :: ch => if negb (cv <=? 127) then - 1 else check_permitted_alphabet_1 ch
  end.

Definition ComponentName_constraint (sptr : option asn_value) : Ck Z :=
  match sptr with
  | None => mret (- 1)
  | Some v => buf ← load_string v;
      let size := Z.of_nat (length buf) in
      verdict ((1 <=? size) && (size <=? 32) && (check_permitted_alphabet_1 buf =? 0))
  end.

Definition ErrorString_constraint (sptr : option asn_value) : Ck Z :=
  match sptr with
  | None => mret (- 1)
  | Some v => buf ← load_string v;
      let size := Z.of_nat (length buf) in
      verdict ((1 <=? size) && (size <=? 255) && (check_permitted_alphabet_1 buf =? 0))
  end.

(** An enumeration replaces its own function by the one of NativeEnumerated. *)
Definition ComponentType_constraint (td : td_addr) (sptr : option asn_value) : Ck Z :=
  modify (set_check td F_generic_no_constraint) ;; asn_generic_no_constraint sptr.
Definition ResultCode_constraint (td : td_addr) (sptr : option asn_value) : Ck Z :=
  modify (set_check td F_generic_no_constraint) ;; asn_generic_no_constraint sptr.
Definition ErrorCode_constraint (td : td_addr) (sptr : option asn_value) : Ck Z :=
  modify (set_check td F_generic_no_constraint) ;; asn_generic_no_constraint sptr.
Definition ErrorSeverity_constraint (td : td_addr) (sptr : option asn_value) : Ck Z :=
  modify (set_check td F_generic_no_constraint) ;; asn_generic_no_constraint sptr.

(** The call of [X_constraint] of the type [t] for the descriptor [td]. *)
Definition own_constraint (t td : td_addr) (sptr : option asn_value) : Ck Z :=
  match t with
  | T_OperationTag => OperationTag_constraint sptr
  | T_BankId => BankId_constraint sptr
  | T_ClientId => ClientId_constraint sptr
  | T_SlotNumber => SlotNumber_constraint sptr
  | T_PortNumber => PortNumber_constraint sptr
  | T_ComponentType => ComponentType_constraint td sptr
  | T_ResultCode => ResultCode_constraint td sptr
  | T_ErrorCode => ErrorCode_constraint td sptr
  | T_ErrorSeverity => ErrorSeverity_constraint td sptr
  | T_ComponentName => ComponentName_constraint sptr
  | T_ErrorString => ErrorString_constraint sptr
  | T_ATR => ATR_constraint sptr
  | T_Ipv4Address => Ipv4Address_constraint sptr
  | T_Ipv6Address => Ipv6Address_constraint sptr
  | _ => undef
  end.

(** A member of a SEQUENCE: what is kept for it is called, or else what its
    type has, which is kept if the check succeeds. *)
Definition seq_memb (td : td_addr) (edx : nat) (ct : td_addr) (call : check_fn → Ck Z) : Ck Z :=
  kept ← gets (λ s, memb_constraints s (td, edx));
  match kept with
  | Some f => call f
  | None =>
      f ← gets (λ s, check_constraints s ct);
      ret ← call f;
      if negb (ret =? 0) then mret ret
      else
        f ← gets (λ s, check_constraints s ct);
        modify (set_memb td edx f) ;; mret 0
  end.

(** The present member of a CHOICE: what its type has is kept in any case. *)
Definition choice_memb (td : td_addr) (edx : nat) (ct : td_addr) (call : check_fn → Ck Z) : Ck Z :=
  kept ← gets (λ s, memb_constraints s (td, edx));
  match kept with
  | Some f => call f
  | None =>
      f ← gets (λ s, check_constraints s ct);
      ret ← call f;
      f ← gets (λ s, check_constraints s ct);
      modify (set_memb td edx f) ;; mret ret
  end.

(** [call] checks what the union holds, as a value of a type. *)
Definition CHOICE_constraint (td : td_addr) (present : Z) (call : option (td_addr → check_fn → Ck Z)) : Ck Z :=
  if (0 <? present) && (present <=? Z.of_nat (length (elements_of (descriptor td)))) then
    let edx := Z.to_nat (present - 1) in
    match call, elm_types td !! edx with
    | Some call, Some ct => choice_memb td edx ct (call ct)
    | _, _ => undef
    end
  else mret (- 1).

(** A call through a pointer: [f(td, v)].  The loop over the members is the one
    of [SEQUENCE_constraint]. *)
Fixpoint call_check (f : check_fn) (td : td_addr) (v : asn_value) {struct v} : Ck Z :=
  match f with
  | F_own t => own_constraint t td (Some v)
  | F_IA5String => IA5String_constraint (Some v)
  | F_generic_no_constraint => asn_generic_no_constraint (Some v)
  | F_SEQUENCE =>
      match v with
      | VSeq vs =>
          (fix loop edx els ts vs {struct vs} : Ck Z :=
             match vs with
             | [] => match els with [] => mret 0 | _ :: _ => undef end
             | memb :: vs =>
                 match els, ts with
                 | elm :: els, ct :: ts =>
                     match memb with
                     | None =>
                         if negb (is_pointer elm) then undef
                         else if Nat.eqb (optional elm) 0 then mret (- 1)
                         else loop (S edx) els ts vs
                     | Some u =>
                         ret ← seq_memb td edx ct (λ g, call_check g ct u);
                         if negb (ret =? 0) then mret ret else loop (S edx) els ts vs
                     end
                 | _, _ => undef
                 end
             end) O (elements_of (descriptor td)) (elm_types td) vs
      | _ => undef
      end
  | F_CHOICE =>
      match v with
      | VChoice present memb =>
          CHOICE_constraint td present
            match memb with Some u => Some (λ ct g, call_check g ct u) | None => None end
      | _ => undef
      end
  end.

Definition asn_check_constraints (td : td_addr) (sptr : option asn_value) : Ck Z :=
  f ← gets (λ s, check_constraints s td);
  match f, sptr with
  | F_own t, _ => own_constraint t td sptr
  | F_generic_no_constraint, _ => asn_generic_no_constraint sptr
  | F_IA5String, _ => IA5String_constraint sptr
  | (F_SEQUENCE | F_CHOICE), None => mret (- 1)
  | (F_SEQUENCE | F_CHOICE), Some v => call_check f td v
  end.

(** ** Codec functions

    [X_decode_ber], [X_encode_der], [X_free] and the others of a type made from
    another one start with [X_inherit_TYPE_descriptor]; what else it sets are the
    functions that [RsproTables] gives the type. *)

Definition OperationTag_inherit (td : td_addr) : Ck () := modify (set_check td F_generic_no_constraint).
Definition BankId_inherit (td : td_addr) : Ck () := modify (set_check td F_generic_no_constraint).
Definition ClientId_inherit (td : td_addr) : Ck () := modify (set_check td F_generic_no_constraint).
Definition SlotNumber_inherit (td : td_addr) : Ck () := modify (set_check td F_generic_no_constraint).
Definition PortNumber_inherit (td : td_addr) : Ck () := modify (set_check td F_generic_no_constraint).
Definition ComponentType_inherit (td : td_addr) : Ck () := modify (set_check td F_generic_no_constraint).
Definition ResultCode_inherit (td : td_addr) : Ck () := modify (set_check td F_generic_no_constraint).
Definition ErrorCode_inherit (td : td_addr) : Ck () := modify (set_check td F_generic_no_constraint).
Definition ErrorSeverity_inherit (td : td_addr) : Ck () := modify (set_check td F_generic_no_constraint).
Definition ATR_inherit (td : td_addr) : Ck () := modify (set_check td F_generic_no_constraint).
Definition Ipv4Address_inherit (td : td_addr) : Ck () := modify (set_check td F_generic_no_constraint).
Definition Ipv6Address_inherit (td : td_addr) : Ck () := modify (set_check td F_generic_no_constraint).
Definition ComponentName_inherit (td : td_addr) : Ck () := modify (set_check td F_IA5String).
Definition ErrorString_inherit (td : td_addr) : Ck () := modify (set_check td F_IA5String).

(** What a codec function of the type does to the pointers before all else. *)
Definition codec_inherit (t : td_addr) : Ck () :=
  match t with
  | T_OperationTag => OperationTag_inherit t
  | T_BankId => BankId_inherit t
  | T_ClientId => ClientId_inherit t
  | T_SlotNumber => SlotNumber_inherit t
  | T_PortNumber => PortNumber_inherit t
  | T_ComponentType => ComponentType_inherit t
  | T_ResultCode => ResultCode_inherit t
  | T_ErrorCode => ErrorCode_inherit t
  | T_ErrorSeverity => ErrorSeverity_inherit t
  | T_ComponentName => ComponentName_inherit t
  | T_ErrorString => ErrorString_inherit t
  | T_ATR => ATR_inherit t
  | T_Ipv4Address => Ipv4Address_inherit t
  | T_Ipv6Address => Ipv6Address_inherit t
  | _ => mret ()
  end.

(** The codec functions of the types of a value that has been encoded or decoded
    completely: those of the members that are there. *)
Fixpoint codec_types (t : td_addr) (v : asn_value) {struct v} : list td_addr :=
  t :: match v with
       | VSeq vs =>
           (fix membs ts vs {struct vs} :=
              match ts, vs with
              | ct :: ts, Some u :: vs => codec_types ct u ++ membs ts vs
              | _ :: ts, None :: vs => membs ts vs
              | _, _ => []
              end) (elm_types t) vs
       | VChoice present (Some u) =>
           match elm_types t !! Z.to_nat (present - 1) with Some ct => codec_types ct u | None => [] end
       | _ => []
       end.

(** ** The constraints of the ASN.1 module *)

Inductive asn1_constraint :=
| C_range (lo hi : Z)
| C_size (lo hi : Z)
| C_ascii_size (lo hi : Z)
| C_ascii
| C_none.

Definition ascii (buf : octets) : bool := forallb (λ b, b <? 128) buf.

Definition satisfies (c : asn1_constraint) (v : asn_value) : bool :=
  match c, v with
  | C_range lo hi, VLong n => (lo <=? n) && (n <=? hi)
  | C_size lo hi, VString buf => (lo <=? Z.of_nat (length buf)) && (Z.of_nat (length buf) <=? hi)
  | C_ascii_size lo hi, VString buf =>
      (lo <=? Z.of_nat (length buf)) && (Z.of_nat (length buf) <=? hi) && ascii buf
  | C_ascii, VString buf => ascii buf
  | C_none, _ => true
  | _, _ => false
  end.

(** [asn1/RSPRO.asn]; enumerators are not checked. *)
Definition RSPRO_asn (t : td_addr) : asn1_constraint :=
  match t with
  | T_OperationTag => C_range 0 2147483647
  | T_BankId | T_ClientId | T_SlotNumber => C_range 0 1023
  | T_PortNumber => C_range 0 65535
  | T_ComponentName => C_ascii_size 1 32
  | T_ErrorString => C_ascii_size 1 255
  | T_ATR => C_size 1 55
  | T_Ipv4Address => C_size 4 4
  | T_Ipv6Address => C_size 16 16
  | _ => C_none
  end.

(** What is left of them when a type has taken over the functions of the one it
    is made from. *)
Definition only_alphabet (t : td_addr) : asn1_constraint :=
  match t with T_ComponentName | T_ErrorString => C_ascii | _ => C_none end.

(** A value and all that is in it satisfy the constraints of their types. *)
Fixpoint conforms (C : td_addr → asn1_constraint) (t : td_addr) (v : asn_value) {struct v} : bool :=
  match v with
  | VSeq vs =>
      (fix membs ts vs {struct vs} :=
         match ts, vs with
         | ct :: ts, Some u :: vs => conforms C ct u && membs ts vs
         | _ :: ts, None :: vs => membs ts vs
         | _, _ => true
         end) (elm_types t) vs
  | VChoice present (Some u) =>
      match elm_types t !! Z.to_nat (present - 1) with Some ct => conforms C ct u | None => false end
  | VChoice _ None => false
  | _ => satisfies (C t) v
  end.

(** ** What the functions do to the pointers *)

(** The function of the type that [t] is made from. *)
Definition check_inherited (t : td_addr) : check_fn :=
  match t with
  | T_ComponentName | T_ErrorString => F_IA5String
  | _ => match check_compiled t with F_own _ => F_generic_no_constraint | f => f end
  end.

Definition enumerated (t : td_addr) : bool :=
  match t with T_ComponentType | T_ResultCode | T_ErrorCode | T_ErrorSeverity => true | _ => false end.

(** What a function says about a value of a type without members. *)
Definition fn_accepts (f : check_fn) (v : asn_value) : bool :=
  match f with
  | F_own t => satisfies (RSPRO_asn t) v
  | F_IA5String => satisfies C_ascii v
  | _ => true
  end.

Lemma permitted_ascii buf : (check_permitted_alphabet_1 buf =? 0) = ascii buf.
Proof.
  unfold ascii. induction buf as [|b buf IH]; [done|]. cbn. rewrite <-IH. destruct (Z.leb_spec b 127), (Z.ltb_spec b 128); try lia; done.
Qed.

Lemma IA5_ascii buf : forallb (λ b, negb (127 <? b)) buf = ascii buf.
Proof.
  unfold ascii. induction buf as [|b buf IH]; [done|]. cbn. rewrite IH. f_equal. destruct (Z.ltb_spec 127 b), (Z.ltb_spec b 128); try lia; done.
Qed.

Section pointers.
Context (G : td_addr → check_fn → Prop).
Context (Gsane : ∀ t f, G t f → f = check_compiled t ∨ f = check_inherited t).
Context (Genum : ∀ t, enumerated t = true → G t F_generic_no_constraint).

(** The pointers of every type are among those allowed for it. *)
Record ptrs_inv (s : td_ptrs) : Prop := {
  pi_check t : G t (check_constraints s t);
  pi_memb td edx ct f :
    elm_types td !! edx = Some ct → memb_constraints s (td, edx) = Some f → G ct f;
}.

Lemma set_check_inv t f s : ptrs_inv s → G t f → ptrs_inv (set_check t f s).
Proof.
  intros [H1 H2] Hf. split; [|exact H2]. intros t'. cbn.
  destruct (decide (t = t')) as [->|Hne]; [by rewrite fn_lookup_insert|by rewrite fn_lookup_insert_ne].
Qed.

Lemma set_memb_inv td edx ct f s :
  ptrs_inv s → elm_types td !! edx = Some ct → G ct f → ptrs_inv (set_memb td edx f s).
Proof.
  intros [H1 H2] Hct Hf. split; [exact H1|]. intros td' edx' ct' f' Hct'. cbn.
  destruct (decide ((td, edx) = (td', edx'))) as [[= -> ->]|Hne].
  - rewrite fn_lookup_insert. intros [= <-]. by simplify_eq.
  - rewrite fn_lookup_insert_ne by done. by apply H2.
Qed.

(** A function of a type without members. *)
Definition primitive (td : asn_TYPE_descriptor) : bool :=
  match td with TD_SEQUENCE _ _ _ | TD_CHOICE _ _ _ => false | _ => true end.

Lemma exact_size (buf : octets) n : (Z.of_nat (length buf) =? n) = ((n <=? Z.of_nat (length buf)) && (Z.of_nat (length buf) <=? n)).
Proof. lia. Qed.

Lemma wp_verdict (b : bool) (s : td_ptrs) (Q : Z → td_ptrs → Prop) : Q (if b then 0 else - 1) s → wp (verdict b) s Q.
Proof. done. Qed.

Lemma leaf_run t f v s :
  ptrs_inv s → G t f → primitive (descriptor t) = true → has_type (descriptor t) v →
  wp (call_check f t v) s (λ r s', r = (if fn_accepts f v then 0 else - 1) ∧ ptrs_inv s').
Proof.
  intros Hs Hf Hleaf Hv.
  assert (f = check_compiled t ∨ f = check_inherited t) as [->| ->] by (by apply Gsane);
    destruct t; try done; destruct v; try done; cbn; wp_steps;
    rewrite ?permitted_ascii, ?IA5_ascii, ?exact_size; try (by apply wp_verdict);
    apply wp_bind, wp_modify, wp_ret; (split; [done|]); by apply set_check_inv, Genum.
Qed.

(** ** The loops *)

Definition seq_loop (call : check_fn → td_addr → asn_value → Ck Z) (td : td_addr) :=
  fix loop (edx : nat) (els : list (asn_TYPE_member asn_TYPE_descriptor)) (ts : list td_addr)
      (vs : list (option asn_value)) {struct vs} : Ck Z :=
    match vs with
    | [] => match els with [] => mret 0 | _ :: _ => undef end
    | memb :: vs =>
        match els, ts with
        | elm :: els, ct :: ts =>
            match memb with
            | None =>
                if negb (is_pointer elm) then undef
                else if Nat.eqb (optional elm) 0 then mret (- 1)
                else loop (S edx) els ts vs
            | Some u =>
                ret ← seq_memb td edx ct (λ g, call_check g ct u);
                if negb (ret =? 0) then mret ret else loop (S edx) els ts vs
            end
        | _, _ => undef
        end
    end.

Lemma call_check_SEQUENCE td vs :
  call_check F_SEQUENCE td (VSeq vs) = seq_loop call_check td 0 (elements_of (descriptor td)) (elm_types td) vs.
Proof. reflexivity. Qed.

Definition conform_members (C : td_addr → asn1_constraint) :=
  fix membs (ts : list td_addr) (vs : list (option asn_value)) {struct vs} : bool :=
    match ts, vs with
    | ct :: ts, Some u :: vs => conforms C ct u && membs ts vs
    | _ :: ts, None :: vs => membs ts vs
    | _, _ => true
    end.

Definition member_types :=
  fix membs (ts : list td_addr) (vs : list (option asn_value)) {struct vs} : list td_addr :=
    match ts, vs with
    | ct :: ts, Some u :: vs => codec_types ct u ++ membs ts vs
    | _ :: ts, None :: vs => membs ts vs
    | _, _ => []
    end.

Lemma seq_memb_run td edx ct call s (P : Z → Prop) :
  ptrs_inv s → elm_types td !! edx = Some ct →
  (∀ f s, ptrs_inv s → G ct f → wp (call f) s (λ r s', P r ∧ ptrs_inv s')) →
  wp (seq_memb td edx ct call) s (λ r s', P r ∧ ptrs_inv s').
Proof.
  intros Hs Hct Hcall. unfold seq_memb. wp_steps.
  destruct (memb_constraints s (td, edx)) as [f|] eqn:Hf; [apply Hcall; [done|by eapply (pi_memb s Hs)]|].
  wp_steps. eapply wp_mono; [by apply Hcall, (pi_check s Hs)|]. intros r s' [Hr Hs'].
  destruct (Z.eqb_spec r 0) as [->|]; cbn; wp_steps; [|done].
  split; [done|]. apply (set_memb_inv td edx ct); [done..|by apply (pi_check s' Hs')].
Qed.

Lemma choice_memb_run td edx ct call s (P : Z → Prop) :
  ptrs_inv s → elm_types td !! edx = Some ct →
  (∀ f s, ptrs_inv s → G ct f → wp (call f) s (λ r s', P r ∧ ptrs_inv s')) →
  wp (choice_memb td edx ct call) s (λ r s', P r ∧ ptrs_inv s').
Proof.
  intros Hs Hct Hcall. unfold choice_memb. wp_steps.
  destruct (memb_constraints s (td, edx)) as [f|] eqn:Hf; [apply Hcall; [done|by eapply (pi_memb s Hs)]|].
  wp_steps. eapply wp_mono; [by apply Hcall, (pi_check s Hs)|]. intros r s' [Hr Hs']. wp_steps.
  split; [done|]. apply (set_memb_inv td edx ct); [done..|by apply (pi_check s' Hs')].
Qed.
(** What the functions allowed for a type say is what [C] says of it. *)
Definition agrees (C : td_addr → asn1_constraint) (t : td_addr) : Prop :=
  ∀ f v, G t f → primitive (descriptor t) = true → has_type (descriptor t) v → fn_accepts f v = satisfies (C t) v.

Definition check_spec (C : td_addr → asn1_constraint) (td : asn_TYPE_descriptor) : Prop :=
  ∀ t f v s, descriptor t = td → ptrs_inv s → G t f → has_type td v →
    wp (call_check f t v) s (λ r s',
      ((∀ c, c ∈ codec_types t v → agrees C c) → r = if conforms C t v then 0 else - 1) ∧ ptrs_inv s').

(** The loop of [SEQUENCE_constraint] over the members that are left. *)
Lemma seq_loop_run C td edx els ts vs s :
  Forall (λ e, check_spec C (m_type e)) els → m_type <$> els = descriptor <$> ts →
  (∀ i ct, ts !! i = Some ct → elm_types td !! (edx + i)%nat = Some ct) →
  Forall2 (member_ok has_type) els vs → ptrs_inv s →
  wp (seq_loop call_check td edx els ts vs) s (λ r s',
    ((∀ c, c ∈ member_types ts vs → agrees C c) → r = if conform_members C ts vs then 0 else - 1) ∧ ptrs_inv s').
Proof.
  intros Hels Hts Hidx Hvs. revert edx ts s Hts Hidx. induction Hvs as [|e o els vs Ho _ IH]; intros edx ts s Hts Hidx Hs.
  { destruct ts; [|done]. cbn. wp_steps. done. }
  apply Forall_cons in Hels as [He Hels]. destruct ts as [|ct ts]; [done|]. injection Hts as Hct Hts.
  assert (∀ i c, ts !! i = Some c → elm_types td !! (S edx + i)%nat = Some c) as Hidx'.
  { intros i c Hc. specialize (Hidx (S i) c Hc). by rewrite Nat.add_succ_r in Hidx. }
  destruct o as [u|]; cbn -[is_pointer].
  - wp_steps. eapply wp_mono.
    { apply (seq_memb_run td edx ct _ s (λ r, (∀ c, c ∈ codec_types ct u → agrees C c) → r = if conforms C ct u then 0 else - 1));
        [done|by rewrite <-(Nat.add_0_r edx); apply Hidx|].
      intros f s0 Hs0 Hf. apply He; [by rewrite Hct|done..]. }
    intros r s' [Hr Hs']. destruct (Z.eqb_spec r 0) as [->|Hne]; cbn.
    + eapply wp_mono; [by apply (IH Hels (S edx) ts s')|]. intros r' s'' [Hr' Hs'']. split; [|done].
      intros Hag. rewrite Hr' by (intros c Hc; apply Hag, elem_of_app; by right).
      destruct (conforms C ct u) eqn:Hcf; [done|]. exfalso. enough (0 = - 1) by lia. apply Hr.
      intros c Hc. apply Hag, elem_of_app. by left.
    + wp_steps. split; [|done]. intros Hag. specialize (Hr ltac:(intros c Hc; apply Hag, elem_of_app; by left)).
      by destruct (conforms C ct u).
  - destruct Ho as [Hp Hopt]. rewrite Hp. cbn -[is_pointer]. apply Nat.eqb_neq in Hopt. rewrite Hopt. by apply IH.
Qed.

Lemma composite_fn t f :
  G t f → primitive (descriptor t) = false →
  f = match descriptor t with TD_CHOICE _ _ _ => F_CHOICE | _ => F_SEQUENCE end.
Proof. intros [->| ->]%Gsane; by destruct t. Qed.

Lemma call_check_run C : ∀ td, check_spec C td.
Proof.
  assert (∀ t f v s, primitive (descriptor t) = true → ptrs_inv s → G t f → has_type (descriptor t) v →
    wp (call_check f t v) s (λ r s',
      ((∀ c, c ∈ codec_types t v → agrees C c) → r = if conforms C t v then 0 else - 1) ∧ ptrs_inv s')) as Hprim.
  { intros t f v s Hp Hs Hf Hv. eapply wp_mono; [by apply leaf_run|]. intros r s' [-> Hs']. split; [|done].
    intros Hag. rewrite (Hag t) by (done || by destruct v; left).
    by destruct (descriptor t); try done; destruct v. }
  apply asn_TYPE_descriptor_ind'.
  1-3: intros tags t f v s Htd Hs Hf Hv; apply Hprim; by rewrite ?Htd.
  - intros tags els specs IH t f v s Htd Hs Hf Hv. rewrite (composite_fn t f Hf) by by rewrite Htd.
    destruct v as [| | |vs|]; try done. rewrite Htd. rewrite call_check_SEQUENCE.
    pose proof (elm_types_ok t) as Hok. rewrite Htd in Hok |- *. apply has_type_SEQUENCE in Hv.
    eapply wp_mono; [by apply (seq_loop_run C t 0 els (elm_types t) vs s)|]. intros r s' [Hr Hs']. split; [|done].
    intros Hag. apply Hr. intros c Hc. apply Hag. by right.
  - intros tags els specs IH t f v s Htd Hs Hf Hv. rewrite (composite_fn t f Hf) by by rewrite Htd.
    destruct v as [| | | |present [u|]]; try done; rewrite Htd; cbn -[CHOICE_constraint];
      unfold CHOICE_constraint; rewrite Htd; cbn -[choice_memb].
    2: { cbn in Hv. subst. cbn. wp_steps. done. }
    apply has_type_CHOICE in Hv as (Hp & e & He & Hv).
    pose proof (elm_types_ok t) as Hok. rewrite Htd in Hok. cbn in Hok.
    assert (∃ ct, elm_types t !! Z.to_nat (present - 1) = Some ct ∧ m_type e = descriptor ct) as (ct & Hct & Hm).
    { apply (f_equal (.!! Z.to_nat (present - 1))) in Hok. rewrite !list_lookup_fmap, He in Hok.
      destruct (elm_types t !! _) as [ct|]; [|done]. injection Hok as Hm. by exists ct. }
    pose proof (lookup_lt_Some _ _ _ He). rewrite Hct.
    destruct (Z.ltb_spec 0 present); [|lia]. destruct (Z.leb_spec present (Z.of_nat (length els))); [|lia]. cbn [andb].
    eapply wp_mono.
    { apply (choice_memb_run t (Z.to_nat (present - 1)) ct _ s
        (λ r, (∀ c, c ∈ codec_types ct u → agrees C c) → r = if conforms C ct u then 0 else - 1)); [done|done|].
      intros g s0 Hs0 Hg. rewrite Forall_lookup in IH. by apply (IH _ _ He); [by rewrite Hm|..]. }
    intros r s' [Hr Hs']. split; [|done]. intros Hag. apply Hr. intros c Hc. apply Hag. by right.
Qed.
Lemma asn_check_constraints_Some t v s :
  asn_check_constraints t (Some v) s = call_check (check_constraints s t) t v s.
Proof. unfold asn_check_constraints, mbind, M_bind, gets. destruct (check_constraints s t); try done; by destruct v. Qed.

Lemma asn_check_constraints_run C t v s :
  ptrs_inv s → has_type (descriptor t) v →
  wp (asn_check_constraints t (Some v)) s (λ r s',
    ((∀ c, c ∈ codec_types t v → agrees C c) → r = if conforms C t v then 0 else - 1) ∧ ptrs_inv s').
Proof.
  intros Hs Hv. pose proof (call_check_run C _ t (check_constraints s t) v s eq_refl Hs (pi_check s Hs t) Hv) as Hrun.
  apply wp_done in Hrun as (r & s' & Hrun & HQ). apply wp_done. exists r, s'.
  by rewrite asn_check_constraints_Some.
Qed.
End pointers.

(** ** What happens to the pointers in a program *)

(** A value, or NULL, is checked. *)
Definition check_step (s s' : td_ptrs) : Prop :=
  ∃ t sptr r, (∀ v, sptr = Some v → has_type (descriptor t) v) ∧ asn_check_constraints t sptr s = Done (r, s').

(** A codec function is called. *)
Definition codec_step (s s' : td_ptrs) : Prop := ∃ t, codec_inherit t s = Done ((), s').

Definition any_step (s s' : td_ptrs) : Prop := check_step s s' ∨ codec_step s s'.

Lemma codec_inherit_eq t s :
  codec_inherit t s = Done ((), if decide (check_inherited t = check_compiled t) then s else set_check t (check_inherited t) s).
Proof. by destruct t. Qed.

Section steps.
Context (G : td_addr → check_fn → Prop).
Context (Gsane : ∀ t f, G t f → f = check_compiled t ∨ f = check_inherited t).
Context (Genum : ∀ t, enumerated t = true → G t F_generic_no_constraint).

Lemma check_step_inv s s' : ptrs_inv G s → check_step s s' → ptrs_inv G s'.
Proof using Gsane Genum.
  intros Hs (t & [v|] & r & Hv & Hrun).
  - eapply wp_done_inv in Hrun; [|by eapply (asn_check_constraints_run G Gsane Genum RSPRO_asn); [|apply Hv]].
    by destruct Hrun.
  - unfold asn_check_constraints, mbind, M_bind, gets in Hrun.
    destruct (Gsane t _ (pi_check G s Hs t)) as [He|He]; rewrite He in Hrun; destruct t; cbn in Hrun;
      injection Hrun as _ <-; try done; by apply set_check_inv, Genum.
Qed.

Lemma codec_step_inv s s' : (∀ t, G t (check_inherited t)) → ptrs_inv G s → codec_step s s' → ptrs_inv G s'.
Proof.
  intros Hi Hs (t & Ht). rewrite codec_inherit_eq in Ht. injection Ht as <-. case_decide; [done|].
  by apply set_check_inv.
Qed.
End steps.

(** ** While nothing has been encoded or decoded *)

Definition G_fresh (t : td_addr) (f : check_fn) : Prop :=
  f = check_compiled t ∨ enumerated t = true ∧ f = F_generic_no_constraint.

Lemma G_fresh_sane t f : G_fresh t f → f = check_compiled t ∨ f = check_inherited t.
Proof. intros [->|[Ht ->]]; [by left|right; by destruct t]. Qed.

Lemma G_fresh_agrees t : agrees G_fresh RSPRO_asn t.
Proof. intros f v [->|[Ht ->]] Hp Hv; destruct t; try done; by destruct v. Qed.

Lemma compiled_inv (G : td_addr → check_fn → Prop) : (∀ t, G t (check_compiled t)) → ptrs_inv G ptrs_compiled.
Proof. intros HG. by split. Qed.

Lemma fresh_inv s : rtc check_step ptrs_compiled s → ptrs_inv G_fresh s.
Proof.
  assert (ptrs_inv G_fresh ptrs_compiled) as H0 by (apply compiled_inv; by left).
  induction 1 as [|s0 s1 s Hst _ IH]; [done|]. apply IH.
  eapply check_step_inv; [apply G_fresh_sane| |exact H0|exact Hst]. intros t Ht. by right.
Qed.

(** Before anything is encoded or decoded the check is that of the ASN.1 module:
    whatever was checked before, a value passes exactly if every number, length
    and string in it conforms to its type (only enumerators are not checked). *)
Theorem constraints_checked t v s :
  rtc check_step ptrs_compiled s → has_type (descriptor t) v →
  ∃ s', asn_check_constraints t (Some v) s = Done (if conforms RSPRO_asn t v then 0 else - 1, s').
Proof.
  intros Hs Hv. assert (∀ t, enumerated t = true → G_fresh t F_generic_no_constraint) as He by (by right).
  pose proof (asn_check_constraints_run G_fresh G_fresh_sane He RSPRO_asn t v s (fresh_inv s Hs) Hv) as Hrun.
  apply wp_done in Hrun as (r & s' & Hrun & Hr & _). exists s'. rewrite Hrun, Hr; [done|]. intros c _. apply G_fresh_agrees.
Qed.

(** ** After values have been encoded or decoded *)

Section used.
Context (used : list td_addr).

Definition G_used (t : td_addr) (f : check_fn) : Prop :=
  (f = check_compiled t ∨ f = check_inherited t) ∧ (t ∈ used → f = check_inherited t).

Lemma G_used_enum t : enumerated t = true → G_used t F_generic_no_constraint.
Proof. intros Ht. split; [right|intros _]; by destruct t. Qed.

Lemma G_used_inherited t : G_used t (check_inherited t).
Proof. split; [by right|done]. Qed.

Lemma G_used_agrees t : t ∈ used → agrees G_used only_alphabet t.
Proof. intros Ht f v [_ Hf] Hp Hv. rewrite (Hf Ht). destruct t; try done; by destruct v. Qed.

(** Codec functions alone: nothing is kept for members. *)
Lemma codecs_run ts s :
  memb_constraints s = (λ _, None) → (∀ t, check_constraints s t = check_compiled t ∨ check_constraints s t = check_inherited t) →
  ∃ s', for_each codec_inherit ts s = Done ((), s') ∧ memb_constraints s' = (λ _, None) ∧
    (∀ t, check_constraints s' t = check_compiled t ∨ check_constraints s' t = check_inherited t) ∧
    ∀ t, t ∈ ts ∨ check_constraints s t = check_inherited t → check_constraints s' t = check_inherited t.
Proof.
  revert s. induction ts as [|t ts IH]; intros s Hm Hc.
  { exists s. split; [done|]. split; [done|]. split; [done|]. by intros t [[]%elem_of_nil|H]. }
  cbn [for_each]. set (s1 := if decide (check_inherited t = check_compiled t) then s else set_check t (check_inherited t) s).
  assert (∀ t', check_constraints s1 t' = if decide (t = t') then check_inherited t else check_constraints s t') as Hs1.
  { intros t'. subst s1. case_decide as Hi.
    - case_decide as Ht; [subst t'|done]. destruct (Hc t) as [->| ->]; done.
    - cbn. case_decide as Ht; [subst; by rewrite fn_lookup_insert|by rewrite fn_lookup_insert_ne]. }
  destruct (IH s1) as (s' & Hrun & Hm' & Hc' & Hu).
  - subst s1. by case_decide.
  - intros t'. rewrite Hs1. case_decide; [subst; by right|apply Hc].
  - exists s'. split; [by erewrite mbind_done by apply codec_inherit_eq|]. split; [done|]. split; [done|].
    intros t' Ht. apply Hu. rewrite Hs1. rewrite elem_of_cons in Ht. case_decide; [subst; by right|].
    destruct Ht as [[->|Ht]|Ht]; [done|by left|by right].
Qed.

Lemma any_steps_inv s0 s : ptrs_inv G_used s0 → rtc any_step s0 s → ptrs_inv G_used s.
Proof.
  intros H0. induction 1 as [|s0 s1 s [Hst|Hst] _ IH]; [done|..]; apply IH.
  - eapply check_step_inv; [by intros t f []|apply G_used_enum|done..].
  - eapply codec_step_inv; [apply G_used_inherited|done..].
Qed.

Lemma used_inv s0 s :
  for_each codec_inherit used ptrs_compiled = Done ((), s0) → rtc any_step s0 s → ptrs_inv G_used s.
Proof.
  intros Hrun Hst. destruct (codecs_run used ptrs_compiled) as (s0' & Hrun' & Hm & Hc & Hu); [done|by left|].
  rewrite Hrun in Hrun'. injection Hrun' as <-.
  assert (ptrs_inv G_used s0) as H0.
  { split; [intros t; split; [by apply Hc|intros Ht; apply Hu; by left]|]. intros td edx ct f _. by rewrite Hm. }
  by eapply any_steps_inv.
Qed.
End used.

(** Once the types of a value have been encoded or decoded, its constraints are
    not checked any more: each of them has taken over the function of the type it
    is made from.  Whatever is checked, encoded and decoded from then on, the
    value passes if its strings are ASCII, whatever the numbers and lengths.  So a
    received PDU could not be checked, since it has been decoded. *)
Theorem constraints_lost used t v s0 s :
  (∀ c, c ∈ codec_types t v → c ∈ used) → for_each codec_inherit used ptrs_compiled = Done ((), s0) →
  rtc any_step s0 s → has_type (descriptor t) v →
  ∃ s', asn_check_constraints t (Some v) s = Done (if conforms only_alphabet t v then 0 else - 1, s').
Proof.
  intros Hu H0 Hs Hv. assert (∀ t f, G_used used t f → f = check_compiled t ∨ f = check_inherited t) as Hsane by by intros ?? [].
  pose proof (asn_check_constraints_run (G_used used) Hsane (G_used_enum used) only_alphabet t v s (used_inv used s0 s H0 Hs) Hv) as Hrun.
  apply wp_done in Hrun as (r & s' & Hrun & Hr & _). exists s'. rewrite Hrun, Hr; [done|]. intros c Hc. by apply G_used_agrees, Hu.
Qed.

(** A request to map slot 2 of the bank 5000 to a client. *)
Definition far_bank : RsproPDU := pdu_v2 (PR_createMappingReq (MkClientSlot 7 3) (MkBankSlot 5000 2)).

Lemma far_bank_typed : has_type asn_DEF_RsproPDU (asn_of_RsproPDU far_bank).
Proof. vm_compute. repeat split; discriminate. Qed.

(** It fails the check of a program that has not received it, *)
Lemma constraints_checked_witness :
  ∃ s', asn_check_constraints T_RsproPDU (Some (asn_of_RsproPDU far_bank)) ptrs_compiled = Done (- 1, s').
Proof. apply (constraints_checked T_RsproPDU (asn_of_RsproPDU far_bank) ptrs_compiled); [apply rtc_refl|apply far_bank_typed]. Defined.

(** and passes that of one that has. *)
Lemma constraints_lost_witness :
  ∃ s0 s', for_each codec_inherit (codec_types T_RsproPDU (asn_of_RsproPDU far_bank)) ptrs_compiled = Done ((), s0) ∧
    asn_check_constraints T_RsproPDU (Some (asn_of_RsproPDU far_bank)) s0 = Done (0, s').
Proof.
  destruct (codecs_run (codec_types T_RsproPDU (asn_of_RsproPDU far_bank)) ptrs_compiled) as (s0 & H0 & _); [done|by left|].
  exists s0. destruct (constraints_lost (codec_types T_RsproPDU (asn_of_RsproPDU far_bank)) T_RsproPDU
    (asn_of_RsproPDU far_bank) s0 s0) as [s' Hs']; [done|exact H0|apply rtc_refl|apply far_bank_typed|].
  exists s'. split; [exact H0|exact Hs'].
Defined.

(** The result depends on the past: if a conforming bank slot has been checked
    before the first one was decoded, SEQUENCE has kept the functions of the
    members, and the check stays what it was. *)
Theorem constraints_kept :
  let slot b := asn_of_BankSlot (MkBankSlot b 2) in
  let check b := asn_check_constraints T_BankSlot (Some (slot b)) in
  let decode := for_each codec_inherit (codec_types T_BankSlot (slot 5000)) in
  let result (m : Ck Z) := match m ptrs_compiled with Done (r, _) => Some r | _ => None end in
  result (check 5000) = Some (- 1) ∧ result (decode ;; check 5000) = Some 0 ∧
  result (check 1 ;; decode ;; check 5000) = Some (- 1).
Proof. by vm_compute. Qed.
