(* ===== verification/MapAgreement.v ===== *)
(** * The agreement of server and bankd

    The server and one connected bankd with the messages between them: as long as the
    other events of the server are benign and no mapping is deleted before the bankd
    has answered, what they keep about the mappings of the bank is the protocol of
    [MapLink] ([agreed_step]), so they agree on them ([mappings_agree]) and no message
    of the link finds the other side unprepared ([link_never_stuck]).  The conditions
    are needed: [deleted_while_pending] is what a deletion before the answer does,
    [deleted_while_away] what a bankd keeps from an earlier connection, and
    [ServerProps.rest_post_race] what a bankd does that connects during a POST. *)

From S2P Require Import Prelude OsmoFsm Slotmap RsproPdu RsproDer RsproUtil Ipa RsproFits ClientConn Examples ConnInv.
From S2P Require Import RsproServer RestApi ServerInv ServerSystem ServerProps MapLink MapServer.
From S2P Require Import BankdPcsc BankdMain BankdStart BankdInv BankdThread BankdSystem BankdProps EndToEnd.

(** ** The requests *)





Section link.
Context `{OsmoLib, Talloc, RsproCodec, !RsproRoundtrip, !RsproFits, IpaLib, Jansson}.
Context `{StreamCliLib, IpaBtsLib, Pcsc}.




(** ** The bankd carries out a request *)




(** ** The two programs *)


Definition bankd_sent (b : bankd) : list octets := rspro_sent (srvc_sent (srvc b)).

Section steps.
Context (id : app_comp_id) (l p : loc) (k0 : ckey).






(** ** Facts about the lists of the link *)




(** ** The invariant *)

Hypothesis talloc_total : ∀ X, is_Some (talloc_zero X).













End steps.
End link.

(** ** A run *)






(** A client and a mapping for it are there when the bankd connects. *)
Definition ag_srv_events : list srv_event :=
  ex_client 11 (MkClientSlot 7 3) ++ ex_post (BankSlot 1 0) (ClientSlot 7 3) ++ ex_bankd 22 1 2.







(** ** What the agreement does not cover *)

Definition ag_requests : list (option RsproPDUchoice) :=
  [Some (PR_connectBankRes (fill_comp_id ex_srv) ResultCode_ok);
   Some (PR_createMappingReq (MkClientSlot 7 3) (MkBankSlot 1 0))].

(** A mapping that a REST client deletes between request and response is
    not removed from the bankd: it leaves the list that REST clients see and
    nothing else happens; the response makes it ACTIVE, no request to remove it is
    ever sent, and the bankd, which has received all that was sent, keeps it in
    force. *)
Theorem deleted_while_pending :
  let s := after (ag_srv_events ++ [ex_del [54; 53; 53; 51; 54]; EvEventFd 8;
                   EvRead 22 1 (rspro_msg (PR_createMappingRes ResultCode_ok)); EvEventFd 8]) in
  let b := run_bankd_trace (λ _, True) (at_time (example_up ++
             [(2000, from_server (PR_createMappingReq (MkClientSlot 7 3) (MkBankSlot 1 0)))])) (1000, example_bankd) in
  entries (srv_slotmaps s) = [] ∧
  lview 2 (srv_slotmaps s) = BView [] [] [(BankSlot 1 0, ClientSlot 7 3)] [] [] ∧
  (λ d, msg <$> rspro_dec_msg d) <$> sent_to 22 s = ag_requests ∧
  option_map (λ b, abs (bd_slotmaps b.2)) b = Some {[BankSlot 1 0 := ClientSlot 7 3]}.
Proof. repeat split; vm_compute; reflexivity. Qed.

Definition away_srv_events : list srv_event :=
  [EvRead 22 1 (rspro_msg (PR_createMappingRes ResultCode_ok)); EvClosed 22; ex_del [54; 53; 53; 51; 54];
   EvPost (ex_request (BankSlot 1 1) (ClientSlot 7 3)); EvPostReset 0; EvPostLink 0] ++ ex_bankd 33 1 2 ++
  [EvEventFd 8; EvRead 33 1 (rspro_msg (PR_createMappingRes ResultCode_illegalSlotId))].

Definition away_bankd_events : list (Z * bankd_event) :=
  [(2000, from_server (PR_createMappingReq (MkClientSlot 7 3) (MkBankSlot 1 0)));
   (2001, BeServer (CvRead 0 (rspro_ipa [])));
   (4000, BeServer CvTimer); (4002, BeServer CvUp);
   (4003, from_server (PR_connectBankRes (example_ident ComponentType_remsimServer) ResultCode_ok));
   (4004, from_server (PR_createMappingReq (MkClientSlot 7 3) (MkBankSlot 1 1)))].

Definition away_requests : list (option RsproPDUchoice) :=
  [Some (PR_connectBankRes (fill_comp_id ex_srv) ResultCode_ok);
   Some (PR_createMappingReq (MkClientSlot 7 3) (MkBankSlot 1 1))].

(** Over two connections server and bankd need not agree.  While the bankd is
    away, B(1:0) is unmapped and its client slot mapped to B(1:1).  When the bankd
    is back, the server does not ask it to forget what it knew (nothing ever
    sends ResetStateReq), only for the new mapping; the bankd still has the old
    one and refuses, the server takes the response for a confirmation.  In the
    end B(1:1) is ACTIVE at the server, which knows of no other mapping, and
    B(1:0) is in force at the bankd. *)
Theorem deleted_while_away :
  let s := after (ag_srv_events ++ away_srv_events) in
  let b := run_example away_bankd_events in
  entries (srv_slotmaps s) = [SlotMapping (BankSlot 1 1) (ClientSlot 7 3) SLMAP_S_ACTIVE] ∧
  lview 2 (srv_slotmaps s) = BView [] [] [(BankSlot 1 1, ClientSlot 7 3)] [] [] ∧
  (λ d, msg <$> rspro_dec_msg d) <$> sent_to 33 s = away_requests ∧
  option_map (λ b, msg <$> (last (bankd_sent b.2) ≫= rspro_dec_msg)) b =
    Some (Some (PR_createMappingRes ResultCode_illegalSlotId)) ∧
  option_map (λ b, abs (bd_slotmaps b.2)) b = Some {[BankSlot 1 0 := ClientSlot 7 3]}.
Proof. repeat split; vm_compute; reflexivity. Qed.
