(* ===== verification/ServerMain.v ===== *)
(** * The main program of the server ([src/server/remsim_server.c])

    Its options and its start, with the creation of the listening socket
    ([rspro_server_create], [rspro_server_destroy]), of the slot maps
    ([slotmap_init]), of the event between the threads and of the REST interface
    ([rest_api_init]).  What is acquired and given back is a list, so that
    unwinding a start that fails can be stated: what remains of a stack.  The
    loop is that of [ServerProps]. *)

From S2P Require Import Prelude OsmoFsm Slotmap RsproPdu RsproUtil Ipa RsproServer RestApi.
From S2P Require Import ServerInv ServerSystem ServerProps CString.

(** ** Options *)

(** As [getopt_long] finds them; and whether arguments are left behind them. *)
Inductive server_option := SoHelp | SoVersion | SoDebug (mask : bytes) | SoDisableColor | SoOther.

(** The code the program exits with, if it does. *)
Fixpoint server_handle_options (opts : list server_option) (extra : bool) : option Z :=
  match opts with
  | [] => if extra then Some 2 else None
  | (SoHelp | SoVersion) :: _ => Some 0
  | (SoDebug _ | SoDisableColor | SoOther) :: opts => server_handle_options opts extra
  end.

(** ** Resources *)

(** What [main] and the functions it calls acquire: the contexts of talloc (the
    global one, those of the ASN.1 run-time and of the REST library, that of the
    message buffers) and the logging, before the options; the server with its
    lock and its listening socket; the slot maps with their lock; the event
    between the threads, its registration and the REST library. *)
Inductive server_res :=
| ResGlobalCtx | ResAsn1Ctx | ResRestCtx | ResMsgbCtx | ResLogging
| ResServer | ResServerLock | ResLink
| ResSlotmaps | ResSlotmapsLock
| ResEventfd | ResEventOfd | ResUlfius.

#[export] Instance server_res_eq_dec : EqDecision server_res.
Proof. solve_decision. Defined.

Inductive server_act := Acquire (r : server_res) | Release (r : server_res).

(** What no code gives back: [exit] leaves it to the system. *)
Definition process_res : list server_res := [ResLogging; ResMsgbCtx; ResRestCtx; ResAsn1Ctx; ResGlobalCtx].
Definition never_released (r : server_res) : bool := bool_decide (r ∈ ResSlotmapsLock :: process_res).

(** The stack of what is held: resources are given back in the reverse order,
    but for those that never are. *)
Fixpoint give_back (r : server_res) (stack : list server_res) : option (list server_res) :=
  match stack with
  | [] => None
  | r' :: stack =>
      if decide (r' = r) then Some stack
      else if never_released r' then cons r' <$> give_back r stack else None
  end.

Fixpoint held (stack : list server_res) (acts : list server_act) : option (list server_res) :=
  match acts with
  | [] => Some stack
  | Acquire r :: acts => held (r :: stack) acts
  | Release r :: acts => stack ← give_back r stack; held stack acts
  end.

(** What the system answers. *)
Record server_env := ServerEnv {
  se_hostname : option octets;
  se_version : octets;
  server_alloc_ok : bool;
  link_create_ok : bool;
  link_open_ok : bool;
  slotmaps_alloc_ok : bool;
  eventfd_rc : Z;
  ofd_register_ok : bool;
  ulfius_init_ok : bool;
  ulfius_start_ok : bool;
}.

Abbreviation Mn := (M (list server_act)).

Definition do_act (a : server_act) : Mn () := modify (λ l, l ++ [a]).
Definition acquire (r : server_res) : Mn () := do_act (Acquire r).
Definition release (r : server_res) : Mn () := do_act (Release r).

(** The beginning of [main]. *)
Definition main_contexts : Mn () :=
  acquire ResGlobalCtx ;; acquire ResAsn1Ctx ;; acquire ResRestCtx ;; acquire ResMsgbCtx ;;
  acquire ResLogging.

(** Whether the server was created; its lists are empty. *)
Definition rspro_server_open (se : server_env) : Mn bool :=
  osmo_assert (server_alloc_ok se) ;;
  acquire ResServer ;;
  acquire ResServerLock ;;
  if negb (link_create_ok se) then release ResServerLock ;; release ResServer ;; mret false
  else
    acquire ResLink ;;
    if negb (link_open_ok se) then release ResLink ;; release ResServerLock ;; release ResServer ;; mret false
    else mret true.

Definition rspro_server_destroy : Mn () :=
  release ResLink ;; release ResServerLock ;; release ResServer.

(** The list head of the maps and their lock are initialised before anybody
    looks whether there is memory for them. *)
Definition slotmap_create (se : server_env) : Mn () :=
  if slotmaps_alloc_ok se then acquire ResSlotmaps ;; acquire ResSlotmapsLock else undef.

Definition rest_api_start (se : server_env) : Mn Z :=
  if negb (ulfius_init_ok se) then mret (- 1)
  else
    acquire ResUlfius ;;
    if negb (ulfius_start_ok se) then release ResUlfius ;; mret (- 1) else mret 0.

(** ** Start *)

Inductive main_result := Exited (code : Z) | Running (s : rspro_server).

Definition server_comp_id (se : server_env) : app_comp_id :=
  AppCompId ComponentType_remsimServer
    (strlcpy_array (default (str_octets "unknown") (se_hostname se)))
    (strlcpy_array (str_octets "remsim-server")) (strlcpy_array (se_version se)) zeros zeros zeros zeros zeros.

Section main.
Context `{OsmoLib, Talloc, RsproCodec, IpaLib}.

(** The labels behind the loop. *)
Definition out_rspro : Mn main_result := rspro_server_destroy ;; mret (Exited 1).
Definition out_rps : Mn main_result := release ResSlotmaps ;; out_rspro.
Definition out_eventfd : Mn main_result := release ResEventfd ;; out_rps.
Definition out_unregister : Mn main_result := release ResEventOfd ;; out_eventfd.

(** Up to the loop, in the state it starts in. *)
Definition server_main (se : server_env) (opts : list server_option) (extra : bool) : Mn main_result :=
  main_contexts ;;
  match server_handle_options opts extra with
  | Some code => mret (Exited code)
  | None =>
      ok ← rspro_server_open se;
      if negb (ok : bool) then mret (Exited 1)
      else
        slotmap_create se ;;
        if eventfd_rc se <? 0 then out_rps
        else
          acquire ResEventfd ;;
          if negb (ofd_register_ok se) then out_eventfd
          else
            acquire ResEventOfd ;;
            rc ← rest_api_start se;
            if rc <? 0 then out_unregister
            else mret (Running (rspro_server_create (server_comp_id se)))
  end.

(** ** Properties *)

Definition start_works (se : server_env) : Prop :=
  link_create_ok se = true ∧ link_open_ok se = true ∧ 0 ≤ eventfd_rc se ∧ ofd_register_ok se = true ∧
  ulfius_init_ok se = true ∧ ulfius_start_ok se = true.

Lemma options_exit opts extra code :
  server_handle_options opts extra = Some code → code = 0 ∨ code = 2.
Proof.
  induction opts as [|o opts IH]; cbn.
  - destruct extra; [intros [= <-]; by right|done].
  - destruct o; try exact IH; intros [= <-]; by left.
Qed.

(** C38. What [main] does: the contexts of talloc and the logging are set up; help
    and the version exit with 0 and arguments that are no options with 2, before
    anything else is acquired; if everything works the loop starts in the initial
    state of the server; and if anything fails the program exits with 1, having
    given back the rest of what it acquired, in the reverse order, except for the
    lock of the slot maps: nothing ever destroys it, so that it remains after
    every failure behind their creation.  If there is no memory for the server an
    assertion fails; if there is none for the slot maps, NULL is used. *)
Theorem server_main_outcome `{Jansson} se opts extra :
  match server_main se opts extra [] with
  | Done (Running s, acts) =>
      server_handle_options opts extra = None ∧ start_works se ∧
      reachable (server_comp_id se) (SrvSys s []) ∧ s = rspro_server_create (server_comp_id se) ∧
      held [] acts = Some ([ResUlfius; ResEventOfd; ResEventfd; ResSlotmapsLock; ResSlotmaps;
                            ResLink; ResServerLock; ResServer] ++ process_res)
  | Done (Exited code, acts) =>
      server_handle_options opts extra = Some code ∧ (code = 0 ∨ code = 2) ∧ held [] acts = Some process_res ∨
      server_handle_options opts extra = None ∧ code = 1 ∧ ¬ start_works se ∧
      held [] acts =
        Some ((if link_create_ok se && link_open_ok se then [ResSlotmapsLock] else []) ++ process_res)
  | Panic => server_handle_options opts extra = None ∧ server_alloc_ok se = false
  | Undef => server_alloc_ok se = true ∧ link_create_ok se = true ∧ link_open_ok se = true ∧
             slotmaps_alloc_ok se = false
  | NoFuel => False
  end.
Proof.
  unfold server_main. destruct (server_handle_options opts extra) as [code|] eqn:Ho.
  { cbn. left. split; [done|]. split; [by eapply options_exit|done]. }
  destruct se as [h v [] [] [] [] rc [] [] []]; unfold start_works; cbn; try done;
    try (destruct (Z.ltb_spec rc 0); cbn);
    first [right; split_and!; [done..| |done]; intros (? & ? & ? & ? & ? & ?); first [discriminate|lia]
          |split_and!; done || apply rtc_refl].
Qed.
End main.
