(* ===== verification/PcscTest.v ===== *)
(** * The test program for PC/SC ([src/bankd/main.c], [driver_core.c], [driver_pcsc.c])

    It lists the readers of the PC/SC daemon and makes a reader with one slot of
    each.  Readers and slots are linked into lists by nodes inside the structures;
    here a node is linked by its forward pointer, and the two operations of
    libosmocore's lists are a class.  A new slot links the node of its reader
    instead of its own, which is in the list of readers already: that list then
    never ends ([reader_list_endless]). *)

From S2P Require Import Prelude Slotmap RsproPdu.

(** ** Lists *)

(** The list heads and nodes: of the list of readers, of a reader in it, of the
    slots of a reader, of a slot. *)
Inductive node := GCardReaders | ReaderList (r : nat) | ReaderSlots (r : nat) | SlotList (s : nat).

#[export] Instance node_eq_dec : EqDecision node.
Proof. solve_decision. Defined.

Definition links := node → option node.

(** [linuxlist.h]: a head is linked to itself; a node is added behind a head. *)
Class LinuxList := {
  INIT_LLIST_HEAD : node → links → links;
  llist_add : node → node → links → option links;
  init_next h l m : INIT_LLIST_HEAD h l m = if decide (m = h) then Some h else l m;
  add_next n h l x : n ≠ h → l h = Some x →
    ∃ l', llist_add n h l = Some l' ∧
      ∀ m, l' m = if decide (m = h) then Some n else if decide (m = n) then Some x else l m;
}.

(** The nodes of a list, up to its head; [None] if it has not ended. *)
Fixpoint llist_walk (fuel : nat) (l : links) (head cur : node) : option (list node) :=
  match fuel with
  | O => None
  | S fuel =>
      match l cur with
      | Some n => if decide (n = head) then Some [] else cons n <$> llist_walk fuel l head n
      | None => None
      end
  end.

(** ** State *)

Record card_reader := CardReader { cr_name : octets }.
Record card_reader_slot := CardReaderSlot { cs_reader : nat; cs_num : Z }.

Record probe_state := ProbeState {
  readers : list card_reader;
  slots : list card_reader_slot;
  next_of : links;
}.

Definition set_next_of (l : links) (s : probe_state) : probe_state := ProbeState (readers s) (slots s) l.

(** The heads of static lists. *)
Definition probe_init : probe_state :=
  ProbeState [] [] (λ m, if decide (m = GCardReaders) then Some GCardReaders else None).

Section probe.
Context `{LinuxList}.

Abbreviation Pr := (M probe_state).

Definition do_llist_add (n h : node) : Pr () :=
  l ← gets next_of;
  l' ← deref (llist_add n h l);
  modify (set_next_of l').

(** ** The core *)

(** The readers are numbered in the order of their allocation. *)
Definition card_reader_alloc (name : octets) (alloc_ok : bool) : Pr (option nat) :=
  if negb alloc_ok then mret None
  else
    r ← gets (λ s, length (readers s));
    modify (λ s, ProbeState (readers s ++ [CardReader name]) (slots s)
                   (INIT_LLIST_HEAD (ReaderSlots r) (next_of s))) ;;
    do_llist_add (ReaderList r) GCardReaders ;;
    mret (Some r).

(** The node of the reader is added to its slots. *)
Definition card_reader_slot_alloc (cr : option nat) (slot_num : Z) (alloc_ok : bool) : Pr () :=
  if negb alloc_ok then mret ()
  else
    r ← deref cr;
    do_llist_add (ReaderList r) (ReaderSlots r) ;;
    modify (λ s, ProbeState (readers s) (slots s ++ [CardReaderSlot r slot_num]) (next_of s)).

(** ** The driver *)

(** The names of the readers, each ended by a NUL, and another NUL behind them;
    reading on would be out of the memory. *)
Fixpoint reader_names (mem cur : octets) : option (list octets) :=
  match mem with
  | [] => None
  | c :: mem =>
      if c =? 0 then
        match cur with
        | [] => Some []
        | _ => cons cur <$> reader_names mem []
        end
      else reader_names mem (cur ++ [c])
  end.

(** What the PC/SC daemon answers, and whether memory suffices. *)
Record pcsc_env := PcscEnv {
  context_ok : bool;
  list_readers : option octets;
  reader_alloc_ok : nat → bool;
  slot_alloc_ok : nat → bool;
}.

Definition pcsc_readers_probe (e : pcsc_env) : Pr () :=
  if negb (context_ok e) then mret ()
  else
    match list_readers e with
    | None => mret ()
    | Some mem =>
        names ← deref (reader_names mem []);
        for_each (λ '(i, name),
          cr ← card_reader_alloc name (reader_alloc_ok e i);
          card_reader_slot_alloc cr 0 (slot_alloc_ok e i)) (imap pair names)
    end.

Definition pcsc_reader_open_slot : Z := - 1.

(** The only driver that is registered. *)
Definition card_readers_probe (e : pcsc_env) : Pr () := pcsc_readers_probe e.

(** ** Properties *)

(** The names as the daemon writes them. *)
Definition multi_string (names : list octets) : octets := mjoin (map (λ n, n ++ [0]) names) ++ [0].

Lemma reader_names_skip n mem cur :
  Forall (λ c, c ≠ 0) n → reader_names (n ++ mem) cur = reader_names mem (cur ++ n).
Proof.
  intros Hn. revert cur. induction Hn as [|c n Hc Hn IH]; intros cur; [by rewrite app_nil_r|].
  cbn [app reader_names]. rewrite (proj2 (Z.eqb_neq c 0)) by done. by rewrite IH, <-app_assoc.
Qed.

Lemma reader_names_multi names rest :
  Forall (λ n, n ≠ [] ∧ Forall (λ c, c ≠ 0) n) names →
  reader_names (multi_string names ++ rest) [] = Some names.
Proof.
  unfold multi_string. induction 1 as [|n names [Hne Hn] Hns IH]; [done|].
  change (mjoin (map (λ n, n ++ [0]) (n :: names))) with ((n ++ [0]) ++ mjoin (map (λ n, n ++ [0]) names)).
  rewrite <-!app_assoc, reader_names_skip by done. cbn [app]. cbn [reader_names].
  rewrite <-app_assoc in IH. cbn [app] in IH. rewrite Z.eqb_refl, IH. by destruct n.
Qed.

(** After readers were probed: the last reader heads the list of readers, and its
    node and the head of its slots are linked to each other. *)
Definition linked (s : probe_state) : Prop :=
  match length (readers s) with
  | O => next_of s GCardReaders = Some GCardReaders
  | S r => next_of s GCardReaders = Some (ReaderList r) ∧
           next_of s (ReaderList r) = Some (ReaderSlots r) ∧ next_of s (ReaderSlots r) = Some (ReaderList r)
  end.

Definition probed (s : probe_state) (names : list octets) (s' : probe_state) : Prop :=
  readers s' = readers s ++ map CardReader names ∧
  slots s' = slots s ++ map (λ r, CardReaderSlot r 0) (seq (length (readers s)) (length names)).

Lemma linked_some s : linked s → is_Some (next_of s GCardReaders).
Proof. unfold linked. destruct (length (readers s)); [intros ->|intros (-> & _)]; by eexists. Qed.

Lemma wp_probe_reader name s (Q : () → probe_state → Prop) :
  linked s → (∀ s', linked s' → probed s [name] s' → Q () s') →
  wp (cr ← card_reader_alloc name true; card_reader_slot_alloc cr 0 true) s Q.
Proof.
  intros Hl HQ. destruct (linked_some _ Hl) as [x Hx]. set (r := length (readers s)).
  unfold card_reader_alloc, card_reader_slot_alloc, do_llist_add. cbn [negb].
  do 2 apply wp_bind. apply wp_gets, wp_bind, wp_modify. fold r. do 2 apply wp_bind. apply wp_gets. cbn [next_of].
  destruct (add_next (ReaderList r) GCardReaders (INIT_LLIST_HEAD (ReaderSlots r) (next_of s)) x)
    as (l1 & Hadd1 & Hn1); [done|by rewrite init_next, decide_False by done|].
  rewrite Hadd1. apply wp_bind, wp_ret, wp_modify, wp_ret, wp_bind, wp_ret. do 2 apply wp_bind. apply wp_gets.
  cbn [next_of set_next_of].
  destruct (add_next (ReaderList r) (ReaderSlots r) l1 (ReaderSlots r)) as (l2 & Hadd2 & Hn2); [done| |].
  { rewrite Hn1, !decide_False by done. by rewrite init_next, decide_True by done. }
  rewrite Hadd2. apply wp_bind, wp_ret, wp_modify, wp_modify, HQ; cbn.
  - unfold linked. cbn [readers next_of]. rewrite length_app, Nat.add_comm. cbn [length Nat.add]. fold r.
    rewrite !Hn2. rewrite (decide_True (P := ReaderSlots r = ReaderSlots r)) by done.
    rewrite !(decide_False (P := GCardReaders = _)) by done.
    rewrite !(decide_False (P := ReaderList r = ReaderSlots r)) by done.
    rewrite (decide_True (P := ReaderList r = ReaderList r)) by done.
    rewrite Hn1, decide_True by done. done.
  - by split.
Qed.

Lemma probed_trans s s1 s2 n names : probed s [n] s1 → probed s1 names s2 → probed s (n :: names) s2.
Proof.
  intros [Hr1 Hs1] [Hr2 Hs2]. split.
  - by rewrite Hr2, Hr1, <-app_assoc.
  - rewrite Hs2, Hs1, Hr1, <-app_assoc, length_app. cbn. by rewrite Nat.add_1_r.
Qed.

Lemma wp_probe_readers e (l : list (nat * octets)) s (Q : () → probe_state → Prop) :
  (∀ i, reader_alloc_ok e i = true ∧ slot_alloc_ok e i = true) → linked s →
  (∀ s', linked s' → probed s l.*2 s' → Q () s') →
  wp (for_each (λ '(i, name), cr ← card_reader_alloc name (reader_alloc_ok e i);
                              card_reader_slot_alloc cr 0 (slot_alloc_ok e i)) l) s Q.
Proof.
  intros Hok. revert s. induction l as [|[i name] l IH]; intros s Hl HQ; cbn [for_each].
  - apply wp_ret, HQ; [done|]. by split; cbn; rewrite app_nil_r.
  - destruct (Hok i) as [-> ->]. apply wp_bind, wp_probe_reader; [done|]. intros s1 Hl1 Hp1.
    apply IH; [done|]. intros s2 Hl2 Hp2. apply HQ; [done|]. by eapply probed_trans.
Qed.

(** The list of readers: its walk never ends once there is a reader. *)
Lemma walk_endless s fuel :
  linked s → readers s ≠ [] → llist_walk fuel (next_of s) GCardReaders GCardReaders = None.
Proof.
  unfold linked. intros Hl Hne. destruct (length (readers s)) as [|r] eqn:Hlen.
  { by apply nil_length_inv in Hlen. }
  destruct Hl as (Hg & Hr & Hs).
  assert (∀ fuel, llist_walk fuel (next_of s) GCardReaders (ReaderList r) = None ∧
                  llist_walk fuel (next_of s) GCardReaders (ReaderSlots r) = None) as Hloop.
  { induction fuel0 as [|fuel0 [IHr IHs]]; [done|]. cbn [llist_walk].
    rewrite Hr, Hs, !decide_False by done. by rewrite IHr, IHs. }
  destruct fuel as [|fuel]; [done|]. cbn [llist_walk]. rewrite Hg, decide_False by done.
  by rewrite (proj1 (Hloop fuel)).
Qed.

(** One reader is made of each name, in the order of the daemon, with one slot 0.
    But the list of readers is then a list without an end, and what is in the
    list of slots of the last reader is not its slot but the reader itself. *)
Theorem reader_list_endless e names rest :
  context_ok e = true → list_readers e = Some (multi_string names ++ rest) →
  Forall (λ n, n ≠ [] ∧ Forall (λ c, c ≠ 0) n) names → names ≠ [] →
  (∀ i, reader_alloc_ok e i = true ∧ slot_alloc_ok e i = true) →
  ∃ s', card_readers_probe e probe_init = Done ((), s') ∧
    readers s' = map CardReader names ∧ slots s' = map (λ r, CardReaderSlot r 0) (seq 0 (length names)) ∧
    (∀ fuel, llist_walk fuel (next_of s') GCardReaders GCardReaders = None) ∧
    let last := (length names - 1)%nat in
    llist_walk 2 (next_of s') (ReaderSlots last) (ReaderSlots last) = Some [ReaderList last].
Proof.
  intros Hc Hl Hn Hne Hok.
  enough (wp (card_readers_probe e) probe_init (λ _ s', linked s' ∧ probed probe_init names s')) as Hwp.
  { apply wp_done in Hwp as ([] & s' & Hrun & Hlk & [Hr Hs]). exists s'. cbn in Hr, Hs.
    split; [done|]. split; [done|]. split; [done|]. split.
    - intros fuel. apply walk_endless; [done|]. rewrite Hr. by destruct names.
    - unfold linked in Hlk. rewrite Hr, length_map in Hlk. destruct names as [|n names]; [done|].
      cbn [length Nat.sub] in *. rewrite Nat.sub_0_r. destruct Hlk as (_ & Hr1 & Hs1).
      cbn [llist_walk]. rewrite Hs1, decide_False by done. by rewrite Hr1, decide_True by done. }
  unfold card_readers_probe, pcsc_readers_probe. rewrite Hc, Hl, reader_names_multi by done. cbn [negb].
  apply wp_bind, wp_ret, wp_probe_readers; [done|done|]. intros s' Hlk Hp. split; [done|].
  enough ((imap pair names).*2 = names) as Heq by by rewrite Heq in Hp.
  rewrite fmap_imap. clear. generalize 0%nat as k. induction names as [|n names IH]; [done|]. intros k.
  cbn. f_equal. exact (IH (S k)).
Qed.
End probe.

(** ** A concrete run *)

#[refine] #[export] Instance linux_list_ref : LinuxList := {
  INIT_LLIST_HEAD h l m := if decide (m = h) then Some h else l m;
  llist_add n h l :=
    match l h with
    | Some x => Some (λ m, if decide (m = h) then Some n else if decide (m = n) then Some x else l m)
    | None => None
    end;
}.
Proof.
  - done.
  - intros n h l x _ Hx. rewrite Hx. by eexists.
Defined.

Definition two_readers : pcsc_env :=
  PcscEnv true (Some [65; 0; 66; 0; 0]) (λ _, true) (λ _, true).

Lemma reader_list_endless_witness :
  ∃ s', card_readers_probe two_readers probe_init = Done ((), s') ∧
    readers s' = [CardReader [65]; CardReader [66]] ∧
    ∀ fuel, llist_walk fuel (next_of s') GCardReaders GCardReaders = None.
Proof.
  destruct (reader_list_endless two_readers [[65]; [66]] []) as (s' & Hrun & Hr & _ & Hw & _).
  - reflexivity.
  - reflexivity.
  - repeat constructor; discriminate.
  - discriminate.
  - done.
  - by exists s'.
Defined.
